(* ===== verification/_CoqProject ===== *)
-Q . S2P
Prelude.v
Params.v
CString.v
Spinlock.v
Proc.v
ProcSpec.v
ProcInv.v
ProcStep.v
ProcTime.v
ProcTotal.v
ProcRun.v
Pipe.v
Kalloc.v
Vm.v
VmSpace.v
VmUser.v
VmFork.v
Copyout.v
Bytes.v
Bio.v
Store.v
Log.v
Txn.v
Fs.v
FsSpec.v
FsData.v
FsFile.v
FsWrite.v
FsCache.v
FsDir.v
FsPath.v
FsLog.v
FsTxn.v
FsBoot.v
FsDemo.v
File.v
KEnv.v
KRun.v
Syscall.v
Sysfile.v
Exec.v
Bootmain.v
Mp.v
Segment.v
Trapasm.v
Hw.v
Dispatch.v
Console.v
ConsoleIn.v
Kbd.v
Ide.v
Mkfs.v
MkfsSpec.v
MkfsImage.v
MkfsMain.v
MkfsBoot.v
Umalloc.v
UmallocSpec.v
UmallocSafe.v
UmallocSbrk.v
Grep.v
Sh.v
ShTotal.v
ShPrint.v
ShLine.v
ShRun.v
User.v
UserSpec.v
UserProgs.v
UserSh.v
