(* ===== verification/Prelude.v ===== *)
(** * xv6 with waitx: a Rocq verification development

    ** The program

    xv6 is a small Unix for multiprocessor PCs; this version adds the system
    call waitx, which returns a child's wait and run time. The boot loader
    (bootmain.c) loads the kernel, whose main (main.c) finds the processors
    (mp.c), sets up memory, descriptor tables and devices (lapic.c, ioapic.c,
    picirq.c, timer.c, uart.c) and starts the first process. A trap enters the
    kernel (trapasm.S, trap.c), which handles a device interrupt (console.c, kbd.c, ide.c)
    or dispatches a system call (syscall.c) to the process calls (sysproc.c) or
    the file calls (sysfile.c, exec.c). Processes (proc.c) sleep and are woken
    under spin locks (spinlock.c), run in address spaces built from pages (vm.c,
    kalloc.c), and share open files (file.c): pipes (pipe.c), the console, or
    inodes (fs.c). The file system changes disk blocks only inside transactions
    of a write-ahead log (log.c) over a buffer cache (bio.c) and a disk driver
    (ide.c, memide.c). On the host, mkfs.c makes the disk image; on top run the
    shell (sh.c), grep.c and other user programs with a small library (ulib.c,
    printf.c, umalloc.c).

    ** How the code is modelled

    C integers are Z values with their wrap-around written out ([u32], [s32]
    and so on below). Code that changes state is in the kernel monad of this
    file: an operation on a state returns ([Done]), gives up the CPU on a
    channel ([Sleeping]), panics ([Panic]), or does not return or has no defined
    behaviour ([Diverge]). A pointer into a table is the index in the table, a
    pointer to caller memory is the bytes there. An operation runs from entry or
    wakeup to its return or its next sleep without interleaving; in Proc.v the
    locks and the interrupt nesting are part of the state. The tables the C code
    walks with pointers (the LRU list of bio.c, the free list of kalloc.c, page
    tables) are modelled with the pointers, and related to lists in the proofs.
    User programs are interaction trees over the system calls. What a device
    answers to reads is an argument of the definitions that read it.

    ** The files

    - Prelude.v: integers, the kernel monad, scans, tactics. Params.v: the
      constants of the headers. Bytes.v: integers in byte arrays.
    - CString.v (string.c, ulib.c): memory and string functions; memmove with
      overlap, strncmp against strncpy, the bounds of safestrcpy.
    - Spinlock.v (spinlock.c): acquire, release, pushcli, popcli; the
      interleaving of several CPUs at the level of instructions, mutual
      exclusion, balanced interrupt nesting.
    - Proc.v (proc.c, proc.h, part of trap.c): the process table, scheduler,
      sleep, wakeup, fork, exit, wait, waitx, kill, growproc, traps. What it
      calls elsewhere is the class [ProcEnv]. ProcSpec.v: what each operation
      does to the table. ProcInv.v: an abstract machine on process tables and
      its invariants. ProcStep.v: every kernel step refines it, so parents are
      alive, pids distinct, a running process on one CPU, and no one waiting
      for a zombie it has. ProcTime.v: the times waitx reports. ProcTotal.v:
      waitx, wait, kill and fork return, with their exact effect on every
      branch. ProcRun.v: concrete runs.
    - Pipe.v (pipe.c): first in first out over any interleaving, no lost
      wakeup, and the one that a killed writer loses.
    - Kalloc.v (kalloc.c): the page allocator never hands out a page twice.
    - Vm.v (vm.c): page tables; mappages changes exactly the translations it
      should. VmSpace.v: address spaces as the pages they own. VmUser.v, VmFork.v:
      allocuvm, copyuvm and freevm return, with their effect on every user
      address and without losing a page. Copyout.v: copyout.
    - Bootmain.v (bootmain.c): the boot loader leaves the kernel's segments in
      place. Mp.v (mp.c, mp.h): the processors found in the BIOS's tables.
      Segment.v (mmu.h, seginit, tvinit): the descriptor tables protect the
      kernel. Trapasm.v (trapasm.S, vectors.S, swtch.S): instructions on
      registers and memory; traps can be returned from and threads resumed.
    - Hw.v (lapic.c, ioapic.c, picirq.c, timer.c, uart.c, part of ide.c and
      main.c): device registers; main lets through the interrupts that have a
      driver, cmostime reads a date the clock showed, lapicstartap sends a
      processor to its code, the boot page table maps the kernel twice.
    - Bio.v (bio.c, buf.h, memide.c): the buffer cache implements a block store
      and recycles the least recently used buffer.
    - Log.v (log.c) and Txn.v: the log implements transactions; a power failure
      at any disk write leaves an image that recovers to the state before or
      after the transaction; recovery may itself be interrupted.
    - Store.v: the interface between fs.c and the log, as the classes
      [BlockStore], [BlockStoreLaws] and [Transactions]; FsLog.v: the log is
      an instance.
    - Fs.v (fs.c, fs.h, stat.h): every function of the file system over that
      interface. FsSpec.v, FsData.v, FsFile.v, FsWrite.v: block allocation, the
      map from file blocks to disk blocks, readi and writei as reading and
      splicing of the file's bytes that leave all other files alone. FsCache.v:
      the inode cache. FsDir.v: directories as maps from names. FsPath.v: namei
      walks the directory tree. FsTxn.v: file system operations between begin_op
      and end_op are atomic. FsBoot.v: the start of the file system and reading
      by path. FsDemo.v: a concrete disk.
    - File.v (file.c, file.h), Syscall.v (syscall.c, sysproc.c), Sysfile.v
      (sysfile.c), Exec.v (exec.c, elf.h), Dispatch.v (syscall.c, trap.c): the
      layers above, on the state [kenv] of the whole kernel; KEnv.v makes it an
      instance of [ProcEnv]; KRun.v: a concrete state of it, in which wait and
      waitx collect a child and free its pages.
    - Console.v, ConsoleIn.v (console.c, printf.c, part of uart.c), Kbd.v (kbd.c,
      kbd.h), Ide.v (ide.c): output stays on the screen, the line discipline,
      printf and atoi, the characters that keys mean; the IDE request queue does
      what the memory disk does.
    - Mkfs.v (mkfs.c) with MkfsSpec.v, MkfsImage.v and MkfsMain.v: the image
      that mkfs makes is bootable and holds the files it was given. MkfsBoot.v:
      the kernel started on it reads them back by name, and what a search past
      the end of a full root directory costs.
    - Umalloc.v (umalloc.c) with UmallocSpec.v and UmallocSafe.v: malloc and free
      return, and keep the blocks of a program apart. UmallocSbrk.v: growproc and
      allocuvm provide the sbrk they ask for.
    - Grep.v (grep.c): the matcher decides the language of its patterns; the
      lines printed. Sh.v (sh.c) with ShTotal.v, ShPrint.v, ShLine.v and ShRun.v:
      the parser ends on every line, reads back what is printed or typed, and
      running a command makes the processes that it stands for, with the files
      and pipes as written and the waits between them.
    - User.v (cat.c, echo.c, forktest.c, fun.c, grep.c, init.c, kill.c, ln.c, ls.c,
      mkdir.c, rm.c, sh.c, stressfs.c, time.c, wc.c, zombie.c): the programs.
      UserSpec.v: how they run against a world that answers their calls.
      UserProgs.v, UserSh.v: what cat, wc, echo and grep write, a session of the
      shell on any text and what its children run, and that forktest succeeds.

    ** Bounds and fuel

    A loop that is not structural takes as fuel a bound on its turns. readi,
    writei, filewrite, copyout and iappend of mkfs get the number of bytes, as
    each turn moves at least one; dirlookup and dirlink the size of the
    directory, namex the length of the path; balloc and ialloc the number of
    bitmap blocks and of inodes; the loops of vm.c over pages 2^20, the pages of
    the address space; the shell's parsers four times the length of the line
    plus four, as the recursion passes through four functions before a byte is
    consumed. That the fuel is enough is proved where a theorem says that the
    operation returns: readi, writei, dirlookup, dirlink, namex, mappages,
    allocuvm, deallocuvm, copyuvm, freevm, copyout, the log, the buffer cache,
    mkfs, the shell's parser, and the process operations of ProcTotal.v. For
    filewrite, loaduvm and the calls of sysfile.c and exec.c there is no such
    theorem. malloc and free get at least 2^29 + 8 turns, more than there are headers in
    the address space. The loops of bootmain.c and of the search of mp.c get the
    number of turns that their arguments give; the polls of devices and the loop
    of cmostime a bound that the theorem relates to when the device gets ready.
    A user program is run for some number of steps, which the theorem provides.

    The memory theorems ask for the pages an operation may need at most to be
    free: the pages of the program and 1024 page tables, or 1025 with the
    directory.

    Table sizes are the constants of param.h. A transaction may log 28 blocks:
    log_write wants one slot left of the 29 that the log has beside its header,
    and bread needs two of the 30 buffers beside those that are pinned. The
    process table is considered until nextpid reaches the largest int.

    ** Assumptions and what is not modelled

    An operation is one step up to its context switch: that the critical
    sections of a lock do not overlap is proved in Spinlock.v, and that the
    operations may therefore be taken one at a time is how the other files are
    set up, not a theorem. The value of a system call that slept is not stored
    when it resumes (Dispatch.v). In ShRun.v forks succeed, in Sh.v malloc does.
    The world of UserSpec.v that answers the calls of user programs is a
    specification of its own, not derived from the model of the kernel: in it
    writes to open descriptors succeed, and a child only ends.

    Devices answer as the hypotheses of a theorem say (the disk gets ready, the
    clock ticks at most once in thirteen reads); each is shown to hold for a
    concrete device.

    Not modelled: startothers, mpenter and mpmain of main.c, which run code on
    several processors at once, and the calls of main that only compose the
    initial states of the components; bootasm.S, entry.S and entryother.S, which
    switch the processor's mode, and initcode.S and usys.S, which are system call
    stubs; kvmalloc and idtinit, which load a register with a table modelled
    here; panic, procdump and getcallerpcs, which only report; usertests.c, a
    program of test cases for the kernel; the host's C library under mkfs. *)

From Stdlib Require Export ZArith Lia.
From stdpp Require Export base gmap strings functions list_basics list_relations list_monad list.

#[export] Set Default Proof Using "Type".
Global Open Scope Z_scope.

(** ** Machine integers

    [uint], [ushort] and [uchar] are Z values reduced modulo their width,
    [int] and [short] are two's complement (types.h; the kernel is built with
    gcc for i386, where conversions and overflow wrap). *)
Definition u8 (x : Z) : Z := x mod 2 ^ 8.
Definition u16 (x : Z) : Z := x mod 2 ^ 16.
Definition u32 (x : Z) : Z := x mod 2 ^ 32.
Definition s16 (x : Z) : Z := (x + 2 ^ 15) mod 2 ^ 16 - 2 ^ 15.
Definition s32 (x : Z) : Z := (x + 2 ^ 31) mod 2 ^ 32 - 2 ^ 31.

Ltac wraps := unfold u8, u16, u32, s16, s32 in *; Z.div_mod_to_equations; lia.

Lemma u32_small x : 0 <= x < 2 ^ 32 -> u32 x = x.
Proof. intros; unfold u32; apply Z.mod_small; lia. Qed.

Lemma s32_small x : - 2 ^ 31 <= x < 2 ^ 31 -> s32 x = x.
Proof. intros; unfold s32; rewrite Z.mod_small; lia. Qed.

Lemma u32_range x : 0 <= u32 x < 2 ^ 32.
Proof. apply Z.mod_pos_bound; lia. Qed.

Lemma s32_range x : - 2 ^ 31 <= s32 x < 2 ^ 31.
Proof. unfold s32. pose proof (Z.mod_pos_bound (x + 2 ^ 31) (2 ^ 32)). lia. Qed.

Lemma u32_s32 x : u32 (s32 x) = u32 x.
Proof. wraps. Qed.

Lemma s32_u32 x : s32 (u32 x) = s32 x.
Proof. wraps. Qed.

Lemma s32_idemp x : s32 (s32 x) = s32 x.
Proof. wraps. Qed.

Lemma u32_idemp x : u32 (u32 x) = u32 x.
Proof. wraps. Qed.

Lemma s32_congr x y : u32 x = u32 y -> s32 x = s32 y.
Proof. intros H. rewrite <- (s32_u32 x), H. apply s32_u32. Qed.

Lemma u32_add_l x y : u32 (u32 x + y) = u32 (x + y).
Proof. unfold u32. apply Zplus_mod_idemp_l. Qed.

Lemma u32_add_r x y : u32 (x + u32 y) = u32 (x + y).
Proof. unfold u32. apply Zplus_mod_idemp_r. Qed.

Lemma u32_sub_l x y : u32 (u32 x - y) = u32 (x - y).
Proof. unfold u32. apply Zminus_mod_idemp_l. Qed.

Lemma u32_sub_r x y : u32 (x - u32 y) = u32 (x - y).
Proof. unfold u32. apply Zminus_mod_idemp_r. Qed.

Create Rewrite HintDb wrap.
#[export] Hint Rewrite u32_s32 s32_u32 s32_idemp u32_idemp
  u32_add_l u32_add_r u32_sub_l u32_sub_r : wrap.

(** ** Flag words

    [has f b], [setf f b] and [clrf f b] are C's [f & b], [f |= b] and
    [f &= ~b]; the flags of the kernel are single bits [2 ^ k]. *)
Definition has (f b : Z) : bool := negb (Z.land f b =? 0).
Definition setf (f b : Z) : Z := Z.lor f b.
Definition clrf (f b : Z) : Z := Z.land f (Z.lnot b).

Lemma has_bit f k : 0 <= k -> has f (2 ^ k) = Z.testbit f k.
Proof.
  intros Hk. unfold has. destruct (Z.testbit f k) eqn:E.
  - apply negb_true_iff, Z.eqb_neq. intros H0.
    assert (H : Z.testbit (Z.land f (2 ^ k)) k = true)
      by (rewrite Z.land_spec, E, Z.pow2_bits_true; auto).
    rewrite H0, Z.bits_0 in H. discriminate.
  - apply negb_false_iff, Z.eqb_eq, Z.bits_inj'. intros n Hn.
    rewrite Z.land_spec, Z.bits_0, Z.pow2_bits_eqb by lia.
    destruct (Z.eqb_spec k n) as [->|]; [rewrite E; done|apply andb_false_r].
Qed.

Lemma has_setf f j k : 0 <= j -> 0 <= k ->
  has (setf f (2 ^ j)) (2 ^ k) = (has f (2 ^ k) || (j =? k))%bool.
Proof.
  intros. rewrite !has_bit by lia. unfold setf.
  by rewrite Z.lor_spec, Z.pow2_bits_eqb by lia.
Qed.

Lemma has_clrf f j k : 0 <= j -> 0 <= k ->
  has (clrf f (2 ^ j)) (2 ^ k) = (has f (2 ^ k) && negb (j =? k))%bool.
Proof.
  intros. rewrite !has_bit by lia. unfold clrf.
  by rewrite Z.land_spec, Z.lnot_spec, Z.pow2_bits_eqb by lia.
Qed.

Lemma has_pow j k : 0 <= j -> 0 <= k -> has (2 ^ j) (2 ^ k) = (j =? k).
Proof. intros. rewrite has_bit, Z.pow2_bits_eqb by lia. done. Qed.

Lemma has_0 b : has 0 b = false.
Proof. unfold has. by rewrite Z.land_0_l. Qed.

(** ** Channels

    The argument of sleep() and wakeup() is the address of some kernel
    object; distinct objects have distinct addresses. *)
Inductive chan : Set :=
| CNull
| CProc (i : nat)            (** &ptable.proc[i] *)
| CTicks                     (** &ticks *)
| CLog                       (** &log *)
| CBuf (i : nat)             (** &bcache.buf[i] *)
| CInode (i : nat)           (** &icache.inode[i] *)
| CPipeR (p : Z)             (** &p->nread *)
| CPipeW (p : Z)             (** &p->nwrite *)
| CInput.                    (** &input.r *)

#[export] Instance chan_eq_dec : EqDecision chan.
Proof. solve_decision. Defined.

(** ** Outcomes and the kernel monad

    Kernel code runs on an explicit state: it returns, sleeps on a channel
    (the state is the one left for the others), panics, or spins forever. *)
Inductive outcome (S A : Type) : Type :=
| Done (s : S) (a : A)
| Sleeping (s : S) (c : chan)
| Panic (msg : string)
| Diverge.
Arguments Done {S A} _ _.
Arguments Sleeping {S A} _ _.
Arguments Panic {S A} _.
Arguments Diverge {S A}.

Definition kernel (S A : Type) : Type := S -> outcome S A.

#[export] Instance kernel_ret S : MRet (kernel S) := fun A a s => Done s a.
#[export] Instance kernel_bind S : MBind (kernel S) := fun A B k m s =>
  match m s with
  | Done s' a => k a s'
  | Sleeping s' c => Sleeping s' c
  | Panic msg => Panic msg
  | Diverge => Diverge
  end.

Definition kget {S} : kernel S S := fun s => Done s s.
Definition kgets {S A} (f : S -> A) : kernel S A := fun s => Done s (f s).
Definition kmodify {S} (f : S -> S) : kernel S unit := fun s => Done (f s) tt.
Definition kpanic {S A} (msg : string) : kernel S A := fun _ => Panic msg.
Definition kspin {S A} : kernel S A := fun _ => Diverge.
Definition ksleep {S A} (c : chan) : kernel S A := fun s => Sleeping s c.
Definition kwhen {S} (b : bool) (m : kernel S unit) : kernel S unit :=
  if b then m else mret tt.

(** Run code of a component on the field of a larger state that holds it. *)
Definition klift {S T A} (get : T -> S) (put : S -> T -> T) (m : kernel S A) : kernel T A :=
  fun t => match m (get t) with
           | Done s a => Done (put s t) a
           | Sleeping s c => Sleeping (put s t) c
           | Panic msg => Panic msg
           | Diverge => Diverge
           end.

Lemma bind_Done {S A B} (m : kernel S A) (k : A -> kernel S B) s s' a :
  m s = Done s' a -> (x ← m; k x) s = k a s'.
Proof. intros H. unfold mbind, kernel_bind. by rewrite H. Qed.

Lemma bind_inv {S A B} (m : kernel S A) (k : A -> kernel S B) s s' b :
  (x ← m; k x) s = Done s' b ->
  exists s1 a, m s = Done s1 a /\ k a s1 = Done s' b.
Proof.
  unfold mbind, kernel_bind. destruct (m s); try discriminate. eauto.
Qed.

Lemma bind_assoc {S A B C} (m : kernel S A) (f : A -> kernel S B) (g : B -> kernel S C) s :
  (y ← (x ← m; f x); g y) s = (x ← m; y ← f x; g y) s.
Proof. unfold mbind, kernel_bind. by destruct (m s). Qed.

Ltac kunfold := unfold mret, kernel_ret, kgets, kget, kmodify, kpanic, kspin, kwhen in *.

(** Decompose hypotheses [(x ← m; k) s = Done s' b] into their steps. *)
Ltac kinv :=
  repeat match goal with
  | H : Done _ _ = Done _ _ |- _ => injection H as H; subst
  | H : Panic _ = Done _ _ |- _ => discriminate H
  | H : Diverge = Done _ _ |- _ => discriminate H
  | H : Sleeping _ _ = Done _ _ |- _ => discriminate H
  | H : mbind _ _ _ = Done _ _ |- _ =>
      let s1 := fresh "s" in let a := fresh "a" in
      let H1 := fresh "H" in let H2 := fresh "H" in
      apply bind_inv in H as (s1 & a & H1 & H2)
  end.

(** ** Scans: the index of the first element that satisfies a test *)
Fixpoint find_index {A} (P : A -> bool) (l : list A) : option nat :=
  match l with
  | [] => None
  | x :: l' => if P x then Some 0%nat else S <$> find_index P l'
  end.

Lemma find_index_Some {A} (P : A -> bool) (l : list A) i :
  find_index P l = Some i <->
  (exists x, l !! i = Some x /\ P x = true) /\
  (forall j x, (j < i)%nat -> l !! j = Some x -> P x = false).
Proof.
  revert i. induction l as [|y l IH]; intros i; simpl.
  - split; [discriminate|]. by intros [(x & ? & _) _].
  - destruct (P y) eqn:E.
    + split.
      * intros [= <-]. split; [eauto|]. lia.
      * intros [_ Hj]. destruct i as [|i]; [done|].
        specialize (Hj 0%nat y ltac:(lia) eq_refl). congruence.
    + destruct (find_index P l) as [k|] eqn:F; simpl.
      * destruct (proj1 (IH k) eq_refl) as [Hx Hl]. split.
        -- intros [= <-]. split; [done|]. intros [|j] x Hlt; simpl; [congruence|].
           apply Hl. lia.
        -- intros [(x & Hx1 & Hx2) Hl']. destruct i as [|i]; [simplify_eq/=; congruence|].
           f_equal. f_equal. apply (inj Some), IH. split; [eauto|].
           intros j z Hlt Hz. apply (Hl' (S j) z); [lia|done].
      * split; [discriminate|]. intros [(x & Hx1 & Hx2) Hl'].
        destruct i as [|i]; [simplify_eq/=; congruence|].
        enough (None = Some i) by discriminate. apply IH. split; [eauto|].
        intros j z Hlt Hz. apply (Hl' (S j) z); [lia|done].
Qed.

Lemma find_index_None {A} (P : A -> bool) (l : list A) :
  find_index P l = None <-> (forall i x, l !! i = Some x -> P x = false).
Proof.
  induction l as [|y l IH]; simpl.
  - split; [by intros _ []|done].
  - destruct (P y) eqn:E.
    + split; [discriminate|]. intros H. specialize (H 0%nat y eq_refl). congruence.
    + rewrite fmap_None, IH. split.
      * intros H [|i] x; simpl; [congruence|apply H].
      * intros H i x Hx. apply (H (S i) x Hx).
Qed.

Lemma find_index_lt {A} (P : A -> bool) (l : list A) i :
  find_index P l = Some i -> (i < length l)%nat.
Proof. intros [(x & Hx & _) _]%find_index_Some. by eapply lookup_lt_Some. Qed.

(** ** Tactics and hints shared by the components *)
Create Rewrite HintDb len.
#[export] Hint Rewrite @length_app @length_drop @length_take @length_fmap
  @length_replicate @length_insert @length_alter @length_reverse @length_seq @length_map : len.
Ltac len := autorewrite with len in *; simpl in *; try lia.

Ltac case_bool :=
  match goal with
  | |- context [if ?b then _ else _] => let E := fresh "E" in destruct b eqn:E
  | H : context [if ?b then _ else _] |- _ => let E := fresh "E" in destruct b eqn:E
  end.

(** Reflect boolean tests of the code into propositions. *)
Ltac breflect :=
  repeat match goal with
  | H : (_ =? _)%Z = true |- _ => apply Z.eqb_eq in H
  | H : (_ =? _)%Z = false |- _ => apply Z.eqb_neq in H
  | H : (_ <? _)%Z = true |- _ => apply Z.ltb_lt in H
  | H : (_ <? _)%Z = false |- _ => apply Z.ltb_ge in H
  | H : (_ <=? _)%Z = true |- _ => apply Z.leb_le in H
  | H : (_ <=? _)%Z = false |- _ => apply Z.leb_gt in H
  | H : (_ =? _)%nat = true |- _ => apply Nat.eqb_eq in H
  | H : (_ =? _)%nat = false |- _ => apply Nat.eqb_neq in H
  | H : (_ && _)%bool = true |- _ => apply andb_true_iff in H as [? ?]
  | H : (_ || _)%bool = false |- _ => apply orb_false_iff in H as [? ?]
  | H : negb _ = true |- _ => apply negb_true_iff in H
  | H : negb _ = false |- _ => apply negb_false_iff in H
  | H : bool_decide _ = true |- _ => apply bool_decide_eq_true in H
  | H : bool_decide _ = false |- _ => apply bool_decide_eq_false in H
  end.
