(* ===== verification/CString.v ===== *)
(** * Memory and string routines (string.c, and the ones of ulib.c)

    [memset], [memcmp] and [memmove] work on a byte memory indexed by
    address.  The string routines work on the bytes from a pointer to the end
    of the object it points into; [None] is an access past that object. *)

From S2P Require Import Prelude.

(** ** Byte memory *)
Abbreviation mem := (gmap Z Z).

Definition ld8 (m : mem) (a : Z) : Z := default 0 (m !! a).
Definition st8 (m : mem) (a v : Z) : mem := <[a := u8 v]> m.

(** Little-endian words, as the i386 stores them. *)
Definition ld32 (m : mem) (a : Z) : Z :=
  ld8 m a + 2 ^ 8 * ld8 m (a + 1) + 2 ^ 16 * ld8 m (a + 2) + 2 ^ 24 * ld8 m (a + 3).
Definition st32 (m : mem) (a v : Z) : mem :=
  st8 (st8 (st8 (st8 m a v) (a + 1) (v / 2 ^ 8)) (a + 2) (v / 2 ^ 16)) (a + 3) (v / 2 ^ 24).

(** rep stosb and rep stosl (x86.h) *)
Fixpoint stosb (m : mem) (addr data : Z) (cnt : nat) : mem :=
  match cnt with
  | O => m
  | S cnt' => stosb (st8 m addr data) (addr + 1) data cnt'
  end.

Fixpoint stosl (m : mem) (addr data : Z) (cnt : nat) : mem :=
  match cnt with
  | O => m
  | S cnt' => stosl (st32 m addr data) (addr + 4) data cnt'
  end.

Definition memset (m : mem) (dst c n : Z) : mem :=
  if (dst mod 4 =? 0) && (n mod 4 =? 0) then
    let c := Z.land c 255 in
    stosl m dst (Z.lor (Z.lor (Z.lor (Z.shiftl c 24) (Z.shiftl c 16)) (Z.shiftl c 8)) c)
          (Z.to_nat (n / 4))
  else stosb m dst c (Z.to_nat n).

Fixpoint memcmp_loop (m : mem) (s1 s2 : Z) (n : nat) : Z :=
  match n with
  | O => 0
  | S n' => if negb (ld8 m s1 =? ld8 m s2) then ld8 m s1 - ld8 m s2
            else memcmp_loop m (s1 + 1) (s2 + 1) n'
  end.
Definition memcmp (m : mem) (v1 v2 n : Z) : Z := memcmp_loop m v1 v2 (Z.to_nat n).

(** while(n-- > 0) *--d = *--s; *)
Fixpoint move_down (m : mem) (d s : Z) (n : nat) : mem :=
  match n with
  | O => m
  | S n' => move_down (st8 m (d - 1) (ld8 m (s - 1))) (d - 1) (s - 1) n'
  end.

(** while(n-- > 0) *d++ = *s++; *)
Fixpoint move_up (m : mem) (d s : Z) (n : nat) : mem :=
  match n with
  | O => m
  | S n' => move_up (st8 m d (ld8 m s)) (d + 1) (s + 1) n'
  end.

Definition memmove (m : mem) (dst src n : Z) : mem :=
  if (src <? dst) && (src + n >? dst) then move_down m (dst + n) (src + n) (Z.to_nat n)
  else move_up m dst src (Z.to_nat n).

(** ** Strings *)
Fixpoint strlen (s : list Z) : option Z :=
  match s with
  | [] => None
  | c :: s' => if c =? 0 then Some 0 else Z.succ <$> strlen s'
  end.

Fixpoint strncmp (p q : list Z) (n : nat) : option Z :=
  match n with
  | O => Some 0
  | S n' =>
      match p, q with
      | a :: p', b :: q' =>
          if negb (a =? 0) && (a =? b) then strncmp p' q' n' else Some (u8 a - u8 b)
      | _, _ => None
      end
  end.

(** The [n] bytes strncpy writes. *)
Fixpoint strncpy (t : list Z) (n : nat) : option (list Z) :=
  match n, t with
  | O, _ => Some []
  | S _, [] => None
  | S n', a :: t' => if a =? 0 then Some (0 :: replicate n' 0) else cons a <$> strncpy t' n'
  end.

(** The bytes safestrcpy writes for a size [S n]: the loop stops after
    copying a NUL, and one more NUL is stored behind what was copied. *)
Fixpoint safestrcpy_loop (t : list Z) (n : nat) : option (list Z) :=
  match n, t with
  | O, _ => Some [0]
  | S _, [] => None
  | S n', a :: t' => if a =? 0 then Some [0; 0] else cons a <$> safestrcpy_loop t' n'
  end.
Definition safestrcpy (s t : list Z) (n : nat) : option (list Z) :=
  match n with
  | O => Some s
  | S n' => (fun w => w ++ drop (length w) s) <$> safestrcpy_loop t n'
  end.

(** ulib.c *)
Fixpoint strcmp (p q : list Z) : option Z :=
  match p, q with
  | a :: p', b :: q' =>
      if negb (a =? 0) && (a =? b) then strcmp p' q' else Some (u8 a - u8 b)
  | _, _ => None
  end.

Fixpoint strchr (s : list Z) (c : Z) (i : nat) : option (option nat) :=
  match s with
  | [] => None
  | a :: s' => if a =? 0 then Some None else if a =? c then Some (Some i) else strchr s' c (S i)
  end.

Fixpoint strcpy (t : list Z) : option (list Z) :=
  match t with
  | [] => None
  | a :: t' => if a =? 0 then Some [0] else cons a <$> strcpy t'
  end.

Fixpoint atoi_loop (s : list Z) (n : Z) : option Z :=
  match s with
  | [] => None
  | a :: s' => if (48 <=? a) && (a <=? 57) then atoi_loop s' (s32 (n * 10 + a - 48)) else Some n
  end.
Definition atoi (s : list Z) : option Z := atoi_loop s 0.

(** ** Memory lemmas *)
Definition bytes_ok (m : mem) : Prop := forall a, 0 <= ld8 m a < 256.

Lemma ld8_st8 m a v b : ld8 (st8 m a v) b = if a =? b then u8 v else ld8 m b.
Proof.
  unfold ld8, st8. rewrite lookup_insert. case_decide; subst.
  - by rewrite Z.eqb_refl.
  - by rewrite (proj2 (Z.eqb_neq a b)).
Qed.

Lemma ld8_stosb m addr data cnt b :
  ld8 (stosb m addr data cnt) b
  = if (addr <=? b) && (b <? addr + Z.of_nat cnt) then u8 data else ld8 m b.
Proof.
  revert m addr. induction cnt as [|cnt IH]; intros m addr; simpl.
  - destruct (Z.leb_spec addr b), (Z.ltb_spec b (addr + Z.of_nat 0)); simpl; done || lia.
  - rewrite IH, ld8_st8.
    destruct (Z.leb_spec (addr + 1) b), (Z.ltb_spec b (addr + 1 + Z.of_nat cnt)),
      (Z.leb_spec addr b), (Z.ltb_spec b (addr + Z.of_nat (S cnt))), (Z.eqb_spec addr b);
      simpl; done || lia.
Qed.

Lemma ld8_st32 m a v b :
  ld8 (st32 m a v) b =
  if (a <=? b) && (b <? a + 4) then u8 (v / 2 ^ (8 * (b - a))) else ld8 m b.
Proof.
  unfold st32. rewrite !ld8_st8.
  destruct (Z.leb_spec a b), (Z.ltb_spec b (a + 4)); simpl;
    destruct (Z.eqb_spec (a + 3) b), (Z.eqb_spec (a + 2) b), (Z.eqb_spec (a + 1) b), (Z.eqb_spec a b);
    subst; try lia; try done.
  - by replace (8 * (a + 3 - a)) with 24 by lia.
  - by replace (8 * (a + 2 - a)) with 16 by lia.
  - by replace (8 * (a + 1 - a)) with 8 by lia.
  - replace (8 * (b - b)) with 0 by lia. by rewrite Z.pow_0_r, Z.div_1_r.
Qed.

Lemma ld32_st32_same m a v : ld32 (st32 m a v) a = u32 v.
Proof.
  unfold ld32. rewrite !ld8_st32.
  destruct (Z.leb_spec a a), (Z.leb_spec a (a + 1)), (Z.leb_spec a (a + 2)),
    (Z.leb_spec a (a + 3)); try lia.
  destruct (Z.ltb_spec a (a + 4)), (Z.ltb_spec (a + 1) (a + 4)), (Z.ltb_spec (a + 2) (a + 4)),
    (Z.ltb_spec (a + 3) (a + 4)); try lia. simpl.
  replace (8 * (a - a)) with 0 by lia. replace (8 * (a + 1 - a)) with 8 by lia.
  replace (8 * (a + 2 - a)) with 16 by lia. replace (8 * (a + 3 - a)) with 24 by lia.
  wraps.
Qed.

Lemma ld32_st32_other m a b v : a + 4 <= b \/ b + 4 <= a -> ld32 (st32 m a v) b = ld32 m b.
Proof.
  intros H. unfold ld32. rewrite !ld8_st32.
  repeat match goal with |- context [(?x <=? ?y) && (?z <? ?w)] =>
    replace ((x <=? y) && (z <? w)) with false
      by (symmetry; apply andb_false_iff; destruct H; [right|left];
          [apply Z.ltb_ge|apply Z.leb_gt]; lia) end.
  done.
Qed.

Lemma ld8_stosl m addr data cnt b :
  ld8 (stosl m addr data cnt) b
  = if (addr <=? b) && (b <? addr + 4 * Z.of_nat cnt)
    then u8 (data / 2 ^ (8 * ((b - addr) mod 4))) else ld8 m b.
Proof.
  revert m addr. induction cnt as [|cnt IH]; intros m addr; simpl.
  - destruct (Z.leb_spec addr b), (Z.ltb_spec b (addr + 4 * Z.of_nat 0)); simpl; done || lia.
  - rewrite IH, ld8_st32.
    destruct (Z.leb_spec (addr + 4) b), (Z.ltb_spec b (addr + 4 + 4 * Z.of_nat cnt)),
      (Z.leb_spec addr b), (Z.ltb_spec b (addr + 4)), (Z.ltb_spec b (addr + 4 * Z.of_nat (S cnt)));
      simpl; try done; try lia.
    + do 4 f_equal. replace (b - addr) with (b - (addr + 4) + 1 * 4) by lia.
      by rewrite Z.mod_add by lia.
    + do 4 f_equal. by rewrite Z.mod_small by lia.
Qed.

(** The word memset stores is [c & 0xff] in each of its bytes. *)
Lemma splat_byte c k : 0 <= c < 256 -> 0 <= k < 4 ->
  u8 (Z.lor (Z.lor (Z.lor (Z.shiftl c 24) (Z.shiftl c 16)) (Z.shiftl c 8)) c / 2 ^ (8 * k)) = c.
Proof.
  intros Hc Hk. unfold u8. rewrite <- Z.shiftr_div_pow2, <- Z.land_ones by lia.
  assert (Hhi : forall n, 8 <= n -> Z.testbit c n = false).
  { intros n Hn. rewrite <- (Z.mod_small c (2 ^ 8)) by lia. by apply Z.mod_pow2_bits_high. }
  apply Z.bits_inj'. intros n Hn.
  rewrite Z.land_spec, Z.testbit_ones_nonneg, Z.shiftr_spec, !Z.lor_spec, !Z.shiftl_spec by lia.
  destruct (Z.ltb_spec n 8).
  - rewrite andb_true_r. assert (k = 0 \/ k = 1 \/ k = 2 \/ k = 3) as Hcases by lia.
    destruct Hcases as [-> | [-> | [-> | ->]]];
      repeat match goal with |- context [Z.testbit c ?e] =>
        lazymatch e with
        | n => fail
        | _ => first [ replace e with n by lia
                     | rewrite (Z.testbit_neg_r c e) by lia
                     | rewrite (Hhi e) by lia ] end end;
      by rewrite ?orb_false_r, ?orb_false_l.
  - rewrite andb_false_r. symmetry. apply Hhi. lia.
Qed.

(** [memset] sets exactly the n bytes from [dst] to [c], whichever of its two
    store instructions it picks. *)
Lemma memset_spec m dst c n b : 0 <= n ->
  ld8 (memset m dst c n) b = if (dst <=? b) && (b <? dst + n) then u8 c else ld8 m b.
Proof.
  intros Hn. unfold memset. destruct ((dst mod 4 =? 0) && (n mod 4 =? 0)) eqn:E.
  - breflect. rewrite ld8_stosl.
    replace (4 * Z.of_nat (Z.to_nat (n / 4))) with n by (Z.div_mod_to_equations; lia).
    assert (Hc : Z.land c 255 = u8 c) by (unfold u8; apply (Z.land_ones c 8); lia).
    rewrite Hc. case_bool; [|done].
    apply splat_byte; [unfold u8; apply Z.mod_pos_bound; lia|apply Z.mod_pos_bound; lia].
  - rewrite ld8_stosb. by rewrite Z2Nat.id by lia.
Qed.

Lemma u8_id m a : bytes_ok m -> u8 (ld8 m a) = ld8 m a.
Proof. intros H. unfold u8. apply Z.mod_small. specialize (H a). lia. Qed.

Lemma bytes_ok_st8 m a v : bytes_ok m -> bytes_ok (st8 m a v).
Proof.
  intros H b. rewrite ld8_st8. case_bool; [|apply H]. unfold u8. apply Z.mod_pos_bound. lia.
Qed.

Lemma move_up_spec m d s n b : bytes_ok m -> d <= s \/ s + Z.of_nat n <= d ->
  ld8 (move_up m d s n) b
  = if (d <=? b) && (b <? d + Z.of_nat n) then ld8 m (s + (b - d)) else ld8 m b.
Proof.
  revert m d s. induction n as [|n IH]; intros m d s Hm Hov; simpl.
  - destruct (Z.leb_spec d b), (Z.ltb_spec b (d + Z.of_nat 0)); simpl; done || lia.
  - rewrite IH by (auto using bytes_ok_st8; lia). rewrite !ld8_st8.
    destruct (Z.leb_spec (d + 1) b), (Z.ltb_spec b (d + 1 + Z.of_nat n)),
      (Z.leb_spec d b), (Z.ltb_spec b (d + Z.of_nat (S n))), (Z.eqb_spec d b); simpl; try lia; try done.
    + destruct (Z.eqb_spec d (s + 1 + (b - (d + 1)))); [lia|]. f_equal. lia.
    + rewrite u8_id by done. f_equal. lia.
Qed.

Lemma move_down_spec m d s n b : bytes_ok m -> s <= d ->
  ld8 (move_down m d s n) b
  = if (d - Z.of_nat n <=? b) && (b <? d) then ld8 m (s + (b - d)) else ld8 m b.
Proof.
  revert m d s. induction n as [|n IH]; intros m d s Hm Hov; simpl.
  - destruct (Z.leb_spec (d - Z.of_nat 0) b), (Z.ltb_spec b d); simpl; done || lia.
  - rewrite IH by (auto using bytes_ok_st8; lia). rewrite !ld8_st8.
    destruct (Z.leb_spec (d - 1 - Z.of_nat n) b), (Z.ltb_spec b (d - 1)),
      (Z.leb_spec (d - Z.of_nat (S n)) b), (Z.ltb_spec b d), (Z.eqb_spec (d - 1) b); simpl; try lia; try done.
    + destruct (Z.eqb_spec (d - 1) (s - 1 + (b - (d - 1)))); [lia|]. f_equal. lia.
    + rewrite u8_id by done. f_equal. lia.
Qed.

(** [memmove] copies the [n] bytes the source had before the call, whatever
    the overlap of the two ranges, and changes nothing else. *)
Theorem memmove_spec m dst src n b : bytes_ok m -> 0 <= n ->
  ld8 (memmove m dst src n) b
  = if (dst <=? b) && (b <? dst + n) then ld8 m (src + (b - dst)) else ld8 m b.
Proof.
  intros Hm Hn. unfold memmove. destruct ((src <? dst) && (src + n >? dst)) eqn:E.
  - breflect. rewrite Z.gtb_ltb in *. breflect.
    rewrite move_down_spec by (done || lia). rewrite Z2Nat.id by lia.
    replace (dst + n - n) with dst by lia. case_bool; [|done]. f_equal. lia.
  - rewrite move_up_spec; [by rewrite Z2Nat.id by lia|done|].
    rewrite Z2Nat.id by lia. rewrite Z.gtb_ltb in E.
    apply andb_false_iff in E as [E|E]; breflect; lia.
Qed.

(** ** String lemmas *)
Definition byte (c : Z) : Prop := 0 <= c < 256.

Lemma u8_byte c : byte c -> u8 c = c.
Proof. intros. unfold u8. by apply Z.mod_small. Qed.

Lemma length_strncpy t n w : strncpy t n = Some w -> length w = n.
Proof.
  revert t w. induction n as [|n IH]; intros [|a t] w; simpl; intros; simplify_eq; try done.
  destruct (a =? 0); simplify_eq/=; [by rewrite length_replicate|].
  destruct (strncpy t n) eqn:E; simplify_eq/=. f_equal. eauto.
Qed.

(** comparing at most [n] characters of two names finds them equal exactly
    when strncpy stores the same [n] bytes for both: dirlookup (strncmp) finds
    the entries dirlink wrote (strncpy). *)
Theorem strncmp_strncpy p q n : Forall byte p -> Forall byte q ->
  is_Some (strncpy p n) -> is_Some (strncpy q n) ->
  (strncmp p q n = Some 0 <-> strncpy p n = strncpy q n).
Proof.
  revert p q. induction n as [|n IH]; intros [|a p] [|b q] Hp Hq [u Hu] [v Hv]; simpl in *;
    simplify_eq; try done.
  inversion_clear Hp as [|?? Ha Hp']. inversion_clear Hq as [|?? Hb Hq'].
  destruct (Z.eqb_spec a 0) as [->|Ha0]; simpl.
  - rewrite (u8_byte 0), (u8_byte b) by (done || unfold byte; lia).
    destruct (Z.eqb_spec b 0) as [->|Hb0]; [done|].
    destruct (strncpy q n) eqn:Eq; simplify_eq/=.
    split; intros H; simplify_eq; lia.
  - destruct (strncpy p n) as [u'|] eqn:Ep; simplify_eq/=.
    destruct (Z.eqb_spec a b) as [->|Hab].
    + destruct (Z.eqb_spec b 0); [lia|].
      destruct (strncpy q n) as [v'|] eqn:Eq; simplify_eq/=.
      rewrite IH, Ep, Eq by eauto. split; intros; simplify_eq; done.
    + rewrite !u8_byte by done. destruct (Z.eqb_spec b 0).
      * split; intros; simplify_eq; lia.
      * destruct (strncpy q n); simplify_eq/=. split; intros; simplify_eq; lia.
Qed.

(** The characters of [t] before its NUL. *)
Fixpoint cstr (t : list Z) : list Z :=
  match t with
  | [] => []
  | a :: t' => if a =? 0 then [] else a :: cstr t'
  end.

Lemma safestrcpy_loop_cstr t n w : safestrcpy_loop t n = Some w ->
  cstr w = take n (cstr t) /\ (exists k, w !! k = Some 0) /\ (length w <= S n)%nat.
Proof.
  revert t w. induction n as [|n IH]; intros [|a t] w; simpl; intros; simplify_eq/=.
  1, 2: repeat split; [exists 0%nat; done|lia].
  destruct (Z.eqb_spec a 0); simplify_eq/=.
  - repeat split; [exists 0%nat; done|lia].
  - destruct (safestrcpy_loop t n) as [w'|] eqn:E; simplify_eq/=.
    destruct (IH _ _ E) as (H1 & (k & Hk) & H3). destruct (Z.eqb_spec a 0); [done|].
    repeat split; [by rewrite H1|by exists (S k)|lia].
Qed.

Lemma cstr_app_NUL w r k : w !! k = Some 0 -> cstr (w ++ r) = cstr w.
Proof.
  revert k. induction w as [|a w IH]; intros [|k] H; simplify_eq/=; [done|].
  case_bool; [done|]. f_equal. eauto.
Qed.

(** [safestrcpy] with a positive size always leaves a NUL-terminated
    string, the source truncated to [n - 1] characters, in at most [n] bytes. *)
Theorem safestrcpy_spec s t n d : (n <= length s)%nat -> (0 < n)%nat ->
  safestrcpy s t n = Some d ->
  cstr d = take (n - 1) (cstr t) /\ (exists k, d !! k = Some 0) /\ length d = length s.
Proof.
  intros Hlen Hn H. destruct n as [|n]; [lia|]. simpl in H.
  destruct (safestrcpy_loop t n) as [w|] eqn:E; simplify_eq/=.
  destruct (safestrcpy_loop_cstr _ _ _ E) as (H1 & (k & Hk) & H3).
  rewrite Nat.sub_0_r. repeat split.
  - rewrite (cstr_app_NUL w _ k Hk). done.
  - exists k. rewrite lookup_app_l; [done|by eapply lookup_lt_Some].
  - rewrite length_app, length_drop. lia.
Qed.

(** strlen of a terminated string is the number of characters before its NUL. *)
Lemma strlen_cstr s k : s !! k = Some 0 -> strlen s = Some (Z.of_nat (length (cstr s))).
Proof.
  revert k. induction s as [|a s IH]; intros [|k] H; simplify_eq/=; [done|].
  destruct (Z.eqb_spec a 0); [done|]. rewrite (IH k H). simpl. f_equal. lia.
Qed.

(** ** Concrete inputs *)
Lemma memmove_spec_witness :
  ld8 (memmove {[100 := 7; 101 := 8; 102 := 9]} 101 100 3) 103 = 9.
Proof.
  rewrite (memmove_spec {[100 := 7; 101 := 8; 102 := 9]} 101 100 3 103).
  - reflexivity.
  - intros a. unfold ld8. destruct (decide (a = 100)) as [->|H0]; [vm_compute; split; [discriminate|reflexivity]|].
    destruct (decide (a = 101)) as [->|H1]; [vm_compute; split; [discriminate|reflexivity]|].
    destruct (decide (a = 102)) as [->|H2]; [vm_compute; split; [discriminate|reflexivity]|].
    rewrite !lookup_insert_ne, lookup_singleton_ne by congruence. cbn. lia.
  - lia.
Defined.

(** The names "ab" and "ab", one padded and one followed by other bytes *)
Lemma strncmp_strncpy_witness :
  strncmp [97; 98; 0] [97; 98; 0; 5] 14 = Some 0 <-> strncpy [97; 98; 0] 14 = strncpy [97; 98; 0; 5] 14.
Proof.
  apply (strncmp_strncpy [97; 98; 0] [97; 98; 0; 5] 14).
  - unfold byte. repeat apply Forall_cons_2; try lia. apply Forall_nil_2.
  - unfold byte. repeat apply Forall_cons_2; try lia. apply Forall_nil_2.
  - eexists. vm_compute. reflexivity.
  - eexists. vm_compute. reflexivity.
Defined.

(** "hello" into a buffer of 4 *)
Lemma safestrcpy_spec_witness :
  cstr [104; 101; 108; 0] = take 3 (cstr [104; 101; 108; 108; 111; 0]) /\
  (exists k, ([104; 101; 108; 0] : list Z) !! k = Some 0) /\ length [104; 101; 108; 0] = length [1; 2; 3; 4].
Proof.
  apply (safestrcpy_spec [1; 2; 3; 4] [104; 101; 108; 108; 111; 0] 4 [104; 101; 108; 0]); [cbn; lia|lia|reflexivity].
Defined.
