(* ===== verification/Spinlock.v ===== *)
(** * Spin locks and interrupt nesting (spinlock.c)

    [pushcli], [popcli], [holding], [acquire] and [release] on the state of
    one CPU and one lock; then the instruction-level interleaving of several
    CPUs on several locks, with mutual exclusion by rule induction. *)

From S2P Require Import Prelude Params.

(** ** Per-CPU state (struct cpu of proc.h) and locks (spinlock.h) *)
Record cpu : Type := mkCpu {
  c_id : Z;
  c_eflags : Z;             (** the processor's flags register *)
  c_ncli : Z;
  c_intena : Z;
  c_proc : option nat;      (** slot of the running process, 0 is None *)
  c_pos : nat;              (** scheduler()'s loop variable p *)
  c_cr3 : Z;                (** page directory base register *)
  c_esp0 : Z                (** ts.esp0 *)
}.

Record spinlock : Type := mkLock {
  lk_locked : Z;
  lk_name : string;
  lk_cpu : option nat       (** CPU holding the lock *)
}.

Definition set_eflags (f : Z) (c : cpu) : cpu :=
  mkCpu (c_id c) f (c_ncli c) (c_intena c) (c_proc c) (c_pos c) (c_cr3 c) (c_esp0 c).
Definition set_ncli (n : Z) (c : cpu) : cpu :=
  mkCpu (c_id c) (c_eflags c) n (c_intena c) (c_proc c) (c_pos c) (c_cr3 c) (c_esp0 c).
Definition set_intena (i : Z) (c : cpu) : cpu :=
  mkCpu (c_id c) (c_eflags c) (c_ncli c) i (c_proc c) (c_pos c) (c_cr3 c) (c_esp0 c).
Definition set_proc (p : option nat) (c : cpu) : cpu :=
  mkCpu (c_id c) (c_eflags c) (c_ncli c) (c_intena c) p (c_pos c) (c_cr3 c) (c_esp0 c).
Definition set_pos (i : nat) (c : cpu) : cpu :=
  mkCpu (c_id c) (c_eflags c) (c_ncli c) (c_intena c) (c_proc c) i (c_cr3 c) (c_esp0 c).
Definition set_cr3 (v : Z) (c : cpu) : cpu :=
  mkCpu (c_id c) (c_eflags c) (c_ncli c) (c_intena c) (c_proc c) (c_pos c) v (c_esp0 c).
Definition set_esp0 (v : Z) (c : cpu) : cpu :=
  mkCpu (c_id c) (c_eflags c) (c_ncli c) (c_intena c) (c_proc c) (c_pos c) (c_cr3 c) v.

Definition initlock (name : string) : spinlock := mkLock 0 name None.

(** x86.h *)
Definition cli (c : cpu) : cpu := set_eflags (clrf (c_eflags c) FL_IF) c.
Definition sti (c : cpu) : cpu := set_eflags (setf (c_eflags c) FL_IF) c.

Definition pushcli (c : cpu) : outcome cpu unit :=
  let eflags := c_eflags c in
  let c1 := cli c in
  let c2 := set_ncli (s32 (c_ncli c + 1)) c1 in
  Done (if c_ncli c =? 0 then set_intena (Z.land eflags FL_IF) c2 else c2) tt.

Definition popcli (c : cpu) : outcome cpu unit :=
  if has (c_eflags c) FL_IF then Panic "popcli - interruptible"
  else
    let c1 := set_ncli (s32 (c_ncli c - 1)) c in
    if c_ncli c1 <? 0 then Panic "popcli"
    else Done (if (c_ncli c1 =? 0) && negb (c_intena c1 =? 0) then sti c1 else c1) tt.

Definition holding (lk : spinlock) (me : nat) : bool :=
  negb (lk_locked lk =? 0) && bool_decide (lk_cpu lk = Some me).

(** One CPU running alone: a lock that is taken is never freed, so the xchg
    loop of [acquire] spins forever. *)
Definition acquire (me : nat) : kernel (cpu * spinlock) unit := fun '(c, lk) =>
  match pushcli c with
  | Done c' _ =>
      if holding lk me then Panic "acquire"
      else if negb (lk_locked lk =? 0) then Diverge
      else Done (c', mkLock 1 (lk_name lk) (Some me)) tt
  | _ => Diverge
  end.

Definition release (me : nat) : kernel (cpu * spinlock) unit := fun '(c, lk) =>
  if negb (holding lk me) then Panic "release"
  else
    match popcli c with
    | Done c' _ => Done (c', mkLock 0 (lk_name lk) None) tt
    | Panic m => Panic m
    | _ => Diverge
    end.

(** ** Interrupt nesting *)

(** [if0] is the interrupt flag outside every pushcli. *)
Definition cli_inv (if0 : bool) (c : cpu) : Prop :=
  0 <= c_ncli c < 2 ^ 31 - 1 /\
  if c_ncli c =? 0 then has (c_eflags c) FL_IF = if0
  else has (c_eflags c) FL_IF = false /\ (negb (c_intena c =? 0)) = if0.

Lemma has_cli c : has (c_eflags (cli c)) FL_IF = false.
Proof.
  unfold cli, set_eflags; simpl. change FL_IF with (2 ^ 9).
  rewrite has_clrf by lia. by rewrite andb_false_r.
Qed.

Lemma has_sti c : has (c_eflags (sti c)) FL_IF = true.
Proof.
  unfold sti, set_eflags; simpl. change FL_IF with (2 ^ 9).
  rewrite has_setf by lia. apply orb_true_r.
Qed.

Lemma pushcli_inv if0 c : cli_inv if0 c -> c_ncli c < 2 ^ 31 - 2 ->
  exists c', pushcli c = Done c' tt /\ cli_inv if0 c' /\ c_ncli c' = c_ncli c + 1 /\
             has (c_eflags c') FL_IF = false /\ c_proc c' = c_proc c /\
             c_id c' = c_id c /\ c_pos c' = c_pos c /\ c_cr3 c' = c_cr3 c /\ c_esp0 c' = c_esp0 c.
Proof.
  intros [Hn Hc] Hlt. unfold pushcli. eexists. split; [done|].
  pose proof (has_cli c) as Hcli. unfold cli in Hcli. simpl in Hcli.
  destruct (Z.eqb_spec (c_ncli c) 0) as [E|E]; unfold cli_inv; simpl;
    rewrite s32_small by lia; rewrite (proj2 (Z.eqb_neq (c_ncli c + 1) 0)) by lia;
    repeat split; try done; try lia; tauto || idtac.
Qed.

Lemma popcli_inv if0 c : cli_inv if0 c -> 0 < c_ncli c ->
  exists c', popcli c = Done c' tt /\ cli_inv if0 c' /\ c_ncli c' = c_ncli c - 1 /\
             c_proc c' = c_proc c /\
             c_id c' = c_id c /\ c_pos c' = c_pos c /\ c_cr3 c' = c_cr3 c /\ c_esp0 c' = c_esp0 c.
Proof.
  intros [Hn Hc] Hlt. unfold popcli.
  rewrite (proj2 (Z.eqb_neq (c_ncli c) 0)) in Hc by lia. destruct Hc as [Hif Hint].
  rewrite Hif. simpl. rewrite s32_small by lia.
  rewrite (proj2 (Z.ltb_ge (c_ncli c - 1) 0)) by lia. eexists. split; [done|].
  destruct (Z.eqb_spec (c_ncli c - 1) 0) as [E|E]; simpl.
  - destruct (negb (c_intena c =? 0)) eqn:Ei; unfold cli_inv; simpl;
      rewrite ?(proj2 (Z.eqb_eq (c_ncli c - 1) 0)) by lia.
    + pose proof (has_sti (set_ncli (c_ncli c - 1) c)) as Hs. simpl in Hs.
      repeat split; try lia; congruence.
    + repeat split; try lia; congruence.
  - unfold cli_inv; simpl. rewrite (proj2 (Z.eqb_neq (c_ncli c - 1) 0)) by lia.
    repeat split; try lia; done.
Qed.

#[global] Arguments pushcli _ : simpl never.
#[global] Arguments popcli _ : simpl never.

(** A run of pushcli ([true]) and popcli ([false]) calls. *)
Fixpoint run_cli (ops : list bool) (c : cpu) : outcome cpu unit :=
  match ops with
  | [] => Done c tt
  | op :: ops' =>
      match (if op then pushcli c else popcli c) with
      | Done c' _ => run_cli ops' c'
      | o => o
      end
  end.

Fixpoint balanced (depth : Z) (ops : list bool) : Prop :=
  match ops with
  | [] => depth = 0
  | true :: ops' => balanced (depth + 1) ops'
  | false :: ops' => 0 < depth /\ balanced (depth - 1) ops'
  end.

Lemma run_cli_inv if0 ops c :
  cli_inv if0 c -> c_ncli c + Z.of_nat (length ops) < 2 ^ 31 - 1 ->
  balanced (c_ncli c) ops ->
  exists c', run_cli ops c = Done c' tt /\ cli_inv if0 c' /\ c_ncli c' = 0.
Proof.
  revert c. induction ops as [|[] ops IH]; intros c Hi Hlen Hb; cbn [run_cli balanced length] in *.
  - eauto.
  - destruct (pushcli_inv if0 c Hi ltac:(lia)) as (c' & -> & Hi' & Hn & _).
    apply IH; [done| |]; rewrite Hn; [lia|done].
  - destruct Hb as [Hpos Hb]. destruct (popcli_inv if0 c Hi Hpos) as (c' & -> & Hi' & Hn & _).
    apply IH; [done| |]; rewrite Hn; [lia|done].
Qed.

(** matched pushcli/popcli calls never panic and leave the interrupt flag
    as they found it: off stays off, on comes back on only at the last popcli. *)
Theorem cli_matched ops c :
  c_ncli c = 0 -> Z.of_nat (length ops) < 2 ^ 31 - 1 -> balanced 0 ops ->
  exists c', run_cli ops c = Done c' tt /\ c_ncli c' = 0 /\
             has (c_eflags c') FL_IF = has (c_eflags c) FL_IF.
Proof.
  intros Hn Hlen Hb.
  destruct (run_cli_inv (has (c_eflags c) FL_IF) ops c) as (c' & Hrun & [_ Hif] & Hn').
  - split; [lia|]. by rewrite Hn.
  - lia.
  - by rewrite Hn.
  - exists c'. rewrite Hn' in Hif. simpl in Hif. auto.
Qed.

(** ** Several CPUs: interleaving of the instructions of acquire and release

    The program counter of a CPU inside spinlock.c. [PSpin l]: acquire(l) has
    disabled interrupts and checked holding(l), the next instruction is the
    xchg; [PWon l]: the xchg returned 0, lk->cpu is not set yet; [PClear l]:
    release(l) has cleared lk->cpu, the xchg that frees the lock is next;
    [PPop]: only popcli() is left. *)
Inductive pc : Type := PIdle | PSpin (l : nat) | PWon (l : nat) | PClear (l : nat) | PPop
| PPanic (msg : string).

Record thread : Type := mkThread {
  t_cpu : cpu;
  t_pc : pc;
  t_held : list nat         (** locks between their acquire and their release *)
}.

Record smp : Type := mkSmp { s_cpus : nat -> thread; s_locks : nat -> spinlock }.

Definition upd_thread (me : nat) (t : thread) (s : smp) : smp :=
  mkSmp (<[me := t]> (s_cpus s)) (s_locks s).
Definition upd_lock (l : nat) (lk : spinlock) (s : smp) : smp :=
  mkSmp (s_cpus s) (<[l := lk]> (s_locks s)).

Section Smp.
Variable nlocks : nat.

Inductive smp_step (me : nat) (s : smp) : smp -> Prop :=
| st_acquire l c' :
    t_pc (s_cpus s me) = PIdle -> (l < nlocks)%nat ->
    pushcli (t_cpu (s_cpus s me)) = Done c' tt ->
    smp_step me s (upd_thread me
      (mkThread c' (if holding (s_locks s l) me then PPanic "acquire" else PSpin l)
                (t_held (s_cpus s me))) s)
| st_xchg l :
    t_pc (s_cpus s me) = PSpin l ->
    smp_step me s
      (upd_lock l (mkLock 1 (lk_name (s_locks s l)) (lk_cpu (s_locks s l)))
        (upd_thread me
          (mkThread (t_cpu (s_cpus s me))
                    (if lk_locked (s_locks s l) =? 0 then PWon l else PSpin l)
                    (t_held (s_cpus s me))) s))
| st_record l :
    t_pc (s_cpus s me) = PWon l ->
    smp_step me s
      (upd_lock l (mkLock (lk_locked (s_locks s l)) (lk_name (s_locks s l)) (Some me))
        (upd_thread me (mkThread (t_cpu (s_cpus s me)) PIdle (l :: t_held (s_cpus s me))) s))
| st_release l :
    t_pc (s_cpus s me) = PIdle -> holding (s_locks s l) me = true ->
    smp_step me s
      (upd_lock l (mkLock (lk_locked (s_locks s l)) (lk_name (s_locks s l)) None)
        (upd_thread me
          (mkThread (t_cpu (s_cpus s me)) (PClear l)
                    (filter (fun x => x <> l) (t_held (s_cpus s me)))) s))
| st_release_panic l :
    t_pc (s_cpus s me) = PIdle -> holding (s_locks s l) me = false ->
    smp_step me s
      (upd_thread me (mkThread (t_cpu (s_cpus s me)) (PPanic "release") (t_held (s_cpus s me))) s)
| st_unlock l :
    t_pc (s_cpus s me) = PClear l ->
    smp_step me s
      (upd_lock l (mkLock 0 (lk_name (s_locks s l)) (lk_cpu (s_locks s l)))
        (upd_thread me (mkThread (t_cpu (s_cpus s me)) PPop (t_held (s_cpus s me))) s))
| st_pop :
    t_pc (s_cpus s me) = PPop ->
    smp_step me s
      (upd_thread me
        match popcli (t_cpu (s_cpus s me)) with
        | Done c' _ => mkThread c' PIdle (t_held (s_cpus s me))
        | Panic m => mkThread (t_cpu (s_cpus s me)) (PPanic m) (t_held (s_cpus s me))
        | _ => s_cpus s me
        end s).

Definition smp_init (s : smp) : Prop :=
  (forall me, t_pc (s_cpus s me) = PIdle /\ t_held (s_cpus s me) = [] /\
              c_ncli (t_cpu (s_cpus s me)) = 0) /\
  (forall l, lk_locked (s_locks s l) = 0 /\ lk_cpu (s_locks s l) = None).

Inductive smp_reach : smp -> Prop :=
| sr_init s : smp_init s -> smp_reach s
| sr_step s s' me : smp_reach s -> smp_step me s s' -> smp_reach s'.

(** The lock word is set on behalf of this thread. *)
Definition owns (t : thread) (l : nat) : Prop :=
  l ∈ t_held t \/ t_pc t = PWon l \/ t_pc t = PClear l.

Definition pending (p : pc) : Z := match p with PIdle => 0 | _ => 1 end.

Record thread_inv (s : smp) (me : nat) : Prop := {
  ti_held : forall l, l ∈ t_held (s_cpus s me) -> (l < nlocks)%nat;
  ti_nodup : NoDup (t_held (s_cpus s me));
  ti_ncli : (forall m, t_pc (s_cpus s me) <> PPanic m) ->
    c_ncli (t_cpu (s_cpus s me))
    = Z.of_nat (length (t_held (s_cpus s me))) + pending (t_pc (s_cpus s me));
  ti_cli : exists if0, cli_inv if0 (t_cpu (s_cpus s me));
  ti_pc : forall l, t_pc (s_cpus s me) = PWon l \/ t_pc (s_cpus s me) = PClear l \/
                    t_pc (s_cpus s me) = PSpin l ->
          (l < nlocks)%nat /\ l ∉ t_held (s_cpus s me)
}.

Record lock_inv (s : smp) (l : nat) : Prop := {
  li_word : lk_locked (s_locks s l) = 0 \/ lk_locked (s_locks s l) = 1;
  li_free : lk_locked (s_locks s l) = 0 -> forall me, ~ owns (s_cpus s me) l;
  li_one : forall me1 me2, owns (s_cpus s me1) l -> owns (s_cpus s me2) l -> me1 = me2;
  li_cpu : forall me, lk_cpu (s_locks s l) = Some me <-> l ∈ t_held (s_cpus s me)
}.

Definition smp_inv (s : smp) : Prop :=
  (forall me, thread_inv s me) /\ (forall l, lock_inv s l).

Lemma held_bound s me : thread_inv s me ->
  (length (t_held (s_cpus s me)) <= nlocks)%nat.
Proof.
  intros [Hb Hnd _ _ _]. rewrite <- (length_seq nlocks 0).
  apply List.NoDup_incl_length; [by apply NoDup_ListNoDup|].
  intros l Hl. apply in_seq. apply list_elem_of_In, Hb in Hl. lia.
Qed.

Lemma holding_held s me l : smp_inv s ->
  holding (s_locks s l) me = true <-> l ∈ t_held (s_cpus s me).
Proof.
  intros [_ Hl]. destruct (Hl l) as [Hw Hf _ Hc]. unfold holding.
  rewrite andb_true_iff, bool_decide_eq_true, Hc. split; [tauto|].
  intros Hin. split; [|done]. apply negb_true_iff, Z.eqb_neq. intros H0.
  apply (Hf H0 me). by left.
Qed.

Lemma smp_init_inv s : smp_init s -> smp_inv s.
Proof.
  intros [Ht Hl]. split.
  - intros me. destruct (Ht me) as (Hp & Hh & Hn). split; rewrite ?Hh, ?Hp; simpl.
    + by intros l Hin%elem_of_nil.
    + constructor.
    + intros _. done.
    + exists (has (c_eflags (t_cpu (s_cpus s me))) FL_IF). split; [lia|]. by rewrite Hn.
    + by intros l [?|[?|?]].
  - intros l. destruct (Hl l) as [H0 HN]. split; rewrite ?H0, ?HN; auto.
    + intros _ me [Hin|[Hin|Hin]]; destruct (Ht me) as (Hp & Hh & Hn); rewrite ?Hh, ?Hp in Hin;
        [by apply elem_of_nil in Hin|done..].
    + intros me1 me2 [Hin|[Hin|Hin]]; destruct (Ht me1) as (Hp & Hh & Hn); rewrite ?Hh, ?Hp in Hin;
        [by apply elem_of_nil in Hin|done..].
    + intros me. destruct (Ht me) as (_ & -> & _). by rewrite elem_of_nil.
Qed.

(** Only the stepping CPU changes. *)
Definition frame (me : nat) (s s' : smp) : Prop :=
  forall x, x <> me -> s_cpus s' x = s_cpus s x.

Lemma thread_inv_frame me s s' : frame me s s' -> thread_inv s' me ->
  (forall x, thread_inv s x) -> forall x, thread_inv s' x.
Proof.
  intros Hf Hme Hall x. destruct (decide (x = me)) as [->|Hne]; [done|].
  destruct (Hall x) as [A B C D E]. split; rewrite (Hf x Hne); done.
Qed.

Lemma lock_inv_frame me s s' l : frame me s s' -> s_locks s' l = s_locks s l ->
  (owns (s_cpus s' me) l <-> owns (s_cpus s me) l) ->
  (l ∈ t_held (s_cpus s' me) <-> l ∈ t_held (s_cpus s me)) ->
  lock_inv s l -> lock_inv s' l.
Proof.
  intros Hf Hl Ho Hh [A B C D].
  assert (Ho' : forall x, owns (s_cpus s' x) l <-> owns (s_cpus s x) l).
  { intros x. destruct (decide (x = me)) as [->|Hne]; [done|by rewrite (Hf x Hne)]. }
  split; rewrite ?Hl; auto.
  - intros H0 x Hx. by apply (B H0 x), Ho'.
  - intros x y Hx Hy. apply C; by apply Ho'.
  - intros x. destruct (decide (x = me)) as [->|Hne]; [by rewrite Hh|by rewrite (Hf x Hne)].
Qed.

(** The lock the step is about, taken or kept by the stepping CPU. *)
Lemma lock_inv_mine me s s' l : frame me s s' ->
  lk_locked (s_locks s' l) = 1 ->
  (forall x, x <> me -> ~ owns (s_cpus s x) l) ->
  lk_cpu (s_locks s' l) = (if decide (l ∈ t_held (s_cpus s' me)) then Some me else None) ->
  lock_inv s' l.
Proof.
  intros Hf H1 Ho Hc.
  assert (Ho' : forall x, owns (s_cpus s' x) l -> x = me).
  { intros x Hx. destruct (decide (x = me)) as [->|Hne]; [done|].
    rewrite (Hf x Hne) in Hx. by destruct (Ho x Hne). }
  split; [by right|rewrite H1; lia| |].
  - intros x y ?%Ho' ?%Ho'. congruence.
  - intros x. rewrite Hc. case_decide as Hd; split; intros Hx; simplify_eq; try done.
    + f_equal. symmetry. apply Ho'. by left.
    + assert (x = me) as -> by (apply Ho'; by left). done.
Qed.

Lemma owns_iff t t' l : t_held t' = t_held t ->
  (t_pc t' = PWon l \/ t_pc t' = PClear l <-> t_pc t = PWon l \/ t_pc t = PClear l) ->
  (owns t' l <-> owns t l).
Proof. unfold owns. intros ->. tauto. Qed.

Ltac frame_tac := intros ? ?; simpl; by rewrite fn_lookup_insert_ne by congruence.
Ltac smp_simpl := cbn [s_cpus s_locks upd_thread upd_lock] in *;
  rewrite ?fn_lookup_insert in *; cbn [t_cpu t_pc t_held lk_locked lk_cpu lk_name] in *.

(** CPU state that a step of spinlock.c other than pushcli/popcli leaves alone. *)
Lemma li_excl s me l : lock_inv s l -> owns (s_cpus s me) l ->
  lk_locked (s_locks s l) = 1 /\ forall x, x <> me -> ~ owns (s_cpus s x) l.
Proof.
  intros [A B C D] Ho. split.
  - destruct A as [H0|H1]; [by destruct (B H0 me)|done].
  - intros x Hx Hox. apply Hx. by apply C.
Qed.

Lemma inv_xchg s me l : smp_inv s -> t_pc (s_cpus s me) = PSpin l ->
  smp_inv (upd_lock l (mkLock 1 (lk_name (s_locks s l)) (lk_cpu (s_locks s l)))
        (upd_thread me
          (mkThread (t_cpu (s_cpus s me))
                    (if lk_locked (s_locks s l) =? 0 then PWon l else PSpin l)
                    (t_held (s_cpus s me))) s)).
Proof.
  intros [Ht Hlk] Hpc. destruct (Ht me) as [A B C [if0 D] E]. split.
  - apply (thread_inv_frame me s); [frame_tac| |done]. split; smp_simpl; eauto.
    + intros _. rewrite C, Hpc by (rewrite Hpc; done). by destruct (_ =? 0).
    + intros l' Hl'. apply E. rewrite Hpc. destruct (_ =? 0); naive_solver.
  - intros l'. destruct (Hlk l) as [Fa Fb Fc Fd]. destruct (decide (l' = l)) as [->|Hne].
    + destruct (Z.eqb_spec (lk_locked (s_locks s l)) 0) as [H0|H0].
      * apply (lock_inv_mine me s); [frame_tac|by smp_simpl|by intros; apply Fb|].
        smp_simpl. rewrite decide_False by (apply E; rewrite Hpc; auto).
        destruct (lk_cpu (s_locks s l)) as [x|] eqn:Ex; [|done].
        destruct (Fb H0 x). left. by apply Fd.
      * destruct Fa as [?|F1]; [done|].
        apply (lock_inv_frame me s); [frame_tac| | | |done]; smp_simpl; [|by apply owns_iff; smp_simpl; rewrite ?Hpc|done].
        rewrite <- F1. by destruct (s_locks s l).
    + apply (lock_inv_frame me s); [frame_tac| | | |done]; smp_simpl; [by rewrite fn_lookup_insert_ne| |done].
      apply owns_iff; smp_simpl; [done|]. rewrite Hpc. destruct (_ =? 0); naive_solver.
Qed.

Lemma inv_record s me l : smp_inv s -> t_pc (s_cpus s me) = PWon l ->
  smp_inv (upd_lock l (mkLock (lk_locked (s_locks s l)) (lk_name (s_locks s l)) (Some me))
        (upd_thread me (mkThread (t_cpu (s_cpus s me)) PIdle (l :: t_held (s_cpus s me))) s)).
Proof.
  intros [Ht Hlk] Hpc. destruct (Ht me) as [A B C [if0 D] E].
  destruct (E l ltac:(auto)) as [Hlt Hni]. split.
  - apply (thread_inv_frame me s); [frame_tac| |done]. split; smp_simpl; eauto.
    + intros l' [->|Hin]%elem_of_cons; auto.
    + by constructor.
    + intros _. rewrite C by (rewrite Hpc; done). rewrite Hpc. simpl. lia.
    + naive_solver.
  - intros l'. destruct (decide (l' = l)) as [->|Hne].
    + destruct (li_excl s me l (Hlk l)) as [H1 Hx]; [right; by left|].
      apply (lock_inv_mine me s); [frame_tac|by smp_simpl|done|].
      smp_simpl. by rewrite decide_True by set_solver.
    + apply (lock_inv_frame me s); [frame_tac| | | |done]; smp_simpl; [by rewrite fn_lookup_insert_ne| |set_solver].
      unfold owns; smp_simpl. rewrite Hpc. set_solver.
Qed.

Lemma inv_release s me l : smp_inv s -> t_pc (s_cpus s me) = PIdle ->
  holding (s_locks s l) me = true ->
  smp_inv (upd_lock l (mkLock (lk_locked (s_locks s l)) (lk_name (s_locks s l)) None)
        (upd_thread me
          (mkThread (t_cpu (s_cpus s me)) (PClear l)
                    (filter (fun x => x <> l) (t_held (s_cpus s me)))) s)).
Proof.
  intros Hs Hpc Hh. apply (holding_held s me l Hs) in Hh. destruct Hs as [Ht Hlk].
  destruct (Ht me) as [A B C [if0 D] E]. split.
  - apply (thread_inv_frame me s); [frame_tac| |done]. split; smp_simpl; eauto.
    + intros l' [? Hin]%list_elem_of_filter. auto.
    + by apply NoDup_filter.
    + intros _. rewrite C by (rewrite Hpc; done). rewrite Hpc. simpl.
      enough (length (t_held (s_cpus s me)) = S (length (filter (fun x => x <> l) (t_held (s_cpus s me))))) by lia.
      change (S (length (filter (fun x => x <> l) (t_held (s_cpus s me)))))
        with (length (l :: filter (fun x => x <> l) (t_held (s_cpus s me)))).
      apply Permutation_length, NoDup_Permutation; [done| |].
      * constructor; [|by apply NoDup_filter]. rewrite list_elem_of_filter. tauto.
      * intros x. rewrite elem_of_cons, list_elem_of_filter. destruct (decide (x = l)); naive_solver.
    + intros l' Hl'. destruct Hl' as [?|[?|?]]; simplify_eq. split; [auto|].
      rewrite list_elem_of_filter. tauto.
  - intros l'. destruct (decide (l' = l)) as [->|Hne].
    + destruct (li_excl s me l (Hlk l)) as [H1 Hx]; [by left|].
      apply (lock_inv_mine me s); [frame_tac|by smp_simpl|done|].
      smp_simpl. rewrite decide_False; [done|]. rewrite list_elem_of_filter. tauto.
    + assert (Hmem : l' ∈ filter (fun x => x <> l) (t_held (s_cpus s me)) <-> l' ∈ t_held (s_cpus s me))
        by (rewrite list_elem_of_filter; tauto).
      apply (lock_inv_frame me s); [frame_tac| | | |done]; smp_simpl; [by rewrite fn_lookup_insert_ne| |done].
      unfold owns; smp_simpl. rewrite Hpc, Hmem. naive_solver.
Qed.

Lemma inv_unlock s me l : smp_inv s -> t_pc (s_cpus s me) = PClear l ->
  smp_inv (upd_lock l (mkLock 0 (lk_name (s_locks s l)) (lk_cpu (s_locks s l)))
        (upd_thread me (mkThread (t_cpu (s_cpus s me)) PPop (t_held (s_cpus s me))) s)).
Proof.
  intros [Ht Hlk] Hpc. destruct (Ht me) as [A B C [if0 D] E].
  destruct (E l ltac:(auto)) as [Hlt Hni]. split.
  - apply (thread_inv_frame me s); [frame_tac| |done]. split; smp_simpl; eauto.
    + intros _. rewrite C by (rewrite Hpc; done). by rewrite Hpc.
    + naive_solver.
  - intros l'. destruct (decide (l' = l)) as [->|Hne].
    + destruct (li_excl s me l (Hlk l)) as [H1 Hx]; [right; by right|].
      destruct (Hlk l) as [Fa Fb Fc Fd].
      set (s' := upd_lock l _ _).
      assert (Hno : forall x, ~ owns (s_cpus s' x) l).
      { intros x. destruct (decide (x = me)) as [->|Hnx]; unfold s'.
        - unfold owns. smp_simpl. naive_solver.
        - smp_simpl. rewrite fn_lookup_insert_ne by done. by apply Hx. }
      split; unfold s' in *; smp_simpl; [by left|done|naive_solver|].
      intros x. rewrite Fd. destruct (decide (x = me)) as [->|Hnx]; smp_simpl; [done|].
      by rewrite fn_lookup_insert_ne.
    + apply (lock_inv_frame me s); [frame_tac| | | |done]; smp_simpl; [by rewrite fn_lookup_insert_ne| |done].
      unfold owns; smp_simpl. rewrite Hpc. naive_solver.
Qed.
Hypothesis nlocks_small : Z.of_nat nlocks < 2 ^ 31 - 3.

Lemma inv_acquire s me l c' : smp_inv s ->
  t_pc (s_cpus s me) = PIdle -> (l < nlocks)%nat ->
  pushcli (t_cpu (s_cpus s me)) = Done c' tt ->
  smp_inv (upd_thread me
      (mkThread c' (if holding (s_locks s l) me then PPanic "acquire" else PSpin l)
                (t_held (s_cpus s me))) s).
Proof using nlocks_small.
  intros Hs Hpc Hl Hpush. pose proof Hs as [Ht Hlk].
  destruct (Ht me) as [A B C [if0 D] E]. pose proof (held_bound s me (Ht me)) as Hlen.
  rewrite Hpc in C. specialize (C ltac:(done)). simpl in C.
  destruct (pushcli_inv if0 _ D ltac:(lia)) as (c2 & Hp2 & D' & Hn & _).
  rewrite Hp2 in Hpush. simplify_eq. split.
  - apply (thread_inv_frame me s); [frame_tac| |done]. split; smp_simpl; auto.
    + intros Hnp. rewrite Hn, C. destruct (holding _ _); [by destruct (Hnp "acquire"%string)|simpl; lia].
    + eauto.
    + intros l' Hpc'. destruct (holding (s_locks s l) me) eqn:Eh; [naive_solver|].
      destruct Hpc' as [?|[?|?]]; simplify_eq. split; [done|].
      intros Hin. apply (holding_held s me l' Hs) in Hin. congruence.
  - intros l'. apply (lock_inv_frame me s); [frame_tac|done| | |done]; smp_simpl; [|done].
    apply owns_iff; smp_simpl; [done|]. rewrite Hpc. destruct (holding _ _); naive_solver.
Qed.

Lemma inv_step s s' me : smp_inv s -> smp_step me s s' -> smp_inv s'.
Proof using nlocks_small.
  intros Hs Hst. pose proof Hs as [Ht Hlk]. destruct Hst as [l c' Hpc Hl Hp|l Hpc|l Hpc|l Hpc Hh|l Hpc Hh|l Hpc|Hpc].
  - by apply inv_acquire.
  - by apply inv_xchg.
  - by apply inv_record.
  - by apply inv_release.
  - destruct (Ht me) as [A B C D E]. split.
    + apply (thread_inv_frame me s); [frame_tac| |done]. split; smp_simpl; auto.
      * intros Hnp. by destruct (Hnp "release"%string).
      * by intros l' [?|[?|?]].
    + intros l'. apply (lock_inv_frame me s); [frame_tac|done| | |done]; smp_simpl; [|done].
      apply owns_iff; smp_simpl; [done|]. rewrite Hpc. naive_solver.
  - by apply inv_unlock.
  - destruct (Ht me) as [A B C [if0 D] E]. rewrite Hpc in C. specialize (C ltac:(done)).
    simpl in C. destruct (popcli_inv if0 _ D ltac:(lia)) as (c' & -> & D' & Hn & _). split.
    + apply (thread_inv_frame me s); [frame_tac| |done]. split; smp_simpl; eauto.
      * intros _. rewrite Hn, C. simpl. lia.
      * by intros l' [?|[?|?]].
    + intros l'. apply (lock_inv_frame me s); [frame_tac|done| | |done]; smp_simpl; [|done].
      apply owns_iff; smp_simpl; [done|]. rewrite Hpc. naive_solver.
Qed.

Lemma smp_reach_inv s : smp_reach s -> smp_inv s.
Proof using nlocks_small.
  induction 1; [by apply smp_init_inv|by eapply inv_step].
Qed.
End Smp.

(** C34: in every interleaving of the instructions of acquire and release, at
    most one CPU holds a lock, the CPUs that hold a lock run with interrupts
    off, and holding(lk) answers exactly whether the calling CPU holds it. *)
Theorem spinlock_mutual_exclusion nlocks s :
  Z.of_nat nlocks < 2 ^ 31 - 3 -> smp_reach nlocks s ->
  (forall l a b, l ∈ t_held (s_cpus s a) -> l ∈ t_held (s_cpus s b) -> a = b) /\
  (forall l a, l ∈ t_held (s_cpus s a) -> (forall m, t_pc (s_cpus s a) <> PPanic m) ->
     has (c_eflags (t_cpu (s_cpus s a))) FL_IF = false) /\
  (forall l a, holding (s_locks s l) a = true <-> l ∈ t_held (s_cpus s a)).
Proof.
  intros Hn Hr. pose proof (smp_reach_inv nlocks Hn s Hr) as Hs. repeat split.
  - intros l a b Ha Hb. destruct Hs as [_ Hl]. apply (li_one _ _ (Hl l)); by left.
  - intros l a Ha Hnp. destruct Hs as [Ht _]. destruct (Ht a) as [_ _ C [if0 [D1 D2]] _].
    specialize (C Hnp). destruct (Z.eqb_spec (c_ncli (t_cpu (s_cpus s a))) 0) as [H0|]; [|tauto].
    destruct (t_held (s_cpus s a)); [by apply elem_of_nil in Ha|].
    simpl in C. destruct (t_pc (s_cpus s a)); simpl in C; lia.
  - by apply (holding_held nlocks).
  - by apply (holding_held nlocks).
Qed.

(** ** Concrete runs *)
Definition demo_cpu : cpu := mkCpu 0 FL_IF 0 0 None 0 0 0.
Definition demo_smp : smp := mkSmp (fun _ => mkThread demo_cpu PIdle []) (fun _ => initlock "lock").

(** pushcli, pushcli, popcli, popcli with interrupts enabled before *)
Lemma cli_matched_witness :
  exists c', run_cli [true; true; false; false] demo_cpu = Done c' tt /\ c_ncli c' = 0 /\
             has (c_eflags c') FL_IF = has (c_eflags demo_cpu) FL_IF.
Proof.
  apply (cli_matched [true; true; false; false] demo_cpu); [reflexivity|vm_compute; reflexivity|].
  cbn. repeat split; lia.
Defined.

(** CPU 0 acquires lock 0 while CPU 1 starts to spin on it. *)
Lemma demo_smp_reach : exists s, smp_reach 1 s /\ 0%nat ∈ t_held (s_cpus s 0).
Proof.
  eexists. split.
  - eapply (sr_step 1 _ _ 1); [eapply (sr_step 1 _ _ 0); [eapply (sr_step 1 _ _ 0); [eapply (sr_step 1 _ _ 0)|]|]|].
    + apply (sr_init 1 demo_smp). split; intros i; repeat split.
    + eapply (st_acquire 1 0 _ 0); [reflexivity|lia|reflexivity].
    + eapply (st_xchg 1 0 _ 0). reflexivity.
    + eapply (st_record 1 0 _ 0). reflexivity.
    + eapply (st_acquire 1 1 _ 0); [reflexivity|lia|reflexivity].
  - cbn. left.
Qed.

Lemma spinlock_mutual_exclusion_witness :
  exists s, smp_reach 1 s /\ 0%nat ∈ t_held (s_cpus s 0) /\
    forall a, 0%nat ∈ t_held (s_cpus s a) -> a = 0%nat.
Proof.
  destruct demo_smp_reach as (s & Hs & H0). exists s. split; [exact Hs|]. split; [exact H0|].
  intros a Ha. destruct (spinlock_mutual_exclusion 1 s) as (H & _); [lia|exact Hs|]. exact (H 0%nat a 0%nat Ha H0).
Defined.
