(* ===== verification/Proc.v ===== *)
(** * Processes: proc.c and the data of proc.h

    The process table, the per-CPU scheduler, sleep/wakeup, fork, exit, wait,
    waitx and kill, as code in the kernel monad.  What proc.c calls in the
    memory allocator, the virtual memory system and the file system is the
    interface [ProcEnv]; the theorems about the process table hold for every
    implementation of it.

    A context switch stores, as the process's saved context, what the process
    does when it is switched to again. *)

From S2P Require Import Prelude Params CString Spinlock.

(** ** Data (proc.h, x86.h) *)
Inductive procstate : Set := UNUSED | EMBRYO | SLEEPING | RUNNABLE | RUNNING | ZOMBIE.
#[export] Instance procstate_eq_dec : EqDecision procstate.
Proof. solve_decision. Defined.

Inductive lockid : Set :=
| LPtable | LTicks | LLog | LBcache | LIcache | LFtable | LIde | LInput | LCons | LKmem
| LPipe (p : Z).
#[export] Instance lockid_eq_dec : EqDecision lockid.
Proof. solve_decision. Defined.

(** The caller a sleeping process returns to. *)
Inductive after : Type :=
| AWait
| AWaitx (wtime rtime : Z)
| ASysSleep (n ticks0 : Z)
| AOther.

(** The code a kernel stack continues with when it is switched to. *)
Inductive context : Type :=
| KForkret                                          (** forkret() *)
| KYield (intena cs : Z)                            (** in sched() called by yield(), from trap() *)
| KSleep (intena : Z) (lk : lockid) (k : after)     (** in sched() called by sleep(_, lk) *)
| KExit.                                            (** in sched() called by exit() *)

Record trapframe : Type := mkTf {
  tf_edi : Z;
  tf_esi : Z;
  tf_ebp : Z;
  tf_oesp : Z;
  tf_ebx : Z;
  tf_edx : Z;
  tf_ecx : Z;
  tf_eax : Z;
  tf_gs : Z;
  tf_fs : Z;
  tf_es : Z;
  tf_ds : Z;
  tf_trapno : Z;
  tf_err : Z;
  tf_eip : Z;
  tf_cs : Z;
  tf_eflags : Z;
  tf_esp : Z;
  tf_ss : Z
}.

Definition set_tf_eax (v : Z) (x : trapframe) : trapframe :=
  mkTf (tf_edi x) (tf_esi x) (tf_ebp x) (tf_oesp x) (tf_ebx x) (tf_edx x) (tf_ecx x) v
    (tf_gs x) (tf_fs x) (tf_es x) (tf_ds x) (tf_trapno x) (tf_err x) (tf_eip x) (tf_cs x)
    (tf_eflags x) (tf_esp x) (tf_ss x).

Record proc : Type := mkProc {
  p_sz : Z;  (** size of process memory *)
  p_pgdir : Z;  (** page table *)
  p_kstack : Z;  (** bottom of kernel stack *)
  p_state : procstate;
  p_pid : Z;
  p_parent : option nat;  (** slot of the parent *)
  p_tf : trapframe;  (** *p->tf, at the top of the kernel stack *)
  p_context : context;  (** *p->context: where the kernel stack resumes *)
  p_chan : chan;
  p_killed : Z;
  p_ofile : list Z;  (** NOFILE pointers *)
  p_cwd : Z;
  p_name : list Z;  (** 16 bytes *)
  p_ctime1 : Z;
  p_etime : Z;
  p_rtime : Z;
  p_iotime : Z
}.

Definition set_sz (v : Z) (x : proc) : proc :=
  mkProc v (p_pgdir x) (p_kstack x) (p_state x) (p_pid x) (p_parent x) (p_tf x) (p_context
    x) (p_chan x) (p_killed x) (p_ofile x) (p_cwd x) (p_name x) (p_ctime1 x) (p_etime x)
    (p_rtime x) (p_iotime x).
Definition set_pgdir (v : Z) (x : proc) : proc :=
  mkProc (p_sz x) v (p_kstack x) (p_state x) (p_pid x) (p_parent x) (p_tf x) (p_context x)
    (p_chan x) (p_killed x) (p_ofile x) (p_cwd x) (p_name x) (p_ctime1 x) (p_etime x)
    (p_rtime x) (p_iotime x).
Definition set_kstack (v : Z) (x : proc) : proc :=
  mkProc (p_sz x) (p_pgdir x) v (p_state x) (p_pid x) (p_parent x) (p_tf x) (p_context x)
    (p_chan x) (p_killed x) (p_ofile x) (p_cwd x) (p_name x) (p_ctime1 x) (p_etime x)
    (p_rtime x) (p_iotime x).
Definition set_state (v : procstate) (x : proc) : proc :=
  mkProc (p_sz x) (p_pgdir x) (p_kstack x) v (p_pid x) (p_parent x) (p_tf x) (p_context x)
    (p_chan x) (p_killed x) (p_ofile x) (p_cwd x) (p_name x) (p_ctime1 x) (p_etime x)
    (p_rtime x) (p_iotime x).
Definition set_pid (v : Z) (x : proc) : proc :=
  mkProc (p_sz x) (p_pgdir x) (p_kstack x) (p_state x) v (p_parent x) (p_tf x) (p_context x)
    (p_chan x) (p_killed x) (p_ofile x) (p_cwd x) (p_name x) (p_ctime1 x) (p_etime x)
    (p_rtime x) (p_iotime x).
Definition set_parent (v : option nat) (x : proc) : proc :=
  mkProc (p_sz x) (p_pgdir x) (p_kstack x) (p_state x) (p_pid x) v (p_tf x) (p_context x)
    (p_chan x) (p_killed x) (p_ofile x) (p_cwd x) (p_name x) (p_ctime1 x) (p_etime x)
    (p_rtime x) (p_iotime x).
Definition set_tf (v : trapframe) (x : proc) : proc :=
  mkProc (p_sz x) (p_pgdir x) (p_kstack x) (p_state x) (p_pid x) (p_parent x) v (p_context
    x) (p_chan x) (p_killed x) (p_ofile x) (p_cwd x) (p_name x) (p_ctime1 x) (p_etime x)
    (p_rtime x) (p_iotime x).
Definition set_context (v : context) (x : proc) : proc :=
  mkProc (p_sz x) (p_pgdir x) (p_kstack x) (p_state x) (p_pid x) (p_parent x) (p_tf x) v
    (p_chan x) (p_killed x) (p_ofile x) (p_cwd x) (p_name x) (p_ctime1 x) (p_etime x)
    (p_rtime x) (p_iotime x).
Definition set_chan (v : chan) (x : proc) : proc :=
  mkProc (p_sz x) (p_pgdir x) (p_kstack x) (p_state x) (p_pid x) (p_parent x) (p_tf x)
    (p_context x) v (p_killed x) (p_ofile x) (p_cwd x) (p_name x) (p_ctime1 x) (p_etime x)
    (p_rtime x) (p_iotime x).
Definition set_killed (v : Z) (x : proc) : proc :=
  mkProc (p_sz x) (p_pgdir x) (p_kstack x) (p_state x) (p_pid x) (p_parent x) (p_tf x)
    (p_context x) (p_chan x) v (p_ofile x) (p_cwd x) (p_name x) (p_ctime1 x) (p_etime x)
    (p_rtime x) (p_iotime x).
Definition set_ofile (v : list Z) (x : proc) : proc :=
  mkProc (p_sz x) (p_pgdir x) (p_kstack x) (p_state x) (p_pid x) (p_parent x) (p_tf x)
    (p_context x) (p_chan x) (p_killed x) v (p_cwd x) (p_name x) (p_ctime1 x) (p_etime x)
    (p_rtime x) (p_iotime x).
Definition set_cwd (v : Z) (x : proc) : proc :=
  mkProc (p_sz x) (p_pgdir x) (p_kstack x) (p_state x) (p_pid x) (p_parent x) (p_tf x)
    (p_context x) (p_chan x) (p_killed x) (p_ofile x) v (p_name x) (p_ctime1 x) (p_etime x)
    (p_rtime x) (p_iotime x).
Definition set_name (v : list Z) (x : proc) : proc :=
  mkProc (p_sz x) (p_pgdir x) (p_kstack x) (p_state x) (p_pid x) (p_parent x) (p_tf x)
    (p_context x) (p_chan x) (p_killed x) (p_ofile x) (p_cwd x) v (p_ctime1 x) (p_etime x)
    (p_rtime x) (p_iotime x).
Definition set_ctime1 (v : Z) (x : proc) : proc :=
  mkProc (p_sz x) (p_pgdir x) (p_kstack x) (p_state x) (p_pid x) (p_parent x) (p_tf x)
    (p_context x) (p_chan x) (p_killed x) (p_ofile x) (p_cwd x) (p_name x) v (p_etime x)
    (p_rtime x) (p_iotime x).
Definition set_etime (v : Z) (x : proc) : proc :=
  mkProc (p_sz x) (p_pgdir x) (p_kstack x) (p_state x) (p_pid x) (p_parent x) (p_tf x)
    (p_context x) (p_chan x) (p_killed x) (p_ofile x) (p_cwd x) (p_name x) (p_ctime1 x) v
    (p_rtime x) (p_iotime x).
Definition set_rtime (v : Z) (x : proc) : proc :=
  mkProc (p_sz x) (p_pgdir x) (p_kstack x) (p_state x) (p_pid x) (p_parent x) (p_tf x)
    (p_context x) (p_chan x) (p_killed x) (p_ofile x) (p_cwd x) (p_name x) (p_ctime1 x)
    (p_etime x) v (p_iotime x).
Definition set_iotime (v : Z) (x : proc) : proc :=
  mkProc (p_sz x) (p_pgdir x) (p_kstack x) (p_state x) (p_pid x) (p_parent x) (p_tf x)
    (p_context x) (p_chan x) (p_killed x) (p_ofile x) (p_cwd x) (p_name x) (p_ctime1 x)
    (p_etime x) (p_rtime x) v.

#[export] Instance cpu_inhabited : Inhabited cpu :=
  populate (mkCpu 1 0 0 0 None 0 0 0).
Definition junk : Z := 0x01010101.
Definition junk_tf : trapframe :=
  mkTf junk junk junk junk junk junk junk junk 0x0101 0x0101 0x0101 0x0101 junk junk junk 0x0101
       junk junk 0x0101.
Definition zero_tf : trapframe := mkTf 0 0 0 0 0 0 0 0 0 0 0 0 0 0 0 0 0 0 0.

(** A slot of the zero-initialised ptable. *)
Definition proc0 : proc :=
  mkProc 0 0 0 UNUSED 0 None zero_tf KForkret CNull 0 (replicate NOFILE 0) 0 (replicate 16 0)
         0 0 0 0.
#[export] Instance proc_inhabited : Inhabited proc := populate proc0.

Record kst (E : Type) : Type := mkKst {
  k_procs : list proc;  (** ptable.proc *)
  k_initproc : option nat;
  k_nextpid : Z;
  k_ticks : Z;
  k_locks : lockid -> spinlock;
  k_cpus : list cpu;
  k_kpgdir : Z;
  k_first : bool;  (** forkret's static first *)
  k_env : E
}.
Arguments mkKst {E} _ _ _ _ _ _ _ _ _.
Arguments k_procs {E} _.
Arguments k_initproc {E} _.
Arguments k_nextpid {E} _.
Arguments k_ticks {E} _.
Arguments k_locks {E} _.
Arguments k_cpus {E} _.
Arguments k_kpgdir {E} _.
Arguments k_first {E} _.
Arguments k_env {E} _.

Definition put_procs {E} (v : list proc) (x : kst E) : kst E :=
  mkKst v (k_initproc x) (k_nextpid x) (k_ticks x) (k_locks x) (k_cpus x) (k_kpgdir x)
    (k_first x) (k_env x).
Definition put_initproc {E} (v : option nat) (x : kst E) : kst E :=
  mkKst (k_procs x) v (k_nextpid x) (k_ticks x) (k_locks x) (k_cpus x) (k_kpgdir x) (k_first
    x) (k_env x).
Definition put_nextpid {E} (v : Z) (x : kst E) : kst E :=
  mkKst (k_procs x) (k_initproc x) v (k_ticks x) (k_locks x) (k_cpus x) (k_kpgdir x)
    (k_first x) (k_env x).
Definition put_ticks {E} (v : Z) (x : kst E) : kst E :=
  mkKst (k_procs x) (k_initproc x) (k_nextpid x) v (k_locks x) (k_cpus x) (k_kpgdir x)
    (k_first x) (k_env x).
Definition put_locks {E} (v : lockid -> spinlock) (x : kst E) : kst E :=
  mkKst (k_procs x) (k_initproc x) (k_nextpid x) (k_ticks x) v (k_cpus x) (k_kpgdir x)
    (k_first x) (k_env x).
Definition put_cpus {E} (v : list cpu) (x : kst E) : kst E :=
  mkKst (k_procs x) (k_initproc x) (k_nextpid x) (k_ticks x) (k_locks x) v (k_kpgdir x)
    (k_first x) (k_env x).
Definition put_kpgdir {E} (v : Z) (x : kst E) : kst E :=
  mkKst (k_procs x) (k_initproc x) (k_nextpid x) (k_ticks x) (k_locks x) (k_cpus x) v
    (k_first x) (k_env x).
Definition put_first {E} (v : bool) (x : kst E) : kst E :=
  mkKst (k_procs x) (k_initproc x) (k_nextpid x) (k_ticks x) (k_locks x) (k_cpus x)
    (k_kpgdir x) v (k_env x).
Definition put_env {E} (v : E) (x : kst E) : kst E :=
  mkKst (k_procs x) (k_initproc x) (k_nextpid x) (k_ticks x) (k_locks x) (k_cpus x)
    (k_kpgdir x) (k_first x) v.

(** ** What proc.c calls elsewhere

    Pointers are Z, 0 is the null pointer.  Calls that wake sleepers return
    the channels they pass to wakeup(). *)
Class ProcEnv (E : Type) := {
  env_kalloc : kernel E Z;
  env_kfree : Z -> kernel E unit;
  env_setupkvm : kernel E Z;
  env_inituvm : Z -> kernel E unit;
  env_copyuvm : Z -> Z -> kernel E Z;
  env_freevm : Z -> kernel E unit;
  env_allocuvm : Z -> Z -> Z -> kernel E Z;
  env_deallocuvm : Z -> Z -> Z -> kernel E Z;
  env_store_int : Z -> Z -> Z -> kernel E unit;      (** *va = v under a page table *)
  env_filedup : Z -> kernel E unit;                  (** returns its argument *)
  env_fileclose : Z -> kernel E (list chan);
  env_idup : Z -> kernel E unit;                     (** returns its argument *)
  env_iput : Z -> kernel E (list chan);              (** begin_op(); iput(); end_op() *)
  env_namei_root : kernel E Z;
  env_fsinit : kernel E unit;                        (** iinit(ROOTDEV); initlog(ROOTDEV) *)
  env_intr : Z -> kernel E (list chan)               (** device interrupt handlers *)
}.

Section Proc.
Context {E : Type} `{!ProcEnv E}.

Definition lift_env {A} (m : kernel E A) : kernel (kst E) A := klift k_env put_env m.

Definition getp (i : nat) : kernel (kst E) proc := kgets (fun s => k_procs s !!! i).
Definition modp (i : nat) (f : proc -> proc) : kernel (kst E) unit :=
  kmodify (fun s => put_procs (alter f i (k_procs s)) s).
Definition getc (c : nat) : kernel (kst E) cpu := kgets (fun s => k_cpus s !!! c).
Definition modc (c : nat) (f : cpu -> cpu) : kernel (kst E) unit :=
  kmodify (fun s => put_cpus (alter f c (k_cpus s)) s).

(** A null [proc] pointer: reading through it traps in the kernel. *)
Definition myproc (c : nat) : kernel (kst E) nat :=
  x ← getc c; match c_proc x with Some i => mret i | None => kpanic "trap" end.

Definition on_lock (c : nat) (l : lockid) (m : kernel (cpu * spinlock) unit) : kernel (kst E) unit :=
  klift (fun s => (k_cpus s !!! c, k_locks s l))
        (fun '(x, lk) s => put_locks (<[l := lk]> (k_locks s)) (put_cpus (<[c := x]> (k_cpus s)) s)) m.
Definition acquire_l (l : lockid) (c : nat) : kernel (kst E) unit := on_lock c l (acquire c).
Definition release_l (l : lockid) (c : nat) : kernel (kst E) unit := on_lock c l (release c).
Definition pushcli_c (c : nat) : kernel (kst E) unit :=
  klift (fun s => k_cpus s !!! c) (fun x s => put_cpus (<[c := x]> (k_cpus s)) s) pushcli.
Definition popcli_c (c : nat) : kernel (kst E) unit :=
  klift (fun s => k_cpus s !!! c) (fun x s => put_cpus (<[c := x]> (k_cpus s)) s) popcli.

(** ** Allocation *)
Definition is_state (st : procstate) (p : proc) : bool := bool_decide (p_state p = st).

Definition allocproc (c : nat) : kernel (kst E) (option nat) :=
  acquire_l LPtable c;;
  s ← kget;
  match find_index (is_state UNUSED) (k_procs s) with
  | None => release_l LPtable c;; mret None
  | Some i =>
      modp i (set_state EMBRYO);;
      modp i (set_pid (k_nextpid s));;
      kmodify (fun s => put_nextpid (s32 (k_nextpid s + 1)) s);;
      release_l LPtable c;;
      kstack ← lift_env env_kalloc;
      modp i (set_kstack kstack);;
      if kstack =? 0 then modp i (set_state UNUSED);; mret None
      else
        modp i (set_tf junk_tf);;
        modp i (set_context KForkret);;
        t ← kgets k_ticks;
        modp i (set_ctime1 (s32 t));;
        modp i (set_etime 0);;
        modp i (set_rtime 0);;
        modp i (set_iotime 0);;
        mret (Some i)
  end.

Definition initcode_name : list Z := [105; 110; 105; 116; 99; 111; 100; 101; 0].

Definition copy_name (t : list Z) (p : proc) : proc :=
  match safestrcpy (p_name p) t 16 with Some n => set_name n p | None => p end.

Definition user_tf : trapframe :=
  let cs := Z.lor (Z.shiftl SEG_UCODE 3) DPL_USER in
  let ds := Z.lor (Z.shiftl SEG_UDATA 3) DPL_USER in
  mkTf 0 0 0 0 0 0 0 0 0 0 ds ds 0 0 0 cs FL_IF PGSIZE ds.

Definition userinit (c : nat) : kernel (kst E) unit :=
  r ← allocproc c;
  kmodify (put_initproc r);;
  match r with
  | None => kpanic "trap"
  | Some p =>
      pgdir ← lift_env env_setupkvm;
      modp p (set_pgdir pgdir);;
      if pgdir =? 0 then kpanic "userinit: out of memory?"
      else
        lift_env (env_inituvm pgdir);;
        modp p (set_sz PGSIZE);;
        modp p (set_tf user_tf);;
        modp p (copy_name initcode_name);;
        cwd ← lift_env env_namei_root;
        modp p (set_cwd cwd);;
        modp p (set_state RUNNABLE)
  end.

(** ** Context switching *)
Definition switchuvm (c p : nat) : kernel (kst E) unit :=
  pushcli_c c;;
  x ← getc c;
  match c_proc x with
  | None => kpanic "trap"
  | Some q =>
      pq ← getp q;
      modc c (set_esp0 (u32 (p_kstack pq + KSTACKSIZE)));;
      pp ← getp p;
      if p_pgdir pp =? 0 then kpanic "switchuvm: no pgdir"
      else modc c (set_cr3 (v2p (p_pgdir pp)));; popcli_c c
  end.

Definition switchkvm (c : nat) : kernel (kst E) unit :=
  s ← kget; modc c (set_cr3 (v2p (k_kpgdir s))).

(** scheduler() after swtch() returned to it: back to the head of its loop. *)
Definition scheduler_resume (c : nat) : kernel (kst E) unit :=
  switchkvm c;;
  modc c (set_proc None);;
  modc c (fun x => set_pos (S (c_pos x)) x).

(** sched(): [k intena] is the context swtch() saves, the code after it. *)
Definition sched (c : nat) (k : Z -> context) : kernel (kst E) unit :=
  s ← kget;
  i ← myproc c;
  p ← getp i;
  x ← getc c;
  if negb (holding (k_locks s LPtable) c) then kpanic "sched ptable.lock"
  else if negb (c_ncli x =? 1) then kpanic "sched locks"
  else if is_state RUNNING p then kpanic "sched running"
  else if has (c_eflags x) FL_IF then kpanic "sched interruptible"
  else modp i (set_context (k (c_intena x)));; scheduler_resume c.

(** The loop of scheduler() from its current position, ptable.lock held: the
    slot switched to, or None when the pass is over and the lock released. *)
Definition scheduler_loop (c : nat) : kernel (kst E) (option nat) :=
  s ← kget;
  x ← getc c;
  match find_index (is_state RUNNABLE) (drop (c_pos x) (k_procs s)) with
  | None => release_l LPtable c;; mret None
  | Some d =>
      let i := (c_pos x + d)%nat in
      modc c (set_pos i);;
      modc c (set_proc (Some i));;
      switchuvm c i;;
      modp i (set_state RUNNING);;
      mret (Some i)
  end.

(** for(;;) { sti(); acquire(&ptable.lock); p = ptable.proc; ... *)
Definition scheduler_top (c : nat) : kernel (kst E) unit :=
  modc c sti;;
  acquire_l LPtable c;;
  modc c (set_pos 0).

(** ** Sleep and wakeup *)
Definition sleep (c : nat) (ch : chan) (lk : lockid) (k : after) : kernel (kst E) unit :=
  x ← getc c;
  match c_proc x with
  | None => kpanic "sleep"
  | Some i =>
      (if decide (lk = LPtable) then mret tt
       else acquire_l LPtable c;; release_l lk c);;
      modp i (set_chan ch);;
      modp i (set_state SLEEPING);;
      sched c (fun intena => KSleep intena lk k)
  end.

Definition wake (ch : chan) (p : proc) : proc :=
  if is_state SLEEPING p && bool_decide (p_chan p = ch) then set_state RUNNABLE p else p.

Definition wakeup1 (ch : chan) : kernel (kst E) unit :=
  kmodify (fun s => put_procs (wake ch <$> k_procs s) s).

Definition wakeup (c : nat) (ch : chan) : kernel (kst E) unit :=
  acquire_l LPtable c;; wakeup1 ch;; release_l LPtable c.

Fixpoint wakeups (c : nat) (chs : list chan) : kernel (kst E) unit :=
  match chs with
  | [] => mret tt
  | ch :: chs' => wakeup c ch;; wakeups c chs'
  end.

(** yield(), called by trap() for a frame with code segment [cs]. *)
Definition yield (c : nat) (cs : Z) : kernel (kst E) unit :=
  acquire_l LPtable c;;
  i ← myproc c;
  modp i (set_state RUNNABLE);;
  sched c (fun intena => KYield intena cs).

(** ** Creating processes *)
Fixpoint dup_files (np : nat) (fds : list Z) (i : nat) : kernel (kst E) unit :=
  match fds with
  | [] => mret tt
  | f :: fds' =>
      (if f =? 0 then mret tt
       else lift_env (env_filedup f);;
            modp np (fun p => set_ofile (<[i := f]> (p_ofile p)) p));;
      dup_files np fds' (S i)
  end.

Definition fork (c : nat) : kernel (kst E) Z :=
  r ← allocproc c;
  match r with
  | None => mret (-1)
  | Some np =>
      me ← myproc c;
      p ← getp me;
      pgdir ← lift_env (env_copyuvm (p_pgdir p) (p_sz p));
      modp np (set_pgdir pgdir);;
      if pgdir =? 0 then
        q ← getp np;
        lift_env (env_kfree (p_kstack q));;
        modp np (set_kstack 0);;
        modp np (set_state UNUSED);;
        mret (-1)
      else
        modp np (set_sz (p_sz p));;
        modp np (set_parent (Some me));;
        modp np (set_tf (p_tf p));;
        modp np (fun q => set_tf (set_tf_eax 0 (p_tf q)) q);;
        dup_files np (p_ofile p) 0;;
        lift_env (env_idup (p_cwd p));;
        modp np (set_cwd (p_cwd p));;
        modp np (copy_name (p_name p));;
        q ← getp np;
        acquire_l LPtable c;;
        modp np (set_state RUNNABLE);;
        release_l LPtable c;;
        mret (p_pid q)
  end.

Definition growproc (c : nat) (n : Z) : kernel (kst E) Z :=
  me ← myproc c;
  p ← getp me;
  sz ← (if n >? 0 then lift_env (env_allocuvm (p_pgdir p) (p_sz p) (u32 (p_sz p + n)))
        else if n <? 0 then lift_env (env_deallocuvm (p_pgdir p) (p_sz p) (u32 (p_sz p + n)))
        else mret (p_sz p));
  if (sz =? 0) && negb (n =? 0) then mret (-1)
  else modp me (set_sz sz);; switchuvm c me;; mret 0.

(** ** Exit *)
Fixpoint close_files (c me : nat) (fds : list nat) : kernel (kst E) unit :=
  match fds with
  | [] => mret tt
  | fd :: fds' =>
      p ← getp me;
      (if p_ofile p !!! fd =? 0 then mret tt
       else chs ← lift_env (env_fileclose (p_ofile p !!! fd));
            wakeups c chs;;
            modp me (fun p => set_ofile (<[fd := 0]> (p_ofile p)) p));;
      close_files c me fds'
  end.

Definition chan_of (o : option nat) : chan :=
  match o with Some i => CProc i | None => CNull end.

(** Pass abandoned children to init. *)
Fixpoint reparent (me : nat) (l : list nat) : kernel (kst E) unit :=
  match l with
  | [] => mret tt
  | i :: l' =>
      p ← getp i;
      (if decide (p_parent p = Some me) then
         s ← kget;
         modp i (set_parent (k_initproc s));;
         (if is_state ZOMBIE p then wakeup1 (chan_of (k_initproc s)) else mret tt)
       else mret tt);;
      reparent me l'
  end.

Definition exit (c : nat) : kernel (kst E) unit :=
  me ← myproc c;
  s ← kget;
  if decide (Some me = k_initproc s) then kpanic "init exiting"
  else
    close_files c me (seq 0 NOFILE);;
    p ← getp me;
    chs ← lift_env (env_iput (p_cwd p));
    wakeups c chs;;
    modp me (set_cwd 0);;
    acquire_l LPtable c;;
    p ← getp me;
    wakeup1 (chan_of (p_parent p));;
    reparent me (seq 0 NPROC);;
    modp me (set_state ZOMBIE);;
    t ← kgets k_ticks;
    modp me (set_etime (s32 t));;
    sched c (fun _ => KExit).

(** ** Wait *)

(** Release the slot of a zombie child and return its pid. *)
Definition reap (i : nat) : kernel (kst E) Z :=
  p ← getp i;
  lift_env (env_kfree (p_kstack p));;
  modp i (set_kstack 0);;
  lift_env (env_freevm (p_pgdir p));;
  modp i (set_state UNUSED);;
  modp i (set_pid 0);;
  modp i (set_parent None);;
  modp i (fun p => set_name (<[0%nat := 0]> (p_name p)) p);;
  modp i (set_killed 0);;
  mret (p_pid p).

Fixpoint wait_scan (me : nat) (l : list nat) (havekids : bool) : kernel (kst E) (option Z * bool) :=
  match l with
  | [] => mret (None, havekids)
  | i :: l' =>
      p ← getp i;
      if decide (p_parent p = Some me) then
        if is_state ZOMBIE p then pid ← reap i; mret (Some pid, true)
        else wait_scan me l' true
      else wait_scan me l' havekids
  end.

(** One turn of the for(;;) of wait(), ptable.lock held: the result it
    returns, or None after going to sleep. *)
Definition wait_turn (c : nat) : kernel (kst E) (option Z) :=
  me ← myproc c;
  '(r, havekids) ← wait_scan me (seq 0 NPROC) false;
  match r with
  | Some pid => release_l LPtable c;; mret (Some pid)
  | None =>
      p ← getp me;
      if negb havekids || negb (p_killed p =? 0) then release_l LPtable c;; mret (Some (-1))
      else sleep c (CProc me) LPtable AWait;; mret None
  end.

Definition wait (c : nat) : kernel (kst E) (option Z) :=
  acquire_l LPtable c;; wait_turn c.

(** The two results of waitx for a zombie. *)
Definition wait_time (p : proc) : Z := s32 (p_etime p - p_ctime1 p - p_rtime p - p_iotime p).

Fixpoint waitx_scan (me : nat) (wtime rtime : Z) (l : list nat) (havekids : bool)
  : kernel (kst E) (option Z * bool) :=
  match l with
  | [] => mret (None, havekids)
  | i :: l' =>
      p ← getp i;
      if decide (p_parent p = Some me) then
        if is_state ZOMBIE p then
          pme ← getp me;
          lift_env (env_store_int (p_pgdir pme) wtime (wait_time p));;
          lift_env (env_store_int (p_pgdir pme) rtime (p_rtime p));;
          pid ← reap i; mret (Some pid, true)
        else waitx_scan me wtime rtime l' true
      else waitx_scan me wtime rtime l' havekids
  end.

Definition waitx_turn (c : nat) (wtime rtime : Z) : kernel (kst E) (option Z) :=
  me ← myproc c;
  '(r, havekids) ← waitx_scan me wtime rtime (seq 0 NPROC) false;
  match r with
  | Some pid => release_l LPtable c;; mret (Some pid)
  | None =>
      p ← getp me;
      if negb havekids || negb (p_killed p =? 0) then release_l LPtable c;; mret (Some (-1))
      else sleep c (CProc me) LPtable (AWaitx wtime rtime);; mret None
  end.

Definition waitx (c : nat) (wtime rtime : Z) : kernel (kst E) (option Z) :=
  acquire_l LPtable c;; waitx_turn c wtime rtime.

(** ** Kill *)
Definition kill (c : nat) (pid : Z) : kernel (kst E) Z :=
  acquire_l LPtable c;;
  s ← kget;
  match find_index (fun p => p_pid p =? pid) (k_procs s) with
  | Some i =>
      modp i (set_killed 1);;
      modp i (fun p => if is_state SLEEPING p then set_state RUNNABLE p else p);;
      release_l LPtable c;;
      mret 0
  | None => release_l LPtable c;; mret (-1)
  end.

(** ** Resuming a process after swtch() *)
Definition forkret (c : nat) : kernel (kst E) unit :=
  release_l LPtable c;;
  s ← kget;
  if k_first s then kmodify (put_first false);; lift_env env_fsinit else mret tt.

(** sys_sleep() from its while test on, tickslock held (sysproc.c). *)
Definition sys_sleep_turn (c : nat) (n ticks0 : Z) : kernel (kst E) (option Z) :=
  me ← myproc c;
  s ← kget;
  p ← getp me;
  if u32 (k_ticks s - ticks0) <? u32 n then
    if negb (p_killed p =? 0) then release_l LTicks c;; mret (Some (-1))
    else sleep c CTicks LTicks (ASysSleep n ticks0);; mret None
  else release_l LTicks c;; mret (Some 0).

(** The end of sleep() and the caller's next turn. *)
Definition sleep_return (c me : nat) (lk : lockid) (k : after) : kernel (kst E) unit :=
  modp me (set_chan CNull);;
  (if decide (lk = LPtable) then mret tt
   else release_l LPtable c;; acquire_l lk c);;
  match k with
  | AWait => _ ← wait_turn c; mret tt
  | AWaitx w r => _ ← waitx_turn c w r; mret tt
  | ASysSleep n t0 => _ ← sys_sleep_turn c n t0; mret tt
  | AOther => release_l lk c
  end.

(** if(proc && proc->killed && (tf->cs&3) == DPL_USER) exit(); the result says
    whether the process is gone. *)
Definition trap_killed (c : nat) (cs : Z) : kernel (kst E) bool :=
  x ← getc c;
  match c_proc x with
  | None => mret false
  | Some i =>
      p ← getp i;
      if negb (p_killed p =? 0) && (Z.land cs 3 =? DPL_USER) then exit c;; mret true
      else mret false
  end.

Definition run_context (c i : nat) : kernel (kst E) unit :=
  p ← getp i;
  match p_context p with
  | KForkret => forkret c
  | KYield intena cs =>
      modc c (set_intena intena);; release_l LPtable c;; _ ← trap_killed c cs; mret tt
  | KSleep intena lk k => modc c (set_intena intena);; sleep_return c i lk k
  | KExit => kpanic "zombie exit"
  end.

(** The scheduler runs until it has started a process or ended its pass. *)
Definition dispatch (c : nat) : kernel (kst E) unit :=
  r ← scheduler_loop c;
  match r with
  | None => mret tt
  | Some i => run_context c i
  end.

(** ** The timer branch of trap() and its tail (trap.c) *)

(** ticks++; wakeup(&ticks); and the accounting added for waitx. *)
Definition account (p : proc) : proc :=
  if is_state RUNNING p then set_rtime (s32 (p_rtime p + 1)) p
  else if is_state SLEEPING p then set_iotime (s32 (p_iotime p + 1)) p
  else p.

Definition trap_timer (c : nat) : kernel (kst E) unit :=
  x ← getc c;
  if c_id x =? 0 then
    acquire_l LTicks c;;
    kmodify (fun s => put_ticks (u32 (k_ticks s + 1)) s);;
    wakeup c CTicks;;
    release_l LTicks c;;
    match c_proc x with
    | Some i => modp i account
    | None => mret tt
    end
  else mret tt.

(** The default case of the switch: a fault. *)
Definition trap_fault (c : nat) (cs : Z) : kernel (kst E) unit :=
  x ← getc c;
  match c_proc x with
  | None => kpanic "trap"
  | Some i => if Z.land cs 3 =? 0 then kpanic "trap" else modp i (set_killed 1)
  end.

(** switch(tf->trapno) *)
Definition trap_switch (c : nat) (tf : trapframe) : kernel (kst E) unit :=
  let n := tf_trapno tf in
  if n =? T_IRQ0 + IRQ_TIMER then trap_timer c
  else if n =? T_IRQ0 + IRQ_IDE then chs ← lift_env (env_intr IRQ_IDE); wakeups c chs
  else if n =? T_IRQ0 + IRQ_IDE + 1 then mret tt
  else if n =? T_IRQ0 + IRQ_KBD then chs ← lift_env (env_intr IRQ_KBD); wakeups c chs
  else if n =? T_IRQ0 + IRQ_COM1 then chs ← lift_env (env_intr IRQ_COM1); wakeups c chs
  else if (n =? T_IRQ0 + 7) || (n =? T_IRQ0 + IRQ_SPURIOUS) then mret tt
  else trap_fault c (tf_cs tf).

(** trap() for every trap number but T_SYSCALL, up to the context switch. *)
Definition trap (c : nat) (tf : trapframe) : kernel (kst E) unit :=
  trap_switch c tf;;
  gone ← trap_killed c (tf_cs tf);
  if (gone : bool) then mret tt
  else
    x ← getc c;
    match c_proc x with
    | None => mret tt
    | Some i =>
        p ← getp i;
        if is_state RUNNING p && (tf_trapno tf =? T_IRQ0 + IRQ_TIMER) then yield c (tf_cs tf)
        else _ ← trap_killed c (tf_cs tf); mret tt
    end.
End Proc.
