(* ===== verification/ProcSpec.v ===== *)
(** * What the operations of proc.c do to the process table

    A small program logic for the code of Proc.v: [triple v m Q] says that
    from any kernel state whose process-table view is [v], if [m] returns [a]
    the view is then one that satisfies [Q a].  The views forget locks,
    interrupt flags and the state of other components.  On top of it, the
    effect of every operation of proc.c on every slot. *)

From S2P Require Import Prelude Params CString Spinlock Proc.

Record view : Type := mkView {
  v_procs : list proc;
  v_cur : list (option nat);     (** proc of each CPU *)
  v_ids : list Z;                (** id of each CPU *)
  v_init : option nat;
  v_nextpid : Z;
  v_ticks : Z
}.

Definition vput_procs (t : list proc) (v : view) : view :=
  mkView t (v_cur v) (v_ids v) (v_init v) (v_nextpid v) (v_ticks v).
Definition vput_cur (l : list (option nat)) (v : view) : view :=
  mkView (v_procs v) l (v_ids v) (v_init v) (v_nextpid v) (v_ticks v).
Definition vput_init (o : option nat) (v : view) : view :=
  mkView (v_procs v) (v_cur v) (v_ids v) o (v_nextpid v) (v_ticks v).
Definition vput_nextpid (n : Z) (v : view) : view :=
  mkView (v_procs v) (v_cur v) (v_ids v) (v_init v) n (v_ticks v).
Definition vput_ticks (n : Z) (v : view) : view :=
  mkView (v_procs v) (v_cur v) (v_ids v) (v_init v) (v_nextpid v) n.

Section Logic.
Context {E : Type} `{!ProcEnv E}.

Definition view_of (s : kst E) : view :=
  mkView (k_procs s) (c_proc <$> k_cpus s) (c_id <$> k_cpus s) (k_initproc s) (k_nextpid s)
         (k_ticks s).

Definition triple {A} (v : view) (m : kernel (kst E) A) (Q : A -> view -> Prop) : Prop :=
  forall s, view_of s = v ->
  match m s with Done s' a => Q a (view_of s') | _ => True end.

Lemma triple_done {A} v (m : kernel (kst E) A) Q s s' a :
  triple v m Q -> view_of s = v -> m s = Done s' a -> Q a (view_of s').
Proof. intros H Hv Hm. specialize (H s Hv). by rewrite Hm in H. Qed.

Lemma triple_bind {A B} v (m : kernel (kst E) A) (k : A -> kernel (kst E) B) Q :
  triple v m (fun a v' => triple v' (k a) Q) -> triple v (x ← m; k x) Q.
Proof.
  intros H s Hs. specialize (H s Hs). unfold mbind, kernel_bind.
  destruct (m s); try done. by apply H.
Qed.

Lemma triple_mono {A} v (m : kernel (kst E) A) (Q Q' : A -> view -> Prop) :
  triple v m Q -> (forall a v', Q a v' -> Q' a v') -> triple v m Q'.
Proof. intros H HQ s Hs. specialize (H s Hs). destruct (m s); auto. Qed.

Lemma triple_ret {A} v (a : A) (Q : A -> view -> Prop) : Q a v -> triple v (mret a) Q.
Proof. intros H s <-. done. Qed.

Lemma triple_panic {A} v msg (Q : A -> view -> Prop) : triple v (kpanic msg) Q.
Proof. intros s _. done. Qed.

Lemma triple_get v (Q : kst E -> view -> Prop) :
  (forall s, view_of s = v -> Q s v) -> triple v kget Q.
Proof. intros H s Hs. simpl. rewrite Hs. by apply H. Qed.

Lemma triple_gets {A} v (f : kst E -> A) (Q : A -> view -> Prop) :
  (forall s, view_of s = v -> Q (f s) v) -> triple v (kgets f) Q.
Proof. intros H s Hs. simpl. rewrite Hs. by apply H. Qed.

Lemma triple_modify v (f : kst E -> kst E) (g : view -> view) (Q : unit -> view -> Prop) :
  (forall s, view_of (f s) = g (view_of s)) -> Q tt (g v) -> triple v (kmodify f) Q.
Proof. intros Hf H s Hs. simpl. by rewrite Hf, Hs. Qed.

Lemma triple_env {A} v (m : kernel E A) (Q : A -> view -> Prop) :
  (forall a, Q a v) -> triple v (lift_env m) Q.
Proof.
  intros H s Hs. unfold lift_env, klift. destruct (m (k_env s)); try done.
  change (Q a (view_of s)). by rewrite Hs.
Qed.

Lemma triple_getp v i (Q : proc -> view -> Prop) : Q (v_procs v !!! i) v -> triple v (getp i) Q.
Proof. intros H. apply triple_gets. intros s <-. done. Qed.

Lemma triple_modp v i f (Q : unit -> view -> Prop) :
  Q tt (vput_procs (alter f i (v_procs v)) v) -> triple v (modp i f) Q.
Proof.
  apply (triple_modify v _ (fun v => vput_procs (alter f i (v_procs v)) v)). done.
Qed.

Lemma cur_lookup (s : kst E) c : c_proc (k_cpus s !!! c) = v_cur (view_of s) !!! c.
Proof.
  simpl. rewrite !list_lookup_total_alt, list_lookup_fmap. by destruct (k_cpus s !! c).
Qed.

Lemma ids_lookup (s : kst E) c : c_id (k_cpus s !!! c) = v_ids (view_of s) !!! c.
Proof.
  simpl. rewrite !list_lookup_total_alt, list_lookup_fmap. by destruct (k_cpus s !! c).
Qed.

Lemma triple_getc v c (Q : cpu -> view -> Prop) :
  (forall x, c_proc x = v_cur v !!! c -> c_id x = v_ids v !!! c -> Q x v) -> triple v (getc c) Q.
Proof. intros H. apply triple_gets. intros s <-. apply H; [apply cur_lookup|apply ids_lookup]. Qed.

Lemma alter_cpus_view c f (l : list cpu) :
  (forall x, c_proc (f x) = c_proc x) -> (forall x, c_id (f x) = c_id x) ->
  c_proc <$> alter f c l = c_proc <$> l /\ c_id <$> alter f c l = c_id <$> l.
Proof.
  intros Hp Hi. split; apply list_eq; intros j; rewrite !list_lookup_fmap;
    (destruct (decide (j = c)) as [->|Hne];
     [rewrite list_lookup_alter_eq|rewrite list_lookup_alter_ne by done]);
    destruct (l !! _); simpl; try done; by rewrite ?Hp, ?Hi.
Qed.

Lemma triple_modc v c f (Q : unit -> view -> Prop) :
  (forall x, c_proc (f x) = c_proc x) -> (forall x, c_id (f x) = c_id x) ->
  Q tt v -> triple v (modc c f) Q.
Proof.
  intros Hp Hi H. apply (triple_modify v _ (fun v => v)); [|done].
  intros s. unfold view_of; simpl. by destruct (alter_cpus_view c f (k_cpus s) Hp Hi) as [-> ->].
Qed.

Lemma triple_set_proc v c o (Q : unit -> view -> Prop) :
  Q tt (vput_cur (alter (fun _ => o) c (v_cur v)) v) -> triple v (modc c (set_proc o)) Q.
Proof.
  apply (triple_modify v _ (fun v => vput_cur (alter (fun _ => o) c (v_cur v)) v)).
  intros s. unfold view_of, vput_cur; simpl. f_equal.
  - apply list_eq. intros j. rewrite !list_lookup_fmap.
    destruct (decide (j = c)) as [->|Hne].
    + rewrite !list_lookup_alter_eq, list_lookup_fmap. by destruct (k_cpus s !! c).
    + rewrite !list_lookup_alter_ne, list_lookup_fmap by done. done.
  - apply list_eq. intros j. rewrite !list_lookup_fmap.
    destruct (decide (j = c)) as [->|Hne].
    + rewrite list_lookup_alter_eq. by destruct (k_cpus s !! c).
    + by rewrite list_lookup_alter_ne.
Qed.

(** Writing back a CPU whose process and id did not change. *)
Lemma insert_cpu_view c x (l : list cpu) :
  c_proc x = c_proc (l !!! c) -> c_id x = c_id (l !!! c) ->
  c_proc <$> <[c := x]> l = c_proc <$> l /\ c_id <$> <[c := x]> l = c_id <$> l.
Proof.
  intros Hp Hi. rewrite !list_fmap_insert. rewrite list_lookup_total_alt in *.
  split; destruct (l !! c) as [y|] eqn:Ey.
  - apply list_insert_id. rewrite list_lookup_fmap, Ey. simpl in *. by rewrite Hp.
  - apply list_insert_ge. rewrite length_fmap. by apply lookup_ge_None.
  - apply list_insert_id. rewrite list_lookup_fmap, Ey. simpl in *. by rewrite Hi.
  - apply list_insert_ge. rewrite length_fmap. by apply lookup_ge_None.
Qed.

Lemma pushcli_same x x' : pushcli x = Done x' tt -> c_proc x' = c_proc x /\ c_id x' = c_id x.
Proof. unfold pushcli. intros [= <-]. by destruct (c_ncli x =? 0). Qed.

Lemma popcli_same x x' : popcli x = Done x' tt -> c_proc x' = c_proc x /\ c_id x' = c_id x.
Proof.
  unfold popcli. destruct (has _ _); [done|]. simpl. destruct (_ <? 0); [done|].
  intros [= <-]. by destruct (_ && _).
Qed.

Lemma triple_acquire v l c (Q : unit -> view -> Prop) : Q tt v -> triple v (acquire_l l c) Q.
Proof.
  intros H s <-. unfold acquire_l, on_lock, klift, acquire.
  destruct (pushcli (k_cpus s !!! c)) as [x' []| | |] eqn:Ep; try done.
  destruct (holding _ _); [done|]. destruct (lk_locked _ =? 0); [|done]. simpl.
  destruct (pushcli_same _ _ Ep) as [Hp Hi].
  unfold view_of; simpl. by destruct (insert_cpu_view c x' (k_cpus s) Hp Hi) as [-> ->].
Qed.

Lemma triple_release v l c (Q : unit -> view -> Prop) : Q tt v -> triple v (release_l l c) Q.
Proof.
  intros H s <-. unfold release_l, on_lock, klift, release.
  destruct (holding _ _); [|done]. simpl.
  destruct (popcli (k_cpus s !!! c)) as [x' []| | |] eqn:Ep; try done.
  destruct (popcli_same _ _ Ep) as [Hp Hi].
  unfold view_of; simpl. by destruct (insert_cpu_view c x' (k_cpus s) Hp Hi) as [-> ->].
Qed.

Lemma triple_pushcli v c (Q : unit -> view -> Prop) : Q tt v -> triple v (pushcli_c c) Q.
Proof.
  intros H s <-. unfold pushcli_c, klift.
  destruct (pushcli (k_cpus s !!! c)) as [x' []| | |] eqn:Ep; try done.
  destruct (pushcli_same _ _ Ep) as [Hp Hi].
  unfold view_of; simpl. by destruct (insert_cpu_view c x' (k_cpus s) Hp Hi) as [-> ->].
Qed.

Lemma triple_popcli v c (Q : unit -> view -> Prop) : Q tt v -> triple v (popcli_c c) Q.
Proof.
  intros H s <-. unfold popcli_c, klift.
  destruct (popcli (k_cpus s !!! c)) as [x' []| | |] eqn:Ep; try done.
  destruct (popcli_same _ _ Ep) as [Hp Hi].
  unfold view_of; simpl. by destruct (insert_cpu_view c x' (k_cpus s) Hp Hi) as [-> ->].
Qed.

Lemma triple_myproc v c (Q : nat -> view -> Prop) :
  (forall i, v_cur v !!! c = Some i -> Q i v) -> triple v (myproc c) Q.
Proof.
  intros H. apply triple_bind, triple_getc. intros x Hp _.
  destruct (c_proc x) as [i|] eqn:Ex; [apply triple_ret, H; congruence|apply triple_panic].
Qed.
End Logic.

(** Symbolic execution, one primitive at a time. *)
Ltac tstep :=
  lazymatch goal with
  | |- triple _ (mbind _ _) _ => apply triple_bind
  | |- triple _ (mret _) _ => apply triple_ret
  | |- triple _ (kpanic _) _ => apply triple_panic
  | |- triple _ (acquire_l _ _) _ => apply triple_acquire
  | |- triple _ (release_l _ _) _ => apply triple_release
  | |- triple _ (pushcli_c _) _ => apply triple_pushcli
  | |- triple _ (popcli_c _) _ => apply triple_popcli
  | |- triple _ (lift_env _) _ => apply triple_env; intros ?
  | |- triple _ (getp _) _ => apply triple_getp
  | |- triple _ (modp _ _) _ => apply triple_modp
  | |- triple _ (modc _ (set_proc _)) _ => apply triple_set_proc
  | |- triple _ (modc _ _) _ => apply triple_modc; [done|done|]
  | |- triple _ (if decide ?P then _ else _) _ =>
      let H := fresh "Hd" in destruct (decide P) as [H|H]
  | |- triple _ (if ?b then _ else _) _ => let H := fresh "Hb" in destruct b eqn:H
  end.
Ltac tsteps := repeat tstep; cbn beta in *.
Ltac vsimp := cbn [v_procs v_cur v_ids v_init v_nextpid v_ticks vput_procs vput_cur vput_init
                   vput_nextpid vput_ticks view_of] in *.

(** Read a field of an updated row, one setter at a time: each step rewrites with
    an equation proved for an arbitrary row, which keeps conversion problems small. *)
Ltac pfold_eq f g k :=
  is_const g;
  let H := fresh "Hp" in
  let rhs := eval cbn [p_sz p_pgdir p_kstack p_state p_pid p_parent p_tf p_context p_chan p_killed
    p_ofile p_cwd p_name p_ctime1 p_etime p_rtime p_iotime set_sz set_pgdir
    set_kstack set_state set_pid set_parent set_tf set_context set_chan
    set_killed set_ofile set_cwd set_name set_ctime1 set_etime set_rtime
    set_iotime] in (fun v x => f (g v x)) in
  assert (forall v x, f (g v x) = rhs v x) as H by (intros; reflexivity);
  cbn beta in H; k H; clear H.
Ltac pfold f g := pfold_eq f g ltac:(fun H => rewrite !H).
Ltac pfold_in f g H' := pfold_eq f g ltac:(fun H => rewrite !H in H').
Ltac psimp :=
  repeat match goal with
  | |- context [?f (?g ?v ?x)] =>
      lazymatch type of f with proc -> _ => is_const f; pfold f g end
  end.
Ltac psimp_in H :=
  repeat match type of H with
  | context [?f (?g ?v ?x)] =>
      lazymatch type of f with proc -> _ => is_const f; pfold_in f g H end
  end.

(** ** Rows that wakeup() may have touched *)
Definition woken (p p' : proc) : Prop :=
  p' = p \/ (p_state p = SLEEPING /\ p' = set_state RUNNABLE p).
Definition table_woken (t t' : list proc) : Prop := Forall2 woken t t'.

#[export] Instance woken_refl : Reflexive woken.
Proof. by left. Qed.
#[export] Instance woken_trans : Transitive woken.
Proof. intros p q r [->|[Hs ->]] [->|[Hs' ->]]; [by left|by right|by right|done]. Qed.
#[export] Instance table_woken_refl : Reflexive table_woken.
Proof. intros t. unfold table_woken. reflexivity. Qed.
#[export] Instance table_woken_trans : Transitive table_woken.
Proof. intros t1 t2 t3. unfold table_woken. apply transitivity. Qed.

Lemma wake_woken ch p : woken p (wake ch p).
Proof.
  unfold wake, is_state. case_bool; [right|by left]. by breflect.
Qed.

Lemma wake_table ch t : table_woken t (wake ch <$> t).
Proof.
  apply Forall2_fmap_r, Forall_Forall2_diag, Forall_forall. intros. apply wake_woken.
Qed.

Lemma table_woken_lookup t t' j : table_woken t t' ->
  match t !! j, t' !! j with
  | Some p, Some p' => woken p p'
  | None, None => True
  | _, _ => False
  end.
Proof.
  intros H. destruct (t !! j) as [p|] eqn:Ep.
  - destruct (Forall2_lookup_l _ _ _ _ _ H Ep) as (p' & -> & Hw). done.
  - destruct (t' !! j) as [p'|] eqn:Ep'; [|done].
    destruct (Forall2_lookup_r _ _ _ _ _ H Ep') as (p & Hp & _). congruence.
Qed.

Section Specs.
Context {E : Type} `{!ProcEnv E}.

Lemma triple_wakeup1 v ch (Q : unit -> view -> Prop) :
  Q tt (vput_procs (wake ch <$> v_procs v) v) -> triple (E := E) v (wakeup1 ch) Q.
Proof. by apply (triple_modify v _ (fun v => vput_procs (wake ch <$> v_procs v) v)). Qed.

Lemma triple_wakeup v c ch (Q : unit -> view -> Prop) :
  Q tt (vput_procs (wake ch <$> v_procs v) v) -> triple (E := E) v (wakeup c ch) Q.
Proof. intros H. unfold wakeup. tsteps. apply triple_wakeup1. by tsteps. Qed.

Lemma triple_wakeups v c chs (Q : unit -> view -> Prop) :
  (forall t, table_woken (v_procs v) t -> Q tt (vput_procs t v)) ->
  triple (E := E) v (wakeups c chs) Q.
Proof.
  revert v. induction chs as [|ch chs IH]; intros v H; simpl.
  - apply triple_ret. destruct v. by apply H.
  - apply triple_bind, triple_wakeup, IH. intros t Ht. simpl in Ht.
    apply H. etrans; [apply wake_table|done].
Qed.

Lemma triple_switchkvm v c (Q : unit -> view -> Prop) : Q tt v -> triple (E := E) v (switchkvm c) Q.
Proof. intros H. unfold switchkvm. tsteps. apply triple_get. intros s Hs. by tsteps. Qed.

Lemma triple_switchuvm v c p (Q : unit -> view -> Prop) :
  Q tt v -> triple (E := E) v (switchuvm c p) Q.
Proof.
  intros H. unfold switchuvm. tsteps. apply triple_getc. intros x _ _.
  destruct (c_proc x); by tsteps.
Qed.

(** sched(): the current process keeps its new state and saves its context,
    the CPU has no process. *)
Definition sched_view (c i : nat) (ctx : context) (v : view) : view :=
  vput_cur (alter (fun _ => None) c (v_cur v)) (vput_procs (alter (set_context ctx) i (v_procs v)) v).

Lemma triple_sched v c k (Q : unit -> view -> Prop) :
  (forall i n, v_cur v !!! c = Some i -> p_state (v_procs v !!! i) <> RUNNING ->
     Q tt (sched_view c i (k n) v)) ->
  triple (E := E) v (sched c k) Q.
Proof.
  intros H. unfold sched. tsteps. apply triple_get. intros s Hs. tsteps.
  apply triple_myproc. intros i Hi. tsteps. apply triple_getc. intros x Hx _. tsteps.
  unfold scheduler_resume. tsteps. apply triple_switchkvm. tsteps. vsimp.
  apply H; [done|]. unfold is_state in *. by breflect.
Qed.

Lemma triple_sleep v c ch lk k (Q : unit -> view -> Prop) :
  (forall i n, v_cur v !!! c = Some i ->
     Q tt (sched_view c i (KSleep n lk k)
             (vput_procs (alter (set_state SLEEPING) i (alter (set_chan ch) i (v_procs v))) v))) ->
  triple (E := E) v (sleep c ch lk k) Q.
Proof.
  intros H. unfold sleep. tsteps. apply triple_getc. intros x Hx _.
  destruct (c_proc x) as [i|]; [|apply triple_panic]. tsteps.
  - apply triple_sched. intros i' n Hi' Hst. vsimp. rewrite <- Hx in Hi'. simplify_eq.
    by apply H.
  - apply triple_sched. intros i' n Hi' Hst. vsimp. rewrite <- Hx in Hi'. simplify_eq.
    by apply H.
Qed.

Lemma triple_yield v c cs (Q : unit -> view -> Prop) :
  (forall i n, v_cur v !!! c = Some i ->
     Q tt (sched_view c i (KYield n cs) (vput_procs (alter (set_state RUNNABLE) i (v_procs v)) v))) ->
  triple (E := E) v (yield c cs) Q.
Proof.
  intros H. unfold yield. tsteps. apply triple_myproc. intros i Hi. tsteps.
  apply triple_sched. intros i' n Hi' Hst. vsimp. simplify_eq. by apply H.
Qed.

Lemma drop_lookup_total {A} `{!Inhabited A} (l : list A) n i x :
  drop n l !! i = Some x -> l !!! (n + i)%nat = x /\ (n + i < length l)%nat.
Proof.
  rewrite lookup_drop. intros H. split; [by apply list_lookup_total_correct|by eapply lookup_lt_Some].
Qed.

Lemma triple_scheduler_loop v c (Q : option nat -> view -> Prop) :
  Q None v ->
  (forall i, (i < length (v_procs v))%nat -> p_state (v_procs v !!! i) = RUNNABLE ->
     Q (Some i) (vput_procs (alter (set_state RUNNING) i (v_procs v))
                   (vput_cur (alter (fun _ => Some i) c (v_cur v)) v))) ->
  triple (E := E) v (scheduler_loop c) Q.
Proof.
  intros HN HS. unfold scheduler_loop. tsteps. apply triple_get. intros s Hs. tsteps.
  apply triple_getc. intros x _ _.
  destruct (find_index _ _) as [d|] eqn:F; [|by tsteps].
  apply find_index_Some in F as [(p & Hp & Hst) _].
  apply drop_lookup_total in Hp as [Hp Hlt]. unfold is_state in Hst. breflect. subst v. vsimp.
  tsteps. apply triple_switchuvm. tsteps. vsimp. apply HS; vsimp; [done|congruence].
Qed.

(** allocproc(): no free slot, no kernel stack, or a fresh embryo. *)
Definition embryo (pid ticks kstack : Z) (p : proc) : proc :=
  set_iotime 0 (set_rtime 0 (set_etime 0 (set_ctime1 (s32 ticks) (set_context KForkret
    (set_tf junk_tf (set_kstack kstack (set_pid pid (set_state EMBRYO p)))))))).
Definition failed_embryo (pid : Z) (p : proc) : proc :=
  set_state UNUSED (set_kstack 0 (set_pid pid (set_state EMBRYO p))).

Lemma triple_allocproc v c (Q : option nat -> view -> Prop) :
  ((forall i p, v_procs v !! i = Some p -> p_state p <> UNUSED) -> Q None v) ->
  (forall i, (i < length (v_procs v))%nat -> p_state (v_procs v !!! i) = UNUSED ->
     (forall j, (j < i)%nat -> p_state (v_procs v !!! j) <> UNUSED) ->
     Q None (vput_nextpid (s32 (v_nextpid v + 1))
               (vput_procs (alter (failed_embryo (v_nextpid v)) i (v_procs v)) v)) /\
     forall kstack, kstack <> 0 ->
     Q (Some i) (vput_nextpid (s32 (v_nextpid v + 1))
        (vput_procs (alter (embryo (v_nextpid v) (v_ticks v) kstack) i (v_procs v)) v))) ->
  triple (E := E) v (allocproc c) Q.
Proof.
  intros HN HS. unfold allocproc. tsteps. apply triple_get. intros s Hs.
  destruct (find_index _ _) as [i|] eqn:F.
  - pose proof (find_index_lt _ _ _ F) as Hlt.
    apply find_index_Some in F as [(p & Hp & Hst) Hfirst]. unfold is_state in Hst. breflect.
    subst v. vsimp.
    destruct (HS i) as [Hfail Hok]; [done|by rewrite (list_lookup_total_correct _ _ _ Hp)| |].
    { intros j Hj Hj2. destruct (lookup_lt_is_Some_2 (k_procs s) j ltac:(lia)) as [q Hq].
      specialize (Hfirst j q Hj Hq). unfold is_state in Hfirst. breflect.
      rewrite (list_lookup_total_correct _ _ _ Hq) in Hj2. done. }
    tsteps.
    eapply (triple_modify _ _ (fun v => vput_nextpid (s32 (v_nextpid v + 1)) v)); [done|].
    tsteps.
    + breflect. subst. vsimp. rewrite !list_alter_alter_eq. apply Hfail.
    + apply triple_gets. intros s' Hs'. tsteps. breflect.
      vsimp. rewrite !list_alter_alter_eq.
      replace (k_ticks s') with (k_ticks s) by (by inversion Hs').
      by apply Hok.
  - tsteps. apply HN. subst v. vsimp. intros i p Hp Hst.
    rewrite find_index_None in F. specialize (F i p Hp). unfold is_state in F. by breflect.
Qed.

(** ** fork() *)
Fixpoint merge_ofile (fds : list Z) (i : nat) (l : list Z) : list Z :=
  match fds with
  | [] => l
  | f :: fds' => merge_ofile fds' (S i) (if f =? 0 then l else <[i := f]> l)
  end.

Lemma set_ofile_eta p : set_ofile (p_ofile p) p = p.
Proof. by destruct p. Qed.

Lemma triple_dup_files v np fds i (Q : unit -> view -> Prop) :
  Q tt (vput_procs (alter (fun p => set_ofile (merge_ofile fds i (p_ofile p)) p) np (v_procs v)) v) ->
  triple (E := E) v (dup_files np fds i) Q.
Proof.
  revert v i. induction fds as [|f fds IH]; intros v i H; cbn [dup_files merge_ofile] in *.
  - apply triple_ret. rewrite list_alter_id in H by (intros; apply set_ofile_eta). by destruct v.
  - tstep. tsteps.
    + by apply IH.
    + apply IH. vsimp. rewrite list_alter_alter_eq. exact H.
Qed.

(** The child row fork() builds from the embryo [q] and the parent row [p]. *)
Definition forked (me : nat) (p : proc) (pgdir : Z) (q : proc) : proc :=
  set_state RUNNABLE (copy_name (p_name p) (set_cwd (p_cwd p)
    (set_ofile (merge_ofile (p_ofile p) 0 (p_ofile q))
      (set_tf (set_tf_eax 0 (p_tf p)) (set_parent (Some me) (set_sz (p_sz p) (set_pgdir pgdir q))))))).
Definition fork_failed (q : proc) : proc := set_state UNUSED (set_kstack 0 (set_pgdir 0 q)).

Lemma set_tf_set_tf a b p : set_tf a (set_tf b p) = set_tf a p.
Proof. done. Qed.

Lemma copy_name_pid w q : p_pid (copy_name w q) = p_pid q.
Proof. unfold copy_name. by destruct (safestrcpy _ _ _). Qed.

Lemma triple_fork v c (Q : Z -> view -> Prop) :
  ((forall i p, v_procs v !! i = Some p -> p_state p <> UNUSED) -> Q (-1) v) ->
  (forall i me, (i < length (v_procs v))%nat -> p_state (v_procs v !!! i) = UNUSED ->
     (forall j, (j < i)%nat -> p_state (v_procs v !!! j) <> UNUSED) ->
     let w f := vput_nextpid (s32 (v_nextpid v + 1)) (vput_procs (alter f i (v_procs v)) v) in
     Q (-1) (w (failed_embryo (v_nextpid v))) /\
     (v_cur v !!! c = Some me -> me <> i -> forall kstack pgdir, kstack <> 0 ->
      let em := embryo (v_nextpid v) (v_ticks v) kstack in
      (pgdir = 0 -> Q (-1) (w (fork_failed ∘ em))) /\
      (pgdir <> 0 -> Q (v_nextpid v) (w (forked me (v_procs v !!! me) pgdir ∘ em))))) ->
  (forall me, v_cur v !!! c = Some me -> p_state (v_procs v !!! me) <> UNUSED) ->
  triple (E := E) v (fork c) Q.
Proof.
  intros HN HS Hme. unfold fork. tstep. apply triple_allocproc.
  - intros Hfull. cbn beta. apply triple_ret. auto.
  - intros i Hlt Hun Hfirst. split.
    + apply triple_ret. destruct (HS i 0%nat Hlt Hun Hfirst) as [H _]. exact H.
    + intros kstack Hk. tsteps. apply triple_myproc. intros me Hcur.
      vsimp. pose proof (Hme me Hcur) as Hrun.
      assert (me <> i) as Hne by (intros ->; done).
      destruct (HS i me Hlt Hun Hfirst) as [_ H]. specialize (H Hcur Hne kstack).
      tsteps; breflect; subst.
      * vsimp. rewrite !list_alter_alter_eq. by apply (H 0).
      * apply triple_dup_files. vsimp. tsteps. vsimp.
        repeat rewrite list_alter_alter_eq. repeat rewrite list_alter_alter_eq in *.
        rewrite (list_lookup_total_alter_ne _ _ i me) by done.
        rewrite (list_lookup_total_alter_eq _ _ i) by done.
        destruct (H a) as [_ H2]; [done|]. specialize (H2 ltac:(done)).
        unfold compose. rewrite copy_name_pid.
        erewrite list_alter_ext; [exact H2| |reflexivity].
        intros x _. unfold compose, forked. rewrite set_tf_set_tf. psimp. reflexivity.
Qed.

(** ** Tables related slot by slot *)
Definition table_rel (R : nat -> proc -> proc -> Prop) (t t' : list proc) : Prop :=
  length t' = length t /\
  forall j p, t !! j = Some p -> exists p', t' !! j = Some p' /\ R j p p'.

Lemma table_rel_trans (R S T : nat -> proc -> proc -> Prop) t1 t2 t3 :
  table_rel R t1 t2 -> table_rel S t2 t3 ->
  (forall j p q r, R j p q -> S j q r -> T j p r) -> table_rel T t1 t3.
Proof.
  intros [L1 H1] [L2 H2] HT. split; [congruence|]. intros j p Hp.
  destruct (H1 j p Hp) as (q & Hq & Rq). destruct (H2 j q Hq) as (r & Hr & Sr). eauto.
Qed.

Lemma table_rel_comp (R S : nat -> proc -> proc -> Prop) t1 t2 t3 :
  table_rel R t1 t2 -> table_rel S t2 t3 ->
  table_rel (fun j p r => exists q, R j p q /\ S j q r) t1 t3.
Proof. intros H1 H2. eapply table_rel_trans; [exact H1|exact H2|eauto]. Qed.

Lemma table_rel_mono (R S : nat -> proc -> proc -> Prop) t t' :
  table_rel R t t' -> (forall j p q, t !! j = Some p -> R j p q -> S j p q) -> table_rel S t t'.
Proof.
  intros [L H] HS. split; [done|]. intros j p Hp. destruct (H j p Hp) as (q & Hq & Rq). eauto.
Qed.

Lemma table_rel_alter f i t :
  table_rel (fun j p p' => p' = if decide (j = i) then f p else p) t (alter f i t).
Proof.
  split; [by rewrite length_alter|]. intros j p Hp.
  destruct (decide (j = i)) as [->|Hne].
  - rewrite list_lookup_alter_eq, Hp. eauto.
  - rewrite list_lookup_alter_ne, Hp by done. eauto.
Qed.

Lemma table_rel_fmap f t : table_rel (fun _ p p' => p' = f p) t (f <$> t).
Proof.
  split; [by rewrite length_fmap|]. intros j p Hp. rewrite list_lookup_fmap, Hp. simpl. eauto.
Qed.

Lemma table_rel_woken t t' : table_woken t t' -> table_rel (fun _ => woken) t t'.
Proof.
  intros H. split; [symmetry; by eapply Forall2_length|]. intros j p Hp.
  destruct (Forall2_lookup_l _ _ _ _ _ H Hp) as (p' & Hp' & Hw). eauto.
Qed.

(** Not asleep on a channel. *)
Definition awake (ch : chan) (p : proc) : Prop := ~ (p_state p = SLEEPING /\ p_chan p = ch).

Lemma woken_awake ch p p' : woken p p' -> awake ch p -> awake ch p'.
Proof. intros [->|[Hs ->]] Ha; [done|]. intros [H _]. done. Qed.

Lemma wake_awake ch p : awake ch (wake ch p).
Proof.
  unfold awake, wake, is_state. destruct (_ && _) eqn:Hb; breflect; [by intros [? _]|].
  intros [H1 H2]. apply andb_false_iff in Hb as [Hb|Hb]; by breflect.
Qed.

(** ** exit() *)
Definition clear_fds (fds : list nat) (l : list Z) : list Z :=
  foldl (fun l fd => <[fd := 0]> l) l fds.

Lemma woken_set_ofile p p' fds : woken p p' ->
  woken (set_ofile (clear_fds fds (p_ofile p)) p) (set_ofile (clear_fds fds (p_ofile p')) p').
Proof. intros [->|[Hs ->]]; [by left|by right]. Qed.

Lemma triple_close_files v c me fds (Q : unit -> view -> Prop) :
  (forall t, table_rel (fun j p p' => woken (if decide (j = me)
       then set_ofile (clear_fds fds (p_ofile p)) p else p) p') (v_procs v) t ->
     Q tt (vput_procs t v)) ->
  triple (E := E) v (close_files c me fds) Q.
Proof.
  revert v. induction fds as [|fd fds IH]; intros v H; cbn [close_files].
  - apply triple_ret. destruct v as [t cu ids ini np ti]. apply H. split; [done|].
    intros j p Hp. exists p. split; [done|]. destruct (decide _); by left; destruct p.
  - tsteps.
    + apply IH. intros t Ht. apply H. eapply table_rel_mono; [exact Ht|].
      intros j p q Hp. cbn beta. destruct (decide (j = me)) as [->|]; [|done].
      rewrite (list_lookup_total_correct _ _ _ Hp) in Hb. breflect.
      unfold clear_fds. cbn [foldl]. rewrite list_insert_id'; [done|].
      intros Hlt. destruct (lookup_lt_is_Some_2 _ _ Hlt) as [y Hy].
      rewrite (list_lookup_total_correct _ _ _ Hy) in Hb. by subst.
    + apply triple_wakeups. intros t Ht. tsteps. apply IH. intros t' Ht'. vsimp. apply H.
      apply table_rel_woken in Ht.
      eapply table_rel_trans; [eapply table_rel_comp; [exact Ht|apply table_rel_alter]|exact Ht'|].
      intros j p q r. cbn beta. intros (p' & Hp' & ->) Hr.
      destruct (decide (j = me)) as [->|]; [|by etrans].
      etrans; [|exact Hr]. psimp. exact (woken_set_ofile p p' (fd :: fds) Hp').
Qed.

(** Children of [me] go to init; a zombie passed on wakes init. *)
Definition reparent_row (me : nat) (init : option nat) (p : proc) : proc :=
  if decide (p_parent p = Some me) then set_parent init p else p.
Definition zombie_child (me : nat) (p : proc) : Prop :=
  p_state p = ZOMBIE /\ p_parent p = Some me.
Definition zombie_passed (me : nat) (l : list nat) (t : list proc) : Prop :=
  exists k p, k ∈ l /\ t !! k = Some p /\ zombie_child me p.

Lemma woken_reparent me init p p' : woken p p' ->
  woken (reparent_row me init p) (reparent_row me init p').
Proof.
  intros [->|[Hs ->]]; [by left|]. unfold reparent_row. psimp.
  destruct (decide _); right; by psimp.
Qed.

Lemma woken_zombie_child me p p' : woken p p' -> zombie_child me p -> zombie_child me p'.
Proof. intros [->|[Hs ->]] [Hz Hp]; [done|]. by rewrite Hs in Hz. Qed.

Definition reparented (me : nat) (init : option nat) (l : list nat) (t t' : list proc) : Prop :=
  table_rel (fun j p p' =>
    woken (if decide (j ∈ l) then reparent_row me init p else p) p' /\
    (zombie_passed me l t -> awake (chan_of init) p')) t t'.

Lemma reparented_cons_skip me init i l t t' :
  (forall p, t !! i = Some p -> p_parent p <> Some me) ->
  reparented me init l t t' -> reparented me init (i :: l) t t'.
Proof.
  intros Hi Ht. eapply table_rel_mono; [exact Ht|]. intros j p q Hp [Hw Hz]. split.
  - destruct (decide (j ∈ i :: l)) as [Hin|Hin], (decide (j ∈ l)) as [Hin'|Hin'];
      [done| |set_solver|done].
    assert (j = i) as -> by set_solver. unfold reparent_row.
    destruct (decide (p_parent p = Some me)); [by destruct (Hi p)|done].
  - intros (k & pk & Hk & Hpk & Hzk). apply Hz. exists k, pk. split_and!; [|done..].
    apply elem_of_cons in Hk as [->|Hk]; [|done]. destruct Hzk. by destruct (Hi pk).
Qed.

Lemma reparented_cons_move me init i l t t1 t' :
  i ∉ l ->
  table_rel (fun j p p' => woken (if decide (j = i) then set_parent init p else p) p') t t1 ->
  (forall p, t !! i = Some p -> p_parent p = Some me) ->
  ((exists p, t !! i = Some p /\ p_state p = ZOMBIE) ->
     forall j p, t1 !! j = Some p -> awake (chan_of init) p) ->
  reparented me init l t1 t' -> reparented me init (i :: l) t t'.
Proof.
  intros Hni H1 Hpar Hzi H2. destruct H1 as [L1 H1], H2 as [L2 H2]. split; [congruence|].
  intros j p Hp. destruct (H1 j p Hp) as (q & Hq & Rq). destruct (H2 j q Hq) as (r & Hr & Wr & Zr).
  exists r. split; [done|]. split.
  - destruct (decide (j = i)) as [->|Hne].
    + rewrite decide_True by set_solver. rewrite decide_False in Wr by done.
      unfold reparent_row. rewrite decide_True by auto. by etrans.
    + destruct (decide (j ∈ l)) as [Hin|Hin].
      * rewrite decide_True by set_solver. etrans; [by apply woken_reparent|done].
      * rewrite decide_False by set_solver. by etrans.
  - intros (k & pk & Hk & Hpk & Hzk). apply elem_of_cons in Hk as [->|Hk].
    + assert (awake (chan_of init) q) as Ha.
      { apply (Hzi ltac:(exists pk; split; [done|apply Hzk]) j q Hq). }
      destruct (decide (j ∈ l)); [|by eapply woken_awake].
      eapply woken_awake; [exact Wr|]. unfold reparent_row.
      destruct (decide (p_parent q = Some me)); [|done]. unfold awake in *. by psimp.
    + apply Zr. destruct (H1 k pk Hpk) as (qk & Hqk & Rk).
      rewrite decide_False in Rk by (intros ->; done).
      exists k, qk. split_and!; [done|done|]. by eapply woken_zombie_child.
Qed.

Lemma triple_reparent v me l (Q : unit -> view -> Prop) :
  NoDup l ->
  (forall i, i ∈ l -> (i < length (v_procs v))%nat) ->
  (forall t, reparented me (v_init v) l (v_procs v) t -> Q tt (vput_procs t v)) ->
  triple (E := E) v (reparent me l) Q.
Proof.
  intros Hnd. revert v. induction Hnd as [|i l Hni Hnd IH]; intros v Hin H; cbn [reparent].
  - apply triple_ret. destruct v as [t cu ids ini np ti]. apply H. split; [done|].
    intros j p Hp. exists p. split_and!; [done| |].
    + rewrite decide_False by set_solver. by left.
    + intros (k & ? & Hk & _). set_solver.
  - assert (i < length (v_procs v))%nat as Hlt by (apply Hin; set_solver).
    destruct (lookup_lt_is_Some_2 _ _ Hlt) as [pi Hpi].
    pose proof (list_lookup_total_correct _ _ _ Hpi) as Epi.
    tsteps.
    + apply triple_get. intros s Hs. subst v. tsteps; vsimp.
      * apply triple_wakeup1. apply IH; [intros k Hk; vsimp; rewrite ?length_fmap, ?length_alter; apply Hin; by right|].
        vsimp. intros t Ht. apply H. eapply reparented_cons_move; [done| | | |exact Ht].
        -- eapply table_rel_trans; [apply table_rel_alter|apply table_rel_fmap|].
           intros j p q r -> ->. apply wake_woken.
        -- intros p Hp. by simplify_eq.
        -- intros _ j p Hp. rewrite list_lookup_fmap in Hp.
           apply fmap_Some in Hp as (p0 & _ & ->). apply wake_awake.
      * apply IH; [intros k Hk; vsimp; rewrite ?length_fmap, ?length_alter; apply Hin; by right|].
        vsimp. intros t Ht. apply H. eapply reparented_cons_move; [done| | | |exact Ht].
        -- eapply table_rel_mono; [apply table_rel_alter|]. intros j p q _ ->. by left.
        -- intros p Hp. by simplify_eq.
        -- intros (p & Hp & Hz). simplify_eq. unfold is_state in *. breflect. congruence.
    + apply IH; [intros k Hk; apply Hin; by right|]. intros t Ht. apply H.
      apply reparented_cons_skip; [|done]. intros p Hp. congruence.
Qed.

(** The row of the exiting process, and the whole table after exit(). *)
Definition exited (me : nat) (init : option nat) (ticks : Z) (p : proc) : proc :=
  set_context KExit (set_etime (s32 ticks) (set_state ZOMBIE (reparent_row me init
    (set_cwd 0 (set_ofile (clear_fds (seq 0 NOFILE) (p_ofile p)) p))))).
Definition exited_table (me : nat) (parent init : option nat) (ticks : Z) (t t' : list proc) : Prop :=
  table_rel (fun j p p' =>
    if decide (j = me) then p' = exited me init ticks p
    else woken (reparent_row me init p) p' /\ awake (chan_of parent) p' /\
         (zombie_passed me (seq 0 NPROC) t -> awake (chan_of init) p')) t t'.

Lemma woken_up p p' : p_state p <> SLEEPING -> woken p p' -> p' = p.
Proof. intros Hs [->|[H _]]; [done|congruence]. Qed.

Lemma awake_reparent me init ch p : awake ch p -> awake ch (reparent_row me init p).
Proof. unfold reparent_row, awake. intros H. destruct (decide _); by psimp. Qed.

(** The table when exit() has notified the parent and is about to reparent. *)
Definition closing (me : nat) (ch : chan) (t t' : list proc) : Prop :=
  table_rel (fun j p p' => woken (if decide (j = me)
      then set_cwd 0 (set_ofile (clear_fds (seq 0 NOFILE) (p_ofile p)) p) else p) p' /\
    awake ch p') t t'.

Lemma closing_zombie_passed me ch t t' l p0 :
  closing me ch t t' -> t !! me = Some p0 -> p_state p0 = RUNNING ->
  zombie_passed me l t -> zombie_passed me l t'.
Proof.
  intros [_ H] Hme Hr (k & p & Hk & Hp & Hz). destruct (H k p Hp) as (q & Hq & Hw & _).
  exists k, q. split_and!; [done|done|]. rewrite decide_False in Hw.
  - by eapply woken_zombie_child.
  - intros ->. destruct Hz as [Hz _]. simplify_eq. congruence.
Qed.

Lemma exited_table_intro me init ticks t t1 t2 p0 :
  t !! me = Some p0 -> p_state p0 = RUNNING ->
  closing me (chan_of (p_parent p0)) t t1 ->
  reparented me init (seq 0 NPROC) t1 t2 -> length t = NPROC ->
  exited_table me (p_parent p0) init ticks t
    (alter (set_context KExit) me (alter (set_etime (s32 ticks)) me (alter (set_state ZOMBIE) me t2))).
Proof.
  intros Hme Hr H1 H2 Hlen. rewrite !list_alter_alter_eq.
  eapply table_rel_mono; [eapply table_rel_comp; [eapply table_rel_comp; [exact H1|exact H2]|
    apply table_rel_alter]|].
  intros j p r Hp (q & (q1 & [Hw1 Ha1] & [Hw2 Ha2]) & ->).
  rewrite decide_True in Hw2.
  2: { apply elem_of_seq. apply lookup_lt_Some in Hp. rewrite Hlen in Hp. lia. }
  destruct (decide (j = me)) as [->|Hne].
  - simplify_eq. apply woken_up in Hw1; [|psimp; congruence]. subst q1.
    apply woken_up in Hw2.
    2: { unfold reparent_row. destruct (decide _); psimp; congruence. }
    by subst q.
  - split_and!.
    + etrans; [by apply woken_reparent|done].
    + eapply woken_awake; [exact Hw2|]. by apply awake_reparent.
    + intros Hz. apply Ha2. by eapply closing_zombie_passed.
Qed.

Lemma triple_exit v c (Q : unit -> view -> Prop) :
  length (v_procs v) = NPROC ->
  (forall me, v_cur v !!! c = Some me -> exists p, v_procs v !! me = Some p /\ p_state p = RUNNING) ->
  (forall me p t, v_cur v !!! c = Some me -> v_procs v !! me = Some p -> Some me <> v_init v ->
     exited_table me (p_parent p) (v_init v) (v_ticks v) (v_procs v) t ->
     Q tt (vput_cur (alter (fun _ => None) c (v_cur v)) (vput_procs t v))) ->
  triple (E := E) v (exit c) Q.
Proof.
  intros Hlen Hrun H. unfold exit. tsteps. apply triple_myproc. intros me Hcur.
  destruct (Hrun me Hcur) as (p0 & Hp0 & Hst0). tsteps. apply triple_get. intros s Hs.
  tstep; [apply triple_panic|]. tsteps. apply triple_close_files. intros t1 Ht1. tsteps.
  apply triple_wakeups. intros t2 Ht2. vsimp. tsteps. apply triple_wakeup1. vsimp. tsteps.
  assert (closing me (chan_of (p_parent (alter (set_cwd 0) me t2 !!! me))) (v_procs v)
    (wake (chan_of (p_parent (alter (set_cwd 0) me t2 !!! me))) <$> alter (set_cwd 0) me t2)) as Hcl.
  { apply table_rel_woken in Ht2.
    eapply table_rel_mono; [eapply table_rel_comp; [eapply table_rel_comp; [eapply table_rel_comp;
      [exact Ht1|exact Ht2]|apply table_rel_alter]|apply table_rel_fmap]|].
    intros j p q Hp (q1 & (q2 & (q3 & Hq3 & Hq2) & ->) & ->). split; [|apply wake_awake].
    etrans; [|apply wake_woken]. destruct (decide (j = me)) as [->|Hne]; [|by etrans].
    simplify_eq. apply woken_up in Hq3; [|psimp; congruence]. subst q3.
    apply woken_up in Hq2; [|psimp; congruence]. by subst q2. }
  assert (p_parent (alter (set_cwd 0) me t2 !!! me) = p_parent p0) as Hpar.
  { destruct Hcl as [_ Hcl]. destruct (Hcl me p0 Hp0) as (q & Hq & Hw & _).
    rewrite decide_True in Hw by done. apply woken_up in Hw; [|psimp; congruence].
    rewrite list_lookup_fmap in Hq. apply fmap_Some in Hq as (q' & Hq' & Heq).
    rewrite (list_lookup_total_correct _ _ _ Hq').
    transitivity (p_parent (wake (chan_of (p_parent q')) q')).
    - unfold wake. by destruct (_ && _).
    - rewrite (list_lookup_total_correct _ _ _ Hq') in Heq. rewrite <- Heq, Hw. by psimp. }
  rewrite Hpar in *.
  apply triple_reparent; [apply NoDup_seq| |].
  { intros i Hi. apply elem_of_seq in Hi. vsimp. destruct Hcl as [-> _]. lia. }
  vsimp. intros t3 Ht3. tsteps. apply triple_gets. intros s' Hs'. tsteps.
  apply triple_sched. intros me' n Hcur' _. vsimp.
  assert (me' = me) as -> by congruence.
  assert (k_ticks s' = v_ticks v) as -> by (by inversion Hs').
  eapply H; [done|exact Hp0| |].
  - subst v. done.
  - by eapply exited_table_intro.
Qed.

(** ** wait() and waitx() *)
Definition reaped (p : proc) : proc :=
  set_killed 0 (set_name (<[0%nat := 0]> (p_name p)) (set_parent None (set_pid 0
    (set_state UNUSED (set_kstack 0 p))))).

Lemma triple_reap v i (Q : Z -> view -> Prop) :
  Q (p_pid (v_procs v !!! i)) (vput_procs (alter reaped i (v_procs v)) v) ->
  triple (E := E) v (reap i) Q.
Proof. intros H. unfold reap. tsteps. vsimp. by rewrite !list_alter_alter_eq. Qed.

(** The slot the scan of wait() and waitx() reaps, and whether it saw a child. *)
Definition is_child (me : nat) (p : proc) : bool := bool_decide (p_parent p = Some me).
Definition first_zombie (me : nat) (t : list proc) (l : list nat) : option nat :=
  list_find (fun i => zombie_child me (t !!! i)) l ≫= fun '(_, i) => Some i.
Definition has_child (me : nat) (t : list proc) (l : list nat) : bool :=
  existsb (fun i => is_child me (t !!! i)) l.

#[export] Instance zombie_child_dec me p : Decision (zombie_child me p).
Proof. unfold zombie_child. apply _. Defined.

Lemma first_zombie_cons me t i l :
  first_zombie me t (i :: l) =
  if decide (zombie_child me (t !!! i)) then Some i else first_zombie me t l.
Proof.
  unfold first_zombie. simpl. destruct (decide _); [done|].
  destruct (list_find _ l) as [[k j]|]; done.
Qed.

Lemma first_zombie_Some me t l i :
  first_zombie me t l = Some i -> i ∈ l /\ zombie_child me (t !!! i).
Proof.
  induction l as [|j l IH]; [done|]. rewrite first_zombie_cons.
  destruct (decide _) as [Hz|]; intros Hf.
  - simplify_eq. split; [by left|done].
  - destruct (IH Hf) as [Hin Hz]. split; [by right|done].
Qed.

Lemma first_zombie_None me t l :
  first_zombie me t l = None -> forall i, i ∈ l -> ~ zombie_child me (t !!! i).
Proof.
  induction l as [|j l IH]; [intros _ i Hi; by apply not_elem_of_nil in Hi|].
  rewrite first_zombie_cons. destruct (decide _) as [Hz|Hz]; intros Hf i Hi; [done|].
  apply elem_of_cons in Hi as [->|Hi]; auto.
Qed.

Definition scan_post (me : nat) (l : list nat) (hk : bool) (v : view)
    (Q : option Z * bool -> view -> Prop) : Prop :=
  match first_zombie me (v_procs v) l with
  | Some i => Q (Some (p_pid (v_procs v !!! i)), true) (vput_procs (alter reaped i (v_procs v)) v)
  | None => Q (None, hk || has_child me (v_procs v) l) v
  end.

Lemma triple_wait_scan v me l hk Q :
  scan_post me l hk v Q -> triple (E := E) v (wait_scan me l hk) Q.
Proof.
  revert hk. induction l as [|i l IH]; intros hk H; unfold scan_post in *; cbn [wait_scan].
  - apply triple_ret. by rewrite orb_false_r in H.
  - rewrite first_zombie_cons in H. unfold zombie_child, is_state, has_child, is_child in *.
    cbn [existsb] in H. tsteps; breflect.
    + apply triple_reap. tsteps. by rewrite decide_True in H.
    + apply IH. rewrite decide_False, bool_decide_eq_true_2 in H by naive_solver.
      by rewrite orb_true_r in H.
    + apply IH. by rewrite decide_False, bool_decide_eq_false_2 in H by naive_solver.
Qed.

Lemma triple_waitx_scan v me wt rt l hk Q :
  scan_post me l hk v Q -> triple (E := E) v (waitx_scan me wt rt l hk) Q.
Proof.
  revert hk. induction l as [|i l IH]; intros hk H; unfold scan_post in *; cbn [waitx_scan].
  - apply triple_ret. by rewrite orb_false_r in H.
  - rewrite first_zombie_cons in H. unfold zombie_child, is_state, has_child, is_child in *.
    cbn [existsb] in H. tsteps; breflect.
    + apply triple_reap. tsteps. by rewrite decide_True in H.
    + apply IH. rewrite decide_False, bool_decide_eq_true_2 in H by naive_solver.
      by rewrite orb_true_r in H.
    + apply IH. by rewrite decide_False, bool_decide_eq_false_2 in H by naive_solver.
Qed.

(** The three outcomes of a turn of wait() or waitx(). *)
Definition slept (c me : nat) (ctx : context) (v : view) : view :=
  sched_view c me ctx
    (vput_procs (alter (set_state SLEEPING) me (alter (set_chan (CProc me)) me (v_procs v))) v).
Definition turn_post (c me : nat) (k : after) (v : view) (Q : option Z -> view -> Prop) : Prop :=
  match first_zombie me (v_procs v) (seq 0 NPROC) with
  | Some i =>
      Q (Some (p_pid (v_procs v !!! i))) (vput_procs (alter reaped i (v_procs v)) v)
  | None =>
      if negb (has_child me (v_procs v) (seq 0 NPROC)) || negb (p_killed (v_procs v !!! me) =? 0)
      then Q (Some (-1)) v
      else forall n, Q None (slept c me (KSleep n LPtable k) v)
  end.

Lemma triple_wait_turn v c Q :
  (forall me, v_cur v !!! c = Some me -> turn_post c me AWait v Q) ->
  triple (E := E) v (wait_turn c) Q.
Proof.
  intros H. unfold wait_turn. tsteps. apply triple_myproc. intros me Hcur. specialize (H me Hcur).
  unfold turn_post in H. tsteps. apply triple_wait_scan. unfold scan_post.
  destruct (first_zombie _ _ _) as [i|]; [by tsteps|]. rewrite orb_false_l. tsteps.
  - done.
  - apply triple_sleep. intros i n Hcur'. simplify_eq. tsteps. apply H.
Qed.

Lemma triple_waitx_turn v c wt rt Q :
  (forall me, v_cur v !!! c = Some me -> turn_post c me (AWaitx wt rt) v Q) ->
  triple (E := E) v (waitx_turn c wt rt) Q.
Proof.
  intros H. unfold waitx_turn. tsteps. apply triple_myproc. intros me Hcur. specialize (H me Hcur).
  unfold turn_post in H. tsteps. apply triple_waitx_scan. unfold scan_post.
  destruct (first_zombie _ _ _) as [i|]; [by tsteps|]. rewrite orb_false_l. tsteps.
  - done.
  - apply triple_sleep. intros i n Hcur'. simplify_eq. tsteps. apply H.
Qed.

(** ** kill() *)
Definition killed_row (p : proc) : proc :=
  let p := set_killed 1 p in if is_state SLEEPING p then set_state RUNNABLE p else p.

Lemma triple_kill v c pid (Q : Z -> view -> Prop) :
  match find_index (fun p => p_pid p =? pid) (v_procs v) with
  | Some i => Q 0 (vput_procs (alter killed_row i (v_procs v)) v)
  | None => Q (-1) v
  end -> triple (E := E) v (kill c pid) Q.
Proof.
  intros H. unfold kill. tsteps. apply triple_get. intros s Hs. subst v. vsimp.
  destruct (find_index _ _) as [i|]; tsteps; [|done]. vsimp. by rewrite list_alter_alter_eq.
Qed.

(** ** trap() *)
Lemma triple_trap_timer v c (Q : unit -> view -> Prop) :
  (v_ids v !!! c <> 0 -> Q tt v) ->
  (v_ids v !!! c = 0 ->
     let t := wake CTicks <$> v_procs v in
     let t' := match v_cur v !!! c with Some i => alter account i t | None => t end in
     Q tt (vput_procs t' (vput_ticks (u32 (v_ticks v + 1)) v))) ->
  triple (E := E) v (trap_timer c) Q.
Proof.
  intros Hn H0. unfold trap_timer. tsteps. apply triple_getc. intros x Hx Hi. tsteps; breflect.
  - eapply (triple_modify _ _ (fun v => vput_ticks (u32 (v_ticks v + 1)) v)); [done|].
    tsteps. apply triple_wakeup. tsteps. vsimp. rewrite Hi, Hx in *.
    destruct (v_cur v !!! c); tsteps; by apply H0.
  - apply Hn. congruence.
Qed.
End Specs.
