(* ===== verification/ProcInv.v ===== *)
(** * The process table as an abstract machine, and its invariants

    [astep] is an abstract machine on process-table views: a process is
    picked, yields, blocks on a channel, is woken, forks, exits, is reaped or
    killed, and the clock ticks.  [inv] collects what holds of every reachable
    table.  [kstep] is one step of the kernel: an operation of proc.c, a trap
    or a turn of the scheduler, run by one CPU.  Every kernel step refines a
    sequence of abstract steps, so the invariants hold of the kernel.

    A kernel step is one operation executed up to its context switch, without
    interleaving with another CPU; sleeping operations are split where they
    switch.  Executions are considered until nextpid reaches the largest int. *)

From S2P Require Import Prelude Params CString Spinlock Proc ProcSpec.

(** The fields of a row that the process itself does not change outside proc.c. *)
Definition shared_fields (p : proc) :=
  (p_state p, p_pid p, p_parent p, p_chan p, p_context p,
   (p_ctime1 p, p_etime p, p_rtime p, p_iotime p)).

Definition tick_table (cur : option nat) (t : list proc) : list proc :=
  let t' := wake CTicks <$> t in
  match cur with Some i => alter account i t' | None => t' end.

(** What a process asleep on its own slot (in wait or waitx) may rely on. *)
Definition may_block (t : list proc) (i : nat) (ch : chan) : Prop :=
  forall j, ch = CProc j ->
    j = i /\ has_child i t (seq 0 NPROC) = true /\ first_zombie i t (seq 0 NPROC) = None.

Inductive astep : view -> view -> Prop :=
| A_wake v t : table_woken (v_procs v) t -> astep v (vput_procs t v)
| A_pick v c i :
    v_cur v !! c = Some None -> (i < length (v_procs v))%nat ->
    p_state (v_procs v !!! i) = RUNNABLE ->
    astep v (vput_procs (alter (set_state RUNNING) i (v_procs v))
               (vput_cur (alter (fun _ => Some i) c (v_cur v)) v))
| A_yield v c i ctx :
    v_cur v !!! c = Some i ->
    astep v (sched_view c i ctx (vput_procs (alter (set_state RUNNABLE) i (v_procs v)) v))
| A_block v c i ch ctx :
    v_cur v !!! c = Some i -> may_block (v_procs v) i ch ->
    astep v (sched_view c i ctx
      (vput_procs (alter (set_state SLEEPING) i (alter (set_chan ch) i (v_procs v))) v))
| A_resume v c i :
    v_cur v !!! c = Some i -> astep v (vput_procs (alter (set_chan CNull) i (v_procs v)) v)
| A_own v c i f :
    v_cur v !!! c = Some i -> (forall p, shared_fields (f p) = shared_fields p) ->
    astep v (vput_procs (alter f i (v_procs v)) v)
| A_fork v c me i kstack pgdir :
    v_cur v !!! c = Some me -> (i < length (v_procs v))%nat ->
    p_state (v_procs v !!! i) = UNUSED -> v_nextpid v + 1 < 2 ^ 31 ->
    astep v (vput_nextpid (v_nextpid v + 1) (vput_procs (alter
      (fun p => forked me (v_procs v !!! me) pgdir (embryo (v_nextpid v) (v_ticks v) kstack p))
      i (v_procs v)) v))
| A_fork_fail v i f :
    (i < length (v_procs v))%nat -> p_state (v_procs v !!! i) = UNUSED ->
    v_nextpid v + 1 < 2 ^ 31 ->
    (forall p, p_state (f p) = UNUSED /\ p_parent (f p) = p_parent p /\
               (p_iotime (f p) = p_iotime p \/ p_iotime (f p) = 0)) ->
    astep v (vput_nextpid (v_nextpid v + 1) (vput_procs (alter f i (v_procs v)) v))
| A_exit v c me p t :
    v_cur v !!! c = Some me -> v_procs v !! me = Some p -> Some me <> v_init v ->
    exited_table me (p_parent p) (v_init v) (v_ticks v) (v_procs v) t ->
    astep v (vput_cur (alter (fun _ => None) c (v_cur v)) (vput_procs t v))
| A_reap v c me i :
    v_cur v !!! c = Some me -> first_zombie me (v_procs v) (seq 0 NPROC) = Some i ->
    astep v (vput_procs (alter reaped i (v_procs v)) v)
| A_kill v i : astep v (vput_procs (alter killed_row i (v_procs v)) v)
| A_tick v c :
    v_ids v !!! c = 0 ->
    astep v (vput_procs (tick_table (v_cur v !!! c) (v_procs v))
               (vput_ticks (u32 (v_ticks v + 1)) v)).

(** ** The invariant *)
Definition live (st : procstate) : Prop := st = SLEEPING \/ st = RUNNABLE \/ st = RUNNING.

(** A CPU runs a RUNNING process, no two CPUs the same one, and every RUNNING
    process is on a CPU. *)
Record cpus_ok (t : list proc) (cur : list (option nat)) : Prop := mkCpusOk {
  cpus_cur c i : cur !! c = Some (Some i) -> exists p, t !! i = Some p /\ p_state p = RUNNING;
  cpus_inj c d i : cur !! c = Some (Some i) -> cur !! d = Some (Some i) -> c = d;
  cpus_run i p : t !! i = Some p -> p_state p = RUNNING -> exists c, cur !! c = Some (Some i)
}.

(** Free slots have no parent, every parent is alive and not its own child,
    init is alive and has no parent. *)
Record tree_ok (t : list proc) (init : option nat) : Prop := mkTreeOk {
  tree_embryo i p : t !! i = Some p -> p_state p <> EMBRYO;
  tree_unused i p : t !! i = Some p -> p_state p = UNUSED -> p_parent p = None;
  tree_parent i p j : t !! i = Some p -> p_parent p = Some j ->
    i <> j /\ exists q, t !! j = Some q /\ live (p_state q);
  tree_init i : init = Some i -> exists p, t !! i = Some p /\ p_parent p = None /\ live (p_state p)
}.

(** A process asleep in wait() or waitx() has a child and no zombie child. *)
Definition wait_ok (t : list proc) : Prop :=
  forall i p j, t !! i = Some p -> p_state p = SLEEPING -> p_chan p = CProc j ->
    j = i /\ (exists k q, t !! k = Some q /\ p_parent q = Some i) /\
    forall k q, t !! k = Some q -> ~ zombie_child i q.

(** Processes have distinct identifiers, all below the next one. *)
Record pids_ok (t : list proc) (next : Z) : Prop := mkPidsOk {
  pids_next : 1 <= next < 2 ^ 31;
  pids_range i p : t !! i = Some p -> p_state p <> UNUSED -> 1 <= p_pid p < next;
  pids_inj i j p q : t !! i = Some p -> t !! j = Some q ->
    p_state p <> UNUSED -> p_state q <> UNUSED -> p_pid p = p_pid q -> i = j
}.

(** The sleep-time counter added for waitx never moves. *)
Definition iotime_ok (t : list proc) : Prop := forall i p, t !! i = Some p -> p_iotime p = 0.

Record inv (v : view) : Prop := mkInv {
  inv_len : length (v_procs v) = NPROC;
  inv_cpus : cpus_ok (v_procs v) (v_cur v);
  inv_tree : tree_ok (v_procs v) (v_init v);
  inv_wait : wait_ok (v_procs v);
  inv_pids : pids_ok (v_procs v) (v_nextpid v);
  inv_iotime : iotime_ok (v_procs v)
}.

(** ** Preservation *)

(** A table changed slot by slot, read backwards. *)
Lemma table_rel_inv R t t' j p' : table_rel R t t' -> t' !! j = Some p' ->
  exists p, t !! j = Some p /\ R j p p'.
Proof.
  intros [L H] Hp'. assert (j < length t)%nat as Hlt.
  { rewrite <- L. by eapply lookup_lt_Some. }
  apply lookup_lt_is_Some in Hlt as [p Hp]. destruct (H j p Hp) as (q & Hq & Rq). simplify_eq. eauto.
Qed.

(** Split a lookup in an altered table. *)
Lemma alter_lookup_cases f i (t : list proc) j p' : alter f i t !! j = Some p' ->
  (j = i /\ exists p, t !! i = Some p /\ p' = f p) \/ (j <> i /\ t !! j = Some p').
Proof.
  destruct (decide (j = i)) as [->|Hne].
  - rewrite list_lookup_alter_eq. intros H. apply fmap_Some in H as (p & Hp & ->). left. eauto.
  - rewrite list_lookup_alter_ne by done. right. done.
Qed.

(** A change of state between live states that keeps identity and parent. *)
Definition same_life (p p' : proc) : Prop :=
  p_pid p' = p_pid p /\ p_parent p' = p_parent p /\ p_iotime p' = p_iotime p /\
  (p_state p' = p_state p \/ (live (p_state p) /\ live (p_state p'))).

Lemma same_life_live p p' : same_life p p' -> live (p_state p) -> live (p_state p').
Proof. intros (_ & _ & _ & [->|[_ H]]) Hl; done. Qed.

Lemma same_life_state p p' st : same_life p p' -> ~ live st -> (p_state p' = st <-> p_state p = st).
Proof.
  intros (_ & _ & _ & [->|[H1 H2]]) Hl; [done|].
  split; intros <-; contradiction.
Qed.

Lemma not_live st : st = UNUSED \/ st = EMBRYO \/ st = ZOMBIE -> ~ live st.
Proof. unfold live. intros [->|[->| ->]]; naive_solver. Qed.

Lemma tree_same_life t t' init :
  tree_ok t init -> table_rel (fun _ => same_life) t t' -> tree_ok t' init.
Proof.
  intros [He Hu Hp Hi] Hr. pose proof Hr as [_ Hf]. split.
  - intros i p' Hp'. destruct (table_rel_inv _ _ _ _ _ Hr Hp') as (p & Hl & Hs).
    rewrite (same_life_state p p') by (done || apply not_live; auto). eauto.
  - intros i p' Hp'. destruct (table_rel_inv _ _ _ _ _ Hr Hp') as (p & Hl & Hs).
    rewrite (same_life_state p p') by (done || apply not_live; auto).
    destruct Hs as (_ & -> & _). eauto.
  - intros i p' j Hp' Hpar. destruct (table_rel_inv _ _ _ _ _ Hr Hp') as (p & Hl & Hs).
    destruct Hs as (_ & Hs & _). rewrite Hs in Hpar.
    destruct (Hp i p j Hl Hpar) as (Hne & q & Hq & Hql). split; [done|].
    destruct (Hf j q Hq) as (q' & Hq' & Hsq). exists q'. split; [done|]. by eapply same_life_live.
  - intros i Hin. destruct (Hi i Hin) as (p & Hl & Hpar & Hlv).
    destruct (Hf i p Hl) as (p' & Hp' & Hs). exists p'. split_and!; [done| |by eapply same_life_live].
    by destruct Hs as (_ & -> & _).
Qed.

Lemma pids_same_life t t' n : pids_ok t n -> table_rel (fun _ => same_life) t t' -> pids_ok t' n.
Proof.
  intros [Hn Hr Hi] Ht. split; [done| |].
  - intros i p' Hp' Hst. destruct (table_rel_inv _ _ _ _ _ Ht Hp') as (p & Hl & Hs).
    rewrite (same_life_state p p') in Hst by (done || apply not_live; auto).
    destruct Hs as (-> & _). eauto.
  - intros i j p' q' Hp' Hq' Hst Hst' Heq.
    destruct (table_rel_inv _ _ _ _ _ Ht Hp') as (p & Hl & Hs).
    destruct (table_rel_inv _ _ _ _ _ Ht Hq') as (q & Hl' & Hs').
    rewrite (same_life_state p p') in Hst by (done || apply not_live; auto).
    rewrite (same_life_state q q') in Hst' by (done || apply not_live; auto).
    destruct Hs as (E1 & _), Hs' as (E2 & _). rewrite E1, E2 in Heq. eauto.
Qed.

Lemma iotime_same_life t t' : iotime_ok t -> table_rel (fun _ => same_life) t t' -> iotime_ok t'.
Proof.
  intros Hi Ht i p' Hp'. destruct (table_rel_inv _ _ _ _ _ Ht Hp') as (p & Hl & Hs).
  destruct Hs as (_ & _ & -> & _). eauto.
Qed.

(** No process starts to sleep, and none starts or stops running. *)
Definition mild (p p' : proc) : Prop :=
  same_life p p' /\ (p_state p' = RUNNING <-> p_state p = RUNNING) /\
  (p_state p' = SLEEPING -> p_state p = SLEEPING /\ p_chan p' = p_chan p).

Lemma wait_same_life t t' :
  wait_ok t -> table_rel (fun _ p p' => same_life p p' /\
    (p_state p' = SLEEPING -> p_state p = SLEEPING /\ p_chan p' = p_chan p)) t t' -> wait_ok t'.
Proof.
  intros Hw Ht i p' j Hp' Hst Hch.
  destruct (table_rel_inv _ _ _ _ _ Ht Hp') as (p & Hl & Hs & Hc).
  destruct (Hc Hst) as [Hst0 Hch0]. rewrite Hch0 in Hch.
  destruct (Hw i p j Hl Hst0 Hch) as (-> & (k & q & Hq & Hpar) & Hz). split; [done|]. split.
  - destruct Ht as [_ Ht]. destruct (Ht k q Hq) as (q' & Hq' & Hsq & _).
    exists k, q'. split; [done|]. by destruct Hsq as (_ & -> & _).
  - intros k' q' Hq' [Hqz Hqp]. destruct (table_rel_inv _ _ _ _ _ Ht Hq') as (q0 & Hl0 & Hs0 & _).
    apply (Hz k' q0 Hl0). split.
    + by rewrite (same_life_state q0 q') in Hqz by (done || apply not_live; auto).
    + by destruct Hs0 as (_ & <- & _).
Qed.

Lemma cpus_mild t t' cur : cpus_ok t cur -> table_rel (fun _ => mild) t t' -> cpus_ok t' cur.
Proof.
  intros [Hc Hi Hr] Ht. split; [|done|].
  - intros c i Hci. destruct (Hc c i Hci) as (p & Hp & Hst). destruct Ht as [_ Ht].
    destruct (Ht i p Hp) as (p' & Hp' & _ & Hm & _). exists p'. split; [done|]. by apply Hm.
  - intros i p' Hp' Hst. destruct (table_rel_inv _ _ _ _ _ Ht Hp') as (p & Hp & _ & Hm & _).
    apply (Hr i p Hp). by apply Hm.
Qed.

Lemma inv_mild v t n : inv v -> table_rel (fun _ => mild) (v_procs v) t ->
  inv (vput_procs t (vput_ticks n v)).
Proof.
  intros [Hl Hc Ht Hw Hp Hio] Hr.
  assert (table_rel (fun _ => same_life) (v_procs v) t) as Hs.
  { eapply table_rel_mono; [exact Hr|]. by intros j p q _ []. }
  split; vsimp.
  - destruct Hr as [-> _]. done.
  - by eapply cpus_mild.
  - by eapply tree_same_life.
  - eapply wait_same_life; [done|]. eapply table_rel_mono; [exact Hr|]. intros j p q _ (? & _ & ?). done.
  - by eapply pids_same_life.
  - by eapply iotime_same_life.
Qed.

Lemma mild_refl p : mild p p.
Proof. unfold mild, same_life. naive_solver. Qed.

Lemma woken_mild p p' : woken p p' -> mild p p'.
Proof.
  intros [->|[Hs ->]]; [apply mild_refl|]. unfold mild, same_life, live. psimp. rewrite Hs. naive_solver.
Qed.

Lemma shared_mild p p' : shared_fields p' = shared_fields p -> mild p p'.
Proof. unfold shared_fields, mild, same_life. intros [=]. split_and!; try congruence.
  - left. congruence.
  - by split; congruence.
  - intros. split; congruence.
Qed.

Lemma set_chan_mild p : p_state p = RUNNING -> mild p (set_chan CNull p).
Proof. intros H. unfold mild, same_life. psimp. rewrite H. naive_solver. Qed.

Lemma killed_row_mild p : mild p (killed_row p).
Proof.
  unfold killed_row, is_state. destruct (bool_decide _) eqn:Hb; breflect; psimp_in Hb;
    unfold mild, same_life, live; psimp; [rewrite Hb; naive_solver|naive_solver].
Qed.

Lemma set_rtime_mild n p : mild p (set_rtime n p).
Proof. unfold mild, same_life. psimp. naive_solver. Qed.

Lemma cur_running v c i : inv v -> v_cur v !!! c = Some i ->
  v_cur v !! c = Some (Some i) /\ exists p, v_procs v !! i = Some p /\ p_state p = RUNNING.
Proof.
  intros Hv Hc. assert (v_cur v !! c = Some (Some i)) as Hc'.
  { rewrite list_lookup_total_alt in Hc. by destruct (v_cur v !! c) as [o|]; simpl in *; subst. }
  split; [done|]. destruct Hv as [_ [H _ _] _ _ _ _]. by eapply H.
Qed.

Lemma table_rel_alter_mild f i t :
  (forall p, t !! i = Some p -> mild p (f p)) -> table_rel (fun _ => mild) t (alter f i t).
Proof.
  intros H. eapply table_rel_mono; [apply table_rel_alter|]. intros j p q Hp ->.
  destruct (decide (j = i)) as [->|]; [auto|apply mild_refl].
Qed.

Lemma tick_table_mild v c : inv v ->
  table_rel (fun _ => mild) (v_procs v) (tick_table (v_cur v !!! c) (v_procs v)).
Proof.
  intros Hv. assert (table_rel (fun _ => mild) (v_procs v) (wake CTicks <$> v_procs v)) as Hw.
  { eapply table_rel_mono; [apply table_rel_fmap|]. intros j p q _ ->. apply woken_mild, wake_woken. }
  unfold tick_table. destruct (v_cur v !!! c) as [i|] eqn:Hc; [|done].
  destruct (cur_running v c i Hv Hc) as (_ & p & Hp & Hst).
  eapply table_rel_mono; [eapply table_rel_comp; [apply table_rel_fmap|apply table_rel_alter]|].
  intros j q r Hq (q1 & -> & ->). destruct (decide (j = i)) as [->|].
  - simplify_eq. unfold wake, is_state. rewrite bool_decide_eq_false_2 by congruence. simpl.
    unfold account, is_state. rewrite bool_decide_eq_true_2 by congruence. apply set_rtime_mild.
  - apply woken_mild, wake_woken.
Qed.

Lemma inv_mild_same v t : inv v -> table_rel (fun _ => mild) (v_procs v) t -> inv (vput_procs t v).
Proof. intros Hv Ht. exact (inv_mild v t (v_ticks v) Hv Ht). Qed.

(** ** Context switches *)
Lemma alter_cur_cases {A} (x : A) c (l : list A) d y : alter (fun _ => x) c l !! d = Some y ->
  (d = c /\ y = x) \/ (d <> c /\ l !! d = Some y).
Proof.
  destruct (decide (d = c)) as [->|Hne].
  - rewrite list_lookup_alter_eq. destruct (l !! c); simpl; [|done]. intros [= <-]. by left.
  - rewrite list_lookup_alter_ne by done. by right.
Qed.

(** The process of CPU [c] stops running: its row gets [f], its CPU nothing. *)
Lemma cpus_stop t cur c i f :
  cpus_ok t cur -> cur !! c = Some (Some i) -> (forall p, p_state (f p) <> RUNNING) ->
  cpus_ok (alter f i t) (alter (fun _ => None) c cur).
Proof.
  intros [Hc Hi Hr] Hci Hf. split.
  - intros d j Hd. apply alter_cur_cases in Hd as [[_ ?]|[Hne Hd]]; [done|].
    destruct (decide (j = i)) as [->|Hji]; [by destruct Hne; eauto|].
    destruct (Hc d j Hd) as (p & Hp & Hst). exists p. by rewrite list_lookup_alter_ne.
  - intros d e j Hd He. apply alter_cur_cases in Hd as [[_ ?]|[_ Hd]]; [done|].
    apply alter_cur_cases in He as [[_ ?]|[_ He]]; [done|]. eauto.
  - intros j p' Hp' Hst. apply alter_lookup_cases in Hp' as [(-> & p & _ & ->)|[Hne Hp]].
    + by destruct (Hf p).
    + destruct (Hr j p' Hp Hst) as [d Hd]. exists d.
      rewrite list_lookup_alter_ne; [done|]. intros ->. congruence.
Qed.

Lemma cpus_start t cur c i p :
  cpus_ok t cur -> cur !! c = Some None -> t !! i = Some p -> p_state p = RUNNABLE ->
  cpus_ok (alter (set_state RUNNING) i t) (alter (fun _ => Some i) c cur).
Proof.
  intros [Hc Hi Hr] Hci Hp Hst.
  assert (forall d, cur !! d <> Some (Some i)) as Hno.
  { intros d Hd. destruct (Hc d i Hd) as (q & Hq & Hs). congruence. }
  split.
  - intros d j Hd. apply alter_cur_cases in Hd as [[_ Hj]|[Hne Hd]].
    + simplify_eq. rewrite list_lookup_alter_eq, Hp. simpl. eauto.
    + destruct (Hc d j Hd) as (q & Hq & Hs). exists q.
      rewrite list_lookup_alter_ne; [done|]. intros ->. by destruct (Hno d).
  - intros d e j Hd He. apply alter_cur_cases in Hd as [[-> Hd]|[Hdc Hd]];
      apply alter_cur_cases in He as [[-> He]|[Hec He]]; simplify_eq; try done; [| |eauto];
      exfalso; eapply Hno; eauto.
  - intros j q' Hq' Hs. apply alter_lookup_cases in Hq' as [(-> & q & Hq & ->)|[Hne Hq]].
    + exists c. by rewrite list_lookup_alter_eq, Hci.
    + destruct (Hr j q' Hq Hs) as [d Hd]. exists d.
      rewrite list_lookup_alter_ne; [done|]. intros ->. congruence.
Qed.

Lemma same_life_refl p : same_life p p.
Proof. unfold same_life. naive_solver. Qed.

Lemma table_rel_alter_life f i t :
  (forall p, t !! i = Some p -> same_life p (f p)) -> table_rel (fun _ => same_life) t (alter f i t).
Proof.
  intros H. eapply table_rel_mono; [apply table_rel_alter|]. intros j p q Hp ->.
  destruct (decide (j = i)) as [->|]; [auto|apply same_life_refl].
Qed.

(** One row changes between live states: what remains to be shown. *)
Lemma inv_row v v' i f :
  inv v -> v_procs v' = alter f i (v_procs v) -> v_init v' = v_init v ->
  v_nextpid v' = v_nextpid v ->
  (forall p, v_procs v !! i = Some p -> same_life p (f p)) ->
  cpus_ok (v_procs v') (v_cur v') -> wait_ok (v_procs v') -> inv v'.
Proof.
  intros [Hl Hc Ht Hw Hp Hio] E1 E2 E3 Hf Hcpu Hwait. apply table_rel_alter_life in Hf.
  rewrite E1 in *. split; rewrite ?E1, ?E2, ?E3; try done.
  - by rewrite length_alter.
  - by eapply tree_same_life.
  - by eapply pids_same_life.
  - by eapply iotime_same_life.
Qed.

Lemma wait_row t i f :
  wait_ok t -> (forall p, t !! i = Some p -> same_life p (f p)) ->
  (forall p, p_state (f p) <> SLEEPING) -> wait_ok (alter f i t).
Proof.
  intros Hw Hf Hs. eapply wait_same_life; [done|].
  eapply table_rel_mono; [apply table_rel_alter|]. intros j p q Hp ->.
  destruct (decide (j = i)) as [->|]; split; auto using same_life_refl.
  intros H. by destruct (Hs p).
Qed.

Lemma inv_pick v c i :
  inv v -> v_cur v !! c = Some None -> (i < length (v_procs v))%nat ->
  p_state (v_procs v !!! i) = RUNNABLE ->
  inv (vput_procs (alter (set_state RUNNING) i (v_procs v))
         (vput_cur (alter (fun _ => Some i) c (v_cur v)) v)).
Proof.
  intros Hv Hc Hlt Hst. apply lookup_lt_is_Some in Hlt as [p Hp].
  rewrite (list_lookup_total_correct _ _ _ Hp) in Hst.
  assert (forall q, v_procs v !! i = Some q -> same_life q (set_state RUNNING q)) as Hs.
  { intros q Hq. simplify_eq. unfold same_life, live. psimp. naive_solver. }
  eapply inv_row; vsimp; try done.
  - eapply cpus_start; [apply Hv|done..].
  - apply wait_row; [apply Hv|done|done].
Qed.

Lemma inv_yield v c i ctx :
  inv v -> v_cur v !!! c = Some i ->
  inv (sched_view c i ctx (vput_procs (alter (set_state RUNNABLE) i (v_procs v)) v)).
Proof.
  intros Hv Hc. destruct (cur_running v c i Hv Hc) as (Hc' & p & Hp & Hst).
  assert (forall q, v_procs v !! i = Some q ->
    same_life q ((set_context ctx ∘ set_state RUNNABLE) q)) as Hs.
  { intros q Hq. simplify_eq. unfold same_life, live, compose. psimp. naive_solver. }
  unfold sched_view. vsimp. rewrite list_alter_alter_eq.
  eapply inv_row; vsimp; try done.
  - apply cpus_stop; [apply Hv|done|done].
  - apply wait_row; [apply Hv|done|done].
Qed.

Lemma has_child_true me t l : has_child me t l = true ->
  exists i, i ∈ l /\ p_parent (t !!! i) = Some me.
Proof.
  unfold has_child, is_child. intros H. apply existsb_exists in H as (i & Hi & H).
  breflect. exists i. split; [by apply list_elem_of_In|done].
Qed.

Lemma lookup_seq_total (t : list proc) n i : length t = n -> i ∈ seq 0 n -> t !! i = Some (t !!! i).
Proof. intros Hl Hi. apply elem_of_seq in Hi. apply list_lookup_lookup_total_lt. lia. Qed.

Lemma wait_block t i ch f p0 :
  length t = NPROC -> wait_ok t -> may_block t i ch -> t !! i = Some p0 ->
  (forall p, t !! i = Some p -> same_life p (f p)) -> p_chan (f p0) = ch -> wait_ok (alter f i t).
Proof.
  intros Hl Hw Hmb Hp0 Hf Hch j p' k Hp' Hst Hchk.
  assert (table_rel (fun _ => same_life) t (alter f i t)) as Hr by (by apply table_rel_alter_life).
  assert (k = j /\ (exists k q, t !! k = Some q /\ p_parent q = Some j) /\
          forall k q, t !! k = Some q -> ~ zombie_child j q) as (-> & (k' & q & Hq & Hpar) & Hz).
  { apply alter_lookup_cases in Hp' as [(-> & p & Hp & ->)|[Hne Hp]]; [|by eapply Hw].
    simplify_eq. destruct (Hmb k Hchk) as (-> & Hk & Hz). split; [done|]. split.
    - apply has_child_true in Hk as (k' & Hk' & Hpar). exists k', (t !!! k').
      split; [by eapply lookup_seq_total|done].
    - intros k' q Hq. pose proof (lookup_lt_Some _ _ _ Hq) as Hlt.
      rewrite <- (list_lookup_total_correct _ _ _ Hq).
      eapply first_zombie_None; [done|]. apply elem_of_seq. lia. }
  split; [done|]. split.
  - destruct Hr as [_ Hr]. destruct (Hr k' q Hq) as (q' & Hq' & Hsq). exists k', q'.
    split; [done|]. by destruct Hsq as (_ & -> & _).
  - intros k q' Hq' [Hqz Hqp]. destruct (table_rel_inv _ _ _ _ _ Hr Hq') as (q0 & Hl0 & Hs0).
    apply (Hz k q0 Hl0). split.
    + by rewrite (same_life_state q0 q') in Hqz by (done || apply not_live; auto).
    + by destruct Hs0 as (_ & <- & _).
Qed.

Lemma inv_block v c i ch ctx :
  inv v -> v_cur v !!! c = Some i -> may_block (v_procs v) i ch ->
  inv (sched_view c i ctx
    (vput_procs (alter (set_state SLEEPING) i (alter (set_chan ch) i (v_procs v))) v)).
Proof.
  intros Hv Hc Hmb. destruct (cur_running v c i Hv Hc) as (Hc' & p & Hp & Hst).
  set (f := fun q => set_context ctx (set_state SLEEPING (set_chan ch q))).
  assert (forall q, v_procs v !! i = Some q -> same_life q (f q)) as Hs.
  { intros q Hq. simplify_eq. unfold same_life, live, f. psimp. naive_solver. }
  unfold sched_view. vsimp. rewrite !list_alter_alter_eq. fold f.
  eapply (inv_row v _ i f); vsimp; try done.
  - apply cpus_stop; [apply Hv|done|done].
  - eapply wait_block; [apply Hv|apply Hv|done|done|done|done].
Qed.

(** ** Creation, exit and reaping *)

(** The fields of a fresh child the invariant speaks about. *)
Lemma forked_fields me p pgdir pid ticks kstack q :
  let q' := forked me p pgdir (embryo pid ticks kstack q) in
  p_state q' = RUNNABLE /\ p_pid q' = pid /\ p_parent q' = Some me /\ p_iotime q' = 0.
Proof.
  unfold forked, copy_name, embryo. destruct (safestrcpy _ _ _); psimp; done.
Qed.

(** A free slot that does not run on any CPU is overwritten. *)
Lemma cpus_row t cur i f p :
  cpus_ok t cur -> t !! i = Some p -> p_state p <> RUNNING -> p_state (f p) <> RUNNING ->
  cpus_ok (alter f i t) cur.
Proof.
  intros [Hc Hi Hr] Hp Hst Hst'. split; [|done|].
  - intros c j Hcj. destruct (Hc c j Hcj) as (q & Hq & Hs). exists q.
    rewrite list_lookup_alter_ne; [done|]. intros ->. congruence.
  - intros j q' Hq' Hs. apply alter_lookup_cases in Hq' as [(-> & q & Hq & ->)|[_ Hq]]; [|eauto].
    by simplify_eq.
Qed.

(** A row that is not live becomes one whose parent is [o]. *)
Lemma tree_row t init i f p :
  tree_ok t init -> t !! i = Some p -> ~ live (p_state p) -> p_state (f p) <> EMBRYO ->
  (p_state (f p) = UNUSED -> p_parent (f p) = None) ->
  (forall j, p_parent (f p) = Some j -> i <> j /\ exists q, t !! j = Some q /\ live (p_state q)) ->
  tree_ok (alter f i t) init.
Proof.
  intros [He Hu Hpa Hin] Hp Hnl Hem Hun Hpar.
  assert (forall j, (exists q, t !! j = Some q /\ live (p_state q)) ->
    exists q, alter f i t !! j = Some q /\ live (p_state q)) as Hlive.
  { intros j (q & Hq & Hl). exists q. rewrite list_lookup_alter_ne; [done|]. intros ->. congruence. }
  split.
  - intros j q' Hq'. apply alter_lookup_cases in Hq' as [(-> & q & Hq & ->)|[_ Hq]]; [|eauto].
    by simplify_eq.
  - intros j q' Hq'. apply alter_lookup_cases in Hq' as [(-> & q & Hq & ->)|[_ Hq]]; [|eauto].
    by simplify_eq.
  - intros j q' k Hq' Hk. apply alter_lookup_cases in Hq' as [(-> & q & Hq & ->)|[_ Hq]].
    + simplify_eq. destruct (Hpar k Hk) as [? ?]. auto.
    + destruct (Hpa j q' k Hq Hk) as [? ?]. auto.
  - intros j Hj. destruct (Hin j Hj) as (q & Hq & Hpn & Hl). exists q.
    rewrite list_lookup_alter_ne; [done|]. intros ->. congruence.
Qed.

(** A slot whose process has no sleeping parent changes. *)
Lemma wait_other t i f p :
  wait_ok t -> t !! i = Some p -> p_state (f p) <> SLEEPING ->
  (forall j q, t !! j = Some q -> p_state q = SLEEPING -> p_chan q = CProc j ->
     p_parent p <> Some j /\ ~ zombie_child j (f p)) -> wait_ok (alter f i t).
Proof.
  intros Hw Hp Hs Hpar j q' k Hq' Hst Hch.
  apply alter_lookup_cases in Hq' as [(-> & q & Hq & ->)|[Hji Hq]]; [by simplify_eq|].
  destruct (Hw j q' k Hq Hst Hch) as (-> & (m & r & Hr & Hrp) & Hz).
  destruct (Hpar j q' Hq Hst Hch) as [Hpp Hzz].
  split; [done|]. split.
  - exists m, r. split; [|done]. rewrite list_lookup_alter_ne; [done|]. intros ->. congruence.
  - intros n s Hs'. apply alter_lookup_cases in Hs' as [(-> & s0 & Hs0 & ->)|[_ Hs0]]; [|eauto].
    by simplify_eq.
Qed.

Lemma inv_fork v c me i kstack pgdir :
  inv v -> v_cur v !!! c = Some me -> (i < length (v_procs v))%nat ->
  p_state (v_procs v !!! i) = UNUSED -> v_nextpid v + 1 < 2 ^ 31 ->
  inv (vput_nextpid (v_nextpid v + 1) (vput_procs (alter
    (fun p => forked me (v_procs v !!! me) pgdir (embryo (v_nextpid v) (v_ticks v) kstack p))
    i (v_procs v)) v)).
Proof.
  intros Hv Hc Hlt Hst Hn. destruct (cur_running v c me Hv Hc) as (_ & pm & Hpm & Hrun).
  apply lookup_lt_is_Some in Hlt as [p Hp]. rewrite (list_lookup_total_correct _ _ _ Hp) in Hst.
  destruct Hv as [Hl Hcp Ht Hw [Hpn Hpr Hpi] Hio].
  assert (i <> me) as Hne by (intros ->; congruence).
  set (f := fun p => forked me _ pgdir (embryo (v_nextpid v) (v_ticks v) kstack p)).
  destruct (forked_fields me (v_procs v !!! me) pgdir (v_nextpid v) (v_ticks v) kstack p)
    as (Es & Ep & Epa & Eio).
  change (forked _ _ _ _) with (f p) in Es, Ep, Epa, Eio. clearbody f.
  split; vsimp.
  - by rewrite length_alter.
  - eapply cpus_row; [done|done|congruence..].
  - eapply tree_row; [done|done|rewrite Hst; apply not_live; auto|congruence|congruence|].
    intros j. rewrite Epa. intros [= <-]. split; [done|]. exists pm. rewrite Hrun. split; [done|].
    unfold live; auto.
  - eapply wait_other; [done|done|congruence|]. intros j q Hq Hs Hch.
    rewrite (tree_unused _ _ Ht _ _ Hp Hst). unfold zombie_child. rewrite Es. naive_solver.
  - split; [lia| |].
    + intros j q' Hq' Hs. apply alter_lookup_cases in Hq' as [(-> & q & Hq & ->)|[_ Hq]].
      * simplify_eq. lia.
      * specialize (Hpr j q' Hq Hs). lia.
    + intros j k q' r' Hq' Hr' Hs Hs' Heq.
      apply alter_lookup_cases in Hq' as [(-> & q & Hq & ->)|[Hj Hq]];
        apply alter_lookup_cases in Hr' as [(-> & r & Hr & ->)|[Hk Hr]]; simplify_eq; [done| | |eauto].
      * specialize (Hpr _ _ Hr Hs'). lia.
      * specialize (Hpr _ _ Hq Hs). lia.
  - intros j q' Hq'. apply alter_lookup_cases in Hq' as [(-> & q & Hq & ->)|[_ Hq]]; [|eauto].
    by simplify_eq.
Qed.

Lemma pids_drop t n n' i f p :
  pids_ok t n -> n <= n' < 2 ^ 31 -> t !! i = Some p -> p_state (f p) = UNUSED ->
  pids_ok (alter f i t) n'.
Proof.
  intros [Hn Hr Hi] Hn' Hp Hs. split; [lia| |].
  - intros j q' Hq' Hs'. apply alter_lookup_cases in Hq' as [(-> & q & Hq & ->)|[_ Hq]].
    + by simplify_eq.
    + specialize (Hr j q' Hq Hs'). lia.
  - intros j k q' r' Hq' Hr' Hs1 Hs2 Heq.
    apply alter_lookup_cases in Hq' as [(-> & q & Hq & ->)|[Hj Hq]]; [by simplify_eq|].
    apply alter_lookup_cases in Hr' as [(-> & r & Hr'' & ->)|[Hk Hr'']]; [by simplify_eq|]. eauto.
Qed.

Lemma iotime_row t i f : iotime_ok t -> (forall p, p_iotime (f p) = p_iotime p \/ p_iotime (f p) = 0) ->
  iotime_ok (alter f i t).
Proof.
  intros Hio Hf j q' Hq'. apply alter_lookup_cases in Hq' as [(-> & q & Hq & ->)|[_ Hq]]; [|eauto].
  destruct (Hf q) as [->| ->]; eauto.
Qed.

(** A slot that is not live becomes free. *)
Lemma inv_free v i f p n :
  inv v -> v_procs v !! i = Some p -> ~ live (p_state p) -> v_nextpid v <= n < 2 ^ 31 ->
  p_state (f p) = UNUSED -> p_parent (f p) = None ->
  (forall q, p_iotime (f q) = p_iotime q \/ p_iotime (f q) = 0) ->
  (forall j q, v_procs v !! j = Some q -> p_state q = SLEEPING -> p_chan q = CProc j ->
     p_parent p <> Some j) ->
  inv (vput_nextpid n (vput_procs (alter f i (v_procs v)) v)).
Proof.
  intros [Hl Hc Ht Hw Hpd Hio] Hp Hnl Hn Es Ep Eio Hpar.
  split; vsimp.
  - by rewrite length_alter.
  - eapply cpus_row; [done|done| |congruence]. intros Hr. apply Hnl. rewrite Hr. unfold live. auto.
  - eapply tree_row; [done|done|done|congruence|done|congruence].
  - eapply wait_other; [done|done|congruence|]. intros j q Hq Hs Hch.
    split; [eauto|]. intros [Hz _]. congruence.
  - by eapply pids_drop.
  - by apply iotime_row.
Qed.

Lemma inv_fork_fail v i f :
  inv v -> (i < length (v_procs v))%nat -> p_state (v_procs v !!! i) = UNUSED ->
  v_nextpid v + 1 < 2 ^ 31 ->
  (forall p, p_state (f p) = UNUSED /\ p_parent (f p) = p_parent p /\
             (p_iotime (f p) = p_iotime p \/ p_iotime (f p) = 0)) ->
  inv (vput_nextpid (v_nextpid v + 1) (vput_procs (alter f i (v_procs v)) v)).
Proof.
  intros Hv Hlt Hst Hn Hf. apply lookup_lt_is_Some in Hlt as [p Hp].
  rewrite (list_lookup_total_correct _ _ _ Hp) in Hst.
  pose proof (tree_unused _ _ (inv_tree _ Hv) _ _ Hp Hst) as Hnone.
  eapply inv_free; try done.
  - rewrite Hst. apply not_live; auto.
  - lia.
  - apply Hf.
  - destruct (Hf p) as (_ & -> & _). done.
  - intros q. apply Hf.
  - rewrite Hnone. done.
Qed.

Lemma reaped_fields p : p_state (reaped p) = UNUSED /\ p_parent (reaped p) = None /\
  p_iotime (reaped p) = p_iotime p.
Proof. unfold reaped. by psimp. Qed.

Lemma inv_reap v c me i :
  inv v -> v_cur v !!! c = Some me -> first_zombie me (v_procs v) (seq 0 NPROC) = Some i ->
  inv (vput_procs (alter reaped i (v_procs v)) v).
Proof.
  intros Hv Hc Hz. destruct (cur_running v c me Hv Hc) as (_ & pm & Hpm & Hrun).
  apply first_zombie_Some in Hz as [Hin [Hz Hpar]].
  pose proof (lookup_seq_total _ _ _ (inv_len _ Hv) Hin) as Hp.
  change (inv (vput_nextpid (v_nextpid v) (vput_procs (alter reaped i (v_procs v)) v))).
  eapply inv_free; try done.
  - rewrite Hz. apply not_live; auto.
  - pose proof (pids_next _ _ (inv_pids _ Hv)). lia.
  - intros q. left. apply reaped_fields.
  - intros j q Hq Hs Hch Hpj. assert (j = me) as -> by congruence. congruence.
Qed.

(** exit(): the relation between the old and the new table, row by row. *)
Lemma exited_fields me init ticks p : p_parent p <> Some me ->
  let p' := exited me init ticks p in
  p_state p' = ZOMBIE /\ p_pid p' = p_pid p /\ p_parent p' = p_parent p /\ p_iotime p' = p_iotime p.
Proof.
  intros H. unfold exited, reparent_row. psimp. rewrite decide_False by done. by psimp.
Qed.

Lemma reparent_fields me init p :
  let p' := reparent_row me init p in
  p_state p' = p_state p /\ p_pid p' = p_pid p /\ p_iotime p' = p_iotime p /\ p_chan p' = p_chan p /\
  p_parent p' = if decide (p_parent p = Some me) then init else p_parent p.
Proof. unfold reparent_row. destruct (decide _); by psimp. Qed.

(** What exit() of [me] does to the fields of another slot. *)
Definition orphaned (me : nat) (init : option nat) (p p' : proc) : Prop :=
  p_pid p' = p_pid p /\ p_iotime p' = p_iotime p /\
  p_parent p' = (if decide (p_parent p = Some me) then init else p_parent p) /\
  (p_state p' = p_state p \/ (p_state p = SLEEPING /\ p_state p' = RUNNABLE)) /\
  (p_state p' = SLEEPING -> p_chan p' = p_chan p).

Lemma woken_orphaned me init p p' : woken (reparent_row me init p) p' -> orphaned me init p p'.
Proof.
  destruct (reparent_fields me init p) as (E1 & E2 & E3 & E4 & E5).
  unfold orphaned. rewrite <- E1, <- E2, <- E3, <- E4, <- E5.
  intros [->|[Hs ->]]; psimp; naive_solver.
Qed.

Lemma orphaned_state me init p p' st : orphaned me init p p' -> st = RUNNING \/ ~ live st ->
  p_state p' = st <-> p_state p = st.
Proof.
  intros (_ & _ & _ & [->|[H1 H2]] & _) Hst; [done|]. rewrite H1, H2. unfold live in *.
  split; intros <-; naive_solver.
Qed.

Section Exit.
Context (v : view) (c me : nat) (pm : proc) (t : list proc).
Hypothesis (Hv : inv v) (Hc : v_cur v !! c = Some (Some me)).
Hypothesis (Hpm : v_procs v !! me = Some pm) (Hinit : Some me <> v_init v).
Hypothesis (Ht : exited_table me (p_parent pm) (v_init v) (v_ticks v) (v_procs v) t).

Lemma exit_me_running : p_state pm = RUNNING.
Proof using Hv Hc Hpm.
  destruct (cpus_cur _ _ (inv_cpus _ Hv) _ _ Hc) as (p & Hp & Hr). congruence.
Qed.

Lemma exit_me_parent : p_parent pm <> Some me.
Proof using Hv Hpm.
  intros H. by destruct (tree_parent _ _ (inv_tree _ Hv) _ _ _ Hpm H) as [[] _].
Qed.

Lemma exit_back j p' : t !! j = Some p' ->
  (j = me /\ p_state p' = ZOMBIE /\ p_pid p' = p_pid pm /\ p_parent p' = p_parent pm /\
   p_iotime p' = p_iotime pm) \/
  (j <> me /\ exists p, v_procs v !! j = Some p /\ orphaned me (v_init v) p p' /\
   awake (chan_of (p_parent pm)) p' /\
   (zombie_passed me (seq 0 NPROC) (v_procs v) -> awake (chan_of (v_init v)) p')).
Proof using Hv Hc Hpm Ht.
  intros Hp'. destruct (table_rel_inv _ _ _ _ _ Ht Hp') as (p & Hp & HR).
  destruct (decide (j = me)) as [->|Hne].
  - left. simplify_eq. split; [done|]. apply exited_fields, exit_me_parent.
  - right. split; [done|]. exists p. destruct HR as (? & ? & ?). split_and!; try done.
    by apply woken_orphaned.
Qed.

Lemma exit_forth j p : v_procs v !! j = Some p -> j <> me ->
  exists p', t !! j = Some p' /\ orphaned me (v_init v) p p'.
Proof using Ht.
  intros Hp Hne. destruct Ht as [_ H]. destruct (H j p Hp) as (p' & Hp' & HR).
  rewrite decide_False in HR by done. exists p'. split; [done|]. apply woken_orphaned, HR.
Qed.

Lemma exit_live j : j <> me -> (exists q, v_procs v !! j = Some q /\ live (p_state q)) ->
  exists q, t !! j = Some q /\ live (p_state q).
Proof using Ht.
  intros Hne (q & Hq & Hl). destruct (exit_forth j q Hq Hne) as (q' & Hq' & Ho).
  exists q'. split; [done|]. destruct Ho as (_ & _ & _ & [->|[_ ->]] & _); [done|].
  unfold live; auto.
Qed.

Lemma exit_cpus : cpus_ok t (alter (fun _ => None) c (v_cur v)).
Proof using Hv Hc Hpm Ht.
  destruct (inv_cpus _ Hv) as [Hcur Hinj Hrun]. split.
  - intros d j Hd. apply alter_cur_cases in Hd as [[_ ?]|[Hdc Hd]]; [done|].
    destruct (Hcur d j Hd) as (p & Hp & Hr).
    destruct (exit_forth j p Hp) as (p' & Hp' & Ho); [intros ->; by destruct Hdc; eauto|].
    exists p'. split; [done|]. by apply (orphaned_state _ _ _ _ _ Ho); auto.
  - intros d e j Hd He. apply alter_cur_cases in Hd as [[_ ?]|[_ Hd]]; [done|].
    apply alter_cur_cases in He as [[_ ?]|[_ He]]; [done|]. eauto.
  - intros j p' Hp' Hr. destruct (exit_back j p' Hp') as [(_ & Hz & _)|(Hne & p & Hp & Ho & _)];
      [congruence|].
    rewrite (orphaned_state _ _ _ _ _ Ho) in Hr by auto.
    destruct (Hrun j p Hp Hr) as [d Hd]. exists d. rewrite list_lookup_alter_ne; [done|congruence].
Qed.

Lemma exit_tree : tree_ok t (v_init v).
Proof using Hv Hc Hpm Hinit Ht.
  destruct (inv_tree _ Hv) as [He Hu Hpa Hin]. split.
  - intros j p' Hp'. destruct (exit_back j p' Hp') as [(_ & Hz & _)|(_ & p & Hp & Ho & _)];
      [congruence|].
    rewrite (orphaned_state _ _ _ _ _ Ho) by (right; apply not_live; auto). eauto.
  - intros j p' Hp' Hs. destruct (exit_back j p' Hp') as [(_ & Hz & _)|(_ & p & Hp & Ho & _)];
      [congruence|].
    rewrite (orphaned_state _ _ _ _ _ Ho) in Hs by (right; apply not_live; auto).
    destruct Ho as (_ & _ & -> & _). rewrite (Hu j p Hp Hs). done.
  - intros j p' k Hp' Hk.
    destruct (exit_back j p' Hp') as [(-> & _ & _ & Epa & _)|(Hne & p & Hp & Ho & _)].
    + rewrite Epa in Hk. destruct (Hpa me pm k Hpm Hk) as [Hmk Hl]. split; [done|].
      by apply exit_live.
    + destruct Ho as (_ & _ & Epa & _). rewrite Epa in Hk.
      destruct (decide (p_parent p = Some me)) as [Hpme|Hpme].
      * destruct (Hin k Hk) as (q & Hq & Hqn & Hl). split.
        -- intros ->. congruence.
        -- apply exit_live; [congruence|eauto].
      * destruct (Hpa j p k Hp Hk) as [Hjk Hl]. split; [done|]. apply exit_live; [congruence|done].
  - intros i Hi. destruct (Hin i Hi) as (q & Hq & Hqn & Hl).
    destruct (exit_forth i q Hq) as (q' & Hq' & Ho); [congruence|]. exists q'.
    split; [done|]. split.
    + destruct Ho as (_ & _ & -> & _). by rewrite Hqn.
    + destruct (exit_live i) as (q2 & Hq2 & Hl2); [congruence|eauto|]. congruence.
Qed.

Lemma exit_wait : wait_ok t.
Proof using Hv Hc Hpm Ht.
  pose proof exit_me_running as Hrun. pose proof exit_me_parent as Hnp.
  intros j p' k Hp' Hs Hch.
  destruct (exit_back j p' Hp') as [(_ & Hz & _)|(Hne & p & Hp & Ho & Ha1 & Ha2)]; [congruence|].
  pose proof Ho as (_ & _ & _ & Hst & Hchan).
  assert (p_state p = SLEEPING) as Hsp by (destruct Hst as [<-|[? ?]]; congruence).
  rewrite (Hchan Hs) in Hch. destruct (inv_wait _ Hv j p k Hp Hsp Hch) as (-> & (m & q & Hq & Hqp) & Hz).
  split; [done|]. split.
  - destruct (decide (m = me)) as [->|Hm].
    + destruct Ht as [_ H]. destruct (H me q Hq) as (q' & Hq' & HR).
      destruct (exit_back me q' Hq') as [(_ & _ & _ & E & _)|[? _]]; [|done].
      exists me, q'. split; congruence.
    + destruct (exit_forth m q Hq Hm) as (q' & Hq' & (_ & _ & E & _)). exists m, q'.
      split; [done|]. rewrite E, decide_False by congruence. done.
  - intros n s' Hs' [Hsz Hsp'].
    destruct (exit_back n s' Hs') as [(-> & _ & _ & E & _)|(Hn & s & Hs0 & Hos & _)].
    + apply Ha1. split; [done|]. rewrite (Hchan Hs), <- E, Hsp'. done.
    + rewrite (orphaned_state _ _ _ _ _ Hos) in Hsz by (right; apply not_live; auto).
      destruct Hos as (_ & _ & E & _). rewrite Hsp' in E.
      destruct (decide (p_parent s = Some me)) as [Hd|Hd].
      * apply Ha2; [|split; [done|]; rewrite (Hchan Hs), <- E; done].
        exists n, s. split_and!; [|done|done]. apply elem_of_seq.
        pose proof (lookup_lt_Some _ _ _ Hs0). rewrite (inv_len _ Hv) in *. lia.
      * by apply (Hz n s Hs0).
Qed.

Lemma exit_pids : pids_ok t (v_nextpid v).
Proof using Hv Hc Hpm Ht.
  pose proof exit_me_running as Hrun.
  assert (forall j p', t !! j = Some p' -> p_state p' <> UNUSED ->
    exists p, v_procs v !! j = Some p /\ p_state p <> UNUSED /\ p_pid p' = p_pid p) as Hb.
  { intros j p' Hp' Hs.
    destruct (exit_back j p' Hp') as [(-> & _ & E & _)|(_ & p & Hp & Ho & _)].
    - exists pm. split_and!; [done|congruence|done].
    - exists p. rewrite (orphaned_state _ _ _ _ _ Ho) in Hs by (right; apply not_live; auto).
      destruct Ho as (E & _). done. }
  destruct (inv_pids _ Hv) as [Hn Hr Hi]. split; [done| |].
  - intros j p' Hp' Hs. destruct (Hb j p' Hp' Hs) as (p & Hp & Hs' & ->). eauto.
  - intros j k p' q' Hp' Hq' Hs Hs2 E. destruct (Hb j p' Hp' Hs) as (p & Hp & Hps & Ep).
    destruct (Hb k q' Hq' Hs2) as (q & Hq & Hqs & Eq). rewrite Ep, Eq in E. eauto.
Qed.

Lemma inv_exit : inv (vput_cur (alter (fun _ => None) c (v_cur v)) (vput_procs t v)).
Proof using Hv Hc Hpm Hinit Ht.
  split; vsimp.
  - destruct Ht as [-> _]. apply Hv.
  - apply exit_cpus.
  - apply exit_tree.
  - apply exit_wait.
  - apply exit_pids.
  - intros j p' Hp'. destruct (exit_back j p' Hp') as [(_ & _ & _ & _ & ->)|(_ & p & Hp & Ho & _)].
    + by eapply (inv_iotime _ Hv).
    + destruct Ho as (_ & -> & _). by eapply (inv_iotime _ Hv).
Qed.
End Exit.

Lemma astep_inv v v' : inv v -> astep v v' -> inv v'.
Proof.
  intros Hv H. revert Hv. destruct H; intros Hv;
    try match goal with H : v_cur _ !!! _ = Some _ |- _ =>
      destruct (cur_running _ _ _ Hv H) as (Hc' & p0 & Hp0 & Hrun0) end.
  - apply inv_mild_same; [done|]. eapply table_rel_mono; [by apply table_rel_woken|].
    intros j p q _. apply woken_mild.
  - by apply inv_pick.
  - by apply inv_yield.
  - by apply inv_block.
  - apply inv_mild_same; [done|]. apply table_rel_alter_mild. intros p Hp. simplify_eq.
    by apply set_chan_mild.
  - apply inv_mild_same; [done|]. apply table_rel_alter_mild. intros p Hp. by apply shared_mild.
  - by eapply inv_fork.
  - by apply inv_fork_fail.
  - by eapply (inv_exit v c me p t).
  - by eapply inv_reap.
  - apply inv_mild_same; [done|]. apply table_rel_alter_mild. intros p Hp. apply killed_row_mild.
  - apply inv_mild; [done|]. by apply tick_table_mild.
Qed.

Lemma asteps_inv v v' : inv v -> rtc astep v v' -> inv v'.
Proof. intros Hv H. induction H; eauto using astep_inv. Qed.

(** Abstract steps during which the clock does not advance. *)
Definition qstep (v v' : view) : Prop := astep v v' /\ v_ticks v' = v_ticks v.

Lemma qstep_intro v v' : astep v v' -> v_ticks v' = v_ticks v -> rtc qstep v v'.
Proof. intros H1 H2. by apply rtc_once. Qed.

Lemma qsteps_asteps v v' : rtc qstep v v' -> rtc astep v v'.
Proof. apply rtc_subrel. by intros ? ? []. Qed.

Lemma qsteps_inv v v' : inv v -> rtc qstep v v' -> inv v'.
Proof. eauto using asteps_inv, qsteps_asteps. Qed.

Lemma qsteps_ticks v v' : rtc qstep v v' -> v_ticks v' = v_ticks v.
Proof. induction 1 as [|v1 v2 v3 [_ H] _ IH]; congruence. Qed.

(** The clock tick of the CPU with id 0. *)
Definition tick_view (c : nat) (v : view) : view :=
  vput_procs (tick_table (v_cur v !!! c) (v_procs v)) (vput_ticks (u32 (v_ticks v + 1)) v).

Lemma tick_inv c v : inv v -> v_ids v !!! c = 0 -> inv (tick_view c v).
Proof. intros Hv Hid. eapply astep_inv; [done|]. by apply A_tick. Qed.
