(* ===== verification/ProcStep.v ===== *)
(** * Kernel steps refine the abstract process table

    Every operation of proc.c, every trap and every turn of the scheduler
    moves the process table along abstract steps; hence the invariants of
    reachable kernel states. *)

From S2P Require Import Prelude Params CString Spinlock Proc ProcSpec ProcInv.

Section Refinement.
Context {E : Type} `{!ProcEnv E}.

(** [m] moves the table from [v] along abstract steps, and ends with [R]. *)
Definition refines {A} (v : view) (m : kernel (kst E) A) (R : A -> view -> Prop) : Prop :=
  triple v m (fun a v' => rtc qstep v v' /\ R a v').

Lemma refines_bind {A B} v (m : kernel (kst E) A) (k : A -> kernel (kst E) B) R S :
  inv v -> refines v m R ->
  (forall a v', inv v' -> R a v' -> refines v' (k a) S) -> refines v (x ← m; k x) S.
Proof.
  intros Hv Hm Hk. apply triple_bind. eapply triple_mono; [exact Hm|]. cbn beta.
  intros a v' [Hst Hr]. eapply triple_mono; [apply (Hk a v'); [by eapply qsteps_inv|done]|].
  intros b v'' [Hst' Hs]. split; [by etrans|done].
Qed.

Lemma refines_triple {A} v (m : kernel (kst E) A) (R : A -> view -> Prop) :
  triple v m (fun a v' => v' = v /\ R a v) -> refines v m R.
Proof. intros H. eapply triple_mono; [exact H|]. cbn beta. intros a v' [-> Hr]. done. Qed.

Lemma refines_mono {A} v (m : kernel (kst E) A) (R S : A -> view -> Prop) :
  refines v m R -> (forall a v', R a v' -> S a v') -> refines v m S.
Proof. intros H HS. eapply triple_mono; [exact H|]. cbn beta. naive_solver. Qed.

(** No condition on the final view. *)
Definition any {A} : A -> view -> Prop := fun _ _ => True.

Lemma astep_any {A} (a : A) v v' : v_ticks v' = v_ticks v -> astep v v' -> rtc qstep v v' /\ any a v'.
Proof. intros Ht H. split; [by apply qstep_intro|done]. Qed.

Lemma fork_failed_fields pid ticks kstack p :
  let p' := fork_failed (embryo pid ticks kstack p) in
  p_state p' = UNUSED /\ p_parent p' = p_parent p /\ (p_iotime p' = p_iotime p \/ p_iotime p' = 0).
Proof. unfold fork_failed, embryo. psimp. naive_solver. Qed.

Lemma failed_embryo_fields pid p :
  let p' := failed_embryo pid p in
  p_state p' = UNUSED /\ p_parent p' = p_parent p /\ (p_iotime p' = p_iotime p \/ p_iotime p' = 0).
Proof. unfold failed_embryo. psimp. naive_solver. Qed.

Lemma refines_fork v c me :
  inv v -> v_cur v !!! c = Some me -> v_nextpid v + 1 < 2 ^ 31 -> refines v (fork c) any.
Proof.
  intros Hv Hme Hn. pose proof (pids_next _ _ (inv_pids _ Hv)) as Hnp.
  assert (s32 (v_nextpid v + 1) = v_nextpid v + 1) as Hs by (apply s32_small; lia).
  apply triple_fork.
  - intros _. split; [done|done].
  - intros i me' Hlt Hun _. rewrite Hs. split.
    + apply astep_any; [done|]. apply A_fork_fail; [done..|]. intros p. apply failed_embryo_fields.
    + intros Hcur Hne kstack pgdir Hk. split.
      * intros _. apply astep_any; [done|]. apply A_fork_fail; [done..|]. intros p. apply fork_failed_fields.
      * intros _. apply astep_any; [done|by eapply A_fork].
  - intros me' Hcur. destruct (cur_running _ _ _ Hv Hcur) as (_ & p & Hp & Hr).
    rewrite (list_lookup_total_correct _ _ _ Hp). congruence.
Qed.

Lemma refines_exit v c : inv v -> refines v (exit c) any.
Proof.
  intros Hv. apply triple_exit; [apply Hv| |].
  - intros me Hc. by destruct (cur_running _ _ _ Hv Hc) as (_ & ?).
  - intros me p t Hc Hp Hne Ht. apply astep_any; [done|by eapply A_exit].
Qed.

(** A turn of wait() or waitx(). *)
Lemma turn_refines v c me k : inv v -> v_cur v !!! c = Some me ->
  turn_post c me k v (fun r v' => rtc qstep v v' /\ any r v').
Proof.
  intros Hv Hc. unfold turn_post. destruct (first_zombie _ _ _) as [i|] eqn:Hz.
  - apply astep_any; [done|by eapply A_reap].
  - destruct (negb _ || negb _) eqn:Hb; [split; done|]. breflect.
    intros n. apply astep_any; [done|]. apply A_block; [done|]. intros j [= <-]. done.
Qed.

Lemma refines_wait_turn v c : inv v -> refines v (wait_turn c) any.
Proof. intros Hv. apply triple_wait_turn. intros me Hc. by apply turn_refines. Qed.

Lemma refines_waitx_turn v c wt rt : inv v -> refines v (waitx_turn c wt rt) any.
Proof. intros Hv. apply triple_waitx_turn. intros me Hc. by apply turn_refines. Qed.

Lemma refines_wait v c : inv v -> refines v (wait c) any.
Proof. intros Hv. unfold wait, refines. tsteps. by apply refines_wait_turn. Qed.

Lemma refines_waitx v c wt rt : inv v -> refines v (waitx c wt rt) any.
Proof. intros Hv. unfold waitx, refines. tsteps. by apply refines_waitx_turn. Qed.

Lemma refines_kill v c pid : refines v (kill c pid) any.
Proof.
  apply triple_kill. destruct (find_index _ _) as [i|]; [|done]. apply astep_any; [done|apply A_kill].
Qed.

(** Blocking on a channel that no wait() uses. *)
Lemma refines_sleep v c ch lk k : (forall j, ch <> CProc j) -> refines v (sleep c ch lk k) any.
Proof.
  intros Hch. apply triple_sleep. intros i n Hc. apply astep_any; [done|]. apply A_block; [done|].
  intros j Hj. by destruct (Hch j).
Qed.

Lemma refines_wakeup v c ch : refines v (wakeup c ch) any.
Proof. apply triple_wakeup, astep_any; [done|]. apply A_wake, wake_table. Qed.

Lemma refines_wakeups v c chs :
  refines v (wakeups c chs) (fun _ v' => v_cur v' = v_cur v).
Proof.
  apply triple_wakeups. intros t Ht. split; [apply qstep_intro; [by apply A_wake|done]|done].
Qed.

Lemma refines_yield v c cs : refines v (yield c cs) any.
Proof. apply triple_yield. intros i n Hc. apply astep_any; [done|by apply A_yield]. Qed.

Lemma refines_growproc v c n : refines v (growproc c n) any.
Proof.
  unfold growproc, refines. tsteps. apply triple_myproc. intros me Hc. tsteps;
    try (apply triple_switchuvm; tsteps; apply astep_any; [done|by eapply A_own]);
    split; done.
Qed.

Lemma refines_sys_sleep_turn v c n t0 : refines v (sys_sleep_turn c n t0) any.
Proof.
  unfold sys_sleep_turn, refines. tsteps. apply triple_myproc. intros me Hc.
  tsteps. apply triple_get. intros s Hs. tsteps; try (split; done).
  eapply triple_mono; [by apply refines_sleep|]. intros a v' H. by tsteps.
Qed.

Lemma refines_ret {A} v (a : A) (R : A -> view -> Prop) : R a v -> refines v (mret a) R.
Proof. intros H. apply triple_ret. done. Qed.

Lemma refines_trap_killed v c cs :
  inv v -> refines v (trap_killed c cs) (fun gone v' => gone = false -> v' = v).
Proof.
  intros Hv. unfold trap_killed. apply triple_bind, triple_getc. intros x Hx _.
  destruct (c_proc x) as [i|]; [|by apply refines_ret].
  tsteps; [|split; done].
  eapply triple_mono; [by apply refines_exit|]. intros [] v' [H _]. by tsteps.
Qed.

Lemma refines_forkret v c : refines v (forkret c) any.
Proof.
  unfold forkret, refines. tsteps. apply triple_get. intros s Hs. tsteps; [|split; done].
  apply (triple_modify _ _ (fun v => v)); [done|]. tsteps. split; done.
Qed.

Lemma refines_sleep_return v c me lk k :
  inv v -> v_cur v !!! c = Some me -> refines v (sleep_return c me lk k) any.
Proof.
  intros Hv Hc. unfold sleep_return.
  eapply (refines_bind v _ _ (fun _ _ => True)); [done| |].
  { unfold refines. tsteps. split; [|done]. apply qstep_intro; [by eapply A_resume|done]. }
  intros _ v1 Hv1 _. eapply (refines_bind v1 _ _ (fun _ _ => True)); [done| |].
  { apply refines_triple. by tsteps. }
  intros _ v2 Hv2 _. destruct k as [|w r|n t0|].
  - eapply (refines_bind v2); [done|by apply refines_wait_turn|]. intros. by apply refines_ret.
  - eapply (refines_bind v2); [done|by apply refines_waitx_turn|]. intros. by apply refines_ret.
  - eapply (refines_bind v2); [done|by apply refines_sys_sleep_turn|]. intros. by apply refines_ret.
  - apply refines_triple. by tsteps.
Qed.

Lemma refines_run_context v c i : inv v -> v_cur v !!! c = Some i -> refines v (run_context c i) any.
Proof.
  intros Hv Hc. unfold run_context. apply triple_bind, triple_getp.
  destruct (p_context _) as [|n cs|n lk k|].
  - apply refines_forkret.
  - unfold refines. tsteps. eapply triple_mono; [by apply refines_trap_killed|].
    intros g v' [H _]. by tsteps.
  - unfold refines. tsteps. by apply refines_sleep_return.
  - apply triple_panic.
Qed.

Lemma refines_dispatch v c : inv v -> v_cur v !! c = Some None -> refines v (dispatch c) any.
Proof.
  intros Hv Hc. unfold dispatch.
  eapply (refines_bind v _ _ (fun r v' => forall i, r = Some i -> v_cur v' !!! c = Some i)); [done| |].
  - apply triple_scheduler_loop.
    + split; done.
    + intros i Hlt Hst. split; [apply qstep_intro; [by apply A_pick|done]|]. intros j [= <-].
      cbn [v_cur vput_procs vput_cur]. rewrite list_lookup_total_alt, list_lookup_alter_eq, Hc. done.
  - intros [i|] v' Hv' Hr; [|by apply refines_ret]. apply refines_run_context; auto.
Qed.

(** A step may start with the clock tick of the CPU with id 0. *)
Definition maybe_tick (v v1 : view) : Prop :=
  v1 = v \/ exists c, v_ids v !!! c = 0 /\ v1 = tick_view c v.

Lemma maybe_tick_inv v v1 : inv v -> maybe_tick v v1 -> inv v1.
Proof. intros Hv [->|(c & Hid & ->)]; [done|by apply tick_inv]. Qed.

Lemma triple_trap_switch v c tf :
  triple (E := E) v (trap_switch c tf) (fun _ v' => exists v1, maybe_tick v v1 /\ rtc qstep v1 v').
Proof.
  assert (forall v', rtc qstep v v' -> exists v1, maybe_tick v v1 /\ rtc qstep v1 v') as Hq.
  { intros v' H. exists v. split; [by left|done]. }
  unfold trap_switch. tsteps; try (apply Hq; done);
    try (eapply triple_mono; [apply refines_wakeups|]; intros ? ? []; by apply Hq).
  - apply triple_trap_timer; intros Hid; [by apply Hq|].
    exists (tick_view c v). split; [right; eauto|done].
  - unfold trap_fault. tsteps. apply triple_getc. intros x Hx _.
    destruct (c_proc x) as [i|]; [|apply triple_panic]. tsteps. apply Hq.
    apply qstep_intro; [by eapply A_own|done].
Qed.

Lemma refines_trap_tail v c tf : inv v ->
  refines v (gone ← trap_killed c (tf_cs tf);
    if (gone : bool) then mret tt
    else x ← getc c;
      match c_proc x with
      | None => mret tt
      | Some i =>
          p ← getp i;
          if is_state RUNNING p && (tf_trapno tf =? T_IRQ0 + IRQ_TIMER) then yield c (tf_cs tf)
          else _ ← trap_killed c (tf_cs tf); mret tt
      end) any.
Proof.
  intros Hv. eapply (refines_bind v); [done|by apply refines_trap_killed|].
  intros gone v2 Hv2 _. destruct gone; [by apply refines_ret|].
  apply triple_bind, triple_getc. intros x Hx _. destruct (c_proc x) as [i|]; [|by apply refines_ret].
  apply triple_bind, triple_getp. destruct (_ && _); [apply refines_yield|].
  eapply (refines_bind v2); [done|by apply refines_trap_killed|]. intros. by apply refines_ret.
Qed.

Lemma triple_trap v c tf : inv v ->
  triple (E := E) v (trap c tf) (fun _ v' => exists v1, maybe_tick v v1 /\ rtc qstep v1 v').
Proof.
  intros Hv. unfold trap. apply triple_bind. eapply triple_mono; [apply triple_trap_switch|].
  intros _ v2 (v1 & Ht & Hq). eapply triple_mono; [apply refines_trap_tail|].
  - eapply qsteps_inv; [by eapply maybe_tick_inv|done].
  - intros _ v3 [Hq' _]. exists v1. split; [done|by etrans].
Qed.

(** ** Steps of the kernel *)
Inductive kop : Type :=
| OFork | OExit | OWait | OWaitx (wtime rtime : Z) | OKill (pid : Z) | OGrow (n : Z)
| OSleepTicks (n : Z)                            (** sys_sleep *)
| OSleep (ch : chan) (lk : lockid)               (** another component waits *)
| OWakeup (ch : chan)
| OTrap (tf : trapframe).

(** One operation executed by the process (or the idle loop) of CPU [c]. *)
Definition run_op (c : nat) (op : kop) : kernel (kst E) unit :=
  match op with
  | OFork => _ ← fork c; mret tt
  | OExit => exit c
  | OWait => _ ← wait c; mret tt
  | OWaitx w r => _ ← waitx c w r; mret tt
  | OKill pid => _ ← kill c pid; mret tt
  | OGrow n => _ ← growproc c n; mret tt
  | OSleepTicks n =>
      acquire_l LTicks c;; t0 ← kgets k_ticks; _ ← sys_sleep_turn c n t0; mret tt
  | OSleep ch lk => acquire_l lk c;; sleep c ch lk AOther
  | OWakeup ch => wakeup c ch
  | OTrap tf => trap c tf
  end.

(** When [run_op] is a step: only a process calls into the kernel, other
    components do not sleep on the channel of a process, and pids are considered
    until the counter would wrap around. *)
Definition op_enabled (s : kst E) (c : nat) (op : kop) : Prop :=
  match op with
  | OTrap _ => True
  | OWakeup _ => True
  | OFork => c_proc (k_cpus s !!! c) <> None /\ k_nextpid s + 1 < 2 ^ 31
  | OSleep ch _ => c_proc (k_cpus s !!! c) <> None /\ forall j, ch <> CProc j
  | _ => c_proc (k_cpus s !!! c) <> None
  end.

Inductive kstep : kst E -> kst E -> Prop :=
| K_op s s' c op : op_enabled s c op -> run_op c op s = Done s' tt -> kstep s s'
| K_top s s' c x : k_cpus s !! c = Some x -> c_proc x = None ->
    scheduler_top c s = Done s' tt -> kstep s s'
| K_dispatch s s' c x : k_cpus s !! c = Some x -> c_proc x = None ->
    dispatch c s = Done s' tt -> kstep s s'
| K_own s c i f : c_proc (k_cpus s !!! c) = Some i ->
    (forall p, shared_fields (f p) = shared_fields p) ->
    kstep s (put_procs (alter f i (k_procs s)) s)
| K_env s e : kstep s (put_env e s).

Lemma triple_run_op s c op : inv (view_of s) -> op_enabled s c op ->
  triple (view_of s) (run_op c op) (fun _ v' => exists v1, maybe_tick (view_of s) v1 /\ rtc qstep v1 v').
Proof.
  intros Hv Hen. destruct op as [| | | | | | | | |tf]; cbn [run_op op_enabled] in *;
    [..|by apply triple_trap];
    (eapply (triple_mono _ _ (fun a v' => rtc qstep (view_of s) v' /\ any a v'));
      [|intros ? ? [Hq _]; exists (view_of s); split; [by left|done]]);
    try (eapply (refines_bind (view_of s)); [done| |by intros; apply refines_ret]).
  - destruct Hen as [Hc Hn]. rewrite cur_lookup in Hc.
    destruct (v_cur (view_of s) !!! c) as [me|] eqn:Hme; [|done]. by eapply refines_fork.
  - by apply refines_exit.
  - by apply refines_wait.
  - by apply refines_waitx.
  - apply refines_kill.
  - apply refines_growproc.
  - tsteps. apply triple_gets. intros s' Hs'. tsteps.
    eapply triple_mono; [apply refines_sys_sleep_turn|]. intros a v' H. by tsteps.
  - tsteps. apply refines_sleep, Hen.
  - apply refines_wakeup.
Qed.

Lemma idle_cpu (s : kst E) c x : k_cpus s !! c = Some x -> c_proc x = None ->
  v_cur (view_of s) !! c = Some None.
Proof. intros Hx Hp. cbn. by rewrite list_lookup_fmap, Hx; simpl; rewrite Hp. Qed.

(** A kernel step is at most one clock tick, then abstract steps without one. *)
Lemma kstep_qsteps s s' : inv (view_of s) -> kstep s s' ->
  exists v1, maybe_tick (view_of s) v1 /\ rtc qstep v1 (view_of s').
Proof.
  intros Hv H.
  assert (forall v', rtc qstep (view_of s) v' ->
    exists v1, maybe_tick (view_of s) v1 /\ rtc qstep v1 v') as Hq.
  { intros v' Hv'. exists (view_of s). split; [by left|done]. }
  destruct H as [s s' c op Hen Hr|s s' c x Hx Hp Hr|s s' c x Hx Hp Hr|s c i f Hc Hf|].
  - by eapply (triple_done _ _ _ s s' tt) in Hr; [|by apply triple_run_op|].
  - assert (triple (E := E) (view_of s) (scheduler_top c) (fun _ v' => v' = view_of s)) as Ht.
    { unfold scheduler_top. by tsteps. }
    apply Hq. by rewrite (triple_done _ _ _ s s' tt Ht eq_refl Hr).
  - eapply (triple_done _ _ _ s s' tt) in Hr; [|by eapply refines_dispatch; [|by eapply idle_cpu]|done].
    apply Hq, Hr.
  - apply Hq, qstep_intro; [|done]. rewrite cur_lookup in Hc. exact (A_own (view_of s) c i f Hc Hf).
  - by apply Hq.
Qed.

Lemma kstep_asteps s s' : inv (view_of s) -> kstep s s' -> rtc astep (view_of s) (view_of s').
Proof.
  intros Hv H. destruct (kstep_qsteps s s' Hv H) as (v1 & [->|(c & Hid & ->)] & Hq).
  - by apply qsteps_asteps.
  - eapply rtc_l; [by apply A_tick|]. by apply qsteps_asteps.
Qed.

(** ** Boot and reachable states *)
Definition boot (s : kst E) : Prop :=
  k_procs s = replicate NPROC proc0 /\ Forall (fun x => c_proc x = None) (k_cpus s) /\
  k_initproc s = None /\ k_nextpid s = 1.

(** The kernel after main() called userinit(), and every state it goes to. *)
Inductive reach : kst E -> Prop :=
| R_boot s s' c : boot s -> userinit c s = Done s' tt -> reach s'
| R_step s s' : reach s -> kstep s s' -> reach s'.

Definition first_proc (ticks kstack pgdir cwd : Z) (p : proc) : proc :=
  set_state RUNNABLE (set_cwd cwd (copy_name initcode_name (set_tf user_tf (set_sz PGSIZE
    (set_pgdir pgdir (embryo 1 ticks kstack p)))))).

Lemma first_proc_fields ticks kstack pgdir cwd p :
  let q := first_proc ticks kstack pgdir cwd p in
  p_state q = RUNNABLE /\ p_pid q = 1 /\ p_parent q = p_parent p /\ p_iotime q = 0.
Proof. unfold first_proc, copy_name, embryo. destruct (safestrcpy _ _ _); by psimp. Qed.

Lemma triple_userinit v c :
  v_nextpid v = 1 ->
  triple (E := E) v (userinit c) (fun _ v' => exists i kstack pgdir cwd,
    (i < length (v_procs v))%nat /\ p_state (v_procs v !!! i) = UNUSED /\
    v' = vput_procs (alter (first_proc (v_ticks v) kstack pgdir cwd) i (v_procs v))
           (vput_init (Some i) (vput_nextpid 2 v))).
Proof.
  intros Hn. unfold userinit. tstep. apply triple_allocproc.
  - intros _. tstep. apply (triple_modify _ _ (vput_init None)); [done|]. apply triple_panic.
  - intros i Hlt Hun Hfirst. rewrite Hn. split.
    + tstep. apply (triple_modify _ _ (vput_init None)); [done|]. apply triple_panic.
    + intros kstack Hk. tstep. apply (triple_modify _ _ (vput_init (Some i))); [done|].
      tsteps. exists i, kstack, a, a1. split_and!; [done|done|]. vsimp.
      unfold vput_procs. cbn [v_cur v_ids v_init v_nextpid v_ticks vput_init vput_nextpid].
      repeat rewrite list_alter_alter_eq. reflexivity.
Qed.

(** The table after boot: one process, everything else free. *)
Lemma boot_row i f j p :
  alter f i (replicate NPROC proc0) !! j = Some p ->
  (j = i /\ p = f proc0) \/ (j <> i /\ p = proc0).
Proof.
  intros H. apply alter_lookup_cases in H as [(-> & q & Hq & ->)|[Hne Hp]].
  - apply lookup_replicate in Hq as [-> _]. by left.
  - apply lookup_replicate in Hp as [-> _]. by right.
Qed.

Lemma boot_inv v i ticks kstack pgdir cwd :
  v_procs v = replicate NPROC proc0 -> Forall (fun o => o = None) (v_cur v) ->
  (i < NPROC)%nat ->
  inv (vput_procs (alter (first_proc ticks kstack pgdir cwd) i (v_procs v))
         (vput_init (Some i) (vput_nextpid 2 v))).
Proof.
  intros Ht Hcur Hi. destruct (first_proc_fields ticks kstack pgdir cwd proc0) as (Es & Ep & Epa & Eio).
  set (f := first_proc ticks kstack pgdir cwd) in *. clearbody f.
  assert (forall c j, v_cur v !! c <> Some (Some j)) as Hno.
  { intros c j Hc. by apply (Forall_lookup_1 _ _ _ _ Hcur) in Hc. }
  assert (alter f i (replicate NPROC proc0) !! i = Some (f proc0)) as Hrow.
  { rewrite list_lookup_alter_eq, lookup_replicate_2 by done. done. }
  split; vsimp; rewrite Ht.
  - by rewrite length_alter, length_replicate.
  - split; [intros c j Hc; by destruct (Hno c j)|intros c d j Hc; by destruct (Hno c j)|].
    intros j p Hp Hs. apply boot_row in Hp as [[-> ->]|[_ ->]]; [congruence|done].
  - split.
    + intros j p Hp. apply boot_row in Hp as [[-> ->]|[_ ->]]; [congruence|done].
    + intros j p Hp. apply boot_row in Hp as [[-> ->]|[_ ->]]; [congruence|done].
    + intros j p k Hp Hk. apply boot_row in Hp as [[-> ->]|[_ ->]]; [|done]. by rewrite Epa in Hk.
    + intros j [= <-]. exists (f proc0). split_and!; [done|done|]. rewrite Es. unfold live; auto.
  - intros j p k Hp Hs. apply boot_row in Hp as [[-> ->]|[_ ->]]; [congruence|done].
  - split; [lia| |].
    + intros j p Hp Hs. apply boot_row in Hp as [[-> ->]|[_ ->]]; [|done]. rewrite Ep. lia.
    + intros j k p q Hp Hq Hs Hs' _. apply boot_row in Hp as [[-> ->]|[_ ->]]; [|done].
      by apply boot_row in Hq as [[-> ->]|[_ ->]].
  - intros j p Hp. by apply boot_row in Hp as [[-> ->]|[_ ->]].
Qed.

Lemma reach_inv s : reach s -> inv (view_of s).
Proof.
  induction 1 as [s s' c (Hp & Hc & Hi & Hn) Hu|s s' Hr IH Hst].
  - pose proof (triple_done _ _ _ s s' tt (triple_userinit (view_of s) c Hn) eq_refl Hu)
      as (i & kstack & pgdir & cwd & Hlt & _ & ->).
    cbn [view_of v_procs] in Hlt. rewrite Hp, length_replicate in Hlt.
    apply boot_inv; [done| |done]. cbn [view_of v_cur]. by apply Forall_fmap.
  - eapply asteps_inv; [exact IH|]. by apply kstep_asteps.
Qed.

(** ** What holds in every reachable state *)

(** C4: Every step of the kernel (a system call of proc.c, a trap, a turn of a
    CPU's scheduler) changes the process table as the abstract machine does. *)
Theorem kernel_refines_process_table s s' :
  reach s -> kstep s s' -> rtc astep (view_of s) (view_of s').
Proof. intros Hr. apply kstep_asteps, reach_inv, Hr. Qed.

(** In every reachable state a slot is RUNNING exactly when it is the process
    of a CPU, and no two CPUs have the same process. *)
Theorem running_iff_on_one_cpu s i :
  reach s ->
  (p_state (k_procs s !!! i) = RUNNING <-> exists c, c_proc (k_cpus s !!! c) = Some i) /\
  (forall c d, c_proc (k_cpus s !!! c) = Some i -> c_proc (k_cpus s !!! d) = Some i -> c = d).
Proof.
  intros Hr. pose proof (reach_inv s Hr) as Hv. destruct (inv_cpus _ Hv) as [Hc Hi Hrun].
  setoid_rewrite cur_lookup. split; [split|].
  - intros Hs. assert (i < length (k_procs s))%nat as Hlt.
    { destruct (decide (i < length (k_procs s))%nat) as [|Hge]; [done|].
      rewrite list_lookup_total_alt, lookup_ge_None_2 in Hs by lia. done. }
    destruct (Hrun i (k_procs s !!! i)) as [c Hci]; [by apply list_lookup_lookup_total_lt|done|].
    exists c. by apply list_lookup_total_correct.
  - intros [c Hci]. destruct (cur_running _ _ _ Hv Hci) as (_ & p & Hp & Hs).
    cbn [view_of v_procs] in Hp. by rewrite (list_lookup_total_correct _ _ _ Hp).
  - intros c d H1 H2. destruct (cur_running _ _ _ Hv H1) as [H1' _].
    destruct (cur_running _ _ _ Hv H2) as [H2' _]. eauto.
Qed.

(** Until the pid counter wraps, processes have distinct positive pids, all
    below the next pid to be handed out. *)
Theorem pids_unique s i j p q :
  reach s -> k_procs s !! i = Some p -> k_procs s !! j = Some q ->
  p_state p <> UNUSED -> p_state q <> UNUSED ->
  1 <= p_pid p < k_nextpid s /\ (p_pid p = p_pid q -> i = j).
Proof.
  intros Hr Hp Hq Hs Hs'. destruct (inv_pids _ (reach_inv s Hr)) as [_ Hpr Hpi]. split.
  - exact (Hpr i p Hp Hs).
  - exact (Hpi i j p q Hp Hq Hs Hs').
Qed.

(** C32: No lost wakeup in wait() and waitx(): a process asleep there has a child to
    wait for, and none of its children is a zombie. *)
Theorem wait_no_lost_wakeup s i p j :
  reach s -> k_procs s !! i = Some p -> p_state p = SLEEPING -> p_chan p = CProc j ->
  j = i /\ (exists k q, k_procs s !! k = Some q /\ p_parent q = Some i) /\
  forall k q, k_procs s !! k = Some q -> p_parent q = Some i -> p_state q <> ZOMBIE.
Proof.
  intros Hr Hp Hs Hch. destruct (inv_wait _ (reach_inv s Hr) i p j Hp Hs Hch) as (-> & Hex & Hz).
  split_and!; [done|done|]. intros k q Hq Hpar Hst. by apply (Hz k q Hq).
Qed.

(** Orphans are adopted: the parent of a process is always a live process other
    than itself (exit() passes children to init before it becomes a zombie), and
    a free slot has no parent. *)
Theorem parents_alive s i p :
  reach s -> k_procs s !! i = Some p ->
  match p_parent p with
  | Some j => i <> j /\ p_state p <> UNUSED /\
      exists q, k_procs s !! j = Some q /\ live (p_state q)
  | None => True
  end.
Proof.
  intros Hr Hp. destruct (inv_tree _ (reach_inv s Hr)) as [_ Hu Hpa _].
  destruct (p_parent p) as [j|] eqn:Hpar; [|done].
  destruct (Hpa i p j Hp Hpar) as [Hne Hl]. split_and!; [done| |done].
  intros Hs. rewrite (Hu i p Hp Hs) in Hpar. done.
Qed.

(** C38: The sleep-time counter that the timer interrupt increments for a SLEEPING
    current process is 0 in every process at all times. *)
Theorem iotime_always_zero s i p : reach s -> k_procs s !! i = Some p -> p_iotime p = 0.
Proof. intros Hr Hp. exact (inv_iotime _ (reach_inv s Hr) i p Hp). Qed.
End Refinement.
