(* ===== verification/ProcTime.v ===== *)
(** * The times waitx reports

    The clock tick of the CPU with id 0 counts, for every live process, one
    tick of its lifetime, and one tick of run time for the process that CPU is
    running.  [timed] runs the kernel together with these tallies; the fields
    ctime1, etime and rtime of every row agree with them, so the two numbers
    waitx stores are determined by the tallies. *)

From S2P Require Import Prelude Params CString Spinlock Proc ProcSpec ProcInv ProcStep.

Definition is_live (p : proc) : bool :=
  is_state SLEEPING p || is_state RUNNABLE p || is_state RUNNING p.

Lemma is_live_spec p : is_live p = true <-> live (p_state p).
Proof.
  unfold is_live, is_state, live. rewrite !orb_true_iff, !bool_decide_eq_true. tauto.
Qed.

(** Lifetime and run-time ticks of each pid. *)
Definition tallies := Z -> Z * Z.

Definition cpu0_proc (v : view) : option nat :=
  match find_index (fun id => id =? 0) (v_ids v) with
  | Some c => v_cur v !!! c
  | None => None
  end.
Definition runs_on_cpu0 (v : view) (pid : Z) : bool :=
  match cpu0_proc v with
  | Some i => p_pid (v_procs v !!! i) =? pid
  | None => false
  end.
Definition live_pid (t : list proc) (pid : Z) : bool :=
  existsb (fun p => is_live p && (p_pid p =? pid)) t.
Definition count_tick (v : view) (g : tallies) : tallies := fun pid =>
  if live_pid (v_procs v) pid
  then (fst (g pid) + 1, snd (g pid) + if runs_on_cpu0 v pid then 1 else 0)
  else g pid.
(** The tallies after a step from [v] to [v']. *)
Definition tally (v v' : view) (g : tallies) : tallies :=
  if bool_decide (v_ticks v' = v_ticks v) then g else count_tick v g.

(** ** The invariant *)
Definition time_row (ticks : Z) (g : tallies) (p : proc) : Prop :=
  (live (p_state p) -> u32 (ticks - p_ctime1 p) = u32 (fst (g (p_pid p)))) /\
  (p_state p = ZOMBIE -> u32 (p_etime p - p_ctime1 p) = u32 (fst (g (p_pid p)))) /\
  (live (p_state p) \/ p_state p = ZOMBIE -> p_rtime p = s32 (snd (g (p_pid p)))).

Record time_ok (v : view) (g : tallies) : Prop := mkTimeOk {
  time_rows i p : v_procs v !! i = Some p -> time_row (v_ticks v) g p;
  time_fresh pid : v_nextpid v <= pid -> g pid = (0, 0);
  time_order pid : 0 <= snd (g pid) <= fst (g pid);
  time_ids : NoDup (v_ids v)
}.

(** Rows whose times and identity do not change. *)
Definition same_times (p p' : proc) : Prop :=
  p_pid p' = p_pid p /\ p_ctime1 p' = p_ctime1 p /\ p_etime p' = p_etime p /\
  p_rtime p' = p_rtime p /\
  (p_state p' = p_state p \/ (live (p_state p) /\ live (p_state p'))).

Lemma same_times_row ticks g p p' : same_times p p' -> time_row ticks g p -> time_row ticks g p'.
Proof.
  intros (E1 & E2 & E3 & E4 & Es) (H1 & H2 & H3). unfold time_row.
  rewrite E1, E2, E3, E4. destruct Es as [->|[Hl Hl']]; [done|].
  split_and!; [auto| |auto]. intros Hz. rewrite Hz in Hl'. by apply not_live in Hl'; auto.
Qed.

Lemma same_times_refl p : same_times p p.
Proof. unfold same_times. naive_solver. Qed.

Lemma woken_times p p' : woken p p' -> same_times p p'.
Proof.
  intros [->|[Hs ->]]; [apply same_times_refl|]. unfold same_times, live. psimp. naive_solver.
Qed.

Lemma reparent_times me init p : same_times p (reparent_row me init p).
Proof. unfold reparent_row, same_times. destruct (decide _); psimp; naive_solver. Qed.

Lemma same_times_trans p q r : same_times p q -> same_times q r -> same_times p r.
Proof. unfold same_times. intros (?&?&?&?&S1) (?&?&?&?&S2). split_and!; try congruence.
  destruct S1 as [S1|[]], S2 as [S2|[]]; rewrite ?S1, ?S2 in *; auto.
Qed.

Lemma free_row ticks g p : p_state p = UNUSED -> time_row ticks g p.
Proof.
  intros H. unfold time_row. rewrite H. split_and!; [| done |].
  - intros Hl. by apply not_live in Hl; auto.
  - intros [Hl|?]; [|done]. by apply not_live in Hl; auto.
Qed.

(** Steps that change one row. *)
Lemma rows_alter v g i f :
  (forall i p, v_procs v !! i = Some p -> time_row (v_ticks v) g p) ->
  (forall p, v_procs v !! i = Some p -> time_row (v_ticks v) g p -> time_row (v_ticks v) g (f p)) ->
  forall j p, alter f i (v_procs v) !! j = Some p -> time_row (v_ticks v) g p.
Proof.
  intros Hr Hf j p Hp. apply alter_lookup_cases in Hp as [(-> & q & Hq & ->)|[_ Hp]]; eauto.
Qed.

Lemma forked_times me p pgdir pid ticks kstack q :
  let q' := forked me p pgdir (embryo pid ticks kstack q) in
  p_state q' = RUNNABLE /\ p_pid q' = pid /\ p_ctime1 q' = s32 ticks /\ p_rtime q' = 0.
Proof. unfold forked, copy_name, embryo. destruct (safestrcpy _ _ _); by psimp. Qed.

Lemma u32_sub_s32_r a b : u32 (a - s32 b) = u32 (a - b).
Proof. by rewrite <- u32_sub_r, u32_s32, u32_sub_r. Qed.

Lemma u32_sub_s32_l a b : u32 (s32 a - b) = u32 (a - b).
Proof. by rewrite <- u32_sub_l, u32_s32, u32_sub_l. Qed.

Lemma u32_succ_neq t : u32 (t + 1) <> t.
Proof. unfold u32. pose proof (Z.mod_pos_bound (t + 1) (2 ^ 32) ltac:(lia)).
  intros Ht. assert (t + 1 < 2 ^ 32 \/ t + 1 = 2 ^ 32) as [H1|H1] by lia.
  - rewrite Z.mod_small in Ht by lia. lia.
  - rewrite H1, Z_mod_same_full in Ht. lia.
Qed.

(** The times of the row exit() leaves. *)
Lemma exited_times me init ticks g p :
  live (p_state p) -> time_row ticks g p -> time_row ticks g (exited me init ticks p).
Proof.
  intros Hl (H1 & _ & H3).
  assert (forall q, p_pid (reparent_row me init q) = p_pid q /\
    p_ctime1 (reparent_row me init q) = p_ctime1 q /\
    p_rtime (reparent_row me init q) = p_rtime q) as Hr.
  { intros q. by destruct (reparent_times me init q) as (? & ? & _ & ? & _). }
  unfold exited, time_row. psimp.
  destruct (Hr (set_cwd 0 (set_ofile (clear_fds (seq 0 NOFILE) (p_ofile p)) p))) as (-> & -> & ->).
  psimp. split_and!.
  - intros Hz. by apply not_live in Hz; auto.
  - intros _. rewrite u32_sub_s32_l. auto.
  - intros _. auto.
Qed.

Lemma shared_times p p' : shared_fields p' = shared_fields p -> same_times p p'.
Proof. unfold shared_fields, same_times. intros [=]. split_and!; try congruence. left; congruence. Qed.

Lemma killed_times p : same_times p (killed_row p).
Proof.
  unfold killed_row, is_state. destruct (bool_decide _) eqn:Hb; breflect; psimp_in Hb;
    unfold same_times, live; psimp; [rewrite Hb|]; naive_solver.
Qed.

Lemma qstep_time v v' g : inv v -> qstep v v' -> time_ok v g -> time_ok v' g.
Proof.
  intros Hv [H Ht] [Hr Hf Ho Hid]. revert Hv Ht Hr Hf Ho Hid.
  destruct H; intros Hv Htk Hr Hf Ho Hid;
    try match goal with H : v_cur _ !!! _ = Some _ |- _ =>
      destruct (cur_running _ _ _ Hv H) as (Hc' & p0 & Hp0 & Hrun0) end;
    unfold sched_view in *; vsimp; split; vsimp; try done;
    try (intros pid Hpid; apply Hf; lia);
    try (apply rows_alter; [done|]; intros q Hq Hrow).
  - intros j p' Hp'. apply table_rel_woken in H.
    destruct (table_rel_inv _ _ _ _ _ H Hp') as (p & Hp & Hw).
    eapply same_times_row; [by apply woken_times|eauto].
  - eapply same_times_row; [|exact Hrow]. rewrite (list_lookup_total_correct _ _ _ Hq) in H1.
    unfold same_times, live. psimp. naive_solver.
  - rewrite list_alter_alter_eq. apply rows_alter; [done|]. intros q Hq Hrow.
    eapply same_times_row; [|exact Hrow]. simplify_eq. unfold same_times, live. psimp. naive_solver.
  - rewrite !list_alter_alter_eq. apply rows_alter; [done|]. intros q Hq Hrow.
    eapply same_times_row; [|exact Hrow]. simplify_eq. unfold same_times, live. psimp. naive_solver.
  - eapply same_times_row; [|exact Hrow]. unfold same_times. psimp. naive_solver.
  - eapply same_times_row; [|exact Hrow]. by apply shared_times.
  - destruct (forked_times me (v_procs v !!! me) pgdir (v_nextpid v) (v_ticks v) kstack q)
      as (Es & Ep & Ec & Er).
    unfold time_row. rewrite Es, Ep, Ec, Er, Hf by lia. split_and!; [|done|done].
    intros _. rewrite u32_sub_s32_r. f_equal. simpl. lia.
  - apply free_row. by destruct (H2 q).
  - intros j p' Hp'. destruct (table_rel_inv _ _ _ _ _ H2 Hp') as (q & Hq & HR).
    destruct (decide (j = me)) as [->|Hne].
    + subst p'. apply exited_times; [|eauto]. simplify_eq. rewrite Hrun0. unfold live; auto.
    + destruct HR as (Hw & _). eapply same_times_row; [|eauto].
      eapply same_times_trans; [apply reparent_times|by apply woken_times].
  - apply free_row. apply reaped_fields.
  - eapply same_times_row; [|exact Hrow]. apply killed_times.
  - by destruct (u32_succ_neq (v_ticks v)).
Qed.

Lemma qsteps_time v v' g : inv v -> rtc qstep v v' -> time_ok v g -> time_ok v' g.
Proof.
  intros Hv H. revert Hv. induction H as [|v1 v2 v3 Hq _ IH]; intros Hv Ht; [done|].
  apply IH; [eapply astep_inv; [done|apply Hq]|]. by eapply qstep_time.
Qed.

(** ** The clock tick *)
Lemma cpu0_unique v c : NoDup (v_ids v) -> v_ids v !!! c = 0 -> cpu0_proc v = v_cur v !!! c.
Proof.
  intros Hnd Hc. unfold cpu0_proc.
  assert (v_ids v !! c = Some 0) as Hl.
  { rewrite list_lookup_total_alt in Hc. by destruct (v_ids v !! c); simpl in *; subst. }
  destruct (find_index _ _) as [d|] eqn:Hd.
  - apply find_index_Some in Hd as [(x & Hx & Hx0) _]. breflect. subst x.
    by rewrite (NoDup_lookup _ _ _ _ Hnd Hl Hx).
  - rewrite find_index_None in Hd. by specialize (Hd c 0 Hl).
Qed.

Lemma live_not_unused st : live st -> st <> UNUSED.
Proof. intros Hl ->. by apply not_live in Hl; auto. Qed.

Lemma live_pid_intro t i p : t !! i = Some p -> live (p_state p) -> live_pid t (p_pid p) = true.
Proof.
  intros Hp Hl. unfold live_pid. apply existsb_exists. exists p. split.
  - apply list_elem_of_In. by eapply list_elem_of_lookup_2.
  - rewrite Z.eqb_refl, andb_true_r. by apply is_live_spec.
Qed.

Lemma live_pid_elim t pid : live_pid t pid = true ->
  exists i p, t !! i = Some p /\ live (p_state p) /\ p_pid p = pid.
Proof.
  unfold live_pid. intros H. apply existsb_exists in H as (p & Hin & H). breflect.
  apply list_elem_of_In, list_elem_of_lookup_1 in Hin as [i Hi]. exists i, p.
  split_and!; [done|by apply is_live_spec|done].
Qed.

Lemma zombie_not_live_pid v i p : inv v -> v_procs v !! i = Some p -> p_state p = ZOMBIE ->
  live_pid (v_procs v) (p_pid p) = false.
Proof.
  intros Hv Hp Hz. destruct (live_pid _ _) eqn:Hl; [|done]. exfalso.
  apply live_pid_elim in Hl as (j & q & Hq & Hlq & Epid).
  assert (j = i) as ->.
  { eapply (pids_inj _ _ (inv_pids _ Hv)); [exact Hq|exact Hp| | |done];
      [by apply live_not_unused|congruence]. }
  simplify_eq. rewrite Hz in Hlq. by apply not_live in Hlq; auto.
Qed.

(** Whether the tick counts as run time of a live row. *)
Lemma runs_on_cpu0_iff v c i p : inv v -> NoDup (v_ids v) -> v_ids v !!! c = 0 ->
  v_procs v !! i = Some p -> live (p_state p) ->
  runs_on_cpu0 v (p_pid p) = bool_decide (v_cur v !!! c = Some i).
Proof.
  intros Hv Hnd Hid Hp Hl. unfold runs_on_cpu0. rewrite (cpu0_unique v c Hnd Hid).
  destruct (v_cur v !!! c) as [k|] eqn:Hc; [|done].
  destruct (cur_running v c k Hv Hc) as (_ & q & Hq & Hrun).
  rewrite (list_lookup_total_correct _ _ _ Hq).
  case_bool_decide as Hk.
  - simplify_eq. apply Z.eqb_refl.
  - apply Z.eqb_neq. intros E. apply Hk. f_equal.
    eapply (pids_inj _ _ (inv_pids _ Hv)); [exact Hq|exact Hp|congruence|by apply live_not_unused|done].
Qed.

Lemma tick_row_eq v c i p p' : inv v ->
  v_procs v !! i = Some p -> tick_table (v_cur v !!! c) (v_procs v) !! i = Some p' ->
  (v_cur v !!! c = Some i /\ p_state p = RUNNING /\ p' = set_rtime (s32 (p_rtime p + 1)) p) \/
  (v_cur v !!! c <> Some i /\ p' = wake CTicks p).
Proof.
  intros Hv Hp. unfold tick_table.
  destruct (v_cur v !!! c) as [k|] eqn:Hc.
  - destruct (cur_running v c k Hv Hc) as (_ & q & Hq & Hrun).
    intros Hp'. apply alter_lookup_cases in Hp' as [(-> & q' & Hq' & ->)|[Hne Hp']].
    + left. rewrite list_lookup_fmap, Hp in Hq'. simpl in Hq'. simplify_eq. split_and!; [done|done|].
      unfold wake, is_state. rewrite bool_decide_eq_false_2 by congruence. simpl.
      unfold account, is_state. by rewrite bool_decide_eq_true_2.
    + right. rewrite list_lookup_fmap, Hp in Hp'. simpl in Hp'. split; congruence.
  - rewrite list_lookup_fmap, Hp. simpl. intros [= <-]. by right.
Qed.

Lemma same_times_class p p' : same_times p p' ->
  (live (p_state p') <-> live (p_state p)) /\ (p_state p' = ZOMBIE <-> p_state p = ZOMBIE).
Proof.
  intros (_ & _ & _ & _ & [->|[H1 H2]]); [done|]. split; [tauto|].
  split; intros Hz; exfalso; [rewrite Hz in H2; by apply not_live in H2; auto|rewrite Hz in H1; by apply not_live in H1; auto].
Qed.

Lemma tick_time_row v c g i p p' : inv v -> NoDup (v_ids v) -> v_ids v !!! c = 0 ->
  v_procs v !! i = Some p -> tick_table (v_cur v !!! c) (v_procs v) !! i = Some p' ->
  time_row (v_ticks v) g p -> time_row (u32 (v_ticks v + 1)) (count_tick v g) p'.
Proof.
  intros Hv Hnd Hid Hp Hp' (H1 & H2 & H3).
  assert (p_pid p' = p_pid p /\ p_ctime1 p' = p_ctime1 p /\ p_etime p' = p_etime p /\
    p_rtime p' = (if bool_decide (v_cur v !!! c = Some i) then s32 (p_rtime p + 1) else p_rtime p) /\
    (live (p_state p') <-> live (p_state p)) /\ (p_state p' = ZOMBIE <-> p_state p = ZOMBIE))
    as (E1 & E2 & E3 & E4 & E5 & E6).
  { destruct (tick_row_eq v c i p p' Hv Hp Hp') as [(Hc & Hr & ->)|[Hc ->]].
    - rewrite bool_decide_eq_true_2 by done. psimp. done.
    - rewrite bool_decide_eq_false_2 by done.
      pose proof (woken_times _ _ (wake_woken CTicks p)) as Hs. pose proof (same_times_class _ _ Hs).
      destruct Hs as (? & ? & ? & ? & _). done. }
  unfold time_row. rewrite E1, E2, E3, E4, E5, E6. unfold count_tick. split_and!.
  - intros Hl. rewrite (live_pid_intro _ i p Hp Hl). simpl. specialize (H1 Hl).
    rewrite u32_sub_l. replace (v_ticks v + 1 - p_ctime1 p) with (v_ticks v - p_ctime1 p + 1) by lia.
    by rewrite <- u32_add_l, H1, u32_add_l.
  - intros Hz. rewrite (zombie_not_live_pid v i p Hv Hp Hz). auto.
  - intros Hlz. specialize (H3 Hlz). destruct Hlz as [Hl|Hz].
    + rewrite (live_pid_intro _ i p Hp Hl). simpl.
      rewrite (runs_on_cpu0_iff v c i p Hv Hnd Hid Hp Hl). rewrite H3.
      case_bool_decide; [|by rewrite Z.add_0_r].
      apply s32_congr. by rewrite <- u32_add_l, u32_s32, u32_add_l.
    + rewrite (zombie_not_live_pid v i p Hv Hp Hz).
      rewrite bool_decide_eq_false_2; [done|]. intros Hc.
      destruct (cur_running v c i Hv Hc) as (_ & q & Hq & Hrun). congruence.
Qed.

Lemma tick_time v c g : inv v -> v_ids v !!! c = 0 -> time_ok v g ->
  time_ok (tick_view c v) (count_tick v g).
Proof.
  intros Hv Hid [Hr Hf Ho Hnd]. unfold tick_view. split; vsimp; try done.
  - intros i p' Hp'.
    destruct (table_rel_inv _ _ _ _ _ (tick_table_mild v c Hv) Hp') as (p & Hp & _).
    eapply tick_time_row; eauto.
  - intros pid Hpid. unfold count_tick. destruct (live_pid _ _) eqn:Hl; [|auto].
    apply live_pid_elim in Hl as (i & p & Hp & Hl & <-).
    pose proof (pids_range _ _ (inv_pids _ Hv) i p Hp (live_not_unused _ Hl)). lia.
  - intros pid. unfold count_tick. specialize (Ho pid).
    destruct (live_pid _ _); [|done]. simpl. destruct (runs_on_cpu0 _ _); lia.
Qed.

(** ** Executions with tallies *)
Section Timed.
Context {E : Type} `{!ProcEnv E}.

Inductive timed : kst E -> tallies -> Prop :=
| T_boot s s' c : boot s -> NoDup (c_id <$> k_cpus s) -> userinit c s = Done s' tt ->
    timed s' (fun _ => (0, 0))
| T_step s s' g : timed s g -> kstep s s' -> timed s' (tally (view_of s) (view_of s') g).

Lemma timed_reach s g : timed s g -> reach s.
Proof. induction 1; [by eapply R_boot|by eapply R_step]. Qed.

Lemma timed_ok s g : timed s g -> time_ok (view_of s) g.
Proof.
  induction 1 as [s s' c (Hp & Hc & Hi & Hn) Hnd Hu|s s' g Ht IH Hst].
  - pose proof (triple_done _ _ _ s s' tt (triple_userinit (view_of s) c Hn) eq_refl Hu)
      as (i & kstack & pgdir & cwd & Hlt & _ & ->).
    split; vsimp; try done. intros j p Hj. cbn [view_of v_procs] in Hj. rewrite Hp in Hj.
    apply boot_row in Hj as [[-> ->]|[_ ->]]; [|by apply free_row].
    unfold first_proc, copy_name, embryo, time_row.
    destruct (safestrcpy _ _ _); psimp; (split_and!; [|done|done]);
      intros _; rewrite u32_sub_s32_r; f_equal; simpl; lia.
  - pose proof (reach_inv _ (timed_reach _ _ Ht)) as Hv.
    destruct (kstep_qsteps s s' Hv Hst) as (v1 & Hm & Hq).
    pose proof (maybe_tick_inv _ _ Hv Hm) as Hv1.
    eapply qsteps_time; [exact Hv1|exact Hq|]. unfold tally. rewrite (qsteps_ticks _ _ Hq).
    destruct Hm as [->|(c & Hid & ->)].
    + by rewrite bool_decide_eq_true_2.
    + rewrite bool_decide_eq_false_2; [by apply tick_time|]. apply u32_succ_neq.
Qed.

(** C7: The times of every process: at any moment a live process was created as many
    ticks ago as the clock has counted since, a zombie ended as many ticks after
    its creation, and rtime is the number of those ticks at which it was the
    process of the CPU with id 0; all as 32-bit integers. *)
Theorem process_times s g i p :
  timed s g -> k_procs s !! i = Some p ->
  (live (p_state p) ->
     u32 (k_ticks s - p_ctime1 p) = u32 (fst (g (p_pid p))) /\
     p_rtime p = s32 (snd (g (p_pid p)))) /\
  (p_state p = ZOMBIE ->
     p_rtime p = s32 (snd (g (p_pid p))) /\
     wait_time p = s32 (fst (g (p_pid p)) - snd (g (p_pid p)))) /\
  0 <= snd (g (p_pid p)) <= fst (g (p_pid p)).
Proof.
  intros Ht Hp. destruct (timed_ok s g Ht) as [Hr _ Ho _].
  destruct (Hr i p Hp) as (H1 & H2 & H3). split; [auto|split; [|apply Ho]].
  intros Hz. split; [auto|]. unfold wait_time.
  rewrite (inv_iotime _ (reach_inv _ (timed_reach _ _ Ht)) i p Hp), Z.sub_0_r.
  specialize (H2 Hz). rewrite (H3 ltac:(auto)).
  apply s32_congr. rewrite u32_sub_s32_r. by rewrite <- u32_sub_l, H2, u32_sub_l.
Qed.
End Timed.
