(* ===== verification/ProcTotal.v ===== *)
(** * wait, waitx and kill return

    Total correctness of the calls that reap and kill: on a CPU that holds no
    lock and finds ptable.lock free, they neither panic nor spin, and the
    process table, the stores of waitx and the released pages are exactly
    those of the specification. *)

From S2P Require Import Prelude Params CString Spinlock Proc ProcSpec.

Section Total.
Context {E : Type} `{!ProcEnv E}.

(** CPU [c] holds ptable.lock and nothing else, or holds no lock and the lock
    is free. *)
Definition calm (c : nat) (held : bool) (s : kst E) : Prop :=
  (c < length (k_cpus s))%nat /\
  let x := k_cpus s !!! c in
  if held then c_ncli x = 1 /\ has (c_eflags x) FL_IF = false /\ holding (k_locks s LPtable) c = true
  else c_ncli x = 0 /\ lk_locked (k_locks s LPtable) = 0.

(** [m] returns; what it returns, and the lock, table and environment then. *)
Definition returns {A} (c : nat) (h : bool) (v : view) (e : E) (m : kernel (kst E) A)
    (Q : A -> bool -> view -> E -> Prop) : Prop :=
  forall s, calm c h s -> view_of s = v -> k_env s = e ->
  exists s' a h', m s = Done s' a /\ calm c h' s' /\ Q a h' (view_of s') (k_env s').

Lemma returns_bind {A B} c h v e (m : kernel (kst E) A) (k : A -> kernel (kst E) B) Q :
  returns c h v e m (fun a h' v' e' => returns c h' v' e' (k a) Q) -> returns c h v e (x ← m; k x) Q.
Proof.
  intros H s Hc Hv He. destruct (H s Hc Hv He) as (s1 & a & h1 & Hm & Hc1 & H1).
  destruct (H1 s1 Hc1 eq_refl eq_refl) as (s2 & b & h2 & Hk & Hc2 & H2).
  exists s2, b, h2. split; [|done]. by rewrite (bind_Done _ _ _ _ _ Hm).
Qed.

Lemma returns_ret {A} c h v e (a : A) (Q : A -> bool -> view -> E -> Prop) :
  Q a h v e -> returns c h v e (mret a) Q.
Proof. intros H s Hc <- <-. by exists s, a, h. Qed.

Lemma returns_get c h v e (Q : kst E -> bool -> view -> E -> Prop) :
  (forall s, view_of s = v -> k_env s = e -> calm c h s -> Q s h v e) -> returns c h v e kget Q.
Proof. intros H s Hc Hv He. exists s, s, h. split_and!; [done|done|]. subst. by apply H. Qed.

Lemma returns_getp c h v e i (Q : proc -> bool -> view -> E -> Prop) :
  Q (v_procs v !!! i) h v e -> returns c h v e (getp i) Q.
Proof. intros H s Hc <- <-. exists s, (k_procs s !!! i), h. done. Qed.

Lemma returns_modp c h v e i f (Q : unit -> bool -> view -> E -> Prop) :
  Q tt h (vput_procs (alter f i (v_procs v)) v) e -> returns c h v e (modp i f) Q.
Proof.
  intros H s Hc <- <-. exists (put_procs (alter f i (k_procs s)) s), tt, h. done.
Qed.

Lemma returns_wakeup1 c h v e ch (Q : unit -> bool -> view -> E -> Prop) :
  Q tt h (vput_procs (wake ch <$> v_procs v) v) e -> returns c h v e (wakeup1 ch) Q.
Proof. intros H s Hc <- <-. exists (put_procs (wake ch <$> k_procs s) s), tt, h. done. Qed.

Lemma returns_env {A} c h v e e' a (m : kernel E A) (Q : A -> bool -> view -> E -> Prop) :
  m e = Done e' a -> Q a h v e' -> returns c h v e (lift_env m) Q.
Proof.
  intros Hm H s Hc <- <-. exists (put_env e' s), a, h.
  unfold lift_env, klift. rewrite Hm. done.
Qed.

Lemma returns_myproc c h v e me (Q : nat -> bool -> view -> E -> Prop) :
  v_cur v !!! c = Some me -> Q me h v e -> returns c h v e (myproc c) Q.
Proof.
  intros Hcur H s Hc <- <-. exists s, me, h. split; [|done].
  unfold myproc, getc. unfold mbind, kernel_bind, kgets. rewrite cur_lookup, Hcur. done.
Qed.

Lemma view_insert_cpu (s : kst E) c x :
  c_proc x = c_proc (k_cpus s !!! c) -> c_id x = c_id (k_cpus s !!! c) ->
  forall l lk, view_of (put_locks (<[l := lk]> (k_locks s)) (put_cpus (<[c := x]> (k_cpus s)) s)) =
    view_of s.
Proof.
  intros Hp Hi l lk. unfold view_of; simpl.
  by destruct (insert_cpu_view c x (k_cpus s) Hp Hi) as [-> ->].
Qed.

Lemma returns_acquire c v e (Q : unit -> bool -> view -> E -> Prop) :
  Q tt true v e -> returns c false v e (acquire_l LPtable c) Q.
Proof.
  intros H s [Hlt [Hn Hfree]] <- <-. unfold acquire_l, on_lock, klift, acquire.
  destruct (pushcli (k_cpus s !!! c)) as [x' []| | |] eqn:Ep; try done.
  destruct (pushcli_same _ _ Ep) as [Hp Hi].
  assert (c_ncli x' = 1 /\ has (c_eflags x') FL_IF = false) as [Hn' Hf'].
  { unfold pushcli in Ep. rewrite Hn in Ep. simpl in Ep. injection Ep as <-. simpl.
    split; [done|]. apply has_cli. }
  unfold holding. rewrite Hfree. simpl.
  eexists _, tt, true. split; [done|]. rewrite view_insert_cpu by done. split; [|done].
  unfold calm. cbn [k_cpus k_locks put_locks put_cpus]. rewrite length_insert. split; [done|].
  rewrite list_lookup_total_insert_eq by done. unfold holding. rewrite fn_lookup_insert. simpl.
  by rewrite bool_decide_eq_true_2.
Qed.

Lemma returns_release c v e (Q : unit -> bool -> view -> E -> Prop) :
  Q tt false v e -> returns c true v e (release_l LPtable c) Q.
Proof.
  intros H s [Hlt (Hn & Hf & Hh)] <- <-. unfold release_l, on_lock, klift, release.
  rewrite Hh. simpl.
  destruct (popcli (k_cpus s !!! c)) as [x' []| | |] eqn:Ep;
    [|unfold popcli in Ep; rewrite Hf, Hn in Ep; done..].
  destruct (popcli_same _ _ Ep) as [Hp Hi].
  assert (c_ncli x' = 0) as Hn'.
  { unfold popcli in Ep. rewrite Hf in Ep. simpl in Ep. rewrite Hn in Ep. simpl in Ep.
    injection Ep as <-. by destruct (negb _). }
  eexists _, tt, false. split; [done|]. rewrite view_insert_cpu by done. split; [|done].
  unfold calm. cbn [k_cpus k_locks put_locks put_cpus]. rewrite length_insert. split; [done|].
  rewrite list_lookup_total_insert_eq by done. rewrite fn_lookup_insert. done.
Qed.

Lemma returns_getc c h v e (Q : cpu -> bool -> view -> E -> Prop) :
  (forall x, c_proc x = v_cur v !!! c ->
     (h = true -> c_ncli x = 1 /\ has (c_eflags x) FL_IF = false) -> Q x h v e) ->
  returns c h v e (getc c) Q.
Proof.
  intros H s Hc <- <-. exists s, (k_cpus s !!! c), h. split_and!; [done|done|].
  apply H; [apply cur_lookup|]. intros ->. destruct Hc as (_ & Hn & Hf & _). done.
Qed.

Lemma calm_modc c h (s : kst E) f :
  calm c h s -> (forall x, c_ncli (f x) = c_ncli x) -> (forall x, c_eflags (f x) = c_eflags x) ->
  calm c h (put_cpus (alter f c (k_cpus s)) s).
Proof.
  intros [Hlt Hc] Hn Hf. unfold calm. cbn [k_cpus k_locks put_cpus]. rewrite length_alter.
  split; [done|]. rewrite list_lookup_total_alter_eq by done. rewrite Hn, Hf. done.
Qed.

Lemma returns_modc c h v e f (Q : unit -> bool -> view -> E -> Prop) :
  (forall x, c_ncli (f x) = c_ncli x) -> (forall x, c_eflags (f x) = c_eflags x) ->
  (forall x, c_proc (f x) = c_proc x) -> (forall x, c_id (f x) = c_id x) ->
  Q tt h v e -> returns c h v e (modc c f) Q.
Proof.
  intros Hn Hf Hp Hi H s Hc Hv He. exists (put_cpus (alter f c (k_cpus s)) s), tt, h.
  split; [done|]. split; [by apply calm_modc|].
  pose proof (triple_modc (view_of s) c f (fun _ v' => v' = view_of s) Hp Hi eq_refl s eq_refl) as Ht.
  simpl in Ht. rewrite Ht. by subst.
Qed.

Lemma returns_set_proc c h v e o (Q : unit -> bool -> view -> E -> Prop) :
  Q tt h (vput_cur (alter (fun _ => o) c (v_cur v)) v) e -> returns c h v e (modc c (set_proc o)) Q.
Proof.
  intros H s Hc Hv He. exists (put_cpus (alter (set_proc o) c (k_cpus s)) s), tt, h.
  split; [done|]. split; [by apply calm_modc|].
  pose proof (triple_set_proc (view_of s) c o
    (fun _ v' => v' = vput_cur (alter (fun _ => o) c (v_cur (view_of s))) (view_of s)) eq_refl
    s eq_refl) as Ht.
  simpl in Ht. rewrite Ht. by subst.
Qed.
End Total.

Ltac rstep :=
  lazymatch goal with
  | |- returns _ _ _ _ (mbind _ _) _ => apply returns_bind
  | |- returns _ _ _ _ (mret _) _ => apply returns_ret
  | |- returns _ _ _ _ (acquire_l LPtable _) _ => apply returns_acquire
  | |- returns _ _ _ _ (release_l LPtable _) _ => apply returns_release
  | |- returns _ _ _ _ (getp _) _ => apply returns_getp
  | |- returns _ _ _ _ (modp _ _) _ => apply returns_modp
  | |- returns _ _ _ _ (wakeup1 _) _ => apply returns_wakeup1
  | |- returns _ _ _ _ (modc _ (set_proc _)) _ => apply returns_set_proc
  | |- returns _ _ _ _ (modc _ _) _ => apply returns_modc; [done|done|done|done|]
  end.
Ltac rsteps := repeat rstep; cbn beta in *.

Section Calls.
Context {E : Type} `{!ProcEnv E}.

Lemma returns_sched c v e k me (Q : unit -> bool -> view -> E -> Prop) :
  v_cur v !!! c = Some me -> p_state (v_procs v !!! me) <> RUNNING ->
  (forall n, Q tt true (sched_view c me (k n) v) e) ->
  returns c true v e (sched c k) Q.
Proof.
  intros Hcur Hst H. unfold sched. rsteps. apply returns_get. intros s Hs He Hcalm. rsteps.
  eapply returns_myproc; [done|]. rsteps. apply returns_getc. intros x Hx Hh.
  destruct (Hh eq_refl) as [Hn Hf]. destruct Hcalm as (_ & _ & _ & Hhold).
  rewrite Hhold, Hn, Hf. unfold is_state. rewrite bool_decide_eq_false_2 by done. simpl.
  rsteps. unfold scheduler_resume, switchkvm. rsteps. apply returns_get. intros s' _ _ _. rsteps. apply H.
Qed.

Lemma returns_sleep_ptable c v e ch k me (Q : unit -> bool -> view -> E -> Prop) :
  v_cur v !!! c = Some me -> (me < length (v_procs v))%nat ->
  (forall n, Q tt true (sched_view c me (KSleep n LPtable k)
     (vput_procs (alter (set_state SLEEPING) me (alter (set_chan ch) me (v_procs v))) v)) e) ->
  returns c true v e (sleep c ch LPtable k) Q.
Proof.
  intros Hcur Hlt H. unfold sleep. rsteps. apply returns_getc. intros x Hx _.
  rewrite Hx, Hcur. rsteps. rewrite decide_True by done. rsteps.
  eapply returns_sched; [done| |apply H]. vsimp.
  rewrite list_lookup_total_alter_eq by (by rewrite length_alter). done.
Qed.

(** The calls reaping a child makes, from environment [e] to [e']. *)
Definition reap_env (p : proc) : kernel E unit := env_kfree (p_kstack p);; env_freevm (p_pgdir p).

Lemma returns_reap c h v e e' i (Q : Z -> bool -> view -> E -> Prop) :
  reap_env (v_procs v !!! i) e = Done e' tt ->
  Q (p_pid (v_procs v !!! i)) h (vput_procs (alter reaped i (v_procs v)) v) e' ->
  returns c h v e (reap i) Q.
Proof.
  intros He H. unfold reap_env in He. apply bind_inv in He as (e1 & [] & H1 & H2).
  unfold reap. rsteps. eapply returns_env; [exact H1|]. rsteps. vsimp.
  eapply returns_env; [exact H2|]. rsteps. vsimp. by rewrite !list_alter_alter_eq.
Qed.

Definition turn_returns (c me : nat) (k : after) (pre : proc -> kernel E unit) (v : view) (e : E)
    (Q : option Z -> bool -> view -> E -> Prop) : Prop :=
  match first_zombie me (v_procs v) (seq 0 NPROC) with
  | Some i =>
      exists e', (pre (v_procs v !!! i);; reap_env (v_procs v !!! i)) e = Done e' tt /\
      Q (Some (p_pid (v_procs v !!! i))) false (vput_procs (alter reaped i (v_procs v)) v) e'
  | None =>
      if negb (has_child me (v_procs v) (seq 0 NPROC)) || negb (p_killed (v_procs v !!! me) =? 0)
      then Q (Some (-1)) false v e
      else forall n, Q None true (slept c me (KSleep n LPtable k) v) e
  end.

Definition scan_returns (me : nat) (l : list nat) (hk h : bool) (pre : proc -> kernel E unit)
    (v : view) (e : E) (Q : option Z * bool -> bool -> view -> E -> Prop) : Prop :=
  match first_zombie me (v_procs v) l with
  | Some i =>
      exists e', (pre (v_procs v !!! i);; reap_env (v_procs v !!! i)) e = Done e' tt /\
      Q (Some (p_pid (v_procs v !!! i)), true) h (vput_procs (alter reaped i (v_procs v)) v) e'
  | None => Q (None, hk || has_child me (v_procs v) l) h v e
  end.

Definition no_store : proc -> kernel E unit := fun _ => mret tt.
Definition store_times (me : nat) (t : list proc) (wt rt : Z) (p : proc) : kernel E unit :=
  env_store_int (p_pgdir (t !!! me)) wt (wait_time p);;
  env_store_int (p_pgdir (t !!! me)) rt (p_rtime p).

Lemma returns_wait_scan c h v e me l hk Q :
  scan_returns me l hk h no_store v e Q -> returns c h v e (wait_scan me l hk) Q.
Proof.
  revert hk. induction l as [|i l IH]; intros hk H; unfold scan_returns in *; cbn [wait_scan].
  - apply returns_ret. by rewrite orb_false_r in H.
  - rewrite first_zombie_cons in H. unfold zombie_child, is_state, has_child, is_child in *.
    cbn [existsb] in H. rsteps. destruct (decide (p_parent _ = Some me)) as [Hp|Hp].
    + rewrite (bool_decide_eq_true_2 (p_parent _ = _)) in H by done.
      destruct (bool_decide _) eqn:Hz; breflect.
      * rewrite decide_True in H by done. destruct H as (e' & He & H). rsteps.
        eapply returns_reap; [exact He|]. by rsteps.
      * apply IH. rewrite decide_False in H by naive_solver. by rewrite orb_true_r in H.
    + apply IH. by rewrite decide_False, bool_decide_eq_false_2 in H by naive_solver.
Qed.

Lemma returns_waitx_scan c h v e me wt rt l hk Q :
  scan_returns me l hk h (store_times me (v_procs v) wt rt) v e Q ->
  returns c h v e (waitx_scan me wt rt l hk) Q.
Proof.
  revert hk. induction l as [|i l IH]; intros hk H; unfold scan_returns in *; cbn [waitx_scan].
  - apply returns_ret. by rewrite orb_false_r in H.
  - rewrite first_zombie_cons in H. unfold zombie_child, is_state, has_child, is_child in *.
    cbn [existsb] in H. rsteps. destruct (decide (p_parent _ = Some me)) as [Hp|Hp].
    + rewrite (bool_decide_eq_true_2 (p_parent _ = _)) in H by done.
      destruct (bool_decide _) eqn:Hz; breflect.
      * rewrite decide_True in H by done. destruct H as (e' & He & H).
        apply bind_inv in He as (e2 & [] & He & Hr). unfold store_times in He.
        apply bind_inv in He as (e1 & [] & H1 & H2).
        rsteps. eapply returns_env; [exact H1|]. rsteps. eapply returns_env; [exact H2|]. rsteps.
        eapply returns_reap; [exact Hr|]. by rsteps.
      * apply IH. rewrite decide_False in H by naive_solver. by rewrite orb_true_r in H.
    + apply IH. by rewrite decide_False, bool_decide_eq_false_2 in H by naive_solver.
Qed.

Lemma returns_wait c v e me Q :
  v_cur v !!! c = Some me -> (me < length (v_procs v))%nat ->
  turn_returns c me AWait no_store v e Q -> returns c false v e (wait c) Q.
Proof.
  intros Hcur Hlt H. unfold wait, wait_turn. rsteps. eapply returns_myproc; [done|]. rsteps.
  apply returns_wait_scan. unfold scan_returns, turn_returns in *.
  destruct (first_zombie _ _ _) as [i|].
  - destruct H as (e' & He & H). exists e'. split; [done|]. by rsteps.
  - rewrite orb_false_l. rsteps. destruct (negb _ || negb _).
    + by rsteps.
    + rsteps. eapply returns_sleep_ptable; [done|done|]. intros n. rsteps. apply H.
Qed.

Lemma returns_waitx c v e me wt rt Q :
  v_cur v !!! c = Some me -> (me < length (v_procs v))%nat ->
  turn_returns c me (AWaitx wt rt) (store_times me (v_procs v) wt rt) v e Q ->
  returns c false v e (waitx c wt rt) Q.
Proof.
  intros Hcur Hlt H. unfold waitx, waitx_turn. rsteps. eapply returns_myproc; [done|]. rsteps.
  apply returns_waitx_scan. unfold scan_returns, turn_returns in *.
  destruct (first_zombie _ _ _) as [i|].
  - destruct H as (e' & He & H). exists e'. split; [done|]. by rsteps.
  - rewrite orb_false_l. rsteps. destruct (negb _ || negb _).
    + by rsteps.
    + rsteps. eapply returns_sleep_ptable; [done|done|]. intros n. rsteps. apply H.
Qed.

(** C12: waitx(wtime, rtime) returns.  With a zombie child it picks the first one in
    table order, stores that child's waiting and running time through the two
    pointers, frees its kernel stack and memory, clears its slot and returns its
    pid, leaving every other slot alone.  Without children, or when killed, it
    returns -1 and changes nothing.  Otherwise the caller sleeps on itself. *)
Theorem waitx_correct s c me wt rt :
  calm c false s -> c_proc (k_cpus s !!! c) = Some me -> (me < length (k_procs s))%nat ->
  match first_zombie me (k_procs s) (seq 0 NPROC) with
  | Some i =>
      let z := k_procs s !!! i in
      forall e',
        (env_store_int (p_pgdir (k_procs s !!! me)) wt (wait_time z);;
         env_store_int (p_pgdir (k_procs s !!! me)) rt (p_rtime z);;
         env_kfree (p_kstack z);; env_freevm (p_pgdir z)) (k_env s) = Done e' tt ->
        exists s', waitx c wt rt s = Done s' (Some (p_pid z)) /\ calm c false s' /\
          k_procs s' = alter reaped i (k_procs s) /\ k_env s' = e'
  | None =>
      if has_child me (k_procs s) (seq 0 NPROC) && (p_killed (k_procs s !!! me) =? 0) then
        exists s' n, waitx c wt rt s = Done s' None /\ calm c true s' /\
          c_proc (k_cpus s' !!! c) = None /\ k_env s' = k_env s /\
          k_procs s' = alter (fun p => set_context (KSleep n LPtable (AWaitx wt rt))
            (set_state SLEEPING (set_chan (CProc me) p))) me (k_procs s)
      else
        exists s', waitx c wt rt s = Done s' (Some (-1)) /\ calm c false s' /\
          k_procs s' = k_procs s /\ k_env s' = k_env s
  end.
Proof.
  intros Hcalm Hcur Hlt. rewrite cur_lookup in Hcur.
  destruct (first_zombie _ _ _) as [i|] eqn:Hz.
  - intros z e' He.
    destruct (returns_waitx c (view_of s) (k_env s) me wt rt
      (fun r h v' e'' => r = Some (p_pid z) /\ h = false /\
         v_procs v' = alter reaped i (k_procs s) /\ e'' = e') Hcur Hlt) with (s := s)
      as (s' & a & h & Hw & Hc & -> & -> & Hp & Hee); [|done..|eauto].
    unfold turn_returns. cbn [v_procs view_of]. rewrite Hz. exists e'. split; [|done].
    unfold store_times, reap_env. rewrite <- He. apply bind_assoc.
  - destruct (_ && _) eqn:Hb.
    + destruct (returns_waitx c (view_of s) (k_env s) me wt rt
        (fun r h v' e'' => r = None /\ h = true /\ e'' = k_env s /\
           exists n, v' = slept c me (KSleep n LPtable (AWaitx wt rt)) (view_of s)) Hcur Hlt)
        with (s := s) as (s' & a & h & Hw & Hc & -> & -> & He & n & Hv'); [|done..|].
      { unfold turn_returns. cbn [v_procs view_of]. rewrite Hz. breflect.
        rewrite H, H0. simpl. eauto. }
      exists s', n. split_and!; [done|done| |done|].
      * rewrite cur_lookup, Hv'. cbn [slept sched_view v_cur vput_cur].
        rewrite list_lookup_total_alter_eq; [done|].
        destruct Hcalm as [Hl _]. cbn. by rewrite length_fmap.
      * change (k_procs s') with (v_procs (view_of s')). rewrite Hv'.
        unfold slept, sched_view. vsimp. by rewrite !list_alter_alter_eq.
    + destruct (returns_waitx c (view_of s) (k_env s) me wt rt
        (fun r h v' e'' => r = Some (-1) /\ h = false /\ v' = view_of s /\ e'' = k_env s) Hcur Hlt)
        with (s := s) as (s' & a & h & Hw & Hc & -> & -> & Hv' & He); [|done..|].
      { unfold turn_returns. cbn [v_procs view_of]. rewrite Hz. rewrite <- negb_andb, Hb. done. }
      exists s'. split_and!; [done|done| |done]. by inversion Hv'.
Qed.

(** The result and the table (up to saved contexts) of wait() and of waitx(). *)
Definition wait_result (c me : nat) (t : list proc) : option Z * list proc :=
  match first_zombie me t (seq 0 NPROC) with
  | Some i => (Some (p_pid (t !!! i)), alter reaped i t)
  | None =>
      if has_child me t (seq 0 NPROC) && (p_killed (t !!! me) =? 0)
      then (None, alter (fun p => set_state SLEEPING (set_chan (CProc me) p)) me t)
      else (Some (-1), t)
  end.
Definition no_context (t : list proc) : list proc := set_context KForkret <$> t.

Lemma turn_result c me k pre v e :
  (forall i, first_zombie me (v_procs v) (seq 0 NPROC) = Some i -> exists e', (pre (v_procs v !!! i);; reap_env (v_procs v !!! i)) e = Done e' tt) ->
  turn_returns c me k pre v e (fun r _ v' _ => r = fst (wait_result c me (v_procs v)) /\
    no_context (v_procs v') = no_context (snd (wait_result c me (v_procs v)))).
Proof.
  intros Henv. unfold turn_returns, wait_result.
  destruct (first_zombie _ _ _) as [i|] eqn:Ez.
  - destruct (Henv i eq_refl) as [e' He]. by exists e'.
  - rewrite <- negb_andb. destruct (_ && _); simpl; [|done]. intros n. split; [done|].
    unfold slept, sched_view. vsimp. rewrite !list_alter_alter_eq. unfold no_context.
    apply list_eq. intros j. rewrite !list_lookup_fmap.
    destruct (decide (j = me)) as [->|Hne].
    + rewrite !list_lookup_alter_eq. destruct (v_procs v !! me); done.
    + by rewrite !list_lookup_alter_ne.
Qed.

(** C36: Apart from the two stores, waitx is wait.  From the same state both return,
    with the same value, and leave the same process table up to the context a
    sleeping caller resumes in.  If there is a zombie child to collect, it must be
    possible to free its stack and memory, and for waitx to store its times
    through the two pointers first: a kernel in which a pointer is not mapped
    panics in the store. *)
Theorem waitx_agrees_with_wait s c me wt rt :
  calm c false s -> c_proc (k_cpus s !!! c) = Some me -> (me < length (k_procs s))%nat ->
  (forall i, first_zombie me (k_procs s) (seq 0 NPROC) = Some i ->
     let z := k_procs s !!! i in
     (exists e1, (env_kfree (p_kstack z);; env_freevm (p_pgdir z)) (k_env s) = Done e1 tt) /\
     (exists e2, (env_store_int (p_pgdir (k_procs s !!! me)) wt (wait_time z);;
        env_store_int (p_pgdir (k_procs s !!! me)) rt (p_rtime z);;
        env_kfree (p_kstack z);; env_freevm (p_pgdir z)) (k_env s) = Done e2 tt)) ->
  exists s1 s2 r, wait c s = Done s1 r /\ waitx c wt rt s = Done s2 r /\
    no_context (k_procs s1) = no_context (k_procs s2).
Proof.
  intros Hcalm Hcur Hlt Henv. rewrite cur_lookup in Hcur.
  destruct (returns_wait c (view_of s) (k_env s) me _ Hcur Hlt
    (turn_result c me AWait no_store (view_of s) (k_env s)
      ltac:(intros i Hi; destruct (Henv i Hi) as [[e1 H1] _]; by exists e1)) s Hcalm eq_refl eq_refl)
    as (s1 & r1 & h1 & H1 & _ & E1 & T1).
  destruct (returns_waitx c (view_of s) (k_env s) me wt rt _ Hcur Hlt
    (turn_result c me (AWaitx wt rt) (store_times me (k_procs s) wt rt) (view_of s) (k_env s)
      ltac:(intros i Hi; destruct (Henv i Hi) as [_ [e2 H2]]; exists e2; rewrite <- H2; apply bind_assoc)) s Hcalm eq_refl eq_refl)
    as (s2 & r2 & h2 & H2 & _ & E2 & T2).
  exists s1, s2, r1. split_and!; [done|congruence|]. cbn [view_of v_procs] in T1, T2. congruence.
Qed.

(** kill(pid) returns: the first slot holding that pid is marked killed, and made
    runnable if it was asleep; no other slot changes.  Without such a slot the
    result is -1 and the table is unchanged. *)
Theorem kill_correct (s : kst E) c pid :
  calm c false s ->
  exists s' : kst E, calm c false s' /\ k_env s' = k_env s /\
    match find_index (fun p => p_pid p =? pid) (k_procs s) with
    | Some i => kill c pid s = Done s' 0 /\ k_procs s' = alter killed_row i (k_procs s)
    | None => kill c pid s = Done s' (-1) /\ k_procs s' = k_procs s
    end.
Proof.
  intros Hcalm.
  assert (returns c false (view_of s) (k_env s) (kill c pid) (fun r h v' e' => h = false /\
    e' = k_env s /\ match find_index (fun p => p_pid p =? pid) (k_procs s) with
      | Some i => r = 0 /\ v_procs v' = alter killed_row i (k_procs s)
      | None => r = -1 /\ v_procs v' = k_procs s
      end)) as H.
  { unfold kill. rsteps. apply returns_get. intros s' Hs' _ _.
    assert (k_procs s' = k_procs s) as -> by (by inversion Hs').
    destruct (find_index _ _); rsteps; [|done]. vsimp. by rewrite list_alter_alter_eq. }
  destruct (H s Hcalm eq_refl eq_refl) as (s' & r & h & Hk & Hc & -> & He & Hm).
  exists s'. split_and!; [done|done|]. destruct (find_index _ _); destruct Hm as [-> Hp]; done.
Qed.

(** ** fork() *)
Fixpoint dup_env (fds : list Z) : kernel E unit :=
  match fds with
  | [] => mret tt
  | f :: fds' => (if f =? 0 then mret tt else env_filedup f);; dup_env fds'
  end.

Lemma returns_dup_files c h v e e' np fds i (Q : unit -> bool -> view -> E -> Prop) :
  dup_env fds e = Done e' tt ->
  Q tt h (vput_procs (alter (fun p => set_ofile (merge_ofile fds i (p_ofile p)) p) np (v_procs v)) v) e' ->
  returns c h v e (dup_files np fds i) Q.
Proof.
  revert v e i. induction fds as [|f fds IH]; intros v e i He H; cbn [dup_files merge_ofile dup_env] in *.
  - apply returns_ret. rewrite list_alter_id in H by (intros; apply set_ofile_eta).
    injection He as <-. by destruct v.
  - apply bind_inv in He as (e1 & [] & H1 & H2). rsteps. destruct (f =? 0).
    + injection H1 as <-. rsteps. by eapply IH.
    + rsteps. eapply returns_env; [exact H1|]. rsteps. eapply IH; [exact H2|]. vsimp.
      rewrite list_alter_alter_eq. exact H.
Qed.

Lemma returns_nextpid c h v e f (Q : unit -> bool -> view -> E -> Prop) :
  Q tt h (vput_nextpid (f (v_nextpid v)) v) e ->
  returns c h v e (kmodify (fun s => put_nextpid (f (k_nextpid s)) s)) Q.
Proof. intros H s Hc <- <-. exists (put_nextpid (f (k_nextpid s)) s), tt, h. done. Qed.

Lemma returns_ticks c h v e (Q : Z -> bool -> view -> E -> Prop) :
  Q (v_ticks v) h v e -> returns c h v e (kgets k_ticks) Q.
Proof. intros H s Hc <- <-. exists s, (k_ticks s), h. done. Qed.

(** allocproc(): what the free slot becomes. *)
Lemma returns_allocproc c v e (Q : option nat -> bool -> view -> E -> Prop) :
  match find_index (is_state UNUSED) (v_procs v) with
  | None => Q None false v e
  | Some i =>
      exists e1 ks, env_kalloc e = Done e1 ks /\
      if ks =? 0
      then Q None false (vput_nextpid (s32 (v_nextpid v + 1))
             (vput_procs (alter (failed_embryo (v_nextpid v)) i (v_procs v)) v)) e1
      else Q (Some i) false (vput_nextpid (s32 (v_nextpid v + 1))
             (vput_procs (alter (embryo (v_nextpid v) (v_ticks v) ks) i (v_procs v)) v)) e1
  end -> returns c false v e (allocproc c) Q.
Proof.
  intros H. unfold allocproc. rsteps. apply returns_get. intros s Hs _ _.
  assert (k_procs s = v_procs v) as -> by (by subst v).
  assert (k_nextpid s = v_nextpid v) as -> by (by subst v).
  destruct (find_index _ _) as [i|]; [|by rsteps]. destruct H as (e1 & ks & He & H).
  rsteps. apply (returns_nextpid _ _ _ _ (fun n => s32 (n + 1))). rsteps.
  eapply returns_env; [exact He|]. rsteps. destruct (ks =? 0) eqn:Hk; breflect.
  - subst ks. rsteps. vsimp. by rewrite !list_alter_alter_eq.
  - rsteps. apply returns_ticks. rsteps. vsimp. by rewrite !list_alter_alter_eq.
Qed.

(** What fork() does when [i] is the first free slot. *)
Definition fork_returns (me i : nat) (v : view) (e : E) (Q : Z -> bool -> view -> E -> Prop) : Prop :=
  let p := v_procs v !!! me in
  let w f := vput_nextpid (s32 (v_nextpid v + 1)) (vput_procs (alter f i (v_procs v)) v) in
  exists e1 ks, env_kalloc e = Done e1 ks /\
  let em := embryo (v_nextpid v) (v_ticks v) ks in
  if ks =? 0 then Q (-1) false (w (failed_embryo (v_nextpid v))) e1
  else exists e2 pg, env_copyuvm (p_pgdir p) (p_sz p) e1 = Done e2 pg /\
  if pg =? 0 then
    exists e3, env_kfree ks e2 = Done e3 tt /\ Q (-1) false (w (fun q => fork_failed (em q))) e3
  else
    exists e3, (dup_env (p_ofile p);; env_idup (p_cwd p)) e2 = Done e3 tt /\
    Q (v_nextpid v) false (w (fun q => forked me p pg (em q))) e3.

Lemma returns_fork c v e me i Q :
  v_cur v !!! c = Some me -> p_state (v_procs v !!! me) <> UNUSED ->
  find_index (is_state UNUSED) (v_procs v) = Some i ->
  fork_returns me i v e Q -> returns c false v e (fork c) Q.
Proof.
  intros Hcur Hst Hf (e1 & ks & He1 & H). pose proof (find_index_lt _ _ _ Hf) as Hlt.
  assert (me <> i) as Hne.
  { intros ->. apply find_index_Some in Hf as [(q & Hq & Hu) _]. unfold is_state in Hu. breflect.
    by rewrite (list_lookup_total_correct _ _ _ Hq) in Hst. }
  unfold fork. rstep. apply returns_allocproc. rewrite Hf. exists e1, ks. split; [done|].
  cbn beta zeta in H. destruct (ks =? 0) eqn:Hk; [by rsteps|]. destruct H as (e2 & pg & He2 & H).
  rsteps. apply (returns_myproc _ _ _ _ me); [done|]. rsteps. vsimp.
  rewrite (list_lookup_total_alter_ne _ _ i me) by done.
  eapply returns_env; [exact He2|]. rsteps. destruct (pg =? 0) eqn:Hpg; breflect.
  - subst pg. destruct H as (e3 & He3 & H). rsteps. vsimp.
    rewrite list_lookup_total_alter_eq by (by rewrite length_alter). rewrite list_lookup_total_alter_eq by done.
    eapply returns_env; [exact He3|]. rsteps. vsimp. by rewrite !list_alter_alter_eq.
  - destruct H as (e3 & He3 & H). apply bind_inv in He3 as (e4 & [] & Hd & Hi). rsteps. vsimp.
    eapply returns_dup_files; [exact Hd|]. rsteps. eapply returns_env; [exact Hi|]. rsteps. vsimp.
    repeat rewrite list_alter_alter_eq in *.
    rewrite (list_lookup_total_alter_eq _ _ i) by done. unfold compose. rewrite copy_name_pid.
    erewrite list_alter_ext; [exact H| |reflexivity].
    intros x _. unfold compose, forked. rewrite set_tf_set_tf. psimp. reflexivity.
Qed.

(** C21: fork() returns.  With no free slot it changes nothing and returns -1; without
    memory for a kernel stack or for the copied address space the slot is free
    again and the result is -1; otherwise the first free slot holds a runnable
    copy of the caller (its size, files, directory, name and trap frame with
    %eax = 0) whose parent is the caller, and the result is its fresh pid. *)
Theorem fork_correct (s : kst E) c me :
  calm c false s -> c_proc (k_cpus s !!! c) = Some me ->
  p_state (k_procs s !!! me) <> UNUSED ->
  let p := k_procs s !!! me in
  let pid := k_nextpid s in
  match find_index (is_state UNUSED) (k_procs s) with
  | None => exists s', fork c s = Done s' (-1) /\ k_procs s' = k_procs s /\ k_env s' = k_env s
  | Some i =>
      forall e1 ks, env_kalloc (k_env s) = Done e1 ks ->
      let em := embryo pid (k_ticks s) ks in
      if ks =? 0 then
        exists s', fork c s = Done s' (-1) /\ k_procs s' = alter (failed_embryo pid) i (k_procs s) /\
          k_env s' = e1
      else forall e2 pg, env_copyuvm (p_pgdir p) (p_sz p) e1 = Done e2 pg ->
      if pg =? 0 then
        forall e3, env_kfree ks e2 = Done e3 tt ->
        exists s', fork c s = Done s' (-1) /\ k_env s' = e3 /\
          k_procs s' = alter (fun q => fork_failed (em q)) i (k_procs s)
      else
        forall e3, (dup_env (p_ofile p);; env_idup (p_cwd p)) e2 = Done e3 tt ->
        exists s', fork c s = Done s' pid /\ k_env s' = e3 /\ k_nextpid s' = s32 (pid + 1) /\
          k_procs s' = alter (fun q => forked me p pg (em q)) i (k_procs s)
  end.
Proof.
  intros Hcalm Hcur Hst p pid. rewrite cur_lookup in Hcur.
  destruct (find_index _ _) as [i|] eqn:Hf.
  2: { assert (returns c false (view_of s) (k_env s) (fork c)
         (fun r _ v' e' => r = -1 /\ v_procs v' = k_procs s /\ e' = k_env s)) as H.
       { unfold fork. rsteps. apply returns_allocproc. cbn [v_procs view_of]. rewrite Hf. by rsteps. }
       destruct (H s Hcalm eq_refl eq_refl) as (s' & r & h & Hd & _ & -> & Hp & He). eauto. }
  intros e1 ks He1 em.
  set (R := fun (r : Z) t (e : E) => fun r' (_ : bool) v' e' => r' = r /\ v_procs v' = t /\ e' = e /\
    v_nextpid v' = s32 (pid + 1)).
  assert (forall r t e, fork_returns me i (view_of s) (k_env s) (R r t e) ->
    exists s', fork c s = Done s' r /\ k_procs s' = t /\ k_env s' = e /\
      k_nextpid s' = s32 (pid + 1)) as Hgo.
  { intros r t e H.
    destruct (returns_fork c (view_of s) (k_env s) me i _ Hcur Hst Hf H s Hcalm eq_refl eq_refl)
      as (s' & r' & h & Hd & _ & -> & Hp & He & Hn). eauto 6. }
  destruct (ks =? 0) eqn:Hk.
  - destruct (Hgo (-1) (alter (failed_embryo pid) i (k_procs s)) e1) as (s' & ? & ? & ? & _); [|eauto].
    exists e1, ks. rewrite Hk. done.
  - intros e2 pg He2. destruct (pg =? 0) eqn:Hpg; intros e3 He3.
    + destruct (Hgo (-1) (alter (fun q => fork_failed (em q)) i (k_procs s)) e3)
        as (s' & ? & ? & ? & _); [|eauto].
      exists e1, ks. rewrite Hk. split; [done|]. exists e2, pg. rewrite Hpg. split; [done|]. by exists e3.
    + destruct (Hgo pid (alter (fun q => forked me p pg (em q)) i (k_procs s)) e3)
        as (s' & ? & ? & ? & ?); [|eauto].
      exists e1, ks. rewrite Hk. split; [done|]. exists e2, pg. rewrite Hpg. split; [done|]. by exists e3.
Qed.
End Calls.
