(* ===== verification/ProcRun.v ===== *)
(** * Concrete runs of the process subsystem

    An environment that always succeeds and records the integers stored in
    user memory, a two-CPU machine, and an interpreter of schedules; the
    theorems about reachable states are instantiated on the states it
    computes. *)

From S2P Require Import Prelude Params CString Spinlock Proc ProcSpec ProcInv ProcStep ProcTime ProcTotal.

(** ** An environment *)
Definition stores : Type := list (Z * Z * Z).
#[local] Instance stores_env : ProcEnv stores := {|
  env_kalloc := mret 4096;
  env_kfree := fun _ => mret tt;
  env_setupkvm := mret 8192;
  env_inituvm := fun _ => mret tt;
  env_copyuvm := fun _ _ => mret 8192;
  env_freevm := fun _ => mret tt;
  env_allocuvm := fun _ _ n => mret n;
  env_deallocuvm := fun _ _ n => mret n;
  env_store_int := fun pg a x e => Done ((pg, a, x) :: e) tt;
  env_filedup := fun _ => mret tt;
  env_fileclose := fun _ => mret [];
  env_idup := fun _ => mret tt;
  env_iput := fun _ => mret [];
  env_namei_root := mret 1;
  env_fsinit := mret tt;
  env_intr := fun _ => mret []
|}.

Definition machine : kst stores :=
  mkKst (replicate NPROC proc0) None 1 0 (fun _ => initlock "")
    [mkCpu 0 0 0 0 None 0 0 0; mkCpu 1 0 0 0 None 0 0 0] 4096 true [].

(** ** Schedules *)
Inductive act : Type :=
| Call (c : nat) (op : kop)
| Top (c : nat)
| Dispatch (c : nat).

Definition enabled (s : kst stores) (c : nat) (op : kop) : bool :=
  let running := bool_decide (c_proc (k_cpus s !!! c) <> None) in
  match op with
  | OTrap _ | OWakeup _ => true
  | OFork => running && (k_nextpid s + 1 <? 2 ^ 31)
  | OSleep ch _ => running && match ch with CProc _ => false | _ => true end
  | _ => running
  end.
Definition idle (s : kst stores) (c : nat) : bool :=
  match k_cpus s !! c with Some x => bool_decide (c_proc x = None) | None => false end.

Definition done (o : outcome (kst stores) unit) : option (kst stores) :=
  match o with Done s _ => Some s | _ => None end.

Definition run_act (a : act) (s : kst stores) : option (kst stores) :=
  match a with
  | Call c op => if enabled s c op then done (run_op c op s) else None
  | Top c => if idle s c then done (scheduler_top c s) else None
  | Dispatch c => if idle s c then done (dispatch c s) else None
  end.

Fixpoint run (l : list act) (s : kst stores) : option (kst stores) :=
  match l with
  | [] => Some s
  | a :: l' => match run_act a s with Some s' => run l' s' | None => None end
  end.

(** A machine that has booted and then run a schedule. *)
Definition boot_run (l : list act) : option (kst stores) :=
  match done (userinit 0 machine) with Some s => run l s | None => None end.

Lemma done_Some o s : done o = Some s -> o = Done s tt.
Proof. destruct o as [s' []| | |]; naive_solver. Qed.

Lemma run_act_kstep a s s' : run_act a s = Some s' -> kstep s s'.
Proof.
  destruct a as [c op|c|c]; cbn [run_act].
  - destruct (enabled s c op) eqn:He; [|done]. intros H. apply done_Some in H.
    eapply K_op; [|exact H]. destruct op; cbn [enabled op_enabled] in *; breflect; try done.
    split; [done|]. intros j ->. done.
  - unfold idle. destruct (k_cpus s !! c) as [x|] eqn:Hx; [|done].
    destruct (bool_decide _) eqn:Hp; [|done]. breflect. intros H. apply done_Some in H. by eapply K_top.
  - unfold idle. destruct (k_cpus s !! c) as [x|] eqn:Hx; [|done].
    destruct (bool_decide _) eqn:Hp; [|done]. breflect. intros H. apply done_Some in H.
    by eapply K_dispatch.
Qed.

Lemma machine_boot : boot machine.
Proof. split_and!; try reflexivity. repeat constructor. Qed.

Lemma run_reach l s s' : reach s -> run l s = Some s' -> reach s'.
Proof.
  revert s. induction l as [|a l IH]; intros s Hs; cbn [run].
  - by intros [= <-].
  - destruct (run_act a s) as [s1|] eqn:H1; [|done]. apply IH.
    eapply R_step; [exact Hs|by apply run_act_kstep in H1].
Qed.

Lemma boot_run_reach l s : boot_run l = Some s -> reach s.
Proof.
  unfold boot_run. destruct (done (userinit 0 machine)) as [s0|] eqn:H0; [|by intros].
  apply run_reach. eapply R_boot; [apply machine_boot|]. by apply done_Some in H0.
Qed.

(** Runs with the tallies of ProcTime. *)
Fixpoint run_timed (l : list act) (s : kst stores) (g : tallies) : option (kst stores * tallies) :=
  match l with
  | [] => Some (s, g)
  | a :: l' =>
      match run_act a s with
      | Some s' => run_timed l' s' (tally (view_of s) (view_of s') g)
      | None => None
      end
  end.
Definition boot_run_timed (l : list act) : option (kst stores * tallies) :=
  match done (userinit 0 machine) with Some s => run_timed l s (fun _ => (0, 0)) | None => None end.

Lemma boot_run_timed_sound l s g : boot_run_timed l = Some (s, g) -> timed s g.
Proof.
  unfold boot_run_timed. destruct (done (userinit 0 machine)) as [s0|] eqn:H0; [|by intros].
  assert (timed s0 (fun _ => (0, 0))) as Ht.
  { eapply T_boot; [apply machine_boot| |by apply done_Some in H0].
    repeat constructor; set_solver. }
  clear H0. revert s0 Ht. generalize (fun _ : Z => (0, 0)).
  induction l as [|a l IH]; intros g0 s0 Ht; cbn [run_timed].
  - by intros [= <- <-].
  - destruct (run_act a s0) as [s1|] eqn:H1; [|done]. apply IH.
    apply T_step; [exact Ht|by apply run_act_kstep in H1].
Qed.

(** ** Schedules used below *)
Definition timer_tf : trapframe := mkTf 0 0 0 0 0 0 0 0 0 0 0 0 32 0 0 0x1b 0 0 0.
Definition tick (c : nat) : act := Call c (OTrap timer_tf).

(** init forks a child, which CPU 1 runs. *)
Definition two_running : list act := [Top 0; Dispatch 0; Call 0 OFork; Top 1; Dispatch 1].
(** init goes to sleep in wait() while the child runs. *)
Definition init_waits : list act := two_running ++ [Call 0 OWait].
(** The child exits while init runs. *)
Definition child_exits : list act := two_running ++ [Call 1 OExit; Dispatch 1].
(** The clock ticks with the child on CPU 1, then with CPU 0 idle, then with the
    child on CPU 0, where it exits; init is asleep in wait() from the second on. *)
Definition ticking : list act :=
  two_running ++ [tick 0; Dispatch 0; Top 0; Dispatch 0; Call 0 OWait; Dispatch 0; tick 0;
    tick 1; Dispatch 1; Top 0; Dispatch 0; tick 0; Dispatch 0; Top 0; Dispatch 0; Call 0 OExit].

Definition state_after (l : list act) : kst stores := default machine (boot_run l).
Definition ran (l : list act) : bool := match boot_run l with Some _ => true | None => false end.

Lemma state_after_reach l : ran l = true -> reach (state_after l).
Proof.
  unfold ran, state_after. intros H. apply (boot_run_reach l). by destruct (boot_run l).
Qed.

Lemma ran_two : ran two_running = true /\ ran init_waits = true /\ ran child_exits = true /\
  ran ticking = true.
Proof. split_and!; vm_compute; reflexivity. Qed.

Definition timed_after (l : list act) : kst stores * tallies :=
  default (machine, fun _ => (0, 0)) (boot_run_timed l).
Lemma timed_after_sound l :
  match boot_run_timed l with Some _ => true | None => false end = true -> timed (timed_after l).1 (timed_after l).2.
Proof.
  unfold timed_after. intros H. apply (boot_run_timed_sound l).
  destruct (boot_run_timed l) as [[s g]|]; done.
Qed.

(** ** Instances of the theorems *)
Lemma kernel_refines_process_table_witness :
  exists s', run_act (Call 1 OExit) (state_after two_running) = Some s' /\
    rtc astep (view_of (state_after two_running)) (view_of s').
Proof.
  destruct (run_act (Call 1 OExit) (state_after two_running)) as [s'|] eqn:H.
  - exists s'. split; [done|]. apply kernel_refines_process_table.
    + apply state_after_reach, ran_two.
    + by apply run_act_kstep in H.
  - vm_compute in H. discriminate H.
Defined.

Lemma running_iff_on_one_cpu_witness :
  p_state (k_procs (state_after two_running) !!! 1%nat) = RUNNING <->
  exists c, c_proc (k_cpus (state_after two_running) !!! c) = Some 1%nat.
Proof.
  apply (running_iff_on_one_cpu (state_after two_running) 1). apply state_after_reach, ran_two.
Defined.

Lemma pids_unique_witness :
  1 <= p_pid (k_procs (state_after two_running) !!! 1%nat) < k_nextpid (state_after two_running).
Proof.
  refine (proj1 (pids_unique (state_after two_running) 1 0 _ (k_procs (state_after two_running) !!! 0%nat)
    _ _ _ _ _)).
  - apply state_after_reach, ran_two.
  - vm_compute. reflexivity.
  - vm_compute. reflexivity.
  - vm_compute. discriminate.
  - vm_compute. discriminate.
Defined.

Lemma wait_no_lost_wakeup_witness :
  exists k q, k_procs (state_after init_waits) !! k = Some q /\ p_parent q = Some 0%nat.
Proof.
  refine (proj1 (proj2 (wait_no_lost_wakeup (state_after init_waits) 0
    (k_procs (state_after init_waits) !!! 0%nat) 0 _ _ _ _))).
  - apply state_after_reach, ran_two.
  - vm_compute. reflexivity.
  - vm_compute. reflexivity.
  - vm_compute. reflexivity.
Defined.

Lemma parents_alive_witness :
  1%nat <> 0%nat /\ exists q, k_procs (state_after child_exits) !! 0%nat = Some q /\ live (p_state q).
Proof.
  assert (k_procs (state_after child_exits) !! 1%nat =
          Some (k_procs (state_after child_exits) !!! 1%nat)) as Hp by (vm_compute; reflexivity).
  pose proof (parents_alive (state_after child_exits) 1 _
    (state_after_reach child_exits (proj1 (proj2 (proj2 ran_two)))) Hp) as H.
  replace (p_parent (k_procs (state_after child_exits) !!! 1%nat)) with (Some 0%nat) in H
    by (vm_compute; reflexivity).
  destruct H as (H1 & _ & H2). exact (conj H1 H2).
Defined.

Lemma iotime_always_zero_witness : p_iotime (k_procs (state_after ticking) !!! 1%nat) = 0.
Proof.
  apply (iotime_always_zero (state_after ticking) 1).
  - apply state_after_reach, ran_two.
  - vm_compute. reflexivity.
Defined.

(** The child's lifetime is three ticks, one of them on CPU 0. *)
Lemma process_times_witness :
  let p := k_procs (timed_after ticking).1 !!! 1%nat in
  p_state p = ZOMBIE /\ p_rtime p = 1 /\ wait_time p = 2.
Proof.
  intros p. destruct (process_times (timed_after ticking).1 (timed_after ticking).2 1 p) as (_ & H & _).
  - apply timed_after_sound. vm_compute. reflexivity.
  - vm_compute. reflexivity.
  - assert (p_state p = ZOMBIE) as Hz by (vm_compute; reflexivity).
    destruct (H Hz) as [Hr Hw]. split; [exact Hz|]. rewrite Hr, Hw. split; vm_compute; reflexivity.
Defined.

(** init, running on CPU 0, calls waitx with a zombie child. *)
Lemma waitx_correct_witness :
  exists s', waitx 0 100 104 (state_after child_exits) = Done s' (Some 2) /\
    k_env s' = [(8192, 104, 0); (8192, 100, 0)].
Proof.
  pose proof (waitx_correct (state_after child_exits) 0 0 100 104
    ltac:(vm_compute; split; [lia|split; reflexivity]) ltac:(vm_compute; reflexivity)
    ltac:(vm_compute; lia)) as H.
  replace (first_zombie 0 (k_procs (state_after child_exits)) (seq 0 NPROC)) with (Some 1%nat) in H
    by (vm_compute; reflexivity).
  destruct (H [(8192, 104, 0); (8192, 100, 0)] ltac:(vm_compute; reflexivity)) as (s' & Hw & _ & _ & He).
  exists s'. split; [|exact He]. exact Hw.
Defined.

Lemma kill_correct_witness :
  exists s', kill 0 2 (state_after two_running) = Done s' 0.
Proof.
  destruct (kill_correct (state_after two_running) 0 2) as (s' & _ & _ & H).
  - vm_compute. split; [lia|split; reflexivity].
  - exists s'.
    replace (find_index (fun p => p_pid p =? 2) (k_procs (state_after two_running))) with (Some 1%nat) in H
      by (vm_compute; reflexivity).
    exact (proj1 H).
Defined.

Lemma fork_correct_witness :
  exists s', fork 0 (state_after two_running) = Done s' 3.
Proof.
  pose proof (fork_correct (state_after two_running) 0 0 ltac:(vm_compute; split; [lia|split; reflexivity])
    ltac:(vm_compute; reflexivity) ltac:(vm_compute; discriminate)) as H. cbv zeta in H.
  replace (find_index (is_state UNUSED) (k_procs (state_after two_running))) with (Some 2%nat) in H
    by (vm_compute; reflexivity).
  specialize (H [] 4096 ltac:(vm_compute; reflexivity)). cbv iota beta in H.
  replace (4096 =? 0) with false in H by reflexivity.
  specialize (H [] 8192 ltac:(vm_compute; reflexivity)).
  replace (8192 =? 0) with false in H by reflexivity.
  destruct (H [] ltac:(vm_compute; reflexivity)) as (s' & Hf & _). exists s'.
  replace (k_nextpid (state_after two_running)) with 3 in Hf by (vm_compute; reflexivity). exact Hf.
Defined.
