(* ===== verification/Pipe.v ===== *)
(** * Pipes (pipe.c)

    The ring buffer with its free-running 32-bit counters; pipewrite and
    piperead as the turns a process runs under the pipe's lock, from entry or
    wakeup to its return or its next sleep.  Then any number of readers and
    writers interleaving their turns, with closing ends and kills: the bytes
    read are the bytes written, in order, and nobody sleeps in vain. *)

From S2P Require Import Prelude.

Definition PIPESIZE : Z := 512.

Record pipe : Type := mkPipe {
  pi_data : list Z;
  pi_nread : Z;        (** number of bytes read *)
  pi_nwrite : Z;       (** number of bytes written *)
  pi_readopen : Z;     (** read fd is still open *)
  pi_writeopen : Z     (** write fd is still open *)
}.

(** pipealloc's initialisation of a page that kalloc returned. *)
Definition pipe_init (page : list Z) : pipe := mkPipe page 0 0 1 1.

(** p->data[p->nwrite++ % PIPESIZE] = b *)
Definition put_byte (b : Z) (p : pipe) : pipe :=
  mkPipe (<[Z.to_nat (pi_nwrite p mod PIPESIZE) := b]> (pi_data p)) (pi_nread p)
         (u32 (pi_nwrite p + 1)) (pi_readopen p) (pi_writeopen p).

(** p->data[p->nread++ % PIPESIZE] *)
Definition get_byte (p : pipe) : Z * pipe :=
  (pi_data p !!! Z.to_nat (pi_nread p mod PIPESIZE),
   mkPipe (pi_data p) (u32 (pi_nread p + 1)) (pi_nwrite p) (pi_readopen p) (pi_writeopen p)).

(** Which sleepers a call wakes. *)
Inductive waker : Set := WakeReaders | WakeWriters.

(** How a turn of pipewrite ends: with the value it returns or asleep on
    &p->nwrite; [rest] are the bytes addr[i], ..., addr[n-1] not stored. *)
Inductive wresult : Type := WRet (v : Z) (rest : list Z) | WSleep (rest : list Z).
Definition unsent (r : wresult) : list Z := match r with WRet _ rest | WSleep rest => rest end.

Fixpoint pipewrite_turn (killed : bool) (n : Z) (addr : list Z) (p : pipe)
  : pipe * list waker * wresult :=
  match addr with
  | [] => (p, [WakeReaders], WRet n [])
  | b :: rest =>
      if pi_nwrite p =? u32 (pi_nread p + PIPESIZE) then
        if (pi_readopen p =? 0) || killed then (p, [], WRet (-1) addr)
        else (p, [WakeReaders], WSleep addr)
      else pipewrite_turn killed n rest (put_byte b p)
  end.

(** for(i = 0; i < n; i++){ if(p->nread == p->nwrite) break; ... } *)
Fixpoint pipe_copy (n : nat) (p : pipe) : list Z * pipe :=
  match n with
  | O => ([], p)
  | S n' =>
      if pi_nread p =? pi_nwrite p then ([], p)
      else let '(b, p1) := get_byte p in
           let '(l, p2) := pipe_copy n' p1 in (b :: l, p2)
  end.

(** How a turn of piperead ends: its return value and the bytes stored at
    addr, or asleep on &p->nread. *)
Inductive rresult : Type := RRet (v : Z) (got : list Z) | RSleep.

Definition piperead_turn (killed : bool) (n : Z) (p : pipe) : pipe * list waker * rresult :=
  if (pi_nread p =? pi_nwrite p) && negb (pi_writeopen p =? 0) then
    if killed then (p, [], RRet (-1) []) else (p, [], RSleep)
  else
    let '(l, p') := pipe_copy (Z.to_nat n) p in
    (p', [WakeWriters], RRet (Z.of_nat (length l)) l).

(** pipeclose: whether the page is freed *)
Definition pipeclose (writable : bool) (p : pipe) : pipe * list waker * bool :=
  let '(p', w) :=
    if writable
    then (mkPipe (pi_data p) (pi_nread p) (pi_nwrite p) (pi_readopen p) 0, [WakeReaders])
    else (mkPipe (pi_data p) (pi_nread p) (pi_nwrite p) 0 (pi_writeopen p), [WakeWriters]) in
  (p', w, (pi_readopen p' =? 0) && (pi_writeopen p' =? 0)).

(** ** The queue a pipe represents *)
Definition count (p : pipe) : nat := Z.to_nat (u32 (pi_nwrite p - pi_nread p)).
Definition at_pos (p : pipe) (k : nat) : Z :=
  pi_data p !!! Z.to_nat ((pi_nread p + Z.of_nat k) mod PIPESIZE).
Definition contents (p : pipe) : list Z := at_pos p <$> seq 0 (count p).

Record pipe_ok (p : pipe) : Prop := mkPipeOk {
  ok_data : length (pi_data p) = Z.to_nat PIPESIZE;
  ok_nread : 0 <= pi_nread p < 2 ^ 32;
  ok_nwrite : 0 <= pi_nwrite p < 2 ^ 32;
  ok_count : Z.of_nat (count p) <= PIPESIZE
}.

Lemma length_contents p : length (contents p) = count p.
Proof. unfold contents. by rewrite length_fmap, length_seq. Qed.

Lemma pipe_init_ok page : length page = Z.to_nat PIPESIZE ->
  pipe_ok (pipe_init page) /\ contents (pipe_init page) = [].
Proof. intros H. split; [|done]. split; done || (simpl; lia). Qed.

Lemma count_Z p : Z.of_nat (count p) = u32 (pi_nwrite p - pi_nread p).
Proof. unfold count. rewrite Z2Nat.id; [done|]. apply u32_range. Qed.

(** The tests of the code say what they mean, across the counters' wrap-around. *)
Lemma full_iff p : pipe_ok p ->
  (pi_nwrite p =? u32 (pi_nread p + PIPESIZE)) = true <-> Z.of_nat (count p) = PIPESIZE.
Proof.
  intros [_ Hr Hw _]. rewrite Z.eqb_eq, count_Z. unfold u32, PIPESIZE in *. split; intros H.
  - rewrite H. rewrite Zminus_mod_idemp_l. replace (pi_nread p + 512 - pi_nread p) with 512 by lia. done.
  - rewrite <- H, Zplus_mod_idemp_r.
    replace (pi_nread p + (pi_nwrite p - pi_nread p)) with (pi_nwrite p) by lia.
    by rewrite Z.mod_small.
Qed.

Lemma empty_iff p : pipe_ok p -> (pi_nread p =? pi_nwrite p) = true <-> contents p = [].
Proof.
  intros [_ Hr Hw _]. rewrite Z.eqb_eq. rewrite <- length_zero_iff_nil, length_contents.
  pose proof (count_Z p) as Hc. unfold u32 in Hc. split; intros H.
  - rewrite H, Z.sub_diag, Z.mod_0_l in Hc by lia. lia.
  - rewrite H in Hc. simpl in Hc. symmetry in Hc.
    destruct (Z.lt_ge_cases (pi_nwrite p) (pi_nread p)) as [Hlt|Hge].
    + rewrite <- (Z.mod_add _ 1) in Hc by lia. rewrite Z.mod_small in Hc by lia. lia.
    + rewrite Z.mod_small in Hc by lia. lia.
Qed.

Lemma count_put b p : Z.of_nat (count p) < PIPESIZE ->
  count (put_byte b p) = S (count p).
Proof.
  intros H. pose proof (count_Z p) as Hc. apply Nat2Z.inj. rewrite count_Z. simpl.
  rewrite u32_sub_l. replace (pi_nwrite p + 1 - pi_nread p) with (pi_nwrite p - pi_nread p + 1) by lia.
  rewrite <- u32_add_l, <- Hc. unfold PIPESIZE in *. rewrite u32_small by lia. lia.
Qed.

Lemma count_get p : count p <> 0%nat -> S (count (get_byte p).2) = count p.
Proof.
  intros H. pose proof (count_Z p) as Hc. pose proof (u32_range (pi_nwrite p - pi_nread p)) as Hr.
  apply Nat2Z.inj. rewrite Nat2Z.inj_succ, count_Z. simpl.
  rewrite u32_sub_r. replace (pi_nwrite p - (pi_nread p + 1)) with (pi_nwrite p - pi_nread p + -1) by lia.
  rewrite <- u32_add_l, <- Hc. rewrite u32_small by lia. lia.
Qed.

(** Where the counters point into the ring. *)
Lemma nwrite_pos p : pipe_ok p ->
  pi_nwrite p mod PIPESIZE = (pi_nread p + Z.of_nat (count p)) mod PIPESIZE.
Proof.
  intros [_ Hr Hw _]. rewrite count_Z. unfold u32, PIPESIZE.
  rewrite (Z.mod_eq (pi_nwrite p - pi_nread p)) by lia.
  replace (pi_nread p + (pi_nwrite p - pi_nread p - 2 ^ 32 * ((pi_nwrite p - pi_nread p) / 2 ^ 32)))
    with (pi_nwrite p + (- (2 ^ 23 * ((pi_nwrite p - pi_nread p) / 2 ^ 32))) * 512) by lia.
  by rewrite Z.mod_add.
Qed.

Lemma ring_neq a k n : 0 <= Z.of_nat k < Z.of_nat n -> Z.of_nat n < PIPESIZE ->
  Z.to_nat ((a + Z.of_nat k) mod PIPESIZE) <> Z.to_nat ((a + Z.of_nat n) mod PIPESIZE).
Proof.
  unfold PIPESIZE. intros Hk Hn H. apply Z2Nat.inj in H; try (apply Z.mod_pos_bound; lia).
  assert ((Z.of_nat n - Z.of_nat k) mod 512 = 0) as Hz.
  { replace (Z.of_nat n - Z.of_nat k) with ((a + Z.of_nat n) - (a + Z.of_nat k)) by lia.
    rewrite Zminus_mod, H, Z.sub_diag. done. }
  rewrite Z.mod_small in Hz by lia. lia.
Qed.

Lemma put_byte_ok b p : pipe_ok p -> Z.of_nat (count p) < PIPESIZE ->
  pipe_ok (put_byte b p) /\ contents (put_byte b p) = contents p ++ [b].
Proof.
  intros Hok Hlt. pose proof Hok as [Hd Hr Hw _]. split.
  - split; simpl; [by rewrite length_insert|done|apply u32_range|].
    rewrite count_put by done. lia.
  - unfold contents. rewrite count_put, seq_S, fmap_app by done. simpl. f_equal.
    + apply list_fmap_ext. intros i k Hk. apply lookup_seq in Hk as [-> Hk]. simpl.
      unfold at_pos; simpl. rewrite (nwrite_pos p Hok).
      rewrite list_lookup_total_insert_ne; [done|]. symmetry. apply ring_neq; lia.
    + f_equal. unfold at_pos; simpl. rewrite (nwrite_pos p Hok).
      apply list_lookup_total_insert_eq. rewrite Hd. unfold PIPESIZE.
      apply Z2Nat.inj_lt; [apply Z.mod_pos_bound; lia|lia|apply Z.mod_pos_bound; lia].
Qed.

Lemma get_byte_ok p b l : pipe_ok p -> contents p = b :: l ->
  pipe_ok (get_byte p).2 /\ (get_byte p).1 = b /\ contents (get_byte p).2 = l.
Proof.
  intros Hok Hc. pose proof Hok as [Hd Hr Hw Hcnt].
  assert (count p = S (length l)) as Hn by (rewrite <- length_contents, Hc; done).
  assert (count (get_byte p).2 = length l) as Hn'.
  { pose proof (count_get p ltac:(lia)). lia. }
  unfold contents in Hc. rewrite Hn in Hc. simpl in Hc. injection Hc as Hb Hl. split_and!.
  - split; simpl; [done|apply u32_range|done|]. simpl in Hn'. rewrite Hn'. lia.
  - simpl. rewrite <- Hb. unfold at_pos. by rewrite Z.add_0_r.
  - unfold contents. rewrite Hn'. change (list_fmap nat Z (at_pos p)) with (fmap (M := list) (at_pos p)) in Hl.
    rewrite <- fmap_S_seq, <- list_fmap_compose in Hl. rewrite <- Hl at 2.
    apply list_fmap_ext. intros i k Hk. unfold at_pos; simpl.
    assert (u32 (pi_nread p + 1) mod PIPESIZE = (pi_nread p + 1) mod PIPESIZE) as Hm.
    { unfold u32, PIPESIZE. apply Z.mod_mod_divide. exists (2 ^ 23). lia. }
    rewrite Zplus_mod, Hm, <- Zplus_mod. do 3 f_equal. lia.
Qed.

(** ** The turns *)
Definition same_ends (p p' : pipe) : Prop :=
  pi_readopen p' = pi_readopen p /\ pi_writeopen p' = pi_writeopen p.
Definition is_full (p : pipe) : Prop := Z.of_nat (length (contents p)) = PIPESIZE.

(** A turn of pipewrite appends a prefix of its bytes, and ends for one of
    three reasons. *)
Lemma pipewrite_turn_spec killed n addr p p' w r :
  pipe_ok p -> pipewrite_turn killed n addr p = (p', w, r) ->
  pipe_ok p' /\ same_ends p p' /\
  exists sent rest, addr = sent ++ rest /\ unsent r = rest /\ contents p' = contents p ++ sent /\
  ((r = WRet n rest /\ rest = [] /\ w = [WakeReaders]) \/
   (is_full p' /\ rest <> [] /\
     ((r = WRet (-1) rest /\ w = [] /\ (pi_readopen p = 0 \/ killed = true)) \/
      (r = WSleep rest /\ w = [WakeReaders] /\ pi_readopen p <> 0 /\ killed = false)))).
Proof.
  revert p. induction addr as [|b addr IH]; intros p Hok H; cbn [pipewrite_turn] in H.
  - simplify_eq. split_and!; [done|done|]. exists [], []. split_and!; [done|done|by rewrite app_nil_r|by left].
  - destruct (pi_nwrite p =? u32 (pi_nread p + PIPESIZE)) eqn:Hf.
    + pose proof (proj1 (full_iff p Hok) Hf) as Hfull. rewrite <- length_contents in Hfull.
      destruct ((pi_readopen p =? 0) || killed) eqn:Hb; simplify_eq;
        (split_and!; [done|done|]); exists [], (b :: addr); rewrite app_nil_r.
      * split_and!; [done|done|done|]. right. split_and!; [done|done|]. left.
        apply orb_true_iff in Hb as [Hb|Hb]; breflect; auto.
      * breflect. split_and!; [done|done|done|]. right. split_and!; [done|done|]. by right.
    + assert (Z.of_nat (count p) < PIPESIZE) as Hlt.
      { pose proof (ok_count p Hok). destruct (Z.eq_dec (Z.of_nat (count p)) PIPESIZE) as [He|]; [|lia].
        apply (full_iff p Hok) in He. congruence. }
      destruct (put_byte_ok b p Hok Hlt) as [Hok1 Hc1].
      destruct (IH (put_byte b p) Hok1 H) as (Hok' & Hends & sent & rest & -> & Hu & Hc & Hr).
      split_and!; [done|done|]. exists (b :: sent), rest. rewrite Hc, Hc1, <- app_assoc. done.
Qed.

Lemma pipe_copy_spec n p l p' : pipe_ok p -> pipe_copy n p = (l, p') ->
  pipe_ok p' /\ same_ends p p' /\ l = take n (contents p) /\ contents p' = drop n (contents p).
Proof.
  revert p l p'. induction n as [|n IH]; intros p l p' Hok H; cbn [pipe_copy] in H.
  - by simplify_eq.
  - destruct (pi_nread p =? pi_nwrite p) eqn:He.
    + apply (empty_iff p Hok) in He. simplify_eq. by rewrite He.
    + destruct (contents p) as [|b c] eqn:Hc.
      { apply (empty_iff p Hok) in Hc. congruence. }
      destruct (get_byte_ok p b c Hok Hc) as (Hok1 & Hb & Hc1).
      destruct (get_byte p) as [b' p1] eqn:Hg. simpl in *. subst b'.
      destruct (pipe_copy n p1) as [l1 p2] eqn:Hp. simplify_eq.
      destruct (IH p1 l1 p' Hok1 Hp) as (Hok' & Hends & -> & ->).
      unfold get_byte in Hg. simplify_eq/=. done.
Qed.

(** A turn of piperead takes a prefix of the queue, or finds it empty with the
    write end open. *)
Lemma piperead_turn_spec killed n p p' w r :
  pipe_ok p -> piperead_turn killed n p = (p', w, r) ->
  pipe_ok p' /\ same_ends p p' /\
  ((exists got, r = RRet (Z.of_nat (length got)) got /\ w = [WakeWriters] /\
      (contents p <> [] \/ pi_writeopen p = 0) /\
      got = take (Z.to_nat n) (contents p) /\ contents p = got ++ contents p') \/
   (p' = p /\ w = [] /\ contents p = [] /\ pi_writeopen p <> 0 /\
      ((r = RRet (-1) [] /\ killed = true) \/ (r = RSleep /\ killed = false)))).
Proof.
  intros Hok H. unfold piperead_turn in H.
  destruct ((pi_nread p =? pi_nwrite p) && negb (pi_writeopen p =? 0)) eqn:Hb.
  - breflect. apply Z.eqb_eq, (empty_iff p Hok) in H0.
    destruct killed; simplify_eq; (split_and!; [done|done|right; naive_solver]).
  - destruct (pipe_copy (Z.to_nat n) p) as [l p1] eqn:Hp. simplify_eq.
    destruct (pipe_copy_spec _ _ _ _ Hok Hp) as (Hok' & Hends & Hl & Hc).
    split_and!; [done|done|]. left. exists l. split_and!; [done|done| |done|].
    + apply andb_false_iff in Hb as [Hb|Hb]; [left|right; by breflect].
      intros He. apply (empty_iff p Hok) in He. congruence.
    + rewrite Hl, Hc. by rewrite take_drop.
Qed.

(** ** Readers and writers *)
Inductive thread : Type :=
| Writer (killed : bool) (n : Z) (todo : list Z) (asleep : bool)
| Reader (killed : bool) (n : Z) (asleep : bool)
| Finished (cut : bool) (v : Z).   (** [cut]: a killed writer gave up *)

Definition wake1 (w : waker) (t : thread) : thread :=
  match w, t with
  | WakeReaders, Reader k n _ => Reader k n false
  | WakeWriters, Writer k n l _ => Writer k n l false
  | _, _ => t
  end.
Definition wake_all (ws : list waker) (ts : list thread) : list thread :=
  foldr (fun w => fmap (wake1 w)) ts ws.

Record psys : Type := mkPsys {
  ps_pipe : pipe;
  ps_threads : list thread;
  ps_in : list Z;       (** every byte put into the ring *)
  ps_out : list Z       (** every byte a reader got *)
}.

Definition is_writer (t : thread) : bool := match t with Writer _ _ _ _ => true | _ => false end.
Definition is_reader (t : thread) : bool := match t with Reader _ _ _ => true | _ => false end.

(** One turn of a thread, or an event around the pipe.  A process inside
    pipewrite or piperead keeps its file open, so an end is closed only when
    nobody is in a call on it.  [kills] says whether processes are killed. *)
Inductive pstep (kills : bool) : psys -> psys -> Prop :=
| P_write s i k n todo p' w r :
    ps_threads s !! i = Some (Writer k n todo false) ->
    pipewrite_turn k n todo (ps_pipe s) = (p', w, r) ->
    pstep kills s
      (mkPsys p'
        (wake_all w (<[i := match r with WRet v _ => Finished (k && (v =? -1)) v | WSleep rest => Writer k n rest true end]>
           (ps_threads s)))
        (ps_in s ++ take (length todo - length (unsent r)) todo)
        (ps_out s))
| P_read s i k n p' w r :
    ps_threads s !! i = Some (Reader k n false) ->
    piperead_turn k n (ps_pipe s) = (p', w, r) ->
    pstep kills s
      (mkPsys p'
        (wake_all w (<[i := match r with RRet v _ => Finished false v | RSleep => Reader k n true end]>
           (ps_threads s)))
        (ps_in s) (ps_out s ++ match r with RRet _ got => got | RSleep => [] end))
| P_start_write s addr : pi_writeopen (ps_pipe s) <> 0 ->
    pstep kills s (mkPsys (ps_pipe s)
      (ps_threads s ++ [Writer false (Z.of_nat (length addr)) addr false]) (ps_in s) (ps_out s))
| P_start_read s n : pi_readopen (ps_pipe s) <> 0 ->
    pstep kills s (mkPsys (ps_pipe s) (ps_threads s ++ [Reader false n false]) (ps_in s) (ps_out s))
| P_close s (writable : bool) p' w freed :
    forallb (fun t => negb (if writable then is_writer t else is_reader t)) (ps_threads s) = true ->
    pipeclose writable (ps_pipe s) = (p', w, freed) ->
    pstep kills s (mkPsys p' (wake_all w (ps_threads s)) (ps_in s) (ps_out s))
| P_kill s i t : kills = true -> ps_threads s !! i = Some t ->
    pstep kills s (mkPsys (ps_pipe s)
      (<[i := match t with
              | Writer _ n l _ => Writer true n l false
              | Reader _ n _ => Reader true n false
              | Finished cut v => Finished cut v
              end]> (ps_threads s)) (ps_in s) (ps_out s)).

Inductive preach (kills : bool) : psys -> Prop :=
| P_init page : length page = Z.to_nat PIPESIZE ->
    preach kills (mkPsys (pipe_init page) [] [] [])
| P_step s s' : preach kills s -> pstep kills s s' -> preach kills s'.

(** ** The invariant *)
(** A killed writer has given up: pipewrite has returned -1 without a wakeup. *)
Definition gave_up (ts : list thread) : Prop := exists j v, ts !! j = Some (Finished true v).
Definition thread_ok (kills : bool) (lost : Prop) (p : pipe) (t : thread) : Prop :=
  match t with
  | Writer k _ _ asleep =>
      pi_writeopen p <> 0 /\ (kills = false -> k = false) /\
      (asleep = true -> k = false /\ is_full p /\ pi_readopen p <> 0)
  | Reader k _ asleep =>
      pi_readopen p <> 0 /\ (kills = false -> k = false) /\
      (asleep = true -> k = false /\ (lost \/ contents p = [] /\ pi_writeopen p <> 0))
  | Finished cut _ => kills = false -> cut = false
  end.
Lemma thread_ok_mono kills (lost lost' : Prop) p t : (lost -> lost') -> thread_ok kills lost p t -> thread_ok kills lost' p t.
Proof. intros H. destruct t; cbn; naive_solver. Qed.

Record psys_ok (kills : bool) (s : psys) : Prop := mkPsysOk {
  psys_pipe : pipe_ok (ps_pipe s);
  psys_fifo : ps_in s = ps_out s ++ contents (ps_pipe s);
  psys_threads : Forall (thread_ok kills (gave_up (ps_threads s)) (ps_pipe s)) (ps_threads s)
}.

Lemma wake_all_fmap w ts : wake_all w ts = (fun t => foldr wake1 t w) <$> ts.
Proof.
  induction w as [|x w IH]; simpl; [by rewrite list_fmap_id|]. rewrite IH, <- list_fmap_compose. done.
Qed.
Lemma wake_finished w cut v : foldr wake1 (Finished cut v) w = Finished cut v.
Proof. induction w as [|[] w IH]; simpl; [done|by rewrite IH|by rewrite IH]. Qed.
(** Who has given up stays so. *)
Lemma gave_up_wake w ts : gave_up ts -> gave_up (wake_all w ts).
Proof. intros (j & v & H). exists j, v. rewrite wake_all_fmap, list_lookup_fmap, H. cbn. by rewrite wake_finished. Qed.
Lemma gave_up_insert ts i t t' : ts !! i = Some t -> (forall v, t <> Finished true v) -> gave_up ts -> gave_up (<[i := t']> ts).
Proof. intros Hi Ht (j & v & Hj). exists j, v. rewrite list_lookup_insert_ne; [done|]. intros <-. rewrite Hi in Hj. injection Hj as ->. by apply (Ht v). Qed.

Lemma wake_all_ok kills (lost lost' : Prop) p p' w ts i t' :
  Forall (thread_ok kills lost p) ts ->
  (forall t, thread_ok kills lost p t -> thread_ok kills lost' p' (foldr wake1 t w)) ->
  thread_ok kills lost' p' (foldr wake1 t' w) ->
  Forall (thread_ok kills lost' p') (wake_all w (<[i := t']> ts)).
Proof.
  intros Hts Hw Ht'. rewrite wake_all_fmap, list_fmap_insert. apply Forall_insert; [|done].
  apply Forall_fmap. eapply Forall_impl; [exact Hts|]. exact Hw.
Qed.

Lemma is_full_nonempty p : is_full p -> contents p <> [].
Proof. unfold is_full, PIPESIZE. intros H He. rewrite He in H. simpl in H. lia. Qed.

Ltac psys_simpl := cbn [ps_pipe ps_threads ps_in ps_out].

Lemma write_ok kills s i k n todo p' w r :
  psys_ok kills s -> ps_threads s !! i = Some (Writer k n todo false) ->
  pipewrite_turn k n todo (ps_pipe s) = (p', w, r) ->
  psys_ok kills (mkPsys p'
    (wake_all w (<[i := match r with WRet v _ => Finished (k && (v =? -1)) v | WSleep rest => Writer k n rest true end]>
       (ps_threads s)))
    (ps_in s ++ take (length todo - length (unsent r)) todo) (ps_out s)).
Proof.
  intros [Hp Hf Ht] Hi Hw. pose proof (Forall_lookup_1 _ _ _ _ Ht Hi) as (Hwo & Hk & _).
  destruct (pipewrite_turn_spec _ _ _ _ _ _ _ Hp Hw) as
    (Hp' & [Er Ew] & sent & rest & -> & Hu & Hc & Hcase).
  set (t' := match r with WRet _ _ => _ | WSleep _ => _ end).
  assert (Hlost : gave_up (ps_threads s) -> gave_up (wake_all w (<[i := t']> (ps_threads s)))).
  { intros Hl. by eapply gave_up_wake, gave_up_insert. }
  split; psys_simpl; [done| |].
  - rewrite Hf, Hc, Hu, length_app, <- app_assoc. do 2 f_equal.
    rewrite Nat.add_sub. by rewrite take_app_length.
  - assert (w = [WakeReaders] \/ (w = [] /\ (pi_readopen (ps_pipe s) = 0 \/ gave_up (wake_all w (<[i := t']> (ps_threads s))))))
      as Hwcase.
    { destruct Hcase as [(_ & _ & ->)|(_ & _ & [(Er' & -> & Hend)|(_ & -> & _)])]; [by left| |by left]. right. split; [done|].
      destruct Hend as [Hro|Hkt]; [by left|right]. exists i, (-1). rewrite wake_all_fmap, list_lookup_fmap, list_lookup_insert_eq by (by eapply lookup_lt_Some).
      unfold t'. by rewrite Er', Hkt. }
    apply (wake_all_ok kills (gave_up (ps_threads s)) _ (ps_pipe s)); [done| |].
    + intros t Hok. destruct t as [k' n' l' a|k' n' a|cut v]; [| |by rewrite wake_finished].
      * destruct Hok as (H1 & H2 & H3).
        assert (thread_ok kills (gave_up (wake_all w (<[i := t']> (ps_threads s)))) p' (Writer k' n' l' a)) as Hgoal.
        { unfold thread_ok. rewrite Er, Ew. split_and!; [done|done|]. intros Ha.
          destruct (H3 Ha) as (Hk' & Hfull & Hro). split_and!; [done| |done]. unfold is_full in *.
          pose proof (ok_count p' Hp') as Hcnt. rewrite <- length_contents, Hc in Hcnt.
          rewrite Hc. rewrite length_app in *. lia. }
        by destruct Hwcase as [->|[-> _]].
      * destruct Hok as (H1 & H2 & H3). destruct Hwcase as [->|(-> & Hend)]; simpl; rewrite Er, Ew.
        -- naive_solver.
        -- split_and!; [done|done|]. intros Ha. destruct (H3 Ha) as [Hk' _]. split; [done|]. left. by destruct Hend.
    + unfold t'. destruct Hcase as [(-> & _ & ->)|(Hfull & Hne & [(-> & -> & _)|(-> & -> & Hro & Hkf)])].
      * simpl. intros Hno. by rewrite (Hk Hno).
      * simpl. intros Hno. by rewrite (Hk Hno).
      * simpl. rewrite Er, Ew. naive_solver.
Qed.

Lemma read_ok kills s i k n p' w r :
  psys_ok kills s -> ps_threads s !! i = Some (Reader k n false) ->
  piperead_turn k n (ps_pipe s) = (p', w, r) ->
  psys_ok kills (mkPsys p'
    (wake_all w (<[i := match r with RRet v _ => Finished false v | RSleep => Reader k n true end]>
       (ps_threads s)))
    (ps_in s) (ps_out s ++ match r with RRet _ got => got | RSleep => [] end)).
Proof.
  intros [Hp Hf Ht] Hi Hw. pose proof (Forall_lookup_1 _ _ _ _ Ht Hi) as (Hro & Hk & _).
  destruct (piperead_turn_spec _ _ _ _ _ _ Hp Hw) as (Hp' & [Er Ew] & Hcase).
  assert (Hlost : forall t', gave_up (ps_threads s) -> gave_up (wake_all w (<[i := t']> (ps_threads s)))).
  { intros t' Hl. by eapply gave_up_wake, gave_up_insert. }
  destruct Hcase as [(got & -> & -> & Hne & _ & Hc)|(-> & -> & He & Hwo & Hr)].
  - split; psys_simpl; [done|by rewrite Hf, Hc, app_assoc|].
    apply (wake_all_ok kills (gave_up (ps_threads s)) _ (ps_pipe s)); [done| |done].
    intros t Hok. apply (thread_ok_mono _ _ _ _ _ (Hlost _)).
    destruct t as [k' n' l' a|k' n' a|cut v]; simpl in *; rewrite ?Er, ?Ew; [naive_solver| |done].
    destruct Hok as (H1 & H2 & H3). split_and!; [done|done|]. intros Ha.
    destruct (H3 Ha) as [Hk' [Hl|[He Hwo]]]; (split; [done|]); [by left|right]. split; [|done]. rewrite He in Hc.
    symmetry in Hc. by apply app_eq_nil in Hc as [_ ?].
  - assert (match r with RRet _ got => got | RSleep => [] end = []) as ->
      by (by destruct Hr as [[-> _]|[-> _]]).
    rewrite app_nil_r. split; psys_simpl; [done|done|].
    apply (wake_all_ok kills (gave_up (ps_threads s)) _ (ps_pipe s)); [done| |].
    + intros t Hok. by apply (thread_ok_mono _ _ _ _ _ (Hlost _)).
    + destruct Hr as [[-> _]|[-> ->]]; simpl; naive_solver.
Qed.

Lemma close_ok kills s (writable : bool) p' w freed :
  psys_ok kills s ->
  forallb (fun t => negb (if writable then is_writer t else is_reader t)) (ps_threads s) = true ->
  pipeclose writable (ps_pipe s) = (p', w, freed) ->
  psys_ok kills (mkPsys p' (wake_all w (ps_threads s)) (ps_in s) (ps_out s)).
Proof.
  intros [Hp Hf Ht] Hno Hc. rewrite forallb_forall in Hno.
  split; psys_simpl.
  - destruct Hp. destruct writable; unfold pipeclose in Hc; by simplify_eq.
  - destruct writable; unfold pipeclose in Hc; by simplify_eq.
  - rewrite wake_all_fmap at 2. apply Forall_fmap, Forall_forall. intros t Hin.
    pose proof (proj1 (Forall_forall _ _) Ht t Hin) as Hok. specialize (Hno t ltac:(by apply list_elem_of_In)).
    apply (thread_ok_mono _ _ _ _ _ (gave_up_wake w _)).
    destruct writable; unfold pipeclose in Hc; simplify_eq; destruct t as [k n l a|k n a|cut v]; simpl in *; try done; naive_solver.
Qed.

Lemma gave_up_snoc ts t : gave_up ts -> gave_up (ts ++ [t]).
Proof. intros (j & v & H). exists j, v. by apply lookup_app_l_Some. Qed.
Lemma start_ok kills s t : psys_ok kills s -> (forall lost, thread_ok kills lost (ps_pipe s) t) ->
  psys_ok kills (mkPsys (ps_pipe s) (ps_threads s ++ [t]) (ps_in s) (ps_out s)).
Proof.
  intros [Hp Hf Ht] H. split; psys_simpl; [done|done|]. apply Forall_app. split; [|by apply Forall_singleton].
  eapply Forall_impl; [exact Ht|]. intros t'. apply thread_ok_mono, gave_up_snoc.
Qed.
Lemma kill_ok s i t : psys_ok true s -> ps_threads s !! i = Some t ->
  psys_ok true (mkPsys (ps_pipe s)
    (<[i := match t with
            | Writer _ n l _ => Writer true n l false
            | Reader _ n _ => Reader true n false
            | Finished cut v => Finished cut v
            end]> (ps_threads s)) (ps_in s) (ps_out s)).
Proof.
  intros [Hp Hf Ht] Hi. split; psys_simpl; [done|done|]. destruct t as [k n l a|k n a|cut v].
  3: by rewrite list_insert_id.
  all: apply Forall_insert;
    [eapply Forall_impl; [exact Ht|]; intros t'; apply thread_ok_mono; by eapply gave_up_insert|];
    pose proof (Forall_lookup_1 _ _ _ _ Ht Hi) as Hti; simpl in *; naive_solver.
Qed.

Lemma preach_ok kills s : preach kills s -> psys_ok kills s.
Proof.
  induction 1 as [page Hl|s s' Hr Hok Hst].
  - destruct (pipe_init_ok page Hl) as [Hp Hc]. split; psys_simpl; [done|by rewrite Hc|done].
  - revert Hok. destruct Hst as [s i k n todo p' w r Hi Hw|s i k n p' w r Hi Hw|s addr Ho|s n Ho|
      s writable p' w freed Hno Hc|s i t Hk Hi]; intros Hok.
    + by eapply write_ok.
    + by eapply read_ok.
    + apply start_ok; [done|]. simpl. naive_solver.
    + apply start_ok; [done|]. simpl. naive_solver.
    + by eapply close_ok.
    + subst kills. by apply kill_ok.
Qed.

(** ** What a pipe guarantees *)

(** C15: A pipe is a FIFO: whatever the interleaving of readers, writers, closes and
    kills, and through any number of wrap-arounds of the counters, the bytes put
    in are the bytes read followed by the at most PIPESIZE bytes in the ring. *)
Theorem pipe_fifo kills s : preach kills s ->
  ps_in s = ps_out s ++ contents (ps_pipe s) /\
  Z.of_nat (length (contents (ps_pipe s))) <= PIPESIZE.
Proof.
  intros H. destruct (preach_ok kills s H) as [Hp Hf _]. split; [done|].
  rewrite length_contents. apply Hp.
Qed.

(** C33: Nobody sleeps in vain, whoever is killed, with one exception.  A sleeping
    writer has not been killed and faces a full pipe with an open read end.  A
    sleeping reader has not been killed and faces an empty pipe with an open
    write end, unless a killed writer has given up before, with -1 and without
    the wakeup; then the reader may be left asleep.  Without kills, or until that
    happens, readers and writers never sleep at once. *)
Theorem pipe_no_lost_wakeup kills s i t : preach kills s -> ps_threads s !! i = Some t ->
  match t with
  | Writer k _ _ true =>
      k = false /\ Z.of_nat (length (contents (ps_pipe s))) = PIPESIZE /\ pi_readopen (ps_pipe s) <> 0 /\
      (forall j k' n, ps_threads s !! j = Some (Reader k' n true) -> kills = true /\ gave_up (ps_threads s))
  | Reader k _ true =>
      k = false /\ ((kills = true /\ gave_up (ps_threads s)) \/ (contents (ps_pipe s) = [] /\ pi_writeopen (ps_pipe s) <> 0))
  | _ => True
  end.
Proof.
  intros H Hi. destruct (preach_ok kills s H) as [Hp Hf Ht].
  assert (Hg : gave_up (ps_threads s) -> kills = true /\ gave_up (ps_threads s)).
  { intros (j & v & Hj). split; [|by exists j, v]. pose proof (Forall_lookup_1 _ _ _ _ Ht Hj) as Hc. destruct kills; [done|].
    discriminate (Hc eq_refl). }
  pose proof (Forall_lookup_1 _ _ _ _ Ht Hi) as Hok.
  destruct t as [k n l [|]|k n [|]|cut v]; try done; destruct Hok as (_ & _ & Ha).
  - destruct (Ha eq_refl) as (Hk & Hfull & Hro). split_and!; [done|done|done|].
    intros j k' n' Hj. destruct (Forall_lookup_1 _ _ _ _ Ht Hj) as (_ & _ & Hb).
    destruct (Hb eq_refl) as [_ [Hl|[He _]]]; [by apply Hg|]. by apply is_full_nonempty in Hfull.
  - destruct (Ha eq_refl) as [Hk [Hl|He]]; [split; [done|left; by apply Hg]|]. split; [done|by right].
Qed.

(** With kills a wakeup is lost: a writer killed while it fills the pipe returns -1
    without waking the readers, and a reader is left asleep beside a full pipe
    whose write end is open. *)
Theorem pipe_killed_writer_loses_wakeup :
  exists s, preach true s /\ ps_threads s !! 0%nat = Some (Reader false 1 true) /\
    ps_threads s !! 1%nat = Some (Finished true (-1)) /\
    Z.of_nat (length (contents (ps_pipe s))) = PIPESIZE /\ pi_writeopen (ps_pipe s) <> 0.
Proof.
  set (p0 := pipe_init (replicate 512 0)). set (bytes := replicate 513 7).
  assert (preach true (mkPsys p0 [] [] [])) as H0 by (constructor; done).
  assert (preach true (mkPsys p0 [Reader false 1 false] [] [])) as H1.
  { eapply P_step; [exact H0|].
    refine (P_start_read true (mkPsys p0 [] [] []) 1 _). done. }
  assert (preach true (mkPsys p0 [Reader false 1 true] [] [])) as H2.
  { eapply P_step; [exact H1|].
    exact (P_read true (mkPsys p0 [Reader false 1 false] [] []) 0 false 1 p0 [] RSleep eq_refl eq_refl). }
  assert (preach true (mkPsys p0 [Reader false 1 true; Writer false (Z.of_nat (length bytes)) bytes false]
    [] [])) as H3.
  { eapply P_step; [exact H2|].
    refine (P_start_write true (mkPsys p0 [Reader false 1 true] [] []) bytes _). done. }
  eapply P_step in H3; [|by eapply (P_kill true _ 1)]. simpl in H3.
  set (p1 := (pipewrite_turn true (Z.of_nat (length bytes)) bytes p0).1.1).
  assert (pipewrite_turn true (Z.of_nat (length bytes)) bytes p0 = (p1, [], WRet (-1) [7])) as Hw
    by (vm_compute; reflexivity).
  eexists. split; [eapply P_step; [exact H3|by eapply (P_write true _ 1); [|exact Hw]]|].
  vm_compute. split_and!; done || discriminate.
Qed.

(** ** A run without kills: a write of 600 bytes through a sleeping writer *)
Definition demo_start : psys :=
  mkPsys (pipe_init (replicate 512 0)) [Writer false 600 (replicate 600 5) false] [] [].
Definition demo_pipe : pipe :=
  (pipewrite_turn false 600 (replicate 600 5) (pipe_init (replicate 512 0))).1.1.
Definition demo_full : psys :=
  mkPsys demo_pipe
    [Writer false 600 (replicate 88 5) true] 
    ([] ++ take (length (replicate 600 5) - length (replicate 88 5)) (replicate 600 5)) [].

Lemma demo_full_reach : preach false demo_full.
Proof.
  assert (pipewrite_turn false 600 (replicate 600 5) (ps_pipe demo_start) =
    (demo_pipe, [WakeReaders], WSleep (replicate 88 5))) as Hw by (vm_compute; reflexivity).
  eapply P_step.
  - eapply P_step; [by apply (P_init false (replicate 512 0))|].
    refine (P_start_write false (mkPsys (pipe_init (replicate 512 0)) [] [] []) (replicate 600 5) _). done.
  - exact (P_write false demo_start 0 _ _ _ _ _ _ eq_refl Hw).
Qed.

Lemma pipe_fifo_witness :
  ps_in demo_full = ps_out demo_full ++ contents (ps_pipe demo_full) /\
  length (contents (ps_pipe demo_full)) = 512%nat.
Proof.
  split; [apply (pipe_fifo false demo_full), demo_full_reach|]. vm_compute. reflexivity.
Defined.

Lemma pipe_no_lost_wakeup_witness :
  Z.of_nat (length (contents (ps_pipe demo_full))) = PIPESIZE /\ pi_readopen (ps_pipe demo_full) <> 0.
Proof.
  destruct (pipe_no_lost_wakeup false demo_full 0 (Writer false 600 (replicate 88 5) true)) as (_ & H1 & H2 & _).
  - apply demo_full_reach.
  - reflexivity.
  - exact (conj H1 H2).
Defined.
