(* ===== verification/Kalloc.v ===== *)
(** * The physical page allocator (kalloc.c)

    The free list lives in the free pages themselves: the first word of a
    free page is the address of the next one.  [kmem_ok] relates that chain to
    a list of pages; kalloc and kfree pop and push it, and no page is ever
    handed out twice. *)

From S2P Require Import Prelude Params CString Spinlock.

(** kmem and the memory it manages, with the CPU that runs the code. *)
Record kmem : Type := mkKmem {
  km_cpu : cpu;
  km_lock : spinlock;
  km_use_lock : Z;
  km_freelist : Z;
  km_mem : mem
}.
Definition put_use_lock (b : Z) (k : kmem) : kmem :=
  mkKmem (km_cpu k) (km_lock k) b (km_freelist k) (km_mem k).
Definition put_freelist (r : Z) (k : kmem) : kmem :=
  mkKmem (km_cpu k) (km_lock k) (km_use_lock k) r (km_mem k).
Definition put_mem (m : mem) (k : kmem) : kmem :=
  mkKmem (km_cpu k) (km_lock k) (km_use_lock k) (km_freelist k) m.
Definition put_lock (x : cpu * spinlock) (k : kmem) : kmem :=
  mkKmem x.1 x.2 (km_use_lock k) (km_freelist k) (km_mem k).

Section Kalloc.
(** The address of the first byte after the kernel, set by the linker, and
    the index of the CPU. *)
Context (kernel_end : Z) (me : nat).

Definition lock_kmem (m : kernel (cpu * spinlock) unit) : kernel kmem unit :=
  b ← kgets km_use_lock;
  if b =? 0 then mret tt else klift (fun k => (km_cpu k, km_lock k)) put_lock m.

Definition kfree (v : Z) : kernel kmem unit :=
  if negb (v mod PGSIZE =? 0) || (v <? kernel_end) || (PHYSTOP <=? v2p v) then kpanic "kfree"
  else
    kmodify (fun k => put_mem (memset (km_mem k) v 1 PGSIZE) k);;
    lock_kmem (acquire me);;
    kmodify (fun k => put_mem (st32 (km_mem k) v (km_freelist k)) k);;
    kmodify (put_freelist v);;
    lock_kmem (release me).

Definition kalloc : kernel kmem Z :=
  lock_kmem (acquire me);;
  r ← kgets km_freelist;
  kwhen (negb (r =? 0)) (kmodify (fun k => put_freelist (ld32 (km_mem k) r) k));;
  lock_kmem (release me);;
  mret r.

(** for(; p + PGSIZE <= vend; p += PGSIZE) kfree(p); at most [n] turns *)
Fixpoint freerange_loop (n : nat) (p vend : Z) : kernel kmem unit :=
  if u32 (p + PGSIZE) <=? vend then
    match n with
    | O => kspin
    | S n' => kfree p;; freerange_loop n' (u32 (p + PGSIZE)) vend
    end
  else mret tt.
Definition freerange (vstart vend : Z) : kernel kmem unit :=
  freerange_loop (Z.to_nat (2 ^ 32 / PGSIZE)) (PGROUNDUP vstart) vend.

Definition kinit1 (vstart vend : Z) : kernel kmem unit :=
  kmodify (fun k => put_lock (km_cpu k, initlock "kmem") k);;
  kmodify (put_use_lock 0);;
  freerange vstart vend.
Definition kinit2 (vstart vend : Z) : kernel kmem unit :=
  freerange vstart vend;; kmodify (put_use_lock 1).

(** ** Representation of the free list *)
Definition in_page (p a : Z) : Prop := p <= a < p + PGSIZE.
Definition page_ok (p : Z) : Prop :=
  p mod PGSIZE = 0 /\ kernel_end <= p /\ KERNBASE <= p < KERNBASE + PHYSTOP.

Fixpoint chain (m : mem) (r : Z) (l : list Z) : Prop :=
  match l with
  | [] => r = 0
  | p :: l' => r = p /\ chain m (ld32 m p) l'
  end.

(** The lock is not needed yet, or free, and this CPU holds no lock. *)
Definition lock_ready (k : kmem) : Prop :=
  km_use_lock k = 0 \/ (c_ncli (km_cpu k) = 0 /\ lk_locked (km_lock k) = 0).

Record kmem_ok (k : kmem) (l : list Z) : Prop := mkKmemOk {
  km_chain : chain (km_mem k) (km_freelist k) l;
  km_pages : Forall page_ok l;
  km_nodup : NoDup l;
  km_bytes : bytes_ok (km_mem k);
  km_ready : lock_ready k
}.

(** ** Locked sections *)
Lemma acquire_free (x : cpu) (lk : spinlock) : c_ncli x = 0 -> lk_locked lk = 0 ->
  exists x' lk', acquire me (x, lk) = Done (x', lk') tt /\ c_ncli x' = 1 /\
    has (c_eflags x') FL_IF = false /\ holding lk' me = true.
Proof.
  intros Hn Hl. unfold acquire, pushcli. rewrite Hn. unfold holding at 1. rewrite Hl. simpl.
  eexists _, _. split; [done|]. simpl. split_and!; [done|apply has_cli|].
  unfold holding. simpl. by rewrite bool_decide_eq_true_2.
Qed.

Lemma release_held (x : cpu) (lk : spinlock) :
  c_ncli x = 1 -> has (c_eflags x) FL_IF = false -> holding lk me = true ->
  exists x' lk', release me (x, lk) = Done (x', lk') tt /\ c_ncli x' = 0 /\ lk_locked lk' = 0.
Proof.
  intros Hn Hf Hh. unfold release, popcli. rewrite Hh, Hf, Hn. simpl.
  eexists _, _. split; [done|]. split; [|done]. by destruct (negb _).
Qed.

Lemma lock_off m k : km_use_lock k = 0 -> lock_kmem m k = Done k tt.
Proof. intros H. unfold lock_kmem, mbind, kernel_bind, kgets. by rewrite H. Qed.

Lemma lock_on m k x : km_use_lock k <> 0 -> m (km_cpu k, km_lock k) = Done x tt ->
  lock_kmem m k = Done (put_lock x k) tt.
Proof.
  intros H Hm. unfold lock_kmem, mbind, kernel_bind, kgets.
  rewrite (proj2 (Z.eqb_neq _ _) H). unfold klift. by rewrite Hm.
Qed.

(** A critical section: [f] runs with the lock taken; the list and the memory
    are then as it left them. *)
Lemma locked_section {A} (f : kernel kmem A) (k k' : kmem) a :
  lock_ready k -> (forall x, f (put_lock x k) = Done (put_lock x k') a) ->
  km_use_lock k' = km_use_lock k ->
  exists x, (lock_kmem (acquire me);; r ← f; lock_kmem (release me);; mret r) k
            = Done (put_lock x k') a /\ lock_ready (put_lock x k').
Proof.
  intros Hready Hf Hu.
  assert (k = put_lock (km_cpu k, km_lock k) k) as Hk by (by destruct k).
  destruct (decide (km_use_lock k = 0)) as [H0|H0].
  - exists (km_cpu k, km_lock k). split; [|left; simpl; congruence].
    rewrite (bind_Done _ _ _ _ _ (lock_off _ k H0)). rewrite Hk.
    rewrite (bind_Done _ _ _ _ _ (Hf _)). rewrite (bind_Done _ _ _ (put_lock (km_cpu k, km_lock k) k') tt);
      [done|]. apply lock_off. simpl. congruence.
  - destruct Hready as [?|[Hn Hl]]; [done|].
    destruct (acquire_free (km_cpu k) (km_lock k) Hn Hl) as (x1 & l1 & Ha & Hn1 & Hf1 & Hh1).
    destruct (release_held x1 l1 Hn1 Hf1 Hh1) as (x2 & l2 & Hr & Hn2 & Hl2).
    exists (x2, l2). split; [|by right].
    rewrite (bind_Done _ _ _ _ _ (lock_on _ k _ H0 Ha)), (bind_Done _ _ _ _ _ (Hf _)).
    rewrite (bind_Done _ _ _ (put_lock (x2, l2) (put_lock (x1, l1) k')) tt); [done|].
    apply lock_on; [simpl; congruence|done].
Qed.

(** ** kalloc and kfree pop and push the list *)
Lemma chain_frame m m' r l :
  (forall p a, p ∈ l -> in_page p a -> ld8 m' a = ld8 m a) -> chain m r l -> chain m' r l.
Proof.
  revert r. induction l as [|p l IH]; intros r Hm; simpl; [done|].
  intros [-> Hc]. split; [done|].
  assert (ld32 m' p = ld32 m p) as ->.
  { unfold ld32. rewrite !(Hm p) by (try (by left); unfold in_page, PGSIZE; lia). done. }
  apply IH; [|done]. intros q a Hq. apply Hm. by right.
Qed.

Lemma page_pos p : page_ok p -> 0 < p < 2 ^ 32 - PGSIZE.
Proof. intros (_ & _ & H). unfold KERNBASE, PHYSTOP, PGSIZE in *. lia. Qed.

(** Distinct pages do not overlap. *)
Lemma page_disjoint p q a : page_ok p -> page_ok q -> in_page p a -> in_page q a -> p = q.
Proof.
  intros (Hp & _) (Hq & _) H1 H2. unfold in_page, PGSIZE in *. Z.div_mod_to_equations. lia.
Qed.

Lemma kalloc_spec k l : kmem_ok k l ->
  exists k', kalloc k = Done k' (hd 0 l) /\ kmem_ok k' (tail l) /\ km_mem k' = km_mem k.
Proof.
  intros [Hc Hp Hnd Hb Hr].
  set (f := r ← kgets km_freelist;
    kwhen (negb (r =? 0)) (kmodify (fun k => put_freelist (ld32 (km_mem k) r) k));; mret r).
  assert (forall k, kalloc k = (lock_kmem (acquire me);; r ← f; lock_kmem (release me);; mret r) k) as Heq.
  { intros k0. unfold kalloc, f. unfold mbind, kernel_bind. destruct (lock_kmem _ k0) as [k1 []| | |]; try done.
    unfold kgets, kwhen. by destruct (negb (km_freelist k1 =? 0)). }
  set (k' := put_freelist (hd 0 (tail l)) k).
  destruct (locked_section f k (match l with [] => k | _ => k' end) (hd 0 l) Hr) as (x & Hrun & Hready).
  - intros y. unfold f, mbind, kernel_bind, kgets, kwhen. simpl.
    destruct l as [|p l]; simpl in Hc.
    + rewrite Hc. done.
    + destruct Hc as [-> Hc]. inversion_clear Hp as [|? ? Hpp]. pose proof (page_pos p Hpp) as Hpos.
      rewrite (proj2 (Z.eqb_neq p 0)) by lia. simpl. unfold k'. simpl.
      destruct l as [|q l]; simpl in Hc; [by rewrite Hc|]. destruct Hc as [-> _]. done.
  - by destruct l.
  - exists (put_lock x (match l with [] => k | _ => k' end)). rewrite Heq, Hrun. split; [done|].
    destruct l as [|p l]; simpl in *; [split; [by split|done]|].
    split; [|done]. destruct Hc as [_ Hc]. inversion_clear Hp. inversion_clear Hnd.
    split; simpl; try done. destruct l as [|q l]; simpl in *; [done|]. by destruct Hc as [_ ?].
Qed.

Lemma bytes_ok_st32 m a v : bytes_ok m -> bytes_ok (st32 m a v).
Proof. intros. unfold st32. by repeat apply bytes_ok_st8. Qed.

Lemma bytes_ok_memset m d c n : 0 <= n -> bytes_ok m -> bytes_ok (memset m d c n).
Proof.
  intros Hn H a. rewrite memset_spec by done. case_bool; [|apply H].
  unfold u8. apply Z.mod_pos_bound. lia.
Qed.

Lemma kfree_check v : 0 <= v < 2 ^ 32 ->
  (negb (v mod PGSIZE =? 0) || (v <? kernel_end) || (PHYSTOP <=? v2p v)) = false <->
  v mod PGSIZE = 0 /\ kernel_end <= v /\ v2p v < PHYSTOP.
Proof.
  intros Hv. rewrite !orb_false_iff, negb_false_iff, Z.eqb_eq, Z.ltb_ge, Z.leb_gt. tauto.
Qed.

Lemma page_ok_check v : page_ok v ->
  (negb (v mod PGSIZE =? 0) || (v <? kernel_end) || (PHYSTOP <=? v2p v)) = false.
Proof.
  intros H. pose proof (page_pos v H) as Hpos. destruct H as (H1 & H2 & H3).
  apply kfree_check; [unfold PGSIZE in *; lia|]. split_and!; [done|done|].
  unfold v2p, u32. rewrite Z.mod_small; unfold KERNBASE, PHYSTOP, PGSIZE in *; lia.
Qed.

Lemma kfree_spec k l v : kmem_ok k l -> page_ok v -> v ∉ l ->
  exists k', kfree v k = Done k' tt /\ kmem_ok k' (v :: l) /\
    (forall a, ~ in_page v a -> ld8 (km_mem k') a = ld8 (km_mem k) a) /\
    (forall a, v + 4 <= a < v + PGSIZE -> ld8 (km_mem k') a = 1).
Proof.
  intros [Hc Hp Hnd Hb Hr] Hv Hni. pose proof (page_pos v Hv) as Hpos.
  set (m1 := memset (km_mem k) v 1 PGSIZE). set (m2 := st32 m1 v (km_freelist k)).
  set (f := kmodify (fun k => put_mem (st32 (km_mem k) v (km_freelist k)) k);; kmodify (put_freelist v)).
  set (k1 := put_mem m1 k). set (k' := put_freelist v (put_mem m2 k)).
  assert (kfree v k = (lock_kmem (acquire me);; r ← f; lock_kmem (release me);; mret r) k1) as Heq.
  { unfold kfree. rewrite page_ok_check by done. rewrite (bind_Done _ _ _ k1 tt) by reflexivity.
    unfold f, mbind, kernel_bind, kmodify, mret, kernel_ret.
    destruct (lock_kmem (acquire me) k1) as [k2 []| | |]; try done.
    by destruct (lock_kmem (release me) (put_freelist _ _)) as [k3 []| | |]. }
  destruct (locked_section f k1 k' tt) as (x & Hrun & Hready); [exact Hr|reflexivity|reflexivity|].
  exists (put_lock x k'). rewrite Heq, Hrun. split; [done|].
  assert (forall a, ~ in_page v a -> ld8 m2 a = ld8 (km_mem k) a) as Hout.
  { intros a Ha. unfold m2, m1. rewrite ld8_st32, memset_spec by (unfold PGSIZE; lia).
    unfold in_page in Ha. unfold PGSIZE in *.
    destruct (Z.leb_spec v a), (Z.ltb_spec a (v + 4)), (Z.ltb_spec a (v + 4096)); simpl; done || lia. }
  split_and!.
  - split; simpl.
    + split; [done|]. unfold m2. rewrite ld32_st32_same.
      rewrite u32_small.
      * apply (chain_frame (km_mem k)); [|done]. intros p a Hin Ha. apply Hout. intros Ha'.
        rewrite Forall_forall in Hp. specialize (Hp p Hin).
        by rewrite (page_disjoint p v a Hp Hv Ha Ha') in Hin.
      * destruct l as [|p l]; simpl in Hc; [lia|]. destruct Hc as [-> _].
        inversion_clear Hp as [|? ? Hpp]. pose proof (page_pos p Hpp). unfold PGSIZE in *. lia.
    + by constructor.
    + by constructor.
    + unfold m2, m1. apply bytes_ok_st32, bytes_ok_memset; [unfold PGSIZE; lia|done].
    + done.
  - done.
  - intros a Ha. simpl. unfold m2, m1. rewrite ld8_st32, memset_spec by (unfold PGSIZE; lia).
    unfold PGSIZE in *.
    destruct (Z.leb_spec v a), (Z.ltb_spec a (v + 4)), (Z.ltb_spec a (v + 4096)); simpl; done || lia.
Qed.

(** ** Initialisation *)
Definition pages_from (p : Z) (n : nat) : list Z := (fun i => p + PGSIZE * Z.of_nat i) <$> seq 0 n.

Lemma pages_from_S p n : pages_from p (S n) = p :: pages_from (p + PGSIZE) n.
Proof.
  unfold pages_from. simpl. f_equal; [unfold PGSIZE; lia|].
  rewrite <- fmap_S_seq, <- list_fmap_compose. apply list_fmap_ext. intros i x _. simpl.
  unfold PGSIZE. lia.
Qed.

Lemma elem_of_pages_from p n q : q ∈ pages_from p n -> p <= q < p + PGSIZE * Z.of_nat n.
Proof.
  unfold pages_from. rewrite list_elem_of_fmap. intros (i & -> & Hi). apply elem_of_seq in Hi.
  unfold PGSIZE. lia.
Qed.

Lemma freerange_loop_spec n p vend k l :
  kmem_ok k l -> 0 <= p -> p + PGSIZE * Z.of_nat n <= vend < p + PGSIZE * (Z.of_nat n + 1) ->
  vend < 2 ^ 32 - PGSIZE -> Forall page_ok (pages_from p n) ->
  (forall q, q ∈ pages_from p n -> q ∉ l) ->
  forall fuel, (n <= fuel)%nat ->
  exists k', freerange_loop fuel p vend k = Done k' tt /\ kmem_ok k' (reverse (pages_from p n) ++ l).
Proof.
  revert p k l. induction n as [|n IH]; intros p k l Hk Hp Hv Hmax Hpg Hni fuel Hfuel.
  - exists k. split; [|done].
    assert ((u32 (p + PGSIZE) <=? vend) = false) as Hstop.
    { rewrite u32_small by (unfold PGSIZE in *; lia). apply Z.leb_gt. unfold PGSIZE in *. lia. }
    destruct fuel; cbn [freerange_loop]; by rewrite Hstop.
  - destruct fuel as [|fuel]; [lia|]. rewrite pages_from_S in *. inversion_clear Hpg as [|? ? Hpp Hpg'].
    destruct (kfree_spec k l p Hk Hpp) as (k1 & Hk1 & Hok1 & _); [apply Hni; by left|].
    destruct (IH (p + PGSIZE) k1 (p :: l)) with (fuel := fuel) as (k2 & Hk2 & Hok2);
      [done|unfold PGSIZE in *; lia|unfold PGSIZE in *; lia|done|done| |lia|].
    { intros q Hq Hin. apply elem_of_cons in Hin as [->|Hin].
      - apply elem_of_pages_from in Hq. unfold PGSIZE in *. lia.
      - apply (Hni q); [by right|done]. }
    exists k2. split.
    + cbn [freerange_loop]. rewrite u32_small by (unfold PGSIZE in *; lia).
      rewrite (proj2 (Z.leb_le _ _)) by (unfold PGSIZE in *; lia).
      by rewrite (bind_Done _ _ _ _ _ Hk1).
    + rewrite reverse_cons, <- app_assoc. done.
Qed.

(** ** Clients of the allocator

    A client allocates, frees pages it owns and writes into pages it owns. *)
Definition client : Type := kmem * list Z.

Inductive client_step : client -> client -> Prop :=
| C_alloc k A k' r : kalloc k = Done k' r ->
    client_step (k, A) (k', if r =? 0 then A else r :: A)
| C_free k A1 A2 p k' : kfree p k = Done k' tt -> client_step (k, A1 ++ p :: A2) (k', A1 ++ A2)
| C_write k A p a v : p ∈ A -> in_page p a ->
    client_step (k, A) (put_mem (st8 (km_mem k) a v) k, A).

(** The owned and the free pages are together always the same pages. *)
Definition client_ok (l0 : list Z) (x : client) : Prop :=
  exists l, kmem_ok x.1 l /\ x.2 ++ l ≡ₚ l0.

Lemma client_ok_facts l0 x : NoDup l0 -> Forall page_ok l0 -> client_ok l0 x ->
  exists l, kmem_ok x.1 l /\ x.2 ++ l ≡ₚ l0 /\ NoDup (x.2 ++ l) /\ Forall page_ok (x.2 ++ l).
Proof. intros Hnd Hp (l & Hk & Hl). exists l. rewrite Hl. done. Qed.

Lemma client_step_ok l0 x y : NoDup l0 -> Forall page_ok l0 ->
  client_ok l0 x -> client_step x y -> client_ok l0 y.
Proof.
  intros Hnd Hp Hx Hst. destruct (client_ok_facts l0 x Hnd Hp Hx) as (l & Hk & Hl & Hnd' & Hp').
  revert Hk Hl Hnd' Hp'. destruct Hst as [k A k' r Hr|k A1 A2 p k' Hf|k A p a v Hin Ha];
    intros Hk Hl Hnd' Hp'; simpl in *.
  - destruct (kalloc_spec k l Hk) as (k1 & Hk1 & Hok & _). rewrite Hk1 in Hr. simplify_eq.
    destruct l as [|p l]; simpl in *; [by exists []|]. exists l. split; [done|].
    assert (page_ok p) as Hpp by (apply Forall_app in Hp' as [_ Hp']; by inversion_clear Hp').
    pose proof (page_pos p Hpp). rewrite (proj2 (Z.eqb_neq p 0)) by lia. simpl.
    rewrite <- Hl. by rewrite Permutation_middle.
  - rewrite <- app_assoc in *. simpl in *. apply NoDup_app in Hnd' as (_ & _ & Hnd').
    inversion_clear Hnd' as [|? ? Hnip _].
    apply Forall_app in Hp' as [_ Hp']. inversion_clear Hp' as [|? ? Hpp _].
    destruct (kfree_spec k l p Hk Hpp) as (k1 & Hk1 & Hok & _).
    { intros Hin. apply Hnip. set_solver. }
    rewrite Hk1 in Hf. simplify_eq. exists (p :: l). split; [done|].
    rewrite <- Hl. simpl. rewrite <- app_assoc. apply Permutation_app_head. symmetry.
    apply Permutation_middle.
  - exists l. split; [|done]. destruct Hk as [Hc Hpl Hndl Hb Hr]. split; simpl; try done.
    + eapply chain_frame; [|done]. intros q b Hq Hb'. rewrite ld8_st8.
      destruct (Z.eqb_spec a b) as [<-|]; [|done]. exfalso.
      rewrite Forall_app in Hp'. rewrite !Forall_forall in Hp'. destruct Hp' as [HA _].
      rewrite Forall_forall in Hpl.
      assert (q = p) as -> by (eapply page_disjoint; eauto).
      apply NoDup_app in Hnd' as (_ & Hd & _). by apply (Hd p).
    + by apply bytes_ok_st8.
Qed.

(** C31: No page is handed out twice and none is lost: in any sequence of
    allocations, frees of owned pages and writes to owned pages, the owned pages
    are distinct whole pages, none of them is on the free list, owned and free
    pages are together the initial ones, and the next kalloc or kfree returns. *)
Theorem kalloc_exclusive k0 l0 k A :
  kmem_ok k0 l0 -> rtc client_step (k0, []) (k, A) ->
  exists l, kmem_ok k l /\ NoDup (A ++ l) /\ A ++ l ≡ₚ l0 /\ Forall page_ok A /\
    (exists k', kalloc k = Done k' (hd 0 l)) /\
    (forall p, p ∈ A -> exists k', kfree p k = Done k' tt).
Proof.
  intros Hk0 Hst. pose proof Hk0 as [_ Hp Hnd _ _].
  assert (client_ok l0 (k, A)) as Hok.
  { assert (client_ok l0 (k0, [])) as H0 by (by exists l0).
    revert Hst H0. generalize (k0, [] : list Z) (k, A). intros x y Hst H0.
    induction Hst as [|x y z Hxy _ IH]; eauto using client_step_ok. }
  destruct (client_ok_facts l0 _ Hnd Hp Hok) as (l & Hk & Hl & Hnd' & Hp'). simpl in *.
  exists l. apply Forall_app in Hp' as [HpA _]. split_and!; try done.
  - destruct (kalloc_spec k l Hk) as (k' & Hk' & _). eauto.
  - intros p Hin. rewrite Forall_forall in HpA.
    apply NoDup_app in Hnd' as (_ & Hd & _).
    destruct (kfree_spec k l p Hk) as (k' & Hk' & _); eauto.
Qed.

(** kinit1 (with interrupts and locks not in use yet) and kinit2 put every
    whole page of their range on the free list, and nothing else. *)
Theorem kinit_frees_range k l vstart vend n :
  kmem_ok k l ->
  0 <= PGROUNDUP vstart ->
  PGROUNDUP vstart + PGSIZE * Z.of_nat n <= vend < PGROUNDUP vstart + PGSIZE * (Z.of_nat n + 1) ->
  vend < 2 ^ 32 - PGSIZE -> Forall page_ok (pages_from (PGROUNDUP vstart) n) ->
  (forall q, q ∈ pages_from (PGROUNDUP vstart) n -> q ∉ l) ->
  (exists k', kinit1 vstart vend k = Done k' tt /\
     kmem_ok k' (reverse (pages_from (PGROUNDUP vstart) n) ++ l)) /\
  (exists k', kinit2 vstart vend k = Done k' tt /\ km_use_lock k' = 1 /\
     chain (km_mem k') (km_freelist k') (reverse (pages_from (PGROUNDUP vstart) n) ++ l)).
Proof.
  intros Hk Hp Hv Hmax Hpg Hni.
  assert (n <= Z.to_nat (2 ^ 32 / PGSIZE))%nat as Hfuel.
  { unfold PGSIZE in *. change (2 ^ 32 / 4096) with 1048576. lia. }
  split.
  - assert (kmem_ok (put_use_lock 0 (put_lock (km_cpu k, initlock "kmem") k)) l) as Hk'.
    { destruct Hk as [H1 H2 H3 H4 H5]. split; try done. by left. }
    destruct (freerange_loop_spec n _ vend _ l Hk' Hp Hv Hmax Hpg Hni _ Hfuel) as (k' & Hrun & Hok).
    exists k'. split; [|done]. exact Hrun.
  - destruct (freerange_loop_spec n _ vend _ l Hk Hp Hv Hmax Hpg Hni _ Hfuel) as (k' & Hrun & Hok).
    exists (put_use_lock 1 k'). split_and!; [|done|apply Hok].
    unfold kinit2, freerange. by rewrite (bind_Done _ _ _ _ _ Hrun).
Qed.
End Kalloc.

(** ** A machine with one free page *)
Definition demo_page : Z := 0x80400000.
Definition demo_end : Z := 0x80110000.
Definition demo_kmem (r : Z) : kmem := mkKmem (mkCpu 0 0 0 0 None 0 0 0) (initlock "kmem") 1 r ∅.

Lemma demo_page_ok : page_ok demo_end demo_page.
Proof. split_and!; vm_compute; done. Qed.

Lemma demo_kmem_ok : kmem_ok demo_end (demo_kmem demo_page) [demo_page] /\
  kmem_ok demo_end (demo_kmem 0) [].
Proof.
  assert (bytes_ok ∅) as Hb by (intros a; unfold ld8; rewrite lookup_empty; simpl; lia).
  split; split; try exact Hb; try (right; split; reflexivity); try done.
  - apply Forall_singleton, demo_page_ok.
  - apply NoDup_singleton.
  - apply NoDup_nil. done.
Qed.

Lemma kalloc_exclusive_witness :
  exists k', kalloc 0 (demo_kmem demo_page) = Done k' demo_page /\ 
    exists l, kmem_ok demo_end k' l /\ [demo_page] ++ l ≡ₚ [demo_page].
Proof.
  destruct (kalloc_spec demo_end 0 (demo_kmem demo_page) [demo_page] (proj1 demo_kmem_ok))
    as (k' & Hk' & _ & _).
  exists k'. split; [exact Hk'|].
  destruct (kalloc_exclusive demo_end 0 (demo_kmem demo_page) [demo_page] k' [demo_page])
    as (l & Hok & _ & Hl & _).
  - apply demo_kmem_ok.
  - apply rtc_once. exact (C_alloc demo_end 0 _ [] k' demo_page Hk').
  - by exists l.
Defined.

Lemma kinit_frees_range_witness :
  exists k', kinit2 demo_end 0 demo_page (demo_page + 5000) (demo_kmem 0) = Done k' tt /\
    chain (km_mem k') (km_freelist k') [demo_page].
Proof.
  destruct (kinit_frees_range demo_end 0 (demo_kmem 0) [] demo_page (demo_page + 5000) 1)
    as (_ & k' & Hk & _ & Hc).
  - apply demo_kmem_ok.
  - vm_compute. discriminate.
  - vm_compute. split; [discriminate|reflexivity].
  - vm_compute. reflexivity.
  - apply Forall_singleton, demo_page_ok.
  - intros q _. apply not_elem_of_nil.
  - exists k'. split; [exact Hk|]. exact Hc.
Defined.
