(* ===== verification/Vm.v ===== *)
(** * Page tables and user memory (vm.c)

    Page directories and page tables are pages of the allocator's memory,
    addressed through the kernel's map of physical memory.  [translate] reads
    them the way the processor does; walkpgdir and mappages change exactly the
    translations they should. *)

From S2P Require Import Prelude Params CString Spinlock Kalloc.

Section Vm.
(** Linker symbols, the CPU, and the word the kernel finds at virtual address
    0, which belongs to the user memory of whoever is running. *)
Context (kernel_end kdata : Z) (me : nat) (word0 : Z).

Definition load (a : Z) : kernel kmem Z := kgets (fun k => ld32 (km_mem k) a).
Definition store (a v : Z) : kernel kmem unit := kmodify (fun k => put_mem (st32 (km_mem k) a v) k).
Definition set_page (a c : Z) : kernel kmem unit :=
  kmodify (fun k => put_mem (memset (km_mem k) a c PGSIZE) k).
Definition copy (dst src n : Z) : kernel kmem unit :=
  kmodify (fun k => put_mem (memmove (km_mem k) dst src n) k).
Fixpoint st_bytes (m : mem) (a : Z) (l : list Z) : mem :=
  match l with
  | [] => m
  | b :: l' => st_bytes (st8 m a b) (a + 1) l'
  end.
Definition store_bytes (a : Z) (l : list Z) : kernel kmem unit :=
  kmodify (fun k => put_mem (st_bytes (km_mem k) a l) k).
(** *p for a pointer that may be null. *)
Definition load_ptr (p : Z) : kernel kmem Z := if p =? 0 then mret word0 else load p.

Definition walkpgdir (pgdir va : Z) (alloc : bool) : kernel kmem Z :=
  let pde := pgdir + 4 * PDX va in
  e ← load pde;
  if has e PTE_P then mret (p2v (PTE_ADDR e) + 4 * PTX va)
  else if negb alloc then mret 0
  else
    pgtab ← kalloc me;
    if pgtab =? 0 then mret 0
    else
      set_page pgtab 0;;
      store pde (Z.lor (Z.lor (Z.lor (v2p pgtab) PTE_P) PTE_W) PTE_U);;
      mret (pgtab + 4 * PTX va).

(** for(;;) of mappages, at most [n] turns *)
Fixpoint mappages_loop (n : nat) (pgdir a last pa perm : Z) : kernel kmem Z :=
  match n with
  | O => kspin
  | S n' =>
      pte ← walkpgdir pgdir a true;
      if pte =? 0 then mret (-1)
      else
        e ← load pte;
        if has e PTE_P then kpanic "remap"
        else
          store pte (Z.lor (Z.lor pa perm) PTE_P);;
          if a =? last then mret 0
          else mappages_loop n' pgdir (u32 (a + PGSIZE)) last (u32 (pa + PGSIZE)) perm
  end.
Definition mappages (pgdir va size pa perm : Z) : kernel kmem Z :=
  mappages_loop (Z.to_nat (2 ^ 32 / PGSIZE)) pgdir (PGROUNDDOWN va)
    (PGROUNDDOWN (u32 (va + size - 1))) pa perm.

Record kmap_entry : Type := mkKmap { km_virt : Z; km_start : Z; km_stop : Z; km_perm : Z }.
Definition kmap : list kmap_entry :=
  [ mkKmap KERNBASE 0 EXTMEM PTE_W;
    mkKmap KERNLINK (v2p KERNLINK) (v2p kdata) 0;
    mkKmap kdata (v2p kdata) PHYSTOP PTE_W;
    mkKmap DEVSPACE DEVSPACE 0 PTE_W ].

Fixpoint setupkvm_loop (pgdir : Z) (l : list kmap_entry) : kernel kmem Z :=
  match l with
  | [] => mret pgdir
  | e :: l' =>
      r ← mappages pgdir (km_virt e) (u32 (km_stop e - km_start e)) (km_start e) (km_perm e);
      if r <? 0 then mret 0 else setupkvm_loop pgdir l'
  end.
Definition setupkvm : kernel kmem Z :=
  pgdir ← kalloc me;
  if pgdir =? 0 then mret 0
  else
    set_page pgdir 0;;
    if DEVSPACE <? p2v PHYSTOP then kpanic "PHYSTOP too high"
    else setupkvm_loop pgdir kmap.

(** memset through the null pointer faults; no process runs yet, so trap()
    panics. *)
Definition inituvm (pgdir init sz : Z) : kernel kmem unit :=
  if PGSIZE <=? sz then kpanic "inituvm: more than a page"
  else
    m ← kalloc me;
    if m =? 0 then kpanic "trap"
    else
      set_page m 0;;
      _ ← mappages pgdir 0 PGSIZE (v2p m) (Z.lor PTE_W PTE_U);
      copy m init sz.

(** loaduvm runs on a state with the file system beside the memory: [lift]
    runs memory code there, [readi dst off n] copies n bytes of the file at
    off to dst. *)
Fixpoint loaduvm_loop {T} (fuel : nat) (lift : forall A, kernel kmem A -> kernel T A) (readi : Z -> Z -> Z -> kernel T Z)
    (pgdir addr offset sz i : Z) : kernel T Z :=
  if i <? sz then
    match fuel with
    | O => kspin
    | S fuel' =>
        pte ← lift _ (walkpgdir pgdir (u32 (addr + i)) false);
        if pte =? 0 then kpanic "loaduvm: address should exist"
        else
          e ← lift _ (load pte);
          let n := if sz - i <? PGSIZE then sz - i else PGSIZE in
          r ← readi (p2v (PTE_ADDR e)) (u32 (offset + i)) n;
          if negb (u32 r =? n) then mret (-1)
          else loaduvm_loop fuel' lift readi pgdir addr offset sz (u32 (i + PGSIZE))
    end
  else mret 0.
Definition loaduvm {T} (lift : forall A, kernel kmem A -> kernel T A) (readi : Z -> Z -> Z -> kernel T Z)
    (pgdir addr offset sz : Z) : kernel T Z :=
  if negb (addr mod PGSIZE =? 0) then kpanic "loaduvm: addr must be page aligned"
  else loaduvm_loop (Z.to_nat (2 ^ 32 / PGSIZE)) lift readi pgdir addr offset sz 0.

Fixpoint deallocuvm_loop (fuel : nat) (pgdir oldsz a : Z) : kernel kmem unit :=
  if a <? oldsz then
    match fuel with
    | O => kspin
    | S fuel' =>
        pte ← walkpgdir pgdir a false;
        if pte =? 0 then
          deallocuvm_loop fuel' pgdir oldsz (u32 (u32 (a + (NPTENTRIES - 1) * PGSIZE) + PGSIZE))
        else
          e ← load pte;
          (if has e PTE_P then
             if PTE_ADDR e =? 0 then kpanic "kfree"
             else kfree kernel_end me (p2v (PTE_ADDR e));; store pte 0
           else mret tt);;
          deallocuvm_loop fuel' pgdir oldsz (u32 (a + PGSIZE))
    end
  else mret tt.
Definition deallocuvm (pgdir oldsz newsz : Z) : kernel kmem Z :=
  if oldsz <=? newsz then mret oldsz
  else
    deallocuvm_loop (Z.to_nat (2 ^ 32 / PGSIZE)) pgdir oldsz (PGROUNDUP newsz);;
    mret newsz.

Fixpoint allocuvm_loop (fuel : nat) (pgdir oldsz newsz a : Z) : kernel kmem Z :=
  if a <? newsz then
    match fuel with
    | O => kspin
    | S fuel' =>
        m ← kalloc me;
        if m =? 0 then _ ← deallocuvm pgdir newsz oldsz; mret 0
        else
          set_page m 0;;
          _ ← mappages pgdir a PGSIZE (v2p m) (Z.lor PTE_W PTE_U);
          allocuvm_loop fuel' pgdir oldsz newsz (u32 (a + PGSIZE))
    end
  else mret newsz.
Definition allocuvm (pgdir oldsz newsz : Z) : kernel kmem Z :=
  if KERNBASE <=? newsz then mret 0
  else if newsz <? oldsz then mret oldsz
  else allocuvm_loop (Z.to_nat (2 ^ 32 / PGSIZE)) pgdir oldsz newsz (PGROUNDUP oldsz).

Fixpoint freevm_loop (n : nat) (pgdir i : Z) : kernel kmem unit :=
  match n with
  | O => mret tt
  | S n' =>
      e ← load (pgdir + 4 * i);
      (if has e PTE_P then kfree kernel_end me (p2v (PTE_ADDR e)) else mret tt);;
      freevm_loop n' pgdir (i + 1)
  end.
Definition freevm (pgdir : Z) : kernel kmem unit :=
  if pgdir =? 0 then kpanic "freevm: no pgdir"
  else
    _ ← deallocuvm pgdir KERNBASE 0;
    freevm_loop (Z.to_nat NPDENTRIES) pgdir 0;;
    kfree kernel_end me pgdir.

Definition clearpteu (pgdir uva : Z) : kernel kmem unit :=
  pte ← walkpgdir pgdir uva false;
  if pte =? 0 then kpanic "clearpteu"
  else e ← load pte; store pte (clrf e PTE_U).

Fixpoint copyuvm_loop (fuel : nat) (pgdir d sz i : Z) : kernel kmem Z :=
  if i <? sz then
    match fuel with
    | O => kspin
    | S fuel' =>
        pte ← walkpgdir pgdir i false;
        if pte =? 0 then kpanic "copyuvm: pte should exist"
        else
          e ← load pte;
          if negb (has e PTE_P) then kpanic "copyuvm: page not present"
          else
            m ← kalloc me;
            if m =? 0 then freevm d;; mret 0
            else
              copy m (p2v (PTE_ADDR e)) PGSIZE;;
              r ← mappages d i PGSIZE (v2p m) (PTE_FLAGS e);
              if r <? 0 then freevm d;; mret 0
              else copyuvm_loop fuel' pgdir d sz (u32 (i + PGSIZE))
    end
  else mret d.
Definition copyuvm (pgdir sz : Z) : kernel kmem Z :=
  d ← setupkvm;
  if d =? 0 then mret 0 else copyuvm_loop (Z.to_nat (2 ^ 32 / PGSIZE)) pgdir d sz 0.

Definition uva2ka (pgdir uva : Z) : kernel kmem Z :=
  pte ← walkpgdir pgdir uva false;
  e ← load_ptr pte;
  if negb (has e PTE_P) then mret 0
  else if negb (has e PTE_U) then mret 0
  else mret (p2v (PTE_ADDR e)).

(** The source is given by its bytes. *)
Fixpoint copyout_loop (fuel : nat) (pgdir va : Z) (buf : list Z) : kernel kmem Z :=
  match buf with
  | [] => mret 0
  | _ =>
    match fuel with
    | O => kspin
    | S fuel' =>
        let va0 := PGROUNDDOWN va in
        pa0 ← uva2ka pgdir va0;
        if pa0 =? 0 then mret (-1)
        else
          let n := Z.to_nat (PGSIZE - (va - va0)) in
          store_bytes (pa0 + (va - va0)) (take n buf);;
          copyout_loop fuel' pgdir (u32 (va0 + PGSIZE)) (drop n buf)
    end
  end.
Definition copyout (pgdir va : Z) (p : list Z) : kernel kmem Z :=
  copyout_loop (length p) pgdir va p.

(** ** What the processor sees *)
Definition table_of (e : Z) : Z := p2v (PTE_ADDR e).
Definition pde_of (m : mem) (pgdir i : Z) : Z := ld32 m (pgdir + 4 * i).
Definition pte_addr (m : mem) (pgdir va : Z) : option Z :=
  let e := pde_of m pgdir (PDX va) in
  if has e PTE_P then Some (table_of e + 4 * PTX va) else None.
(** The page table entry that translates [va], if it is present. *)
Definition translate (m : mem) (pgdir va : Z) : option Z :=
  match pte_addr m pgdir va with
  | Some a => if has (ld32 m a) PTE_P then Some (ld32 m a) else None
  | None => None
  end.

(** A page directory whose tables are distinct pages that are not free. *)
Record pt_ok (m : mem) (l : list Z) (pgdir : Z) : Prop := mkPtOk {
  pt_dir : page_ok kernel_end pgdir;
  pt_dir_used : pgdir ∉ l;
  pt_table i : 0 <= i < 1024 -> has (pde_of m pgdir i) PTE_P = true ->
    page_ok kernel_end (table_of (pde_of m pgdir i)) /\
    (table_of (pde_of m pgdir i) ∉ l) /\ table_of (pde_of m pgdir i) <> pgdir;
  pt_inj i j : 0 <= i < 1024 -> 0 <= j < 1024 ->
    has (pde_of m pgdir i) PTE_P = true -> has (pde_of m pgdir j) PTE_P = true ->
    table_of (pde_of m pgdir i) = table_of (pde_of m pgdir j) -> i = j
}.

(** ** Address arithmetic *)
Lemma PDX_eq va : PDX va = (va / 2 ^ 22) mod 2 ^ 10.
Proof.
  unfold PDX, PDXSHIFT. change 0x3FF with (Z.ones 10).
  by rewrite Z.land_ones, Z.shiftr_div_pow2 by lia.
Qed.
Lemma PTX_eq va : PTX va = (va / 2 ^ 12) mod 2 ^ 10.
Proof.
  unfold PTX, PTXSHIFT. change 0x3FF with (Z.ones 10).
  by rewrite Z.land_ones, Z.shiftr_div_pow2 by lia.
Qed.
Lemma PDX_range va : 0 <= PDX va < 1024.
Proof. rewrite PDX_eq. apply Z.mod_pos_bound. lia. Qed.
Lemma PTX_range va : 0 <= PTX va < 1024.
Proof. rewrite PTX_eq. apply Z.mod_pos_bound. lia. Qed.

(** The two indices are the page number. *)
Lemma page_number va : 0 <= va < 2 ^ 32 -> PDX va * 1024 + PTX va = va / PGSIZE.
Proof.
  intros H. rewrite PDX_eq, PTX_eq. unfold PGSIZE.
  rewrite (Z.mod_small (va / 2 ^ 22)) by (split; [apply Z.div_pos; lia|apply Z.div_lt_upper_bound; lia]).
  change (2 ^ 12) with 4096. change (2 ^ 10) with 1024.
  replace (va / 2 ^ 22) with (va / 4096 / 1024) by (rewrite Z.div_div by lia; done).
  pose proof (Z.div_mod (va / 4096) 1024). lia.
Qed.

Lemma land_lnot_low x n : 0 <= n -> Z.land x (Z.lnot (2 ^ n - 1)) = x - x mod 2 ^ n.
Proof.
  intros Hn. replace (2 ^ n - 1) with (Z.ones n) by (rewrite Z.ones_equiv; lia).
  rewrite <- Z.ldiff_land, Z.ldiff_ones_r by lia.
  rewrite Z.shiftl_mul_pow2, Z.shiftr_div_pow2 by lia.
  pose proof (Z.div_mod x (2 ^ n)). lia.
Qed.

Lemma PTE_ADDR_eq e : PTE_ADDR e = e - e mod 2 ^ 12.
Proof. exact (land_lnot_low e 12 ltac:(lia)). Qed.
Lemma PGROUNDDOWN_eq a : PGROUNDDOWN a = a - a mod PGSIZE.
Proof. exact (land_lnot_low a 12 ltac:(lia)). Qed.

(** An entry built from an aligned address and flags below 2^12. *)
Lemma lor_low_mod a f : a mod 2 ^ 12 = 0 -> 0 <= f < 2 ^ 12 -> Z.lor a f = a + f.
Proof.
  intros Ha Hf. symmetry. rewrite <- Z.lxor_lor.
  - apply Z.add_nocarry_lxor. apply Z.bits_inj'. intros n Hn.
    rewrite Z.land_spec, Z.bits_0. destruct (Z.lt_ge_cases n 12) as [Hlt|Hge].
    + replace (Z.testbit a n) with false; [done|].
      rewrite <- (Z.mod_pow2_bits_low a 12 n), Ha, Z.bits_0 by lia. done.
    + replace (Z.testbit f n) with false; [by rewrite andb_false_r|].
      rewrite <- (Z.mod_small f (2 ^ 12)), Z.mod_pow2_bits_high by lia. done.
  - apply Z.bits_inj'. intros n Hn. rewrite Z.land_spec, Z.bits_0.
    destruct (Z.lt_ge_cases n 12) as [Hlt|Hge].
    + rewrite <- (Z.mod_pow2_bits_low a 12 n), Ha, Z.bits_0 by lia. done.
    + rewrite <- (Z.mod_small f (2 ^ 12)), (Z.mod_pow2_bits_high f) by lia. apply andb_false_r.
Qed.

Lemma PTE_ADDR_lor a f : a mod 2 ^ 12 = 0 -> 0 <= f < 2 ^ 12 -> PTE_ADDR (Z.lor a f) = a.
Proof.
  intros Ha Hf. rewrite PTE_ADDR_eq, lor_low_mod by done.
  rewrite Zplus_mod, Ha, Z.add_0_l, Zmod_mod, Z.mod_small by done. lia.
Qed.

Lemma has_P e : has e PTE_P = Z.testbit e 0.
Proof. change PTE_P with (2 ^ 0). by rewrite has_bit. Qed.
Lemma has_P_lor e : has (Z.lor e PTE_P) PTE_P = true.
Proof. rewrite has_P, Z.lor_spec. change (Z.testbit PTE_P 0) with true. apply orb_true_r. Qed.

Lemma p2v_v2p p : KERNBASE <= p < KERNBASE + PHYSTOP -> p2v (v2p p) = p.
Proof.
  intros H. unfold p2v, v2p. rewrite u32_add_l. replace (p - KERNBASE + KERNBASE) with p by lia.
  apply u32_small. unfold KERNBASE, PHYSTOP in *. lia.
Qed.
Lemma v2p_aligned p : p mod PGSIZE = 0 -> v2p p mod 2 ^ 12 = 0.
Proof.
  intros H. unfold v2p, u32, KERNBASE, PGSIZE in *.
  rewrite Z.mod_mod_divide by (exists (2 ^ 20); lia). Z.div_mod_to_equations. lia.
Qed.

(** The directory entry walkpgdir writes for a new table. *)
Definition new_pde (t : Z) : Z := Z.lor (Z.lor (Z.lor (v2p t) PTE_P) PTE_W) PTE_U.
Lemma new_pde_ok t : page_ok kernel_end t ->
  has (new_pde t) PTE_P = true /\ table_of (new_pde t) = t /\ 0 <= new_pde t < 2 ^ 32.
Proof.
  intros (Ha & _ & Hr). pose proof (v2p_aligned t Ha) as Hal.
  assert (new_pde t = Z.lor (v2p t) 7) as E by (unfold new_pde; by rewrite <- !Z.lor_assoc).
  split_and!.
  - rewrite E, has_P, Z.lor_spec. apply orb_true_r.
  - unfold table_of. rewrite E, PTE_ADDR_lor by (done || lia). by apply p2v_v2p.
  - rewrite E, lor_low_mod by (done || lia). unfold v2p, u32, KERNBASE, PHYSTOP in *.
    rewrite Z.mod_small; lia.
  - rewrite E, lor_low_mod by (done || lia). unfold v2p, u32, KERNBASE, PHYSTOP in *.
    rewrite Z.mod_small; lia.
Qed.

(** ** Changing memory without changing translations *)
Lemma ld32_ext m m' a : (forall b, a <= b < a + 4 -> ld8 m' b = ld8 m b) -> ld32 m' a = ld32 m a.
Proof. intros H. unfold ld32. rewrite !H by lia. done. Qed.

(** [m'] differs from [m] only in the pages [ps]. *)
Definition same_outside (ps : list Z) (m m' : mem) : Prop :=
  forall a, (forall p, p ∈ ps -> ~ in_page p a) -> ld8 m' a = ld8 m a.

Lemma word_in_page p i : 0 <= i < 1024 -> forall b, p + 4 * i <= b < p + 4 * i + 4 -> in_page p b.
Proof. unfold in_page, PGSIZE. lia. Qed.

Lemma same_outside_word ps m m' q i :
  same_outside ps m m' -> page_ok kernel_end q -> Forall (page_ok kernel_end) ps -> q ∉ ps ->
  0 <= i < 1024 -> ld32 m' (q + 4 * i) = ld32 m (q + 4 * i).
Proof.
  intros Hs Hq Hps Hni Hi. apply ld32_ext. intros b Hb. apply Hs. intros p Hp Hin.
  rewrite Forall_forall in Hps. apply Hni.
  by rewrite (page_disjoint kernel_end q p b Hq (Hps p Hp) (word_in_page q i Hi b Hb) Hin).
Qed.

Lemma zero_page_word m p i : 0 <= i < 1024 -> ld32 (memset m p 0 PGSIZE) (p + 4 * i) = 0.
Proof.
  intros Hi. unfold ld32. rewrite !memset_spec by (unfold PGSIZE; lia). unfold PGSIZE.
  repeat match goal with |- context [(?x <=? ?y) && (?z <? ?w)] =>
    rewrite (proj2 (Z.leb_le x y)), (proj2 (Z.ltb_lt z w)) by lia end. done.
Qed.

Lemma translate_present m pgdir va : has (pde_of m pgdir (PDX va)) PTE_P = true ->
  translate m pgdir va =
    let w := ld32 m (table_of (pde_of m pgdir (PDX va)) + 4 * PTX va) in
    if has w PTE_P then Some w else None.
Proof. intros H. unfold translate, pte_addr. by rewrite H. Qed.

(** Installing a fresh zeroed table [t] for directory index [i]. *)
Lemma new_table_ok m m' l t pgdir i :
  pt_ok m (t :: l) pgdir -> 0 <= i < 1024 -> page_ok kernel_end t -> t ∉ l ->
  has (pde_of m pgdir i) PTE_P = false ->
  same_outside [t; pgdir] m m' ->
  pde_of m' pgdir i = new_pde t ->
  (forall j, 0 <= j < 1024 -> j <> i -> pde_of m' pgdir j = pde_of m pgdir j) ->
  (forall j, 0 <= j < 1024 -> ld32 m' (t + 4 * j) = 0) ->
  pt_ok m' l pgdir /\ forall va, translate m' pgdir va = translate m pgdir va.
Proof.
  intros [Hd Hdu Ht Hinj] Hi Hpt Hnt Hnp Hout Hpde Hoth Hzero.
  destruct (new_pde_ok t Hpt) as (HP & Htab & _).
  assert (t <> pgdir) as Htd by (intros ->; set_solver).
  split.
  - split; [done|set_solver| |].
    + intros j Hj HPj. destruct (decide (j = i)) as [->|Hne].
      * rewrite Hpde, Htab. done.
      * rewrite (Hoth j Hj Hne) in *. destruct (Ht j Hj HPj) as (? & ? & ?). set_solver.
    + intros j k Hj Hk HPj HPk Heq.
      destruct (decide (j = i)) as [->|Hji], (decide (k = i)) as [->|Hki]; try done.
      * exfalso. rewrite Hpde, Htab, (Hoth k Hk Hki) in *. destruct (Ht k Hk HPk) as (_ & ? & _). set_solver.
      * exfalso. rewrite Hpde, Htab, (Hoth j Hj Hji) in *. destruct (Ht j Hj HPj) as (_ & ? & _). set_solver.
      * rewrite (Hoth j Hj Hji), (Hoth k Hk Hki) in *. eauto.
  - intros va. pose proof (PDX_range va) as HD. pose proof (PTX_range va) as HT.
    destruct (decide (PDX va = i)) as [<-|Hne].
    + rewrite translate_present by (by rewrite Hpde). cbv zeta.
      rewrite Hpde, Htab, Hzero, has_0 by done. unfold translate, pte_addr. by rewrite Hnp.
    + unfold translate, pte_addr. rewrite (Hoth _ HD Hne).
      destruct (has (pde_of m pgdir (PDX va)) PTE_P) eqn:HPv; [|done].
      destruct (Ht _ HD HPv) as (Hpg & Hnl & Hnd).
      erewrite (same_outside_word [t; pgdir] m m'); [done|done|done| |set_solver|done].
      constructor; [done|]. by apply Forall_singleton.
Qed.

(** ** The pages of a page table, and how it grows *)
Definition is_table (m : mem) (pgdir q : Z) : Prop :=
  q = pgdir \/ exists i, 0 <= i < 1024 /\ has (pde_of m pgdir i) PTE_P = true /\ q = table_of (pde_of m pgdir i).
Definition count (f : nat -> bool) (n : nat) : nat := length (List.filter f (seq 0 n)).
Definition present (m : mem) (pgdir : Z) : nat :=
  count (fun i => has (pde_of m pgdir (Z.of_nat i)) PTE_P) (Z.to_nat 1024).

(** From [m] with the free pages [l] to [m'] with [l']: only pages of the table
    were written, and the pages taken are its new ones. *)
Record tgrow (pgdir : Z) (m : mem) (l : list Z) (m' : mem) (l' : list Z) : Prop := mkTgrow {
  tg_free : l' `suffix_of` l;
  tg_tabs : forall q, is_table m' pgdir q <-> is_table m pgdir q \/ (q ∈ l /\ q ∉ l');
  tg_count : (length l' + present m' pgdir = length l + present m pgdir)%nat;
  tg_frame : forall a, (forall q, is_table m' pgdir q -> ~ in_page q a) -> ld8 m' a = ld8 m a
}.

Lemma tgrow_refl pgdir m l : tgrow pgdir m l m l.
Proof.
  split; [reflexivity| |reflexivity|reflexivity].
  intros q. split; [by left|]. intros [?|[? ?]]; [done|congruence].
Qed.
Lemma tgrow_trans pgdir m l m1 l1 m2 l2 :
  tgrow pgdir m l m1 l1 -> tgrow pgdir m1 l1 m2 l2 -> tgrow pgdir m l m2 l2.
Proof.
  intros [F1 T1 C1 P1] [F2 T2 C2 P2].
  assert (forall q, q ∈ l1 -> q ∈ l) as S1 by (intros q; destruct F1 as [k ->]; set_solver).
  assert (forall q, q ∈ l2 -> q ∈ l1) as S2 by (intros q; destruct F2 as [k ->]; set_solver).
  split; [by transitivity l1| |lia|].
  - intros q. rewrite T2, T1. destruct (decide (q ∈ l1)), (decide (q ∈ l2)); naive_solver.
  - intros a Ha. rewrite P2 by exact Ha. apply P1. intros q Hq. apply Ha, T2. by left.
Qed.
Lemma count_le f n : (count f n <= n)%nat.
Proof.
  unfold count. rewrite <- (length_seq n 0) at 2. generalize (seq 0 n). intros l.
  induction l as [|i l IH]; cbn; [lia|]. case_match; cbn; lia.
Qed.
Lemma count_ext f g n : (forall j, (j < n)%nat -> g j = f j) -> count g n = count f n.
Proof.
  intros H. unfold count. f_equal. apply filter_ext_in. intros j Hj. apply in_seq in Hj. apply H. lia.
Qed.
Lemma count_one (f g : nat -> bool) i (l : list nat) : NoDup l -> i ∈ l -> f i = false -> g i = true ->
  (forall j, j ∈ l -> j <> i -> g j = f j) -> length (List.filter g l) = S (length (List.filter f l)).
Proof.
  intros Hnd. induction Hnd as [|j l Hj Hnd IH]; intros Hi Hf Hg Hs; [by apply not_elem_of_nil in Hi|].
  cbn. destruct (decide (j = i)) as [->|Hne].
  - rewrite Hf, Hg. cbn. do 2 f_equal. apply filter_ext_in. intros k Hk. apply list_elem_of_In in Hk.
    apply Hs; [by right|congruence].
  - rewrite (Hs j) by (set_solver || done).
    assert (i ∈ l) by (apply elem_of_cons in Hi as [->|]; [congruence|done]).
    assert (forall k, k ∈ l -> k <> i -> g k = f k) by (intros k Hk; apply Hs; by right).
    destruct (f j); cbn; by rewrite IH.
Qed.
Lemma present_add m m' pgdir i : 0 <= i < 1024 ->
  has (pde_of m pgdir i) PTE_P = false -> has (pde_of m' pgdir i) PTE_P = true ->
  (forall j, 0 <= j < 1024 -> j <> i -> pde_of m' pgdir j = pde_of m pgdir j) ->
  present m' pgdir = S (present m pgdir).
Proof.
  intros Hi Hf Hg Hs. unfold present, count.
  apply (count_one _ _ (Z.to_nat i)); [apply NoDup_seq|apply elem_of_seq; lia|..];
    rewrite ?Z2Nat.id by lia; try assumption.
  intros j Hj Hne. apply elem_of_seq in Hj. rewrite Hs; [reflexivity|lia|lia].
Qed.
Lemma present_le m pgdir : (present m pgdir <= Z.to_nat 1024)%nat.
Proof. apply count_le. Qed.
Lemma present_same m m' pgdir :
  (forall j, 0 <= j < 1024 -> pde_of m' pgdir j = pde_of m pgdir j) -> present m' pgdir = present m pgdir.
Proof. intros Hs. apply count_ext. intros j Hj. by rewrite Hs by lia. Qed.
Lemma is_table_same m m' pgdir q :
  (forall j, 0 <= j < 1024 -> pde_of m' pgdir j = pde_of m pgdir j) ->
  is_table m' pgdir q <-> is_table m pgdir q.
Proof.
  intros Hs. unfold is_table. split; (intros [?|(i & Hi & HP & ->)]; [by left|right; exists i]).
  - rewrite Hs in HP by exact Hi. rewrite Hs by exact Hi. done.
  - rewrite Hs by exact Hi. done.
Qed.

Lemma new_table_grows m m' l t pgdir i :
  0 <= i < 1024 -> page_ok kernel_end t -> t ∉ l -> has (pde_of m pgdir i) PTE_P = false ->
  same_outside [t; pgdir] m m' -> pde_of m' pgdir i = new_pde t ->
  (forall j, 0 <= j < 1024 -> j <> i -> pde_of m' pgdir j = pde_of m pgdir j) ->
  tgrow pgdir m (t :: l) m' l.
Proof.
  intros Hi Hpt Hnt Hnp Hout Hpde Hoth. destruct (new_pde_ok t Hpt) as (HP & Htab & _).
  assert (is_table m' pgdir t) as Ht by (right; exists i; by rewrite Hpde, Htab).
  split.
  - by exists [t].
  - intros q. split.
    + intros [->|(j & Hj & HPj & ->)]; [left; by left|]. destruct (decide (j = i)) as [->|Hne].
      * right. rewrite Hpde, Htab. split; [by left|done].
      * left. right. exists j. by rewrite <- (Hoth j Hj Hne).
    + intros [[->|(j & Hj & HPj & ->)]|[Hq Hq']]; [by left| |].
      * right. exists j. destruct (decide (j = i)) as [->|Hne]; [congruence|]. by rewrite (Hoth j Hj Hne).
      * apply elem_of_cons in Hq as [->|]; done.
  - rewrite (present_add m m' pgdir i); [cbn [length]; lia|done|done|by rewrite Hpde|done].
  - intros a Ha. apply Hout. intros p Hp. apply Ha.
    apply elem_of_cons in Hp as [->|Hp]; [done|]. apply list_elem_of_singleton in Hp as ->. by left.
Qed.

Definition walked (pgdir va : Z) (l : list Z) (k k' : kmem) (l' : list Z) (r : Z) : Prop :=
  kmem_ok kernel_end k' l' /\ pt_ok (km_mem k') l' pgdir /\
  (forall va', translate (km_mem k') pgdir va' = translate (km_mem k) pgdir va') /\
  tgrow pgdir (km_mem k) l (km_mem k') l' /\
  ((r = 0 /\ l = [] /\ l' = []) \/ (r <> 0 /\ pte_addr (km_mem k') pgdir va = Some r)).

Lemma table_nonzero m l pgdir i : pt_ok m l pgdir -> 0 <= i < 1024 ->
  has (pde_of m pgdir i) PTE_P = true -> 0 < table_of (pde_of m pgdir i).
Proof.
  intros Hpt Hi HP. destruct (pt_table _ _ _ Hpt i Hi HP) as (Hpg & _). apply page_pos in Hpg. lia.
Qed.

Lemma walkpgdir_spec k l pgdir va :
  kmem_ok kernel_end k l -> pt_ok (km_mem k) l pgdir ->
  exists k' r l', walkpgdir pgdir va true k = Done k' r /\ walked pgdir va l k k' l' r.
Proof.
  intros Hk Hpt. pose proof (PDX_range va) as HD. pose proof (PTX_range va) as HT.
  unfold walkpgdir, load, mbind, kernel_bind, kgets. fold (pde_of (km_mem k) pgdir (PDX va)).
  destruct (has (pde_of (km_mem k) pgdir (PDX va)) PTE_P) eqn:HP.
  { eexists k, _, l. split; [done|]. split_and!; [done|done|done|apply tgrow_refl|]. right.
    pose proof (table_nonzero _ _ _ _ Hpt HD HP) as Hpos. unfold table_of in Hpos. split; [lia|].
    unfold pte_addr. by rewrite HP. }
  cbn [negb]. destruct (kalloc_spec kernel_end me k l Hk) as (k1 & Hrun & Hk1 & Hm1). rewrite Hrun.
  destruct l as [|t l]; simpl.
  { exists k1, 0, []. split; [done|]. split_and!; [done| | | |by left].
    - rewrite Hm1. done.
    - intros va'. by rewrite Hm1.
    - rewrite Hm1. apply tgrow_refl. }
  assert (page_ok kernel_end t /\ t ∉ l) as [Hpg Hnt].
  { destruct Hk as [_ Hp Hnd _ _]. inversion_clear Hp. by inversion_clear Hnd. }
  pose proof (page_pos kernel_end t Hpg) as Hpos. rewrite (proj2 (Z.eqb_neq t 0)) by lia. simpl in *.
  set (m' := st32 (memset (km_mem k1) t 0 PGSIZE) (pgdir + 4 * PDX va) (new_pde t)).
  exists (put_mem m' k1), (t + 4 * PTX va), l. split; [done|].
  destruct (new_pde_ok t Hpg) as (HPn & Htab & Hrange).
  assert (t <> pgdir) as Htd by (intros ->; pose proof (pt_dir_used _ _ _ Hpt); set_solver).
  assert (same_outside [t; pgdir] (km_mem k) m') as Hout.
  { intros a Ha. unfold m'. rewrite ld8_st32, memset_spec, Hm1 by (unfold PGSIZE; lia).
    specialize (Ha t ltac:(set_solver)) as Hat. specialize (Ha pgdir ltac:(set_solver)) as Had.
    unfold in_page, PGSIZE in *.
    destruct (Z.leb_spec (pgdir + 4 * PDX va) a), (Z.ltb_spec a (pgdir + 4 * PDX va + 4)),
      (Z.leb_spec t a), (Z.ltb_spec a (t + 4096)); simpl; done || lia. }
  assert (forall q j, page_ok kernel_end q -> 0 <= j < 1024 -> q + 4 * j <> pgdir + 4 * PDX va ->
    ld32 m' (q + 4 * j) = ld32 (memset (km_mem k) t 0 PGSIZE) (q + 4 * j)) as Hword.
  { intros q j Hq Hj Hne. unfold m'. rewrite Hm1. apply ld32_st32_other.
    destruct Hq as (Hq & _), (pt_dir _ _ _ Hpt) as (Hd & _). unfold PGSIZE in *. Z.div_mod_to_equations. lia. }
  assert (pde_of m' pgdir (PDX va) = new_pde t) as Hpde.
  { unfold pde_of, m'. rewrite ld32_st32_same. by apply u32_small. }
  assert (forall j, 0 <= j < 1024 -> j <> PDX va -> pde_of m' pgdir j = pde_of (km_mem k) pgdir j) as Hoth.
  { intros j Hj Hne. unfold pde_of. rewrite Hword by (done || lia || apply Hpt).
    apply ld32_ext. intros b Hb. rewrite memset_spec by (unfold PGSIZE; lia).
    destruct ((t <=? b) && (b <? t + PGSIZE)) eqn:E; [|done]. breflect. exfalso. apply Htd.
    eapply (page_disjoint kernel_end t pgdir b); [done|apply Hpt|done|by eapply word_in_page]. }
  destruct (new_table_ok (km_mem k) m' l t pgdir (PDX va)) as [Hpt' Htr]; try done.
  - intros j Hj. rewrite Hword; [by apply zero_page_word|done|done|].
    intros Heq. apply Htd. eapply (page_disjoint kernel_end t pgdir (t + 4 * j)); [done|apply Hpt| |];
      unfold in_page, PGSIZE; lia.
  - unfold walked. cbn [km_mem put_mem]. split_and!; [|done|done|by apply (new_table_grows _ _ l t pgdir (PDX va))|].
    + destruct Hk1 as [Hc Hp Hnd Hb Hr]. split; simpl; try done.
      * eapply (chain_frame (km_mem k1)); [|done]. intros p a Hp' Ha. rewrite Hm1. apply Hout.
        intros q Hq Haq. rewrite Forall_forall in Hp.
        assert (page_ok kernel_end q) as Hqok.
        { apply elem_of_cons in Hq as [->|Hq]; [done|]. apply list_elem_of_singleton in Hq as ->. apply Hpt. }
        assert (p = q) as -> by (eapply page_disjoint; [by apply Hp|done|done|done]).
        pose proof (pt_dir_used _ _ _ Hpt). set_solver.
      * apply bytes_ok_st32, bytes_ok_memset; [unfold PGSIZE; lia|done].
    + right. split; [lia|]. unfold pte_addr. by rewrite Hpde, HPn, Htab.
Qed.

(** ** Writing one page table entry *)
Lemma store_pte_spec k l pgdir va r v :
  kmem_ok kernel_end k l -> pt_ok (km_mem k) l pgdir -> 0 <= va < 2 ^ 32 ->
  pte_addr (km_mem k) pgdir va = Some r -> 0 <= v < 2 ^ 32 ->
  let m' := st32 (km_mem k) r v in
  kmem_ok kernel_end (put_mem m' k) l /\ pt_ok m' l pgdir /\
  (forall va', pte_addr m' pgdir va' = pte_addr (km_mem k) pgdir va') /\
  tgrow pgdir (km_mem k) l m' l /\
  (forall va', 0 <= va' < 2 ^ 32 -> translate m' pgdir va' =
    if va' / PGSIZE =? va / PGSIZE then (if has v PTE_P then Some v else None)
    else translate (km_mem k) pgdir va').
Proof.
  intros Hk Hpt Hva Hr Hv m'. unfold pte_addr in Hr.
  destruct (has (pde_of (km_mem k) pgdir (PDX va)) PTE_P) eqn:HP; simplify_eq.
  pose proof (PDX_range va) as HD. pose proof (PTX_range va) as HT.
  set (t := table_of (pde_of (km_mem k) pgdir (PDX va))) in *.
  destruct (pt_table _ _ _ Hpt _ HD HP) as (Hpg & Hnl & Hnd). fold t in Hpg, Hnl, Hnd.
  assert (forall q j, page_ok kernel_end q -> 0 <= j < 1024 -> (q = t -> j <> PTX va) ->
    ld32 m' (q + 4 * j) = ld32 (km_mem k) (q + 4 * j)) as Hword.
  { intros q j Hq Hj Hne. unfold m'. apply ld32_st32_other.
    destruct Hq as (Hq & _), Hpg as (Ht & _). unfold PGSIZE in *.
    destruct (decide (q = t)) as [->|Hqt]; [specialize (Hne eq_refl); lia|].
    Z.div_mod_to_equations. lia. }
  assert (forall j, 0 <= j < 1024 -> pde_of m' pgdir j = pde_of (km_mem k) pgdir j) as Hpde.
  { intros j Hj. unfold pde_of. apply Hword; [apply Hpt|done|congruence]. }
  assert (forall va', pte_addr m' pgdir va' = pte_addr (km_mem k) pgdir va') as Haddr.
  { intros va'. unfold pte_addr. by rewrite Hpde by apply PDX_range. }
  assert (is_table m' pgdir t) as Hist.
  { right. exists (PDX va). rewrite Hpde by done. done. }
  split_and!; [| |done| |].
  - destruct Hk as [Hc Hp Hndl Hb Hrd]. split; simpl; try done.
    + eapply (chain_frame (km_mem k)); [|done]. intros p a Hp' Ha. unfold m'. rewrite ld8_st32.
      destruct ((t + 4 * PTX va <=? a) && (a <? t + 4 * PTX va + 4)) eqn:Eb; [|done]. breflect.
      exfalso. apply Hnl. rewrite Forall_forall in Hp.
      by rewrite (page_disjoint kernel_end t p a Hpg (Hp p Hp')
        (word_in_page t (PTX va) HT a ltac:(lia)) Ha).
    + by apply bytes_ok_st32.
  - destruct Hpt as [H1 H2 H3 H4]. split; [done|done| |].
    + intros i Hi. rewrite Hpde by done. auto.
    + intros i j Hi Hj. rewrite !Hpde by done. auto.
  - split; [done| |by rewrite (present_same _ _ _ Hpde)|].
    + intros q. rewrite (is_table_same _ _ _ q Hpde). split; [by left|]. intros [?|[? ?]]; [done|congruence].
    + intros a Ha. unfold m'. rewrite ld8_st32. specialize (Ha t Hist). unfold in_page, PGSIZE in Ha.
      case_match; [breflect; lia|done].
  - intros va' Hva'. unfold translate. rewrite Haddr. unfold pte_addr.
    pose proof (PDX_range va') as HD'. pose proof (PTX_range va') as HT'.
    destruct (va' / PGSIZE =? va / PGSIZE) eqn:Epg; breflect.
    + assert (PDX va' = PDX va /\ PTX va' = PTX va) as [-> ->].
      { pose proof (page_number va Hva). pose proof (page_number va' Hva'). lia. }
      rewrite HP. fold t. unfold m'. by rewrite ld32_st32_same, u32_small.
    + destruct (has (pde_of (km_mem k) pgdir (PDX va')) PTE_P) eqn:HP'; [|done].
      destruct (pt_table _ _ _ Hpt _ HD' HP') as (Hpg' & _).
      rewrite Hword; [done|done|done|]. intros Heq HPTX.
      assert (PDX va' = PDX va) as HDX by (by eapply (pt_inj _ _ _ Hpt)).
      apply Epg. rewrite <- (page_number va Hva), <- (page_number va' Hva'). lia.
Qed.

Lemma pte_addr_nonzero m l pgdir va r : pt_ok m l pgdir -> pte_addr m pgdir va = Some r -> r <> 0.
Proof.
  intros Hpt. unfold pte_addr. destruct (has _ _) eqn:HP; [|done]. intros [= <-].
  pose proof (table_nonzero _ _ _ _ Hpt (PDX_range va) HP). pose proof (PTX_range va). lia.
Qed.

(** ** mappages *)

(** The entry mappages writes for the page of [va'] in a range that starts at
    page [a] and physical page [pa]. *)
Definition mapped_entry (a pa perm va' : Z) : Z :=
  Z.lor (Z.lor (u32 (pa + (va' / PGSIZE - a / PGSIZE) * PGSIZE)) perm) PTE_P.

(** [m'] maps the first [n] pages of the range and is otherwise like [m]. *)
Definition maps (pgdir a pa perm : Z) (n : Z) (m m' : mem) : Prop :=
  forall va', 0 <= va' < 2 ^ 32 -> translate m' pgdir va' =
    if (a / PGSIZE <=? va' / PGSIZE) && (va' / PGSIZE <? a / PGSIZE + n)
    then Some (mapped_entry a pa perm va') else translate m pgdir va'.

Lemma mapped_entry_range a pa perm va' : 0 <= perm < 2 ^ 12 -> 0 <= mapped_entry a pa perm va' < 2 ^ 32.
Proof.
  intros Hp. unfold mapped_entry. set (x := u32 _). assert (0 <= x < 2 ^ 32) as Hx by apply u32_range.
  rewrite <- Z.lor_assoc. set (y := Z.lor perm PTE_P).
  assert (0 <= y < 2 ^ 12) as Hy.
  { unfold y. split; [apply Z.lor_nonneg; unfold PTE_P; lia|].
    destruct (Z.eq_dec (Z.lor perm PTE_P) 0) as [->|Hnz]; [lia|].
    assert (0 <= Z.lor perm PTE_P) by (apply Z.lor_nonneg; unfold PTE_P; lia).
    apply Z.log2_lt_pow2; [lia|]. rewrite Z.log2_lor by (unfold PTE_P; lia).
    apply Z.max_lub_lt; [|done]. destruct (Z.eq_dec perm 0) as [->|]; [done|]. apply Z.log2_lt_pow2; lia. }
  split; [apply Z.lor_nonneg; lia|].
  destruct (Z.eq_dec (Z.lor x y) 0) as [->|Hnz]; [lia|].
  assert (0 <= Z.lor x y) by (apply Z.lor_nonneg; lia).
  apply Z.log2_lt_pow2; [lia|]. rewrite Z.log2_lor by lia.
  apply Z.max_lub_lt; (destruct (Z.eq_dec x 0) as [->|]; destruct (Z.eq_dec y 0) as [->|];
    try done; apply Z.log2_lt_pow2; lia).
Qed.

Lemma next_page a : (a + PGSIZE) / PGSIZE = a / PGSIZE + 1.
Proof. unfold PGSIZE. replace (a + 4096) with (a + 1 * 4096) by lia. by rewrite Z.div_add. Qed.

Lemma mapped_entry_next a pa perm va' :
  mapped_entry (a + PGSIZE) (u32 (pa + PGSIZE)) perm va' = mapped_entry a pa perm va'.
Proof.
  unfold mapped_entry. do 2 f_equal. rewrite u32_add_l, next_page. f_equal. unfold PGSIZE. lia.
Qed.

Lemma maps_step pgdir a pa perm j m m1 m2 :
  0 <= j -> maps pgdir a pa perm 1 m m1 -> maps pgdir (a + PGSIZE) (u32 (pa + PGSIZE)) perm j m1 m2 ->
  maps pgdir a pa perm (j + 1) m m2.
Proof.
  intros Hj H1 H2 va' Hva'. rewrite (H2 va' Hva'), (H1 va' Hva'), next_page, mapped_entry_next.
  destruct (Z.leb_spec (a / PGSIZE + 1) (va' / PGSIZE)), (Z.ltb_spec (va' / PGSIZE) (a / PGSIZE + 1 + j)),
    (Z.leb_spec (a / PGSIZE) (va' / PGSIZE)), (Z.ltb_spec (va' / PGSIZE) (a / PGSIZE + 1)),
    (Z.ltb_spec (va' / PGSIZE) (a / PGSIZE + (j + 1))); simpl; done || lia.
Qed.

Lemma maps_none pgdir a pa perm m m' :
  (forall va', translate m' pgdir va' = translate m pgdir va') -> maps pgdir a pa perm 0 m m'.
Proof.
  intros H va' _. rewrite H.
  destruct (Z.leb_spec (a / PGSIZE) (va' / PGSIZE)), (Z.ltb_spec (va' / PGSIZE) (a / PGSIZE + 0));
    simpl; done || lia.
Qed.

(** How mappages ends on a range of [n] pages: all mapped, or memory exhausted
    with a prefix mapped. *)
Definition mappages_post (pgdir a pa perm : Z) (n : Z) (k : kmem) (l : list Z) (k' : kmem) (r : Z) : Prop :=
  exists l' j, kmem_ok kernel_end k' l' /\ pt_ok (km_mem k') l' pgdir /\
    maps pgdir a pa perm j (km_mem k) (km_mem k') /\ tgrow pgdir (km_mem k) l (km_mem k') l' /\
    ((r = 0 /\ j = n) \/ (r = -1 /\ 0 <= j < n /\ l' = [])).

(** The body of the loop, on a page that is not mapped. *)
Lemma map_page_spec k l pgdir a pa perm (kont : kernel kmem Z) :
  0 <= a < 2 ^ 32 -> 0 <= perm < 2 ^ 12 -> 0 <= pa < 2 ^ 32 ->
  kmem_ok kernel_end k l -> pt_ok (km_mem k) l pgdir -> translate (km_mem k) pgdir a = None ->
  let body := pte ← walkpgdir pgdir a true;
    if pte =? 0 then mret (-1)
    else e ← load pte;
      if has e PTE_P then kpanic "remap" else store pte (Z.lor (Z.lor pa perm) PTE_P);; kont in
  (exists k1, body k = Done k1 (-1) /\ mappages_post pgdir a pa perm 1 k l k1 (-1)) \/
  (exists k1 l1, body k = kont k1 /\ kmem_ok kernel_end k1 l1 /\ pt_ok (km_mem k1) l1 pgdir /\
     maps pgdir a pa perm 1 (km_mem k) (km_mem k1) /\ tgrow pgdir (km_mem k) l (km_mem k1) l1).
Proof.
  intros Ha Hperm Hpa Hk Hpt Hun body.
  destruct (walkpgdir_spec k l pgdir a Hk Hpt) as (k1 & r & l1 & Hw & Hk1 & Hpt1 & Htr & Hgrow & Hcase).
  unfold body. rewrite (bind_Done _ _ _ _ _ Hw). destruct Hcase as [(-> & -> & ->)|(Hr & Haddr)].
  { left. exists k1. split; [done|]. exists [], 0. split_and!; [done|done|by apply maps_none|done|].
    right. split_and!; done || lia. }
  right. rewrite (proj2 (Z.eqb_neq r 0) Hr).
  assert (has (ld32 (km_mem k1) r) PTE_P = false) as Habs.
  { rewrite <- Htr in Hun. unfold translate in Hun. rewrite Haddr in Hun.
    by destruct (has (ld32 (km_mem k1) r) PTE_P). }
  unfold load, store. rewrite (bind_Done _ _ _ k1 (ld32 (km_mem k1) r)) by reflexivity. rewrite Habs.
  set (v := Z.lor (Z.lor pa perm) PTE_P).
  assert (v = mapped_entry a pa perm a) as Hv.
  { unfold v, mapped_entry. by rewrite Z.sub_diag, Z.mul_0_l, Z.add_0_r, u32_small by lia. }
  pose proof (mapped_entry_range a pa perm a Hperm) as Hvr. rewrite <- Hv in Hvr.
  destruct (store_pte_spec k1 l1 pgdir a r v Hk1 Hpt1 Ha Haddr Hvr) as (Hk2 & Hpt2 & _ & Hg2 & Htr2).
  exists (put_mem (st32 (km_mem k1) r v) k1), l1. split_and!; [done|done|done| |by eapply tgrow_trans].
  intros va' Hva'. simpl. rewrite (Htr2 va' Hva'), Htr.
  destruct (Z.eqb_spec (va' / PGSIZE) (a / PGSIZE)) as [E|E];
    destruct (Z.leb_spec (a / PGSIZE) (va' / PGSIZE)), (Z.ltb_spec (va' / PGSIZE) (a / PGSIZE + 1));
    simpl; try lia; try done.
  unfold v. rewrite has_P_lor. fold v. f_equal. rewrite Hv. unfold mapped_entry. by rewrite E.
Qed.

Lemma page_bounds a va' n : 0 <= a -> a / PGSIZE <= va' / PGSIZE < a / PGSIZE + n ->
  a mod PGSIZE = 0 -> a + PGSIZE * n <= 2 ^ 32 -> 0 <= va' < 2 ^ 32.
Proof. unfold PGSIZE. intros. Z.div_mod_to_equations. lia. Qed.

Lemma mappages_loop_spec n k l pgdir a pa perm fuel :
  (n < fuel)%nat -> 0 <= a -> a mod PGSIZE = 0 -> a + PGSIZE * Z.of_nat (S n) <= 2 ^ 32 ->
  0 <= perm < 2 ^ 12 -> 0 <= pa < 2 ^ 32 ->
  kmem_ok kernel_end k l -> pt_ok (km_mem k) l pgdir ->
  (forall va', a / PGSIZE <= va' / PGSIZE < a / PGSIZE + Z.of_nat (S n) ->
     translate (km_mem k) pgdir va' = None) ->
  exists k' r, mappages_loop fuel pgdir a (a + PGSIZE * Z.of_nat n) pa perm k = Done k' r /\
    mappages_post pgdir a pa perm (Z.of_nat (S n)) k l k' r.
Proof.
  revert k l a pa fuel. induction n as [|n IH]; intros k l a pa fuel Hf Ha Hal Hmax Hperm Hpa Hk Hpt Hun;
    (destruct fuel as [|fuel]; [lia|]); cbn [mappages_loop];
    set (kont := if a =? _ then _ else _);
    (destruct (map_page_spec k l pgdir a pa perm kont)
      as [(k1 & Hrun & Hpost)|(k1 & l1 & Hrun & Hk1 & Hpt1 & Hmap & Hgrow)];
      [unfold PGSIZE in *; lia|done|done|done|done|apply Hun; lia| |]); rewrite Hrun; subst kont.
  - eauto.
  - rewrite (proj2 (Z.eqb_eq a _)) by lia. exists k1, 0. split; [done|].
    exists l1, 1. split_and!; [done|done|done|done|by left].
  - exists k1, (-1). split; [done|]. destruct Hpost as (l' & j & H1 & H2 & H3 & H4 & [[? _]|(_ & Hj & Hl)]); [done|].
    exists l', j. split_and!; [done|done|done|done|]. right. split_and!; done || lia.
  - rewrite (proj2 (Z.eqb_neq a _)) by (unfold PGSIZE; lia).
    rewrite (u32_small (a + PGSIZE)) by (unfold PGSIZE in *; lia).
    destruct (IH k1 l1 (a + PGSIZE) (u32 (pa + PGSIZE)) fuel)
      as (k3 & r3 & Hrun3 & l3 & j & Hk3 & Hpt3 & Hmap3 & Hgrow3 & Hend); try done; try apply u32_range;
      try (unfold PGSIZE in *; lia).
    + unfold PGSIZE in *. rewrite Z.add_mod, Hal by lia. done.
    + intros va' Hva'. rewrite next_page in Hva'.
      rewrite Hmap by (eapply (page_bounds a va' (Z.of_nat (S (S n)))); (done || lia)).
      rewrite (proj2 (Z.ltb_ge _ _)), andb_false_r by lia. apply Hun. lia.
    + exists k3, r3. split.
      * replace (a + PGSIZE * Z.of_nat (S n)) with (a + PGSIZE + PGSIZE * Z.of_nat n) by (unfold PGSIZE; lia).
        exact Hrun3.
      * exists l3, (j + 1). split_and!; [done|done| |by eapply tgrow_trans|].
        -- eapply maps_step; [|exact Hmap|exact Hmap3]. lia.
        -- destruct Hend as [[-> ->]|(-> & Hj & ->)]; [left|right]; split_and!; done || lia.
Qed.

Lemma round_pages va size : 0 <= va -> 0 < size -> va + size <= 2 ^ 32 ->
  exists n, PGROUNDDOWN (u32 (va + size - 1)) = PGROUNDDOWN va + PGSIZE * Z.of_nat n /\
    PGROUNDDOWN va + PGSIZE * Z.of_nat (S n) <= 2 ^ 32 /\
    Z.of_nat (S n) = (va + size - 1) / PGSIZE - va / PGSIZE + 1.
Proof.
  intros Hva Hs Hm. exists (Z.to_nat ((va + size - 1) / PGSIZE - va / PGSIZE)).
  rewrite u32_small by lia. rewrite !PGROUNDDOWN_eq. unfold PGSIZE.
  assert (va / 4096 <= (va + size - 1) / 4096) by (apply Z.div_le_mono; lia).
  Z.div_mod_to_equations. lia.
Qed.

Lemma mappages_spec k l pgdir va size pa perm :
  kmem_ok kernel_end k l -> pt_ok (km_mem k) l pgdir ->
  0 <= va -> 0 < size -> va + size <= 2 ^ 32 -> 0 <= perm < 2 ^ 12 -> 0 <= pa < 2 ^ 32 ->
  (forall va', va / PGSIZE <= va' / PGSIZE <= (va + size - 1) / PGSIZE ->
     translate (km_mem k) pgdir va' = None) ->
  exists k' r, mappages pgdir va size pa perm k = Done k' r /\
    mappages_post pgdir va pa perm ((va + size - 1) / PGSIZE - va / PGSIZE + 1) k l k' r.
Proof.
  intros Hk Hpt Hva Hs Hm Hperm Hpa Hun.
  destruct (round_pages va size Hva Hs Hm) as (m & Hlast & Hmax & Hn).
  assert (PGROUNDDOWN va / PGSIZE = va / PGSIZE) as Hpg
    by (rewrite PGROUNDDOWN_eq; unfold PGSIZE; Z.div_mod_to_equations; lia).
  assert (PGROUNDDOWN va mod PGSIZE = 0) as Hal
    by (rewrite PGROUNDDOWN_eq; unfold PGSIZE; Z.div_mod_to_equations; lia).
  assert (0 <= PGROUNDDOWN va) as Hpos
    by (rewrite PGROUNDDOWN_eq; unfold PGSIZE; Z.div_mod_to_equations; lia).
  unfold mappages. rewrite Hlast.
  destruct (mappages_loop_spec m k l pgdir (PGROUNDDOWN va) pa perm (Z.to_nat (2 ^ 32 / PGSIZE)))
    as (k' & r & Hrun & l' & j & Hk' & Hpt' & Hmap & Hgrow & Hend); try done.
  - unfold PGSIZE in *. change (2 ^ 32 / 4096) with 1048576. lia.
  - intros va' Hva'. rewrite Hpg in Hva'. apply Hun. lia.
  - exists k', r. split; [exact Hrun|]. exists l', j. rewrite Hn in Hend. split_and!; try done.
    intros va' Hva'. rewrite (Hmap va' Hva'), Hpg. unfold mapped_entry. by rewrite Hpg.
Qed.

(** mappages on a range of addresses no page of which is mapped returns: 0
    with every page of the range mapped to consecutive physical pages with the
    permissions asked for, or -1 when memory for page tables ran out, with a
    prefix of the range mapped; no other address changes its translation. *)
Theorem mappages_correct k l pgdir va size pa perm :
  kmem_ok kernel_end k l -> pt_ok (km_mem k) l pgdir ->
  0 <= va -> 0 < size -> va + size <= 2 ^ 32 -> 0 <= perm < 2 ^ 12 -> 0 <= pa < 2 ^ 32 ->
  (forall va', va / PGSIZE <= va' / PGSIZE <= (va + size - 1) / PGSIZE ->
     translate (km_mem k) pgdir va' = None) ->
  let n := (va + size - 1) / PGSIZE - va / PGSIZE + 1 in
  exists k' r l' j, mappages pgdir va size pa perm k = Done k' r /\
    kmem_ok kernel_end k' l' /\ pt_ok (km_mem k') l' pgdir /\
    ((r = 0 /\ j = n) \/ (r = -1 /\ 0 <= j < n /\ l' = [])) /\
    forall va', 0 <= va' < 2 ^ 32 -> translate (km_mem k') pgdir va' =
      if (va / PGSIZE <=? va' / PGSIZE) && (va' / PGSIZE <? va / PGSIZE + j)
      then Some (Z.lor (Z.lor (u32 (pa + (va' / PGSIZE - va / PGSIZE) * PGSIZE)) perm) PTE_P)
      else translate (km_mem k) pgdir va'.
Proof.
  intros Hk Hpt Hva Hs Hm Hperm Hpa Hun n.
  destruct (mappages_spec k l pgdir va size pa perm)
    as (k' & r & Hrun & l' & j & Hk' & Hpt' & Hmap & _ & Hend); try done.
  exists k', r, l', j. done.
Qed.
End Vm.

(** ** A page directory without tables, and free pages *)
Definition demo_dir : Z := 0x80401000.

Lemma demo_pt_ok l : demo_dir ∉ l -> pt_ok demo_end ∅ l demo_dir.
Proof.
  intros Hni. assert (forall i, has (pde_of ∅ demo_dir i) PTE_P = false) as Hno by (intros i; done).
  split; [vm_compute; done|done| |]; intros i; [|intros j]; rewrite !Hno; done.
Qed.

Lemma mappages_correct_witness :
  exists k' r l' j, mappages 0 demo_dir 0 PGSIZE 0x300000 6 (demo_kmem demo_page) = Done k' r /\
    kmem_ok demo_end k' l' /\ ((r = 0 /\ j = 1) \/ (r = -1 /\ 0 <= j < 1 /\ l' = [])).
Proof.
  destruct (mappages_correct demo_end 0 (demo_kmem demo_page) [demo_page] demo_dir 0 PGSIZE 0x300000 6)
    as (k' & r & l' & j & Hrun & Hk & _ & Hend & _).
  - apply demo_kmem_ok.
  - apply demo_pt_ok. unfold demo_dir, demo_page. set_solver.
  - lia.
  - vm_compute. reflexivity.
  - vm_compute. discriminate.
  - lia.
  - lia.
  - intros va' _. unfold translate, pte_addr. reflexivity.
  - exists k', r, l', j. exact (conj Hrun (conj Hk Hend)).
Defined.

(** allocuvm ignores the result of mappages: with one free page left it takes
    it for the user page, mappages finds none for the page table, and allocuvm
    still reports the new size although the page is not mapped. *)
Theorem allocuvm_ignores_failed_mappages :
  exists k', allocuvm demo_end 0 demo_dir 0 PGSIZE (demo_kmem demo_page) = Done k' PGSIZE /\
    translate (km_mem k') demo_dir 0 = None /\ km_freelist k' = 0.
Proof.
  assert (match allocuvm demo_end 0 demo_dir 0 PGSIZE (demo_kmem demo_page) with
          | Done k' r => (r =? PGSIZE) && bool_decide (translate (km_mem k') demo_dir 0 = None) &&
                         (km_freelist k' =? 0)
          | _ => false end = true) as H by (vm_compute; reflexivity).
  destruct (allocuvm _ _ _ _ _ _) as [k' r| | |]; try discriminate. breflect. subst r.
  exists k'. split_and!; done.
Qed.
