(* ===== verification/VmSpace.v ===== *)
(** * Address spaces (vm.c)

    [aspace] says that a page directory describes a private address space: its
    tables and its user pages are distinct pages, none of them free.  The
    lemmas of this file follow one page: zeroed or copied after kalloc, mapped
    with mappages, released with kfree.  Each says which translations and which
    bytes change, and which pages the address space gains or gives back. *)

From S2P Require Import Prelude Params CString Spinlock Kalloc Vm.

Section VmSpace.
Context (kernel_end : Z) (me : nat).
Notation page_ok := (page_ok kernel_end).
Notation kmem_ok := (kmem_ok kernel_end).
Notation pt_ok := (pt_ok kernel_end).

(** The page an entry maps. *)
Definition page_of (e : Z) : Z := p2v (PTE_ADDR e).
Definition user (va : Z) : Prop := 0 <= va < KERNBASE.

(** The byte an access to [va] reads. *)
Definition byte (m : mem) (pgdir va : Z) : option Z :=
  match translate m pgdir va with
  | Some e => Some (ld8 m (page_of e + va mod PGSIZE))
  | None => None
  end.

Record aspace (m : mem) (l : list Z) (pgdir : Z) : Prop := mkAspace {
  as_pt : pt_ok m l pgdir;
  as_page va e : user va -> translate m pgdir va = Some e ->
    page_ok (page_of e) /\ (page_of e ∉ l) /\ ~ is_table m pgdir (page_of e);
  as_inj va va' e e' : user va -> user va' ->
    translate m pgdir va = Some e -> translate m pgdir va' = Some e' ->
    page_of e = page_of e' -> va / PGSIZE = va' / PGSIZE
}.

(** The pages of an address space: directory, tables and user pages. *)
Definition owns (m : mem) (pgdir q : Z) : Prop :=
  is_table m pgdir q \/ exists va e, user va /\ translate m pgdir va = Some e /\ q = page_of e.

(** ** Frames *)
Lemma is_table_page m l pgdir q : pt_ok m l pgdir -> is_table m pgdir q -> page_ok q /\ q ∉ l.
Proof.
  intros Hpt [->|(i & Hi & HP & ->)]; [split; [apply Hpt|by eapply pt_dir_used]|].
  destruct (pt_table _ _ _ _ Hpt i Hi HP) as (H1 & H2 & _). done.
Qed.

Lemma owns_page m l pgdir q : aspace m l pgdir -> owns m pgdir q -> page_ok q /\ q ∉ l.
Proof.
  intros Has [Ht|(va & e & Hva & He & ->)]; [eapply is_table_page; [apply Has|done]|].
  destruct (as_page _ _ _ Has va e Hva He) as (? & ? & _). done.
Qed.

(** Memory that keeps the tables keeps the translations. *)
Section Tables.
Context (m m' : mem) (l : list Z) (pgdir : Z).
Hypothesis Hpt : pt_ok m l pgdir.
Hypothesis Hsame : forall q a, is_table m pgdir q -> in_page q a -> ld8 m' a = ld8 m a.

Lemma tables_word q i : is_table m pgdir q -> 0 <= i < 1024 -> ld32 m' (q + 4 * i) = ld32 m (q + 4 * i).
Proof using Hsame. intros Hq Hi. apply ld32_ext. intros b Hb. apply (Hsame q); [done|]. by eapply word_in_page. Qed.
Lemma tables_pde i : 0 <= i < 1024 -> pde_of m' pgdir i = pde_of m pgdir i.
Proof using Hsame. intros Hi. apply tables_word; [by left|done]. Qed.
Lemma tables_translate va : translate m' pgdir va = translate m pgdir va.
Proof using Hsame.
  pose proof (PDX_range va) as HD. pose proof (PTX_range va) as HT.
  unfold translate, pte_addr. rewrite tables_pde by done.
  destruct (has (pde_of m pgdir (PDX va)) PTE_P) eqn:HP; [|done].
  rewrite tables_word; [done| |done]. right. by exists (PDX va).
Qed.
Lemma tables_pte_addr va : pte_addr m' pgdir va = pte_addr m pgdir va.
Proof using Hsame. unfold pte_addr. by rewrite tables_pde by apply PDX_range. Qed.
Lemma tables_is_table q : is_table m' pgdir q <-> is_table m pgdir q.
Proof using Hsame. apply is_table_same. exact tables_pde. Qed.
Lemma tables_present : present m' pgdir = present m pgdir.
Proof using Hsame. apply present_same. exact tables_pde. Qed.
Lemma tables_pt_ok l' : (forall q, is_table m pgdir q -> q ∉ l') -> pt_ok m' l' pgdir.
Proof using Hsame Hpt.
  intros Hl. split; [apply Hpt|apply Hl; by left| |].
  - intros i Hi. rewrite tables_pde by done. intros HP. destruct (pt_table _ _ _ _ Hpt i Hi HP) as (? & _ & ?).
    split_and!; [done| |done]. apply Hl. right. by exists i.
  - intros i j Hi Hj. rewrite !tables_pde by done. by apply (pt_inj _ _ _ _ Hpt).
Qed.
End Tables.

(** Memory that keeps the pages of an address space keeps the space. *)
Lemma aspace_frame m m' l l' pgdir :
  aspace m l pgdir -> (forall q a, owns m pgdir q -> in_page q a -> ld8 m' a = ld8 m a) ->
  (forall q, owns m pgdir q -> q ∉ l') ->
  aspace m' l' pgdir /\ (forall va, translate m' pgdir va = translate m pgdir va) /\
  (forall va, user va -> byte m' pgdir va = byte m pgdir va) /\
  (forall q, owns m' pgdir q <-> owns m pgdir q).
Proof.
  intros Has Hs Hl.
  assert (forall q a, is_table m pgdir q -> in_page q a -> ld8 m' a = ld8 m a) as Ht
    by (intros q a Hq; apply Hs; by left).
  pose proof (tables_translate _ _ _ Ht) as Htr. pose proof (tables_is_table _ _ _ Ht) as Hit.
  split_and!; [split|done| |].
  - eapply tables_pt_ok; [apply Has|done|]. intros q Hq. apply Hl. by left.
  - intros va e Hva. rewrite Htr, Hit. intros He. destruct (as_page _ _ _ Has va e Hva He) as (? & _ & ?).
    split_and!; [done| |done]. apply Hl. right. by exists va, e.
  - intros va va' e e' Hva Hva'. rewrite !Htr. by apply (as_inj _ _ _ Has).
  - intros va Hva. unfold byte. rewrite Htr. destruct (translate m pgdir va) as [e|] eqn:He; [|done].
    f_equal. apply (Hs (page_of e)); [right; by exists va, e|].
    unfold in_page, PGSIZE. pose proof (Z.mod_pos_bound va 4096). lia.
  - intros q. unfold owns. rewrite Hit. setoid_rewrite Htr. done.
Qed.

(** Memory that keeps the free pages keeps the free list. *)
Lemma kmem_frame k l m' :
  kmem_ok k l -> bytes_ok m' -> (forall q a, q ∈ l -> in_page q a -> ld8 m' a = ld8 (km_mem k) a) ->
  kmem_ok (put_mem m' k) l.
Proof.
  intros [Hc Hp Hnd Hb Hr] Hb' Hs. split; try done. simpl. eapply chain_frame; [|done]. intros q a. apply Hs.
Qed.

(** ** Growing an address space

    From [m] with the free pages [l] to [m'] with [l'], using [n] pages for user
    memory: the pages taken are the new ones of the address space, and only its
    tables and pages that were free are written. *)
Record grown (pgdir : Z) (n : nat) (m : mem) (l : list Z) (m' : mem) (l' : list Z) : Prop := mkGrown {
  gr_free : l' `suffix_of` l;
  gr_tabs q : is_table m' pgdir q -> is_table m pgdir q \/ q ∈ l;
  gr_owns q : owns m' pgdir q <-> owns m pgdir q \/ (q ∈ l /\ q ∉ l');
  gr_count : (length l' + present m' pgdir + n = length l + present m pgdir)%nat;
  gr_frame a : (forall q, is_table m pgdir q \/ q ∈ l -> ~ in_page q a) -> ld8 m' a = ld8 m a
}.

Lemma suffix_elem (l l' : list Z) q : l' `suffix_of` l -> q ∈ l' -> q ∈ l.
Proof. intros [k ->]. set_solver. Qed.

Lemma space_grown_refl pgdir m l : grown pgdir 0 m l m l.
Proof.
  split; [reflexivity|by left| |lia|reflexivity].
  intros q. split; [by left|]. intros [?|[? ?]]; [done|congruence].
Qed.
Lemma space_grown_trans pgdir n1 n2 m l m1 l1 m2 l2 :
  grown pgdir n1 m l m1 l1 -> grown pgdir n2 m1 l1 m2 l2 -> grown pgdir (n1 + n2) m l m2 l2.
Proof.
  intros [F1 T1 O1 C1 P1] [F2 T2 O2 C2 P2].
  pose proof (fun q => suffix_elem _ _ q F1) as S1. pose proof (fun q => suffix_elem _ _ q F2) as S2.
  split; [by transitivity l1| | |lia|].
  - intros q Hq. destruct (T2 q Hq) as [Hq1|Hq1]; [by apply T1|right; by apply S1].
  - intros q. rewrite O2, O1. destruct (decide (q ∈ l1)), (decide (q ∈ l2)); naive_solver.
  - intros a Ha. rewrite P2; [by apply P1|]. intros q [Hq|Hq]; apply Ha; [by apply T1|right; by apply S1].
Qed.

(** What is not a page of the space nor free is not written. *)
Lemma grown_keeps pgdir n m l m' l' q a :
  grown pgdir n m l m' l' -> pt_ok m l pgdir -> Forall page_ok l ->
  page_ok q -> ~ is_table m pgdir q -> q ∉ l -> in_page q a -> ld8 m' a = ld8 m a.
Proof.
  intros Hg Hpt Hl Hq Hnt Hnl Ha. apply Hg. intros p Hp Hpa.
  assert (page_ok p) as Hpp.
  { destruct Hp as [Hp|Hp]; [by eapply is_table_page|]. rewrite Forall_forall in Hl. by apply Hl. }
  assert (p = q) as -> by (by eapply page_disjoint). by destruct Hp.
Qed.

(** User memory that stays mapped where it was keeps its bytes. *)
Lemma grown_byte pgdir n m l m' l' va :
  grown pgdir n m l m' l' -> aspace m l pgdir -> Forall page_ok l -> user va ->
  translate m pgdir va <> None -> translate m' pgdir va = translate m pgdir va ->
  byte m' pgdir va = byte m pgdir va.
Proof.
  intros Hg Has Hl Hva Hne Htr. unfold byte. rewrite Htr. destruct (translate m pgdir va) as [e|] eqn:He; [|done].
  destruct (as_page _ _ _ Has va e Hva He) as (H1 & H2 & H3). f_equal.
  eapply (grown_keeps pgdir n m l m' l' (page_of e)); try done; [apply Has|].
  unfold in_page, PGSIZE. pose proof (Z.mod_pos_bound va 4096). lia.
Qed.

(** Another address space does not notice. *)
Lemma grown_other pgdir d n m l m' l' :
  grown d n m l m' l' -> pt_ok m l d -> Forall page_ok l -> aspace m l pgdir ->
  (forall q, owns m pgdir q -> ~ owns m d q) ->
  aspace m' l' pgdir /\ (forall va, translate m' pgdir va = translate m pgdir va) /\
  (forall va, user va -> byte m' pgdir va = byte m pgdir va) /\
  (forall q, owns m' pgdir q <-> owns m pgdir q) /\
  (forall q, owns m' pgdir q -> ~ owns m' d q).
Proof.
  intros Hg Hd Hl Has Hdis.
  destruct (aspace_frame m m' l l' pgdir Has) as (H1 & H2 & H3 & H4).
  - intros q a Hq. destruct (owns_page _ _ _ _ Has Hq) as [Hpq Hnq].
    eapply (grown_keeps d); try done. intros Ht. apply (Hdis q Hq). by left.
  - intros q Hq Hin. apply (owns_page _ _ _ _ Has Hq). eapply suffix_elem; [apply Hg|done].
  - split_and!; try done. intros q. rewrite H4, (gr_owns _ _ _ _ _ _ Hg). intros Hq [Hq'|[Hq' _]]; [by eapply Hdis|].
    by apply (owns_page _ _ _ _ Has Hq).
Qed.

(** ** Mapping one page *)
Definition flags_ok (perm : Z) : Prop := 0 <= perm < 2 ^ 12.
Definition entry (p perm : Z) : Z := Z.lor (Z.lor (v2p p) perm) PTE_P.

Lemma flags_P perm : flags_ok perm -> flags_ok (Z.lor perm PTE_P).
Proof.
  unfold flags_ok. intros H. split; [apply Z.lor_nonneg; unfold PTE_P; lia|].
  destruct (Z.eq_dec perm 0) as [->|Hnz]; [done|].
  apply Z.log2_lt_pow2; [|rewrite Z.log2_lor by (unfold PTE_P; lia); apply Z.max_lub_lt; [by apply Z.log2_lt_pow2; lia|done]].
  assert (0 <= Z.lor perm PTE_P) by (apply Z.lor_nonneg; unfold PTE_P; lia).
  destruct (Z.eq_dec (Z.lor perm PTE_P) 0) as [E|]; [|lia]. apply Z.lor_eq_0_iff in E as [? _]. done.
Qed.
Lemma entry_page p perm : page_ok p -> flags_ok perm -> page_of (entry p perm) = p.
Proof.
  intros (Ha & _ & Hr) Hf. unfold page_of, entry. rewrite <- Z.lor_assoc, PTE_ADDR_lor; [by apply p2v_v2p|by apply v2p_aligned|].
  by apply flags_P.
Qed.

Lemma translate_page m pgdir va va' : va / PGSIZE = va' / PGSIZE -> translate m pgdir va = translate m pgdir va'.
Proof.
  intros E. assert (PDX va = PDX va' /\ PTX va = PTX va') as [HD HT].
  { rewrite !PDX_eq, !PTX_eq. unfold PGSIZE in E. change (2 ^ 22) with (4096 * 1024). change (2 ^ 12) with 4096.
    rewrite <- !Z.div_div by lia. by rewrite E. }
  unfold translate, pte_addr. by rewrite HD, HT.
Qed.

Lemma one_page a : a mod PGSIZE = 0 -> (a + PGSIZE - 1) / PGSIZE = a / PGSIZE.
Proof. unfold PGSIZE. intros. Z.div_mod_to_equations. lia. Qed.

Lemma v2p_small p : 0 <= v2p p < 2 ^ 32.
Proof. apply u32_range. Qed.

(** With more free pages than tables can be missing, one page is left. *)
Lemma budget_left pgdir m l m' l' :
  (Z.to_nat 1024 < length l + present m pgdir)%nat -> tgrow pgdir m l m' l' -> l' <> [].
Proof.
  intros Hb Hg ->. pose proof (tg_count _ _ _ _ _ Hg) as Hc. pose proof (present_le m' pgdir) as Hle.
  cbn [length] in Hc. lia.
Qed.

Lemma map_user k l pgdir a p perm :
  kmem_ok k l -> aspace (km_mem k) l pgdir -> page_ok p -> p ∉ l -> ~ owns (km_mem k) pgdir p ->
  a mod PGSIZE = 0 -> user a -> flags_ok perm -> translate (km_mem k) pgdir a = None ->
  (Z.to_nat 1024 < length l + present (km_mem k) pgdir)%nat ->
  exists k' l', mappages me pgdir a PGSIZE (v2p p) perm k = Done k' 0 /\
    kmem_ok k' l' /\ aspace (km_mem k') l' pgdir /\ tgrow pgdir (km_mem k) l (km_mem k') l' /\
    (forall va, 0 <= va < 2 ^ 32 -> translate (km_mem k') pgdir va =
       if va / PGSIZE =? a / PGSIZE then Some (entry p perm) else translate (km_mem k) pgdir va).
Proof.
  intros Hk Has Hp Hpl Hpo Hal Ha Hperm Hun Hbud.
  destruct (mappages_spec kernel_end me k l pgdir a PGSIZE (v2p p) perm)
    as (k' & r & Hrun & l' & j & Hk' & Hpt' & Hmap & Hg & Hend);
    [done|apply Has|apply Ha|done|unfold user, KERNBASE, PGSIZE in *; lia|done|apply v2p_small| |].
  { intros va'. rewrite one_page by done. intros. rewrite <- Hun. apply translate_page. lia. }
  rewrite one_page in Hend by done.
  destruct Hend as [[-> ->]|(-> & _ & ->)]; [|by destruct (budget_left _ _ _ _ _ Hbud Hg)].
  assert (forall va, 0 <= va < 2 ^ 32 -> translate (km_mem k') pgdir va =
    if va / PGSIZE =? a / PGSIZE then Some (entry p perm) else translate (km_mem k) pgdir va) as Htr.
  { intros va Hva. rewrite (Hmap va Hva). unfold mapped_entry. case_match; case_match; breflect; try lia; [|done].
    f_equal. unfold entry. replace (va / PGSIZE - a / PGSIZE) with 0 by lia.
    by rewrite Z.mul_0_l, Z.add_0_r, (u32_small (v2p p)) by apply v2p_small. }
  exists k', l'. split_and!; [exact Hrun|done| |done|done].
  assert (forall q, q ∈ l' -> q ∈ l) as Hsub by (intros q; eapply suffix_elem; apply Hg).
  assert (forall va, user va -> 0 <= va < 2 ^ 32) as Hu by (unfold user, KERNBASE; lia).
  split; [done| |].
  - intros va e Hva. rewrite Htr by auto. case_match; breflect.
    + intros [= <-]. rewrite entry_page, (tg_tabs _ _ _ _ _ Hg) by done.
      split_and!; [done|by intros ?%Hsub|]. intros [?|[? _]]; [|done]. apply Hpo. by left.
    + intros He. destruct (as_page _ _ _ Has va e Hva He) as (H1 & H2 & H3). rewrite (tg_tabs _ _ _ _ _ Hg).
      split_and!; [done|by intros ?%Hsub|]. by intros [?|[? _]].
  - assert (forall va e, user va -> translate (km_mem k) pgdir va = Some e -> page_of e <> p) as Hnp.
    { intros va e Hva He E. apply Hpo. right. by exists va, e. }
    intros va va' e e' Hva Hva'. rewrite !Htr by auto. do 2 case_match; breflect; try lia.
    + intros [= <-] He'. rewrite entry_page by done. intros E. by edestruct (Hnp va' e').
    + intros He [= <-]. rewrite entry_page by done. intros E. by edestruct (Hnp va e).
    + by apply (as_inj _ _ _ Has).
Qed.

Lemma owns_map m l m' l' pgdir a p perm :
  tgrow pgdir m l m' l' -> page_ok p -> flags_ok perm -> user a -> translate m pgdir a = None ->
  (forall va, 0 <= va < 2 ^ 32 -> translate m' pgdir va =
     if va / PGSIZE =? a / PGSIZE then Some (entry p perm) else translate m pgdir va) ->
  forall q, owns m' pgdir q <-> owns m pgdir q \/ q = p \/ (q ∈ l /\ q ∉ l').
Proof.
  intros Hg Hp Hperm Ha Hun Htr q. unfold owns. rewrite (tg_tabs _ _ _ _ _ Hg).
  assert (forall va, user va -> 0 <= va < 2 ^ 32) as Hu by (unfold user, KERNBASE; lia). split.
  - intros [[?|?]|(va & e & Hva & He & ->)]; [by left; left|by right; right|]. rewrite Htr in He by auto.
    case_match; [|left; right; by exists va, e]. injection He as <-. right. left. by apply entry_page.
  - intros [[?|(va & e & Hva & He & ->)]|[->|?]]; [by left; left| | |by left; right]; right.
    + exists va, e. rewrite Htr by auto. case_match; [|done]. breflect.
      by rewrite (translate_page m pgdir va a), Hun in He by done.
    + exists a, (entry p perm). rewrite Htr, Z.eqb_refl, entry_page by auto. done.
Qed.

(** A page just allocated and written, then mapped at [a]. *)
Lemma add_page k l p pgdir a perm m1 :
  kmem_ok k l -> page_ok p -> p ∉ l -> aspace (km_mem k) (p :: l) pgdir ->
  a mod PGSIZE = 0 -> user a -> flags_ok perm -> translate (km_mem k) pgdir a = None ->
  (Z.to_nat 1024 < length l + present (km_mem k) pgdir)%nat ->
  same_outside [p] (km_mem k) m1 -> bytes_ok m1 ->
  exists k' l', mappages me pgdir a PGSIZE (v2p p) perm (put_mem m1 k) = Done k' 0 /\
    kmem_ok k' l' /\ aspace (km_mem k') l' pgdir /\ grown pgdir 1 (km_mem k) (p :: l) (km_mem k') l' /\
    (forall va, 0 <= va < 2 ^ 32 -> translate (km_mem k') pgdir va =
       if va / PGSIZE =? a / PGSIZE then Some (entry p perm) else translate (km_mem k) pgdir va) /\
    (forall x, in_page p x -> ld8 (km_mem k') x = ld8 m1 x).
Proof.
  intros Hk Hp Hpl Has Hal Ha Hperm Hun Hbud Hout Hb.
  assert (forall q x, page_ok q -> q <> p -> in_page q x -> ld8 m1 x = ld8 (km_mem k) x) as Hq.
  { intros q x Hq Hne Hx. apply Hout. intros p' ->%list_elem_of_singleton Hpx. apply Hne. by eapply page_disjoint. }
  assert (forall q, owns (km_mem k) pgdir q -> page_ok q /\ q ∉ p :: l) as Hown
    by (intros q; by apply owns_page).
  destruct (aspace_frame (km_mem k) m1 (p :: l) l pgdir Has) as (Has1 & Htr1 & _ & Ho1).
  { intros q x [H1 H2]%Hown Hx. apply (Hq q); [done|set_solver|done]. }
  { intros q [_ H2]%Hown. set_solver. }
  assert (kmem_ok (put_mem m1 k) l) as Hk1.
  { apply kmem_frame; [done|done|]. intros q x Hin. apply Hq; [|by intros ->].
    pose proof (km_pages _ _ _ Hk) as Hpp. rewrite Forall_forall in Hpp. by apply Hpp. }
  assert (present m1 pgdir = present (km_mem k) pgdir) as Hpr.
  { apply tables_present. intros q x Hx. destruct (Hown q) as [? ?]; [by left|]. apply Hq; [done|set_solver]. }
  assert (forall q, is_table m1 pgdir q <-> is_table (km_mem k) pgdir q) as Hit.
  { apply tables_is_table. intros q x Hx. destruct (Hown q) as [? ?]; [by left|]. apply Hq; [done|set_solver]. }
  destruct (map_user (put_mem m1 k) l pgdir a p perm) as (k' & l' & Hrun & Hk' & Has' & Hg & Htr);
    try done; cbn [km_mem put_mem] in *; [|by rewrite Htr1|lia|].
  { rewrite Ho1. intros [_ H2]%Hown. set_solver. }
  exists k', l'. assert (~ is_table (km_mem k') pgdir p) as Hpt'.
  { rewrite (tg_tabs _ _ _ _ _ Hg), Hit. intros [Ht|[? _]]; [|done]. destruct (Hown p) as [_ ?]; [by left|]. set_solver. }
  split_and!; [exact Hrun|done|done| | |].
  - assert (forall q, q ∈ l' -> q <> p) as Hl'.
    { intros q Hq' ->. apply Hpl. eapply suffix_elem; [apply Hg|done]. }
    split.
    + apply suffix_cons_r, Hg.
    + intros q. rewrite (tg_tabs _ _ _ _ _ Hg), Hit. intros [?|[? _]]; [by left|right; by right].
    + intros q. rewrite (owns_map _ _ _ _ _ _ _ _ Hg Hp Hperm Ha ltac:(by rewrite Htr1) Htr q), Ho1, elem_of_cons.
      specialize (Hl' q). naive_solver.
    + pose proof (tg_count _ _ _ _ _ Hg). cbn [length]. lia.
    + intros x Hx. rewrite (tg_frame _ _ _ _ _ Hg); [apply Hout; intros q Hq'; apply Hx; right; set_solver|].
      intros q. rewrite (tg_tabs _ _ _ _ _ Hg), Hit. intros [?|[? _]]; apply Hx; [by left|right; by right].
  - intros va Hva. rewrite Htr by done. by rewrite Htr1.
  - intros x Hx. apply Hg. intros q Ht Hqx. apply Hpt'.
    assert (p = q) as ->; [|done]. eapply page_disjoint; [done| |done|done].
    eapply is_table_page; [apply Has'|done].
Qed.

(** ** Shrinking an address space

    [n] user pages go back to the free list; what stays mapped keeps its bytes,
    and no page is lost. *)
Record shrunk (pgdir : Z) (n : nat) (m : mem) (l : list Z) (m' : mem) (l' : list Z) : Prop := mkShrunk {
  sh_length : length l' = (n + length l)%nat;
  sh_owns q : (q ∈ l' \/ owns m' pgdir q) <-> (q ∈ l \/ owns m pgdir q);
  sh_sub q : owns m' pgdir q -> owns m pgdir q;
  sh_tabs q : is_table m' pgdir q <-> is_table m pgdir q;
  sh_byte va : user va -> translate m' pgdir va <> None ->
    translate m' pgdir va = translate m pgdir va /\ byte m' pgdir va = byte m pgdir va;
  sh_frame a : (forall q, owns m pgdir q -> ~ in_page q a) -> ld8 m' a = ld8 m a
}.

Lemma shrunk_refl pgdir m l : shrunk pgdir 0 m l m l.
Proof. by split. Qed.
Lemma shrunk_trans pgdir n1 n2 m l m1 l1 m2 l2 :
  shrunk pgdir n1 m l m1 l1 -> shrunk pgdir n2 m1 l1 m2 l2 -> shrunk pgdir (n2 + n1) m l m2 l2.
Proof.
  intros [L1 O1 S1 T1 B1 P1] [L2 O2 S2 T2 B2 P2]. split.
  - lia.
  - intros q. by rewrite O2, O1.
  - intros q Hq. by apply S1, S2.
  - intros q. by rewrite T2, T1.
  - intros va Hva Hne. destruct (B2 va Hva Hne) as [E2 ->]. rewrite E2 in *. by apply B1.
  - intros a Ha. rewrite P2; [by apply P1|]. intros q Hq. by apply Ha, S1.
Qed.

(** Releasing the page that [a] is mapped to: first the shape of the memory
    afterwards, then that kfree and the cleared entry give it. *)
Section Drop.
Context (m : mem) (l : list Z) (pgdir a e : Z).
Hypothesis Has : aspace m l pgdir.
Hypothesis Ha : user a.
Hypothesis He : translate m pgdir a = Some e.

Section Dropped.
Context (m' : mem).
Hypothesis Htr : forall va, 0 <= va < 2 ^ 32 -> translate m' pgdir va =
  if va / PGSIZE =? a / PGSIZE then None else translate m pgdir va.
Hypothesis Hit : forall q, is_table m' pgdir q <-> is_table m pgdir q.
Hypothesis Hframe : forall x, (forall q, is_table m pgdir q -> ~ in_page q x) -> ~ in_page (page_of e) x ->
  ld8 m' x = ld8 m x.

Lemma user_range va : user va -> 0 <= va < 2 ^ 32.
Proof. unfold user, KERNBASE. lia. Qed.
Hint Resolve user_range : core.

(** Other pages of the space are not the one released. *)
Lemma other_page va e' : user va -> translate m pgdir va = Some e' ->
  va / PGSIZE <> a / PGSIZE -> page_of e' <> page_of e.
Proof using Has Ha He. intros Hva He' Hne E. apply Hne. by eapply (as_inj _ _ _ Has). Qed.

Lemma dropped_aspace : pt_ok m' (page_of e :: l) pgdir -> aspace m' (page_of e :: l) pgdir.
Proof using Has Ha He Htr Hit.
  intros Hpt. split; [done| |].
  - intros va e' Hva. rewrite Htr, Hit by auto. case_match; [done|]. breflect. intros He'.
    destruct (as_page _ _ _ Has va e' Hva He') as (? & ? & ?). split_and!; [done| |done].
    intros [E|?]%elem_of_cons; [|done]. by apply (other_page va e').
  - intros va va' e1 e2 Hva Hva'. rewrite !Htr by auto. do 2 (case_match; [done|]). by apply (as_inj _ _ _ Has).
Qed.

Lemma dropped_owns q : (q = page_of e \/ owns m' pgdir q) <-> owns m pgdir q.
Proof using Ha He Htr Hit.
  unfold owns. rewrite Hit. split.
  - intros [->|[?|(va & e' & Hva & He' & ->)]]; [right; by exists a, e|by left|].
    rewrite Htr in He' by auto. case_match; [done|]. right. by exists va, e'.
  - intros [?|(va & e' & Hva & He' & ->)]; [by right; left|].
    destruct (decide (va / PGSIZE = a / PGSIZE)) as [E|E].
    + left. rewrite (translate_page _ _ _ _ E), He in He'. by injection He' as <-.
    + right. right. exists va, e'. rewrite Htr, (proj2 (Z.eqb_neq _ _)) by auto. done.
Qed.

Lemma dropped_byte va e' : user va -> va / PGSIZE <> a / PGSIZE -> translate m pgdir va = Some e' ->
  ld8 m' (page_of e' + va mod PGSIZE) = ld8 m (page_of e' + va mod PGSIZE).
Proof using Has Ha He Hframe.
  intros Hva Hne He'. destruct (as_page _ _ _ Has va e' Hva He') as (Hp' & _ & Hnt).
  destruct (as_page _ _ _ Has a e Ha He) as (Hp & _ & _).
  assert (in_page (page_of e') (page_of e' + va mod PGSIZE)) as Hin
    by (unfold in_page, PGSIZE; pose proof (Z.mod_pos_bound va 4096); lia).
  apply Hframe.
  - intros q Hq Hx. apply Hnt. replace (page_of e') with q; [done|].
    eapply page_disjoint; [eapply is_table_page; [apply Has|done]|done|done|done].
  - intros Hx. apply (other_page va e'); [done|done|done|]. by eapply page_disjoint.
Qed.

Lemma dropped_shrunk : shrunk pgdir 1 m l m' (page_of e :: l).
Proof using Has Ha He Htr Hit Hframe.
  split; [done| | |done| |].
  - intros q. rewrite elem_of_cons, <- (dropped_owns q). tauto.
  - intros q Hq. apply dropped_owns. by right.
  - intros va Hva. unfold byte. rewrite Htr by auto. case_match; [done|]. breflect. intros _. split; [done|].
    destruct (translate m pgdir va) as [e'|] eqn:He'; [|done]. f_equal. by apply dropped_byte.
  - intros x Hx. apply Hframe; [intros q Hq; apply Hx; by left|]. apply Hx. right. by exists a, e.
Qed.
End Dropped.

Lemma drop_page k r :
  kmem_ok k l -> km_mem k = m -> pte_addr m pgdir a = Some r ->
  exists k', (kfree kernel_end me (page_of e);; store r 0) k = Done k' tt /\
    kmem_ok k' (page_of e :: l) /\ aspace (km_mem k') (page_of e :: l) pgdir /\
    shrunk pgdir 1 m l (km_mem k') (page_of e :: l) /\
    (forall va, 0 <= va < 2 ^ 32 -> translate (km_mem k') pgdir va =
       if va / PGSIZE =? a / PGSIZE then None else translate m pgdir va).
Proof using Has Ha He.
  intros Hk Hm Hr. destruct (as_page _ _ _ Has a e Ha He) as (Hp & Hpl & Hpt).
  destruct (kfree_spec kernel_end me k l (page_of e) Hk Hp Hpl) as (k1 & Hrun & Hk1 & Hout & _). rewrite Hm in Hout.
  assert (forall q x, is_table m pgdir q -> in_page q x -> ld8 (km_mem k1) x = ld8 m x) as Htab.
  { intros q x Hq Hx. apply Hout. intros Hpx. apply Hpt. replace (page_of e) with q; [done|].
    eapply page_disjoint; [eapply is_table_page; [apply Has|done]|done|done|done]. }
  assert (pt_ok (km_mem k1) (page_of e :: l) pgdir) as Hpt1.
  { eapply (tables_pt_ok m _ l); [apply Has|done|]. intros q Hq.
    destruct (is_table_page _ l pgdir q (as_pt _ _ _ Has) Hq) as [_ ?]. intros [->|?]%elem_of_cons; done. }
  destruct (store_pte_spec kernel_end k1 (page_of e :: l) pgdir a r 0 Hk1 Hpt1) as (Hk2 & Hpt2 & _ & Hg2 & Htr2);
    [by apply user_range|by rewrite (tables_pte_addr m)|done|].
  set (m2 := st32 (km_mem k1) r 0) in *.
  assert (forall va, 0 <= va < 2 ^ 32 -> translate m2 pgdir va =
    if va / PGSIZE =? a / PGSIZE then None else translate m pgdir va) as Htr.
  { intros va Hva. rewrite Htr2 by done. rewrite has_0. destruct (_ =? _); [done|]. by apply tables_translate. }
  assert (forall q, is_table m2 pgdir q <-> is_table m pgdir q) as Hit.
  { intros q. rewrite (tg_tabs _ _ _ _ _ Hg2), (tables_is_table m) by done.
    split; [|by left]. intros [?|[? ?]]; [done|congruence]. }
  exists (put_mem m2 k1). split; [by rewrite (bind_Done _ _ _ _ _ Hrun)|]. cbn [km_mem put_mem].
  split_and!; [done|by apply dropped_aspace| |done].
  apply dropped_shrunk; [done|done|]. intros x Hx Hpx.
  rewrite (tg_frame _ _ _ _ _ Hg2); [by apply Hout|]. intros q. rewrite Hit. apply Hx.
Qed.
End Drop.
End VmSpace.
