(* ===== verification/VmUser.v ===== *)
(** * User memory (vm.c)

    allocuvm, deallocuvm, copyuvm, freevm and copyout on address spaces: a
    process's memory grows by zeroed pages and shrinks without losing one, the
    child of a fork has a copy of its parent's memory and shares none of it,
    and freeing an address space gives back every page it used. *)

From S2P Require Import Prelude Params CString Spinlock Kalloc Vm VmSpace.

Section VmUser.
Context (kernel_end kdata : Z) (me : nat).
Notation page_ok := (page_ok kernel_end).
Notation kmem_ok := (kmem_ok kernel_end).
Notation pt_ok := (pt_ok kernel_end).
Notation aspace := (aspace kernel_end).

(** The kernel is linked at KERNLINK, above KERNBASE. *)
Hypothesis Hend : KERNBASE < kernel_end.

(** The user part of the space is the pages 0 to [n] - 1. *)
Definition pages (m : mem) (pgdir n : Z) : Prop :=
  forall va, user va -> (translate m pgdir va = None <-> n <= va / PGSIZE).

Lemma walk_noalloc k pgdir va :
  walkpgdir me pgdir va false k = Done k (default 0 (pte_addr (km_mem k) pgdir va)).
Proof.
  unfold walkpgdir, load, mbind, kernel_bind, kgets, pte_addr.
  fold (pde_of (km_mem k) pgdir (PDX va)). by destruct (has _ _).
Qed.

Lemma user_page va : 0 <= va -> user va <-> va / PGSIZE < KERNBASE / PGSIZE.
Proof. intros H. unfold user, KERNBASE, PGSIZE. change (2147483648 / 4096) with 524288. Z.div_mod_to_equations. lia. Qed.

(** ** deallocuvm *)

(** Above the last mapped page the loop changes nothing. *)
Lemma dealloc_idle fuel k pgdir oldsz a :
  0 <= a -> oldsz <= KERNBASE -> oldsz - a <= PGSIZE * Z.of_nat fuel ->
  (forall va, a <= va < KERNBASE -> translate (km_mem k) pgdir va = None) ->
  deallocuvm_loop kernel_end me fuel pgdir oldsz a k = Done k tt.
Proof.
  revert a. induction fuel as [|fuel IH]; intros a Ha Ho Hf Hun; cbn [deallocuvm_loop].
  { rewrite (proj2 (Z.ltb_ge a oldsz)) by lia. done. }
  destruct (Z.ltb_spec a oldsz) as [Hlt|]; [|done].
  assert (a < KERNBASE) as HaK by lia.
  assert (forall b, a + PGSIZE <= b -> b < a + 2 ^ 30 ->
    deallocuvm_loop kernel_end me fuel pgdir oldsz (u32 b) k = Done k tt) as Hnext.
  { intros b Hb1 Hb2. unfold KERNBASE, PGSIZE in *. rewrite u32_small by lia. apply IH; try lia. intros va Hva. apply Hun. lia. }
  rewrite (bind_Done _ _ _ _ _ (walk_noalloc k pgdir a)).
  specialize (Hun a ltac:(lia)). unfold translate in Hun. destruct (pte_addr (km_mem k) pgdir a) as [r|]; cbn [from_option id].
  - destruct (Z.eqb_spec r 0) as [->|Hr].
    + rewrite (u32_small (a + _)) by (unfold KERNBASE, NPTENTRIES, PGSIZE in *; lia). apply Hnext; unfold NPTENTRIES, PGSIZE; lia.
    + rewrite (bind_Done _ _ _ k (ld32 (km_mem k) r)) by reflexivity.
      destruct (has (ld32 (km_mem k) r) PTE_P); [done|]. rewrite (bind_Done (mret tt) _ k k tt) by reflexivity.
      apply Hnext; unfold PGSIZE; lia.
  - rewrite Z.eqb_refl, (u32_small (a + _)) by (unfold KERNBASE, NPTENTRIES, PGSIZE in *; lia).
    apply Hnext; unfold NPTENTRIES, PGSIZE; lia.
Qed.

Lemma page_nonzero e : page_ok (page_of e) -> PTE_ADDR e <> 0.
Proof using Hend.
  intros (_ & Hp & _) E. unfold page_of in Hp. rewrite E in Hp. change (p2v 0) with KERNBASE in Hp. lia.
Qed.

Lemma page_start i : (PGSIZE * i) / PGSIZE = i.
Proof. unfold PGSIZE. rewrite Z.mul_comm. apply Z.div_mul. lia. Qed.
Lemma page_aligned i : (PGSIZE * i) mod PGSIZE = 0.
Proof. unfold PGSIZE. rewrite Z.mul_comm. apply Z.mod_mul. lia. Qed.
Lemma page_user i : 0 <= i < KERNBASE / PGSIZE -> user (PGSIZE * i).
Proof. unfold user, KERNBASE, PGSIZE. change (2147483648 / 4096) with 524288. lia. Qed.

(** [m'] is [m] without the [j] pages from page [i] on. *)
Definition without (pgdir i : Z) (j : nat) (m m' : mem) : Prop :=
  forall va, 0 <= va < 2 ^ 32 -> translate m' pgdir va =
    if (i <=? va / PGSIZE) && (va / PGSIZE <? i + Z.of_nat j) then None else translate m pgdir va.

Lemma without_0 pgdir i m : without pgdir i 0 m m.
Proof. intros va _. case_match; [breflect; lia|done]. Qed.
Lemma without_S pgdir i j m m1 m2 :
  (forall va, 0 <= va < 2 ^ 32 -> translate m1 pgdir va = if va / PGSIZE =? i then None else translate m pgdir va) ->
  without pgdir (i + 1) j m1 m2 -> without pgdir i (S j) m m2.
Proof.
  intros H1 H2 va Hva. rewrite (H2 va Hva), (H1 va Hva).
  destruct (Z.leb_spec (i + 1) (va / PGSIZE)), (Z.ltb_spec (va / PGSIZE) (i + 1 + Z.of_nat j)),
    (Z.eqb_spec (va / PGSIZE) i), (Z.leb_spec i (va / PGSIZE)),
    (Z.ltb_spec (va / PGSIZE) (i + Z.of_nat (S j))); simpl; done || lia.
Qed.

Lemma dealloc_pages j k l pgdir oldsz i fuel :
  kmem_ok k l -> aspace (km_mem k) l pgdir -> 0 <= i -> oldsz <= KERNBASE ->
  PGSIZE * (i + Z.of_nat j) < oldsz + PGSIZE -> oldsz - PGSIZE * i <= PGSIZE * Z.of_nat fuel ->
  (forall va, user va -> i <= va / PGSIZE -> (translate (km_mem k) pgdir va = None <-> i + Z.of_nat j <= va / PGSIZE)) ->
  exists k' l', deallocuvm_loop kernel_end me fuel pgdir oldsz (PGSIZE * i) k = Done k' tt /\
    kmem_ok k' l' /\ aspace (km_mem k') l' pgdir /\ shrunk pgdir j (km_mem k) l (km_mem k') l' /\
    without pgdir i j (km_mem k) (km_mem k').
Proof using Hend.
  revert k l i fuel. induction j as [|j IH]; intros k l i fuel Hk Has Hi Ho Hlast Hf Hmap.
  { exists k, l. split_and!; [|done|done|apply shrunk_refl|apply without_0].
    apply dealloc_idle; [unfold PGSIZE; lia|done|done|]. intros va Hva. apply Hmap.
    - unfold PGSIZE in *. split; lia.
    - apply Z.div_le_lower_bound; unfold PGSIZE in *; lia.
    - rewrite Z.add_0_r. apply Z.div_le_lower_bound; unfold PGSIZE in *; lia. }
  assert (i < KERNBASE / PGSIZE) as HiK.
  { unfold KERNBASE, PGSIZE in *. change (2147483648 / 4096) with 524288. lia. }
  assert (user (PGSIZE * i)) as Hu by (by apply page_user).
  destruct fuel as [|fuel]; [unfold PGSIZE in *; lia|]. cbn [deallocuvm_loop].
  rewrite (proj2 (Z.ltb_lt _ _)) by (unfold PGSIZE in *; lia).
  rewrite (bind_Done _ _ _ _ _ (walk_noalloc k pgdir _)).
  destruct (translate (km_mem k) pgdir (PGSIZE * i)) as [e|] eqn:He.
  2: { apply Hmap in He; [rewrite page_start in He; lia|done|rewrite page_start; lia]. }
  pose proof He as He'. unfold translate in He'.
  destruct (pte_addr (km_mem k) pgdir (PGSIZE * i)) as [r|] eqn:Hr; [|done]. cbn [from_option id].
  destruct (has (ld32 (km_mem k) r) PTE_P) eqn:HP; [|done]. injection He' as <-.
  rewrite (proj2 (Z.eqb_neq r 0)) by (eapply pte_addr_nonzero; [apply Has|done]).
  rewrite (bind_Done _ _ _ k (ld32 (km_mem k) r)) by reflexivity. rewrite HP.
  destruct (as_page _ _ _ _ Has _ _ Hu He) as (Hpg & _).
  rewrite (proj2 (Z.eqb_neq _ 0)) by (by apply page_nonzero).
  destruct (drop_page kernel_end me (km_mem k) l pgdir _ _ Has Hu He k r Hk eq_refl Hr)
    as (k1 & Hrun & Hk1 & Has1 & Hsh1 & Htr1). rewrite page_start in Htr1.
  rewrite (bind_Done _ _ _ _ _ Hrun), u32_small by (unfold KERNBASE, PGSIZE in *; lia).
  replace (PGSIZE * i + PGSIZE) with (PGSIZE * (i + 1)) by lia.
  destruct (IH k1 _ (i + 1) fuel Hk1 Has1) as (k' & l' & Hrun' & Hk' & Has' & Hsh' & Hw'); try (unfold PGSIZE in *; lia).
  { intros va Hva Hge. rewrite Htr1 by (by apply user_range). rewrite (proj2 (Z.eqb_neq _ _)) by lia. rewrite Hmap by (done || lia). lia. }
  exists k', l'. split_and!; [done|done|done| |by eapply without_S].
  replace (S j) with (j + 1)%nat by lia. by eapply shrunk_trans.
Qed.

(** The number of pages that [sz] bytes need. *)
Definition npages (sz : Z) : Z := (sz + PGSIZE - 1) / PGSIZE.
Lemma PGROUNDUP_npages sz : 0 <= sz <= KERNBASE -> PGROUNDUP sz = PGSIZE * npages sz.
Proof.
  intros H. unfold PGROUNDUP. fold (PGROUNDDOWN (sz + PGSIZE - 1)). rewrite PGROUNDDOWN_eq. unfold npages.
  assert (sz + PGSIZE - 1 - (sz + PGSIZE - 1) mod PGSIZE = PGSIZE * ((sz + PGSIZE - 1) / PGSIZE)) as ->
    by (unfold PGSIZE; Z.div_mod_to_equations; lia).
  apply u32_small. unfold KERNBASE, PGSIZE in *. Z.div_mod_to_equations. lia.
Qed.
Lemma npages_bounds sz : 0 <= sz -> PGSIZE * npages sz - PGSIZE < sz <= PGSIZE * npages sz.
Proof. intros H. unfold npages, PGSIZE. Z.div_mod_to_equations. lia. Qed.
Lemma npages_mono a b : a <= b -> npages a <= npages b.
Proof. intros H. unfold npages. apply Z.div_le_mono; unfold PGSIZE; lia. Qed.
Lemma npages_nonneg sz : 0 <= sz -> 0 <= npages sz.
Proof. intros H. unfold npages, PGSIZE. Z.div_mod_to_equations. lia. Qed.
Lemma npages_below sz va : 0 <= sz -> va < sz -> va / PGSIZE < npages sz.
Proof. intros H1 H2. unfold npages, PGSIZE. Z.div_mod_to_equations. lia. Qed.

Lemma npages_user sz : 0 <= sz <= KERNBASE -> npages sz <= KERNBASE / PGSIZE.
Proof. intros H. unfold npages. unfold KERNBASE, PGSIZE in *. change (2147483648 / 4096) with 524288. Z.div_mod_to_equations. lia. Qed.

Lemma vm_fuel_Z : Z.of_nat (Z.to_nat (2 ^ 32 / PGSIZE)) = 2 ^ 20.
Proof. apply Z2Nat.id. discriminate. Qed.

Lemma dealloc_spec k l pgdir n oldsz newsz :
  kmem_ok k l -> aspace (km_mem k) l pgdir -> pages (km_mem k) pgdir n ->
  0 <= newsz -> npages newsz <= n <= npages oldsz -> oldsz <= KERNBASE -> newsz < oldsz ->
  exists k' l', deallocuvm kernel_end me pgdir oldsz newsz k = Done k' newsz /\
    kmem_ok k' l' /\ aspace (km_mem k') l' pgdir /\
    shrunk pgdir (Z.to_nat (n - npages newsz)) (km_mem k) l (km_mem k') l' /\
    without pgdir (npages newsz) (Z.to_nat (n - npages newsz)) (km_mem k) (km_mem k').
Proof using Hend.
  intros Hk Has Hpg H0 Hn Ho Hlt. unfold deallocuvm. rewrite (proj2 (Z.leb_gt _ _)), PGROUNDUP_npages by lia.
  pose proof (npages_nonneg newsz H0). pose proof (npages_bounds oldsz ltac:(lia)).
  destruct (dealloc_pages (Z.to_nat (n - npages newsz)) k l pgdir oldsz (npages newsz) (Z.to_nat (2 ^ 32 / PGSIZE)))
    as (k' & l' & Hrun & Hrest); try done.
  - unfold PGSIZE in *. lia.
  - rewrite vm_fuel_Z. unfold PGSIZE, KERNBASE in *. lia.
  - intros va Hva _. rewrite (Hpg va Hva). lia.
  - exists k', l'. split; [|exact Hrest]. by rewrite (bind_Done _ _ _ _ _ Hrun).
Qed.

Lemma pages_without pgdir n i m m' : 0 <= i <= n ->
  pages m pgdir n -> without pgdir i (Z.to_nat (n - i)) m m' -> pages m' pgdir i.
Proof.
  intros Hi Hp Hw va Hva. rewrite (Hw va) by (by apply user_range). specialize (Hp va Hva).
  destruct (Z.leb_spec i (va / PGSIZE)), (Z.ltb_spec (va / PGSIZE) (i + Z.of_nat (Z.to_nat (n - i)))); simpl;
    rewrite ?Hp; split; try done; lia.
Qed.

(** ** Filling pages

    [m'] is [m] with the [j] pages from page [i] on mapped: page [x] has the
    flags [fl x], and address [va] holds the byte [c va]. *)
Definition filled (pgdir i : Z) (j : nat) (fl c : Z -> Z) (m m' : mem) : Prop :=
  forall va, 0 <= va < 2 ^ 32 ->
    if (i <=? va / PGSIZE) && (va / PGSIZE <? i + Z.of_nat j)
    then exists e, translate m' pgdir va = Some e /\ PTE_FLAGS e = fl (va / PGSIZE) /\
      byte m' pgdir va = Some (c va)
    else translate m' pgdir va = translate m pgdir va.

Lemma filled_0 pgdir i fl c m : filled pgdir i 0 fl c m m.
Proof. intros va _. case_match; [breflect; lia|done]. Qed.

Lemma filled_S pgdir i j n fl c m m1 l1 m2 l2 :
  0 <= i -> i + Z.of_nat (S j) <= KERNBASE / PGSIZE -> aspace m1 l1 pgdir -> Forall page_ok l1 ->
  grown pgdir n m1 l1 m2 l2 ->
  filled pgdir i 1 fl c m m1 -> filled pgdir (i + 1) j fl c m1 m2 -> filled pgdir i (S j) fl c m m2.
Proof.
  intros Hi Hmax Has Hl Hg H1 H2 va Hva. specialize (H1 va Hva). specialize (H2 va Hva).
  revert H1 H2. destruct (Z.leb_spec (i + 1) (va / PGSIZE)), (Z.ltb_spec (va / PGSIZE) (i + 1 + Z.of_nat j)),
    (Z.leb_spec i (va / PGSIZE)), (Z.ltb_spec (va / PGSIZE) (i + Z.of_nat 1)),
    (Z.ltb_spec (va / PGSIZE) (i + Z.of_nat (S j))); simpl; try lia; try done; intros H1' H2'; try congruence.
  destruct H1' as (e & He & Hfl & Hb). exists e. split_and!; [congruence|done|].
  rewrite <- Hb. eapply grown_byte; [done|done|done| |by rewrite He|done].
  apply user_page; lia.
Qed.

Lemma entry_flags p perm : page_ok p -> flags_ok perm -> has perm PTE_P = true -> PTE_FLAGS (entry p perm) = perm.
Proof.
  intros Hp Hf HP. unfold entry. rewrite <- Z.lor_assoc.
  assert (Z.lor perm PTE_P = perm) as ->.
  { apply Z.bits_inj'. intros n Hn. rewrite Z.lor_spec. rewrite has_P in HP.
    destruct (Z.eq_dec n 0) as [->|]; [by rewrite HP|]. change PTE_P with (2 ^ 0). by rewrite Z.pow2_bits_false, orb_false_r by done. }
  rewrite lor_low_mod by (done || by apply v2p_aligned, Hp). unfold PTE_FLAGS. change 0xFFF with (Z.ones 12).
  rewrite Z.land_ones by lia. rewrite Z.add_mod, (v2p_aligned p), Z.add_0_l, Zmod_mod by (lia || apply Hp). by apply Z.mod_small.
Qed.

Lemma in_page_off p va : in_page p (p + va mod PGSIZE).
Proof. unfold in_page, PGSIZE. pose proof (Z.mod_pos_bound va 4096). lia. Qed.

Lemma fill_page k l p pgdir i perm m1 fl c :
  kmem_ok k l -> page_ok p -> p ∉ l -> aspace (km_mem k) (p :: l) pgdir -> 0 <= i < KERNBASE / PGSIZE ->
  flags_ok perm -> translate (km_mem k) pgdir (PGSIZE * i) = None ->
  (Z.to_nat 1024 < length l + present (km_mem k) pgdir)%nat ->
  same_outside [p] (km_mem k) m1 -> bytes_ok m1 ->
  PTE_FLAGS (entry p perm) = fl i -> (forall o, 0 <= o < PGSIZE -> ld8 m1 (p + o) = c (PGSIZE * i + o)) ->
  exists k' l', mappages me pgdir (PGSIZE * i) PGSIZE (v2p p) perm (put_mem m1 k) = Done k' 0 /\
    kmem_ok k' l' /\ aspace (km_mem k') l' pgdir /\ grown pgdir 1 (km_mem k) (p :: l) (km_mem k') l' /\
    filled pgdir i 1 fl c (km_mem k) (km_mem k').
Proof.
  intros Hk Hp Hpl Has Hi Hperm Hun Hbud Hout Hb Hfl Hc.
  destruct (add_page kernel_end me k l p pgdir (PGSIZE * i) perm m1)
    as (k' & l' & Hrun & Hk' & Has' & Hg & Htr & Hdata); try done.
  { apply page_aligned. }
  { by apply page_user. }
  exists k', l'. split_and!; try done. rewrite page_start in Htr. intros va Hva. specialize (Htr va Hva).
  destruct (Z.eqb_spec (va / PGSIZE) i) as [<-|Hne];
    [|destruct (Z.leb_spec i (va / PGSIZE)), (Z.ltb_spec (va / PGSIZE) (i + Z.of_nat 1)); simpl; done || lia].
  rewrite Z.leb_refl, (proj2 (Z.ltb_lt _ _)) by lia. simpl. exists (entry p perm). split_and!; [done|done|].
  unfold byte. rewrite Htr, (entry_page kernel_end) by done. rewrite Hdata by apply in_page_off.
  rewrite Hc by (apply Z.mod_pos_bound; done). do 2 f_equal. symmetry. by apply Z.div_mod.
Qed.

(** ** allocuvm *)
Lemma same_outside_memset m p v : same_outside [p] m (memset m p v PGSIZE).
Proof.
  intros x Hx. rewrite memset_spec by (unfold PGSIZE; lia). specialize (Hx p (proj2 (list_elem_of_singleton p p) eq_refl)).
  unfold in_page in Hx. case_match; [breflect; lia|done].
Qed.

Lemma free_page k p l : kmem_ok k (p :: l) -> page_ok p /\ (p ∉ l) /\ 0 < p.
Proof.
  intros [_ Hp Hnd _ _]. inversion_clear Hp as [|? ? Hpp]. inversion_clear Hnd. pose proof (page_pos _ _ Hpp). split_and!; [done|done|lia].
Qed.

Lemma budget_nonempty m pgdir (l : list Z) n : (Z.to_nat 1024 + n < length l + present m pgdir)%nat -> exists p l', l = p :: l'.
Proof. intros H. pose proof (present_le m pgdir). destruct l as [|p l']; [cbn [length] in H; lia|by eauto]. Qed.

Lemma alloc_pages j k l pgdir oldsz newsz i fuel :
  kmem_ok k l -> aspace (km_mem k) l pgdir -> 0 <= i -> i + Z.of_nat j = npages newsz -> 0 <= newsz < KERNBASE ->
  (j <= fuel)%nat -> (Z.to_nat 1024 + j < length l + present (km_mem k) pgdir)%nat ->
  (forall va, user va -> i <= va / PGSIZE -> translate (km_mem k) pgdir va = None) ->
  exists k' l', allocuvm_loop kernel_end me fuel pgdir oldsz newsz (PGSIZE * i) k = Done k' newsz /\
    kmem_ok k' l' /\ aspace (km_mem k') l' pgdir /\ grown pgdir j (km_mem k) l (km_mem k') l' /\
    filled pgdir i j (fun _ => 7) (fun _ => 0) (km_mem k) (km_mem k').
Proof.
  revert k l i fuel. induction j as [|j IH]; intros k l i fuel Hk Has Hi Hn Hmax Hf Hbud Hun.
  { exists k, l. split_and!; [|done|done|apply space_grown_refl|apply filled_0].
    pose proof (npages_bounds newsz ltac:(lia)). assert ((PGSIZE * i <? newsz) = false) as E by (apply Z.ltb_ge; unfold PGSIZE in *; lia).
    destruct fuel; cbn [allocuvm_loop]; by rewrite E. }
  pose proof (npages_bounds newsz ltac:(lia)) as Hb.
  assert (i + Z.of_nat (S j) <= KERNBASE / PGSIZE) as HK
    by (unfold KERNBASE, PGSIZE in *; change (2147483648 / 4096) with 524288; lia).
  destruct fuel as [|fuel]; [lia|]. cbn [allocuvm_loop]. rewrite (proj2 (Z.ltb_lt _ _)) by (unfold PGSIZE in *; lia).
  destruct (budget_nonempty _ _ _ _ Hbud) as (p & l1 & ->). destruct (free_page _ _ _ Hk) as (Hp & Hpl & Hpos).
  destruct (kalloc_spec kernel_end me k _ Hk) as (k1 & Hrun & Hk1 & Hm1). cbn [hd tail] in *.
  rewrite (bind_Done _ _ _ _ _ Hrun), (proj2 (Z.eqb_neq p 0)) by lia.
  rewrite (bind_Done (set_page p 0) _ _ (put_mem (memset (km_mem k1) p 0 PGSIZE) k1) tt) by reflexivity.
  destruct (fill_page k1 l1 p pgdir i (Z.lor PTE_W PTE_U) (memset (km_mem k1) p 0 PGSIZE) (fun _ => 7) (fun _ => 0))
    as (k2 & l2 & Hrun2 & Hk2 & Has2 & Hg2 & Hf2); rewrite ?Hm1; try done.
  - lia.
  - apply Hun; [apply page_user; lia|rewrite page_start; lia].
  - cbn [length] in Hbud. lia.
  - apply same_outside_memset.
  - apply bytes_ok_memset; [done|]. rewrite <- Hm1. apply Hk1.
  - assert (entry p (Z.lor PTE_W PTE_U) = entry p 7) as -> by (unfold entry; by rewrite <- !Z.lor_assoc).
    by apply entry_flags.
  - intros o Ho. rewrite memset_spec by (unfold PGSIZE; lia). case_match; [done|]. breflect. lia.
  - rewrite Hm1 in Hrun2, Hg2, Hf2. rewrite (bind_Done _ _ _ _ _ Hrun2), u32_small by (unfold KERNBASE, PGSIZE in *; lia).
    replace (PGSIZE * i + PGSIZE) with (PGSIZE * (i + 1)) by lia.
    pose proof (gr_count _ _ _ _ _ _ Hg2) as Hc. cbn [length] in Hbud, Hc.
    destruct (IH k2 l2 (i + 1) fuel Hk2 Has2) as (k' & l' & Hrun' & Hk' & Has' & Hg' & Hf'); try done; try lia.
    { intros va Hva Hge. specialize (Hf2 va (user_range _ Hva)).
      rewrite (proj2 (Z.ltb_ge _ _)), andb_false_r in Hf2 by lia. rewrite Hf2. apply Hun; [done|lia]. }
    exists k', l'. split_and!; [done|done|done|by apply (space_grown_trans _ 1 j _ _ _ _ _ _ Hg2 Hg')|].
    eapply filled_S; [done|done|exact Has2|apply Hk2|exact Hg'|exact Hf2|exact Hf'].
Qed.

Lemma pages_filled pgdir n j fl c m m' : 0 <= n ->
  pages m pgdir n -> filled pgdir n j fl c m m' -> pages m' pgdir (n + Z.of_nat j).
Proof.
  intros Hn Hp Hf va Hva. specialize (Hf va (user_range _ Hva)). specialize (Hp va Hva). revert Hf.
  destruct (Z.leb_spec n (va / PGSIZE)), (Z.ltb_spec (va / PGSIZE) (n + Z.of_nat j)); simpl.
  - intros (e & -> & _). split; [done|lia].
  - intros ->. rewrite Hp. split; lia.
  - intros ->. rewrite Hp. split; lia.
  - intros ->. rewrite Hp. split; lia.
Qed.

Lemma alloc_spec k l pgdir oldsz newsz :
  kmem_ok k l -> aspace (km_mem k) l pgdir -> pages (km_mem k) pgdir (npages oldsz) ->
  0 <= oldsz <= newsz -> newsz < KERNBASE ->
  (Z.to_nat (1024 + (npages newsz - npages oldsz)) < length l + present (km_mem k) pgdir)%nat ->
  exists k' l', allocuvm kernel_end me pgdir oldsz newsz k = Done k' newsz /\
    kmem_ok k' l' /\ aspace (km_mem k') l' pgdir /\ pages (km_mem k') pgdir (npages newsz) /\
    grown pgdir (Z.to_nat (npages newsz - npages oldsz)) (km_mem k) l (km_mem k') l' /\
    filled pgdir (npages oldsz) (Z.to_nat (npages newsz - npages oldsz)) (fun _ => 7) (fun _ => 0)
      (km_mem k) (km_mem k').
Proof.
  intros Hk Has Hpg Ho Hn Hbud. unfold allocuvm.
  rewrite (proj2 (Z.leb_gt _ _)), (proj2 (Z.ltb_ge _ _)), PGROUNDUP_npages by lia.
  pose proof (npages_mono _ _ (proj2 Ho)) as Hm. pose proof (npages_nonneg oldsz ltac:(lia)) as H0.
  pose proof (npages_user newsz ltac:(lia)) as HK.
  destruct (alloc_pages (Z.to_nat (npages newsz - npages oldsz)) k l pgdir oldsz newsz (npages oldsz)
    (Z.to_nat (2 ^ 32 / PGSIZE))) as (k' & l' & Hrun & Hk' & Has' & Hg & Hf); try done; try lia.
  - apply Z2Nat.inj_le; [lia|done|]. change (KERNBASE / PGSIZE) with 524288 in HK. change (2 ^ 32 / PGSIZE) with 1048576. lia.
  - intros va Hva. by apply Hpg.
  - exists k', l'. split_and!; [exact Hrun|done|done| |done|done].
    replace (npages newsz) with (npages oldsz + Z.of_nat (Z.to_nat (npages newsz - npages oldsz))) by lia.
    by eapply pages_filled.
Qed.

(** C23: allocuvm grows a process from [oldsz] to [newsz] bytes: with enough free
    pages it returns [newsz]; every old address keeps its byte, the addresses of
    the new pages hold zero and may be read and written by the user, and the
    kernel part of the space is as before. *)
Theorem allocuvm_grows k l pgdir oldsz newsz :
  kmem_ok k l -> aspace (km_mem k) l pgdir -> pages (km_mem k) pgdir (npages oldsz) ->
  0 <= oldsz <= newsz -> newsz < KERNBASE ->
  (Z.to_nat (1024 + (npages newsz - npages oldsz)) < length l + present (km_mem k) pgdir)%nat ->
  exists k' l', allocuvm kernel_end me pgdir oldsz newsz k = Done k' newsz /\
    kmem_ok k' l' /\ aspace (km_mem k') l' pgdir /\ pages (km_mem k') pgdir (npages newsz) /\
    (forall va, user va -> va / PGSIZE < npages oldsz -> byte (km_mem k') pgdir va = byte (km_mem k) pgdir va) /\
    (forall va, npages oldsz <= va / PGSIZE < npages newsz ->
       byte (km_mem k') pgdir va = Some 0 /\
       exists e, translate (km_mem k') pgdir va = Some e /\ PTE_FLAGS e = Z.lor (Z.lor PTE_P PTE_W) PTE_U) /\
    (forall va, KERNBASE <= va < 2 ^ 32 -> translate (km_mem k') pgdir va = translate (km_mem k) pgdir va).
Proof.
  intros Hk Has Hpg Ho Hn Hbud. pose proof (npages_mono _ _ (proj2 Ho)) as Hm.
  pose proof (npages_nonneg oldsz ltac:(lia)) as H0. pose proof (npages_user newsz ltac:(lia)) as HK.
  destruct (alloc_spec k l pgdir oldsz newsz) as (k' & l' & Hrun & Hk' & Has' & Hpg' & Hg & Hf); try done.
  exists k', l'. split_and!; [exact Hrun|done|done|done| | |].
  - intros va Hva Hlt. eapply grown_byte; [exact Hg|done|apply Hk|done| |].
    + intros E%Hpg; [lia|done].
    + specialize (Hf va (user_range _ Hva)). by rewrite (proj2 (Z.leb_gt _ _)) in Hf by lia.
  - intros va Hva. assert (0 <= va < 2 ^ 32) as Hr.
    { assert (0 <= va) by (unfold PGSIZE in *; Z.div_mod_to_equations; lia). apply user_range, user_page; lia. }
    specialize (Hf va Hr). rewrite (proj2 (Z.leb_le _ _)), (proj2 (Z.ltb_lt _ _)) in Hf by lia.
    destruct Hf as (e & He & Hfl & Hby). split; [done|]. by exists e.
  - intros va Hva. specialize (Hf va).
    rewrite (proj2 (Z.ltb_ge (va / PGSIZE) _)), andb_false_r in Hf; [apply Hf; unfold KERNBASE in *; lia|].
    rewrite Z2Nat.id by lia. transitivity (KERNBASE / PGSIZE); [lia|]. apply Z.div_le_mono; [done|lia].
Qed.

(** deallocuvm shrinks a process from [oldsz] to [newsz] bytes: it returns
    [newsz]; the pages that remain keep their bytes, the others are no longer
    mapped and are free again, and no page is lost: what was free or part of the
    space still is. *)
Theorem deallocuvm_shrinks k l pgdir oldsz newsz :
  kmem_ok k l -> aspace (km_mem k) l pgdir -> pages (km_mem k) pgdir (npages oldsz) ->
  0 <= newsz < oldsz -> oldsz <= KERNBASE ->
  exists k' l', deallocuvm kernel_end me pgdir oldsz newsz k = Done k' newsz /\
    kmem_ok k' l' /\ aspace (km_mem k') l' pgdir /\ pages (km_mem k') pgdir (npages newsz) /\
    (forall va, user va -> va / PGSIZE < npages newsz -> byte (km_mem k') pgdir va = byte (km_mem k) pgdir va) /\
    Z.of_nat (length l') = Z.of_nat (length l) + (npages oldsz - npages newsz) /\
    (forall q, (q ∈ l' \/ owns (km_mem k') pgdir q) <-> (q ∈ l \/ owns (km_mem k) pgdir q)).
Proof using Hend.
  intros Hk Has Hpg Hn Ho. pose proof (npages_mono newsz oldsz ltac:(lia)) as Hm.
  pose proof (npages_nonneg newsz ltac:(lia)) as H0.
  destruct (dealloc_spec k l pgdir (npages oldsz) oldsz newsz) as (k' & l' & Hrun & Hk' & Has' & Hsh & Hw); try done; try lia.
  exists k', l'. assert (pages (km_mem k') pgdir (npages newsz)) as Hp' by (eapply pages_without; [|exact Hpg|exact Hw]; lia).
  split_and!; [exact Hrun|done|done|done| | |apply Hsh].
  - intros va Hva Hlt. apply Hsh; [done|]. intros E%Hp'; [lia|done].
  - rewrite (sh_length _ _ _ _ _ _ Hsh). lia.
Qed.
End VmUser.
