(* ===== verification/VmFork.v ===== *)
(** * Making and freeing address spaces (vm.c)

    setupkvm gives a fresh page directory exactly the kernel's part of the
    address space; copyuvm adds to it a copy of the user memory of a process
    that shares no page with it; freevm gives all of its pages back. *)

From S2P Require Import Prelude Params CString Spinlock Kalloc Vm VmSpace VmUser.

Section VmFork.
Context (kernel_end kdata : Z) (me : nat).
Notation page_ok := (page_ok kernel_end).
Notation kmem_ok := (kmem_ok kernel_end).
Notation pt_ok := (pt_ok kernel_end).
Notation aspace := (aspace kernel_end).

(** ** The kernel's part of the address space *)
Definition kmap_size (e : kmap_entry) : Z := u32 (km_stop e - km_start e).
Definition covers (e : kmap_entry) (va : Z) : bool :=
  (km_virt e / PGSIZE <=? va / PGSIZE) && (va / PGSIZE <? km_virt e / PGSIZE + kmap_size e / PGSIZE).
(** The entry of [va] after mapping the ranges [es]. *)
Fixpoint kmapped (es : list kmap_entry) (va : Z) : option Z :=
  match es with
  | [] => None
  | e :: es' => if covers e va then Some (mapped_entry (km_virt e) (km_start e) (km_perm e) va) else kmapped es' va
  end.

Record kmap_ok (e : kmap_entry) : Prop := mkKmapOk {
  ko_virt : KERNBASE <= km_virt e;
  ko_start : 0 <= km_start e < 2 ^ 32;
  ko_size : 0 < kmap_size e;
  ko_end : km_virt e + kmap_size e <= 2 ^ 32;
  ko_align : km_virt e mod PGSIZE = 0;
  ko_whole : kmap_size e mod PGSIZE = 0;
  ko_perm : 0 <= km_perm e < 2 ^ 12
}.
(** The ranges follow one another. *)
Fixpoint apart (es : list kmap_entry) : Prop :=
  match es with
  | [] => True
  | e :: es' => kmap_ok e /\ Forall (fun e' => km_virt e + kmap_size e <= km_virt e') es' /\ apart es'
  end.

Lemma kmap_pages e : kmap_ok e ->
  (km_virt e + kmap_size e - 1) / PGSIZE - km_virt e / PGSIZE + 1 = kmap_size e / PGSIZE.
Proof. intros [? ? ? ? ? ? ?]. unfold PGSIZE in *. Z.div_mod_to_equations. lia. Qed.

Lemma covers_range e va : kmap_ok e -> covers e va = true <-> km_virt e <= va < km_virt e + kmap_size e.
Proof.
  intros [? ? ? ? ? ? ?]. unfold covers. rewrite andb_true_iff, Z.leb_le, Z.ltb_lt.
  unfold PGSIZE in *. Z.div_mod_to_equations. lia.
Qed.
Lemma apart_next e es va : apart (e :: es) -> covers e va = true -> kmapped es va = None.
Proof.
  intros (He & Hlt & Hap) Hc. apply (covers_range e va He) in Hc. induction es as [|e' es IH]; [done|]. cbn.
  destruct Hap as (He' & Hlt' & Hap). inversion_clear Hlt as [|? ? H1 H2].
  destruct (covers e' va) eqn:E; [apply (covers_range e' va He') in E; lia|]. by apply IH.
Qed.

Lemma setup_loop es k l d :
  kmem_ok k l -> pt_ok (km_mem k) l d -> apart es ->
  (Z.to_nat 1024 < length l + present (km_mem k) d)%nat ->
  (forall va, 0 <= va < 2 ^ 32 -> kmapped es va <> None -> translate (km_mem k) d va = None) ->
  exists k' l', setupkvm_loop me d es k = Done k' d /\ kmem_ok k' l' /\ pt_ok (km_mem k') l' d /\
    tgrow d (km_mem k) l (km_mem k') l' /\
    forall va, 0 <= va < 2 ^ 32 -> translate (km_mem k') d va =
      match kmapped es va with Some x => Some x | None => translate (km_mem k) d va end.
Proof.
  revert k l. induction es as [|e es IH]; intros k l Hk Hpt Hap Hbud Hun.
  { exists k, l. split_and!; try done. apply tgrow_refl. }
  pose proof (fun va => apart_next e es va Hap) as Hdis. destruct Hap as (He & _ & Hap). cbn [setupkvm_loop].
  pose proof He as [Hv Hst Hsz Hend Hal Hwh Hperm].
  destruct (mappages_spec kernel_end me k l d (km_virt e) (kmap_size e) (km_start e) (km_perm e))
    as (k1 & r & Hrun & l1 & j & Hk1 & Hpt1 & Hmap & Hg & Hres); try done; [unfold KERNBASE in *; lia| |].
  { intros va Hva. apply Hun; [unfold PGSIZE, KERNBASE in *; Z.div_mod_to_equations; lia|]. cbn. assert (covers e va = true) as ->; [|done]. unfold covers.
    rewrite <- (kmap_pages e He). rewrite (proj2 (Z.leb_le _ _)), (proj2 (Z.ltb_lt _ _)) by lia. done. }
  rewrite (kmap_pages e He) in Hres.
  destruct Hres as [[-> ->]|(-> & _ & ->)]; [|by destruct (budget_left _ _ _ _ _ Hbud Hg)].
  rewrite (bind_Done _ _ _ _ _ Hrun). cbn [Z.ltb Z.compare].
  pose proof (tg_count _ _ _ _ _ Hg) as Hc.
  destruct (IH k1 l1 Hk1 Hpt1 Hap) as (k' & l' & Hrun' & Hk' & Hpt' & Hg' & Htr'); [lia| |].
  { intros va Hr Hva. rewrite (Hmap va Hr). fold (covers e va).
    destruct (covers e va) eqn:Ec; [by rewrite Hdis in Hva|]. apply Hun; [done|]. cbn. by rewrite Ec. }
  exists k', l'. split_and!; [done|done|done|by eapply tgrow_trans|].
  intros va Hva. rewrite (Htr' va Hva), (Hmap va Hva). fold (covers e va). cbn [kmapped].
  destruct (covers e va) eqn:Ec; [by rewrite Hdis|done].
Qed.

(** ** copyuvm *)
Lemma memmove_page m p src : bytes_ok m ->
  same_outside [p] m (memmove m p src PGSIZE) /\ bytes_ok (memmove m p src PGSIZE) /\
  forall o, 0 <= o < PGSIZE -> ld8 (memmove m p src PGSIZE) (p + o) = ld8 m (src + o).
Proof.
  intros Hb. split_and!.
  - intros x Hx. rewrite memmove_spec by done. specialize (Hx p (proj2 (list_elem_of_singleton p p) eq_refl)).
    unfold in_page in Hx. case_match; [breflect; lia|done].
  - intros a. rewrite memmove_spec by done. case_match; apply Hb.
  - intros o Ho. rewrite memmove_spec by done. rewrite (proj2 (Z.leb_le _ _)), (proj2 (Z.ltb_lt _ _)) by lia.
    cbn [andb]. f_equal. lia.
Qed.

Lemma PTE_FLAGS_ok e : flags_ok (PTE_FLAGS e).
Proof. unfold flags_ok, PTE_FLAGS. change 0xFFF with (Z.ones 12). rewrite Z.land_ones by lia. apply Z.mod_pos_bound. lia. Qed.
Lemma PTE_FLAGS_P e : has (PTE_FLAGS e) PTE_P = has e PTE_P.
Proof. rewrite !has_P. unfold PTE_FLAGS. rewrite Z.land_spec. apply andb_true_r. Qed.
Lemma translate_P m pgdir va e : translate m pgdir va = Some e -> has e PTE_P = true.
Proof. unfold translate. destruct (pte_addr _ _ _); [|done]. destruct (has _ _) eqn:E; [|done]. by intros [= <-]. Qed.
Lemma translate_pte m pgdir va e : translate m pgdir va = Some e ->
  exists r, pte_addr m pgdir va = Some r /\ ld32 m r = e.
Proof. unfold translate. destruct (pte_addr _ _ _) as [r|]; [|done]. destruct (has _ _); [|done]. intros [= <-]. by exists r. Qed.

(** The parent's pages: page [x] has the flags [fl x], address [va] the byte [c va]. *)
Definition holds_user (m : mem) (pgdir n : Z) (fl c : Z -> Z) : Prop :=
  forall va, 0 <= va -> va / PGSIZE < n -> exists e, translate m pgdir va = Some e /\
    PTE_FLAGS e = fl (va / PGSIZE) /\ byte m pgdir va = Some (c va).

Lemma page_off i o : 0 <= o < PGSIZE -> (PGSIZE * i + o) / PGSIZE = i /\ (PGSIZE * i + o) mod PGSIZE = o.
Proof. unfold PGSIZE. intros. Z.div_mod_to_equations. lia. Qed.

Lemma copy_pages j k l pgdir d sz fl c i fuel :
  kmem_ok k l -> aspace (km_mem k) l d -> aspace (km_mem k) l pgdir ->
  (forall q, owns (km_mem k) pgdir q -> ~ owns (km_mem k) d q) ->
  0 <= i -> i + Z.of_nat j = npages sz -> 0 <= sz <= KERNBASE -> (j <= fuel)%nat ->
  holds_user (km_mem k) pgdir (npages sz) fl c ->
  (forall va, user va -> i <= va / PGSIZE -> translate (km_mem k) d va = None) ->
  (Z.to_nat 1024 + j < length l + present (km_mem k) d)%nat ->
  exists k' l', copyuvm_loop kernel_end me fuel pgdir d sz (PGSIZE * i) k = Done k' d /\
    kmem_ok k' l' /\ aspace (km_mem k') l' d /\ grown d j (km_mem k) l (km_mem k') l' /\
    filled d i j fl c (km_mem k) (km_mem k').
Proof.
  revert k l i fuel. induction j as [|j IH]; intros k l i fuel Hk Hasd Has Hdis Hi Hn Hsz Hf Hpar Hun Hbud.
  { exists k, l. split_and!; [|done|done|apply space_grown_refl|apply filled_0].
    pose proof (npages_bounds sz ltac:(lia)). assert ((PGSIZE * i <? sz) = false) as E by (apply Z.ltb_ge; unfold PGSIZE in *; lia).
    destruct fuel; cbn [copyuvm_loop]; by rewrite E. }
  pose proof (npages_bounds sz ltac:(lia)) as Hb.
  assert (i + Z.of_nat (S j) <= KERNBASE / PGSIZE) as HK
    by (unfold KERNBASE, PGSIZE in *; change (2147483648 / 4096) with 524288; lia).
  destruct fuel as [|fuel]; [lia|]. cbn [copyuvm_loop]. rewrite (proj2 (Z.ltb_lt _ _)) by (unfold PGSIZE in *; lia).
  destruct (Hpar (PGSIZE * i)) as (e & He & Hfl & _); [unfold PGSIZE; lia|rewrite page_start; lia|]. rewrite page_start in Hfl.
  destruct (translate_pte _ _ _ _ He) as (r & Hr & Hre). pose proof (translate_P _ _ _ _ He) as HP.
  rewrite (bind_Done _ _ _ _ _ (walk_noalloc me k pgdir _)), Hr. cbn [from_option id].
  rewrite (proj2 (Z.eqb_neq r 0)) by (eapply pte_addr_nonzero; [apply Has|done]).
  rewrite (bind_Done (load r) _ k k e) by (unfold load, kgets; by rewrite Hre). rewrite HP. cbn [negb].
  destruct (budget_nonempty _ _ _ _ Hbud) as (p & l1 & ->). destruct (free_page _ _ _ _ Hk) as (Hp & Hpl & Hpos).
  destruct (kalloc_spec kernel_end me k _ Hk) as (k1 & Hrun & Hk1 & Hm1). cbn [hd tail] in *.
  rewrite (bind_Done _ _ _ _ _ Hrun), (proj2 (Z.eqb_neq p 0)) by lia.
  set (m1 := memmove (km_mem k1) p (p2v (PTE_ADDR e)) PGSIZE).
  rewrite (bind_Done (copy p (p2v (PTE_ADDR e)) PGSIZE) _ k1 (put_mem m1 k1) tt) by reflexivity.
  destruct (memmove_page (km_mem k1) p (p2v (PTE_ADDR e)) (km_bytes _ _ _ Hk1)) as (Hout & Hbok & Hcp). fold m1 in Hout, Hbok, Hcp.
  destruct (fill_page kernel_end me k1 l1 p d i (PTE_FLAGS e) m1 fl c)
    as (k2 & l2 & Hrun2 & Hk2 & Has2 & Hg2 & Hf2); rewrite ?Hm1 in *; try done.
  - lia.
  - apply PTE_FLAGS_ok.
  - apply Hun; [apply page_user; lia|rewrite page_start; lia].
  - cbn [length] in Hbud. lia.
  - rewrite (entry_flags kernel_end); [done|done|apply PTE_FLAGS_ok|by rewrite PTE_FLAGS_P].
  - intros o Ho. rewrite Hcp by done. destruct (page_off i o Ho) as [H1 H2].
    destruct (Hpar (PGSIZE * i + o)) as (e' & He' & _ & Hbyte); [unfold PGSIZE in *; lia|rewrite H1; lia|].
    rewrite (translate_page _ _ _ (PGSIZE * i)), He in He' by (by rewrite H1, page_start). injection He' as <-.
    unfold byte in Hbyte. rewrite (translate_page _ _ _ (PGSIZE * i)), He, H2 in Hbyte by (by rewrite H1, page_start).
    by injection Hbyte as <-.
  - rewrite (bind_Done _ _ _ _ _ Hrun2), u32_small by (unfold KERNBASE, PGSIZE in *; lia). cbn [Z.ltb Z.compare].
    replace (PGSIZE * i + PGSIZE) with (PGSIZE * (i + 1)) by lia.
    pose proof (gr_count _ _ _ _ _ _ Hg2) as Hc. cbn [length] in Hbud, Hc.
    destruct (grown_other kernel_end pgdir d 1 (km_mem k) (p :: l1) (km_mem k2) l2 Hg2 (as_pt _ _ _ _ Hasd) (km_pages _ _ _ Hk) Has Hdis)
      as (Has' & Htr' & Hby' & _ & Hdis').
    destruct (IH k2 l2 (i + 1) fuel Hk2 Has2 Has' Hdis') as (k' & l' & Hrun' & Hk' & Has3 & Hg3 & Hf3); try done; try lia.
    { intros va H0 Hlt. destruct (Hpar va H0 Hlt) as (e' & He' & Hfl' & Hbyte). exists e'. rewrite Htr', Hby'; [done|].
      apply user_page; lia. }
    { intros va Hva Hge. specialize (Hf2 va (user_range _ Hva)).
      rewrite (proj2 (Z.ltb_ge _ _)), andb_false_r in Hf2 by lia. rewrite Hf2. apply Hun; [done|lia]. }
    exists k', l'. split_and!; [done|done|done|by apply (space_grown_trans _ 1 j _ _ _ _ _ _ Hg2 Hg3)|].
    eapply filled_S; [done|done|exact Has2|apply Hk2|exact Hg3|exact Hf2|exact Hf3].
Qed.

(** What a new address space [d] is: its pages were free, and nothing else was
    written. *)
Record made (m : mem) (l : list Z) (m' : mem) (l' : list Z) (d : Z) : Prop := mkMade {
  md_free : l' `suffix_of` l;
  md_owns q : owns m' d q <-> q ∈ l /\ q ∉ l';
  md_frame a : (forall q, q ∈ l -> ~ in_page q a) -> ld8 m' a = ld8 m a
}.

Lemma made_grown m l m1 l1 m2 l2 d n :
  made m l m1 l1 d -> grown d n m1 l1 m2 l2 -> made m l m2 l2 d.
Proof.
  intros [F1 O1 P1] Hg. pose proof (fun q => suffix_elem _ _ q F1) as S1.
  pose proof (fun q => suffix_elem _ _ q (gr_free _ _ _ _ _ _ Hg)) as S2. split.
  - etrans; [apply Hg|done].
  - intros q. rewrite (gr_owns _ _ _ _ _ _ Hg), O1. destruct (decide (q ∈ l1)), (decide (q ∈ l2)); naive_solver.
  - intros a Ha. rewrite (gr_frame _ _ _ _ _ _ Hg); [by apply P1|]. intros q [Hq|Hq]; apply Ha; [|by apply S1].
    apply O1. by left.
Qed.

(** Making an address space does not touch another one. *)
Lemma made_other m l m' l' d pgdir :
  made m l m' l' d -> Forall page_ok l -> aspace m l pgdir ->
  aspace m' l' pgdir /\ (forall va, translate m' pgdir va = translate m pgdir va) /\
  (forall va, user va -> byte m' pgdir va = byte m pgdir va) /\
  (forall q, owns m' pgdir q <-> owns m pgdir q) /\ (forall q, owns m' pgdir q -> ~ owns m' d q).
Proof.
  intros [F O P] Hl Has. destruct (aspace_frame kernel_end m m' l l' pgdir Has) as (H1 & H2 & H3 & H4).
  - intros q a Hq Ha. destruct (owns_page _ _ _ _ _ Has Hq) as [Hpq Hnq]. apply P. intros p Hp Hpa. apply Hnq.
    rewrite Forall_forall in Hl. by rewrite (page_disjoint _ _ _ a Hpq (Hl p Hp) Ha Hpa).
  - intros q Hq Hin. apply (owns_page _ _ _ _ _ Has Hq). by eapply suffix_elem.
  - split_and!; try done. intros q. rewrite H4, O. intros Hq [Hin _]. by apply (owns_page _ _ _ _ _ Has Hq).
Qed.

(** ** freevm *)

(** The loop over the directory frees the tables that entries [i] and up
    name; the entries, [f], are read from the directory itself. *)
Lemma free_tables n : forall k l d f i,
  0 <= i -> i + Z.of_nat n = 1024 -> kmem_ok k l -> page_ok d -> d ∉ l ->
  (forall j, 0 <= j < 1024 -> pde_of (km_mem k) d j = f j) ->
  (forall j, i <= j < 1024 -> has (f j) PTE_P = true ->
     page_ok (table_of (f j)) /\ (table_of (f j) ∉ l) /\ table_of (f j) <> d) ->
  (forall j j', i <= j < 1024 -> i <= j' < 1024 -> has (f j) PTE_P = true -> has (f j') PTE_P = true ->
     table_of (f j) = table_of (f j') -> j = j') ->
  exists k' l', freevm_loop kernel_end me n d i k = Done k' tt /\ kmem_ok k' l' /\ (d ∉ l') /\
    (forall q, q ∈ l' <-> q ∈ l \/ exists j, i <= j < 1024 /\ has (f j) PTE_P = true /\ q = table_of (f j)) /\
    (forall x, (forall j, i <= j < 1024 -> has (f j) PTE_P = true -> ~ in_page (table_of (f j)) x) ->
       ld8 (km_mem k') x = ld8 (km_mem k) x).
Proof.
  induction n as [|n IH]; intros k l d f i Hi Hn Hk Hd Hdl Hf Hok Hinj; cbn [freevm_loop].
  { exists k, l. split_and!; try done. intros q. split; [by left|]. intros [?|(j & Hj & _)]; [done|lia]. }
  rewrite (bind_Done (load (d + 4 * i)) _ k k (f i)) by (unfold load, kgets; by rewrite <- Hf by lia).
  destruct (has (f i) PTE_P) eqn:HP.
  - destruct (Hok i) as (Hp & Hpl & Hpd); [lia|done|].
    destruct (kfree_spec kernel_end me k l (table_of (f i)) Hk Hp Hpl) as (k1 & Hrun & Hk1 & Hout & _).
    unfold table_of in Hrun. rewrite (bind_Done _ _ _ _ _ Hrun).
    assert (forall j, 0 <= j < 1024 -> pde_of (km_mem k1) d j = f j) as Hf1.
    { intros j Hj. rewrite <- Hf by done. apply ld32_ext. intros b Hb. apply Hout. intros Hpb. apply Hpd.
      by apply (page_disjoint _ _ _ b Hp Hd Hpb), (word_in_page d j). }
    destruct (IH k1 (table_of (f i) :: l) d f (i + 1)) as (k' & l' & Hrun' & Hk' & Hdl' & Hel & Hfr); try done; try lia.
    { intros [E|?]%elem_of_cons; congruence. }
    { intros j Hj HPj. destruct (Hok j) as (? & ? & ?); [lia|done|]. split_and!; try done.
      intros [E|?]%elem_of_cons; [|done]. apply Hinj in E; (done || lia). }
    { intros j j' Hj Hj'. apply Hinj; lia. }
    exists k', l'. split_and!; [exact Hrun'|done|done| |].
    + intros q. rewrite Hel, elem_of_cons. split.
      * intros [[->|?]|(j & Hj & ?)]; [right; exists i; split; [lia|done]|by left|right; exists j; split; [lia|done]].
      * intros [?|(j & Hj & HPj & ->)]; [by left; right|]. destruct (decide (j = i)) as [->|]; [by left; left|].
        right. exists j. split; [lia|done].
    + intros x Hx. rewrite Hfr; [apply Hout, Hx; [lia|done]|]. intros j Hj. apply Hx. lia.
  - rewrite (bind_Done (mret tt) _ k k tt) by reflexivity.
    destruct (IH k l d f (i + 1)) as (k' & l' & Hrun' & Hk' & Hdl' & Hel & Hfr); try done; try lia.
    { intros j Hj. apply Hok. lia. }
    { intros j j' Hj Hj'. apply Hinj; lia. }
    exists k', l'. split_and!; [exact Hrun'|done|done| |].
    + intros q. rewrite Hel. split; (intros [?|(j & Hj & HPj & ->)]; [by left|right; exists j; split; [|done]]); [lia|].
      destruct (decide (j = i)) as [->|]; [congruence|lia].
    + intros x Hx. apply Hfr. intros j Hj. apply Hx. lia.
Qed.

Hypothesis Hend : KERNBASE < kernel_end.

Lemma freevm_spec k l d n :
  kmem_ok k l -> aspace (km_mem k) l d -> pages (km_mem k) d n -> 0 <= n <= KERNBASE / PGSIZE ->
  exists k' l', freevm kernel_end me d k = Done k' tt /\ kmem_ok k' l' /\
    (forall q, q ∈ l' <-> q ∈ l \/ owns (km_mem k) d q) /\
    (forall x, (forall q, owns (km_mem k) d q -> ~ in_page q x) -> ld8 (km_mem k') x = ld8 (km_mem k) x).
Proof using Hend.
  intros Hk Has Hpg Hn. pose proof (pt_dir _ _ _ _ (as_pt _ _ _ _ Has)) as Hd. pose proof (page_pos _ _ Hd) as Hpos.
  destruct (dealloc_spec kernel_end me Hend k l d n KERNBASE 0) as (k1 & l1 & Hrun1 & Hk1 & Has1 & Hsh & Hw); try done.
  assert (pages (km_mem k1) d 0) as Hp1 by (eapply (pages_without d n 0); [lia|done|exact Hw]).
  pose proof (as_pt _ _ _ _ Has1) as Hpt1.
  destruct (free_tables (Z.to_nat NPDENTRIES) k1 l1 d (pde_of (km_mem k1) d) 0) as (k2 & l2 & Hrun2 & Hk2 & Hdl2 & Hel & Hfr);
    [lia|done|done|done|apply Hpt1|done|exact (pt_table _ _ _ _ Hpt1)|exact (pt_inj _ _ _ _ Hpt1)|].
  destruct (kfree_spec kernel_end me k2 l2 d Hk2 Hd Hdl2) as (k3 & Hrun3 & Hk3 & Hout & _).
  assert (forall q, owns (km_mem k1) d q <-> is_table (km_mem k1) d q) as Hown.
  { intros q. split; [|by left]. intros [?|(va & e & Hva & He & _)]; [done|]. exfalso.
    assert (translate (km_mem k1) d va = None) as E; [|congruence]. apply Hp1; [done|].
    apply Z.div_pos; [apply Hva|done]. }
  exists k3, (d :: l2). split_and!; [|done| |].
  - unfold freevm. rewrite (proj2 (Z.eqb_neq d 0)) by lia.
    rewrite (bind_Done _ _ _ _ _ Hrun1), (bind_Done _ _ _ _ _ Hrun2). exact Hrun3.
  - intros q. rewrite <- (sh_owns _ _ _ _ _ _ Hsh q), Hown, elem_of_cons, Hel. unfold is_table. tauto.
  - assert (forall q, is_table (km_mem k1) d q -> owns (km_mem k) d q) as Hsub.
    { intros q Hq. left. by apply (sh_tabs _ _ _ _ _ _ Hsh). }
    intros x Hx. rewrite Hout, Hfr; [by apply Hsh| |].
    + intros j Hj HPj. apply Hx, Hsub. right. by exists j.
    + apply Hx, Hsub. by left.
Qed.

(** ** setupkvm *)

(** The linker puts the kernel's data on a page of its own after the code. *)
Hypothesis Hdata : kdata mod PGSIZE = 0 /\ KERNLINK < kdata < KERNBASE + PHYSTOP.

Lemma v2p_high p : KERNBASE <= p < 2 ^ 32 -> v2p p = p - KERNBASE.
Proof. intros H. unfold v2p. apply u32_small. unfold KERNBASE in *. lia. Qed.

Lemma kmap_sizes : map kmap_size (kmap kdata) =
  [EXTMEM; kdata - KERNLINK; KERNBASE + PHYSTOP - kdata; 2 ^ 32 - DEVSPACE].
Proof using Hdata.
  destruct Hdata as [_ Hr]. unfold kmap, kmap_size. cbn [map km_start km_stop]. rewrite (v2p_high kdata), (v2p_high KERNLINK)
    by (unfold KERNLINK, KERNBASE, EXTMEM, PHYSTOP in *; lia).
  rewrite (u32_small (kdata - _ - _)), (u32_small (PHYSTOP - _))
    by (unfold KERNLINK, KERNBASE, EXTMEM, PHYSTOP in *; lia).
  repeat (apply (f_equal2 cons)); [done|lia|lia|done|done].
Qed.
Lemma kmap_apart : apart (kmap kdata).
Proof using Hdata.
  pose proof kmap_sizes as Hs. destruct Hdata as [Hal Hr].
  assert (0 <= v2p kdata < 2 ^ 32) by apply v2p_small.
  unfold kmap in *. cbn [map] in Hs.
  pose proof (f_equal (fun s => nth 0 s 0) Hs) as S1. pose proof (f_equal (fun s => nth 1 s 0) Hs) as S2.
  pose proof (f_equal (fun s => nth 2 s 0) Hs) as S3. pose proof (f_equal (fun s => nth 3 s 0) Hs) as S4.
  cbn [nth] in S1, S2, S3, S4. cbn [apart].
  split_and!; try exact I; try (repeat constructor; cbn [km_virt]; rewrite ?S1, ?S2, ?S3; 
    unfold KERNLINK, KERNBASE, EXTMEM, PHYSTOP, DEVSPACE in *; lia);
  (split; rewrite ?S1, ?S2, ?S3, ?S4; cbn [km_virt km_start km_perm]);
    unfold KERNLINK, KERNBASE, EXTMEM, PHYSTOP, DEVSPACE, PGSIZE, PTE_W in *; try done; try lia; Z.div_mod_to_equations; lia.
Qed.

(** A directory of zeros. *)
Lemma zero_dir m d l : page_ok d -> d ∉ l ->
  let m1 := memset m d 0 PGSIZE in
  pt_ok m1 l d /\ (forall va, translate m1 d va = None) /\ (forall q, is_table m1 d q <-> q = d).
Proof.
  intros Hd Hl m1.
  assert (forall i, 0 <= i < 1024 -> has (pde_of m1 d i) PTE_P = false) as Hno
    by (intros i Hi; unfold pde_of, m1; by rewrite zero_page_word).
  split_and!.
  - split; [done|done| |]; intros i; [|intros j]; intros; by rewrite Hno in * by done.
  - intros va. unfold translate, pte_addr. by rewrite Hno by apply PDX_range.
  - intros q. split; [|by left]. intros [?|(i & Hi & HP & _)]; [done|]. by rewrite Hno in HP.
Qed.

(** No user address is in the kernel's map. *)
Lemma apart_user es va : apart es -> user va -> kmapped es va = None.
Proof.
  induction es as [|e es IH]; [done|]. intros (He & _ & Hap) Hva. cbn.
  destruct (covers e va) eqn:E; [|by apply IH]. apply (covers_range e va He) in E.
  pose proof (ko_virt _ He). unfold user in Hva. lia.
Qed.

Lemma setup_spec k l :
  kmem_ok k l -> (Z.to_nat 1025 < length l)%nat ->
  exists k' l' d, setupkvm kdata me k = Done k' d /\ d <> 0 /\ kmem_ok k' l' /\ aspace (km_mem k') l' d /\
    made (km_mem k) l (km_mem k') l' d /\ (length l <= length l' + present (km_mem k') d + 1)%nat /\
    (forall va, 0 <= va < 2 ^ 32 -> translate (km_mem k') d va = kmapped (kmap kdata) va).
Proof using Hdata.
  intros Hk Hlen. destruct l as [|d l1]; [cbn [length] in Hlen; lia|]. cbn [length] in Hlen.
  destruct (free_page _ _ _ _ Hk) as (Hp & Hpl & Hpos).
  destruct (kalloc_spec kernel_end me k _ Hk) as (k1 & Hrun & Hk1 & Hm1). cbn [hd tail] in *.
  set (m1 := memset (km_mem k1) d 0 PGSIZE).
  destruct (zero_dir (km_mem k1) d l1 Hp Hpl) as (Hpt1 & Htr1 & Hit1). fold m1 in Hpt1, Htr1, Hit1.
  assert (kmem_ok (put_mem m1 k1) l1) as Hk2.
  { apply kmem_frame; [done|apply bytes_ok_memset; [done|apply Hk1]|]. intros q a Hq Ha.
    apply same_outside_memset. intros p ->%list_elem_of_singleton Hpa. apply Hpl.
    pose proof (km_pages _ _ _ Hk1) as Hpp. rewrite Forall_forall in Hpp.
    by rewrite (page_disjoint _ d q a Hp (Hpp q Hq) Hpa Ha). }
  destruct (setup_loop (kmap kdata) (put_mem m1 k1) l1 d) as (k' & l' & Hrun' & Hk' & Hpt' & Hg & Htr);
    [done|done|apply kmap_apart|cbn [km_mem put_mem]; lia|done|]. cbn [km_mem put_mem] in Hg, Htr.
  assert (forall va, 0 <= va < 2 ^ 32 -> translate (km_mem k') d va = kmapped (kmap kdata) va) as Htr'.
  { intros va Hva. rewrite Htr by done. case_match; [done|]. apply Htr1. }
  assert (forall va, user va -> translate (km_mem k') d va = None) as Hus.
  { intros va Hva. rewrite Htr' by (by apply user_range). apply apart_user; [apply kmap_apart|done]. }
  exists k', l', d. split_and!; [|lia|done| | | |done].
  - unfold setupkvm. rewrite (bind_Done _ _ _ _ _ Hrun), (proj2 (Z.eqb_neq d 0)) by lia. exact Hrun'.
  - split; [done| |]; intros va; [|intros va']; intros; by rewrite Hus in * by done.
  - assert (d ∉ l') as Hdl by (intros ?; apply Hpl; eapply suffix_elem; [apply Hg|done]). split.
    + apply suffix_cons_r, Hg.
    + intros q. unfold owns. rewrite (tg_tabs _ _ _ _ _ Hg), Hit1, elem_of_cons. split.
      * intros [[->|[? ?]]|(va & e & Hva & He & _)]; [by split; [left|]|by split; [right|]|]. by rewrite Hus in He.
      * intros [[->|?] ?]; left; [by left|by right].
    + intros a Ha. rewrite (tg_frame _ _ _ _ _ Hg).
      * unfold m1. rewrite <- Hm1. apply same_outside_memset. intros q ->%list_elem_of_singleton. apply Ha. by left.
      * intros q. rewrite (tg_tabs _ _ _ _ _ Hg), Hit1. intros [->|[? _]]; apply Ha; [by left|by right].
  - pose proof (tg_count _ _ _ _ _ Hg). cbn [length]. lia.
Qed.

Definition flags (m : mem) (pgdir va : Z) : option Z := PTE_FLAGS <$> translate m pgdir va.

Lemma pages_holds m pgdir n : pages m pgdir n -> n <= KERNBASE / PGSIZE ->
  holds_user m pgdir n (fun x => default 0 (flags m pgdir (PGSIZE * x))) (fun va => default 0 (byte m pgdir va)).
Proof.
  intros Hp Hn va H0 Hlt. assert (user va) as Hva by (apply user_page; lia).
  destruct (translate m pgdir va) as [e|] eqn:He; [|apply Hp in He; [lia|done]]. exists e. split; [done|].
  unfold flags, byte. rewrite (translate_page m pgdir (PGSIZE * (va / PGSIZE)) va), He by apply page_start. done.
Qed.

Lemma copy_spec k l pgdir sz :
  kmem_ok k l -> aspace (km_mem k) l pgdir -> pages (km_mem k) pgdir (npages sz) -> 0 <= sz <= KERNBASE ->
  (Z.to_nat (1025 + npages sz) < length l)%nat ->
  exists k' l' d, copyuvm kernel_end kdata me pgdir sz k = Done k' d /\ d <> 0 /\ kmem_ok k' l' /\
    aspace (km_mem k') l' d /\ made (km_mem k) l (km_mem k') l' d /\ pages (km_mem k') d (npages sz) /\
    (forall va, user va -> byte (km_mem k') d va = byte (km_mem k) pgdir va /\
       flags (km_mem k') d va = flags (km_mem k) pgdir va) /\
    (forall va, KERNBASE <= va < 2 ^ 32 -> translate (km_mem k') d va = kmapped (kmap kdata) va).
Proof using Hdata.
  intros Hk Has Hpg Hsz Hlen. pose proof (npages_nonneg sz ltac:(lia)) as H0. pose proof (npages_user sz ltac:(lia)) as HK.
  destruct (setup_spec k l Hk ltac:(lia)) as (k1 & l1 & d & Hrun1 & Hd & Hk1 & Has1 & Hmd1 & Hlen1 & Htr1).
  destruct (made_other _ _ _ _ _ pgdir Hmd1 (km_pages _ _ _ Hk) Has) as (Hasp & Htrp & Hbyp & _ & Hdis).
  assert (forall va, user va -> translate (km_mem k1) d va = None) as Hun.
  { intros va Hva. rewrite Htr1 by (by apply user_range). apply apart_user; [apply kmap_apart|done]. }
  destruct (copy_pages (Z.to_nat (npages sz)) k1 l1 pgdir d sz (fun x => default 0 (flags (km_mem k) pgdir (PGSIZE * x)))
    (fun va => default 0 (byte (km_mem k) pgdir va)) 0 (Z.to_nat (2 ^ 32 / PGSIZE)))
    as (k' & l' & Hrun & Hk' & Has' & Hg & Hf); try done; try lia.
  { apply Z2Nat.inj_le; [lia|done|]. change (KERNBASE / PGSIZE) with 524288 in HK. change (2 ^ 32 / PGSIZE) with 1048576. lia. }
  { intros va Hva Hlt. destruct (pages_holds _ _ _ Hpg HK va Hva Hlt) as (e & He & Hfl & Hby). exists e.
    rewrite Htrp, Hbyp by (apply user_page; lia). done. }
  { intros va Hva _. by apply Hun. }
  assert (pages (km_mem k') d (npages sz)) as Hpg'.
  { replace (npages sz) with (0 + Z.of_nat (Z.to_nat (npages sz))) by lia. eapply pages_filled; [lia| |exact Hf].
    intros va Hva. rewrite Hun by done. split; [|done]. intros _. apply Z.div_pos; [apply Hva|done]. }
  exists k', l', d. split_and!; [|done|done|done|by eapply made_grown|done| |].
  - unfold copyuvm. rewrite (bind_Done _ _ _ _ _ Hrun1), (proj2 (Z.eqb_neq d 0)) by done. exact Hrun.
  - intros va Hva. destruct (decide (va / PGSIZE < npages sz)) as [Hlt|Hge].
    + specialize (Hf va (user_range _ Hva)). rewrite (proj2 (Z.leb_le _ _)), (proj2 (Z.ltb_lt _ _)) in Hf
        by (lia || (apply Z.div_pos; [apply Hva|done])). destruct Hf as (e & He & Hfl & Hby).
      destruct (pages_holds _ _ _ Hpg HK va ltac:(apply Hva) Hlt) as (e' & He' & Hfl' & Hby').
      split; [congruence|]. unfold flags. rewrite He, He'. simpl. congruence.
    + assert (translate (km_mem k') d va = None /\ translate (km_mem k) pgdir va = None) as [E1 E2]
        by (split; [apply Hpg'|apply Hpg]; done || lia).
      unfold byte, flags. by rewrite E1, E2.
  - intros va Hva. specialize (Hf va). rewrite (proj2 (Z.ltb_ge (va / PGSIZE) _)), andb_false_r in Hf.
    + rewrite Hf, Htr1 by (unfold KERNBASE in *; lia). done.
    + rewrite Z2Nat.id by lia. transitivity (KERNBASE / PGSIZE); [lia|]. apply Z.div_le_mono; [done|lia].
Qed.

(** C5: copyuvm, the memory half of fork: with enough free pages it returns a new
    address space in which every user address has the byte and the permissions
    it has in the parent's, the kernel part is the kernel's map, and no page is
    shared; the parent's own memory is unchanged. *)
Theorem copyuvm_copies k l pgdir sz :
  kmem_ok k l -> aspace (km_mem k) l pgdir -> pages (km_mem k) pgdir (npages sz) -> 0 <= sz <= KERNBASE ->
  (Z.to_nat (1025 + npages sz) < length l)%nat ->
  exists k' l' d, copyuvm kernel_end kdata me pgdir sz k = Done k' d /\ d <> 0 /\
    kmem_ok k' l' /\ aspace (km_mem k') l' d /\ aspace (km_mem k') l' pgdir /\
    (forall va, user va -> byte (km_mem k') d va = byte (km_mem k) pgdir va /\
       flags (km_mem k') d va = flags (km_mem k) pgdir va /\
       byte (km_mem k') pgdir va = byte (km_mem k) pgdir va) /\
    (forall va, KERNBASE <= va < 2 ^ 32 -> translate (km_mem k') d va = kmapped (kmap kdata) va) /\
    (forall q, owns (km_mem k') pgdir q -> ~ owns (km_mem k') d q).
Proof using Hdata.
  intros Hk Has Hpg Hsz Hlen.
  destruct (copy_spec k l pgdir sz Hk Has Hpg Hsz Hlen) as (k' & l' & d & Hrun & Hd & Hk' & Has' & Hmd & _ & Hcopy & Hkern).
  destruct (made_other _ _ _ _ _ pgdir Hmd (km_pages _ _ _ Hk) Has) as (Hasp & _ & Hbyp & _ & Hdis).
  exists k', l', d. split_and!; try done. intros va Hva. destruct (Hcopy va Hva). auto.
Qed.

(** What fork and then the exit of the child do to memory *)
Definition copy_and_free (pgdir sz : Z) : kernel kmem unit := d ← copyuvm kernel_end kdata me pgdir sz; freevm kernel_end me d.
(** C16: fork and exit lose no page: copying an address space and freeing the copy
    leaves exactly the pages free that were free before, and the parent's memory
    as it was. *)
Theorem copyuvm_freevm k l pgdir sz :
  kmem_ok k l -> aspace (km_mem k) l pgdir -> pages (km_mem k) pgdir (npages sz) -> 0 <= sz <= KERNBASE ->
  (Z.to_nat (1025 + npages sz) < length l)%nat ->
  exists k' l', copy_and_free pgdir sz k = Done k' tt /\
    kmem_ok k' l' /\ (forall q, q ∈ l' <-> q ∈ l) /\ aspace (km_mem k') l' pgdir /\
    (forall va, user va -> byte (km_mem k') pgdir va = byte (km_mem k) pgdir va).
Proof using Hdata Hend.
  intros Hk Has Hpg Hsz Hlen.
  destruct (copy_spec k l pgdir sz Hk Has Hpg Hsz Hlen) as (k1 & l1 & d & Hrun & Hd & Hk1 & Has1 & Hmd & Hpg1 & _).
  destruct (made_other _ _ _ _ _ pgdir Hmd (km_pages _ _ _ Hk) Has) as (Hasp & _ & Hbyp & Hop & Hdis).
  pose proof (npages_nonneg sz ltac:(lia)) as H0. pose proof (npages_user sz ltac:(lia)) as HK.
  destruct (freevm_spec k1 l1 d (npages sz)) as (k' & l' & Hrun' & Hk' & Hel & Hfr); try done.
  assert (forall q, q ∈ l' <-> q ∈ l) as Hll.
  { intros q. rewrite Hel, (md_owns _ _ _ _ _ Hmd). pose proof (suffix_elem _ _ q (md_free _ _ _ _ _ Hmd)).
    destruct (decide (q ∈ l1)); tauto. }
  exists k', l'. unfold copy_and_free. rewrite (bind_Done _ _ _ _ _ Hrun). split_and!; [done|done|done| |].
  all: destruct (aspace_frame kernel_end (km_mem k1) (km_mem k') l1 l' pgdir Hasp) as (Ha & _ & Hby & _).
  all: try (intros q a Hq Hqa; apply Hfr; intros p Hp Hpa; apply (Hdis q Hq);
    destruct (owns_page _ _ _ _ _ Hasp Hq) as [Hpq _]; destruct (owns_page _ _ _ _ _ Has1 Hp) as [Hpp _];
    by rewrite (page_disjoint _ _ _ a Hpq Hpp Hqa Hpa)).
  all: try (intros q Hq; rewrite Hll; intros Hin; apply (owns_page _ _ _ _ _ Has (proj1 (Hop q) Hq)); exact Hin).
  - done.
  - intros va Hva. by rewrite Hby, Hbyp.
Qed.
End VmFork.

(** ** A machine with 4096 free pages and one process *)
Definition demo_data : Z := 0x8010a000.
Definition demo_boot : kernel kmem unit := freerange demo_end 0 demo_page (demo_page + PGSIZE * 4096).
Definition demo_process : kernel kmem Z :=
  demo_boot;; p ← setupkvm demo_data 0; _ ← allocuvm demo_end 0 p 0 5000; mret p.

Lemma demo_data_ok : demo_data mod PGSIZE = 0 /\ KERNLINK < demo_data < KERNBASE + PHYSTOP.
Proof. vm_compute. repeat split; discriminate || reflexivity. Qed.
Lemma demo_end_ok : KERNBASE < demo_end.
Proof. reflexivity. Qed.

Lemma demo_boot_ok : exists k l, demo_boot (demo_kmem 0) = Done k tt /\ kmem_ok demo_end k l /\
  length l = Z.to_nat 4096.
Proof.
  destruct (freerange_loop_spec demo_end 0 (Z.to_nat 4096) demo_page (demo_page + PGSIZE * 4096) (demo_kmem 0) [])
    with (fuel := Z.to_nat (2 ^ 32 / PGSIZE)) as (k & Hrun & Hk).
  - apply demo_kmem_ok.
  - unfold demo_page. lia.
  - rewrite Z2Nat.id by lia. unfold demo_page, PGSIZE. lia.
  - unfold demo_page, PGSIZE. lia.
  - apply Forall_forall. intros q Hq. pose proof (elem_of_pages_from _ _ _ Hq) as Hr. rewrite Z2Nat.id in Hr by lia.
    unfold pages_from in Hq. apply list_elem_of_fmap in Hq as (i & -> & _).
    unfold page_ok, demo_end, demo_page, PGSIZE, KERNBASE, PHYSTOP in *. split_and!; try lia.
    rewrite Z.mul_comm, Z.mod_add by lia. reflexivity.
  - intros q _. apply not_elem_of_nil.
  - apply Z2Nat.inj_le; [lia|discriminate|]. discriminate.
  - exists k, (reverse (pages_from demo_page (Z.to_nat 4096)) ++ []). split_and!; [|done|].
    + unfold demo_boot, freerange. change (PGROUNDUP demo_page) with demo_page. exact Hrun.
    + rewrite app_nil_r, length_reverse. unfold pages_from. by rewrite length_fmap, length_seq.
Qed.

Lemma flags_user e : PTE_FLAGS e = 7 -> has e PTE_U = true.
Proof.
  intros E. change PTE_U with (2 ^ 2). rewrite has_bit by lia.
  assert (Z.testbit (PTE_FLAGS e) 2 = true) as H by (by rewrite E). unfold PTE_FLAGS in H.
  rewrite Z.land_spec in H. by apply andb_prop in H as [H _].
Qed.
Lemma demo_process_ok : exists k l p, demo_process (demo_kmem 0) = Done k p /\ kmem_ok demo_end k l /\
  aspace demo_end (km_mem k) l p /\ pages (km_mem k) p (npages 5000) /\
  (forall x, 0 <= x < 5000 -> exists e, translate (km_mem k) p x = Some e /\ has e PTE_U = true) /\
  (Z.to_nat 2048 < length l)%nat.
Proof.
  destruct demo_boot_ok as (k0 & l0 & Hrun0 & Hk0 & Hl0).
  destruct (setup_spec demo_end demo_data 0 demo_data_ok k0 l0 Hk0) as (k1 & l1 & p & Hrun1 & Hp & Hk1 & Has1 & _ & Hlen1 & Htr1); [lia|].
  destruct (alloc_spec demo_end 0 k1 l1 p 0 5000) as (k2 & l2 & Hrun2 & Hk2 & Has2 & Hpg2 & Hg2 & Hf2); [exact Hk1|exact Has1| |split; discriminate|reflexivity| |].
  - intros va Hva. rewrite Htr1 by (by apply user_range).
    rewrite apart_user; [|apply kmap_apart, demo_data_ok|exact Hva]. split; [|reflexivity]. intros _. apply Z.div_pos; [apply Hva|reflexivity].
  - change (npages 5000 - npages 0) with 2. lia.
  - exists k2, l2, p. split_and!; [|exact Hk2|exact Has2|exact Hpg2| |].
    + unfold demo_process. rewrite (bind_Done _ _ _ _ _ Hrun0), (bind_Done _ _ _ _ _ Hrun1), (bind_Done _ _ _ _ _ Hrun2).
      reflexivity.
    + intros x Hx. specialize (Hf2 x ltac:(lia)). pose proof (npages_below 5000 x ltac:(lia) ltac:(lia)) as Hlt.
      change (npages 5000) with 2 in *. change (npages 0) with 0 in *.
      assert (0 <= x / PGSIZE) by (apply Z.div_pos; [lia|reflexivity]).
      rewrite (proj2 (Z.leb_le _ _)), (proj2 (Z.ltb_lt _ _)) in Hf2 by (assumption || (cbn; lia)).
      destruct Hf2 as (e & He & Hfl & _). exists e. split; [exact He|]. by apply flags_user.
    + pose proof (gr_count _ _ _ _ _ _ Hg2) as Hc. pose proof (present_le (km_mem k2) p).
      change (npages 5000 - npages 0) with 2 in Hc. lia.
Qed.

Lemma copyuvm_copies_witness : exists k p k' d,
  demo_process (demo_kmem 0) = Done k p /\ copyuvm demo_end demo_data 0 p 5000 k = Done k' d /\ d <> 0 /\
  byte (km_mem k') d 4999 = byte (km_mem k) p 4999.
Proof.
  destruct demo_process_ok as (k & l & p & Hrun & Hk & Has & Hpg & _ & Hlen).
  destruct (copyuvm_copies demo_end demo_data 0 demo_data_ok k l p 5000 Hk Has Hpg)
    as (k' & l' & d & Hrun' & Hd & _ & _ & _ & Hby & _).
  - split; discriminate.
  - change (1025 + npages 5000) with 1027. lia.
  - exists k, p, k', d. split_and!; [exact Hrun|exact Hrun'|exact Hd|]. apply Hby. split; [discriminate|reflexivity].
Defined.

Lemma copyuvm_freevm_witness : exists k p k',
  demo_process (demo_kmem 0) = Done k p /\
  copy_and_free demo_end demo_data 0 p 5000 k = Done k' tt /\
  byte (km_mem k') p 4999 = byte (km_mem k) p 4999.
Proof.
  destruct demo_process_ok as (k & l & p & Hrun & Hk & Has & Hpg & _ & Hlen).
  destruct (copyuvm_freevm demo_end demo_data 0 demo_end_ok demo_data_ok k l p 5000 Hk Has Hpg)
    as (k' & l' & Hrun' & _ & _ & _ & Hby).
  - split; discriminate.
  - change (1025 + npages 5000) with 1027. lia.
  - exists k, p, k'. split_and!; [exact Hrun|exact Hrun'|]. apply Hby. split; [discriminate|reflexivity].
Defined.

Lemma allocuvm_grows_witness : exists k p k',
  demo_process (demo_kmem 0) = Done k p /\ allocuvm demo_end 0 p 5000 9000 k = Done k' 9000 /\
  byte (km_mem k') p 8999 = Some 0.
Proof.
  destruct demo_process_ok as (k & l & p & Hrun & Hk & Has & Hpg & _ & Hlen).
  destruct (allocuvm_grows demo_end 0 k l p 5000 9000 Hk Has Hpg) as (k' & l' & Hrun' & _ & _ & _ & _ & Hz & _).
  - split; discriminate.
  - reflexivity.
  - change (1024 + (npages 9000 - npages 5000)) with 1025. lia.
  - exists k, p, k'. split_and!; [exact Hrun|exact Hrun'|]. apply Hz. split; [discriminate|reflexivity].
Defined.

Lemma deallocuvm_shrinks_witness : exists k p k',
  demo_process (demo_kmem 0) = Done k p /\ deallocuvm demo_end 0 p 5000 10 k = Done k' 10 /\
  byte (km_mem k') p 9 = byte (km_mem k) p 9.
Proof.
  destruct demo_process_ok as (k & l & p & Hrun & Hk & Has & Hpg & _ & Hlen).
  destruct (deallocuvm_shrinks demo_end 0 demo_end_ok k l p 5000 10 Hk Has Hpg) as (k' & l' & Hrun' & _ & _ & _ & Hby & _).
  - split; [discriminate|reflexivity].
  - discriminate.
  - exists k, p, k'. split_and!; [exact Hrun|exact Hrun'|]. apply Hby; [split; [discriminate|reflexivity]|reflexivity].
Defined.
