(* ===== verification/Copyout.v ===== *)
(** * copyout (vm.c)

    The kernel writes a buffer into the memory of a process through its page
    table, page by page; the addresses named get the bytes of the buffer and
    nothing else changes. *)

From S2P Require Import Prelude Params CString Spinlock Kalloc Vm VmSpace VmUser VmFork.

Lemma ld8_st_bytes l : forall m a x, ld8 (st_bytes m a l) x =
  if (a <=? x) && (x <? a + Z.of_nat (length l)) then u8 (nth (Z.to_nat (x - a)) l 0) else ld8 m x.
Proof.
  induction l as [|b l IH]; intros m a x; cbn [st_bytes length].
  { case_match; [breflect; lia|done]. }
  rewrite IH, ld8_st8.
  destruct (Z.leb_spec (a + 1) x), (Z.ltb_spec x (a + 1 + Z.of_nat (length l))), (Z.leb_spec a x),
    (Z.ltb_spec x (a + Z.of_nat (S (length l)))), (Z.eqb_spec a x); simpl; try lia; try done.
  - replace (Z.to_nat (x - a)) with (S (Z.to_nat (x - (a + 1)))) by lia. done.
  - subst. by rewrite Z.sub_diag.
Qed.
Lemma bytes_ok_st_bytes l : forall m a, bytes_ok m -> bytes_ok (st_bytes m a l).
Proof. induction l as [|b l IH]; intros m a Hm; cbn; [done|]. by apply IH, bytes_ok_st8. Qed.

Section Copyout.
Context (kernel_end : Z) (me : nat) (word0 : Z).
Notation page_ok := (page_ok kernel_end).
Notation kmem_ok := (kmem_ok kernel_end).
Notation aspace := (aspace kernel_end).

(** The pages of the range are mapped and open to the user. *)
Definition user_range_ok (m : mem) (pgdir va n : Z) : Prop :=
  forall x, va <= x < va + n -> exists e, translate m pgdir x = Some e /\ has e PTE_U = true.
(** [m'] is [m] with the bytes [buf] at address [va] of the space. *)
Definition written (m m' : mem) (pgdir va : Z) (buf : list Z) : Prop :=
  (forall x, translate m' pgdir x = translate m pgdir x) /\
  (forall x, user x -> byte m' pgdir x =
     if (va <=? x) && (x <? va + Z.of_nat (length buf)) then Some (u8 (nth (Z.to_nat (x - va)) buf 0))
     else byte m pgdir x) /\
  (forall q, owns m' pgdir q <-> owns m pgdir q) /\
  (forall a, (forall q, owns m pgdir q -> ~ in_page q a) -> ld8 m' a = ld8 m a).

(** Writing within one user page. *)
Lemma write_page k l pgdir va e buf :
  kmem_ok k l -> aspace (km_mem k) l pgdir -> user va -> translate (km_mem k) pgdir va = Some e ->
  va mod PGSIZE + Z.of_nat (length buf) <= PGSIZE ->
  let m' := st_bytes (km_mem k) (page_of e + va mod PGSIZE) buf in
  kmem_ok (put_mem m' k) l /\ aspace m' l pgdir /\ written (km_mem k) m' pgdir va buf.
Proof.
  intros Hk Has Hva He Hfit m'. destruct (as_page _ _ _ _ Has va e Hva He) as (Hp & Hpl & Hpt).
  pose proof (Z.mod_pos_bound va PGSIZE ltac:(done)) as Hoff.
  assert (forall q a, page_ok q -> q <> page_of e -> in_page q a -> ld8 m' a = ld8 (km_mem k) a) as Hq.
  { intros q a Hq Hne Ha. unfold m'. rewrite ld8_st_bytes. case_match; [|done]. breflect. exfalso. apply Hne.
    eapply page_disjoint; [done|done|exact Ha|unfold in_page; lia]. }
  assert (forall q a, is_table (km_mem k) pgdir q -> in_page q a -> ld8 m' a = ld8 (km_mem k) a) as Htab.
  { intros q a Hq'. apply Hq; [eapply is_table_page; [apply Has|done]|congruence]. }
  pose proof (tables_translate _ _ _ Htab) as Htr. pose proof (tables_is_table _ _ _ Htab) as Hit.
  split_and!.
  - apply kmem_frame; [done|apply bytes_ok_st_bytes, Hk|]. intros q a Hin. apply Hq; [|congruence].
    pose proof (km_pages _ _ _ Hk) as Hpp. rewrite Forall_forall in Hpp. by apply Hpp.
  - split; [eapply tables_pt_ok; [apply Has|done|]| |].
    + intros q Hq'. eapply is_table_page; [apply Has|done].
    + intros va' e' Hva'. rewrite Htr, Hit. by apply (as_page _ _ _ _ Has).
    + intros va1 va2 e1 e2 H1 H2. rewrite !Htr. by apply (as_inj _ _ _ _ Has).
  - split_and!; [done| | |].
    + intros x Hx. unfold byte. rewrite Htr. destruct (decide (x / PGSIZE = va / PGSIZE)) as [E|E].
      * rewrite (translate_page _ _ x va E), He. unfold m'. rewrite ld8_st_bytes.
        assert (x mod PGSIZE - va mod PGSIZE = x - va) as Hd by (unfold PGSIZE in *; Z.div_mod_to_equations; lia).
        destruct (Z.leb_spec va x), (Z.ltb_spec x (va + Z.of_nat (length buf))),
          (Z.leb_spec (page_of e + va mod PGSIZE) (page_of e + x mod PGSIZE)),
          (Z.ltb_spec (page_of e + x mod PGSIZE) (page_of e + va mod PGSIZE + Z.of_nat (length buf))); simpl; try lia; try done.
        do 4 f_equal. lia.
      * destruct ((va <=? x) && (x <? va + Z.of_nat (length buf))) eqn:Ein.
        { breflect. exfalso. apply E. unfold PGSIZE in *. Z.div_mod_to_equations. lia. }
        destruct (translate (km_mem k) pgdir x) as [e'|] eqn:He'; [|done]. f_equal.
        destruct (as_page _ _ _ _ Has x e' Hx He') as (Hp' & _). apply (Hq (page_of e')); [done| |apply in_page_off].
        intros Epg. apply E. by eapply (as_inj _ _ _ _ Has).
    + intros q. unfold owns. rewrite Hit. setoid_rewrite Htr. done.
    + intros a Ha. unfold m'. rewrite ld8_st_bytes. case_match; [|done]. breflect. exfalso.
      apply (Ha (page_of e)); [right; by exists va, e|unfold in_page; lia].
Qed.

Lemma uva2ka_spec k l pgdir va e : aspace (km_mem k) l pgdir -> translate (km_mem k) pgdir va = Some e ->
  has e PTE_U = true -> uva2ka me word0 pgdir va k = Done k (page_of e).
Proof.
  intros Has He HU. destruct (translate_pte _ _ _ _ He) as (r & Hr & Hre).
  unfold uva2ka. rewrite (bind_Done _ _ _ _ _ (walk_noalloc me k pgdir _)), Hr. cbn [from_option id].
  unfold load_ptr. rewrite (proj2 (Z.eqb_neq r 0)) by (eapply pte_addr_nonzero; [apply Has|done]).
  rewrite (bind_Done (load r) _ k k e) by (unfold load, kgets; by rewrite Hre).
  rewrite (translate_P _ _ _ _ He), HU. done.
Qed.

Lemma written_nil m pgdir va : written m m pgdir va [].
Proof. split_and!; [done| |done|done]. intros x _. cbn [length]. case_match; [breflect; lia|done]. Qed.

Lemma written_app m m1 m2 pgdir va b1 b2 :
  written m m1 pgdir va b1 -> written m1 m2 pgdir (va + Z.of_nat (length b1)) b2 -> written m m2 pgdir va (b1 ++ b2).
Proof.
  intros (T1 & B1 & O1 & F1) (T2 & B2 & O2 & F2). split_and!.
  - intros x. by rewrite T2.
  - intros x Hx. rewrite B2, B1, length_app by done.
    destruct (Z.leb_spec (va + Z.of_nat (length b1)) x), (Z.ltb_spec x (va + Z.of_nat (length b1) + Z.of_nat (length b2))),
      (Z.leb_spec va x), (Z.ltb_spec x (va + Z.of_nat (length b1))), (Z.ltb_spec x (va + Z.of_nat (length b1 + length b2)));
      simpl; try lia; try done.
    + rewrite app_nth2 by lia. do 3 f_equal. lia.
    + rewrite app_nth1 by lia. done.
  - intros q. by rewrite O2.
  - intros a Ha. rewrite F2; [by apply F1|]. intros q Hq. apply Ha. by apply O1.
Qed.

Lemma round_down va : PGROUNDDOWN va = va - va mod PGSIZE /\ PGROUNDDOWN va / PGSIZE = va / PGSIZE.
Proof. rewrite PGROUNDDOWN_eq. split; [done|]. unfold PGSIZE. Z.div_mod_to_equations. lia. Qed.

Lemma copyout_loop_spec fuel : forall k l pgdir va buf,
  (length buf <= fuel)%nat -> kmem_ok k l -> aspace (km_mem k) l pgdir ->
  0 <= va -> va + Z.of_nat (length buf) <= KERNBASE ->
  user_range_ok (km_mem k) pgdir va (Z.of_nat (length buf)) ->
  exists k', copyout_loop me word0 fuel pgdir va buf k = Done k' 0 /\ kmem_ok k' l /\
    aspace (km_mem k') l pgdir /\ written (km_mem k) (km_mem k') pgdir va buf.
Proof.
  induction fuel as [|fuel IH]; intros k l pgdir va buf Hlen Hk Has Hva Hmax Hu;
    (destruct buf as [|b0 buf0]; [exists k; split_and!; try done; apply written_nil|]); [cbn [length] in Hlen; lia|].
  cbn [copyout_loop]. set (buf := b0 :: buf0) in *. assert (0 < length buf)%nat as Hpos by (unfold buf; cbn; lia).
  destruct (round_down va) as [Hrd Hpg]. destruct (Hu va) as (e & He & HU); [lia|].
  assert (user va) as Huva by (split; lia). pose proof (Z.mod_pos_bound va PGSIZE ltac:(done)) as Hoff.
  rewrite (bind_Done _ _ _ _ _ (uva2ka_spec k l pgdir (PGROUNDDOWN va) e Has ltac:(by rewrite (translate_page _ _ _ va Hpg)) HU)).
  destruct (as_page _ _ _ _ Has va e Huva He) as (Hp & _). pose proof (page_pos _ _ Hp).
  rewrite (proj2 (Z.eqb_neq _ 0)) by lia. rewrite Hrd. replace (va - (va - va mod PGSIZE)) with (va mod PGSIZE) by lia.
  set (n := Z.to_nat (PGSIZE - va mod PGSIZE)). assert (Z.of_nat n = PGSIZE - va mod PGSIZE) as Hn by (unfold n; lia).
  destruct (write_page k l pgdir va e (take n buf) Hk Has Huva He) as (Hk1 & Has1 & Hw1).
  { rewrite length_take. lia. }
  set (m1 := st_bytes _ _ _) in *.
  rewrite (bind_Done (store_bytes (page_of e + va mod PGSIZE) (take n buf)) _ k (put_mem m1 k) tt) by reflexivity.
  destruct (decide (length buf <= n)%nat) as [Hle|Hgt].
  { rewrite take_ge in Hw1 by done. exists (put_mem m1 k). rewrite drop_ge by done. split_and!; try done. by destruct fuel. }
  rewrite u32_small by (unfold KERNBASE, PGSIZE in *; lia).
  assert (va - va mod PGSIZE + PGSIZE = va + Z.of_nat (length (take n buf))) as Hnext by (rewrite length_take; lia).
  destruct (IH (put_mem m1 k) l pgdir (va - va mod PGSIZE + PGSIZE) (drop n buf)) as (k' & Hrun & Hk' & Has' & Hw'); try done.
  - rewrite length_drop. lia.
  - lia.
  - rewrite length_drop. rewrite length_take in Hnext. lia.
  - intros x Hx. destruct Hw1 as (Htr & _). cbn [km_mem put_mem]. rewrite Htr. apply Hu.
    rewrite length_drop in Hx. rewrite length_take in Hnext. lia.
  - exists k'. split_and!; [exact Hrun|done|done|]. rewrite <- (take_drop n buf). eapply written_app; [exact Hw1|].
    rewrite <- Hnext. exact Hw'.
Qed.

(** C24: copyout into a range of user addresses that are mapped and open to the user
    returns 0; the range then holds the buffer, every other user address has the
    byte it had, no translation changes, and memory that is not the process's is
    not written. *)
Theorem copyout_writes k l pgdir va buf :
  kmem_ok k l -> aspace (km_mem k) l pgdir -> 0 <= va -> va + Z.of_nat (length buf) <= KERNBASE ->
  user_range_ok (km_mem k) pgdir va (Z.of_nat (length buf)) ->
  exists k', copyout me word0 pgdir va buf k = Done k' 0 /\ kmem_ok k' l /\ aspace (km_mem k') l pgdir /\
    (forall x, user x -> byte (km_mem k') pgdir x =
       if (va <=? x) && (x <? va + Z.of_nat (length buf)) then Some (u8 (nth (Z.to_nat (x - va)) buf 0))
       else byte (km_mem k) pgdir x) /\
    (forall x, translate (km_mem k') pgdir x = translate (km_mem k) pgdir x) /\
    (forall a, (forall q, owns (km_mem k) pgdir q -> ~ in_page q a) -> ld8 (km_mem k') a = ld8 (km_mem k) a).
Proof.
  intros Hk Has Hva Hmax Hu.
  destruct (copyout_loop_spec (length buf) k l pgdir va buf) as (k' & Hrun & Hk' & Has' & Htr & Hby & _ & Hfr); try done.
  exists k'. split_and!; done.
Qed.
End Copyout.

Lemma copyout_writes_witness : exists k p k',
  demo_process (demo_kmem 0) = Done k p /\ copyout 0 0 p 4090 [1; 2; 3; 4; 5; 6; 7; 8; 9; 10] k = Done k' 0 /\
  byte (km_mem k') p 4097 = Some 8.
Proof.
  destruct demo_process_ok as (k & l & p & Hrun & Hk & Has & Hpg & Hfl & _).
  destruct (copyout_writes demo_end 0 0 k l p 4090 [1; 2; 3; 4; 5; 6; 7; 8; 9; 10] Hk Has)
    as (k' & Hrun' & _ & _ & Hby & _).
  - discriminate.
  - discriminate.
  - intros x Hx. apply Hfl. cbn in Hx. lia.
  - exists k, p, k'. split_and!; [exact Hrun|exact Hrun'|]. apply (Hby 4097). split; [discriminate|reflexivity].
Defined.
