(* ===== verification/Bytes.v ===== *)
(** * Integers in byte arrays

    Structures the kernel keeps in disk blocks (log headers, inodes, directory
    entries, indirect blocks, bitmaps) are little-endian integers at fixed
    offsets of a byte list. *)

From S2P Require Import Prelude.

Abbreviation bytes := (list Z).
Definition byte_ok (b : Z) : Prop := 0 <= b < 256.

Definition get8 (l : bytes) (o : nat) : Z := l !!! o.
Definition get16 (l : bytes) (o : nat) : Z := get8 l o + 2 ^ 8 * get8 l (o + 1).
Definition get32 (l : bytes) (o : nat) : Z :=
  get8 l o + 2 ^ 8 * get8 l (o + 1) + 2 ^ 16 * get8 l (o + 2) + 2 ^ 24 * get8 l (o + 3).

(** Replace the bytes from [o] on by [d]; [d] fits. *)
Definition splice (o : nat) (d l : bytes) : bytes := take o l ++ d ++ drop (o + length d) l.

Definition le16 (v : Z) : bytes := [v mod 256; v / 2 ^ 8 mod 256].
Definition le32 (v : Z) : bytes := [v mod 256; v / 2 ^ 8 mod 256; v / 2 ^ 16 mod 256; v / 2 ^ 24 mod 256].
Definition put8 (o : nat) (v : Z) (l : bytes) : bytes := splice o [u8 v] l.
Definition put16 (o : nat) (v : Z) (l : bytes) : bytes := splice o (le16 v) l.
Definition put32 (o : nat) (v : Z) (l : bytes) : bytes := splice o (le32 v) l.

Lemma length_splice o d l : (o + length d <= length l)%nat -> length (splice o d l) = length l.
Proof. intros H. unfold splice. len. Qed.

Lemma splice_lookup_in o d l i : (i < length d)%nat -> (o <= length l)%nat ->
  splice o d l !!! (o + i)%nat = d !!! i.
Proof.
  intros Hi Ho. unfold splice. rewrite !list_lookup_total_alt.
  rewrite lookup_app_r by len. rewrite lookup_app_l by len.
  do 2 f_equal. len.
Qed.

Lemma splice_lookup_out o d l i : (i < o \/ o + length d <= i)%nat -> (o + length d <= length l)%nat ->
  splice o d l !!! i = l !!! i.
Proof.
  intros Hi Ho. unfold splice. rewrite !list_lookup_total_alt. f_equal. destruct Hi as [Hi|Hi].
  - rewrite lookup_app_l by len. by rewrite lookup_take_lt.
  - rewrite lookup_app_r by len. rewrite lookup_app_r by len. rewrite lookup_drop. f_equal. len.
Qed.

Lemma get8_splice_out o d l i : (i < o \/ o + length d <= i)%nat -> (o + length d <= length l)%nat ->
  get8 (splice o d l) i = get8 l i.
Proof. apply splice_lookup_out. Qed.

Lemma get32_splice_out o d l i : (i + 4 <= o \/ o + length d <= i)%nat -> (o + length d <= length l)%nat ->
  get32 (splice o d l) i = get32 l i.
Proof. intros Hi Ho. unfold get32. rewrite !get8_splice_out by lia. done. Qed.

Lemma get16_splice_out o d l i : (i + 2 <= o \/ o + length d <= i)%nat -> (o + length d <= length l)%nat ->
  get16 (splice o d l) i = get16 l i.
Proof. intros Hi Ho. unfold get16. rewrite !get8_splice_out by lia. done. Qed.

Lemma get32_put32 o v l : (o + 4 <= length l)%nat -> get32 (put32 o v l) o = u32 v.
Proof.
  intros H. unfold get32, put32, get8.
  rewrite <- (Nat.add_0_r o) at 1. rewrite !splice_lookup_in by (simpl; lia). simpl.
  unfold u32. Z.div_mod_to_equations. lia.
Qed.

Lemma get16_put16 o v l : (o + 2 <= length l)%nat -> get16 (put16 o v l) o = u16 v.
Proof.
  intros H. unfold get16, put16, get8.
  rewrite <- (Nat.add_0_r o) at 1. rewrite !splice_lookup_in by (simpl; lia). simpl.
  unfold u16. Z.div_mod_to_equations. lia.
Qed.

Lemma get8_put8 o v l : (o + 1 <= length l)%nat -> get8 (put8 o v l) o = u8 v.
Proof.
  intros H. unfold put8, get8. pose proof (splice_lookup_in o [u8 v] l 0) as E.
  rewrite Nat.add_0_r in E. by rewrite E by (simpl; lia).
Qed.

Lemma le32_ok v : Forall byte_ok (le32 v).
Proof. unfold le32, byte_ok. repeat constructor; apply Z.mod_pos_bound; lia. Qed.
Lemma le16_ok v : Forall byte_ok (le16 v).
Proof. unfold le16, byte_ok. repeat constructor; apply Z.mod_pos_bound; lia. Qed.

Lemma splice_ok o d l : Forall byte_ok d -> Forall byte_ok l -> Forall byte_ok (splice o d l).
Proof.
  intros Hd Hl. unfold splice. apply Forall_app. split; [by apply Forall_take|].
  apply Forall_app. split; [done|by apply Forall_drop].
Qed.

Lemma get8_range l o : Forall byte_ok l -> 0 <= get8 l o < 256.
Proof.
  intros H. unfold get8. rewrite list_lookup_total_alt. destruct (l !! o) as [x|] eqn:E; simpl.
  - exact (Forall_lookup_1 _ _ _ _ H E).
  - change (inhabitant : Z) with 1. lia.
Qed.

Lemma get32_range l o : Forall byte_ok l -> 0 <= get32 l o < 2 ^ 32.
Proof.
  intros H. unfold get32. pose proof (get8_range l o H). pose proof (get8_range l (o + 1) H).
  pose proof (get8_range l (o + 2) H). pose proof (get8_range l (o + 3) H). lia.
Qed.

Lemma get16_range l o : Forall byte_ok l -> 0 <= get16 l o < 2 ^ 16.
Proof.
  intros H. unfold get16. pose proof (get8_range l o H). pose proof (get8_range l (o + 1) H). lia.
Qed.

Lemma length_le32 v : length (le32 v) = 4%nat.
Proof. done. Qed.
Lemma length_le16 v : length (le16 v) = 2%nat.
Proof. done. Qed.
Lemma length_put32 o v l : (o + 4 <= length l)%nat -> length (put32 o v l) = length l.
Proof. exact (length_splice o (le32 v) l). Qed.
Lemma length_put16 o v l : (o + 2 <= length l)%nat -> length (put16 o v l) = length l.
Proof. exact (length_splice o (le16 v) l). Qed.
Lemma length_put8 o v l : (o + 1 <= length l)%nat -> length (put8 o v l) = length l.
Proof. exact (length_splice o ([u8 v]) l). Qed.

(** A slice of a byte array. *)
Definition slice (o n : nat) (l : bytes) : bytes := take n (drop o l).

Lemma slice_splice_same o d l : (o + length d <= length l)%nat -> slice o (length d) (splice o d l) = d.
Proof.
  intros H. unfold slice, splice. rewrite drop_app_ge by len.
  replace (o - length (take o l))%nat with 0%nat by len. rewrite drop_0. by rewrite take_app_length.
Qed.

Lemma length_slice o n l : (o + n <= length l)%nat -> length (slice o n l) = n.
Proof. intros. unfold slice. len. Qed.
