(* ===== verification/Bio.v ===== *)
(** * The buffer cache (bio.c) over the memory disk (memide.c)

    Buffers are slots of an array; the LRU list is the doubly linked list
    through their prev and next pointers, with the list head as slot NBUF.
    [lru] relates the pointers to a list of slots, most recently released
    first; on it bget is two searches and brelse moves a slot to the front.
    bcache.lock is held inside bget and brelse, which therefore run without
    interleaving; a busy buffer makes bget sleep. *)

From S2P Require Import Prelude Params Bytes.

Record buf : Type := mkBuf { b_flags : Z; b_dev : Z; b_blockno : Z; b_data : bytes }.
Definition set_bflags (f : Z) (b : buf) : buf := mkBuf f (b_dev b) (b_blockno b) (b_data b).
Definition set_bdata (d : bytes) (b : buf) : buf := mkBuf (b_flags b) (b_dev b) (b_blockno b) d.
#[export] Instance buf_inhabited : Inhabited buf := populate (mkBuf 0 0 0 []).

Definition HEAD : nat := NBUF.

(** The memory disk: its blocks, and the writes it has completed, in order
    (the images a power failure can leave are those after each of them). *)
Record bcache : Type := mkBc {
  bc_bufs : list buf;
  bc_next : list nat;
  bc_prev : list nat;
  bc_disk : list bytes;
  bc_writes : list (nat * bytes)
}.
Definition put_bufs (l : list buf) (s : bcache) : bcache :=
  mkBc l (bc_next s) (bc_prev s) (bc_disk s) (bc_writes s).
Definition put_next (x y : nat) (s : bcache) : bcache :=
  mkBc (bc_bufs s) (<[x := y]> (bc_next s)) (bc_prev s) (bc_disk s) (bc_writes s).
Definition put_prev (x y : nat) (s : bcache) : bcache :=
  mkBc (bc_bufs s) (bc_next s) (<[x := y]> (bc_prev s)) (bc_disk s) (bc_writes s).
Definition disk_write (p : nat) (d : bytes) (s : bcache) : bcache :=
  mkBc (bc_bufs s) (bc_next s) (bc_prev s) (<[p := d]> (bc_disk s)) (bc_writes s ++ [(p, d)]).

Definition next (s : bcache) (x : nat) : nat := bc_next s !!! x.
Definition prev (s : bcache) (x : nat) : nat := bc_prev s !!! x.
Definition modb (b : nat) (f : buf -> buf) (s : bcache) : bcache := put_bufs (alter f b (bc_bufs s)) s.

(** b->next = head.next; b->prev = &head; head.next->prev = b; head.next = b; *)
Definition push_front (b : nat) (s : bcache) : bcache :=
  let s := put_next b (next s HEAD) s in
  let s := put_prev b HEAD s in
  let s := put_prev (next s HEAD) b s in
  put_next HEAD b s.

Definition no_dev : Z := u32 (-1).
Definition binit_buf (s : bcache) (b : nat) : bcache :=
  push_front b (modb b (fun x => mkBuf (b_flags x) no_dev (b_blockno x) (b_data x)) s).
Definition binit (s : bcache) : bcache :=
  foldl binit_buf (put_next HEAD HEAD (put_prev HEAD HEAD s)) (seq 0 NBUF).

(** for(b = ...; b != &bcache.head; b = step(b)) if(test(b)) ...; [None] when
    the walk does not come back to the head within [fuel] steps *)
Fixpoint scan (step : nat -> nat) (test : nat -> bool) (fuel : nat) (b : nat) : option (option nat) :=
  if decide (b = HEAD) then Some None
  else match fuel with
       | O => None
       | S fuel' => if test b then Some (Some b) else scan step test fuel' (step b)
       end.

Definition is_cached (dev blockno : Z) (x : buf) : bool := (b_dev x =? dev) && (b_blockno x =? blockno).
Definition is_clean (x : buf) : bool := negb (has (b_flags x) B_BUSY) && negb (has (b_flags x) B_DIRTY).

Definition bget (dev blockno : Z) : kernel bcache nat := fun s =>
  match scan (next s) (fun b => is_cached dev blockno (bc_bufs s !!! b)) NBUF (next s HEAD) with
  | None => Diverge
  | Some (Some b) =>
      if has (b_flags (bc_bufs s !!! b)) B_BUSY then Sleeping s (CBuf b)
      else Done (modb b (fun x => set_bflags (setf (b_flags x) B_BUSY) x) s) b
  | Some None =>
      match scan (prev s) (fun b => is_clean (bc_bufs s !!! b)) NBUF (prev s HEAD) with
      | None => Diverge
      | Some None => Panic "bget: no buffers"
      | Some (Some b) => Done (modb b (fun x => mkBuf B_BUSY dev blockno (b_data x)) s) b
      end
  end.

(** memide.c *)
Definition iderw (b : nat) : kernel bcache unit :=
  s ← kget;
  let x := bc_bufs s !!! b in
  if negb (has (b_flags x) B_BUSY) then kpanic "iderw: buf not busy"
  else if Z.land (b_flags x) (Z.lor B_VALID B_DIRTY) =? B_VALID then kpanic "iderw: nothing to do"
  else if negb (b_dev x =? 1) then kpanic "iderw: request not for disk 1"
  else if Z.of_nat (length (bc_disk s)) <=? b_blockno x then kpanic "iderw: block out of range"
  else
    let p := Z.to_nat (b_blockno x) in
    (if has (b_flags x) B_DIRTY then
       kmodify (modb b (fun x => set_bflags (clrf (b_flags x) B_DIRTY) x));;
       kmodify (disk_write p (b_data x))
     else kmodify (fun s => modb b (set_bdata (bc_disk s !!! p)) s));;
    kmodify (modb b (fun x => set_bflags (setf (b_flags x) B_VALID) x)).

Definition bread (dev blockno : Z) : kernel bcache nat :=
  b ← bget dev blockno;
  s ← kget;
  (if has (b_flags (bc_bufs s !!! b)) B_VALID then mret tt else iderw b);;
  mret b.

Definition bwrite (b : nat) : kernel bcache unit :=
  s ← kget;
  if negb (has (b_flags (bc_bufs s !!! b)) B_BUSY) then kpanic "bwrite"
  else
    kmodify (modb b (fun x => set_bflags (setf (b_flags x) B_DIRTY) x));;
    iderw b.

(** The channel woken is CBuf b. *)
Definition brelse (b : nat) : kernel bcache unit :=
  s ← kget;
  if negb (has (b_flags (bc_bufs s !!! b)) B_BUSY) then kpanic "brelse"
  else
    kmodify (fun s => put_prev (next s b) (prev s b) s);;
    kmodify (fun s => put_next (prev s b) (next s b) s);;
    kmodify (push_front b);;
    kmodify (modb b (fun x => set_bflags (clrf (b_flags x) B_BUSY) x)).

(** ** The list behind the pointers *)
Fixpoint links (nx pv : list nat) (x : nat) (l : list nat) (z : nat) : Prop :=
  match l with
  | [] => nx !!! x = z /\ pv !!! z = x
  | y :: l' => nx !!! x = y /\ pv !!! y = x /\ links nx pv y l' z
  end.

Lemma links_app nx pv x l1 y l2 z :
  links nx pv x (l1 ++ y :: l2) z <-> links nx pv x l1 y /\ links nx pv y l2 z.
Proof.
  revert x. induction l1 as [|w l1 IH]; intros x; simpl; [tauto|]. rewrite IH. tauto.
Qed.

(** [links] only looks at next of x and l, and at prev of l and z. *)
Lemma links_frame nx pv nx' pv' x l z :
  (forall i, i = x \/ i ∈ l -> nx' !!! i = nx !!! i) ->
  (forall i, i = z \/ i ∈ l -> pv' !!! i = pv !!! i) ->
  links nx pv x l z -> links nx' pv' x l z.
Proof.
  revert x. induction l as [|y l IH]; intros x Hn Hp; simpl.
  - rewrite (Hn x), (Hp z) by auto. done.
  - rewrite (Hn x), (Hp y) by set_solver. intros (? & ? & Hl). split_and!; [done|done|].
    apply IH; [| |done]; intros i Hi; [apply Hn|apply Hp]; set_solver.
Qed.

Record lru (s : bcache) (l : list nat) : Prop := mkLru {
  lru_links : links (bc_next s) (bc_prev s) HEAD l HEAD;
  lru_perm : l ≡ₚ seq 0 NBUF;
  lru_next : length (bc_next s) = S NBUF;
  lru_prev : length (bc_prev s) = S NBUF;
  lru_bufs : length (bc_bufs s) = NBUF
}.

Lemma lru_elem s l b : lru s l -> b ∈ l <-> (b < NBUF)%nat.
Proof. intros H. rewrite (lru_perm _ _ H). rewrite elem_of_seq. lia. Qed.
Lemma lru_nodup s l : lru s l -> NoDup l.
Proof. intros H. rewrite (lru_perm _ _ H). apply NoDup_seq. Qed.

(** Walking the list visits its elements in order. *)
Lemma scan_links step test l fuel z :
  z = HEAD -> (length l <= fuel)%nat -> HEAD ∉ l ->
  (forall i x y, (l ++ [z]) !! i = Some x -> (l ++ [z]) !! S i = Some y -> step x = y) ->
  scan step test fuel (hd z l) = Some (list_find (fun b => test b = true) l ≫= fun '(_, b) => Some b).
Proof.
  intros -> . revert fuel. induction l as [|y l IH]; intros fuel Hf Hh Hst; cbn [hd].
  - destruct fuel; cbn [scan]; by rewrite decide_True.
  - destruct fuel as [|fuel]; [simpl in Hf; lia|]. cbn [scan].
    rewrite decide_False by (intros ->; set_solver). cbn [list_find].
    destruct (test y) eqn:Ht; [by rewrite decide_True|]. rewrite decide_False by congruence.
    assert (step y = hd HEAD l) as ->.
    { apply (Hst 0%nat); [done|]. destruct l; done. }
    rewrite IH; [|simpl in Hf; lia|set_solver|].
    + by destruct (list_find _ l) as [[k b]|].
    + intros i x w Hx Hw. apply (Hst (S i) x w); done.
Qed.

Lemma links_next nx pv x l z : links nx pv x l z ->
  nx !!! x = hd z l /\
  forall i a b, (l ++ [z]) !! i = Some a -> (l ++ [z]) !! S i = Some b -> nx !!! a = b.
Proof.
  revert x. induction l as [|y l IH]; intros x; simpl.
  - intros [H _]. split; [done|]. intros [|i] a b Ha Hb; simplify_eq/=; done.
  - intros (H1 & H2 & Hl). destruct (IH y Hl) as [Hh Hi]. split; [done|].
    intros [|i] a b Ha Hb; simplify_eq/=; [|eauto]. rewrite Hh. destruct l; simplify_eq/=; done.
Qed.

Lemma links_reverse nx pv x l z : links nx pv x l z -> links pv nx z (reverse l) x.
Proof.
  revert x. induction l as [|y l IH]; intros x; simpl; [tauto|].
  intros (H1 & H2 & Hl). rewrite reverse_cons. apply links_app. split; [by apply IH|]. done.
Qed.

Definition find (test : nat -> bool) (l : list nat) : option nat :=
  list_find (fun b => test b = true) l ≫= fun '(_, b) => Some b.

Lemma find_Some test l b : find test l = Some b -> b ∈ l /\ test b = true.
Proof.
  unfold find. destruct (list_find _ l) as [[i x]|] eqn:E; [|done]. intros [= <-].
  apply list_find_Some in E as (Hi & Ht & _). split; [by eapply list_elem_of_lookup_2|done].
Qed.
Lemma find_None test l : find test l = None -> forall b, b ∈ l -> test b = false.
Proof.
  unfold find. destruct (list_find _ l) as [[i x]|] eqn:E; [done|]. intros _ b Hb.
  apply list_find_None in E. rewrite Forall_forall in E. specialize (E b Hb). by destruct (test b).
Qed.

Lemma lru_length s l : lru s l -> length l = NBUF.
Proof. intros H. rewrite (lru_perm _ _ H), length_seq. done. Qed.
Lemma lru_not_head s l : lru s l -> HEAD ∉ l.
Proof. intros H. rewrite (lru_elem _ _ _ H). unfold HEAD. lia. Qed.

(** bget: the first cached buffer, or the least recently released clean one. *)
Lemma bget_spec s l dev blockno : lru s l ->
  bget dev blockno s =
  match find (fun b => is_cached dev blockno (bc_bufs s !!! b)) l with
  | Some b =>
      if has (b_flags (bc_bufs s !!! b)) B_BUSY then Sleeping s (CBuf b)
      else Done (modb b (fun x => set_bflags (setf (b_flags x) B_BUSY) x) s) b
  | None =>
      match find (fun b => is_clean (bc_bufs s !!! b)) (reverse l) with
      | Some b => Done (modb b (fun x => mkBuf B_BUSY dev blockno (b_data x)) s) b
      | None => Panic "bget: no buffers"
      end
  end.
Proof.
  intros H. pose proof (lru_length _ _ H) as Hlen. pose proof (lru_not_head _ _ H) as Hh.
  destruct (links_next _ _ _ _ _ (lru_links _ _ H)) as [Hn1 Hn2].
  destruct (links_next _ _ _ _ _ (links_reverse _ _ _ _ _ (lru_links _ _ H))) as [Hp1 Hp2].
  unfold bget. change (next s HEAD) with (bc_next s !!! HEAD). rewrite Hn1.
  rewrite (scan_links (next s)) by (done || lia).
  fold (find (fun b => is_cached dev blockno (bc_bufs s !!! b)) l).
  destruct (find _ l) as [b|]; [done|].
  change (prev s HEAD) with (bc_prev s !!! HEAD). rewrite Hp1.
  rewrite (scan_links (prev s)); [|done|rewrite length_reverse; lia|by rewrite elem_of_reverse|done].
  fold (find (fun b => is_clean (bc_bufs s !!! b)) (reverse l)).
  destruct (find _ (reverse l)); done.
Qed.

(** Taking a slot out of the list, and putting one in front. *)
Lemma elem_of_hd {A} (z : A) l : hd z l = z \/ hd z l ∈ l.
Proof. destruct l; [by left|right; simpl; by left]. Qed.
Lemma hd_reverse_snoc {A} (z : A) l w : hd z (reverse (l ++ [w])) = w.
Proof. by rewrite reverse_snoc. Qed.

Lemma links_remove nx pv x l1 b l2 z p q :
  NoDup (l1 ++ b :: l2) -> (x ∉ l1 ++ b :: l2) -> (z ∉ l1 ++ b :: l2) ->
  (forall i, i = x \/ i ∈ l1 ++ b :: l2 -> (i < length nx)%nat) ->
  (forall i, i = z \/ i ∈ l1 ++ b :: l2 -> (i < length pv)%nat) ->
  links nx pv x (l1 ++ b :: l2) z -> pv !!! b = p -> nx !!! b = q ->
  links (<[p := q]> nx) (<[q := p]> pv) x (l1 ++ l2) z.
Proof.
  intros Hnd Hx Hz Hlx Hlz Hl Hp Hq. apply links_app in Hl as [Ha Hb].
  destruct (links_next _ _ _ _ _ (links_reverse _ _ _ _ _ Ha)) as [Hp' _].
  destruct (links_next _ _ _ _ _ Hb) as [Hq' _]. rewrite Hp in Hp'. rewrite Hq in Hq'.
  clear Hp Hq. apply NoDup_app in Hnd as (Hn1 & Hd & Hn2). apply NoDup_cons in Hn2 as [Hbn Hn2].
  rewrite elem_of_app, elem_of_cons in Hx, Hz.
  setoid_rewrite elem_of_app in Hlx. setoid_rewrite elem_of_cons in Hlx.
  setoid_rewrite elem_of_app in Hlz. setoid_rewrite elem_of_cons in Hlz.
  setoid_rewrite elem_of_cons in Hd.
  assert (q = z \/ q ∈ l2) as Hq by (rewrite Hq'; apply elem_of_hd).
  assert (p = x \/ p ∈ l1) as Hp.
  { rewrite Hp'. rewrite <- (elem_of_reverse _ l1). apply elem_of_hd. }
  assert ((q < length pv)%nat) as Hql by (apply Hlz; tauto).
  assert ((p < length nx)%nat) as Hpl by (apply Hlx; tauto).
  assert (forall i, i ∈ l1 -> q <> i) as Hq1.
  { intros i Hi ->. destruct Hq as [->|Hq]; [tauto|]. apply (Hd i Hi). tauto. }
  assert (forall i, i ∈ l2 -> p <> i) as Hp2.
  { intros i Hi ->. destruct Hp as [->|Hp]; [tauto|]. apply (Hd i Hp). tauto. }
  (* the part before the slot *)
  assert (links (<[p := q]> nx) (<[q := p]> pv) x l1 q) as H1.
  { destruct l1 as [|w l1 _] using rev_ind.
    - change (reverse []) with (@nil nat) in Hp'. simpl in Hp'. subst p. simpl.
      by rewrite !list_lookup_total_insert_eq.
    - rewrite hd_reverse_snoc in Hp'. subst w. apply NoDup_app in Hn1 as (_ & Hw & _).
      setoid_rewrite elem_of_app in Hx. setoid_rewrite elem_of_app in Hq1.
      setoid_rewrite list_elem_of_singleton in Hx. setoid_rewrite list_elem_of_singleton in Hw.
      setoid_rewrite list_elem_of_singleton in Hq1.
      apply links_app in Ha as [Ha1 Ha2]. apply links_app. split.
      + eapply links_frame; [| |exact Ha1]; intros i Hi; apply list_lookup_total_insert_ne.
        * intros <-. destruct Hi as [->|Hi]; [tauto|]. by apply (Hw p Hi).
        * apply Hq1. tauto.
      + simpl. by rewrite !list_lookup_total_insert_eq. }
  destruct l2 as [|y l2]; simpl in Hq'; subst q; [by rewrite app_nil_r|].
  apply links_app. split; [done|]. destruct Hb as (_ & _ & Hb). apply NoDup_cons in Hn2 as [Hy _].
  setoid_rewrite elem_of_cons in Hp2.
  eapply links_frame; [| |exact Hb]; intros i Hi; apply list_lookup_total_insert_ne.
  - apply Hp2. tauto.
  - intros <-. rewrite elem_of_cons in Hz. destruct Hi as [->|Hi]; tauto.
Qed.

Lemma push_front_links s b l :
  links (bc_next s) (bc_prev s) HEAD l HEAD -> b ∉ l -> b <> HEAD ->
  (b < length (bc_next s))%nat -> (HEAD < length (bc_next s))%nat ->
  (forall i, i = HEAD \/ i = b \/ i ∈ l -> (i < length (bc_prev s))%nat) -> HEAD ∉ l -> NoDup l ->
  links (bc_next (push_front b s)) (bc_prev (push_front b s)) HEAD (b :: l) HEAD.
Proof.
  intros Hl Hb Hbh H1 H2 H3 Hh Hnd. destruct (links_next _ _ _ _ _ Hl) as [Hhd _].
  unfold push_front, next, put_next, put_prev. cbn [bc_next bc_prev].
  rewrite (list_lookup_total_insert_ne _ b HEAD) by done. rewrite Hhd.
  set (y := hd HEAD l).
  assert (y <> b /\ (y < length (bc_prev s))%nat) as [Hyb Hyl].
  { unfold y. destruct l as [|w l]; simpl; [split; [congruence|apply H3; auto]|].
    split; [set_solver|]. apply H3. set_solver. }
  simpl. split_and!.
  - apply list_lookup_total_insert_eq. by rewrite length_insert.
  - rewrite list_lookup_total_insert_ne by done. apply list_lookup_total_insert_eq. apply H3; auto.
  - assert (forall nx' pv', nx' !!! b = y -> pv' !!! y = b ->
      (forall i, i ∈ l -> nx' !!! i = bc_next s !!! i) ->
      (forall i, i <> y -> i = HEAD \/ i ∈ l -> pv' !!! i = bc_prev s !!! i) ->
      links nx' pv' b l HEAD) as Hgen.
    { intros nx' pv' E1 E2 E3 E4. unfold y in *. destruct l as [|w l]; simpl in *; [done|].
      split_and!; [done|done|]. destruct Hl as (_ & _ & Hl). apply NoDup_cons in Hnd as [Hw Hnd].
      eapply links_frame; [| |exact Hl].
      - intros i Hi. apply E3. set_solver.
      - intros i Hi. apply E4; [intros ->; set_solver|set_solver]. }
    apply Hgen.
    + rewrite list_lookup_total_insert_ne by congruence. by apply list_lookup_total_insert_eq.
    + apply list_lookup_total_insert_eq. by rewrite length_insert.
    + intros i Hi. rewrite !list_lookup_total_insert_ne; [done|set_solver|set_solver].
    + intros i Hi Hin. rewrite !list_lookup_total_insert_ne; [done| |done].
      intros ->. destruct Hin as [?|?]; [congruence|set_solver].
Qed.

Lemma modb_lru s l b f : lru s l -> lru (modb b f s) l.
Proof. intros [H1 H2 H3 H4 H5]. split; try done. cbn. by rewrite length_alter. Qed.
Lemma disk_write_lru s l p d : lru s l -> lru (disk_write p d s) l.
Proof. intros [H1 H2 H3 H4 H5]. by split. Qed.

Definition unlink (b : nat) (s : bcache) : bcache :=
  let s := put_prev (next s b) (prev s b) s in put_next (prev s b) (next s b) s.

(** brelse moves the slot to the front of the list. *)
Lemma relink_lru s l b : lru s l -> (b < NBUF)%nat ->
  exists l1 l2, l = l1 ++ b :: l2 /\ lru (push_front b (unlink b s)) (b :: l1 ++ l2).
Proof.
  intros H Hb. pose proof (lru_not_head _ _ H) as Hh. pose proof (lru_nodup _ _ H) as Hnd.
  apply (lru_elem _ _ b H) in Hb as Hin. apply list_elem_of_split in Hin as (l1 & l2 & ->).
  exists l1, l2. split; [done|].
  assert (forall i, i ∈ l1 ++ b :: l2 -> (i < NBUF)%nat) as Hlt by (intros i; by apply (lru_elem _ _ i H)).
  pose proof (proj1 (links_app _ _ _ _ _ _ _) (lru_links _ _ H)) as [_ Hb2].
  destruct (links_next _ _ _ _ _ Hb2) as [Hnb _].
  assert (bc_next s !!! b <> b) as Hne.
  { rewrite Hnb. destruct (elem_of_hd HEAD l2) as [->|Hi]; [unfold HEAD; lia|].
    intros E. rewrite E in Hi. apply NoDup_app in Hnd as (_ & _ & Hnd). by apply NoDup_cons in Hnd as [? _]. }
  assert (links (bc_next (unlink b s)) (bc_prev (unlink b s)) HEAD (l1 ++ l2) HEAD) as Hl.
  { unfold unlink, next, prev, put_next, put_prev. cbn [bc_next bc_prev].
    rewrite list_lookup_total_insert_ne by done.
    eapply links_remove; [done|done|done| | |apply H|done|done]; intros i [->|Hi].
    - rewrite (lru_next _ _ H). unfold HEAD. lia.
    - rewrite (lru_next _ _ H). apply Hlt in Hi. lia.
    - rewrite (lru_prev _ _ H). unfold HEAD. lia.
    - rewrite (lru_prev _ _ H). apply Hlt in Hi. lia. }
  assert (NoDup (b :: l1 ++ l2)) as Hnd' by (by rewrite Permutation_middle).
  apply NoDup_cons in Hnd' as [Hbn Hnd'].
  assert (forall i, i ∈ l1 ++ l2 -> (i < NBUF)%nat) as Hlt'.
  { intros i Hi. apply Hlt. rewrite elem_of_app, elem_of_cons. apply elem_of_app in Hi. tauto. }
  split.
  - apply push_front_links; try done.
    + unfold HEAD. lia.
    + cbn. rewrite length_insert, (lru_next _ _ H). lia.
    + cbn. rewrite length_insert, (lru_next _ _ H). unfold HEAD. lia.
    + intros i Hi. cbn. rewrite length_insert, (lru_prev _ _ H).
      destruct Hi as [->|[->|Hi]]; [unfold HEAD; lia|lia|]. apply Hlt' in Hi. lia.
    + intros Hi. apply Hlt' in Hi. unfold HEAD in Hi. lia.
  - rewrite Permutation_middle. apply H.
  - cbn. rewrite !length_insert. apply H.
  - cbn. rewrite !length_insert. apply H.
  - cbn. apply H.
Qed.

Lemma brelse_eq s b : has (b_flags (bc_bufs s !!! b)) B_BUSY = true ->
  brelse b s = Done (modb b (fun x => set_bflags (clrf (b_flags x) B_BUSY) x) (push_front b (unlink b s))) tt.
Proof. intros H. unfold brelse, mbind, kernel_bind, kget. rewrite H. done. Qed.

(** binit: slots pushed one after the other, so the last one is first. *)
Lemma binit_lru s : length (bc_next s) = S NBUF -> length (bc_prev s) = S NBUF ->
  length (bc_bufs s) = NBUF -> lru (binit s) (reverse (seq 0 NBUF)).
Proof.
  intros H1 H2 H3.
  assert (forall n, (n <= NBUF)%nat ->
    let t := foldl binit_buf (put_next HEAD HEAD (put_prev HEAD HEAD s)) (seq 0 n) in
    links (bc_next t) (bc_prev t) HEAD (reverse (seq 0 n)) HEAD /\
    length (bc_next t) = S NBUF /\ length (bc_prev t) = S NBUF /\ length (bc_bufs t) = NBUF) as Hn.
  { intros n. induction n as [|n IH]; intros Hle.
    - cbn. rewrite !length_insert.
      rewrite !list_lookup_total_insert_eq by (unfold HEAD; lia). done.
    - destruct IH as (I1 & I2 & I3 & I4); [lia|]. rewrite seq_S, foldl_snoc, reverse_snoc. cbn [plus].
      set (t := foldl _ _ (seq 0 n)) in *. unfold binit_buf.
      set (t' := modb n _ t). change (bc_next t) with (bc_next t') in *.
      change (bc_prev t) with (bc_prev t') in *.
      assert (length (bc_bufs t') = NBUF) as I4' by (cbn; by rewrite length_alter).
      split_and!.
      + apply push_front_links; try done.
        * rewrite elem_of_reverse, elem_of_seq. lia.
        * unfold HEAD. lia.
        * lia.
        * unfold HEAD. lia.
        * intros i. rewrite elem_of_reverse, elem_of_seq, I3. unfold HEAD. lia.
        * rewrite elem_of_reverse, elem_of_seq. unfold HEAD. lia.
        * rewrite reverse_Permutation. apply NoDup_seq.
      + cbn. by rewrite !length_insert.
      + cbn. by rewrite !length_insert.
      + done. }
  destruct (Hn NBUF) as (I1 & I2 & I3 & I4); [done|]. split; try done. apply reverse_Permutation.
Qed.

(** ** What the cache promises: a disk with a logical content

    [v_blocks] is what a reader sees, [v_disk] what the disk holds; they
    differ at most on the blocks that are dirty or held. *)
Record view : Type := mkView {
  v_blocks : list bytes;
  v_disk : list bytes;
  v_held : gmap nat nat;        (** busy slot, its block *)
  v_dirty : gset nat;           (** blocks pinned in the cache by B_DIRTY *)
  v_writes : list (nat * bytes)
}.

Definition free_slot (v : view) (i : nat) (x : buf) : Prop :=
  b_dev x = no_dev /\ b_flags x = 0 /\ v_held v !! i = None.
Record full_slot (v : view) (i : nat) (x : buf) (bn : nat) : Prop := mkFull {
  fs_dev : b_dev x = 1;
  fs_blockno : b_blockno x = Z.of_nat bn;
  fs_valid : has (b_flags x) B_VALID = true;
  fs_busy : v_held v !! i = if has (b_flags x) B_BUSY then Some bn else None;
  fs_dirty : has (b_flags x) B_DIRTY = bool_decide (bn ∈ v_dirty v);
  fs_data : v_blocks v !! bn = Some (b_data x)
}.

Record cache (s : bcache) (v : view) : Prop := mkCache {
  c_lru : exists l, lru s l;
  c_slot : forall i x, bc_bufs s !! i = Some x -> free_slot v i x \/ exists bn, full_slot v i x bn;
  c_uniq : forall i j x y, bc_bufs s !! i = Some x -> bc_bufs s !! j = Some y ->
    b_dev x = 1 -> b_dev y = 1 -> b_blockno x = b_blockno y -> i = j;
  c_held : forall b bn, v_held v !! b = Some bn -> (b < NBUF)%nat;
  c_dirty : forall bn, bn ∈ v_dirty v -> exists i x, bc_bufs s !! i = Some x /\ full_slot v i x bn;
  c_clean : forall bn, (bn ∉ v_dirty v) -> (forall b, v_held v !! b <> Some bn) ->
    v_blocks v !! bn = v_disk v !! bn;
  c_len : length (v_blocks v) = length (v_disk v);
  c_disk : bc_disk s = v_disk v;
  c_writes : bc_writes s = v_writes v
}.

Lemma flag_busy : B_BUSY = 2 ^ 0. Proof. done. Qed.
Lemma flag_valid : B_VALID = 2 ^ 1. Proof. done. Qed.
Lemma flag_dirty : B_DIRTY = 2 ^ 2. Proof. done. Qed.
Ltac bflags :=
  rewrite ?flag_busy, ?flag_valid, ?flag_dirty in *;
  repeat first [rewrite has_setf by lia | rewrite has_clrf by lia | rewrite has_pow by lia | rewrite has_0]; cbn [Z.eqb Pos.eqb negb];
  rewrite <- ?flag_busy, <- ?flag_valid, <- ?flag_dirty in *;
  rewrite ?andb_true_r, ?andb_false_r, ?orb_true_r, ?orb_false_r.

Lemma cache_length s v : cache s v -> length (bc_bufs s) = NBUF.
Proof. intros H. destruct (c_lru _ _ H) as [l Hl]. apply Hl. Qed.
Lemma cache_slot s v b : cache s v -> (b < NBUF)%nat -> exists x, bc_bufs s !! b = Some x.
Proof. intros H Hb. apply lookup_lt_is_Some_2. by rewrite (cache_length _ _ H). Qed.
Lemma full_slot_unique s v i x j y bn : cache s v -> bc_bufs s !! i = Some x -> bc_bufs s !! j = Some y ->
  full_slot v i x bn -> full_slot v j y bn -> i = j.
Proof.
  intros H Hx Hy F1 F2. eapply (c_uniq _ _ H); eauto; [apply F1|apply F2|].
  by rewrite (fs_blockno _ _ _ _ F1), (fs_blockno _ _ _ _ F2).
Qed.
Lemma cache_held s v b bn : cache s v -> v_held v !! b = Some bn ->
  exists x, bc_bufs s !! b = Some x /\ full_slot v b x bn /\ has (b_flags x) B_BUSY = true.
Proof.
  intros H Hh. destruct (cache_slot _ _ b H (c_held _ _ H _ _ Hh)) as [x Hx]. exists x. split; [done|].
  destruct (c_slot _ _ H b x Hx) as [(_ & _ & F)|[bn' F]]; [congruence|].
  pose proof (fs_busy _ _ _ _ F) as E. rewrite Hh in E. destruct (has _ _) eqn:Eb; [|done].
  by injection E as ->.
Qed.

(** Operations at a slot: what the other slots need to keep. *)
Definition upd_held (h : gmap nat nat) (v : view) : view :=
  mkView (v_blocks v) (v_disk v) h (v_dirty v) (v_writes v).
Definition upd_blocks (l : list bytes) (v : view) : view :=
  mkView l (v_disk v) (v_held v) (v_dirty v) (v_writes v).
Definition upd_dirty (d : gset nat) (v : view) : view :=
  mkView (v_blocks v) (v_disk v) (v_held v) d (v_writes v).
Definition upd_disk (p : nat) (d : bytes) (v : view) : view :=
  mkView (v_blocks v) (<[p := d]> (v_disk v)) (v_held v) (v_dirty v) (v_writes v ++ [(p, d)]).

Lemma cache_modb s v v' s' b x f bn :
  cache s v -> bc_bufs s !! b = Some x -> bc_bufs s' = alter f b (bc_bufs s) ->
  (exists l, lru s' l) -> bc_disk s' = v_disk v' -> bc_writes s' = v_writes v' ->
  full_slot v' b (f x) bn ->
  (forall j y, j <> b -> bc_bufs s !! j = Some y -> b_dev y = 1 -> b_blockno y <> Z.of_nat bn) ->
  (forall j, j <> b -> v_held v' !! j = v_held v !! j) ->
  (forall m, m <> bn -> v_blocks v' !! m = v_blocks v !! m) ->
  (forall m, m <> bn -> m ∈ v_dirty v' <-> m ∈ v_dirty v) ->
  (forall m, m <> bn -> v_disk v' !! m = v_disk v !! m) ->
  length (v_blocks v') = length (v_disk v') ->
  (full_slot v b x bn \/ is_clean x = true) ->
  (bn ∉ v_dirty v' -> v_held v' !! b <> Some bn -> v_blocks v' !! bn = v_disk v' !! bn) ->
  cache s' v'.
Proof.
  intros H Hx Hb Hl Hd Hw Hf Hoth Eh Eb Ed Ek Hlen Hold Hcl.
  assert (forall j y m, j <> b -> full_slot v j y m -> m <> bn -> full_slot v' j y m) as Hfr.
  { intros j y m Hj F Hm. destruct F as [F1 F2 F3 F4 F5 F6]. split; try done.
    - by rewrite Eh.
    - rewrite F5. apply bool_decide_ext. by rewrite Ed.
    - by rewrite Eb. }
  assert (forall j y m, j <> b -> bc_bufs s !! j = Some y -> full_slot v j y m -> m <> bn) as Hne.
  { intros j y m Hj Hy F ->. eapply Hoth; [exact Hj|done|apply F|apply F]. }
  assert (bc_bufs s' !! b = Some (f x)) as Hb' by (rewrite Hb, list_lookup_alter_eq, Hx; done).
  split; try done.
  - intros j y Hy. destruct (decide (j = b)) as [->|Hj]; [right; exists bn; by simplify_eq|].
    rewrite Hb, list_lookup_alter_ne in Hy by done.
    destruct (c_slot _ _ H j y Hy) as [(F1 & F2 & F3)|[m F]].
    + left. split_and!; [done|done|]. by rewrite Eh.
    + right. exists m. apply Hfr; [done|done|]. by eapply Hne.
  - intros i j y z Hi Hj Hyd Hzd Hyz. rewrite Hb in Hi, Hj.
    destruct (decide (i = b)) as [->|Hib], (decide (j = b)) as [->|Hjb]; [done| | |].
    + rewrite list_lookup_alter_eq, Hx in Hi. injection Hi as <-.
      rewrite list_lookup_alter_ne in Hj by done. exfalso.
      eapply Hoth; [exact Hjb|done|done|]. rewrite <- Hyz. apply Hf.
    + rewrite list_lookup_alter_eq, Hx in Hj. injection Hj as <-.
      rewrite list_lookup_alter_ne in Hi by done. exfalso.
      eapply Hoth; [exact Hib|done|done|]. rewrite Hyz. apply Hf.
    + rewrite list_lookup_alter_ne in Hi, Hj by done. by eapply (c_uniq _ _ H).
  - intros j m Hm. destruct (decide (j = b)) as [->|Hj].
    + rewrite <- (cache_length _ _ H). by eapply lookup_lt_Some.
    + rewrite Eh in Hm by done. by eapply (c_held _ _ H).
  - intros m Hm. destruct (decide (m = bn)) as [->|Hmn]; [by exists b, (f x)|].
    apply Ed in Hm; [|done]. destruct (c_dirty _ _ H m Hm) as (i & y & Hy & F).
    destruct (decide (i = b)) as [->|Hib].
    + simplify_eq. destruct Hold as [F'|Hc].
      * pose proof (fs_blockno _ _ _ _ F). pose proof (fs_blockno _ _ _ _ F'). exfalso. apply Hmn. lia.
      * unfold is_clean in Hc. rewrite (fs_dirty _ _ _ _ F) in Hc.
        rewrite bool_decide_eq_true_2 in Hc by done. by rewrite andb_false_r in Hc.
    + exists i, y. rewrite Hb, list_lookup_alter_ne by done. split; [done|]. by apply Hfr.
  - intros m Hm Hh. destruct (decide (m = bn)) as [->|Hmn]; [by apply Hcl|].
    rewrite Eb, Ek by done. apply (c_clean _ _ H); [by rewrite <- Ed|].
    intros j Hj. destruct (decide (j = b)) as [->|Hjb]; [|apply (Hh j); by rewrite Eh].
    destruct (cache_held _ _ _ _ H Hj) as (y & Hy & F & Hbu). simplify_eq.
    destruct Hold as [F'|Hc].
    + pose proof (fs_blockno _ _ _ _ F). pose proof (fs_blockno _ _ _ _ F'). apply Hmn. lia.
    + unfold is_clean in Hc. by rewrite Hbu in Hc.
Qed.

(** Some slot is clean while fewer than NBUF are held or pinned. *)
Lemma NoDup_size (l : list nat) (X : gset nat) : NoDup l -> (forall i, i ∈ l -> i ∈ X) -> (length l <= size X)%nat.
Proof.
  intros Hnd Hin. rewrite <- (size_list_to_set (C := gset nat) l Hnd). apply subseteq_size.
  intros i Hi. by apply Hin, (elem_of_list_to_set (C := gset nat)).
Qed.

Lemma clean_slot s v : cache s v -> (size (v_held v) + size (v_dirty v) < NBUF)%nat ->
  exists b x, bc_bufs s !! b = Some x /\ is_clean x = true.
Proof.
  intros H Hsz. set (f := fun i => Z.to_nat (b_blockno (bc_bufs s !!! i))).
  set (busy := fun i => has (b_flags (bc_bufs s !!! i)) B_BUSY = true).
  destruct (decide (Exists (fun x => is_clean x = true) (bc_bufs s))) as [He|Hn].
  { apply Exists_exists in He as (x & Hx & Hc). apply list_elem_of_lookup_1 in Hx as [b Hb]. eauto. }
  exfalso. rewrite <- Forall_Exists_neg in Hn. rewrite Forall_lookup in Hn.
  assert (forall i, (i < NBUF)%nat -> exists m, full_slot v i (bc_bufs s !!! i) m /\ f i = m /\
    (busy i /\ v_held v !! i = Some m \/ ~ busy i /\ m ∈ v_dirty v)) as Hall.
  { intros i Hi. destruct (cache_slot _ _ i H Hi) as [x Hx]. specialize (Hn i x Hx). unfold f, busy.
    rewrite (list_lookup_total_correct _ _ _ Hx).
    destruct (c_slot _ _ H i x Hx) as [(_ & F & _)|[m F]].
    { unfold is_clean in Hn. rewrite F, !has_0 in Hn. done. }
    exists m. split; [done|]. split; [rewrite (fs_blockno _ _ _ _ F); lia|].
    pose proof (fs_busy _ _ _ _ F). pose proof (fs_dirty _ _ _ _ F). unfold is_clean in Hn.
    destruct (has (b_flags x) B_BUSY); [by left|right]. split; [done|].
    destruct (has (b_flags x) B_DIRTY); [|done]. by apply (bool_decide_eq_true_1 _). }
  assert ((length (filter busy (seq 0 NBUF)) <= size (v_held v))%nat) as H1.
  { rewrite <- (size_dom (D := gset nat)). apply NoDup_size; [apply NoDup_filter, NoDup_seq|].
    intros i [Hb Hi]%list_elem_of_filter. apply elem_of_seq in Hi.
    destruct (Hall i) as (m & _ & _ & [[_ Hh]|[? _]]); [lia| |done]. by apply elem_of_dom_2 in Hh. }
  assert ((length (f <$> filter (fun i => ~ busy i) (seq 0 NBUF)) <= size (v_dirty v))%nat) as H2.
  { apply NoDup_size.
    - apply NoDup_fmap_2_strong; [|apply NoDup_filter, NoDup_seq].
      intros i j [_ Hi]%list_elem_of_filter [_ Hj]%list_elem_of_filter E. apply elem_of_seq in Hi, Hj.
      destruct (Hall i) as (m & F & Hf & _); [lia|]. destruct (Hall j) as (m' & F' & Hf' & _); [lia|].
      destruct (cache_slot _ _ i H) as [xi Hxi]; [lia|]. destruct (cache_slot _ _ j H) as [xj Hxj]; [lia|].
      rewrite (list_lookup_total_correct _ _ _ Hxi) in F. rewrite (list_lookup_total_correct _ _ _ Hxj) in F'.
      rewrite Hf, Hf' in E. subst m'. by eapply (full_slot_unique s v).
    - intros m (i & -> & [Hb Hi]%list_elem_of_filter)%list_elem_of_fmap. apply elem_of_seq in Hi.
      destruct (Hall i) as (m & _ & -> & [[? _]|[_ Hd]]); [lia|done|done]. }
  rewrite length_fmap in H2.
  pose proof (Permutation_length (filter_app_complement busy (seq 0 NBUF))) as H3.
  rewrite length_app, length_seq in H3. lia.
Qed.

(** The slot of a cached block; none when the search fails. *)
Lemma find_cached s v l bn : cache s v -> lru s l ->
  match find (fun b => is_cached 1 (Z.of_nat bn) (bc_bufs s !!! b)) l with
  | Some b => exists x, bc_bufs s !! b = Some x /\ full_slot v b x bn
  | None => forall j y, bc_bufs s !! j = Some y -> b_dev y = 1 -> b_blockno y <> Z.of_nat bn
  end.
Proof.
  intros H Hl. destruct (find _ l) as [b|] eqn:E.
  - apply find_Some in E as [Hin Ht]. apply (lru_elem _ _ _ Hl) in Hin.
    destruct (cache_slot _ _ b H Hin) as [x Hx]. exists x. split; [done|].
    rewrite (list_lookup_total_correct _ _ _ Hx) in Ht.
    apply andb_true_iff in Ht as [Hd Hn]. apply Z.eqb_eq in Hd, Hn.
    destruct (c_slot _ _ H b x Hx) as [(F & _)|[m F]]; [rewrite F in Hd; done|].
    pose proof (fs_blockno _ _ _ _ F). by replace bn with m by lia.
  - intros j y Hy Hd Hn. eapply find_None in E.
    + rewrite (list_lookup_total_correct _ _ _ Hy) in E. unfold is_cached in E. by rewrite Hd, Hn, !Z.eqb_refl in E.
    + apply (lru_elem _ _ _ Hl). rewrite <- (cache_length _ _ H). by eapply lookup_lt_Some.
Qed.

Lemma full_slot_busy v b x bn :
  full_slot v b x bn ->
  full_slot (upd_held (<[b := bn]> (v_held v)) v) b (set_bflags (setf (b_flags x) B_BUSY) x) bn.
Proof.
  intros F. destruct F as [F1 F2 F3 F4 F5 F6]. split; try done; cbn.
  - bflags. done.
  - bflags. by rewrite lookup_insert_eq.
  - bflags. done.
Qed.

Lemma bread_spec s v bn :
  cache s v -> (bn < length (v_blocks v))%nat -> (forall b, v_held v !! b <> Some bn) ->
  bn ∈ v_dirty v \/ (size (v_held v) + size (v_dirty v) < NBUF)%nat ->
  exists s' b, bread 1 (Z.of_nat bn) s = Done s' b /\ v_held v !! b = None /\
    cache s' (upd_held (<[b := bn]> (v_held v)) v).
Proof.
  intros H Hlt Hnh Hroom. destruct (c_lru _ _ H) as [l Hl].
  unfold bread, mbind at 1, kernel_bind at 1. rewrite (bget_spec _ _ _ _ Hl).
  pose proof (find_cached _ _ _ bn H Hl) as Hf. destruct (find _ l) as [b|].
  - destruct Hf as (x & Hx & F). rewrite (list_lookup_total_correct _ _ _ Hx).
    pose proof (fs_busy _ _ _ _ F) as Hb. destruct (has (b_flags x) B_BUSY) eqn:Ebu; [by apply Hnh in Hb|].
    cbn [mbind kernel_bind]. unfold mbind, kernel_bind, kget. cbn [bc_bufs modb put_bufs].
    rewrite list_lookup_total_alter_eq by (by eapply lookup_lt_Some).
    rewrite (list_lookup_total_correct _ _ _ Hx). cbn [b_flags set_bflags].
    replace (has (setf (b_flags x) B_BUSY) B_VALID) with true
      by (symmetry; bflags; apply F).
    eexists _, b. split; [reflexivity|]. split; [done|].
    eapply (cache_modb _ _ _ _ b x _ bn H Hx); [reflexivity| | | |apply full_slot_busy, F| | | | | | | |]; cbn; try done.
    + exists l. by apply modb_lru.
    + apply H.
    + apply H.
    + intros j y Hj Hy Hyd Hyn. apply Hj. eapply (c_uniq _ _ H); eauto; [apply F|]. rewrite Hyn. symmetry. apply F.
    + intros j Hj. by rewrite lookup_insert_ne.
    + apply H.
    + by left.
    + intros _ E. by rewrite lookup_insert_eq in E.
  - destruct (find (fun b => is_clean _) (reverse l)) as [b|] eqn:Ec; cycle 1.
    { exfalso. assert (bn ∉ v_dirty v) as Hnd.
      { intros Hd. destruct (c_dirty _ _ H bn Hd) as (i & x & Hx & F). eapply Hf; [exact Hx|apply F|apply F]. }
      destruct Hroom as [?|Hroom]; [done|]. destruct (clean_slot s v H Hroom) as (b & x & Hx & Hc).
      eapply find_None in Ec; [|rewrite elem_of_reverse; apply (lru_elem _ _ b Hl); rewrite <- (cache_length _ _ H); by eapply lookup_lt_Some].
      rewrite (list_lookup_total_correct _ _ _ Hx) in Ec. congruence. }
    apply find_Some in Ec as [Hin Hc]. rewrite elem_of_reverse in Hin. apply (lru_elem _ _ _ Hl) in Hin.
    destruct (cache_slot _ _ b H Hin) as [x Hx]. rewrite (list_lookup_total_correct _ _ _ Hx) in Hc.
    assert (bn ∉ v_dirty v) as Hnd.
    { intros Hd. destruct (c_dirty _ _ H bn Hd) as (i & y & Hy & F). eapply Hf; [exact Hy|apply F|apply F]. }
    pose proof (c_clean _ _ H bn Hnd Hnh) as Hcl.
    assert (exists d, v_disk v !! bn = Some d) as [d Hd].
    { apply lookup_lt_is_Some_2. by rewrite <- (c_len _ _ H). }
    assert (v_held v !! b = None) as Hbn.
    { destruct (c_slot _ _ H b x Hx) as [F|[m F]]; [apply F|]. rewrite (fs_busy _ _ _ _ F).
      unfold is_clean in Hc. by destruct (has (b_flags x) B_BUSY). }
    set (s1 := modb b (fun x => mkBuf B_BUSY 1 (Z.of_nat bn) (b_data x)) s).
    assert (bc_bufs s1 !!! b = mkBuf B_BUSY 1 (Z.of_nat bn) (b_data x)) as Hs1.
    { cbn. rewrite list_lookup_total_alter_eq by (by eapply lookup_lt_Some).
      by rewrite (list_lookup_total_correct _ _ _ Hx). }
    unfold mbind, kernel_bind, kget. rewrite Hs1. cbn [b_flags].
    change (has B_BUSY B_VALID) with false. cbn iota.
    unfold iderw, mbind, kernel_bind, kget. rewrite Hs1. cbn [b_flags b_dev b_blockno].
    change (negb (has B_BUSY B_BUSY)) with false. change (has B_BUSY B_DIRTY) with false.
    change (Z.land B_BUSY (Z.lor B_VALID B_DIRTY) =? B_VALID) with false. cbn iota.
    change (negb (1 =? 1)) with false. cbn iota.
    replace (Z.of_nat (length (bc_disk s1)) <=? Z.of_nat bn) with false
      by (symmetry; apply Z.leb_gt; cbn; rewrite (c_disk _ _ H), <- (c_len _ _ H); lia).
    cbn iota. unfold kmodify. rewrite Nat2Z.id.
    assert (bc_disk s1 !!! bn = d) as -> by (cbn; rewrite (c_disk _ _ H); by apply list_lookup_total_correct).
    eexists _, b. split; [reflexivity|]. split; [done|].
    eapply (cache_modb _ _ _ _ b x (fun _ => mkBuf (setf B_BUSY B_VALID) 1 (Z.of_nat bn) d) bn H Hx).
    + unfold s1, modb, put_bufs. cbn [bc_bufs]. rewrite !list_alter_alter_eq. by apply list_alter_ext.
    + exists l. by repeat apply modb_lru.
    + apply H.
    + apply H.
    + split; try done; cbn [v_held v_dirty upd_held].
      * rewrite lookup_insert_eq. done.
      * symmetry. by apply bool_decide_eq_false_2.
      * cbn [v_blocks upd_held b_data]. by rewrite Hcl.
    + intros j y Hj Hy Hyd. by apply (Hf j).
    + intros j Hj. cbn. by rewrite lookup_insert_ne.
    + done.
    + done.
    + done.
    + apply H.
    + by right.
    + intros _ E. cbn in E. by rewrite lookup_insert_eq in E.
Qed.

(** A held block's data is the block; writing it changes the block. *)
Lemma data_spec s v b bn : cache s v -> v_held v !! b = Some bn ->
  v_blocks v !! bn = Some (b_data (bc_bufs s !!! b)).
Proof.
  intros H Hh. destruct (cache_held _ _ _ _ H Hh) as (x & Hx & F & _).
  rewrite (list_lookup_total_correct _ _ _ Hx). apply F.
Qed.

Lemma held_others s v b bn x j y : cache s v -> bc_bufs s !! b = Some x -> full_slot v b x bn ->
  j <> b -> bc_bufs s !! j = Some y -> b_dev y = 1 -> b_blockno y <> Z.of_nat bn.
Proof.
  intros H Hx F Hj Hy Hyd Hyn. apply Hj. eapply (c_uniq _ _ H); eauto; [apply F|].
  rewrite Hyn. symmetry. apply F.
Qed.

(** The callers' assignments through a held buffer: bp->data, b->flags |= B_DIRTY. *)
Definition put_data (b : nat) (d : bytes) (s : bcache) : bcache := modb b (set_bdata d) s.
Definition pin (b : nat) (s : bcache) : bcache := modb b (fun x => set_bflags (setf (b_flags x) B_DIRTY) x) s.

Lemma put_data_spec s v b bn d : cache s v -> v_held v !! b = Some bn ->
  cache (put_data b d s) (upd_blocks (<[bn := d]> (v_blocks v)) v).
Proof.
  intros H Hh. destruct (cache_held _ _ _ _ H Hh) as (x & Hx & F & Hb). destruct (c_lru _ _ H) as [l Hl].
  assert (bn < length (v_blocks v))%nat as Hlt by (eapply lookup_lt_Some, F).
  eapply (cache_modb _ _ _ _ b x _ bn H Hx); [reflexivity| | | | | | | | | | | |]; cbn; try done.
  - exists l. by apply modb_lru.
  - apply H.
  - apply H.
  - destruct F as [F1 F2 F3 F4 F5 F6]. split; try done. cbn. by rewrite list_lookup_insert_eq.
  - intros j y. by apply (held_others s v b bn x).
  - intros m Hm. by rewrite list_lookup_insert_ne.
  - rewrite length_insert. apply H.
  - by left.
Qed.

Lemma pin_spec s v b bn : cache s v -> v_held v !! b = Some bn ->
  cache (pin b s) (upd_dirty ({[bn]} ∪ v_dirty v) v).
Proof.
  intros H Hh. destruct (cache_held _ _ _ _ H Hh) as (x & Hx & F & Hb). destruct (c_lru _ _ H) as [l Hl].
  eapply (cache_modb _ _ _ _ b x _ bn H Hx); [reflexivity| | | | | | | | | | | |]; cbn; try done.
  - exists l. by apply modb_lru.
  - apply H.
  - apply H.
  - destruct F as [F1 F2 F3 F4 F5 F6]. split; try done; cbn; bflags; try done.
    symmetry. apply bool_decide_eq_true_2. set_solver.
  - intros j y. by apply (held_others s v b bn x).
  - intros m Hm. set_solver.
  - apply H.
  - by left.
Qed.

Lemma has_dirty_valid f : Z.land f (Z.lor B_VALID B_DIRTY) = B_VALID -> has f B_DIRTY = false.
Proof.
  intros E. rewrite flag_dirty, has_bit by lia.
  assert (Z.testbit (Z.land f (Z.lor B_VALID B_DIRTY)) 2 = Z.testbit B_VALID 2) as E2 by (by rewrite E).
  rewrite Z.land_spec in E2. change (Z.testbit (Z.lor B_VALID B_DIRTY) 2) with true in E2.
  rewrite andb_true_r in E2. by rewrite E2.
Qed.

Lemma bwrite_spec s v b bn d : cache s v -> v_held v !! b = Some bn -> v_blocks v !! bn = Some d ->
  exists s', bwrite b s = Done s' tt /\
    cache s' (upd_disk bn d (upd_dirty (v_dirty v ∖ {[bn]}) v)).
Proof.
  intros H Hh Hd. destruct (cache_held _ _ _ _ H Hh) as (x & Hx & F & Hb). destruct (c_lru _ _ H) as [l Hl].
  assert (bn < length (v_blocks v))%nat as Hlt by (eapply lookup_lt_Some, F).
  assert (d = b_data x) as -> by (rewrite (fs_data _ _ _ _ F) in Hd; congruence).
  set (s1 := pin b s).
  assert (bc_bufs s1 !!! b = set_bflags (setf (b_flags x) B_DIRTY) x) as Hs1.
  { cbn. rewrite list_lookup_total_alter_eq by (by eapply lookup_lt_Some).
    by rewrite (list_lookup_total_correct _ _ _ Hx). }
  unfold bwrite, mbind, kernel_bind, kget. rewrite (list_lookup_total_correct _ _ _ Hx), Hb.
  cbn [negb]. unfold kmodify. fold (pin b s). fold s1.
  unfold iderw, mbind, kernel_bind, kget, kmodify. rewrite Hs1. cbn [b_flags b_dev b_blockno b_data set_bflags].
  assert (has (setf (b_flags x) B_DIRTY) B_BUSY = true) as -> by (bflags; done).
  assert (has (setf (b_flags x) B_DIRTY) B_DIRTY = true) as E by (bflags; done).
  destruct (Z.land (setf (b_flags x) B_DIRTY) (Z.lor B_VALID B_DIRTY) =? B_VALID) eqn:E2.
  { apply Z.eqb_eq, has_dirty_valid in E2. congruence. }
  rewrite E, (fs_dev _ _ _ _ F), (fs_blockno _ _ _ _ F). cbn [negb Z.eqb Pos.eqb].
  replace (Z.of_nat (length (bc_disk s1)) <=? Z.of_nat bn) with false
    by (symmetry; apply Z.leb_gt; cbn; rewrite (c_disk _ _ H), <- (c_len _ _ H); lia).
  rewrite Nat2Z.id. eexists. split; [reflexivity|].
  eapply (cache_modb _ _ _ _ b x (fun x => set_bflags (setf (clrf (setf (b_flags x) B_DIRTY) B_DIRTY) B_VALID) x) bn H Hx).
  - unfold s1, pin, modb, put_bufs, disk_write. cbn [bc_bufs]. rewrite !list_alter_alter_eq. by apply list_alter_ext.
  - exists l. apply modb_lru, disk_write_lru, modb_lru. by apply modb_lru.
  - cbn. by rewrite (c_disk _ _ H).
  - cbn. by rewrite (c_writes _ _ H).
  - destruct F as [F1 F2 F3 F4 F5 F6]. split; try done; cbn; bflags; try done.
    symmetry. apply bool_decide_eq_false_2. set_solver.
  - intros j y. by apply (held_others s v b bn x).
  - done.
  - done.
  - intros m Hm. cbn. set_solver.
  - intros m Hm. cbn. by rewrite list_lookup_insert_ne.
  - cbn. rewrite length_insert. apply H.
  - by left.
  - intros _ E3. cbn in E3. by rewrite Hh in E3.
Qed.

Lemma brelse_spec s v b bn : cache s v -> v_held v !! b = Some bn ->
  bn ∈ v_dirty v \/ v_blocks v !! bn = v_disk v !! bn ->
  exists s', brelse b s = Done s' tt /\ cache s' (upd_held (delete b (v_held v)) v).
Proof.
  intros H Hh Hcl. destruct (cache_held _ _ _ _ H Hh) as (x & Hx & F & Hb). destruct (c_lru _ _ H) as [l Hl].
  destruct (relink_lru s l b Hl (c_held _ _ H _ _ Hh)) as (l1 & l2 & _ & Hl').
  rewrite brelse_eq by (by rewrite (list_lookup_total_correct _ _ _ Hx)).
  eexists. split; [reflexivity|].
  eapply (cache_modb _ _ _ _ b x _ bn H Hx); [reflexivity| | | | | | | | | | | |]; cbn; try done.
  - eexists. by apply modb_lru.
  - apply H.
  - apply H.
  - destruct F as [F1 F2 F3 F4 F5 F6]. split; try done; cbn; bflags; try done. by rewrite lookup_delete_eq.
  - intros j y. by apply (held_others s v b bn x).
  - intros j Hj. by rewrite lookup_delete_ne.
  - apply H.
  - by left.
  - intros Hnd _. destruct Hcl as [?|?]; [done|done].
Qed.

(** After boot: nothing cached, nothing held. The buffers are static
    (zeroed) storage, the disk any image. *)
Definition boot (disk : list bytes) : bcache :=
  binit (mkBc (replicate NBUF (mkBuf 0 0 0 [])) (replicate (S NBUF) 0%nat) (replicate (S NBUF) 0%nat) disk []).

Lemma binit_bufs n s :
  bc_bufs (foldl binit_buf s (seq 0 n)) =
  imap (fun i x => if decide (i < n)%nat then mkBuf (b_flags x) no_dev (b_blockno x) (b_data x) else x) (bc_bufs s).
Proof.
  induction n as [|n IH].
  - cbn. apply list_eq. intros i. rewrite list_lookup_imap. by destruct (bc_bufs s !! i).
  - rewrite seq_S, foldl_snoc. cbn [plus]. unfold binit_buf at 1.
    set (t := foldl _ _ _) in *. change (bc_bufs (push_front n ?u)) with (bc_bufs u). cbn. rewrite IH.
    apply list_eq. intros i. destruct (decide (i = n)) as [->|Hi].
    + rewrite list_lookup_alter_eq, !list_lookup_imap. destruct (bc_bufs s !! n); [|done]. cbn.
      rewrite decide_False by lia. by rewrite decide_True by lia.
    + rewrite list_lookup_alter_ne, !list_lookup_imap by done. destruct (bc_bufs s !! i); [|done]. cbn.
      do 2 f_equal. destruct (decide (i < n)%nat), (decide (i < S n)%nat); [done|lia|lia|done].
Qed.

Lemma binit_same n s : bc_disk (foldl binit_buf s (seq 0 n)) = bc_disk s /\
  bc_writes (foldl binit_buf s (seq 0 n)) = bc_writes s.
Proof. induction n as [|n IH]; [done|]. rewrite seq_S, foldl_snoc. exact IH. Qed.

Lemma boot_cache disk : cache (boot disk) (mkView disk disk ∅ ∅ []).
Proof.
  assert (forall i x, bc_bufs (boot disk) !! i = Some x -> free_slot (mkView disk disk ∅ ∅ []) i x) as Hfr.
  { intros i x. unfold boot, binit. rewrite binit_bufs, list_lookup_imap. cbn [bc_bufs put_next put_prev].
    destruct (replicate _ _ !! i) as [y|] eqn:Ey; [|done]. apply lookup_replicate in Ey as [-> Hi].
    cbn. rewrite decide_True by lia. intros [= <-]. done. }
  split.
  - eexists. by apply binit_lru.
  - intros i x Hx. left. by apply Hfr.
  - intros i j x y Hx Hy Hd. apply Hfr in Hx as (E & _). by rewrite E in Hd.
  - intros b bn Hh. cbn in Hh. by rewrite lookup_empty in Hh.
  - intros bn Hb. set_solver.
  - done.
  - done.
  - apply (binit_same NBUF).
  - apply (binit_same NBUF).
Qed.

(** ** Traces of the callers' operations *)
Inductive bop : Type :=
| OBread (blockno : nat)
| OPut (b : nat) (d : bytes)
| OPin (b : nat)
| OBwrite (b : nat)
| OBrelse (b : nat).

Definition run_bop (o : bop) : kernel bcache (option nat) :=
  match o with
  | OBread bn => b ← bread 1 (Z.of_nat bn); mret (Some b)
  | OPut b d => kmodify (put_data b d);; mret None
  | OPin b => kmodify (pin b);; mret None
  | OBwrite b => bwrite b;; mret None
  | OBrelse b => brelse b;; mret None
  end.

(** What a caller may ask of a block store, and what it then sees: a write to
    a held block must reach the disk or be pinned before the release. *)
Inductive bspec (v : view) : bop -> option nat -> view -> Prop :=
| BSread bn b : (bn < length (v_blocks v))%nat -> (forall c, v_held v !! c <> Some bn) ->
    bn ∈ v_dirty v \/ (size (v_held v) + size (v_dirty v) < NBUF)%nat ->
    v_held v !! b = None ->
    bspec v (OBread bn) (Some b) (upd_held (<[b := bn]> (v_held v)) v)
| BSput b bn d : v_held v !! b = Some bn ->
    bspec v (OPut b d) None (upd_blocks (<[bn := d]> (v_blocks v)) v)
| BSpin b bn : v_held v !! b = Some bn ->
    bspec v (OPin b) None (upd_dirty ({[bn]} ∪ v_dirty v) v)
| BSwrite b bn d : v_held v !! b = Some bn -> v_blocks v !! bn = Some d ->
    bspec v (OBwrite b) None (upd_disk bn d (upd_dirty (v_dirty v ∖ {[bn]}) v))
| BSrelse b bn : v_held v !! b = Some bn ->
    bn ∈ v_dirty v \/ v_blocks v !! bn = v_disk v !! bn ->
    bspec v (OBrelse b) None (upd_held (delete b (v_held v)) v).

(** The callers' side of the contract: some answer of the store is allowed. *)
Definition may (v : view) (o : bop) : Prop := exists r v', bspec v o r v'.

Inductive bruns : bcache -> view -> list (bop * option nat) -> bcache -> view -> Prop :=
| BRnil s v : bruns s v [] s v
| BRcons s v o r s1 v1 t s2 v2 : run_bop o s = Done s1 r -> bspec v o r v1 ->
    bruns s1 v1 t s2 v2 -> bruns s v ((o, r) :: t) s2 v2.

Lemma run_bop_refines s v o : cache s v -> may v o ->
  exists s' r v', run_bop o s = Done s' r /\ bspec v o r v' /\ cache s' v'.
Proof.
  intros H (r0 & v0 & Ho). destruct Ho as [bn b H1 H2 H3 H4|b bn d Hh|b bn Hh|b bn d Hh Hd|b bn Hh Hc]; cbn [run_bop].
  - destruct (bread_spec s v bn H H1 H2 H3) as (s' & b' & E & Hn & Hc).
    exists s', (Some b'). eexists. rewrite (bind_Done _ _ _ _ _ E). split; [done|]. split; [|exact Hc]. by constructor.
  - eexists _, None, _. split; [reflexivity|]. split; [by econstructor|]. by apply put_data_spec.
  - eexists _, None, _. split; [reflexivity|]. split; [by econstructor|]. by apply pin_spec.
  - destruct (bwrite_spec s v b bn d H Hh Hd) as (s' & E & Hc).
    exists s', None. eexists. rewrite (bind_Done _ _ _ _ _ E). split; [done|]. split; [|exact Hc]. by econstructor.
  - destruct (brelse_spec s v b bn H Hh Hc) as (s' & E & Hc').
    exists s', None. eexists. rewrite (bind_Done _ _ _ _ _ E). split; [done|]. split; [|exact Hc']. by econstructor.
Qed.

Lemma bspec_det v o r v1 v2 : bspec v o r v1 -> bspec v o r v2 -> v1 = v2.
Proof. intros H1 H2. destruct H1; inversion H2; subst; by simplify_eq. Qed.

Lemma bruns_cache s v t s' v' : cache s v -> bruns s v t s' v' -> cache s' v'.
Proof.
  intros H Hr. induction Hr as [|s v o r s1 v1 t s2 v2 E Ho _ IH]; [done|]. apply IH.
  destruct (run_bop_refines s v o H) as (s1' & r' & v1' & E' & Ho' & Hc); [by exists r, v1|].
  rewrite E in E'. injection E' as <- <-. by rewrite (bspec_det _ _ _ _ _ Ho Ho').
Qed.

(** C14: the buffer cache implements a block store. After any run of legal
    operations from boot, every further legal operation returns (it neither
    panics nor sleeps nor loops) with a result the store specification allows,
    and a held buffer's data is the block's current content. *)
Theorem bcache_implements_block_store disk t s v o :
  bruns (boot disk) (mkView disk disk ∅ ∅ []) t s v -> may v o ->
  (exists s' r v', run_bop o s = Done s' r /\ bspec v o r v') /\
  (forall b bn, v_held v !! b = Some bn -> v_blocks v !! bn = Some (b_data (bc_bufs s !!! b))) /\
  bc_disk s = v_disk v.
Proof.
  intros Hr Ho. pose proof (bruns_cache _ _ _ _ _ (boot_cache disk) Hr) as H.
  split_and!; [|intros b bn; by apply data_spec|apply H].
  destruct (run_bop_refines s v o H Ho) as (s' & r & v' & E & Hs & _). by exists s', r, v'.
Qed.

(** The list is the release history: each release moves its slot to the front. *)
Definition to_front (l : list nat) (b : nat) : list nat := b :: filter (fun x => x <> b) l.
Definition releases (t : list (bop * option nat)) : list nat :=
  omap (fun '(o, _) => match o with OBrelse b => Some b | _ => None end) t.

Lemma filter_ne (b : nat) (l : list nat) : (b ∉ l) -> filter (fun x => x <> b) l = l.
Proof.
  induction l as [|y l IH]; intros Hb; [done|]. rewrite not_elem_of_cons in Hb.
  rewrite filter_cons_True by (intros ->; tauto). by rewrite IH by tauto.
Qed.
Lemma filter_split (b : nat) (l1 l2 : list nat) : NoDup (l1 ++ b :: l2) ->
  filter (fun x => x <> b) (l1 ++ b :: l2) = l1 ++ l2.
Proof.
  intros Hnd. apply NoDup_app in Hnd as (_ & Hd & Hn). apply NoDup_cons in Hn as [Hb _].
  rewrite filter_app, filter_cons_False by tauto. f_equal; apply filter_ne; [|done].
  intros Hx. apply (Hd b Hx). left.
Qed.

Definition same_links (s s' : bcache) : Prop :=
  bc_next s' = bc_next s /\ bc_prev s' = bc_prev s /\ length (bc_bufs s') = length (bc_bufs s).
Lemma same_links_lru s s' l : same_links s s' -> lru s l -> lru s' l.
Proof. intros (E1 & E2 & E3) [H1 H2 H3 H4 H5]. split; rewrite ?E1, ?E2, ?E3; done. Qed.
Lemma same_links_modb s s' b f : same_links s s' -> same_links s (modb b f s').
Proof. intros (E1 & E2 & E3). split_and!; cbn; [done|done|]. by rewrite length_alter. Qed.
Lemma same_links_refl s : same_links s s.
Proof. done. Qed.

Lemma iderw_links b s s' : iderw b s = Done s' tt -> same_links s s'.
Proof.
  unfold iderw, mbind, kernel_bind, kget, kmodify, kpanic.
  repeat case_match; intros; simplify_eq; repeat apply same_links_modb; apply same_links_refl.
Qed.

Lemma bread_links bn s s' b l : lru s l -> bread 1 bn s = Done s' b -> same_links s s'.
Proof.
  intros Hl. unfold bread, mbind at 1, kernel_bind at 1. rewrite (bget_spec _ _ _ _ Hl).
  assert (forall t c, same_links s t ->
    (s0 ← kget; (if has (b_flags (bc_bufs s0 !!! c)) B_VALID then mret tt else iderw c);; mret c) t = Done s' b ->
    same_links s s') as Hrest.
  { intros t c Ht E. apply bind_inv in E as (t1 & t2 & [= <- <-] & E).
    apply bind_inv in E as (t3 & [] & E & [= <- <-]). destruct (has _ _); [by injection E as <-|].
    apply iderw_links in E. destruct Ht as (? & ? & ?), E as (? & ? & ?). split_and!; congruence. }
  repeat case_match; simplify_eq; try done; apply Hrest; apply same_links_modb, same_links_refl.
Qed.

Lemma run_bop_lru s v o s' r v' l : cache s v -> lru s l -> run_bop o s = Done s' r -> bspec v o r v' ->
  lru s' (foldl to_front l (releases [(o, r)])).
Proof.
  intros Hc Hl E Ho. destruct Ho as [bn b H1 H2 H3 H4|b bn d Hh|b bn Hh|b bn d Hh Hd|b bn Hh Hcl]; cbn [run_bop] in E; cbn [releases omap list_omap foldl].
  - kinv. kunfold. simplify_eq. eapply same_links_lru; [|exact Hl]. by eapply bread_links.
  - injection E as <-. by apply modb_lru.
  - injection E as <-. by apply modb_lru.
  - kinv. kunfold. simplify_eq. eapply same_links_lru; [|exact Hl]. destruct a.
    unfold bwrite in H. apply bind_inv in H as (t1 & t2 & [= <- <-] & E). destruct (negb _); [done|].
    apply bind_inv in E as (t3 & [] & [= <-] & E). apply iderw_links in E as (E1 & E2 & E3).
    split_and!; [done|done|]. rewrite E3. cbn. by rewrite length_alter.
  - destruct (cache_held _ _ _ _ Hc Hh) as (x & Hx & F & Hb).
    kinv. rewrite brelse_eq in H by (by rewrite (list_lookup_total_correct _ _ _ Hx)).
    kunfold. simplify_eq. destruct (relink_lru s l b Hl (c_held _ _ Hc _ _ Hh)) as (l1 & l2 & -> & Hl').
    apply modb_lru. unfold to_front. rewrite filter_split; [done|]. by apply (lru_nodup s).
Qed.

Lemma bruns_lru s v t s' v' l : cache s v -> lru s l -> bruns s v t s' v' ->
  lru s' (foldl to_front l (releases t)).
Proof.
  intros H Hl Hr. revert l Hl. induction Hr as [|s v o r s1 v1 t s2 v2 E Ho Hr IH]; intros l Hl; [done|].
  change ((o, r) :: t) with ([(o, r)] ++ t). unfold releases. rewrite omap_app, foldl_app. apply IH.
  - eapply bruns_cache; [exact H|]. econstructor; [done..|constructor].
  - by eapply run_bop_lru.
Qed.

(** a block that is not cached takes over the least recently released
    buffer that is neither busy nor dirty; bget panics when there is none. *)
Theorem bget_recycles_least_recently_used disk t s v bn :
  bruns (boot disk) (mkView disk disk ∅ ∅ []) t s v ->
  (forall i x, bc_bufs s !! i = Some x -> is_cached 1 bn x = false) ->
  bget 1 bn s =
    match find (fun b => is_clean (bc_bufs s !!! b))
               (reverse (foldl to_front (reverse (seq 0 NBUF)) (releases t))) with
    | Some b => Done (modb b (fun x => mkBuf B_BUSY 1 bn (b_data x)) s) b
    | None => Panic "bget: no buffers"
    end.
Proof.
  intros Hr Hn. pose proof (bruns_cache _ _ _ _ _ (boot_cache disk) Hr) as H.
  assert (lru (boot disk) (reverse (seq 0 NBUF))) as Hl0 by (by apply binit_lru).
  pose proof (bruns_lru _ _ _ _ _ _ (boot_cache disk) Hl0 Hr) as Hl.
  rewrite (bget_spec _ _ _ _ Hl). set (l := foldl _ _ _) in *.
  destruct (find (fun b => is_cached 1 bn (bc_bufs s !!! b)) l) as [b|] eqn:E; [|done].
  apply find_Some in E as [Hin Ht]. apply (lru_elem _ _ _ Hl) in Hin.
  destruct (cache_slot _ _ b H Hin) as [x Hx]. rewrite (list_lookup_total_correct _ _ _ Hx), (Hn b x Hx) in Ht. done.
Qed.

Definition demo_disk : list bytes := replicate 3 (replicate 4 7).
Definition demo_view : view := mkView demo_disk demo_disk ∅ ∅ [].
Definition after (o : bop) (s : bcache) : bcache := match run_bop o s with Done s' _ => s' | _ => s end.
Definition demo_held : view := upd_held {[0%nat := 1%nat]} demo_view.

Lemma demo_bruns : bruns (boot demo_disk) demo_view
  [(OBread 1, Some 0%nat); (OBrelse 0, None)] (after (OBrelse 0) (after (OBread 1) (boot demo_disk))) demo_view.
Proof.
  eapply (BRcons _ _ _ _ _ demo_held); [vm_compute; reflexivity| |].
  { apply (BSread demo_view 1 0); [simpl; lia| |right; vm_compute; lia|done]. intros c. cbn. by rewrite lookup_empty. }
  eapply (BRcons _ _ _ _ _ demo_view); [vm_compute; reflexivity| |constructor].
  apply (BSrelse demo_held 0 1); [done|by right].
Qed.

Lemma bcache_implements_block_store_witness :
  exists s' r v', run_bop (OBread 2) (after (OBrelse 0) (after (OBread 1) (boot demo_disk))) = Done s' r /\
    bspec demo_view (OBread 2) r v'.
Proof.
  apply (bcache_implements_block_store demo_disk _ _ _ (OBread 2) demo_bruns).
  exists (Some 0%nat). eexists. apply (BSread demo_view 2 0); [simpl; lia| |right; vm_compute; lia|done].
  intros c. cbn. by rewrite lookup_empty.
Defined.

(** Slot 0 was released last, so the next block goes to slot 1. *)
Lemma bget_recycles_least_recently_used_witness :
  (match bget 1 2 (after (OBrelse 0) (after (OBread 1) (boot demo_disk))) with Done _ b => b = 1%nat | _ => False end).
Proof.
  rewrite (bget_recycles_least_recently_used demo_disk _ _ _ 2 demo_bruns); [vm_compute; reflexivity|].
  apply (Forall_lookup (fun x => is_cached 1 2 x = false)). vm_compute. repeat constructor.
Defined.
