(* ===== verification/Store.v ===== *)
(** * The block store: what the file system asks of the log

    fs.c reads a block with bread, changes the buffer it got, records it with
    log_write and gives it back with brelse. [BlockStore] is that interface,
    [BlockStoreLaws] what it promises inside a transaction: a list of blocks
    that behaves like an array, as long as a block that was changed is logged
    before it is released and the transaction stays within its capacity. *)

From S2P Require Import Prelude Params Bytes.

(** fs.h: struct superblock, as readsb copies it from block 1 *)
Record superblock : Type := mkSb {
  sb_size : Z; sb_nblocks : Z; sb_ninodes : Z; sb_nlog : Z;
  sb_logstart : Z; sb_inodestart : Z; sb_bmapstart : Z
}.
Definition decode_sb (d : bytes) : superblock :=
  mkSb (get32 d 0) (get32 d 4) (get32 d 8) (get32 d 12) (get32 d 16) (get32 d 20) (get32 d 24).


Class BlockStore (S : Type) : Type := {
  st_bread : Z -> Z -> kernel S nat;
  st_log_write : nat -> kernel S unit;
  st_brelse : nat -> kernel S unit;
  st_data : nat -> S -> bytes;              (** bp->data *)
  st_put : nat -> bytes -> S -> S           (** assignments to bp->data *)
}.

(** begin_op, end_op and initlog *)
Class Transactions (S : Type) : Type := {
  st_begin : kernel S unit;
  st_end : kernel S unit;
  st_init : Z -> kernel S unit
}.

(** The store as its clients see it inside a transaction *)
Record store : Type := mkStore {
  so_blocks : list bytes;
  so_held : gmap nat nat;        (** buffers held, and their blocks *)
  so_logged : gset nat;          (** blocks of the transaction *)
  so_fresh : gset nat            (** blocks changed and not yet logged *)
}.
Definition so_set_held (h : gmap nat nat) (w : store) : store :=
  mkStore (so_blocks w) h (so_logged w) (so_fresh w).
Definition so_write (bn : nat) (d : bytes) (w : store) : store :=
  mkStore (<[bn := d]> (so_blocks w)) (so_held w) (so_logged w) ({[bn]} ∪ so_fresh w).
Definition so_log (bn : nat) (w : store) : store :=
  mkStore (so_blocks w) (so_held w) ({[bn]} ∪ so_logged w) (so_fresh w ∖ {[bn]}).

(** Its dimensions *)
Class BlockStoreDims (S : Type) : Type := {
  st_first : nat;                (** first block after the log *)
  st_cap : nat;                  (** most blocks of a transaction *)
  st_bufs : nat;                 (** buffers *)
  st_cap_bufs : (st_cap + 2 <= st_bufs)%nat
}.

Class BlockStoreLaws (S : Type) `{!BlockStore S, !BlockStoreDims S} : Type := {
  st_rep : S -> store -> Prop;
  st_bread_ok s w bn : st_rep s w -> bn = 1%nat \/ (st_first <= bn)%nat -> (bn < length (so_blocks w))%nat ->
    (forall b, so_held w !! b <> Some bn) ->
    bn ∈ so_logged w \/ (size (so_held w) + size (so_logged w) < st_bufs)%nat ->
    exists s' b, st_bread 1 (Z.of_nat bn) s = Done s' b /\ so_held w !! b = None /\
      st_rep s' (so_set_held (<[b := bn]> (so_held w)) w);
  st_data_ok s w b bn : st_rep s w -> so_held w !! b = Some bn -> so_blocks w !! bn = Some (st_data b s);
  st_put_ok s w b bn d : st_rep s w -> so_held w !! b = Some bn -> (st_first <= bn)%nat -> length d = Z.to_nat BSIZE ->
    st_rep (st_put b d s) (so_write bn d w);
  st_log_write_ok s w b bn : st_rep s w -> so_held w !! b = Some bn -> (st_first <= bn)%nat ->
    bn ∈ so_logged w \/ (size (so_logged w) < st_cap)%nat -> (size (so_logged w) <= st_cap)%nat ->
    exists s', st_log_write b s = Done s' tt /\ st_rep s' (so_log bn w);
  st_brelse_ok s w b bn : st_rep s w -> so_held w !! b = Some bn -> (bn ∉ so_fresh w) ->
    exists s', st_brelse b s = Done s' tt /\ st_rep s' (so_set_held (delete b (so_held w)) w)
}.
