(* ===== verification/Log.v ===== *)
(** * The write-ahead log (log.c)

    The log's code over the buffer cache: transactions (begin_op, log_write,
    end_op), commit and recovery. The disk records its completed writes, so
    a power failure during commit or recovery is a prefix of them, and the
    theorems say what the next boot's recovery makes of each such image. *)

From S2P Require Import Prelude Params Bytes Bio Store.

(** struct log, without its lock: [lh_n] and [lh_block] are log.lh *)
Record log : Type := mkLog {
  log_start : Z; log_size : Z; log_outstanding : Z; log_committing : Z; log_dev : Z;
  lh_n : Z; lh_block : list Z
}.
Definition put_outstanding (x : Z) (g : log) : log :=
  mkLog (log_start g) (log_size g) x (log_committing g) (log_dev g) (lh_n g) (lh_block g).
Definition put_committing (x : Z) (g : log) : log :=
  mkLog (log_start g) (log_size g) (log_outstanding g) x (log_dev g) (lh_n g) (lh_block g).
Definition put_lh_n (x : Z) (g : log) : log :=
  mkLog (log_start g) (log_size g) (log_outstanding g) (log_committing g) (log_dev g) x (lh_block g).
Definition put_lh_block (i : nat) (x : Z) (g : log) : log :=
  mkLog (log_start g) (log_size g) (log_outstanding g) (log_committing g) (log_dev g) (lh_n g) (<[i := x]> (lh_block g)).
Definition put_geometry (start size dev : Z) (g : log) : log :=
  mkLog start size (log_outstanding g) (log_committing g) dev (lh_n g) (lh_block g).

Record logst : Type := mkLs { ls_bc : bcache; ls_log : log }.
Definition put_bc (t : bcache) (s : logst) : logst := mkLs t (ls_log s).
Definition put_log (g : log) (s : logst) : logst := mkLs (ls_bc s) g.
Definition on_bc {A} : kernel bcache A -> kernel logst A := klift ls_bc put_bc.
Definition mod_log (f : log -> log) : kernel logst unit := kmodify (fun s => put_log (f (ls_log s)) s).
Definition data (b : nat) (s : logst) : bytes := b_data (bc_bufs (ls_bc s) !!! b).

(** Accesses outside a kernel array have no defined behaviour. *)
Definition in_array {S} (i : nat) (n : Z) : kernel S unit := if Z.of_nat i <? n then mret tt else kspin.

(** fs.c: readsb *)
Definition readsb (dev : Z) : kernel logst superblock :=
  bp ← on_bc (bread (u32 dev) 1);
  sb ← kgets (fun s => decode_sb (data bp s));
  on_bc (brelse bp);;
  mret sb.

(** The block of log slot [tail]: log.start+tail+1, passed as uint *)
Definition log_block (g : log) (tail : nat) : Z := u32 (log_start g + Z.of_nat tail + 1).

Fixpoint install_loop (k tail : nat) : kernel logst unit :=
  match k with
  | O => mret tt
  | S k' =>
      g ← kgets ls_log;
      lbuf ← on_bc (bread (u32 (log_dev g)) (log_block g tail));
      in_array tail LOGSIZE;;
      dbuf ← on_bc (bread (u32 (log_dev g)) (u32 (lh_block g !!! tail)));
      d ← kgets (data lbuf);
      on_bc (kmodify (put_data dbuf d));;
      on_bc (bwrite dbuf);;
      on_bc (brelse lbuf);;
      on_bc (brelse dbuf);;
      install_loop k' (S tail)
  end.
Definition install_trans : kernel logst unit :=
  n ← kgets (fun s => lh_n (ls_log s)); install_loop (Z.to_nat n) 0.

(** lh->block[i] in the header block *)
Definition head_off (i : nat) : nat := (4 + 4 * i)%nat.

Fixpoint read_head_loop (d : bytes) (k i : nat) : kernel logst unit :=
  match k with
  | O => mret tt
  | S k' =>
      in_array i LOGSIZE;;
      mod_log (put_lh_block i (s32 (get32 d (head_off i))));;
      read_head_loop d k' (S i)
  end.
Definition read_head : kernel logst unit :=
  g ← kgets ls_log;
  buf ← on_bc (bread (u32 (log_dev g)) (u32 (log_start g)));
  d ← kgets (data buf);
  mod_log (put_lh_n (s32 (get32 d 0)));;
  n ← kgets (fun s => lh_n (ls_log s));
  read_head_loop d (Z.to_nat n) 0;;
  on_bc (brelse buf).

Fixpoint write_head_loop (buf k i : nat) : kernel logst unit :=
  match k with
  | O => mret tt
  | S k' =>
      in_array i LOGSIZE;;
      s ← kget;
      on_bc (kmodify (put_data buf (put32 (head_off i) (lh_block (ls_log s) !!! i) (data buf s))));;
      write_head_loop buf k' (S i)
  end.
Definition write_head : kernel logst unit :=
  g ← kgets ls_log;
  buf ← on_bc (bread (u32 (log_dev g)) (u32 (log_start g)));
  d ← kgets (data buf);
  on_bc (kmodify (put_data buf (put32 0 (lh_n g) d)));;
  write_head_loop buf (Z.to_nat (lh_n g)) 0;;
  on_bc (bwrite buf);;
  on_bc (brelse buf).

Definition recover_from_log : kernel logst unit :=
  read_head;;
  install_trans;;
  mod_log (put_lh_n 0);;
  write_head.

(** sizeof(struct logheader) = 4 + 4*LOGSIZE; initlock has no state here *)
Definition initlog (dev : Z) : kernel logst unit :=
  if BSIZE <=? 4 + 4 * LOGSIZE then kpanic "initlog: too big logheader"
  else
    sb ← readsb dev;
    mod_log (put_geometry (s32 (sb_logstart sb)) (s32 (sb_nlog sb)) dev);;
    recover_from_log.

(** One pass of begin_op's loop: it sleeps on &log, or takes a reservation. *)
Definition begin_op : kernel logst unit := fun s =>
  let g := ls_log s in
  if negb (log_committing g =? 0) then Sleeping s CLog
  else if LOGSIZE <? lh_n g + (log_outstanding g + 1) * MAXOPBLOCKS then Sleeping s CLog
  else Done (put_log (put_outstanding (log_outstanding g + 1) g) s) tt.

Fixpoint write_log_loop (k tail : nat) : kernel logst unit :=
  match k with
  | O => mret tt
  | S k' =>
      g ← kgets ls_log;
      to ← on_bc (bread (u32 (log_dev g)) (log_block g tail));
      in_array tail LOGSIZE;;
      from ← on_bc (bread (u32 (log_dev g)) (u32 (lh_block g !!! tail)));
      d ← kgets (data from);
      on_bc (kmodify (put_data to d));;
      on_bc (bwrite to);;
      on_bc (brelse from);;
      on_bc (brelse to);;
      write_log_loop k' (S tail)
  end.
Definition write_log : kernel logst unit :=
  n ← kgets (fun s => lh_n (ls_log s)); write_log_loop (Z.to_nat n) 0.

Definition commit : kernel logst unit :=
  n ← kgets (fun s => lh_n (ls_log s));
  if 0 <? n then
    write_log;;
    write_head;;
    install_trans;;
    mod_log (put_lh_n 0);;
    write_head
  else mret tt.

(** end_op up to its first release of log.lock: whether to commit. The
    others run in between the two halves, with log.committing set. *)
Definition end_op_enter : kernel logst bool :=
  mod_log (fun g => put_outstanding (log_outstanding g - 1) g);;
  g ← kgets ls_log;
  if negb (log_committing g =? 0) then kpanic "log.committing"
  else if log_outstanding g =? 0 then mod_log (put_committing 1);; mret true
  else mret false.          (* wakeup(&log) *)
Definition end_op : kernel logst unit :=
  do_commit ← end_op_enter;
  if do_commit : bool then commit;; mod_log (put_committing 0) else mret tt.

(** The index at which log_write stores the block: its slot, or the end *)
Definition absorb (g : log) (blockno : Z) : nat :=
  let n := Z.to_nat (lh_n g) in
  default n (find_index (fun x => u32 x =? blockno) (take n (lh_block g))).

Definition log_write (b : nat) : kernel logst unit :=
  g ← kgets ls_log;
  if (LOGSIZE <=? lh_n g) || (log_size g - 1 <=? lh_n g) then kpanic "too big a transaction"
  else if log_outstanding g <? 1 then kpanic "log_write outside of trans"
  else
    blockno ← kgets (fun s => b_blockno (bc_bufs (ls_bc s) !!! b));
    let i := absorb g blockno in
    mod_log (put_lh_block i (s32 blockno));;
    (if Z.of_nat i =? lh_n g then mod_log (put_lh_n (lh_n g + 1)) else mret tt);;
    on_bc (kmodify (pin b)).

(** ** Steps *)
Lemma on_bc_Done {A} (m : kernel bcache A) s t a : m (ls_bc s) = Done t a -> on_bc m s = Done (put_bc t s) a.
Proof. intros H. unfold on_bc, klift. by rewrite H. Qed.
Lemma on_bc_kmodify f s : on_bc (kmodify f) s = Done (put_bc (f (ls_bc s)) s) tt.
Proof. done. Qed.
Lemma bind_bc {A B} (m : kernel bcache A) (k : A -> kernel logst B) t g t' a :
  m t = Done t' a -> (x ← on_bc m; k x) (mkLs t g) = k a (mkLs t' g).
Proof. intros H. apply bind_Done. by apply (on_bc_Done m (mkLs t g)). Qed.
Lemma bind_put {B} f (k : unit -> kernel logst B) t g :
  (x ← on_bc (kmodify f); k x) (mkLs t g) = k tt (mkLs (f t) g).
Proof. done. Qed.
Lemma bind_log {B} f (k : unit -> kernel logst B) t g :
  (x ← mod_log f; k x) (mkLs t g) = k tt (mkLs t (f g)).
Proof. done. Qed.
Lemma bind_gets {S A B} (f : S -> A) (k : A -> kernel S B) s : (x ← kgets f; k x) s = k (f s) s.
Proof. done. Qed.
Lemma bind_get {S B} (k : S -> kernel S B) s : (x ← kget; k x) s = k s s.
Proof. done. Qed.
Lemma bind_ret {S A B} (a : A) (k : A -> kernel S B) s : (x ← mret a; k x) s = k a s.
Proof. done. Qed.
Lemma in_array_Done {S} (s : S) i n : Z.of_nat i < n -> in_array i n s = Done s tt.
Proof. intros H. unfold in_array. by rewrite (proj2 (Z.ltb_lt _ _) H). Qed.

(** Copy a block through a held buffer, write it, release both. *)
Lemma copy_finish t v x y src dst d :
  cache t v -> v_held v !! x = Some dst -> v_held v !! y = Some src -> x <> y -> src <> dst ->
  v_blocks v !! src = Some d -> src ∈ v_dirty v \/ v_disk v !! src = Some d ->
  exists t1 t2 t3,
    bwrite x (put_data x d t) = Done t1 tt /\ brelse y t1 = Done t2 tt /\ brelse x t2 = Done t3 tt /\
    cache t3 (mkView (<[dst := d]> (v_blocks v)) (<[dst := d]> (v_disk v)) (delete x (delete y (v_held v)))
                     (v_dirty v ∖ {[dst]}) (v_writes v ++ [(dst, d)])).
Proof.
  intros H Hx Hy Hxy Hsd Hd Hc.
  pose proof (put_data_spec t v x dst d H Hx) as H1.
  assert (dst < length (v_blocks v))%nat as Hlt.
  { pose proof (data_spec _ _ _ _ H Hx) as E. by apply lookup_lt_Some in E. }
  destruct (bwrite_spec _ _ x dst d H1) as (t1 & E1 & H2); [done|cbn; by rewrite list_lookup_insert_eq|].
  destruct (brelse_spec _ _ y src H2) as (t2 & E2 & H3); [done| |].
  { cbn. destruct Hc as [Hc|Hc]; [left; set_solver|right].
    rewrite !list_lookup_insert_ne by done. congruence. }
  destruct (brelse_spec _ _ x dst H3) as (t3 & E3 & H4).
  { cbn. by rewrite lookup_delete_ne. }
  { right. cbn. rewrite (c_len _ _ H) in Hlt. rewrite !list_lookup_insert_eq; [done|done|]. by rewrite (c_len _ _ H). }
  exists t1, t2, t3. done.
Qed.

Lemma two_held t v a c :
  cache t v -> v_held v = ∅ -> (a < length (v_blocks v))%nat -> (c < length (v_blocks v))%nat -> a <> c ->
  (size (v_dirty v) < NBUF)%nat -> c ∈ v_dirty v \/ (1 + size (v_dirty v) < NBUF)%nat ->
  exists t1 ha t2 hc,
    bread 1 (Z.of_nat a) t = Done t1 ha /\ bread 1 (Z.of_nat c) t1 = Done t2 hc /\ ha <> hc /\
    cache t2 (upd_held (<[hc := c]> {[ha := a]}) v).
Proof.
  intros H Hh Ha Hc Hac Hr1 Hr2.
  destruct (bread_spec t v a H Ha) as (t1 & ha & E1 & Hn1 & H1).
  { intros b. by rewrite Hh, lookup_empty. }
  { right. by rewrite Hh, map_size_empty. }
  rewrite Hh in H1. change (<[ha := a]> ∅) with ({[ha := a]} : gmap nat nat) in H1.
  destruct (bread_spec t1 _ c H1) as (t2 & hc & E2 & Hn2 & H2).
  { done. }
  { intros b. cbn. rewrite lookup_singleton_Some. naive_solver. }
  { cbn. rewrite map_size_singleton. done. }
  exists t1, ha, t2, hc. split_and!; [done|done| |exact H2].
  intros ->. cbn in Hn2. by rewrite lookup_singleton_eq in Hn2.
Qed.

Lemma held_delete2 (x y a c : nat) : x <> y ->
  delete x (delete y (<[x := a]> {[y := c]} : gmap nat nat)) = ∅ /\
  delete x (delete y (<[y := a]> {[x := c]} : gmap nat nat)) = ∅.
Proof.
  intros Hxy. split; apply map_eq; intros i; rewrite lookup_empty, !lookup_delete_None;
    destruct (decide (i = x)) as [->|]; [tauto| |tauto|]; destruct (decide (i = y)) as [->|]; [tauto| |tauto|];
    right; right; rewrite lookup_insert_ne, lookup_singleton_ne; done.
Qed.

(** ** The loops of commit and recovery as lists of writes *)
Fixpoint put_blocks (ws : list (nat * bytes)) (d : list bytes) : list bytes :=
  match ws with
  | [] => d
  | (p, x) :: ws' => put_blocks ws' (<[p := x]> d)
  end.

Fixpoint log_writes (start : nat) (blocks : list bytes) (tail : nat) (l : list nat) : list (nat * bytes) :=
  match l with
  | [] => []
  | b :: l' => ((start + 1 + tail)%nat, blocks !!! b) :: log_writes start blocks (S tail) l'
  end.
Fixpoint home_writes (start : nat) (blocks : list bytes) (tail : nat) (l : list nat) : list (nat * bytes) :=
  match l with
  | [] => []
  | b :: l' => (b, blocks !!! (start + 1 + tail)%nat) :: home_writes start blocks (S tail) l'
  end.

Lemma length_put_blocks ws d : length (put_blocks ws d) = length d.
Proof. revert d. induction ws as [|[p x] ws IH]; intros d; [done|]. cbn. by rewrite IH, length_insert. Qed.
Lemma put_blocks_app w1 w2 d : put_blocks (w1 ++ w2) d = put_blocks w2 (put_blocks w1 d).
Proof. revert d. induction w1 as [|[p x] w1 IH]; intros d; [done|]. apply IH. Qed.
Lemma put_blocks_ne ws d p : (p ∉ ws.*1) -> put_blocks ws d !! p = d !! p.
Proof.
  revert d. induction ws as [|[q x] ws IH]; intros d Hp; [done|].
  cbn in *. rewrite not_elem_of_cons in Hp. rewrite IH by tauto. apply list_lookup_insert_ne. intros ->. tauto.
Qed.
Lemma put_blocks_in ws d p x : NoDup ws.*1 -> (p, x) ∈ ws -> (p < length d)%nat -> put_blocks ws d !! p = Some x.
Proof.
  revert d. induction ws as [|[q y] ws IH]; intros d Hnd Hin Hp; [by apply not_elem_of_nil in Hin|].
  cbn in *. apply NoDup_cons in Hnd as [Hq Hnd]. apply elem_of_cons in Hin as [[= <- <-]|Hin].
  - rewrite put_blocks_ne by done. by apply list_lookup_insert_eq.
  - apply IH; [done|done|]. by rewrite length_insert.
Qed.

Lemma put_blocks_agree ws d d' p : length d = length d' -> ((p ∉ ws.*1) -> d !! p = d' !! p) ->
  put_blocks ws d !! p = put_blocks ws d' !! p.
Proof.
  revert d d'. induction ws as [|[q x] ws IH]; intros d d' Hl Hp; cbn in *; [apply Hp, not_elem_of_nil|].
  apply IH; [by rewrite !length_insert|]. intros Hnin. destruct (decide (p = q)) as [->|Hpq].
  - destruct (decide (q < length d)%nat) as [Hlt|Hlt].
    + rewrite !list_lookup_insert_eq; [done|by rewrite <- Hl|done].
    + rewrite !(list_insert_ge _ _ x) by lia. rewrite !lookup_ge_None_2; [done|lia|lia].
  - rewrite !list_lookup_insert_ne by done. apply Hp. rewrite not_elem_of_cons. tauto.
Qed.

Lemma log_writes_ext start d d' tail l : (forall b, b ∈ l -> d' !!! b = d !!! b) ->
  log_writes start d' tail l = log_writes start d tail l.
Proof.
  revert tail. induction l as [|b l IH]; intros tail H; [done|]. cbn. rewrite H by left. f_equal.
  apply IH. intros c Hc. apply H. by right.
Qed.
Lemma home_writes_ext start d d' tail l :
  (forall i, (tail <= i < tail + length l)%nat -> d' !!! (start + 1 + i)%nat = d !!! (start + 1 + i)%nat) ->
  home_writes start d' tail l = home_writes start d tail l.
Proof.
  revert tail. induction l as [|b l IH]; intros tail H; [done|]. cbn in *. rewrite H by lia. f_equal.
  apply IH. intros i Hi. apply H. lia.
Qed.
Lemma fst_log_writes start d tail l : (log_writes start d tail l).*1 = seq (start + 1 + tail) (length l).
Proof.
  revert tail. induction l as [|b l IH]; intros tail; [done|]. cbn. f_equal. rewrite IH. f_equal. lia.
Qed.
Lemma fst_home_writes start d tail l : (home_writes start d tail l).*1 = l.
Proof. revert tail. induction l as [|b l IH]; intros tail; [done|]. cbn. by rewrite IH. Qed.
Lemma elem_log_writes start d tail l i b : l !! i = Some b ->
  ((start + 1 + (tail + i))%nat, d !!! b) ∈ log_writes start d tail l.
Proof.
  revert tail i. induction l as [|c l IH]; intros tail [|i] Hi; simplify_eq/=.
  - replace (tail + 0)%nat with tail by lia. left.
  - right. replace (tail + S i)%nat with (S tail + i)%nat by lia. by apply IH.
Qed.
Lemma elem_home_writes start d tail l i b : l !! i = Some b ->
  (b, d !!! (start + 1 + (tail + i))%nat) ∈ home_writes start d tail l.
Proof.
  revert tail i. induction l as [|c l IH]; intros tail [|i] Hi; simplify_eq/=.
  - replace (tail + 0)%nat with tail by lia. left.
  - right. replace (tail + S i)%nat with (S tail + i)%nat by lia. by apply IH.
Qed.

(** The log's place on the disk, and the header's list of home blocks. *)
Record placed (g : log) (start size len : nat) : Prop := mkPlaced {
  pl_dev : log_dev g = 1;
  pl_start : log_start g = Z.of_nat start;
  pl_size : log_size g = Z.of_nat size;
  pl_blocks : length (lh_block g) = Z.to_nat LOGSIZE;
  pl_fits : (start + size <= len)%nat;
  pl_len : Z.of_nat len < 2 ^ 31
}.
Definition listed (g : log) (l : list nat) : Prop :=
  lh_n g = Z.of_nat (length l) /\ forall i b, l !! i = Some b -> lh_block g !! i = Some (Z.of_nat b).
Record homes (l : list nat) (start size len : nat) : Prop := mkHomes {
  hm_nodup : NoDup l;
  hm_len : (length l < size)%nat;
  hm_max : (length l <= Z.to_nat LOGSIZE)%nat;
  hm_room : (length l < NBUF)%nat;
  hm_out : forall b, b ∈ l -> (b < len)%nat /\ ((b < start)%nat \/ (start + size <= b)%nat)
}.

Lemma u32_nat (n : nat) : Z.of_nat n < 2 ^ 31 -> u32 (Z.of_nat n) = Z.of_nat n.
Proof. intros H. apply u32_small. lia. Qed.

Lemma log_block_eq g start size len tail : placed g start size len -> (tail + 1 < size)%nat ->
  log_block g tail = Z.of_nat (start + 1 + tail).
Proof.
  intros [_ H1 _ _ H2 H3] Ht. unfold log_block. rewrite H1, u32_small by lia. lia.
Qed.

Section loops.
Context (start nlog : nat).

Lemma write_log_loop_spec l1 l2 s v :
  cache (ls_bc s) v -> v_held v = ∅ -> placed (ls_log s) start nlog (length (v_blocks v)) ->
  listed (ls_log s) (l1 ++ l2) -> homes (l1 ++ l2) start nlog (length (v_blocks v)) ->
  (forall b, b ∈ l2 -> b ∈ v_dirty v) -> (size (v_dirty v) < NBUF)%nat ->
  (forall b, b ∈ v_dirty v -> (b < start)%nat \/ (start + nlog <= b)%nat) ->
  let W := log_writes start (v_blocks v) (length l1) l2 in
  exists s', write_log_loop (length l2) (length l1) s = Done s' tt /\ ls_log s' = ls_log s /\
    cache (ls_bc s') (mkView (put_blocks W (v_blocks v)) (put_blocks W (v_disk v)) ∅ (v_dirty v) (v_writes v ++ W)).
Proof using Type.
  revert l1 s v. induction l2 as [|b l2 IH]; intros l1 s v H Hh Hp Hl Hm Hd Hr Hnd W.
  { exists s. split_and!; [done|done|]. subst W. cbn. rewrite app_nil_r. rewrite <- Hh. by destruct v. }
  assert ((l1 ++ b :: l2) !! length l1 = Some b) as Hlk by (by rewrite list_lookup_middle).
  destruct (hm_out _ _ _ _ Hm b) as [Hbl Hbo]; [set_solver|].
  pose proof (hm_len _ _ _ _ Hm) as Hlen. rewrite length_app in Hlen. cbn in Hlen.
  pose proof (hm_max _ _ _ _ Hm) as Hmax. rewrite length_app in Hmax. cbn in Hmax.
  destruct (two_held _ v (start + 1 + length l1) b H Hh) as (t1 & to & t2 & from & E1 & E2 & Hne & H2).
  { pose proof (pl_fits _ _ _ _ Hp). lia. } { done. } { lia. } { done. } { left. apply Hd. left. }
  destruct (copy_finish t2 _ to from b (start + 1 + length l1) (v_blocks v !!! b) H2)
    as (t3 & t4 & t5 & E3 & E4 & E5 & H5); cbn [v_held v_blocks v_dirty v_disk upd_held].
  { rewrite lookup_insert_ne, lookup_singleton_eq; done. } { by rewrite lookup_insert_eq. }
  { done. } { lia. } { by apply list_lookup_lookup_total_lt. } { left. apply Hd. left. }
  assert (data from (mkLs t2 (ls_log s)) = v_blocks v !!! b) as Hdat.
  { symmetry. apply list_lookup_total_correct.
    apply (data_spec _ _ from b H2). cbn. by rewrite lookup_insert_eq. }
  destruct s as [t0 g]. cbn [ls_bc ls_log] in *. cbn [length write_log_loop].
  rewrite bind_gets. cbn [ls_log]. rewrite (pl_dev _ _ _ _ Hp), (log_block_eq _ _ _ _ _ Hp) by lia.
  change (u32 1) with 1. rewrite (bind_bc _ _ _ _ _ _ E1).
  rewrite (bind_Done _ _ _ _ _ (in_array_Done _ _ _ (ltac:(lia) : Z.of_nat (length l1) < LOGSIZE))).
  rewrite (list_lookup_total_correct _ _ _ (proj2 Hl _ _ Hlk)), u32_nat by (pose proof (pl_len _ _ _ _ Hp); lia).
  rewrite (bind_bc _ _ _ _ _ _ E2), bind_gets, Hdat, bind_put.
  rewrite (bind_bc _ _ _ _ _ _ E3), (bind_bc _ _ _ _ _ _ E4), (bind_bc _ _ _ _ _ _ E5).
  cbn [v_held v_blocks v_dirty v_disk v_writes upd_held] in H5. rewrite (proj2 (held_delete2 to from b (start + 1 + length l1) Hne)) in H5.
  assert ((start + 1 + length l1)%nat ∉ v_dirty v) as Hnl by (intros Hi; apply Hnd in Hi; lia).
  rewrite difference_disjoint_L in H5 by set_solver.
  destruct (IH (l1 ++ [b]) (mkLs t5 g) _ H5) as (s' & E & Hlog & Hc); cbn [v_held v_blocks v_dirty v_disk v_writes ls_log] in *;
    rewrite ?length_insert, <- ?app_assoc; try done.
  { intros c Hc. apply Hd. by right. }
  exists s'. assert (length (l1 ++ [b]) = S (length l1)) as El by (rewrite length_app; simpl; lia).
  rewrite El in E, Hc. split_and!; [done|done|].
  rewrite <- app_assoc in Hc. subst W. cbn [log_writes put_blocks].
  erewrite log_writes_ext in Hc; [exact Hc|].
  intros c Hin. apply list_lookup_total_insert_ne. destruct (hm_out _ _ _ _ Hm c) as [_ ?]; [set_solver|lia].
Qed.

Lemma install_loop_spec l1 l2 s v :
  cache (ls_bc s) v -> v_held v = ∅ -> placed (ls_log s) start nlog (length (v_blocks v)) ->
  listed (ls_log s) (l1 ++ l2) -> homes (l1 ++ l2) start nlog (length (v_blocks v)) ->
  (forall b, b ∈ l2 -> b ∈ v_dirty v) \/ v_dirty v = ∅ -> (size (v_dirty v) < NBUF)%nat ->
  (forall b, b ∈ v_dirty v -> (b < start)%nat \/ (start + nlog <= b)%nat) ->
  let W := home_writes start (v_blocks v) (length l1) l2 in
  exists s', install_loop (length l2) (length l1) s = Done s' tt /\ ls_log s' = ls_log s /\
    cache (ls_bc s') (mkView (put_blocks W (v_blocks v)) (put_blocks W (v_disk v)) ∅
                             (v_dirty v ∖ list_to_set l2) (v_writes v ++ W)).
Proof using Type.
  revert l1 s v. induction l2 as [|b l2 IH]; intros l1 s v H Hh Hp Hl Hm Hd Hr Hnd W.
  { exists s. split_and!; [done|done|]. subst W. cbn. rewrite app_nil_r, difference_empty_L, <- Hh. by destruct v. }
  assert ((l1 ++ b :: l2) !! length l1 = Some b) as Hlk by (by rewrite list_lookup_middle).
  destruct (hm_out _ _ _ _ Hm b) as [Hbl Hbo]; [set_solver|].
  pose proof (hm_len _ _ _ _ Hm) as Hlen. rewrite length_app in Hlen. cbn in Hlen.
  pose proof (hm_max _ _ _ _ Hm) as Hmax. rewrite length_app in Hmax. cbn in Hmax.
  pose proof (pl_fits _ _ _ _ Hp) as Hfit. set (lb := (start + 1 + length l1)%nat) in *.
  assert (lb ∉ v_dirty v) as Hnl by (intros Hi; apply Hnd in Hi; subst lb; lia).
  assert (lb < length (v_blocks v))%nat as Hlb by (subst lb; lia).
  destruct (two_held _ v lb b H Hh) as (t1 & lbuf & t2 & dbuf & E1 & E2 & Hne & H2).
  { done. } { done. } { subst lb; lia. } { done. }
  { destruct Hd as [Hd|Hd]; [left; apply Hd; left|right]. rewrite Hd, size_empty. unfold NBUF. lia. }
  destruct (copy_finish t2 _ dbuf lbuf lb b (v_blocks v !!! lb) H2)
    as (t3 & t4 & t5 & E3 & E4 & E5 & H5); cbn [v_held v_blocks v_dirty v_disk upd_held].
  { by rewrite lookup_insert_eq. } { rewrite lookup_insert_ne, lookup_singleton_eq; done. }
  { done. } { subst lb; lia. } { by apply list_lookup_lookup_total_lt. }
  { right. rewrite <- (c_clean _ _ H); [by apply list_lookup_lookup_total_lt|done|].
    intros c. by rewrite Hh, lookup_empty. }
  assert (data lbuf (mkLs t2 (ls_log s)) = v_blocks v !!! lb) as Hdat.
  { symmetry. apply list_lookup_total_correct.
    apply (data_spec _ _ lbuf lb H2). cbn. rewrite lookup_insert_ne, lookup_singleton_eq; done. }
  destruct s as [t0 g]. cbn [ls_bc ls_log] in *. cbn [length install_loop].
  rewrite bind_gets. cbn [ls_log]. rewrite (pl_dev _ _ _ _ Hp), (log_block_eq _ _ _ _ _ Hp) by lia.
  fold lb. change (u32 1) with 1. rewrite (bind_bc _ _ _ _ _ _ E1).
  rewrite (bind_Done _ _ _ _ _ (in_array_Done _ _ _ (ltac:(lia) : Z.of_nat (length l1) < LOGSIZE))).
  rewrite (list_lookup_total_correct _ _ _ (proj2 Hl _ _ Hlk)), u32_nat by (pose proof (pl_len _ _ _ _ Hp); lia).
  rewrite (bind_bc _ _ _ _ _ _ E2), bind_gets, Hdat, bind_put.
  rewrite (bind_bc _ _ _ _ _ _ E3), (bind_bc _ _ _ _ _ _ E4), (bind_bc _ _ _ _ _ _ E5).
  cbn [v_held v_blocks v_dirty v_disk v_writes upd_held] in H5.
  rewrite (proj1 (held_delete2 dbuf lbuf b lb (not_eq_sym Hne))) in H5.
  assert (NoDup (b :: l2)) as Hbl2 by (apply hm_nodup, NoDup_app in Hm; tauto). apply NoDup_cons in Hbl2 as [Hb2 _].
  destruct (IH (l1 ++ [b]) (mkLs t5 g) _ H5) as (s' & E & Hlog & Hc); cbn [v_held v_blocks v_dirty v_disk v_writes ls_log] in *;
    rewrite ?length_insert, <- ?app_assoc; try done.
  { destruct Hd as [Hd|Hd]; [left|right; set_solver]. intros c Hc. apply elem_of_difference.
    split; [apply Hd; by right|]. set_solver. }
  { eapply Nat.le_lt_trans; [apply subseteq_size|exact Hr]. set_solver. }
  { intros c Hc. apply Hnd. set_solver. }
  exists s'. assert (length (l1 ++ [b]) = S (length l1)) as El by (rewrite length_app; simpl; lia).
  rewrite El in E, Hc. split_and!; [done|done|].
  rewrite <- app_assoc in Hc. subst W. cbn [home_writes put_blocks list_to_set list_to_set_cons]. fold lb.
  erewrite home_writes_ext in Hc.
  - replace (v_dirty v ∖ ({[b]} ∪ list_to_set l2)) with (v_dirty v ∖ {[b]} ∖ list_to_set l2) by set_solver. exact Hc.
  - intros i Hi. apply list_lookup_total_insert_ne. lia.
Qed.

(** The header block that lists [l] *)
Definition header (d : bytes) (l : list nat) : Prop :=
  length d = Z.to_nat BSIZE /\ get32 d 0 = Z.of_nat (length l) /\
  forall i b, l !! i = Some b -> get32 d (head_off i) = Z.of_nat b.

Fixpoint put_entries (d : bytes) (i : nat) (l : list nat) : bytes :=
  match l with
  | [] => d
  | b :: l' => put_entries (put32 (head_off i) (Z.of_nat b) d) (S i) l'
  end.
Definition head_bytes (d : bytes) (l : list nat) : bytes :=
  put_entries (put32 0 (Z.of_nat (length l)) d) 0 l.

Lemma put_entries_spec d i l : length d = Z.to_nat BSIZE -> (i + length l <= Z.to_nat LOGSIZE)%nat ->
  (forall b, b ∈ l -> Z.of_nat b < 2 ^ 31) ->
  length (put_entries d i l) = Z.to_nat BSIZE /\
  (forall o, (o + 4 <= head_off i)%nat -> get32 (put_entries d i l) o = get32 d o) /\
  (forall j b, l !! j = Some b -> get32 (put_entries d i l) (head_off (i + j)) = Z.of_nat b).
Proof using Type.
  assert (Z.to_nat BSIZE = 512%nat) as HB by done. assert (Z.to_nat LOGSIZE = 30%nat) as HL by done.
  rewrite HB, HL. clear HB HL. revert d i. induction l as [|b l IH]; intros d i Hd Hi Hb; cbn [put_entries length] in *; [done|].
  destruct (IH (put32 (head_off i) (Z.of_nat b) d) (S i)) as (I1 & I2 & I3).
  { rewrite length_put32; [done|]. unfold head_off. lia. } { lia. } { intros c Hc. apply Hb. by right. }
  split_and!; [done| |].
  - intros o Ho. rewrite I2 by (unfold head_off in *; lia). apply get32_splice_out; unfold head_off in *; cbn; lia.
  - intros [|j] c Hc; cbn in Hc.
    + injection Hc as ->. rewrite Nat.add_0_r, I2 by (unfold head_off; lia).
      rewrite get32_put32 by (unfold head_off; lia). apply u32_nat, Hb. left.
    + replace (i + S j)%nat with (S i + j)%nat by lia. by apply I3.
Qed.

Lemma head_bytes_header d l : length d = Z.to_nat BSIZE -> (length l <= Z.to_nat LOGSIZE)%nat ->
  (forall b, b ∈ l -> Z.of_nat b < 2 ^ 31) -> header (head_bytes d l) l.
Proof using Type.
  intros Hd Hl Hb. assert (Z.to_nat BSIZE = 512%nat) as HB by done.
  assert (4 <= length d)%nat as H4 by lia.
  assert (length (put32 0 (Z.of_nat (length l)) d) = Z.to_nat BSIZE) as Hd' by (by rewrite length_put32).
  destruct (put_entries_spec _ 0 l Hd') as (I1 & I2 & I3); [done|done|].
  split; [done|]. split; [|intros i b Hi; by apply I3].
  unfold head_bytes. rewrite I2 by (unfold head_off; lia). rewrite get32_put32 by done.
  apply u32_nat. assert (Z.to_nat LOGSIZE = 30%nat) as HL by done. lia.
Qed.

Lemma write_head_loop_spec buf l1 l2 s v :
  cache (ls_bc s) v -> v_held v = {[buf := start]} -> listed (ls_log s) (l1 ++ l2) ->
  (length (l1 ++ l2) <= Z.to_nat LOGSIZE)%nat -> (start < length (v_blocks v))%nat ->
  exists s', write_head_loop buf (length l2) (length l1) s = Done s' tt /\ ls_log s' = ls_log s /\
    cache (ls_bc s') (upd_blocks (<[start := put_entries (v_blocks v !!! start) (length l1) l2]> (v_blocks v)) v).
Proof using Type.
  revert l1 s v. induction l2 as [|b l2 IH]; intros l1 s v H Hh Hl Hm Hst.
  { exists s. split_and!; [done|done|]. cbn. rewrite list_insert_id by (by apply list_lookup_lookup_total_lt). by destruct v. }
  assert ((l1 ++ b :: l2) !! length l1 = Some b) as Hlk by (by rewrite list_lookup_middle).
  rewrite length_app in Hm. cbn in Hm.
  assert (v_held v !! buf = Some start) as Hbuf by (by rewrite Hh, lookup_singleton_eq).
  destruct s as [t g]. cbn [ls_bc ls_log] in *. cbn [length write_head_loop].
  rewrite (bind_Done _ _ _ _ _ (in_array_Done _ _ _ (ltac:(lia) : Z.of_nat (length l1) < LOGSIZE))), bind_get, bind_put.
  cbn [ls_log ls_bc]. rewrite (list_lookup_total_correct _ _ _ (proj2 Hl _ _ Hlk)).
  assert (data buf (mkLs t g) = v_blocks v !!! start) as ->.
  { symmetry. by apply list_lookup_total_correct, (data_spec _ _ _ _ H). }
  set (d := put32 _ _ _). pose proof (put_data_spec t v buf start d H Hbuf) as H1.
  destruct (IH (l1 ++ [b]) (mkLs (put_data buf d t) g) _ H1) as (s' & E & Hlog & Hc); cbn [v_held v_blocks upd_blocks ls_log] in *;
    rewrite ?length_insert, <- ?app_assoc; try done.
  { rewrite length_app. cbn. lia. }
  assert (length (l1 ++ [b]) = S (length l1)) as El by (rewrite length_app; simpl; lia).
  rewrite El in E, Hc. exists s'. split_and!; [done|done|].
  rewrite list_lookup_total_insert_eq, list_insert_insert_eq in Hc by done. exact Hc.
Qed.

Lemma one_held t v a : cache t v -> v_held v = ∅ -> (a < length (v_blocks v))%nat -> (size (v_dirty v) < NBUF)%nat ->
  exists t1 h, bread 1 (Z.of_nat a) t = Done t1 h /\ cache t1 (upd_held {[h := a]} v).
Proof using Type.
  intros H Hh Ha Hr. destruct (bread_spec t v a H Ha) as (t1 & h & E & _ & H1).
  { intros b. by rewrite Hh, lookup_empty. }
  { right. by rewrite Hh, map_size_empty. }
  rewrite Hh in H1. by exists t1, h.
Qed.

Lemma write_head_spec l s v :
  cache (ls_bc s) v -> v_held v = ∅ -> placed (ls_log s) start nlog (length (v_blocks v)) -> (0 < nlog)%nat ->
  listed (ls_log s) l -> (length l <= Z.to_nat LOGSIZE)%nat -> (size (v_dirty v) < NBUF)%nat -> (start ∉ v_dirty v) ->
  let h := head_bytes (v_blocks v !!! start) l in
  exists s', write_head s = Done s' tt /\ ls_log s' = ls_log s /\
    cache (ls_bc s') (mkView (<[start := h]> (v_blocks v)) (<[start := h]> (v_disk v)) ∅
                             (v_dirty v) (v_writes v ++ [(start, h)])).
Proof using Type.
  intros H Hh Hp Hn Hl Hm Hr Hnd h. pose proof (pl_fits _ _ _ _ Hp) as Hfit. pose proof (pl_len _ _ _ _ Hp) as Hlen.
  assert (start < length (v_blocks v))%nat as Hst by lia.
  destruct (one_held _ v start H Hh Hst Hr) as (t1 & buf & E1 & H1).
  destruct s as [t g]. cbn [ls_bc ls_log] in *. unfold write_head. rewrite bind_gets. cbn [ls_log].
  rewrite (pl_dev _ _ _ _ Hp), (pl_start _ _ _ _ Hp), u32_nat by lia. change (u32 1) with 1.
  rewrite (bind_bc _ _ _ _ _ _ E1), bind_gets, bind_put.
  assert (v_held (upd_held {[buf := start]} v) !! buf = Some start) as Hbuf by apply lookup_singleton_eq.
  assert (data buf (mkLs t1 g) = v_blocks v !!! start) as ->.
  { symmetry. by apply list_lookup_total_correct, (data_spec _ _ _ _ H1). }
  rewrite (proj1 Hl), Nat2Z.id.
  pose proof (put_data_spec _ _ _ _ (put32 0 (Z.of_nat (length l)) (v_blocks v !!! start)) H1 Hbuf) as H2.
  destruct (write_head_loop_spec buf [] l (mkLs _ g) _ H2) as (s2 & E2 & Hg & H3);
    cbn [v_held v_blocks upd_held upd_blocks ls_log ls_bc length app] in *; rewrite ?length_insert; try done.
  rewrite (bind_Done _ _ _ _ _ E2). rewrite list_lookup_total_insert_eq, list_insert_insert_eq in H3 by done.
  fold (head_bytes (v_blocks v !!! start) l) in H3. fold h in H3.
  destruct s2 as [t2 g2]. cbn [ls_log ls_bc] in *. subst g2.
  destruct (bwrite_spec _ _ buf start h H3) as (t3 & E3 & H4); [done|cbn; by rewrite list_lookup_insert_eq|].
  rewrite (bind_bc _ _ _ _ _ _ E3).
  destruct (brelse_spec _ _ buf start H4) as (t4 & E4 & H5); [done| |].
  { right. cbn. rewrite !list_lookup_insert_eq; [done| |done]. by rewrite <- (c_len _ _ H). }
  rewrite (on_bc_Done _ (mkLs t3 g) _ _ E4). eexists. split_and!; [reflexivity|done|].
  cbn in H5 |- *. rewrite delete_singleton_eq, difference_disjoint_L in H5 by set_solver. exact H5.
Qed.

(** Same log but for the list *)
Definition same_place (g g' : log) : Prop :=
  log_start g' = log_start g /\ log_size g' = log_size g /\ log_dev g' = log_dev g /\
  log_outstanding g' = log_outstanding g /\ log_committing g' = log_committing g /\
  length (lh_block g') = length (lh_block g).
Lemma same_place_placed g g' len : same_place g g' -> placed g start nlog len -> placed g' start nlog len.
Proof using Type. intros (? & ? & ? & ? & ? & ?) []. split; congruence. Qed.

Lemma read_head_loop_spec d l1 l2 t g :
  (forall i b, (l1 ++ l2) !! i = Some b -> get32 d (head_off i) = Z.of_nat b /\ Z.of_nat b < 2 ^ 31) ->
  (forall i b, l1 !! i = Some b -> lh_block g !! i = Some (Z.of_nat b)) ->
  (length (l1 ++ l2) <= length (lh_block g))%nat -> length (lh_block g) = Z.to_nat LOGSIZE ->
  exists g', read_head_loop d (length l2) (length l1) (mkLs t g) = Done (mkLs t g') tt /\ same_place g g' /\
    lh_n g' = lh_n g /\ forall i b, (l1 ++ l2) !! i = Some b -> lh_block g' !! i = Some (Z.of_nat b).
Proof using Type.
  revert l1 g. induction l2 as [|b l2 IH]; intros l1 g Hd H1 Hlen Hsz.
  { exists g. rewrite app_nil_r in *. done. }
  rewrite length_app in Hlen. cbn in Hlen. cbn [length read_head_loop].
  rewrite (bind_Done _ _ _ _ _ (in_array_Done _ _ _ (ltac:(lia) : Z.of_nat (length l1) < LOGSIZE))), bind_log.
  destruct (Hd (length l1) b) as [-> Hb]; [by rewrite list_lookup_middle|]. rewrite s32_small by lia.
  destruct (IH (l1 ++ [b]) (put_lh_block (length l1) (Z.of_nat b) g)) as (g' & E & Hs & Hn & Hl).
  { by rewrite <- app_assoc. }
  { intros i c Hc. cbn. destruct (decide (i = length l1)) as [->|Hi].
    - rewrite list_lookup_middle in Hc by done. injection Hc as <-. rewrite list_lookup_insert_eq; [done|lia].
    - apply lookup_lt_Some in Hc as Hlt. rewrite length_app in Hlt. cbn in Hlt.
      rewrite lookup_app_l in Hc by lia. rewrite list_lookup_insert_ne by done. by apply H1. }
  { cbn. rewrite length_insert, !length_app. cbn. lia. }
  { cbn. by rewrite length_insert. }
  assert (length (l1 ++ [b]) = S (length l1)) as El by (rewrite length_app; simpl; lia).
  rewrite El in E. rewrite <- app_assoc in Hl. exists g'. split_and!; try done.
  destruct Hs as (? & ? & ? & ? & ? & Hs). cbn in Hs. rewrite length_insert in Hs. by split_and!.
Qed.

Lemma read_head_spec l s v :
  cache (ls_bc s) v -> v_held v = ∅ -> placed (ls_log s) start nlog (length (v_blocks v)) -> (0 < nlog)%nat ->
  header (v_blocks v !!! start) l -> homes l start nlog (length (v_blocks v)) ->
  (size (v_dirty v) < NBUF)%nat -> (start ∉ v_dirty v) ->
  exists s', read_head s = Done s' tt /\ same_place (ls_log s) (ls_log s') /\ listed (ls_log s') l /\ cache (ls_bc s') v.
Proof using Type.
  intros H Hh Hp Hn (Hd1 & Hd2 & Hd3) Hm Hr Hnd.
  pose proof (pl_fits _ _ _ _ Hp) as Hfit. pose proof (pl_len _ _ _ _ Hp) as Hlen.
  pose proof (hm_max _ _ _ _ Hm) as Hmax. assert (Z.to_nat LOGSIZE = 30%nat) as HL by done.
  assert (start < length (v_blocks v))%nat as Hst by lia.
  destruct (one_held _ v start H Hh Hst Hr) as (t1 & buf & E1 & H1).
  destruct s as [t g]. cbn [ls_bc ls_log] in *. unfold read_head. rewrite bind_gets. cbn [ls_log].
  rewrite (pl_dev _ _ _ _ Hp), (pl_start _ _ _ _ Hp), u32_nat by lia. change (u32 1) with 1.
  assert (v_held (upd_held {[buf := start]} v) !! buf = Some start) as Hbuf by apply lookup_singleton_eq.
  rewrite (bind_bc _ _ _ _ _ _ E1), bind_gets.
  assert (data buf (mkLs t1 g) = v_blocks v !!! start) as ->.
  { symmetry. by apply list_lookup_total_correct, (data_spec _ _ _ _ H1). }
  rewrite bind_log, bind_gets. cbn [ls_log put_lh_n lh_n]. rewrite Hd2, s32_small, Nat2Z.id by lia.
  destruct (read_head_loop_spec (v_blocks v !!! start) [] l t1 (put_lh_n (Z.of_nat (length l)) g))
    as (g' & E2 & Hs & Hn' & Hl).
  { intros i b Hi. cbn in Hi. split; [by apply Hd3|].
    destruct (hm_out _ _ _ _ Hm b) as [? _]; [by eapply list_elem_of_lookup_2|lia]. }
  { done. }
  { cbn. rewrite (pl_blocks _ _ _ _ Hp). lia. }
  { apply Hp. }
  cbn [length] in E2. rewrite (bind_Done _ _ _ _ _ E2).
  destruct (brelse_spec _ _ buf start H1) as (t2 & E3 & H2); [done| |].
  { right. apply (c_clean _ _ H); [done|]. intros b. by rewrite Hh, lookup_empty. }
  rewrite (on_bc_Done _ (mkLs t1 g') _ _ E3). eexists. split_and!; [reflexivity|exact Hs| |].
  - split; [exact Hn'|exact Hl].
  - cbn in H2 |- *. rewrite delete_singleton_eq in H2. rewrite <- Hh in H2. destruct v. exact H2.
Qed.
End loops.

(** ** Commit and recovery *)
Definition commit_head (start : nat) (B : list bytes) (l : list nat) : bytes := head_bytes (B !!! start) l.
Definition logged_image (start : nat) (B : list bytes) (l : list nat) : list bytes :=
  <[start := commit_head start B l]> (put_blocks (log_writes start B 0 l) B).
Definition recovery_writes (start : nat) (B : list bytes) (l : list nat) : list (nat * bytes) :=
  home_writes start B 0 l ++ [(start, head_bytes (B !!! start) [])].
Definition commit_writes (start : nat) (B : list bytes) (l : list nat) : list (nat * bytes) :=
  log_writes start B 0 l ++ (start, commit_head start B l) :: recovery_writes start (logged_image start B l) l.

Section recovery.
Context (start nlog : nat).

Lemma home_not_log l len b : homes l start nlog len -> b ∈ l -> b <> start /\ forall i, (i < nlog)%nat -> b <> (start + i)%nat.
Proof using Type. intros Hm Hb. destruct (hm_out _ _ _ _ Hm b Hb) as [_ H]. pose proof (hm_len _ _ _ _ Hm). split; [lia|]. intros; lia. Qed.

Lemma start_not_home l len : homes l start nlog len -> start ∉ l.
Proof using Type. intros Hm Hin. by destruct (home_not_log _ _ _ Hm Hin). Qed.

(** The tail shared by commit and recovery: install, clear the header. *)
Lemma install_clear_spec l s v :
  cache (ls_bc s) v -> v_held v = ∅ -> placed (ls_log s) start nlog (length (v_blocks v)) ->
  listed (ls_log s) l -> homes l start nlog (length (v_blocks v)) ->
  v_dirty v = list_to_set l \/ v_dirty v = ∅ ->
  let W := recovery_writes start (v_blocks v) l in
  exists s', (install_trans;; mod_log (put_lh_n 0);; write_head) s = Done s' tt /\
    same_place (ls_log s) (ls_log s') /\ listed (ls_log s') [] /\
    cache (ls_bc s') (mkView (put_blocks W (v_blocks v)) (put_blocks W (v_disk v)) ∅ ∅ (v_writes v ++ W)).
Proof using Type.
  intros H Hh Hp Hl Hm Hd W.
  assert (size (v_dirty v) < NBUF)%nat as Hr.
  { destruct Hd as [->| ->]; [|rewrite size_empty; unfold NBUF; lia].
    rewrite size_list_to_set by apply Hm. apply Hm. }
  destruct (install_loop_spec start nlog [] l s v H Hh Hp Hl Hm) as (s1 & E1 & Hg1 & H1).
  { destruct Hd as [->| ->]; [left; intros b; by rewrite elem_of_list_to_set|by right]. }
  { done. }
  { intros b Hb. destruct Hd as [Hd|Hd]; rewrite Hd in Hb; [|set_solver].
    apply elem_of_list_to_set in Hb. by apply (hm_out _ _ _ _ Hm). }
  assert (v_dirty v ∖ list_to_set l = ∅) as Hd0 by (destruct Hd as [->| ->]; set_solver).
  rewrite Hd0 in H1. cbn [length] in E1, H1.
  unfold install_trans. rewrite bind_assoc, bind_gets. rewrite (proj1 Hl), Nat2Z.id.
  rewrite (bind_Done _ _ _ _ _ E1). destruct s1 as [t1 g1]. cbn [ls_log ls_bc] in *. rewrite Hg1, bind_log. subst g1.
  destruct (write_head_spec start nlog [] (mkLs t1 (put_lh_n 0 (ls_log s))) _ H1) as (s2 & E2 & Hg2 & H2);
    cbn [v_held v_blocks v_dirty v_disk v_writes ls_log]; rewrite ?length_put_blocks.
  { done. } { destruct Hp. by split. } { pose proof (hm_len _ _ _ _ Hm). lia. } { by split. }
  { cbn. lia. } { rewrite size_empty. unfold NBUF. lia. } { set_solver. }
  exists s2. split_and!; [done|by rewrite Hg2|by rewrite Hg2; split|].
  cbn [v_held v_blocks v_dirty v_disk v_writes] in H2.
  assert (put_blocks (home_writes start (v_blocks v) 0 l) (v_blocks v) !!! start = v_blocks v !!! start) as Hst.
  { rewrite !list_lookup_total_alt, put_blocks_ne; [done|]. rewrite fst_home_writes. by eapply start_not_home. }
  rewrite Hst in H2. subst W. unfold recovery_writes. rewrite !put_blocks_app. cbn [put_blocks].
  by rewrite app_assoc.
Qed.

Lemma commit_spec l s v :
  cache (ls_bc s) v -> v_held v = ∅ -> placed (ls_log s) start nlog (length (v_blocks v)) ->
  listed (ls_log s) l -> homes l start nlog (length (v_blocks v)) -> v_dirty v = list_to_set l -> l <> [] ->
  let W := commit_writes start (v_blocks v) l in
  exists s', commit s = Done s' tt /\ same_place (ls_log s) (ls_log s') /\ listed (ls_log s') [] /\
    cache (ls_bc s') (mkView (put_blocks W (v_blocks v)) (put_blocks W (v_disk v)) ∅ ∅ (v_writes v ++ W)).
Proof using Type.
  intros H Hh Hp Hl Hm Hd Hne W.
  assert (size (v_dirty v) < NBUF)%nat as Hr by (rewrite Hd, size_list_to_set by apply Hm; apply Hm).
  assert (forall b, b ∈ v_dirty v -> b ∈ l) as Hdl by (intros b; by rewrite Hd, elem_of_list_to_set).
  destruct (write_log_loop_spec start nlog [] l s v H Hh Hp Hl Hm) as (s1 & E1 & Hg1 & H1).
  { intros b. by rewrite Hd, elem_of_list_to_set. } { done. } { intros b Hb. by apply (hm_out _ _ _ _ Hm), Hdl. }
  unfold commit. rewrite bind_gets, (proj1 Hl).
  rewrite (proj2 (Z.ltb_lt _ _)) by (destruct l; [done|cbn; lia]).
  unfold write_log. rewrite bind_assoc, bind_gets, (proj1 Hl), Nat2Z.id. cbn [length] in E1. rewrite (bind_Done _ _ _ _ _ E1).
  assert (start ∉ v_dirty v) as Hsd by (intros Hi; by apply Hdl, (home_not_log _ _ _ Hm) in Hi as [? _]).
  destruct (write_head_spec start nlog l s1 _ H1) as (s2 & E2 & Hg2 & H2);
    cbn [v_held v_blocks v_dirty v_disk v_writes]; rewrite ?length_put_blocks, ?Hg1; try done.
  { pose proof (hm_len _ _ _ _ Hm). lia. } { apply Hm. }
  rewrite (bind_Done _ _ _ _ _ E2). cbn [v_held v_blocks v_dirty v_disk v_writes] in H2.
  assert (put_blocks (log_writes start (v_blocks v) 0 l) (v_blocks v) !!! start = v_blocks v !!! start) as Hst.
  { rewrite !list_lookup_total_alt, put_blocks_ne; [done|]. rewrite fst_log_writes, elem_of_seq. lia. }
  cbn [length] in H2. rewrite Hst in H2.
  destruct (install_clear_spec l s2 _ H2) as (s3 & E3 & Hg3 & Hl3 & H3);
    cbn [v_held v_blocks v_dirty v_disk v_writes]; rewrite ?length_insert, ?length_put_blocks, ?Hg2, ?Hg1; try done.
  { by left. }
  exists s3. rewrite Hg2, Hg1 in Hg3. split_and!; [done|done|done|].
  cbn [v_held v_blocks v_dirty v_disk v_writes] in H3. subst W. unfold commit_writes.
  rewrite !put_blocks_app. cbn [put_blocks]. rewrite <- !app_assoc in H3. exact H3.
Qed.

Lemma recover_spec l s v :
  cache (ls_bc s) v -> v_held v = ∅ -> v_dirty v = ∅ -> placed (ls_log s) start nlog (length (v_blocks v)) ->
  header (v_blocks v !!! start) l -> homes l start nlog (length (v_blocks v)) ->
  let W := recovery_writes start (v_blocks v) l in
  exists s', recover_from_log s = Done s' tt /\ same_place (ls_log s) (ls_log s') /\ listed (ls_log s') [] /\
    cache (ls_bc s') (mkView (put_blocks W (v_blocks v)) (put_blocks W (v_disk v)) ∅ ∅ (v_writes v ++ W)).
Proof using Type.
  intros H Hh Hd Hp Hhd Hm W. pose proof (hm_len _ _ _ _ Hm).
  destruct (read_head_spec start nlog l s v H Hh Hp) as (s1 & E1 & Hs1 & Hl1 & H1);
    [lia|done|done|rewrite Hd, size_empty; unfold NBUF; lia|rewrite Hd; set_solver|].
  unfold recover_from_log. rewrite (bind_Done _ _ _ _ _ E1).
  destruct (install_clear_spec l s1 v H1) as (s2 & E2 & Hs2 & Hl2 & H2); try done.
  { by eapply same_place_placed. } { by right. }
  exists s2. split_and!; try done.
  destruct Hs1 as (? & ? & ? & ? & ? & ?), Hs2 as (? & ? & ? & ? & ? & ?). split_and!; congruence.
Qed.

(** *** Power failures *)
Definition data_eq (d d' : list bytes) : Prop :=
  forall bn, (bn < start)%nat \/ (start + nlog <= bn)%nat -> d !! bn = d' !! bn.
Definition recovered (d : list bytes) (l : list nat) : list bytes := put_blocks (recovery_writes start d l) d.

(** A disk image on which recovery works: its header lists [l]. *)
Record image (d : list bytes) (l : list nat) : Prop := mkImage {
  im_head : header (d !!! start) l;
  im_homes : homes l start nlog (length d);
  im_fits : (start + nlog <= length d)%nat
}.

Lemma put_blocks_total_ne ws d p : (p ∉ ws.*1) -> put_blocks ws d !!! p = d !!! p.
Proof using Type. intros H. by rewrite !list_lookup_total_alt, put_blocks_ne. Qed.

Lemma recovered_home d l i b : image d l -> l !! i = Some b -> recovered d l !! b = d !! (start + 1 + i)%nat.
Proof using Type.
  intros [Hh Hm Hf] Hi. assert (b ∈ l) as Hb by (by eapply list_elem_of_lookup_2).
  destruct (home_not_log _ _ _ Hm Hb) as [Hs _]. apply lookup_lt_Some in Hi as Hlt.
  pose proof (hm_len _ _ _ _ Hm). unfold recovered, recovery_writes. rewrite put_blocks_app. cbn [put_blocks].
  rewrite list_lookup_insert_ne by done.
  rewrite (put_blocks_in _ _ b (d !!! (start + 1 + i)%nat)).
  - symmetry. apply list_lookup_lookup_total_lt. lia.
  - rewrite fst_home_writes. apply Hm.
  - by apply (elem_home_writes start d 0 l i).
  - by apply (hm_out _ _ _ _ Hm).
Qed.
Lemma recovered_other d l bn : (bn ∉ l) -> bn <> start -> recovered d l !! bn = d !! bn.
Proof using Type.
  intros Hb Hs. unfold recovered. apply put_blocks_ne. unfold recovery_writes.
  rewrite fmap_app, fst_home_writes. cbn. rewrite elem_of_app, list_elem_of_singleton. tauto.
Qed.

Lemma homes_nil len : (0 < nlog)%nat -> homes [] start nlog len.
Proof using Type. intros H. split; [constructor|done|cbn; lia|unfold NBUF; cbn; lia|]. intros b Hb. by destruct (not_elem_of_nil _ Hb). Qed.

(** A failure while installing: the header still lists the blocks and the log
    still holds them, so recovering once more gives the same data. *)
Lemma recovery_prefix d l k : image d l ->
  let d' := put_blocks (take k (recovery_writes start d l)) d in
  exists l', image d' l' /\ data_eq (recovered d' l') (recovered d l).
Proof using Type.
  intros [Hh Hm Hf] d'. pose proof (hm_len _ _ _ _ Hm) as Hlen.
  assert (length (home_writes start d 0 l) = length l) as Hlw.
  { by rewrite <- (length_fmap fst), fst_home_writes. }
  assert (length d' = length d) as Hld by apply length_put_blocks.
  destruct (decide (k <= length l)%nat) as [Hk|Hk].
  - exists l. assert (d' = put_blocks (take k (home_writes start d 0 l)) d) as Hd'.
    { subst d'. unfold recovery_writes. by rewrite take_app_le by lia. }
    assert (forall p, (p ∉ l) -> d' !! p = d !! p) as Hout.
    { intros p Hp. rewrite Hd'. apply put_blocks_ne. rewrite fmap_take, fst_home_writes.
      intros Hin. apply Hp. apply list_elem_of_lookup_1 in Hin as [i Hi].
      apply lookup_take_Some in Hi as [Hi _]. by eapply list_elem_of_lookup_2. }
    assert (image d' l) as Him.
    { split; [|by rewrite Hld|by rewrite Hld]. rewrite list_lookup_total_alt, Hout, <- list_lookup_total_alt; [done|].
      by eapply start_not_home. }
    split; [done|]. intros bn Hbn. destruct (decide (bn ∈ l)) as [Hin|Hin].
    + apply list_elem_of_lookup_1 in Hin as [i Hi]. rewrite !(recovered_home _ l i bn) by done. apply Hout.
      intros Hin. destruct (home_not_log _ _ _ Hm Hin) as [_ Hl2]. apply lookup_lt_Some in Hi.
      apply (Hl2 (S i)); lia.
    + rewrite !recovered_other by (done || lia). by apply Hout.
  - exists []. assert (d' = recovered d l) as Hd'.
    { subst d'. unfold recovered. f_equal. apply take_ge. unfold recovery_writes. rewrite length_app. cbn. lia. }
    split.
    + split; [|rewrite Hld; apply homes_nil; lia|by rewrite Hld].
      rewrite Hd'. unfold recovered, recovery_writes. rewrite put_blocks_app. cbn [put_blocks].
      rewrite list_lookup_total_insert_eq by (rewrite length_put_blocks; lia).
      apply head_bytes_header; [apply Hh|cbn; lia|intros b Hb; by destruct (not_elem_of_nil _ Hb)].
    + intros bn Hbn. rewrite recovered_other; [by rewrite Hd'|apply not_elem_of_nil|lia].
Qed.

(** The images commit leaves: the data before it, or all of it. *)
Lemma commit_prefix B D l k :
  homes l start nlog (length B) -> (start + nlog <= length B)%nat -> length B = length D ->
  Z.of_nat (length B) < 2 ^ 31 -> length (B !!! start) = Z.to_nat BSIZE ->
  (forall bn, (bn ∉ l) -> B !! bn = D !! bn) -> header (D !!! start) [] ->
  let d := put_blocks (take k (commit_writes start B l)) D in
  exists l', image d l' /\ (data_eq (recovered d l') D \/ data_eq (recovered d l') B).
Proof using Type.
  intros Hm Hf HBD Hsz Hhl Hout Hh0 d. pose proof (hm_len _ _ _ _ Hm) as Hlen.
  assert (length (log_writes start B 0 l) = length l) as Hlw.
  { by rewrite <- (length_fmap fst), fst_log_writes, length_seq. }
  assert (length d = length D) as Hld by apply length_put_blocks.
  destruct (decide (k <= length l)%nat) as [Hk|Hk].
  - exists []. assert (forall p, (p <= start)%nat \/ (start + nlog <= p)%nat -> d !! p = D !! p) as Hd.
    { intros p Hp. subst d. unfold commit_writes. rewrite take_app_le by lia. apply put_blocks_ne.
      rewrite fmap_take, fst_log_writes. intros Hin. apply list_elem_of_lookup_1 in Hin as [i Hi].
      apply lookup_take_Some in Hi as [Hi _]. apply lookup_seq in Hi. lia. }
    split; [split|left].
    + rewrite list_lookup_total_alt, Hd, <- list_lookup_total_alt by lia. done.
    + apply homes_nil. lia.
    + lia.
    + intros bn Hbn. rewrite recovered_other; [apply Hd; lia|apply not_elem_of_nil|lia].
  - set (d1 := <[start := commit_head start B l]> (put_blocks (log_writes start B 0 l) D)).
    assert (length d1 = length D) as Hl1 by (unfold d1; by rewrite length_insert, length_put_blocks).
    assert (forall i b, l !! i = Some b -> d1 !! (start + 1 + i)%nat = Some (B !!! b)) as Hlog.
    { intros i b Hi. apply lookup_lt_Some in Hi as Hlt. unfold d1. rewrite list_lookup_insert_ne by lia.
      apply put_blocks_in; [rewrite fst_log_writes; apply NoDup_seq|by apply (elem_log_writes start B 0 l i)|lia]. }
    assert (image d1 l) as Him.
    { split; [|by rewrite Hl1, <- HBD|lia]. unfold d1.
      rewrite list_lookup_total_insert_eq by (rewrite length_put_blocks; lia).
      apply head_bytes_header; [done|apply Hm|]. intros b Hb. destruct (hm_out _ _ _ _ Hm b Hb). lia. }
    assert (recovery_writes start (logged_image start B l) l = recovery_writes start d1 l) as HW.
    { unfold recovery_writes. f_equal.
      - apply home_writes_ext. intros i Hi. cbn in Hi. destruct (lookup_lt_is_Some_2 l i) as [b Hb]; [lia|].
        rewrite (list_lookup_total_correct _ _ _ (Hlog i b Hb)). apply list_lookup_total_correct.
        unfold logged_image. rewrite list_lookup_insert_ne by lia.
        apply put_blocks_in; [rewrite fst_log_writes; apply NoDup_seq|by apply (elem_log_writes start B 0 l i)|lia].
      - unfold logged_image, d1. by rewrite !list_lookup_total_insert_eq by (rewrite length_put_blocks; lia). }
    assert (d = put_blocks (take (k - S (length l)) (recovery_writes start d1 l)) d1) as Hd.
    { subst d. unfold commit_writes. rewrite take_app_ge, Hlw by lia.
      replace (k - length l)%nat with (S (k - S (length l))) by lia. cbn [take].
      rewrite put_blocks_app. cbn [put_blocks]. by rewrite HW. }
    destruct (recovery_prefix d1 l (k - S (length l)) Him) as (l' & Him' & Heq). rewrite <- Hd in Him', Heq.
    exists l'. split; [done|]. right. intros bn Hbn. rewrite Heq by done.
    destruct (decide (bn ∈ l)) as [Hin|Hin].
    + apply list_elem_of_lookup_1 in Hin as [i Hi]. rewrite (recovered_home _ l i) by done.
      rewrite (Hlog i bn Hi). symmetry. apply list_lookup_lookup_total_lt.
      apply (hm_out _ _ _ _ Hm). by eapply list_elem_of_lookup_2.
    + rewrite recovered_other by (done || lia). rewrite Hout by done. unfold d1.
      rewrite list_lookup_insert_ne by lia. apply put_blocks_ne. rewrite fst_log_writes, elem_of_seq. lia.
Qed.
End recovery.

(** ** Booting *)
Definition log0 : log := mkLog 0 0 0 0 0 0 (replicate (Z.to_nat LOGSIZE) 0).

Lemma readsb_spec s v : cache (ls_bc s) v -> v_held v = ∅ -> (1 < length (v_blocks v))%nat ->
  (size (v_dirty v) < NBUF)%nat -> (1%nat ∉ v_dirty v) ->
  exists s', readsb 1 s = Done s' (decode_sb (v_blocks v !!! 1%nat)) /\ ls_log s' = ls_log s /\ cache (ls_bc s') v.
Proof.
  intros H Hh Hlen Hr Hd. destruct (one_held _ v 1 H Hh Hlen Hr) as (t1 & b & E1 & H1).
  assert (v_held (upd_held {[b := 1%nat]} v) !! b = Some 1%nat) as Hb by apply lookup_singleton_eq.
  destruct s as [t g]. cbn [ls_bc ls_log] in *. unfold readsb. change (u32 1) with 1.
  change (Z.of_nat 1) with 1 in E1. rewrite (bind_bc _ _ _ _ _ _ E1), bind_gets.
  assert (data b (mkLs t1 g) = v_blocks v !!! 1%nat) as ->.
  { symmetry. by apply list_lookup_total_correct, (data_spec _ _ _ _ H1). }
  destruct (brelse_spec _ _ b 1 H1) as (t2 & E2 & H2); [done| |].
  { right. apply (c_clean _ _ H); [done|]. intros c. by rewrite Hh, lookup_empty. }
  rewrite (bind_bc _ _ _ _ _ _ E2). eexists. split_and!; [reflexivity|done|].
  cbn in H2 |- *. rewrite delete_singleton_eq, <- Hh in H2. destruct v. exact H2.
Qed.

Section boot.
Context (start nlog : nat).
Hypothesis Hstart : (1 < start)%nat.

Definition geometry (d : bytes) : Prop :=
  sb_logstart (decode_sb d) = Z.of_nat start /\ sb_nlog (decode_sb d) = Z.of_nat nlog.

(** From any state of the cache in which nothing was written *)
Lemma initlog_from t d l : cache t (mkView d d ∅ ∅ []) ->
  image start nlog d l -> geometry (d !!! 1%nat) -> Z.of_nat (length d) < 2 ^ 31 ->
  exists s', initlog 1 (mkLs t log0) = Done s' tt /\
    placed (ls_log s') start nlog (length d) /\ listed (ls_log s') [] /\
    log_outstanding (ls_log s') = 0 /\ log_committing (ls_log s') = 0 /\
    cache (ls_bc s') (mkView (recovered start d l) (recovered start d l) ∅ ∅ (recovery_writes start d l)).
Proof using Hstart.
  intros Hboot [Hh Hm Hf] (Hg1 & Hg2) Hlen.
  destruct (readsb_spec (mkLs t log0) _ Hboot) as (s1 & E1 & Hlog & H1);
    cbn [v_held v_blocks v_dirty] in *.
  { done. } { lia. } { rewrite size_empty. unfold NBUF. lia. } { set_solver. }
  unfold initlog. change (BSIZE <=? 4 + 4 * LOGSIZE) with false. cbn iota.
  rewrite (bind_Done _ _ _ _ _ E1), Hg1, Hg2. destruct s1 as [t1 g1]. cbn [ls_log ls_bc] in *. subst g1.
  rewrite bind_log, !s32_small by lia.
  assert (placed (put_geometry (Z.of_nat start) (Z.of_nat nlog) 1 log0) start nlog (length d)) as Hp.
  { split; [reflexivity..| |exact Hf|exact Hlen]. cbn [put_geometry log0 lh_block]. apply length_replicate. }
  destruct (recover_spec start nlog l (mkLs t1 (put_geometry (Z.of_nat start) (Z.of_nat nlog) 1 log0)) _ H1)
    as (s2 & E2 & Hs2 & Hl2 & H2); [reflexivity|reflexivity|exact Hp|exact Hh|exact Hm|].
  exists s2. split_and!; [exact E2| |exact Hl2| | |exact H2].
  - eapply same_place_placed; [exact Hs2|exact Hp].
  - destruct Hs2 as (_ & _ & _ & E & _). exact E.
  - destruct Hs2 as (_ & _ & _ & _ & E & _). exact E.
Qed.
Lemma initlog_spec d l : image start nlog d l -> geometry (d !!! 1%nat) -> Z.of_nat (length d) < 2 ^ 31 ->
  exists s', initlog 1 (mkLs (Bio.boot d) log0) = Done s' tt /\
    placed (ls_log s') start nlog (length d) /\ listed (ls_log s') [] /\
    log_outstanding (ls_log s') = 0 /\ log_committing (ls_log s') = 0 /\
    cache (ls_bc s') (mkView (recovered start d l) (recovered start d l) ∅ ∅ (recovery_writes start d l)).
Proof using Hstart. apply initlog_from, boot_cache. Qed.

End boot.
