(* ===== verification/Txn.v ===== *)
(** * Transactions over the log

    What log.c promises to the file system, as a specification of the
    operations between begin_op and end_op, the proof that the code refines
    it, and crash safety: whatever the instant of a power failure, the next
    boot recovers the last committed state. *)

From S2P Require Import Prelude Params Bytes Bio Log.

Section txn.
Context (start nlog : nat).
Hypothesis Hstart : (1 < start)%nat.

(** ** Transactions: the specification

    [t_blocks] is what the callers see, [t_disk] the last committed state, to
    which the disk goes back after a power failure. Callers modify blocks of
    buffers they hold, log them before they release them, and hold none when
    the last operation ends. *)
Record tview : Type := mkT {
  t_blocks : list bytes;
  t_disk : list bytes;
  t_held : gmap nat nat;
  t_list : list nat;          (** blocks of the current transaction *)
  t_fresh : gset nat;         (** blocks modified and not yet logged *)
  t_out : nat                 (** operations between begin_op and end_op *)
}.

Definition outside (bn : nat) : Prop := (bn < start)%nat \/ (start + nlog <= bn)%nat.

Inductive top : Type :=
| TBegin
| TRead (bn : nat)
| TPut (b : nat) (d : bytes)
| TLog (b : nat)
| TRelse (b : nat)
| TEnd.

Definition run_top (o : top) : kernel logst (option nat) :=
  match o with
  | TBegin => begin_op;; mret None
  | TRead bn => b ← on_bc (bread 1 (Z.of_nat bn)); mret (Some b)
  | TPut b d => on_bc (kmodify (put_data b d));; mret None
  | TLog b => log_write b;; mret None
  | TRelse b => on_bc (brelse b);; mret None
  | TEnd => end_op;; mret None
  end.

Definition log_add (l : list nat) (bn : nat) : list nat := if decide (bn ∈ l) then l else l ++ [bn].

Inductive tspec (w : tview) : top -> option nat -> tview -> Prop :=
| TSbegin : Z.of_nat (length (t_list w)) + (Z.of_nat (t_out w) + 1) * MAXOPBLOCKS <= LOGSIZE ->
    tspec w TBegin None (mkT (t_blocks w) (t_disk w) (t_held w) (t_list w) (t_fresh w) (S (t_out w)))
| TSread bn b : outside bn -> (bn < length (t_blocks w))%nat -> (forall c, t_held w !! c <> Some bn) ->
    bn ∈ t_list w \/ (size (t_held w) + length (t_list w) < NBUF)%nat -> t_held w !! b = None ->
    tspec w (TRead bn) (Some b) (mkT (t_blocks w) (t_disk w) (<[b := bn]> (t_held w)) (t_list w) (t_fresh w) (t_out w))
| TSput b bn d : t_held w !! b = Some bn -> (start + nlog <= bn)%nat -> length d = Z.to_nat BSIZE ->
    tspec w (TPut b d) None
      (mkT (<[bn := d]> (t_blocks w)) (t_disk w) (t_held w) (t_list w) ({[bn]} ∪ t_fresh w) (t_out w))
| TSlog b bn : t_held w !! b = Some bn -> (start + nlog <= bn)%nat -> (0 < t_out w)%nat ->
    Z.of_nat (length (t_list w)) < LOGSIZE -> (length (t_list w) + 1 < nlog)%nat -> (length (t_list w) + 1 < NBUF)%nat ->
    tspec w (TLog b) None
      (mkT (t_blocks w) (t_disk w) (t_held w) (log_add (t_list w) bn) (t_fresh w ∖ {[bn]}) (t_out w))
| TSrelse b bn : t_held w !! b = Some bn -> (bn ∉ t_fresh w) ->
    tspec w (TRelse b) None (mkT (t_blocks w) (t_disk w) (delete b (t_held w)) (t_list w) (t_fresh w) (t_out w))
| TSend : (1 < t_out w)%nat ->
    tspec w TEnd None (mkT (t_blocks w) (t_disk w) (t_held w) (t_list w) (t_fresh w) (t_out w - 1))
| TScommit : t_out w = 1%nat -> t_held w = ∅ ->
    tspec w TEnd None (mkT (t_blocks w) (t_blocks w) ∅ [] ∅ 0).

Definition tmay (w : tview) (o : top) : Prop := exists r w', tspec w o r w'.

(** ** The relation between the code's state and the specification's *)
Record tinv (s : logst) (w : tview) (v : view) : Prop := mkTinv {
  ti_cache : cache (ls_bc s) v;
  ti_blocks : data_eq start nlog (v_blocks v) (t_blocks w);
  ti_len : length (v_blocks v) = length (t_blocks w);
  ti_disk : data_eq start nlog (v_disk v) (t_disk w);
  ti_held : v_held v = t_held w;
  ti_dirty : v_dirty v = list_to_set (t_list w);
  ti_head : header (v_disk v !!! start) [];
  ti_placed : placed (ls_log s) start nlog (length (v_blocks v));
  ti_listed : listed (ls_log s) (t_list w);
  ti_homes : homes (t_list w) start nlog (length (v_blocks v));
  ti_out : log_outstanding (ls_log s) = Z.of_nat (t_out w);
  ti_idle : log_committing (ls_log s) = 0;
  ti_high : forall bn, bn ∈ t_list w -> (start + nlog <= bn)%nat;
  ti_outside : forall b bn, t_held w !! b = Some bn -> outside bn;
  ti_same : forall bn, outside bn -> (bn ∉ t_list w) -> (bn ∉ t_fresh w) -> t_blocks w !! bn = t_disk w !! bn;
  ti_fresh : forall bn, bn ∈ t_fresh w -> exists b, t_held w !! b = Some bn;
  ti_sb : geometry start nlog (v_disk v !!! 1%nat)
}.

(** What the next boot makes of a disk image *)
Definition recovers_to (d D : list bytes) : Prop :=
  exists s, initlog 1 (mkLs (Bio.boot d) log0) = Done s tt /\ data_eq start nlog (bc_disk (ls_bc s)) D.

(** The operation's writes, cut anywhere, leave the state before or after it. *)
Definition crash_safe (v v' : view) (D D' : list bytes) : Prop :=
  exists W, v_writes v' = v_writes v ++ W /\
    forall k, let d := put_blocks (take k W) (v_disk v) in recovers_to d D \/ recovers_to d D'.

Lemma image_recovers d l D : image start nlog d l -> geometry start nlog (d !!! 1%nat) -> Z.of_nat (length d) < 2 ^ 31 ->
  data_eq start nlog (recovered start d l) D -> recovers_to d D.
Proof using Hstart.
  intros Hi Hg Hl He. destruct (initlog_spec start nlog Hstart d l Hi Hg Hl) as (s & E & _ & _ & _ & _ & Hc).
  exists s. split; [exact E|]. rewrite (c_disk _ _ Hc). exact He.
Qed.

Lemma tinv_fits s w v : tinv s w v -> (0 < nlog /\ start + nlog <= length (v_disk v))%nat /\ Z.of_nat (length (v_disk v)) < 2 ^ 31.
Proof using Hstart.
  intros H. pose proof (c_len _ _ (ti_cache _ _ _ H)) as E. pose proof (pl_fits _ _ _ _ (ti_placed _ _ _ H)).
  pose proof (pl_len _ _ _ _ (ti_placed _ _ _ H)). pose proof (hm_len _ _ _ _ (ti_homes _ _ _ H)). lia.
Qed.

(** Between commits the disk itself does not change. *)
Lemma idle_crash_safe s w v v' D' : tinv s w v -> v_writes v' = v_writes v -> crash_safe v v' (t_disk w) D'.
Proof using Hstart.
  intros H E. exists []. rewrite app_nil_r. split; [exact E|]. intros k. rewrite take_nil. left. cbn.
  destruct (tinv_fits _ _ _ H) as [[Hn Hf] Hl].
  apply (image_recovers _ []).
  - split; [apply H|by apply homes_nil|exact Hf].
  - apply H.
  - exact Hl.
  - intros bn Hbn. rewrite recovered_other; [by apply (ti_disk _ _ _ H)|apply not_elem_of_nil|lia].
Qed.

(** ** The operations *)
Definition steps_to (s : logst) (w : tview) (v : view) (o : top) : Prop :=
  exists s' r w' v', run_top o s = Done s' r /\ tspec w o r w' /\ tinv s' w' v' /\
    crash_safe v v' (t_disk w) (t_disk w') /\ (o = TEnd \/ v_writes v' = v_writes v /\ v_disk v' = v_disk v).

Lemma tinv_room s w v : tinv s w v -> size (v_dirty v) = length (t_list w).
Proof using Hstart. intros H. rewrite (ti_dirty _ _ _ H), size_list_to_set; [done|apply (ti_homes _ _ _ H)]. Qed.

Lemma begin_steps s w v : tinv s w v ->
  Z.of_nat (length (t_list w)) + (Z.of_nat (t_out w) + 1) * MAXOPBLOCKS <= LOGSIZE -> steps_to s w v TBegin.
Proof using Hstart.
  intros H Hr. destruct s as [t g]. eexists _, None, _, v. split.
  { cbn [run_top]. unfold mbind, kernel_bind, begin_op. cbn [ls_log].
    rewrite (ti_idle _ _ _ H : log_committing g = 0), (ti_out _ _ _ H : log_outstanding g = _), (proj1 (ti_listed _ _ _ H) : lh_n g = _).
    change (negb (0 =? 0)) with false. cbn iota. rewrite (proj2 (Z.ltb_ge _ _) Hr). reflexivity. }
  split; [by constructor|]. split; [|split; [by eapply idle_crash_safe|by right]].
  destruct H as [H1 H2 H3 H4 H5 H6 H7 H8 H9 H10 H11 H12 H13 H14 H15 H16 H17]. split; try assumption.
  - destruct H8. by split.
  - cbn. lia.
Qed.

Lemma read_steps s w v bn : tinv s w v -> outside bn -> (bn < length (t_blocks w))%nat ->
  (forall c, t_held w !! c <> Some bn) -> bn ∈ t_list w \/ (size (t_held w) + length (t_list w) < NBUF)%nat ->
  steps_to s w v (TRead bn).
Proof using Hstart.
  intros H Ho Hlt Hnh Hroom. pose proof (tinv_room _ _ _ H) as Hsz.
  destruct (bread_spec (ls_bc s) v bn (ti_cache _ _ _ H)) as (t & b & E & Hb & Hc).
  { by rewrite (ti_len _ _ _ H). } { by rewrite (ti_held _ _ _ H). }
  { rewrite (ti_held _ _ _ H), Hsz. destruct Hroom as [Hi|Hi]; [left|by right].
    rewrite (ti_dirty _ _ _ H). by apply elem_of_list_to_set. }
  rewrite (ti_held _ _ _ H) in Hb, Hc. destruct s as [t0 g]. cbn [ls_bc] in E.
  eexists _, (Some b), _, (upd_held (<[b := bn]> (t_held w)) v). split; [cbn [run_top]; rewrite (bind_bc _ _ _ _ _ _ E); reflexivity|].
  split; [by apply TSread|]. split; [|split; [eapply idle_crash_safe; [exact H|reflexivity]|by right]].
  destruct H as [H1 H2 H3 H4 H5 H6 H7 H8 H9 H10 H11 H12 H13 H14 H15 H16 H17]. split; try assumption.
  - reflexivity.
  - intros c m. cbn. rewrite lookup_insert_Some. intros [[_ <-]|[_ Hm]]; [done|by eapply H14].
  - intros m Hm. destruct (H16 m Hm) as [c Hc']. exists c. cbn. rewrite lookup_insert_ne; [done|congruence].
Qed.

Lemma put_steps s w v b bn d : tinv s w v -> t_held w !! b = Some bn -> (start + nlog <= bn)%nat ->
  length d = Z.to_nat BSIZE -> steps_to s w v (TPut b d).
Proof using Hstart.
  intros H Hh Hbn Hd. pose proof Hh as Hh'. rewrite <- (ti_held _ _ _ H) in Hh'.
  pose proof (put_data_spec (ls_bc s) v b bn d (ti_cache _ _ _ H) Hh') as Hc.
  destruct s as [t0 g]. eexists _, None, _, (upd_blocks (<[bn := d]> (v_blocks v)) v). split; [reflexivity|]. split; [by apply (TSput w b bn)|].
  split; [|split; [eapply idle_crash_safe; [exact H|reflexivity]|by right]].
  destruct H as [H1 H2 H3 H4 H5 H6 H7 H8 H9 H10 H11 H12 H13 H14 H15 H16 H17]. split; try assumption; cbn.
  - intros m Hm. destruct (decide (m = bn)) as [->|Hne].
    + apply (data_spec _ _ _ _ H1) in Hh'. apply lookup_lt_Some in Hh'.
      rewrite !list_lookup_insert_eq; [done|by rewrite <- H3|done].
    + rewrite !list_lookup_insert_ne by done. by apply H2.
  - by rewrite !length_insert.
  - by rewrite length_insert.
  - by rewrite length_insert.
  - intros m Ho Hl Hf. rewrite list_lookup_insert_ne by set_solver. apply H15; set_solver.
  - intros m Hm. apply elem_of_union in Hm as [->%elem_of_singleton|Hm]; [by exists b|by apply H16].
Qed.

Lemma relse_steps s w v b bn : tinv s w v -> t_held w !! b = Some bn -> (bn ∉ t_fresh w) -> steps_to s w v (TRelse b).
Proof using Hstart.
  intros H Hh Hf. pose proof Hh as Hh'. rewrite <- (ti_held _ _ _ H) in Hh'.
  pose proof (ti_outside _ _ _ H b bn Hh) as Ho.
  destruct (brelse_spec (ls_bc s) v b bn (ti_cache _ _ _ H) Hh') as (t & E & Hc).
  { destruct (decide (bn ∈ t_list w)) as [Hi|Hi].
    - left. rewrite (ti_dirty _ _ _ H). by apply elem_of_list_to_set.
    - right. rewrite (ti_blocks _ _ _ H), (ti_disk _ _ _ H) by done. by apply (ti_same _ _ _ H). }
  rewrite (ti_held _ _ _ H) in Hc. destruct s as [t0 g]. cbn [ls_bc] in E.
  eexists _, None, _, (upd_held (delete b (t_held w)) v). split; [cbn [run_top]; rewrite (bind_bc _ _ _ _ _ _ E); reflexivity|].
  split; [by eapply TSrelse|]. split; [|split; [eapply idle_crash_safe; [exact H|reflexivity]|by right]].
  destruct H as [H1 H2 H3 H4 H5 H6 H7 H8 H9 H10 H11 H12 H13 H14 H15 H16 H17]. split; try assumption.
  - reflexivity.
  - intros c m. cbn. rewrite lookup_delete_Some. intros [_ Hm]. by eapply H14.
  - intros m Hm. destruct (H16 m Hm) as [c Hc']. exists c. cbn. rewrite lookup_delete_ne; [done|].
    intros <-. rewrite Hh in Hc'. by injection Hc' as <-.
Qed.

(** log_write: the header's list, with the block absorbed or appended *)
Lemma listed_take g l : listed g l -> (length l <= length (lh_block g))%nat ->
  take (Z.to_nat (lh_n g)) (lh_block g) = Z.of_nat <$> l.
Proof using Type.
  intros [Hn Hl] Hle. rewrite Hn, Nat2Z.id. apply list_eq. intros i. rewrite list_lookup_fmap.
  destruct (l !! i) as [b|] eqn:Eb; cbn.
  - rewrite lookup_take_lt by (by eapply lookup_lt_Some). by apply Hl.
  - apply lookup_ge_None in Eb. by apply lookup_take_ge.
Qed.

Lemma absorb_spec g l bn : listed g l -> (length l <= length (lh_block g))%nat ->
  (forall b, b ∈ l -> Z.of_nat b < 2 ^ 31) ->
  if decide (bn ∈ l) then l !! absorb g (Z.of_nat bn) = Some bn else absorb g (Z.of_nat bn) = length l.
Proof using Type.
  intros Hl Hle Hb. unfold absorb. rewrite (listed_take _ _ Hl Hle), (proj1 Hl), Nat2Z.id.
  destruct (find_index _ _) as [i|] eqn:E; cbn [default].
  - apply find_index_Some in E as [(x & Hx & Ht) _]. rewrite list_lookup_fmap in Hx.
    destruct (l !! i) as [b|] eqn:Ei; [|done]. injection Hx as <-. apply Z.eqb_eq in Ht.
    assert (b ∈ l) as Hin by (by eapply list_elem_of_lookup_2). rewrite u32_nat in Ht by (by apply Hb).
    apply Nat2Z.inj in Ht as ->. rewrite decide_True by done. exact Ei.
  - rewrite find_index_None in E. rewrite decide_False; [done|]. intros Hin.
    apply list_elem_of_lookup_1 in Hin as [i Hi].
    specialize (E i (Z.of_nat bn)). rewrite list_lookup_fmap, Hi in E. specialize (E eq_refl).
    rewrite u32_nat, Z.eqb_refl in E; [done|]. apply Hb. by eapply list_elem_of_lookup_2.
Qed.

Lemma log_write_list g l bn len : placed g start nlog len -> listed g l -> homes l start nlog len ->
  (start + nlog <= bn < len)%nat -> Z.of_nat (length l) < LOGSIZE -> (length l + 1 < nlog)%nat -> (length l + 1 < NBUF)%nat ->
  let i := absorb g (Z.of_nat bn) in
  let g1 := put_lh_block i (s32 (Z.of_nat bn)) g in
  let g2 := if Z.of_nat i =? lh_n g then put_lh_n (lh_n g + 1) g1 else g1 in
  same_place g g2 /\ listed g2 (log_add l bn) /\ homes (log_add l bn) start nlog len.
Proof using Hstart.
  intros Hp Hl Hm Hbn Hr1 Hr2 Hr3 i g1 g2. pose proof (pl_len _ _ _ _ Hp) as Hlen.
  pose proof (pl_blocks _ _ _ _ Hp) as Hlb. assert (Z.to_nat LOGSIZE = 30%nat) as HL by done.
  assert (LOGSIZE = 30) as HL' by done.
  pose proof (absorb_spec g l bn Hl) as Ha.
  assert (s32 (Z.of_nat bn) = Z.of_nat bn) as Es by (apply s32_small; lia).
  assert (same_place g g2) as Hs.
  { unfold g2, g1. destruct (_ =? _); split_and!; cbn; rewrite ?length_insert; done. }
  split; [exact Hs|]. unfold log_add. fold i in Ha.
  destruct (decide (bn ∈ l)) as [Hin|Hin]; specialize (Ha ltac:(lia) (fun b Hb => ltac:(destruct (hm_out _ _ _ _ Hm b Hb); lia))).
  - split; [|done]. apply lookup_lt_Some in Ha as Hi. unfold g2. rewrite (proj1 Hl), (proj2 (Z.eqb_neq _ _)) by lia.
    split; [exact (proj1 Hl)|]. intros j b Hj. unfold g1. cbn. rewrite Es.
    destruct (decide (j = i)) as [->|Hji].
    + rewrite list_lookup_insert_eq by lia. congruence.
    + rewrite list_lookup_insert_ne by done. by apply Hl.
  - split.
    + unfold g2. rewrite (proj1 Hl), (proj2 (Z.eqb_eq _ _)) by lia. split; [cbn; rewrite length_app; cbn; lia|].
      intros j b Hj. unfold g1. cbn. rewrite Es, Ha. destruct (decide (j = length l)) as [->|Hji].
      * rewrite list_lookup_insert_eq by lia. rewrite list_lookup_middle in Hj by done. congruence.
      * apply lookup_lt_Some in Hj as Hlt. rewrite length_app in Hlt. cbn in Hlt.
        rewrite lookup_app_l in Hj by lia. rewrite list_lookup_insert_ne by done. by apply Hl.
    + destruct Hm as [M1 M2 M3 M4 M5]. split; rewrite ?length_app; cbn; [|lia|lia|lia|].
      * apply NoDup_app. split_and!; [done|set_solver|apply NoDup_singleton].
      * intros b Hb. apply elem_of_app in Hb as [Hb|Hb]; [by apply M5|]. apply list_elem_of_singleton in Hb as ->. lia.
Qed.

Lemma log_steps s w v b bn : tinv s w v -> t_held w !! b = Some bn -> (start + nlog <= bn)%nat -> (0 < t_out w)%nat ->
  Z.of_nat (length (t_list w)) < LOGSIZE -> (length (t_list w) + 1 < nlog)%nat -> (length (t_list w) + 1 < NBUF)%nat ->
  steps_to s w v (TLog b).
Proof using Hstart.
  intros H Hh Hbn Ho Hr1 Hr2 Hr3. pose proof Hh as Hh'. rewrite <- (ti_held _ _ _ H) in Hh'.
  destruct (cache_held _ _ _ _ (ti_cache _ _ _ H) Hh') as (x & Hx & F & _).
  pose proof (pin_spec _ _ _ _ (ti_cache _ _ _ H) Hh') as Hc.
  assert (bn < length (v_blocks v))%nat as Hlt by (eapply lookup_lt_Some, F).
  destruct s as [t0 g]. cbn [ls_bc ls_log] in *.
  destruct (log_write_list g (t_list w) bn _ (ti_placed _ _ _ H) (ti_listed _ _ _ H) (ti_homes _ _ _ H))
    as (Hs & Hl & Hm); [lia|done|done|done|].
  set (i := absorb g (Z.of_nat bn)) in *. set (g1 := put_lh_block i (s32 (Z.of_nat bn)) g) in *.
  set (g2 := if Z.of_nat i =? lh_n g then put_lh_n (lh_n g + 1) g1 else g1) in *.
  assert (run_top (TLog b) (mkLs t0 g) = Done (mkLs (pin b t0) g2) None) as E.
  { cbn [run_top]. unfold log_write. rewrite bind_assoc, bind_gets. cbn [ls_log].
    rewrite (proj1 (ti_listed _ _ _ H) : lh_n g = _), (pl_size _ _ _ _ (ti_placed _ _ _ H) : log_size g = _),
      (ti_out _ _ _ H : log_outstanding g = _).
    rewrite (proj2 (Z.leb_gt _ _)), (proj2 (Z.leb_gt _ _)), (proj2 (Z.ltb_ge _ _)) by lia. cbn [orb].
    rewrite bind_assoc, bind_gets. cbn [ls_bc]. rewrite (list_lookup_total_correct _ _ _ Hx), (fs_blockno _ _ _ _ F). fold i.
    rewrite bind_assoc, bind_log. fold g1. unfold g2. rewrite (proj1 (ti_listed _ _ _ H) : lh_n g = _).
    destruct (Z.of_nat i =? Z.of_nat (length (t_list w))); reflexivity. }
  exists (mkLs (pin b t0) g2), None. eexists. exists (upd_dirty ({[bn]} ∪ v_dirty v) v).
  split; [exact E|]. split; [by apply (TSlog w b bn)|]. split; [|split; [eapply idle_crash_safe; [exact H|reflexivity]|by right]].
  assert (forall m, m ∈ log_add (t_list w) bn <-> m = bn \/ m ∈ t_list w) as Hadd.
  { intros m. unfold log_add. destruct (decide _); [naive_solver|]. rewrite elem_of_app, list_elem_of_singleton. tauto. }
  destruct H as [H1 H2 H3 H4 H5 H6 H7 H8 H9 H10 H11 H12 H13 H14 H15 H16 H17]. split; try assumption; cbn.
  - rewrite H6. apply set_eq. intros m. rewrite elem_of_union, !elem_of_list_to_set, elem_of_singleton. by rewrite Hadd.
  - by eapply same_place_placed.
  - destruct Hs as (_ & _ & _ & Hs & _). by rewrite Hs.
  - destruct Hs as (_ & _ & _ & _ & Hs & _). by rewrite Hs.
  - intros m Hmm. apply Hadd in Hmm as [->|Hmm]; [done|by apply H13].
  - intros m Hmo Hml Hmf. rewrite Hadd in Hml. apply H15; [done|tauto|]. set_solver.
  - intros m Hmf. apply H16. set_solver.
Qed.

Lemma end_op_eq t g : log_committing g = 0 ->
  end_op (mkLs t g) =
    let g1 := put_outstanding (log_outstanding g - 1) g in
    if log_outstanding g - 1 =? 0 then (commit;; mod_log (put_committing 0)) (mkLs t (put_committing 1 g1))
    else Done (mkLs t g1) tt.
Proof using Type.
  intros Hc. unfold end_op, end_op_enter. rewrite bind_assoc, bind_log, bind_assoc, bind_gets.
  cbn [ls_log log_committing log_outstanding put_outstanding]. rewrite Hc. change (negb (0 =? 0)) with false. cbn iota.
  destruct (log_outstanding g - 1 =? 0); reflexivity.
Qed.

Lemma end_steps s w v : tinv s w v -> (1 < t_out w)%nat -> steps_to s w v TEnd.
Proof using Hstart.
  intros H Ho. destruct s as [t g]. pose proof (end_op_eq t g (ti_idle _ _ _ H)) as E.
  rewrite (ti_out _ _ _ H : log_outstanding g = _) in E. rewrite (proj2 (Z.eqb_neq _ _)) in E by lia.
  eexists _, None, _, v. split; [cbn [run_top]; rewrite (bind_Done _ _ _ _ _ E); reflexivity|].
  split; [by apply TSend|]. split; [|split; [by eapply idle_crash_safe|by left]].
  destruct H as [H1 H2 H3 H4 H5 H6 H7 H8 H9 H10 H11 H12 H13 H14 H15 H16 H17]. split; try assumption; cbn.
  - destruct H8. by split.
  - lia.
Qed.

(** After a commit: the list is empty and the disk is what the callers saw. *)
Lemma commit_blocks B l : homes l start nlog (length B) -> (start + nlog <= length B)%nat ->
  data_eq start nlog (put_blocks (commit_writes start B l) B) B.
Proof using Hstart.
  intros Hm Hf bn Hbn. unfold commit_writes. rewrite put_blocks_app. cbn [put_blocks].
  pose proof (hm_len _ _ _ _ Hm). change (<[start := commit_head start B l]> (put_blocks (log_writes start B 0 l) B)) with (logged_image start B l).
  assert (forall p, (p < start)%nat \/ (start + nlog <= p)%nat -> logged_image start B l !! p = B !! p) as Hout.
  { intros p Hp. unfold logged_image. rewrite list_lookup_insert_ne by lia.
    apply put_blocks_ne. rewrite fst_log_writes, elem_of_seq. lia. }
  unfold recovery_writes. rewrite put_blocks_app. cbn [put_blocks]. rewrite list_lookup_insert_ne by lia.
  destruct (decide (bn ∈ l)) as [Hin|Hin]; [|rewrite put_blocks_ne by (by rewrite fst_home_writes); by apply Hout].
  apply list_elem_of_lookup_1 in Hin as [i Hi]. apply lookup_lt_Some in Hi as Hlt.
  assert (bn < length B)%nat as HB by (apply (hm_out _ _ _ _ Hm); by eapply list_elem_of_lookup_2).
  assert (logged_image start B l !! (start + 1 + i)%nat = Some (B !!! bn)) as Hlog.
  { unfold logged_image. rewrite list_lookup_insert_ne by lia.
    apply put_blocks_in; [rewrite fst_log_writes; apply NoDup_seq|by apply (elem_log_writes start B 0 l i)|lia]. }
  rewrite (put_blocks_in _ _ bn (B !!! bn)); [symmetry; by apply list_lookup_lookup_total_lt| | |].
  - rewrite fst_home_writes. apply Hm.
  - rewrite <- (list_lookup_total_correct _ _ _ Hlog). by apply (elem_home_writes start _ 0 l i).
  - unfold logged_image. by rewrite length_insert, length_put_blocks.
Qed.

Lemma commit_head_clear B d l : homes l start nlog (length B) -> (start + nlog <= length B)%nat -> length B = length d ->
  length (B !!! start) = Z.to_nat BSIZE -> Z.of_nat (length B) < 2 ^ 31 ->
  header (put_blocks (commit_writes start B l) d !!! start) [].
Proof using Hstart.
  intros Hm Hf Hl Hb Hlen. unfold commit_writes, recovery_writes. rewrite put_blocks_app. cbn [put_blocks].
  pose proof (hm_len _ _ _ _ Hm). rewrite put_blocks_app. cbn [put_blocks].
  rewrite list_lookup_total_insert_eq by (rewrite length_put_blocks, length_insert, length_put_blocks; lia).
  unfold logged_image. rewrite list_lookup_total_insert_eq by (rewrite length_put_blocks; lia).
  apply head_bytes_header; [|cbn; lia|intros b Hb'; by destruct (not_elem_of_nil _ Hb')].
  unfold commit_head. apply head_bytes_header; [done|apply Hm|].
  intros b Hb'. destruct (hm_out _ _ _ _ Hm b Hb'). lia.
Qed.

(** The writes of a commit go to the log and to the home blocks. *)
Lemma commit_writes_elsewhere B l k p d : (p < start)%nat -> (forall b, b ∈ l -> (start + nlog <= b)%nat) ->
  put_blocks (take k (commit_writes start B l)) d !!! p = d !!! p.
Proof using Hstart.
  intros Hp Hl. rewrite !list_lookup_total_alt, put_blocks_ne; [done|].
  rewrite fmap_take. intros Hin. apply list_elem_of_lookup_1 in Hin as [i Hi]. apply lookup_take_Some in Hi as [Hi _].
  apply list_elem_of_lookup_2 in Hi. unfold commit_writes, recovery_writes in Hi.
  rewrite fmap_app, fmap_cons, fmap_app, fst_log_writes, fst_home_writes in Hi. cbn in Hi.
  rewrite elem_of_app, elem_of_cons, elem_of_app, list_elem_of_singleton, elem_of_seq in Hi.
  destruct Hi as [Hi|[Hi|[Hi|Hi]]]; [lia|lia| |lia]. apply Hl in Hi. lia.
Qed.

Lemma commit_run t g w v : tinv (mkLs t (put_committing 0 g)) w v -> t_held w = ∅ ->
  exists s' v', commit (mkLs t g) = Done s' tt /\ same_place g (ls_log s') /\ listed (ls_log s') [] /\
    cache (ls_bc s') v' /\ v_held v' = ∅ /\ v_dirty v' = ∅ /\
    data_eq start nlog (v_blocks v') (t_blocks w) /\ length (v_blocks v') = length (v_blocks v) /\
    data_eq start nlog (v_disk v') (t_blocks w) /\ header (v_disk v' !!! start) [] /\
    geometry start nlog (v_disk v' !!! 1%nat) /\ crash_safe v v' (t_disk w) (t_blocks w).
Proof using Hstart.
  intros H Hh. destruct (tinv_fits _ _ _ H) as [[Hn Hf] Hlen].
  pose proof (c_len _ _ (ti_cache _ _ _ H)) as Hcl.
  assert (forall bn, (bn ∉ t_list w) -> v_blocks v !! bn = v_disk v !! bn) as Hclean.
  { intros bn Hbn. apply (c_clean _ _ (ti_cache _ _ _ H)).
    - rewrite (ti_dirty _ _ _ H). by rewrite elem_of_list_to_set.
    - intros b. by rewrite (ti_held _ _ _ H), Hh, lookup_empty. }
  assert (start ∉ t_list w) as Hsl by (eapply start_not_home, (ti_homes _ _ _ H)).
  assert (length (v_blocks v !!! start) = Z.to_nat BSIZE) as Hst.
  { rewrite list_lookup_total_alt, (Hclean start Hsl), <- list_lookup_total_alt. apply (ti_head _ _ _ H). }
  destruct (decide (t_list w = [])) as [E|E].
  - exists (mkLs t g), v. split_and!; try apply H.
    + unfold commit. rewrite bind_gets. cbn [ls_log]. rewrite (proj1 (ti_listed _ _ _ H) : lh_n g = _), E. reflexivity.
    + done.
    + pose proof (ti_listed _ _ _ H) as Hl. by rewrite E in Hl.
    + rewrite (ti_held _ _ _ H). exact Hh.
    + by rewrite (ti_dirty _ _ _ H), E.
    + reflexivity.
    + intros bn Hbn. rewrite <- Hclean by (rewrite E; apply not_elem_of_nil). by apply (ti_blocks _ _ _ H).
    + by eapply idle_crash_safe.
  - assert (placed g start nlog (length (v_blocks v))) as Hp by (destruct (ti_placed _ _ _ H); by split).
    destruct (commit_spec start nlog (t_list w) (mkLs t g) v (ti_cache _ _ _ H)) as (s' & Ec & Hs & Hl & Hc);
      [by rewrite (ti_held _ _ _ H)|exact Hp|apply H|apply H|apply H|done|].
    set (W := commit_writes start (v_blocks v) (t_list w)) in *.
    eexists s', _. split_and!; [exact Ec|exact Hs|exact Hl|exact Hc|reflexivity|reflexivity|..]; cbn [v_blocks v_disk].
    + intros bn Hbn. rewrite <- (ti_blocks _ _ _ H) by done. apply commit_blocks; [apply H|lia|done].
    + apply length_put_blocks.
    + intros bn Hbn. rewrite <- (ti_blocks _ _ _ H) by done.
      rewrite <- (commit_blocks (v_blocks v) (t_list w)); [|apply H|lia|done]. fold W.
      symmetry. apply put_blocks_agree; [done|]. intros Hin. apply Hclean. intros Hbl. apply Hin.
      unfold W, commit_writes, recovery_writes. rewrite fmap_app, fmap_cons, fmap_app, fst_home_writes.
      rewrite elem_of_app, elem_of_cons, elem_of_app. tauto.
    + apply commit_head_clear; [apply H|lia|done|done|lia].
    + rewrite <- (take_ge W (length W)) by lia. unfold W at 2. rewrite commit_writes_elsewhere; [apply H|lia|apply H].
    + exists W. split; [reflexivity|]. intros k d.
      destruct (commit_prefix start nlog (v_blocks v) (v_disk v) (t_list w) k) as (l' & Hi & Hd);
        [apply H|lia|done|lia|done|exact Hclean|apply H|]. fold W in Hi, Hd. fold d in Hi, Hd.
      assert (geometry start nlog (d !!! 1%nat)) as Hg.
      { unfold d, W. rewrite commit_writes_elsewhere; [apply H|lia|apply H]. }
      assert (Z.of_nat (length d) < 2 ^ 31) as Hld by (unfold d; by rewrite length_put_blocks).
      destruct Hd as [Hd|Hd]; [left|right]; apply (image_recovers d l'); try done; intros bn Hbn; rewrite Hd by done;
        [by apply (ti_disk _ _ _ H)|by apply (ti_blocks _ _ _ H)].
Qed.

Lemma commit_steps s w v : tinv s w v -> t_out w = 1%nat -> t_held w = ∅ -> steps_to s w v TEnd.
Proof using Hstart.
  intros H Ho Hh. destruct s as [t g]. pose proof (end_op_eq t g (ti_idle _ _ _ H)) as E.
  rewrite (ti_out _ _ _ H : log_outstanding g = _), Ho in E. cbn zeta in E.
  change (Z.of_nat 1 - 1) with 0 in E. change (0 =? 0) with true in E. cbn iota in E.
  set (g1 := put_committing 1 (put_outstanding 0 g)) in E.
  assert (tinv (mkLs t (put_committing 0 g1)) (mkT (t_blocks w) (t_disk w) (t_held w) (t_list w) (t_fresh w) 0) v) as H'.
  { destruct H as [H1 H2 H3 H4 H5 H6 H7 H8 H9 H10 H11 H12 H13 H14 H15 H16 H17]. split; try assumption; [|reflexivity..].
    destruct H8. by split. }
  destruct (commit_run t g1 _ v H' Hh)
    as (s' & v' & Ec & Hs & Hl & Hc & Hvh & Hvd & Hb & Hlb & Hd & Hhd & Hg & Hcr).
  cbn [t_blocks t_disk] in *.
  assert (t_fresh w = ∅) as Hf.
  { apply elem_of_equiv_empty_L. intros bn Hbn. destruct (ti_fresh _ _ _ H bn Hbn) as [b Hb']. by rewrite Hh, lookup_empty in Hb'. }
  rewrite (bind_Done _ _ _ _ _ Ec) in E. destruct s' as [t' g']. cbn [ls_log ls_bc] in *.
  exists (mkLs t' (put_committing 0 g')), None. eexists. exists v'.
  split; [cbn [run_top]; rewrite (bind_Done _ _ _ _ _ E); reflexivity|].
  split; [by apply TScommit|]. split; [|split; [exact Hcr|by left]].
  assert (placed (put_committing 0 g') start nlog (length (v_blocks v'))) as Hp.
  { rewrite Hlb. destruct Hs as (S1 & S2 & S3 & S4 & S5 & S6), (ti_placed _ _ _ H'). cbn in *. split; cbn; congruence. }
  destruct (tinv_fits _ _ _ H) as [[Hn _] _]. split; cbn; try assumption; try done.
  - rewrite Hlb. apply H.
  - by apply homes_nil.
  - destruct Hs as (_ & _ & _ & S4 & _). exact S4.
  - intros bn Hbn. by destruct (not_elem_of_nil _ Hbn).
Qed.

Lemma top_steps s w v o : tinv s w v -> tmay w o -> steps_to s w v o.
Proof using Hstart.
  intros H (r & w' & Ho). destruct Ho as [Hr|bn b H1 H2 H3 H4 H5|b bn d H1 H2 H3|b bn H1 H2 H3 H4 H5 H6|b bn H1 H2|H1|H1 H2].
  - by apply begin_steps.
  - by apply read_steps.
  - by eapply put_steps.
  - by eapply log_steps.
  - by eapply relse_steps.
  - by apply end_steps.
  - by apply commit_steps.
Qed.

Lemma tspec_det w o r w1 w2 : tspec w o r w1 -> tspec w o r w2 -> w1 = w2.
Proof using Hstart. intros H1 H2. destruct H1; inversion H2; subst; simplify_eq; try done; lia. Qed.

(** ** Runs from boot *)
Inductive truns : logst -> tview -> list (top * option nat) -> logst -> tview -> Prop :=
| TRnil s w : truns s w [] s w
| TRcons s w o r s1 w1 t s2 w2 : run_top o s = Done s1 r -> tspec w o r w1 ->
    truns s1 w1 t s2 w2 -> truns s w ((o, r) :: t) s2 w2.

Lemma truns_tinv s w t s' w' v : tinv s w v -> truns s w t s' w' -> exists v', tinv s' w' v'.
Proof using Hstart.
  intros H Hr. revert v H. induction Hr as [|s w o r s1 w1 t s2 w2 E Ho _ IH]; intros v H; [by exists v|].
  destruct (top_steps s w v o H) as (s1' & r' & w1' & v1 & E' & Ho' & H1 & _); [by exists r, w1|].
  rewrite E in E'. injection E' as <- <-. rewrite <- (tspec_det _ _ _ _ _ Ho Ho') in H1. by apply (IH v1).
Qed.

(** A disk as mkfs or an earlier run leaves it: the log in its place, its
    header listing [l], none of it below the log. *)
Record bootable (d : list bytes) (l : list nat) : Prop := mkBootable {
  bo_image : image start nlog d l;
  bo_high : forall b, b ∈ l -> (start + nlog <= b)%nat;
  bo_sb : geometry start nlog (d !!! 1%nat);
  bo_len : Z.of_nat (length d) < 2 ^ 31
}.
Definition booted (d : list bytes) (l : list nat) : tview :=
  mkT (recovered start d l) (recovered start d l) ∅ [] ∅ 0.

Lemma boot_from t d l : cache t (mkView d d ∅ ∅ []) -> bootable d l ->
  exists s v, initlog 1 (mkLs t log0) = Done s tt /\ tinv s (booted d l) v.
Proof using Hstart.
  intros Ht [Hi Hh Hg Hl]. destruct (initlog_from start nlog Hstart t d l Ht Hi Hg Hl) as (s & E & Hp & Hls & Ho & Hc & Hv).
  exists s. eexists. split; [exact E|]. clear E.
  assert (length (recovered start d l) = length d) as Hlr by apply length_put_blocks.
  assert (0 < nlog)%nat as Hn by (pose proof (hm_len _ _ _ _ (im_homes _ _ _ _ Hi)); lia).
  pose proof (im_fits _ _ _ _ Hi) as Hf.
  split; [exact Hv|..]; cbn [v_blocks v_disk v_held v_dirty t_blocks t_disk t_held t_list t_fresh t_out booted];
    try assumption; try reflexivity; try (intros ? ?; reflexivity).
  - unfold recovered, recovery_writes. rewrite put_blocks_app. cbn [put_blocks].
    rewrite list_lookup_total_insert_eq by (rewrite length_put_blocks; lia).
    apply head_bytes_header; [apply Hi|cbn; lia|]. intros b Hb. by destruct (not_elem_of_nil _ Hb).
  - rewrite Hlr. exact Hp.
  - by apply homes_nil.
  - intros bn Hbn. by destruct (not_elem_of_nil _ Hbn).
  - intros b bn Hb. by rewrite lookup_empty in Hb.
  - intros bn Hbn. clear -Hbn. set_solver.
  - rewrite list_lookup_total_alt, recovered_other, <- list_lookup_total_alt; [done| |lia].
    intros Hin. apply Hh in Hin. lia.
Qed.
Lemma boot_tinv d l s : bootable d l -> initlog 1 (mkLs (Bio.boot d) log0) = Done s tt ->
  exists v, tinv s (booted d l) v.
Proof using Hstart.
  intros Hb E. destruct (boot_from _ d l (boot_cache d) Hb) as (s' & v & E' & H). rewrite E in E'. injection E' as <-. by exists v.
Qed.

(** C10: the log refines the transactional store. After any legal run of
    operations from boot, each further legal operation (begin_op, bread,
    assigning a held buffer, log_write, brelse, end_op with its commit) returns
    with a result the specification allows, without panic, sleep or endless
    loop, and held buffers show the current content of their blocks. *)
Theorem log_refines_transactions d l s0 t s w o :
  bootable d l -> initlog 1 (mkLs (Bio.boot d) log0) = Done s0 tt ->
  truns s0 (booted d l) t s w -> tmay w o ->
  (exists s' r w', run_top o s = Done s' r /\ tspec w o r w') /\
  (forall b bn, t_held w !! b = Some bn -> t_blocks w !! bn = Some (data b s)).
Proof using Hstart.
  intros Hb E Hr Ho. destruct (boot_tinv d l s0 Hb E) as [v0 H0]. clear E.
  destruct (truns_tinv _ _ _ _ _ _ H0 Hr) as [v H]. split.
  - destruct (top_steps s w v o H Ho) as (s' & r & w' & v' & E' & Hs & _). by exists s', r, w'.
  - intros b bn Hh. rewrite <- (ti_blocks _ _ _ H) by (by eapply (ti_outside _ _ _ H)).
    apply (data_spec _ _ _ _ (ti_cache _ _ _ H)). by rewrite (ti_held _ _ _ H).
Qed.

(** C1: crash safety. Cut the disk writes of any legal operation after any
    legal run at any point, those of the commit in end_op included: booting
    from what the disk then holds succeeds, and recovers (outside the log
    itself) either the state committed before the operation or, for the
    commit, everything the callers of the transaction saw. *)
Theorem log_crash_safe d l s0 t s w o :
  bootable d l -> initlog 1 (mkLs (Bio.boot d) log0) = Done s0 tt ->
  truns s0 (booted d l) t s w -> tmay w o ->
  exists s' r w' W, run_top o s = Done s' r /\ tspec w o r w' /\
    bc_writes (ls_bc s') = bc_writes (ls_bc s) ++ W /\
    forall k, let image := put_blocks (take k W) (bc_disk (ls_bc s)) in
      recovers_to image (t_disk w) \/ recovers_to image (t_disk w').
Proof using Hstart.
  intros Hb E Hr Ho. destruct (boot_tinv d l s0 Hb E) as [v0 H0]. clear E.
  destruct (truns_tinv _ _ _ _ _ _ H0 Hr) as [v H].
  destruct (top_steps s w v o H Ho) as (s' & r & w' & v' & E' & Hs & H' & (W & HW & Hc) & _).
  exists s', r, w', W. split_and!; [done|done| |].
  - by rewrite (c_writes _ _ (ti_cache _ _ _ H)), (c_writes _ _ (ti_cache _ _ _ H')).
  - by rewrite (c_disk _ _ (ti_cache _ _ _ H)).
Qed.

(** recovery can itself be interrupted: boot, lose power after any number
    of the disk writes of recovery, boot again, and the data is the same as
    if the first recovery had finished. *)
Theorem recovery_idempotent d l k : bootable d l ->
  exists s, initlog 1 (mkLs (Bio.boot d) log0) = Done s tt /\
    let image := put_blocks (take k (bc_writes (ls_bc s))) d in
    recovers_to image (bc_disk (ls_bc s)).
Proof using Hstart.
  intros [Hi Hh Hg Hl]. destruct (initlog_spec start nlog Hstart d l Hi Hg Hl) as (s & E & _ & _ & _ & _ & Hv).
  exists s. split; [exact E|]. rewrite (c_writes _ _ Hv), (c_disk _ _ Hv). cbn [v_writes v_disk].
  set (d' := put_blocks (take k (recovery_writes start d l)) d). clear E.
  destruct (recovery_prefix start nlog d l k Hi) as (l' & Hi' & He). apply (image_recovers d' l'); [exact Hi'| | |exact He].
  - unfold d'. rewrite !list_lookup_total_alt, put_blocks_ne, <- list_lookup_total_alt; [done|].
    rewrite fmap_take. unfold recovery_writes. rewrite fmap_app, fst_home_writes. intros Hin.
    apply list_elem_of_lookup_1 in Hin as [i Hin]. apply lookup_take_Some in Hin as [Hin _].
    apply list_elem_of_lookup_2, elem_of_app in Hin as [Hin|Hin]; [apply Hh in Hin; lia|].
    cbn in Hin. apply list_elem_of_singleton in Hin. lia.
  - unfold d'. by rewrite length_put_blocks.
Qed.
End txn.

(** ** A concrete disk

    Seven blocks, the log in 2..4; its header lists block 6, so booting
    installs log block 3 there. Then one transaction writes block 5. *)
Definition demo_sb : bytes := put32 12 3 (put32 16 2 (replicate 512 0)).
Definition demo_head : bytes := put32 4 6 (put32 0 1 (replicate 512 0)).
Definition demo_img : list bytes :=
  [replicate 512 0; demo_sb; demo_head; replicate 512 9; replicate 512 0; replicate 512 0; replicate 512 0].

Definition result_is {A} `{EqDecision A} (m : outcome logst A) (r : A) : bool :=
  match m with Done _ a => bool_decide (a = r) | _ => false end.
Definition state_of {A} (m : outcome logst A) (s : logst) : logst := match m with Done s' _ => s' | _ => s end.
Lemma result_is_Done {A} `{EqDecision A} (m : outcome logst A) r s : result_is m r = true -> m = Done (state_of m s) r.
Proof. destruct m; cbn; try done. intros H. apply bool_decide_eq_true_1 in H as ->. done. Qed.

Definition demo_boot : logst := state_of (initlog 1 (mkLs (Bio.boot demo_img) log0)) (mkLs (Bio.boot demo_img) log0).
Definition demo_step (s : logst) (o : top) : logst := state_of (run_top o s) s.
Definition demo_new : bytes := replicate 512 4.
Definition demo_ops : list top := [TBegin; TRead 5; TPut 4 demo_new; TLog 4; TRelse 4].
Definition demo_end : logst := foldl demo_step demo_boot demo_ops.

Lemma demo_boot_eq : initlog 1 (mkLs (Bio.boot demo_img) log0) = Done demo_boot tt.
Proof. apply result_is_Done. vm_compute. reflexivity. Qed.

Lemma demo_bootable : bootable 2 3 demo_img [6%nat].
Proof.
  split.
  - split; [|split|cbn; lia].
    + split; [vm_compute; reflexivity|]. split; [vm_compute; reflexivity|].
      intros [|i] b; [intros [= <-]; vm_compute; reflexivity|done].
    + apply NoDup_singleton.
    + cbn. lia.
    + vm_compute. lia.
    + unfold NBUF. cbn. lia.
    + intros b Hb. apply list_elem_of_singleton in Hb as ->. cbn. lia.
  - intros b Hb. apply list_elem_of_singleton in Hb as ->. lia.
  - split; vm_compute; reflexivity.
  - vm_compute. reflexivity.
Qed.

Definition demo_w0 : tview := booted 2 demo_img [6%nat].
Definition demo_B : list bytes := t_blocks demo_w0.
Definition demo_w1 : tview := mkT demo_B demo_B ∅ [] ∅ 1.
Definition demo_w2 : tview := mkT demo_B demo_B {[4%nat := 5%nat]} [] ∅ 1.
Definition demo_w3 : tview := mkT (<[5%nat := demo_new]> demo_B) demo_B {[4%nat := 5%nat]} [] {[5%nat]} 1.
Definition demo_w4 : tview := mkT (<[5%nat := demo_new]> demo_B) demo_B {[4%nat := 5%nat]} [5%nat] ∅ 1.
Definition demo_w5 : tview := mkT (<[5%nat := demo_new]> demo_B) demo_B ∅ [5%nat] ∅ 1.
Definition demo_trace : list (top * option nat) := zip demo_ops [None; Some 4%nat; None; None; None].

Lemma demo_tstep s o r w1 t s2 w2 w : result_is (run_top o s) r = true -> tspec 2 3 w o r w1 ->
  truns 2 3 (demo_step s o) w1 t s2 w2 -> truns 2 3 s w ((o, r) :: t) s2 w2.
Proof. intros H1 H2 H3. eapply TRcons; [by apply result_is_Done|exact H2|exact H3]. Qed.

Lemma demo_truns : truns 2 3 demo_boot demo_w0 demo_trace demo_end demo_w5.
Proof.
  unfold demo_end, demo_trace, demo_ops. cbn [foldl zip zip_with].
  apply (demo_tstep _ _ _ demo_w1); [vm_compute; reflexivity|apply TSbegin; vm_compute; discriminate|].
  apply (demo_tstep _ _ _ demo_w2); [vm_compute; reflexivity| |].
  { apply TSread; [right; lia|vm_compute; lia|intros c; vm_compute; discriminate|right; vm_compute; lia|reflexivity]. }
  apply (demo_tstep _ _ _ demo_w3); [vm_compute; reflexivity| |].
  { apply (TSput 2 3 demo_w2 4 5); [reflexivity|lia|reflexivity]. }
  apply (demo_tstep _ _ _ demo_w4); [vm_compute; reflexivity| |].
  { apply (TSlog 2 3 demo_w3 4 5); [reflexivity|lia|cbn; lia|vm_compute; reflexivity|cbn; lia|unfold NBUF; cbn; lia]. }
  apply (demo_tstep _ _ _ demo_w5); [vm_compute; reflexivity| |apply TRnil].
  apply (TSrelse 2 3 demo_w4 4 5); [reflexivity|]. apply not_elem_of_empty.
Qed.

Lemma log_refines_transactions_witness :
  exists s' r w', run_top TEnd demo_end = Done s' r /\ tspec 2 3 demo_w5 TEnd r w'.
Proof.
  apply (log_refines_transactions 2 3 (le_n 2) demo_img [6%nat] demo_boot demo_trace demo_end demo_w5 TEnd
           demo_bootable demo_boot_eq demo_truns).
  exists None. eexists. by apply TScommit.
Defined.

Lemma log_crash_safe_witness :
  exists s' r w' W, run_top TEnd demo_end = Done s' r /\ tspec 2 3 demo_w5 TEnd r w' /\
    bc_writes (ls_bc s') = bc_writes (ls_bc demo_end) ++ W /\
    forall k, let image := put_blocks (take k W) (bc_disk (ls_bc demo_end)) in
      recovers_to 2 3 image (t_disk demo_w5) \/ recovers_to 2 3 image (t_disk w').
Proof.
  apply (log_crash_safe 2 3 (le_n 2) demo_img [6%nat] demo_boot demo_trace demo_end demo_w5 TEnd
           demo_bootable demo_boot_eq demo_truns).
  exists None. eexists. by apply TScommit.
Defined.

Lemma recovery_idempotent_witness :
  exists s, initlog 1 (mkLs (Bio.boot demo_img) log0) = Done s tt /\
    let image := put_blocks (take 1 (bc_writes (ls_bc s))) demo_img in recovers_to 2 3 image (bc_disk (ls_bc s)).
Proof. apply (recovery_idempotent 2 3 (le_n 2) demo_img [6%nat] 1 demo_bootable). Defined.
