(* ===== verification/Fs.v ===== *)
(** * The file system (fs.c): inodes, directories and paths

    The code of fs.c over a block store. The state is the store, the global
    superblock and the inode cache; an inode pointer is an index into the
    cache, the null pointer [None]. Pointers to caller memory are values: a
    read returns the bytes it stores at dst, a write takes the bytes at src.
    ilock sleeps when the inode is busy; icache.lock is held only between the
    steps of one function, so it has no state here. *)

From S2P Require Import Prelude Params Bytes Store CString.

(** file.h: struct inode *)
Record inode : Type := mkInode {
  i_dev : Z; i_inum : Z; i_ref : Z; i_flags : Z;
  i_type : Z; i_major : Z; i_minor : Z; i_nlink : Z; i_size : Z; i_addrs : list Z
}.
#[export] Instance inode_inhabited : Inhabited inode := populate (mkInode 0 0 0 0 0 0 0 0 0 []).
Definition set_iref (x : Z) (i : inode) : inode :=
  mkInode (i_dev i) (i_inum i) x (i_flags i) (i_type i) (i_major i) (i_minor i) (i_nlink i) (i_size i) (i_addrs i).
Definition set_iflags (x : Z) (i : inode) : inode :=
  mkInode (i_dev i) (i_inum i) (i_ref i) x (i_type i) (i_major i) (i_minor i) (i_nlink i) (i_size i) (i_addrs i).
Definition set_itype (x : Z) (i : inode) : inode :=
  mkInode (i_dev i) (i_inum i) (i_ref i) (i_flags i) x (i_major i) (i_minor i) (i_nlink i) (i_size i) (i_addrs i).
Definition set_imajor (x : Z) (i : inode) : inode :=
  mkInode (i_dev i) (i_inum i) (i_ref i) (i_flags i) (i_type i) x (i_minor i) (i_nlink i) (i_size i) (i_addrs i).
Definition set_iminor (x : Z) (i : inode) : inode :=
  mkInode (i_dev i) (i_inum i) (i_ref i) (i_flags i) (i_type i) (i_major i) x (i_nlink i) (i_size i) (i_addrs i).
Definition set_inlink (x : Z) (i : inode) : inode :=
  mkInode (i_dev i) (i_inum i) (i_ref i) (i_flags i) (i_type i) (i_major i) (i_minor i) x (i_size i) (i_addrs i).
Definition set_isize (x : Z) (i : inode) : inode :=
  mkInode (i_dev i) (i_inum i) (i_ref i) (i_flags i) (i_type i) (i_major i) (i_minor i) (i_nlink i) x (i_addrs i).
Definition set_iaddr (n : nat) (x : Z) (i : inode) : inode :=
  mkInode (i_dev i) (i_inum i) (i_ref i) (i_flags i) (i_type i) (i_major i) (i_minor i) (i_nlink i) (i_size i) (<[n := x]> (i_addrs i)).

(** fs.h: struct dinode is 64 bytes, struct dirent 16 *)
Definition DINODE : nat := 64.
Definition DIRENT : Z := 16.

(** The fields of the disk inode at offset [o] of a block *)
Definition read_dinode (d : bytes) (o : nat) (i : inode) : inode :=
  mkInode (i_dev i) (i_inum i) (i_ref i) (i_flags i)
    (s16 (get16 d o)) (s16 (get16 d (o + 2))) (s16 (get16 d (o + 4))) (s16 (get16 d (o + 6)))
    (get32 d (o + 8)) ((fun k => get32 d (o + 12 + 4 * k)) <$> seq 0 13).
Fixpoint put_addrs (o : nat) (l : list Z) (d : bytes) : bytes :=
  match l with
  | [] => d
  | x :: l' => put_addrs (o + 4) l' (put32 o x d)
  end.
Definition write_dinode (i : inode) (o : nat) (d : bytes) : bytes :=
  let d := put16 o (i_type i) d in
  let d := put16 (o + 2) (i_major i) d in
  let d := put16 (o + 4) (i_minor i) d in
  let d := put16 (o + 6) (i_nlink i) d in
  let d := put32 (o + 8) (i_size i) d in
  put_addrs (o + 12) (i_addrs i) d.

(** stat.h *)
Record stat : Type := mkStat { st_type : Z; st_dev : Z; st_ino : Z; st_nlink : Z; st_size : Z }.

Record fsys (S : Type) : Type := mkFs { f_store : S; f_sb : superblock; f_inodes : list inode }.
Arguments mkFs {S} _ _ _.
Arguments f_store {S} _.
Arguments f_sb {S} _.
Arguments f_inodes {S} _.

Section Fs.
Context {S : Type} {St : BlockStore S}.

Definition put_store (t : S) (s : fsys S) : fsys S := mkFs t (f_sb s) (f_inodes s).
Definition put_sb (sb : superblock) (s : fsys S) : fsys S := mkFs (f_store s) sb (f_inodes s).
Definition put_inodes (l : list inode) (s : fsys S) : fsys S := mkFs (f_store s) (f_sb s) l.
Definition on_store {A} : kernel S A -> kernel (fsys S) A := klift f_store put_store.

Definition bread (dev blockno : Z) : kernel (fsys S) nat := on_store (st_bread (u32 dev) (u32 blockno)).
Definition log_write (bp : nat) : kernel (fsys S) unit := on_store (st_log_write bp).
Definition brelse (bp : nat) : kernel (fsys S) unit := on_store (st_brelse bp).
Definition data (bp : nat) : kernel (fsys S) bytes := kgets (fun s => st_data bp (f_store s)).
Definition put_data (bp : nat) (d : bytes) : kernel (fsys S) unit := on_store (kmodify (st_put bp d)).

Definition geti (ip : nat) : kernel (fsys S) inode := kgets (fun s => f_inodes s !!! ip).
Definition modi (ip : nat) (f : inode -> inode) : kernel (fsys S) unit :=
  kmodify (fun s => put_inodes (alter f ip (f_inodes s)) s).
Definition getsb : kernel (fsys S) superblock := kgets f_sb.

(** fs.h: BBLOCK, IBLOCK *)
Definition BBLOCK (b : Z) (sb : superblock) : Z := u32 (b / BPB + sb_bmapstart sb).
Definition IBLOCK (i : Z) (sb : superblock) : Z := u32 (i / IPB + sb_inodestart sb).
Definition dinode_off (inum : Z) : nat := (DINODE * Z.to_nat (inum mod IPB))%nat.

Definition readsb (dev : Z) : kernel (fsys S) superblock :=
  bp ← bread dev 1;
  d ← data bp;
  brelse bp;;
  mret (decode_sb d).

Definition bzero (dev bno : Z) : kernel (fsys S) unit :=
  bp ← bread dev bno;
  put_data bp (replicate (Z.to_nat BSIZE) 0);;
  log_write bp;;
  brelse bp.

(** Blocks *)
Definition bit (d : bytes) (bi : Z) : bool := negb (Z.land (get8 d (Z.to_nat (bi / 8))) (Z.shiftl 1 (bi mod 8)) =? 0).

(** The inner loop of balloc: the first bi whose bit is clear *)
Fixpoint find_free (k : nat) (d : bytes) (b bi size : Z) : option Z :=
  if (bi <? BPB) && (b + bi <? size) then
    match k with
    | O => None
    | Datatypes.S k' => if negb (bit d bi) then Some bi else find_free k' d b (bi + 1) size
    end
  else None.

Fixpoint balloc_loop (k : nat) (dev b : Z) : kernel (fsys S) Z :=
  sb ← getsb;
  if b <? sb_size sb then
    match k with
    | O => kspin
    | Datatypes.S k' =>
        bp ← bread dev (BBLOCK b sb);
        d ← data bp;
        match find_free (Z.to_nat BPB) d b 0 (sb_size sb) with
        | Some bi =>
            let o := Z.to_nat (bi / 8) in
            put_data bp (put8 o (Z.lor (get8 d o) (Z.shiftl 1 (bi mod 8))) d);;
            log_write bp;;
            brelse bp;;
            bzero dev (b + bi);;
            mret (b + bi)
        | None =>
            brelse bp;;
            balloc_loop k' dev (b + BPB)
        end
    end
  else kpanic "balloc: out of blocks".
Definition balloc (dev : Z) : kernel (fsys S) Z :=
  sb ← getsb; balloc_loop (Z.to_nat (sb_size sb / BPB + 1)) dev 0.

Definition bfree (dev b : Z) : kernel (fsys S) unit :=
  sb ← readsb dev;
  kmodify (put_sb sb);;
  bp ← bread dev (BBLOCK b sb);
  d ← data bp;
  let bi := b mod BPB in
  let o := Z.to_nat (bi / 8) in
  if negb (bit d bi) then kpanic "freeing free block"
  else
    put_data bp (put8 o (Z.land (get8 d o) (Z.lnot (Z.shiftl 1 (bi mod 8)))) d);;
    log_write bp;;
    brelse bp.

(** Inodes. iinit also prints the superblock. *)
Definition iinit (dev : Z) : kernel (fsys S) unit :=
  sb ← readsb dev; kmodify (put_sb sb).

Definition is_inode (dev inum : Z) (i : inode) : bool := (0 <? i_ref i) && (i_dev i =? dev) && (i_inum i =? inum).
Definition is_empty (i : inode) : bool := i_ref i =? 0.

Definition iget (dev inum : Z) : kernel (fsys S) nat := fun s =>
  match find_index (is_inode dev inum) (f_inodes s) with
  | Some ip => Done (put_inodes (alter (fun i => set_iref (s32 (i_ref i + 1)) i) ip (f_inodes s)) s) ip
  | None =>
      match find_index is_empty (f_inodes s) with
      | None => Panic "iget: no inodes"
      | Some ip =>
          Done (put_inodes (alter (fun i =>
            mkInode dev inum 1 0 (i_type i) (i_major i) (i_minor i) (i_nlink i) (i_size i) (i_addrs i))
            ip (f_inodes s)) s) ip
      end
  end.

Fixpoint ialloc_loop (k : nat) (dev type inum : Z) : kernel (fsys S) nat :=
  sb ← getsb;
  if inum <? sb_ninodes sb then
    match k with
    | O => kspin
    | Datatypes.S k' =>
        bp ← bread dev (IBLOCK inum sb);
        d ← data bp;
        let o := dinode_off inum in
        if s16 (get16 d o) =? 0 then
          put_data bp (put16 o type (splice o (replicate DINODE 0) d));;
          log_write bp;;
          brelse bp;;
          iget dev inum
        else
          brelse bp;;
          ialloc_loop k' dev type (inum + 1)
    end
  else kpanic "ialloc: no inodes".
Definition ialloc (dev type : Z) : kernel (fsys S) nat :=
  sb ← getsb; ialloc_loop (Z.to_nat (sb_ninodes sb)) dev type 1.

Definition iupdate (ip : nat) : kernel (fsys S) unit :=
  i ← geti ip;
  sb ← getsb;
  bp ← bread (i_dev i) (IBLOCK (i_inum i) sb);
  d ← data bp;
  put_data bp (write_dinode i (dinode_off (i_inum i)) d);;
  log_write bp;;
  brelse bp.

Definition idup (ip : nat) : kernel (fsys S) nat :=
  modi ip (fun i => set_iref (s32 (i_ref i + 1)) i);; mret ip.

Definition ilock (p : option nat) : kernel (fsys S) unit :=
  match p with
  | None => kpanic "ilock"
  | Some ip =>
      i ← geti ip;
      if i_ref i <? 1 then kpanic "ilock"
      else if has (i_flags i) I_BUSY then fun s => Sleeping s (CInode ip)
      else
        modi ip (fun i => set_iflags (setf (i_flags i) I_BUSY) i);;
        i ← geti ip;
        if has (i_flags i) I_VALID then mret tt
        else
          sb ← getsb;
          bp ← bread (i_dev i) (IBLOCK (i_inum i) sb);
          d ← data bp;
          modi ip (read_dinode d (dinode_off (i_inum i)));;
          brelse bp;;
          modi ip (fun i => set_iflags (setf (i_flags i) I_VALID) i);;
          i ← geti ip;
          if i_type i =? 0 then kpanic "ilock: no type" else mret tt
  end.

(** The channel woken is CInode ip. *)
Definition iunlock (p : option nat) : kernel (fsys S) unit :=
  match p with
  | None => kpanic "iunlock"
  | Some ip =>
      i ← geti ip;
      if negb (has (i_flags i) I_BUSY) || (i_ref i <? 1) then kpanic "iunlock"
      else modi ip (fun i => set_iflags (clrf (i_flags i) I_BUSY) i)
  end.

Definition bmap (ip : nat) (bn : Z) : kernel (fsys S) Z :=
  i ← geti ip;
  if bn <? NDIRECT then
    let addr := i_addrs i !!! Z.to_nat bn in
    if addr =? 0 then
      addr ← balloc (i_dev i);
      modi ip (set_iaddr (Z.to_nat bn) addr);;
      mret addr
    else mret addr
  else
    let bn := bn - NDIRECT in
    if bn <? NINDIRECT then
      addr ← (let addr := i_addrs i !!! Z.to_nat NDIRECT in
              if addr =? 0 then
                addr ← balloc (i_dev i);
                modi ip (set_iaddr (Z.to_nat NDIRECT) addr);;
                mret addr
              else mret addr);
      bp ← bread (i_dev i) addr;
      d ← data bp;
      let o := (4 * Z.to_nat bn)%nat in
      addr ← (if get32 d o =? 0 then
                addr ← balloc (i_dev i);
                put_data bp (put32 o addr d);;
                log_write bp;;
                mret addr
              else mret (get32 d o));
      brelse bp;;
      mret addr
    else kpanic "bmap: out of range".

Fixpoint itrunc_direct (ip : nat) (l : list nat) : kernel (fsys S) unit :=
  match l with
  | [] => mret tt
  | k :: l' =>
      i ← geti ip;
      (if i_addrs i !!! k =? 0 then mret tt
       else bfree (i_dev i) (i_addrs i !!! k);; modi ip (set_iaddr k 0));;
      itrunc_direct ip l'
  end.
Fixpoint itrunc_indirect (dev : Z) (bp : nat) (l : list nat) : kernel (fsys S) unit :=
  match l with
  | [] => mret tt
  | j :: l' =>
      d ← data bp;
      (if get32 d (4 * j) =? 0 then mret tt else bfree dev (get32 d (4 * j)));;
      itrunc_indirect dev bp l'
  end.
Definition itrunc (ip : nat) : kernel (fsys S) unit :=
  itrunc_direct ip (seq 0 (Z.to_nat NDIRECT));;
  i ← geti ip;
  let ind := i_addrs i !!! Z.to_nat NDIRECT in
  (if ind =? 0 then mret tt
   else
     bp ← bread (i_dev i) ind;
     itrunc_indirect (i_dev i) bp (seq 0 (Z.to_nat NINDIRECT));;
     brelse bp;;
     bfree (i_dev i) ind;;
     modi ip (set_iaddr (Z.to_nat NDIRECT) 0));;
  modi ip (set_isize 0);;
  iupdate ip.

(** iput wakes CInode ip after it has freed the inode. *)
Definition iput (ip : nat) : kernel (fsys S) unit :=
  i ← geti ip;
  (if (i_ref i =? 1) && has (i_flags i) I_VALID && (i_nlink i =? 0) then
     if has (i_flags i) I_BUSY then kpanic "iput busy"
     else
       modi ip (fun i => set_iflags (setf (i_flags i) I_BUSY) i);;
       itrunc ip;;
       modi ip (set_itype 0);;
       iupdate ip;;
       modi ip (set_iflags 0)
   else mret tt);;
  modi ip (fun i => set_iref (s32 (i_ref i - 1)) i).

Definition iunlockput (ip : nat) : kernel (fsys S) unit := iunlock (Some ip);; iput ip.

Definition stati (ip : nat) : kernel (fsys S) stat :=
  i ← geti ip;
  mret (mkStat (i_type i) (s32 (i_dev i)) (i_inum i) (i_nlink i) (i_size i)).

(** ** Inode content

    devsw[major].read and .write: a read returns its result and the bytes it
    stores. *)
Context (devsw_read : Z -> option (nat -> Z -> kernel (fsys S) (Z * bytes)))
        (devsw_write : Z -> option (nat -> bytes -> Z -> kernel (fsys S) Z)).

Definition chunk (tot off n : Z) : Z := Z.min (n - tot) (BSIZE - off mod BSIZE).

Fixpoint readi_loop (k : nat) (ip : nat) (tot off n : Z) : kernel (fsys S) bytes :=
  if tot <? n then
    match k with
    | O => kspin
    | Datatypes.S k' =>
        i ← geti ip;
        x ← bmap ip (off / BSIZE);
        bp ← bread (i_dev i) x;
        let m := chunk tot off n in
        d ← data bp;
        brelse bp;;
        rest ← readi_loop k' ip (tot + m) (off + m) n;
        mret (slice (Z.to_nat (off mod BSIZE)) (Z.to_nat m) d ++ rest)
    end
  else mret [].

Definition readi (ip : nat) (off n : Z) : kernel (fsys S) (Z * bytes) :=
  i ← geti ip;
  if i_type i =? T_DEV then
    if (i_major i <? 0) || (NDEV <=? i_major i) then mret (-1, [])
    else match devsw_read (i_major i) with
         | None => mret (-1, [])
         | Some read => read ip (s32 n)
         end
  else if (i_size i <? off) || (u32 (off + n) <? off) then mret (-1, [])
  else
    let n := if i_size i <? u32 (off + n) then u32 (i_size i - off) else n in
    d ← readi_loop (Z.to_nat n) ip 0 off n;
    mret (s32 n, d).

Fixpoint writei_loop (k : nat) (ip : nat) (src : bytes) (tot off n : Z) : kernel (fsys S) Z :=
  if tot <? n then
    match k with
    | O => kspin
    | Datatypes.S k' =>
        i ← geti ip;
        x ← bmap ip (off / BSIZE);
        bp ← bread (i_dev i) x;
        let m := chunk tot off n in
        d ← data bp;
        put_data bp (splice (Z.to_nat (off mod BSIZE)) (slice (Z.to_nat tot) (Z.to_nat m) src) d);;
        log_write bp;;
        brelse bp;;
        writei_loop k' ip src (tot + m) (off + m) n
    end
  else mret off.

Definition writei (ip : nat) (src : bytes) (off n : Z) : kernel (fsys S) Z :=
  i ← geti ip;
  if i_type i =? T_DEV then
    if (i_major i <? 0) || (NDEV <=? i_major i) then mret (-1)
    else match devsw_write (i_major i) with
         | None => mret (-1)
         | Some write => write ip src (s32 n)
         end
  else if (i_size i <? off) || (u32 (off + n) <? off) then mret (-1)
  else if MAXFILE * BSIZE <? u32 (off + n) then mret (-1)
  else
    off ← writei_loop (Z.to_nat n) ip src 0 off n;
    i ← geti ip;
    (if (0 <? n) && (i_size i <? off) then modi ip (set_isize off);; iupdate ip else mret tt);;
    mret (s32 n).

(** ** Directories

    struct dirent: inum in bytes 0 and 1, the name in bytes 2 to 15. Reading
    past the end of a name has no defined behaviour. *)
Definition de_inum (de : bytes) : Z := get16 de 0.
Definition de_name (de : bytes) : bytes := slice 2 DIRSIZ de.
Definition namecmp (s t : list Z) : kernel (fsys S) Z :=
  match strncmp s t DIRSIZ with Some r => mret r | None => kspin end.

Fixpoint dirlookup_loop (k : nat) (dp : nat) (name : list Z) (off : Z) : kernel (fsys S) (option (nat * Z)) :=
  i ← geti dp;
  if off <? i_size i then
    match k with
    | O => kspin
    | Datatypes.S k' =>
        r ← readi dp off DIRENT;
        if negb (r.1 =? DIRENT) then kpanic "dirlink read"
        else if de_inum r.2 =? 0 then dirlookup_loop k' dp name (off + DIRENT)
        else
          c ← namecmp name (de_name r.2);
          if c =? 0 then
            ip ← iget (i_dev i) (de_inum r.2);
            mret (Some (ip, off))
          else dirlookup_loop k' dp name (off + DIRENT)
    end
  else mret None.

(** The result is the inode with the offset stored at *poff. *)
Definition dirlookup (dp : nat) (name : list Z) : kernel (fsys S) (option (nat * Z)) :=
  i ← geti dp;
  if negb (i_type i =? T_DIR) then kpanic "dirlookup not DIR"
  else dirlookup_loop (Z.to_nat (i_size i)) dp name 0.

Fixpoint dirlink_loop (k : nat) (dp : nat) (off : Z) : kernel (fsys S) Z :=
  i ← geti dp;
  if off <? i_size i then
    match k with
    | O => kspin
    | Datatypes.S k' =>
        r ← readi dp off DIRENT;
        if negb (r.1 =? DIRENT) then kpanic "dirlink read"
        else if de_inum r.2 =? 0 then mret off
        else dirlink_loop k' dp (off + DIRENT)
    end
  else mret off.

Definition dirlink (dp : nat) (name : list Z) (inum : Z) : kernel (fsys S) Z :=
  f ← dirlookup dp name;
  match f with
  | Some (ip, _) => iput ip;; mret (-1)
  | None =>
      i ← geti dp;
      off ← dirlink_loop (Z.to_nat (i_size i)) dp 0;
      match strncpy name DIRSIZ with
      | None => kspin
      | Some nm =>
          r ← writei dp (le16 inum ++ nm) off DIRENT;
          if negb (r =? DIRENT) then kpanic "dirlink" else mret 0
      end
  end.

(** ** Paths

    A path is the list of its bytes before the terminating 0; 47 is '/'. *)
Fixpoint skip_slashes (path : list Z) : list Z :=
  match path with
  | c :: path' => if c =? 47 then skip_slashes path' else path
  | [] => []
  end.
(** Bytes before the next slash or the end *)
Fixpoint elem_len (path : list Z) : nat :=
  match path with
  | c :: path' => if c =? 47 then 0 else Datatypes.S (elem_len path')
  | [] => 0
  end.

Definition skipelem (path name : list Z) : option (list Z * list Z) :=
  match skip_slashes path with
  | [] => None
  | s =>
      let len := elem_len s in
      let name' := if (DIRSIZ <=? len)%nat then splice 0 (take DIRSIZ s) name
                   else <[len := 0]> (splice 0 (take len s) name) in
      Some (skip_slashes (drop len s), name')
  end.

(** The loop of namex; [name] is the caller's buffer *)
Fixpoint namex_loop (k : nat) (path : list Z) (nameiparent : bool) (name : list Z) (ip : nat)
  : kernel (fsys S) (option nat * list Z) :=
  match skipelem path name with
  | None => if nameiparent then iput ip;; mret (None, name) else mret (Some ip, name)
  | Some (path, name) =>
      match k with
      | O => kspin
      | Datatypes.S k' =>
          ilock (Some ip);;
          i ← geti ip;
          if negb (i_type i =? T_DIR) then iunlockput ip;; mret (None, name)
          else if nameiparent && (match path with [] => true | _ => false end) then
            iunlock (Some ip);; mret (Some ip, name)
          else
            f ← dirlookup ip name;
            match f with
            | None => iunlockput ip;; mret (None, name)
            | Some (next, _) =>
                iunlockput ip;;
                namex_loop k' path nameiparent name next
            end
      end
  end.

Definition namex (cwd : nat) (path : list Z) (nameiparent : bool) (name : list Z)
  : kernel (fsys S) (option nat * list Z) :=
  ip ← (match path with
        | c :: _ => if c =? 47 then iget ROOTDEV ROOTINO else idup cwd
        | [] => idup cwd
        end);
  namex_loop (length path) path nameiparent name ip.

(** name is an uninitialised array in namei *)
Definition namei (cwd : nat) (path : list Z) (name : list Z) : kernel (fsys S) (option nat) :=
  r ← namex cwd path false name; mret r.1.
Definition nameiparent (cwd : nat) (path name : list Z) : kernel (fsys S) (option nat * list Z) :=
  namex cwd path true name.
End Fs.
