(* ===== verification/FsSpec.v ===== *)
(** * Specifications of the file system's block and inode operations

    A weakest precondition for kernel code that must return, the rules of
    the block store in it, and what balloc, bfree, iupdate, ilock, bmap do. *)

From S2P Require Import Prelude Params Bytes Store CString Fs.

(** ** Code that returns *)
Definition wp {T A} (m : kernel T A) (s : T) (Q : A -> T -> Prop) : Prop :=
  match m s with Done s' a => Q a s' | _ => False end.

Lemma wp_Done {T A} (m : kernel T A) s Q : wp m s Q -> exists s' a, m s = Done s' a /\ Q a s'.
Proof. unfold wp. destruct (m s); [eauto|done|done|done]. Qed.
Lemma Done_wp {T A} (m : kernel T A) s s' a (Q : A -> T -> Prop) : m s = Done s' a -> Q a s' -> wp m s Q.
Proof. unfold wp. by intros ->. Qed.
Lemma wp_bind {T A B} (m : kernel T A) (k : A -> kernel T B) s Q :
  wp m s (fun a s' => wp (k a) s' Q) -> wp (x ← m; k x) s Q.
Proof. unfold wp, mbind, kernel_bind. by destruct (m s). Qed.
Lemma wp_mono {T A} (m : kernel T A) s (P Q : A -> T -> Prop) :
  wp m s P -> (forall a s', P a s' -> Q a s') -> wp m s Q.
Proof. unfold wp. destruct (m s); auto. Qed.
Lemma wp_ret {T A} (a : A) (s : T) (Q : A -> T -> Prop) : Q a s -> wp (mret a) s Q.
Proof. done. Qed.
Lemma wp_gets {T A} (f : T -> A) (s : T) (Q : A -> T -> Prop) : Q (f s) s -> wp (kgets f) s Q.
Proof. done. Qed.
Lemma wp_modify {T} (f : T -> T) (s : T) (Q : unit -> T -> Prop) : Q tt (f s) -> wp (kmodify f) s Q.
Proof. done. Qed.

(** ** Blocks by number *)
Definition blk (B : list bytes) (x : Z) : bytes := B !!! Z.to_nat x.
Definition setblk (x : Z) (d : bytes) (B : list bytes) : list bytes := <[Z.to_nat x := d]> B.

Lemma length_setblk x d B : length (setblk x d B) = length B.
Proof. apply length_insert. Qed.
Lemma blk_set_eq x d B : 0 <= x < Z.of_nat (length B) -> blk (setblk x d B) x = d.
Proof. intros H. apply list_lookup_total_insert_eq. lia. Qed.
Lemma blk_set_ne x y d B : 0 <= x -> 0 <= y -> x <> y -> blk (setblk x d B) y = blk B y.
Proof. intros H1 H2 H3. apply list_lookup_total_insert_ne. lia. Qed.

Definition block_ok (d : bytes) : Prop := length d = Z.to_nat BSIZE /\ Forall byte_ok d.
Definition blocks_ok (B : list bytes) : Prop := Forall block_ok B.

Lemma blocks_ok_blk B x : blocks_ok B -> 0 <= x < Z.of_nat (length B) -> block_ok (blk B x).
Proof.
  intros H Hx. unfold blocks_ok in H. rewrite Forall_lookup in H. apply (H (Z.to_nat x)).
  apply list_lookup_lookup_total_lt. lia.
Qed.
Lemma blocks_ok_set B x d : blocks_ok B -> block_ok d -> blocks_ok (setblk x d B).
Proof. intros H Hd. by apply Forall_insert. Qed.

Definition zeros : bytes := replicate (Z.to_nat BSIZE) 0.
Lemma zeros_ok : block_ok zeros.
Proof. split; [apply length_replicate|]. apply Forall_replicate. unfold byte_ok. lia. Qed.

(** ** Bits of a byte and of a block *)
Lemma bit_testbit d bi : 0 <= bi -> bit d bi = Z.testbit (get8 d (Z.to_nat (bi / 8))) (bi mod 8).
Proof.
  intros H. unfold bit. rewrite Z.shiftl_1_l.
  change (negb (Z.land ?a ?b =? 0)) with (has a b). apply has_bit. apply Z.mod_pos_bound. lia.
Qed.

Lemma get8_put8_other o v d p : (o + 1 <= length d)%nat -> p <> o -> get8 (put8 o v d) p = get8 d p.
Proof. intros H1 H2. apply get8_splice_out; cbn; lia. Qed.

Definition set_bit (d : bytes) (bi : Z) : bytes :=
  let o := Z.to_nat (bi / 8) in put8 o (Z.lor (get8 d o) (Z.shiftl 1 (bi mod 8))) d.
Definition clear_bit (d : bytes) (bi : Z) : bytes :=
  let o := Z.to_nat (bi / 8) in put8 o (Z.land (get8 d o) (Z.lnot (Z.shiftl 1 (bi mod 8)))) d.

Lemma bit_byte_range bi : 0 <= bi < BPB -> (Z.to_nat (bi / 8) + 1 <= Z.to_nat BSIZE)%nat.
Proof. unfold BPB, BSIZE. intros H. Z.div_mod_to_equations. lia. Qed.

Lemma u8_testbit v k : 0 <= k < 8 -> Z.testbit (u8 v) k = Z.testbit v k.
Proof. intros H. unfold u8. apply Z.mod_pow2_bits_low. lia. Qed.

Lemma put_byte_bit d o v bj : 0 <= bj -> (o + 1 <= length d)%nat ->
  bit (put8 o v d) bj = if decide (Z.to_nat (bj / 8) = o) then Z.testbit v (bj mod 8) else bit d bj.
Proof.
  intros Hj Hl. rewrite !bit_testbit by done. destruct (decide _) as [E|E].
  - rewrite E, get8_put8 by done. apply u8_testbit. apply Z.mod_pos_bound. lia.
  - by rewrite get8_put8_other.
Qed.

Lemma same_byte bi bj : 0 <= bi -> 0 <= bj -> Z.to_nat (bj / 8) = Z.to_nat (bi / 8) -> (bi mod 8 =? bj mod 8) = (bi =? bj).
Proof.
  intros Hi Hj E. assert (bj / 8 = bi / 8) as E' by (apply Z2Nat.inj in E; [done|apply Z.div_pos; lia..]).
  destruct (Z.eqb_spec bi bj) as [->|Hne]; [apply Z.eqb_refl|]. apply Z.eqb_neq. Z.div_mod_to_equations. lia.
Qed.

Lemma bit_set d bi bj : block_ok d -> 0 <= bi < BPB -> 0 <= bj ->
  bit (set_bit d bi) bj = bit d bj || (bi =? bj).
Proof.
  intros [Hl _] Hi Hj. unfold set_bit. rewrite put_byte_bit; [|done|rewrite Hl; by apply bit_byte_range].
  destruct (decide _) as [E|E].
  - pose proof (Z.mod_pos_bound bi 8). pose proof (Z.mod_pos_bound bj 8).
    rewrite Z.lor_spec, Z.shiftl_1_l, Z.pow2_bits_eqb by lia. rewrite same_byte by (done || lia).
    by rewrite bit_testbit, E by done.
  - destruct (Z.eqb_spec bi bj) as [->|]; [done|]. by rewrite orb_false_r.
Qed.
Lemma bit_clear d bi bj : block_ok d -> 0 <= bi < BPB -> 0 <= bj ->
  bit (clear_bit d bi) bj = bit d bj && negb (bi =? bj).
Proof.
  intros [Hl _] Hi Hj. unfold clear_bit. rewrite put_byte_bit; [|done|rewrite Hl; by apply bit_byte_range].
  destruct (decide _) as [E|E].
  - pose proof (Z.mod_pos_bound bi 8). pose proof (Z.mod_pos_bound bj 8).
    rewrite Z.land_spec, Z.lnot_spec, Z.shiftl_1_l, Z.pow2_bits_eqb by lia. rewrite same_byte by (done || lia).
    by rewrite bit_testbit, E by done.
  - destruct (Z.eqb_spec bi bj) as [->|]; [done|]. by rewrite andb_true_r.
Qed.

Lemma put8_ok o v d : block_ok d -> (o + 1 <= Z.to_nat BSIZE)%nat -> block_ok (put8 o v d).
Proof.
  intros [Hl Hb] Ho. split; [rewrite length_put8; [done|lia]|]. apply splice_ok; [|done].
  apply Forall_singleton. unfold byte_ok, u8. apply Z.mod_pos_bound. lia.
Qed.
Lemma set_bit_ok d bi : block_ok d -> 0 <= bi < BPB -> block_ok (set_bit d bi).
Proof. intros H Hi. apply put8_ok; [done|]. by apply bit_byte_range. Qed.
Lemma clear_bit_ok d bi : block_ok d -> 0 <= bi < BPB -> block_ok (clear_bit d bi).
Proof. intros H Hi. apply put8_ok; [done|]. by apply bit_byte_range. Qed.

(** ** The disk layout *)
Section FsSpec.
Context {S : Type} {St : BlockStore S} {Dims : BlockStoreDims S} {Laws : BlockStoreLaws S} (sb : superblock).

Definition dstart : Z := sb_bmapstart sb + sb_size sb / BPB + 1.

Record layout (n : nat) : Prop := mkLayout {
  ly_size : sb_size sb = Z.of_nat n;
  ly_max : Z.of_nat n < 2 ^ 31;
  ly_first : Z.of_nat st_first <= sb_inodestart sb;
  ly_ninodes : 0 < sb_ninodes sb;
  ly_inodes : sb_inodestart sb + sb_ninodes sb / IPB < sb_bmapstart sb;
  ly_data : dstart <= sb_size sb;
  ly_one : (1 < st_first)%nat
}.

Definition used (B : list bytes) (b : Z) : bool := bit (blk B (sb_bmapstart sb + b / BPB)) (b mod BPB).

Record disk_ok (B : list bytes) : Prop := mkDisk {
  dk_layout : layout (length B);
  dk_blocks : blocks_ok B;
  dk_super : decode_sb (blk B 1) = sb;
  dk_meta : forall b, 0 <= b < dstart -> used B b = true
}.

(** Bitmap blocks *)
Definition bmaps : gset nat := set_seq (Z.to_nat (sb_bmapstart sb)) (Z.to_nat (sb_size sb / BPB + 1)).

(** The state: the store's blocks, buffers held and blocks logged, nothing
    changed and unlogged; the inode cache. *)
Record fs_is (s : fsys S) (B : list bytes) (h : gmap nat nat) (g : gset nat) (l : list inode) : Prop := mkIs {
  is_rep : st_rep (f_store s) (mkStore B h g ∅);
  is_sb : f_sb s = sb;
  is_inodes : f_inodes s = l
}.

(** The buffers held do not cover [x]. *)
Definition not_held (h : gmap nat nat) (x : Z) : Prop := forall b, h !! b <> Some (Z.to_nat x).

Lemma wp_bread s B h g l x Q :
  fs_is s B h g l -> x = 1 \/ Z.of_nat st_first <= x -> x < Z.of_nat (length B) -> Z.of_nat (length B) < 2 ^ 31 ->
  not_held h x -> (size h <= 1)%nat -> (size g <= st_cap)%nat ->
  (forall s' b, h !! b = None -> fs_is s' B (<[b := Z.to_nat x]> h) g l -> Q b s') ->
  wp (bread 1 x) s Q.
Proof using Type.
  intros [Hr Hsb Hi] Hx Hlt Hmax Hnh Hh Hg HQ.
  destruct (st_bread_ok (f_store s) _ (Z.to_nat x) Hr) as (t & b & E & Hb & Hr').
  { destruct Hx as [->|Hx]; [by left|right; lia]. } { cbn. destruct Hx; lia. } { exact Hnh. }
  { right. cbn. pose proof st_cap_bufs. lia. }
  eapply (Done_wp _ _ (put_store t s)); [|by apply HQ].
  unfold bread, on_store, klift. change (u32 1) with 1. rewrite u32_small by (destruct Hx; lia).
  rewrite <- (Z2Nat.id x) by (destruct Hx; lia). by rewrite E.
Qed.

Lemma wp_data s B h g l b x Q : fs_is s B h g l -> h !! b = Some (Z.to_nat x) -> Q (blk B x) s -> wp (data b) s Q.
Proof using Type.
  intros [Hr _ _] Hb HQ. apply wp_gets. pose proof (st_data_ok _ _ _ _ Hr Hb) as E. cbn in E.
  unfold blk in HQ. by rewrite (list_lookup_total_correct _ _ _ E) in HQ.
Qed.

Lemma wp_put_log {A} s B h g l b x d (k : kernel (fsys S) A) Q :
  fs_is s B h g l -> h !! b = Some (Z.to_nat x) -> Z.of_nat st_first <= x -> block_ok d ->
  (size ({[Z.to_nat x]} ∪ g) <= st_cap)%nat ->
  (forall s', fs_is s' (setblk x d B) h ({[Z.to_nat x]} ∪ g) l -> wp k s' Q) ->
  wp (put_data b d;; log_write b;; k) s Q.
Proof using Type.
  intros [Hr Hsb Hi] Hb Hx [Hd _] Hg HQ. apply wp_bind. eapply Done_wp; [reflexivity|]. cbn.
  pose proof (st_put_ok _ _ b (Z.to_nat x) d Hr Hb ltac:(lia) Hd) as Hr1.
  destruct (st_log_write_ok _ _ b (Z.to_nat x) Hr1) as (t & E & Hr2).
  { exact Hb. } { lia. }
  { cbn. destruct (decide (Z.to_nat x ∈ g)) as [?|Hn]; [by left|right].
    rewrite size_union, size_singleton in Hg by set_solver. lia. }
  { cbn. etrans; [apply subseteq_size|exact Hg]. set_solver. }
  apply wp_bind. eapply (Done_wp _ _ (put_store t s)).
  { unfold log_write, on_store, klift. cbn. by rewrite E. }
  apply HQ. split; [|done|done]. cbn. unfold so_log, so_write in Hr2. cbn in Hr2.
  replace (({[Z.to_nat x]} ∪ ∅) ∖ {[Z.to_nat x]} : gset nat) with (∅ : gset nat) in Hr2 by set_solver. exact Hr2.
Qed.

Lemma wp_brelse s B h g l b n Q : fs_is s B h g l -> h !! b = Some n ->
  (forall s', fs_is s' B (delete b h) g l -> Q tt s') -> wp (brelse b) s Q.
Proof using Type.
  intros [Hr Hsb Hi] Hb HQ. destruct (st_brelse_ok _ _ b n Hr Hb) as (t & E & Hr1); [set_solver|].
  eapply (Done_wp _ _ (put_store t s)); [|by apply HQ]. unfold brelse, on_store, klift. by rewrite E.
Qed.

Lemma wp_geti s B h g l ip Q : fs_is s B h g l -> Q (l !!! ip) s -> wp (geti ip) s Q.
Proof using Type. intros [_ _ <-] HQ. by apply wp_gets. Qed.
Lemma wp_getsb s B h g l Q : fs_is s B h g l -> Q sb s -> wp getsb s Q.
Proof using Type. intros [_ <- _] HQ. by apply wp_gets. Qed.
Lemma wp_modi s B h g l ip f Q : fs_is s B h g l ->
  (forall s', fs_is s' B h g (alter f ip l) -> Q tt s') -> wp (modi ip f) s Q.
Proof using Type. intros [Hr Hsb Hi] HQ. apply wp_modify, HQ. split; [done|done|]. cbn. by rewrite Hi. Qed.

(** A buffer just read and released leaves the others. *)
Lemma held_back (h : gmap nat nat) (b x : nat) : h !! b = None -> delete b (<[b := x]> h) = h.
Proof using Type. intros H. by rewrite delete_insert_eq, delete_id. Qed.

(** ** balloc and bfree *)
Lemma find_free_spec k d b bi size : 0 <= bi -> BPB - bi <= Z.of_nat k ->
  match find_free k d b bi size with
  | Some bj => bi <= bj < BPB /\ b + bj < size /\ bit d bj = false
  | None => forall j, bi <= j < BPB -> b + j < size -> bit d j = true
  end.
Proof using Type.
  revert bi. induction k as [|k IH]; intros bi Hbi Hk; cbn [find_free].
  - destruct (_ && _) eqn:E; [apply andb_true_iff in E as [E _]; apply Z.ltb_lt in E; lia|].
    intros j Hj Hs. lia.
  - destruct ((bi <? BPB) && (b + bi <? size)) eqn:E.
    + apply andb_true_iff in E as [E1 E2]. apply Z.ltb_lt in E1, E2.
      destruct (bit d bi) eqn:Eb; cbn [negb]; [|split_and!; (lia || done)].
      specialize (IH (bi + 1) ltac:(lia) ltac:(lia)). destruct (find_free k d b (bi + 1) size); [destruct IH as (? & ? & ?); split_and!; (lia || done)|].
      intros j Hj Hs. destruct (decide (j = bi)) as [->|]; [done|]. apply IH; lia.
    + apply andb_false_iff in E. intros j Hj Hs. destruct E as [E|E]; apply Z.ltb_ge in E; lia.
Qed.

Definition bblock (b : Z) : Z := sb_bmapstart sb + b / BPB.

Lemma layout_pos n : layout n -> 1 < sb_inodestart sb < sb_bmapstart sb /\ 0 <= sb_size sb / BPB.
Proof using Type.
  intros [H1 H2 H3 H4 H5 H6 H7]. assert (0 <= sb_ninodes sb / IPB) by (apply Z.div_pos; [lia|done]).
  assert (0 <= sb_size sb / BPB) by (apply Z.div_pos; unfold BPB, BSIZE; lia). lia.
Qed.

Lemma bblock_range n b : layout n -> 0 <= b < sb_size sb ->
  sb_bmapstart sb <= bblock b < dstart /\ BBLOCK b sb = bblock b /\ (Z.to_nat (bblock b) ∈ bmaps) /\
  Z.of_nat st_first <= bblock b /\ bblock b < sb_size sb.
Proof using Type.
  intros Hl Hb. pose proof (layout_pos n Hl) as [Hp Hq]. destruct Hl as [H1 H2 H3 H4 H5 H6 H7].
  assert (0 <= b / BPB <= sb_size sb / BPB) as Hd.
  { split; [apply Z.div_pos; unfold BPB, BSIZE; lia|apply Z.div_le_mono; unfold BPB, BSIZE; lia]. }
  unfold bblock, dstart in *. split_and!; try lia.
  - unfold BBLOCK. rewrite u32_small; lia.
  - unfold bmaps. apply elem_of_set_seq. lia.
Qed.

(** What a successful balloc did. *)
Record allocated (B : list bytes) (x : Z) (B' : list bytes) : Prop := mkAlloc {
  al_range : dstart <= x < sb_size sb;
  al_free : used B x = false;
  al_eq : B' = setblk x zeros (setblk (bblock x) (set_bit (blk B (bblock x)) (x mod BPB)) B)
}.

Lemma bblock_mod b c : bblock b = bblock c -> b mod BPB = c mod BPB -> b = c.
Proof using Type.
  unfold bblock. intros E1 E2. rewrite (Z.div_mod b BPB), (Z.div_mod c BPB) by (unfold BPB, BSIZE; lia). lia.
Qed.

Lemma allocated_blk B x B' p : disk_ok B -> allocated B x B' -> 0 <= p ->
  blk B' p = if decide (p = x) then zeros else if decide (p = bblock x) then set_bit (blk B (bblock x)) (x mod BPB) else blk B p.
Proof using Type.
  intros [Hl _ _ _] [Hr _ ->] Hp. pose proof (layout_pos _ Hl) as [Hp1 Hp2].
  assert (0 <= dstart) by (unfold dstart; lia). pose proof (ly_size _ Hl) as Hs.
  destruct (bblock_range _ x Hl) as (Hb1 & _ & _ & _ & Hb2); [lia|].
  destruct (decide (p = x)) as [->|Hpx]; [apply blk_set_eq; rewrite length_setblk; lia|].
  rewrite blk_set_ne by lia. destruct (decide (p = bblock x)) as [->|Hpb]; [apply blk_set_eq; lia|].
  apply blk_set_ne; lia.
Qed.

Lemma allocated_used B x B' b : disk_ok B -> allocated B x B' -> 0 <= b < sb_size sb ->
  used B' b = used B b || (x =? b).
Proof using Type.
  intros Hd Ha Hb. unfold used. fold (bblock b). pose proof (dk_layout _ Hd) as Hl.
  pose proof (layout_pos _ Hl) as [Hp1 Hp2]. destruct (bblock_range _ b Hl Hb) as (Hb1 & _).
  pose proof (al_range _ _ _ Ha) as Hx. assert (0 <= dstart) by (unfold dstart; lia).
  destruct (bblock_range _ x Hl) as (Hx1 & _ & _ & _ & Hx2); [lia|].
  rewrite (allocated_blk _ _ _ _ Hd Ha) by lia. rewrite decide_False by lia.
  destruct (decide (bblock b = bblock x)) as [E|E].
  - rewrite E. rewrite bit_set.
    + f_equal. destruct (Z.eqb_spec x b) as [->|Hne]; [apply Z.eqb_refl|]. apply Z.eqb_neq. intros E'.
      apply Hne. by apply bblock_mod.
    + apply blocks_ok_blk; [apply Hd|]. rewrite <- (ly_size _ Hl). lia.
    + apply Z.mod_pos_bound. unfold BPB, BSIZE. lia.
    + apply Z.mod_pos_bound. unfold BPB, BSIZE. lia.
  - destruct (Z.eqb_spec x b) as [->|]; [done|]. by rewrite orb_false_r.
Qed.

Lemma allocated_length B x B' : allocated B x B' -> length B' = length B.
Proof using Type. intros [_ _ ->]. by rewrite !length_setblk. Qed.

Lemma allocated_ok B x B' : disk_ok B -> allocated B x B' -> disk_ok B'.
Proof using Type.
  intros Hd Ha. pose proof (allocated_length _ _ _ Ha) as Hlen. pose proof (dk_layout _ Hd) as Hl.
  pose proof (layout_pos _ Hl) as [Hp1 Hp2]. pose proof (al_range _ _ _ Ha) as Hx.
  assert (0 <= dstart) by (unfold dstart; lia).
  destruct (bblock_range _ x Hl) as (Hx1 & _ & _ & _ & Hx2); [lia|]. split.
  - by rewrite Hlen.
  - rewrite (al_eq _ _ _ Ha). apply blocks_ok_set; [apply blocks_ok_set; [apply Hd|]|apply zeros_ok].
    apply set_bit_ok; [|apply Z.mod_pos_bound; unfold BPB, BSIZE; lia].
    apply blocks_ok_blk; [apply Hd|]. rewrite <- (ly_size _ Hl). lia.
  - rewrite (allocated_blk _ _ _ _ Hd Ha) by lia. unfold dstart in *. rewrite !decide_False by lia. apply Hd.
  - intros b Hb. rewrite (allocated_used _ _ _ _ Hd Ha) by lia. by rewrite (dk_meta _ Hd).
Qed.

(** At least [k] free blocks *)
Definition free_ge (B : list bytes) (k : nat) : Prop :=
  exists l : list Z, NoDup l /\ length l = k /\ forall y, y ∈ l -> 0 <= y < sb_size sb /\ used B y = false.

Lemma free_ge_mono B k j : free_ge B k -> (j <= k)%nat -> free_ge B j.
Proof using Type.
  intros (l & Hn & Hk & Hl) Hj. exists (take j l). split_and!.
  - rewrite <- (take_drop j l) in Hn. by apply NoDup_app in Hn as [? _].
  - rewrite length_take. lia.
  - intros y Hy. apply Hl. apply elem_of_take in Hy as (i & Hi & _). by eapply list_elem_of_lookup_2.
Qed.

(** The held buffers are of allocated data blocks. *)
Definition held_ok (B : list bytes) (h : gmap nat nat) : Prop :=
  forall b n, h !! b = Some n -> dstart <= Z.of_nat n < sb_size sb /\ used B (Z.of_nat n) = true.

Lemma held_ok_low B h x : held_ok B h -> 0 <= x < dstart -> not_held h x.
Proof using Type. intros H Hx b Hb. apply H in Hb. lia. Qed.
Lemma held_ok_free B h x : held_ok B h -> 0 <= x -> used B x = false -> not_held h x.
Proof using Type. intros H Hx Hu b Hb. apply H in Hb as [_ Hb]. rewrite Z2Nat.id in Hb by done. congruence. Qed.

Lemma size_sub (X Y : gset nat) n : X ⊆ Y -> (size Y <= n)%nat -> (size X <= n)%nat.
Proof using Type. intros H Hn. apply subseteq_size in H. lia. Qed.

Lemma size_union_le (X Y : gset nat) : (size (X ∪ Y) <= size X + size Y)%nat.
Proof using Type. rewrite size_union_alt. pose proof (subseteq_size (Y ∖ X) Y ltac:(set_solver)). lia. Qed.

Lemma wp_bzero s B h g l x Q :
  fs_is s B h g l -> Z.of_nat st_first <= x < Z.of_nat (length B) -> Z.of_nat (length B) < 2 ^ 31 -> not_held h x ->
  (size h <= 1)%nat -> (size ({[Z.to_nat x]} ∪ g) <= st_cap)%nat ->
  (forall s', fs_is s' (setblk x zeros B) h ({[Z.to_nat x]} ∪ g) l -> Q tt s') -> wp (bzero 1 x) s Q.
Proof using Type.
  intros H Hx Hm Hn Hh Hg HQ. unfold bzero. apply wp_bind.
  eapply (wp_bread _ _ _ _ _ x); [exact H|right; lia|lia|exact Hm|exact Hn|exact Hh|eapply size_sub; [|exact Hg]; set_solver|].
  intros s1 b Hb H1. eapply (wp_put_log _ _ _ _ _ b x); [exact H1|by rewrite lookup_insert_eq|lia|apply zeros_ok|exact Hg|].
  intros s2 H2. eapply wp_brelse; [exact H2|by rewrite lookup_insert_eq|].
  intros s3 H3. rewrite held_back in H3 by done. by apply HQ.
Qed.

Definition alloc_log (x : Z) (g : gset nat) : gset nat := {[Z.to_nat x]} ∪ ({[Z.to_nat (bblock x)]} ∪ g).

Lemma wp_balloc_loop k s B h g l c Q :
  fs_is s B h g l -> disk_ok B -> (size h <= 1)%nat -> held_ok B h -> (size (bmaps ∪ g) < st_cap)%nat ->
  0 <= c -> (exists y, c * BPB <= y < sb_size sb /\ used B y = false) -> sb_size sb - c * BPB <= Z.of_nat k * BPB ->
  (forall s' x B', allocated B x B' -> fs_is s' B' h (alloc_log x g) l -> Q x s') ->
  wp (balloc_loop k 1 (c * BPB)) s Q.
Proof using Type.
  assert (BPB = 4096) as EB by done.
  revert s c. induction k as [|k IH]; intros s c H Hd Hh Hho Hg Hc (y & Hy & Hfy) Hk HQ; [lia|].
  pose proof (dk_layout _ Hd) as Hl. pose proof (ly_size _ Hl) as Hsz. pose proof (ly_max _ Hl) as Hmax.
  cbn [balloc_loop]. apply wp_bind. eapply wp_getsb; [exact H|]. rewrite (proj2 (Z.ltb_lt _ _)) by lia.
  destruct (bblock_range _ (c * BPB) Hl) as (Hb1 & Hb2 & Hb3 & Hb4 & Hb5); [lia|].
  assert (bblock (c * BPB) = sb_bmapstart sb + c) as Ebb by (unfold bblock; rewrite Z.div_mul; lia).
  rewrite Hb2. pose proof (layout_pos _ Hl) as [Hp1 Hp2]. assert (0 <= dstart) by (unfold dstart; lia).
  apply wp_bind. eapply (wp_bread _ _ _ _ _ (bblock (c * BPB))).
  { exact H. } { by right. } { lia. } { lia. } { eapply held_ok_low; [exact Hho|lia]. } { exact Hh. }
  { eapply size_sub; [|apply Nat.lt_le_incl, Hg]. set_solver. }
  intros s1 bp Hbp H1. apply wp_bind. eapply wp_data; [exact H1|by rewrite lookup_insert_eq|].
  pose proof (find_free_spec (Z.to_nat BPB) (blk B (bblock (c * BPB))) (c * BPB) 0 (sb_size sb) ltac:(lia) ltac:(lia)) as Hf.
  destruct (find_free _ _ _ _ _) as [bi|].
  - destruct Hf as (Hbi & Hlt & Hbit). set (x := c * BPB + bi).
    assert (bblock x = bblock (c * BPB)) as Ebx.
    { unfold bblock, x. rewrite (Z.add_comm (c * BPB) bi), Z.div_add, Z.div_small, Z.div_mul by lia. done. }
    assert (x mod BPB = bi) as Emod by (unfold x; rewrite (Z.add_comm (c * BPB) bi), Z.mod_add, Z.mod_small by lia; done).
    assert (used B x = false) as Hfx by (unfold used; fold (bblock x); by rewrite Ebx, Emod).
    assert (allocated B x (setblk x zeros (setblk (bblock x) (set_bit (blk B (bblock x)) (x mod BPB)) B))) as Ha.
    { split; [|done|done]. unfold x. destruct (Z.lt_ge_cases x dstart) as [Hlow|]; [|unfold x in *; lia].
      rewrite (dk_meta _ Hd) in Hfx; [done|unfold x in *; lia]. }
    pose proof (al_range _ _ _ Ha) as Hxr.
    eapply (wp_put_log _ _ _ _ _ bp (bblock (c * BPB))); [exact H1|by rewrite lookup_insert_eq|lia| | |].
    { apply (set_bit_ok _ bi); [|done]. apply blocks_ok_blk; [apply Hd|lia]. }
    { eapply size_sub; [|apply Nat.lt_le_incl, Hg]. set_solver. }
    intros s2 H2. apply wp_bind. eapply wp_brelse; [exact H2|by rewrite lookup_insert_eq|].
    intros s3 H3. rewrite held_back in H3 by done. apply wp_bind. fold x.
    eapply (wp_bzero _ _ _ _ _ x); [exact H3| | | | | |].
    { rewrite length_setblk. unfold dstart in *. lia. } { by rewrite length_setblk. }
    { eapply held_ok_free; [exact Hho|unfold x; lia|done]. } { exact Hh. }
    { assert (size ({[Z.to_nat x]} ∪ (bmaps ∪ g)) <= st_cap)%nat as Hs.
      { etrans; [apply size_union_le|]. rewrite size_singleton. lia. }
      eapply size_sub; [|exact Hs]. set_solver. }
    intros s4 H4. apply wp_ret. apply (HQ _ _ _ Ha). unfold alloc_log. rewrite Ebx, Emod. exact H4.
  - apply wp_bind. eapply wp_brelse; [exact H1|by rewrite lookup_insert_eq|].
    intros s2 H2. rewrite held_back in H2 by done.
    replace (c * BPB + BPB) with ((c + 1) * BPB) by lia. apply IH; try done; [lia| |lia].
    exists y. split; [|done]. destruct (Z.lt_ge_cases y ((c + 1) * BPB)) as [Hlow|]; [|lia]. exfalso.
    assert (y / BPB = c) as Ey.
    { symmetry. apply (Z.div_unique_pos y BPB c (y - c * BPB)); lia. }
    assert (y mod BPB = y - c * BPB) as Em.
    { symmetry. apply (Z.mod_unique_pos y BPB c (y - c * BPB)); lia. }
    unfold used in Hfy. rewrite Ey, Em, <- Ebb in Hfy. rewrite Hf in Hfy; [done|lia|lia].
Qed.

Lemma wp_balloc s B h g l Q :
  fs_is s B h g l -> disk_ok B -> (size h <= 1)%nat -> held_ok B h -> (size (bmaps ∪ g) < st_cap)%nat -> free_ge B 1 ->
  (forall s' x B', allocated B x B' -> fs_is s' B' h (alloc_log x g) l -> Q x s') -> wp (balloc 1) s Q.
Proof using Type.
  intros H Hd Hh Hho Hg (fl & _ & Hk & Hf) HQ. destruct fl as [|y fl]; [done|].
  destruct (Hf y) as [Hy Hu]; [left|]. unfold balloc. apply wp_bind. eapply wp_getsb; [exact H|].
  eapply (wp_balloc_loop _ s B h g l 0); try done.
  - exists y. split; [lia|done].
  - rewrite Z2Nat.id; [|pose proof (layout_pos _ (dk_layout _ Hd)); lia].
    assert (BPB = 4096) as -> by done. Z.div_mod_to_equations. lia.
Qed.

Lemma wp_readsb s B h g l Q : fs_is s B h g l -> disk_ok B -> (size h <= 1)%nat -> held_ok B h -> (size g <= st_cap)%nat ->
  (forall s', fs_is s' B h g l -> Q sb s') -> wp (readsb 1) s Q.
Proof using Type.
  intros H Hd Hh Hho Hg HQ. pose proof (dk_layout _ Hd) as Hl. pose proof (layout_pos _ Hl) as [Hp1 Hp2].
  pose proof (ly_data _ Hl) as Hlyd. pose proof (ly_size _ Hl) as Hlys. pose proof (ly_max _ Hl) as Hlym. unfold dstart in *.
  unfold readsb. apply wp_bind. eapply (wp_bread _ _ _ _ _ 1); [exact H|by left|lia|lia| |exact Hh|exact Hg|].
  { eapply held_ok_low; [exact Hho|unfold dstart; lia]. }
  intros s1 b Hb H1. apply wp_bind. eapply (wp_data _ _ _ _ _ b 1); [exact H1|by rewrite lookup_insert_eq|].
  apply wp_bind. eapply wp_brelse; [exact H1|by rewrite lookup_insert_eq|].
  intros s2 H2. rewrite held_back in H2 by done. apply wp_ret. rewrite (dk_super _ Hd). by apply HQ.
Qed.

Definition freed (B : list bytes) (x : Z) : list bytes :=
  setblk (bblock x) (clear_bit (blk B (bblock x)) (x mod BPB)) B.

Lemma freed_used B x b : disk_ok B -> 0 <= x < sb_size sb -> 0 <= b < sb_size sb ->
  used (freed B x) b = used B b && negb (x =? b).
Proof using Type.
  intros Hd Hx Hb. pose proof (dk_layout _ Hd) as Hl. pose proof (layout_pos _ Hl) as [Hp1 Hp2].
  destruct (bblock_range _ b Hl Hb) as (Hb1 & _). destruct (bblock_range _ x Hl Hx) as (Hx1 & _ & _ & _ & Hx2).
  unfold used. fold (bblock b). unfold freed. pose proof (ly_size _ Hl) as Hlys.
  destruct (decide (bblock b = bblock x)) as [E|E].
  - rewrite E, blk_set_eq by lia. rewrite bit_clear.
    + f_equal. f_equal. destruct (Z.eqb_spec x b) as [->|Hne]; [apply Z.eqb_refl|]. apply Z.eqb_neq. intros E'.
      apply Hne. by apply bblock_mod.
    + apply blocks_ok_blk; [apply Hd|lia].
    + apply Z.mod_pos_bound. unfold BPB, BSIZE. lia.
    + apply Z.mod_pos_bound. unfold BPB, BSIZE. lia.
  - rewrite blk_set_ne by lia. destruct (Z.eqb_spec x b) as [->|]; [done|]. by rewrite andb_true_r.
Qed.

Lemma freed_ok B x : disk_ok B -> dstart <= x < sb_size sb -> disk_ok (freed B x).
Proof using Type.
  intros Hd Hx. pose proof (dk_layout _ Hd) as Hl. pose proof (layout_pos _ Hl) as [Hp1 Hp2].
  assert (0 <= dstart) by (unfold dstart; lia).
  destruct (bblock_range _ x Hl) as (Hx1 & _ & _ & _ & Hx2); [lia|]. pose proof (ly_size _ Hl) as Hlys. split.
  - unfold freed. by rewrite length_setblk.
  - apply blocks_ok_set; [apply Hd|]. apply clear_bit_ok; [|apply Z.mod_pos_bound; unfold BPB, BSIZE; lia].
    apply blocks_ok_blk; [apply Hd|lia].
  - unfold freed. rewrite blk_set_ne by lia. apply Hd.
  - intros b Hb. pose proof (ly_data _ Hl) as Hlyd. rewrite freed_used by (done || lia). rewrite (dk_meta _ Hd) by done.
    destruct (Z.eqb_spec x b); [lia|done].
Qed.

Lemma wp_bfree s B h g l x Q : fs_is s B h g l -> disk_ok B -> (size h <= 1)%nat -> held_ok B h ->
  (size ({[Z.to_nat (bblock x)]} ∪ g) <= st_cap)%nat -> dstart <= x < sb_size sb -> used B x = true ->
  (forall s', fs_is s' (freed B x) h ({[Z.to_nat (bblock x)]} ∪ g) l -> Q tt s') -> wp (bfree 1 x) s Q.
Proof using Type.
  intros H Hd Hh Hho Hg Hx Hu HQ. pose proof (dk_layout _ Hd) as Hl. pose proof (layout_pos _ Hl) as [Hp1 Hp2].
  assert (0 <= dstart) as Hds by (unfold dstart; lia). pose proof (ly_size _ Hl) as Hlys. pose proof (ly_max _ Hl) as Hlym.
  destruct (bblock_range _ x Hl) as (Hx1 & Hx2 & _ & Hx3 & Hx4); [lia|].
  assert (size g <= st_cap)%nat as Hg' by (eapply size_sub; [|exact Hg]; set_solver).
  unfold bfree. apply wp_bind. eapply wp_readsb; try done. intros s1 H1.
  apply wp_bind, wp_modify. assert (fs_is (put_sb sb s1) B h g l) as H1' by (destruct H1; by split).
  rewrite Hx2. apply wp_bind. eapply (wp_bread _ _ _ _ _ (bblock x)); [exact H1'|by right|lia|lia| |exact Hh|exact Hg'|].
  { eapply held_ok_low; [exact Hho|lia]. }
  intros s2 bp Hbp H2. apply wp_bind. eapply wp_data; [exact H2|by rewrite lookup_insert_eq|].
  change (bit (blk B (bblock x)) (x mod BPB)) with (used B x). rewrite Hu. cbn [negb].
  eapply (wp_put_log _ _ _ _ _ bp (bblock x)); [exact H2|by rewrite lookup_insert_eq|lia| |exact Hg|].
  { apply (clear_bit_ok _ (x mod BPB)); [apply blocks_ok_blk; [apply Hd|lia]|apply Z.mod_pos_bound; unfold BPB, BSIZE; lia]. }
  intros s3 H3. eapply wp_brelse; [exact H3|by rewrite lookup_insert_eq|].
  intros s4 H4. rewrite held_back in H4 by done. by apply HQ.
Qed.
End FsSpec.
