(* ===== verification/FsData.v ===== *)
(** * Inode content: the file a set of blocks represents

    The on-disk inode as bytes and back, bmap's map from file blocks to disk
    blocks, and what readi and writei do to the file's bytes. *)

From S2P Require Import Prelude Params Bytes Store CString Fs FsSpec.

(** ** The disk inode *)
Lemma get16_bytes d d' o : (forall p, (o <= p < o + 2)%nat -> get8 d' p = get8 d p) -> get16 d' o = get16 d o.
Proof. intros H. unfold get16. rewrite !H by lia. done. Qed.
Lemma get32_bytes d d' o : (forall p, (o <= p < o + 4)%nat -> get8 d' p = get8 d p) -> get32 d' o = get32 d o.
Proof. intros H. unfold get32. rewrite !H by lia. done. Qed.

Lemma put_addrs_spec o l d : (o + 4 * length l <= length d)%nat ->
  length (put_addrs o l d) = length d /\
  (forall p, (p < o \/ o + 4 * length l <= p)%nat -> get8 (put_addrs o l d) p = get8 d p) /\
  (forall k x, l !! k = Some x -> get32 (put_addrs o l d) (o + 4 * k) = u32 x).
Proof.
  revert o d. induction l as [|y l IH]; intros o d Hl; cbn [put_addrs length] in *; [done|].
  destruct (IH (o + 4)%nat (put32 o y d)) as (I1 & I2 & I3); [rewrite length_put32; lia|].
  split_and!.
  - by rewrite I1, length_put32 by lia.
  - intros p Hp. rewrite I2 by lia. apply get8_splice_out; cbn; lia.
  - intros [|k] x Hk; cbn in Hk.
    + injection Hk as ->. rewrite Nat.mul_0_r, Nat.add_0_r.
      rewrite (get32_bytes (put32 o x d)) by (intros p Hp; apply I2; lia). apply get32_put32. lia.
    + replace (o + 4 * S k)%nat with (o + 4 + 4 * k)%nat by lia. by apply I3.
Qed.

Lemma put16_bytes o v d p : (o + 2 <= length d)%nat -> (p < o \/ o + 2 <= p)%nat -> get8 (put16 o v d) p = get8 d p.
Proof. intros H Hp. apply get8_splice_out; cbn; lia. Qed.
Lemma put32_bytes o v d p : (o + 4 <= length d)%nat -> (p < o \/ o + 4 <= p)%nat -> get8 (put32 o v d) p = get8 d p.
Proof. intros H Hp. apply get8_splice_out; cbn; lia. Qed.

Lemma write_dinode_spec i o d : (o + DINODE <= length d)%nat -> length (i_addrs i) = 13%nat ->
  let d' := write_dinode i o d in
  length d' = length d /\
  (forall p, (p < o \/ o + DINODE <= p)%nat -> get8 d' p = get8 d p) /\
  get16 d' o = u16 (i_type i) /\ get16 d' (o + 2) = u16 (i_major i) /\ get16 d' (o + 4) = u16 (i_minor i) /\
  get16 d' (o + 6) = u16 (i_nlink i) /\ get32 d' (o + 8) = u32 (i_size i) /\
  (forall k x, i_addrs i !! k = Some x -> get32 d' (o + 12 + 4 * k) = u32 x).
Proof.
  cbn zeta. unfold DINODE, write_dinode. intros Hl Ha.
  set (d1 := put16 o (i_type i) d). set (d2 := put16 (o + 2) (i_major i) d1).
  set (d3 := put16 (o + 4) (i_minor i) d2). set (d4 := put16 (o + 6) (i_nlink i) d3).
  set (d5 := put32 (o + 8) (i_size i) d4).
  assert (length d1 = length d) as L1 by (apply length_put16; lia).
  assert (length d2 = length d) as L2 by (unfold d2; rewrite length_put16; lia).
  assert (length d3 = length d) as L3 by (unfold d3; rewrite length_put16; lia).
  assert (length d4 = length d) as L4 by (unfold d4; rewrite length_put16; lia).
  assert (length d5 = length d) as L5 by (unfold d5; rewrite length_put32; lia).
  destruct (put_addrs_spec (o + 12) (i_addrs i) d5) as (I1 & I2 & I3); [lia|]. rewrite Ha in I2.
  assert (forall p, (p < o + 12)%nat -> get8 (put_addrs (o + 12) (i_addrs i) d5) p = get8 d5 p) as J by (intros; apply I2; lia).
  split_and!.
  - lia.
  - intros p Hp. rewrite I2 by lia. unfold d5, d4, d3, d2, d1.
    rewrite put32_bytes by (fold d1 d2 d3 d4; lia). rewrite put16_bytes by (fold d1 d2 d3; lia).
    rewrite put16_bytes by (fold d1 d2; lia). rewrite put16_bytes by (fold d1; lia). apply put16_bytes; lia.
  - rewrite (get16_bytes d1); [apply get16_put16; lia|]. intros p Hp. rewrite J by lia. unfold d5, d4, d3, d2.
    rewrite put32_bytes by (fold d2 d3 d4; lia). rewrite !put16_bytes; [done|lia|lia|fold d2; lia|lia|fold d2 d3; lia|lia].
  - rewrite (get16_bytes d2); [apply get16_put16; lia|]. intros p Hp. rewrite J by lia. unfold d5, d4, d3.
    rewrite put32_bytes by (fold d3 d4; lia). rewrite !put16_bytes; [done|lia|lia|fold d3; lia|lia].
  - rewrite (get16_bytes d3); [apply get16_put16; lia|]. intros p Hp. rewrite J by lia. unfold d5, d4.
    rewrite put32_bytes by (fold d4; lia). rewrite put16_bytes; [done|lia|lia].
  - rewrite (get16_bytes d4); [apply get16_put16; lia|]. intros p Hp. rewrite J by lia. unfold d5.
    rewrite put32_bytes; [done|lia|lia].
  - rewrite (get32_bytes d5); [apply get32_put32; lia|]. intros p Hp. apply J. lia.
  - intros k x Hk. by apply I3.
Qed.

Lemma write_dinode_ok i o d : (o + DINODE <= Z.to_nat BSIZE)%nat -> length (i_addrs i) = 13%nat -> block_ok d -> block_ok (write_dinode i o d).
Proof.
  intros Ho Ha [Hl Hb]. destruct (write_dinode_spec i o d) as (E & _); [lia|done|]. split; [lia|]. clear E.
  assert (forall n l e, Forall byte_ok e -> Forall byte_ok (put_addrs n l e)) as Hp.
  { intros n l. revert n. induction l as [|y l IH]; intros n e He; [done|]. cbn. apply IH. by apply splice_ok; [apply le32_ok|]. }
  unfold write_dinode. apply Hp. apply splice_ok; [apply le32_ok|]. by repeat (apply splice_ok; [apply le16_ok|]).
Qed.

(** In-memory inodes have values of the C types. *)
Record inode_ok (i : inode) : Prop := mkIok {
  io_type : - 2 ^ 15 <= i_type i < 2 ^ 15;
  io_major : - 2 ^ 15 <= i_major i < 2 ^ 15;
  io_minor : - 2 ^ 15 <= i_minor i < 2 ^ 15;
  io_nlink : - 2 ^ 15 <= i_nlink i < 2 ^ 15;
  io_size : 0 <= i_size i < 2 ^ 32;
  io_len : length (i_addrs i) = 13%nat;
  io_addrs : Forall (fun x => 0 <= x < 2 ^ 32) (i_addrs i)
}.

Lemma s16_u16 x : - 2 ^ 15 <= x < 2 ^ 15 -> s16 (u16 x) = x.
Proof. intros H. wraps. Qed.

(** The disk inode determines the in-memory copy. *)
Lemma dinode_roundtrip i j o d : inode_ok i -> (o + DINODE <= length d)%nat ->
  read_dinode (write_dinode i o d) o j =
  mkInode (i_dev j) (i_inum j) (i_ref j) (i_flags j) (i_type i) (i_major i) (i_minor i) (i_nlink i) (i_size i) (i_addrs i).
Proof.
  intros [H1 H2 H3 H4 H5 H6 H7] Ho. destruct (write_dinode_spec i o d Ho H6) as (_ & _ & E1 & E2 & E3 & E4 & E5 & E6).
  unfold read_dinode. rewrite E1, E2, E3, E4, E5, !s16_u16, u32_small by done. f_equal.
  apply list_eq. intros k. rewrite list_lookup_fmap. destruct (i_addrs i !! k) as [x|] eqn:Ek.
  - rewrite lookup_seq_lt by (rewrite <- H6; by eapply lookup_lt_Some). rewrite Nat.add_0_l.
    change (Some (get32 (write_dinode i o d) (o + 12 + 4 * k)) = Some x). rewrite (E6 k x Ek). f_equal.
    apply u32_small. by apply (Forall_lookup_1 _ _ _ _ H7 Ek).
  - apply lookup_ge_None in Ek. rewrite lookup_seq_ge by lia. done.
Qed.

(** Writing one inode leaves the others of the block. *)
Lemma dinode_frame i j o p d : length (i_addrs i) = 13%nat -> (o + DINODE <= length d)%nat ->
  (p + DINODE <= o \/ o + DINODE <= p)%nat -> read_dinode (write_dinode i o d) p j = read_dinode d p j.
Proof.
  intros Ha Ho Hp. destruct (write_dinode_spec i o d Ho Ha) as (_ & E & _). unfold DINODE in *. unfold read_dinode. f_equal.
  1-4: f_equal; apply get16_bytes; intros; apply E; lia.
  - apply get32_bytes. intros. apply E. lia.
  - apply list_fmap_ext. intros k x Hk. apply lookup_seq in Hk as [-> Hk]. apply get32_bytes. intros. apply E. lia.
Qed.

(** ** The file behind an inode *)
Section FsData.
Context {S : Type} {St : BlockStore S} {Dims : BlockStoreDims S} {Laws : BlockStoreLaws S} (sb : superblock).

Abbreviation disk_ok := (disk_ok sb).
Abbreviation used := (used sb).
Abbreviation dstart := (dstart sb).
Abbreviation fs_is := (fs_is sb).

Definition ind (a : list Z) : Z := a !!! 12%nat.
(** The disk block of file block [bn], 0 when there is none *)
Definition fblk (B : list bytes) (a : list Z) (bn : Z) : Z :=
  if bn <? NDIRECT then a !!! Z.to_nat bn
  else if ind a =? 0 then 0 else get32 (blk B (ind a)) (4 * Z.to_nat (bn - NDIRECT)).
(** Its content; a missing block reads as zeros *)
Definition fcontent (B : list bytes) (a : list Z) (bn : Z) : bytes :=
  if fblk B a bn =? 0 then zeros else blk B (fblk B a bn).

Definition dblk (B : list bytes) (x : Z) : Prop := dstart <= x < sb_size sb /\ used B x = true.

Record file_ok (B : list bytes) (a : list Z) : Prop := mkFile {
  fo_len : length a = 13%nat;
  fo_ind : ind a = 0 \/ dblk B (ind a);
  fo_map : forall bn, 0 <= bn < MAXFILE -> fblk B a bn = 0 \/ dblk B (fblk B a bn);
  fo_inj : forall bn bm, 0 <= bn < MAXFILE -> 0 <= bm < MAXFILE -> fblk B a bn = fblk B a bm -> fblk B a bn <> 0 -> bn = bm;
  fo_ne : forall bn, 0 <= bn < MAXFILE -> fblk B a bn <> 0 -> fblk B a bn <> ind a
}.

(** Blocks were added to the file; nothing else that is allocated changed,
    and no byte of any file block did. *)
Record grown (B : list bytes) (a : list Z) (B' : list bytes) (a' : list Z) : Prop := mkGrown {
  gr_disk : disk_ok B';
  gr_file : file_ok B' a';
  gr_len : length B' = length B;
  gr_content : forall bn, 0 <= bn < MAXFILE -> fcontent B' a' bn = fcontent B a bn;
  gr_keep : forall bn, 0 <= bn < MAXFILE -> fblk B a bn <> 0 -> fblk B' a' bn = fblk B a bn;
  gr_ind : ind a <> 0 -> ind a' = ind a;
  gr_used : forall b, 0 <= b < sb_size sb -> used B b = true -> used B' b = true;
  gr_other : forall p, dblk B p -> p <> ind a' -> blk B' p = blk B p;
  gr_meta : forall p, 0 <= p < sb_bmapstart sb -> blk B' p = blk B p;
  gr_new : forall bn, 0 <= bn < MAXFILE -> fblk B' a' bn <> fblk B a bn -> used B (fblk B' a' bn) = false;
  gr_newi : ind a' <> ind a -> used B (ind a') = false
}.

Lemma disk_pos B : disk_ok B -> 0 < dstart /\ dstart <= sb_size sb /\ sb_size sb = Z.of_nat (length B) /\
  sb_size sb < 2 ^ 31 /\ sb_bmapstart sb < dstart /\ 1 < sb_inodestart sb < sb_bmapstart sb.
Proof using Type.
  intros [Hl _ _ _]. pose proof (layout_pos _ _ Hl) as [Hp1 Hp2]. unfold FsSpec.dstart.
  pose proof (ly_data _ _ Hl). pose proof (ly_size _ _ Hl). pose proof (ly_max _ _ Hl). unfold FsSpec.dstart in *. lia.
Qed.

Lemma dblk_pos B x : disk_ok B -> dblk B x -> 0 < x < Z.of_nat (length B) /\ x < 2 ^ 31.
Proof using Type. intros Hd [Hx _]. pose proof (disk_pos B Hd). lia. Qed.

Lemma unused_before B B' x : (forall b, 0 <= b < sb_size sb -> used B b = true -> used B' b = true) ->
  0 <= x < sb_size sb -> used B' x = false -> used B x = false.
Proof using Type. intros H Hx Hu. apply not_true_iff_false. intros E. apply H in E; [congruence|done]. Qed.
Lemma fblk_range B a bn : disk_ok B -> file_ok B a -> 0 <= bn < MAXFILE -> 0 <= fblk B a bn < sb_size sb.
Proof using Type. intros Hd Hf Hb. pose proof (disk_pos B Hd). destruct (fo_map _ _ Hf bn Hb) as [?|[? _]]; lia. Qed.
Lemma ind_range B a : disk_ok B -> file_ok B a -> 0 <= ind a < sb_size sb.
Proof using Type. intros Hd Hf. pose proof (disk_pos B Hd). destruct (fo_ind _ _ Hf) as [?|[? _]]; lia. Qed.

Lemma grown_refl B a : disk_ok B -> file_ok B a -> grown B a B a.
Proof using Type. intros H1 H2. by split. Qed.

Lemma grown_trans B a B1 a1 B2 a2 : grown B a B1 a1 -> grown B1 a1 B2 a2 -> grown B a B2 a2.
Proof using Type.
  intros G1 G2. pose proof (disk_pos _ (gr_disk _ _ _ _ G1)) as Hp1. split.
  - exact (gr_disk _ _ _ _ G2).
  - exact (gr_file _ _ _ _ G2).
  - rewrite (gr_len _ _ _ _ G2). exact (gr_len _ _ _ _ G1).
  - intros bn Hb. rewrite (gr_content _ _ _ _ G2) by done. by apply (gr_content _ _ _ _ G1).
  - intros bn Hb Hn. assert (fblk B1 a1 bn = fblk B a bn) as E by (by apply (gr_keep _ _ _ _ G1)).
    rewrite (gr_keep _ _ _ _ G2); [done|done|congruence].
  - intros Hn. assert (ind a1 = ind a) as E by (by apply (gr_ind _ _ _ _ G1)). rewrite (gr_ind _ _ _ _ G2); congruence.
  - intros b Hb Hu. apply (gr_used _ _ _ _ G2); [done|]. by apply (gr_used _ _ _ _ G1).
  - intros p Hp Hn. assert (dblk B1 p) as Hpb.
    { destruct Hp as [Hr Hu]. split; [done|]. apply (gr_used _ _ _ _ G1); [lia|done]. }
    rewrite (gr_other _ _ _ _ G2) by done. apply (gr_other _ _ _ _ G1); [done|]. intros ->.
    destruct (decide (ind a1 = 0)) as [E|E]; [destruct Hp; lia|].
    apply Hn. symmetry. by apply (gr_ind _ _ _ _ G2).
  - intros p Hp. rewrite (gr_meta _ _ _ _ G2) by done. by apply (gr_meta _ _ _ _ G1).
  - intros bn Hb Hne. destruct (decide (fblk B2 a2 bn = fblk B1 a1 bn)) as [E|E].
    + rewrite E. apply (gr_new _ _ _ _ G1); [done|congruence].
    + apply (unused_before B B1); [apply (gr_used _ _ _ _ G1)|apply fblk_range; (done || apply G2)|by apply (gr_new _ _ _ _ G2)].
  - intros Hne. destruct (decide (ind a2 = ind a1)) as [E|E].
    + rewrite E. apply (gr_newi _ _ _ _ G1). congruence.
    + apply (unused_before B B1); [apply (gr_used _ _ _ _ G1)|apply (ind_range B2); apply G2|by apply (gr_newi _ _ _ _ G2)].
Qed.

(** *** A freshly allocated block *)
Section alloc.
Context (B : list bytes) (x : Z) (B' : list bytes) (Hd : disk_ok B) (Ha : allocated sb B x B').

Lemma alloc_dblk_new : dblk B' x.
Proof using Hd Ha.
  pose proof (disk_pos B Hd). pose proof (al_range _ _ _ _ Ha). split; [done|].
  rewrite (allocated_used sb B x B') by (done || lia). rewrite Z.eqb_refl. apply orb_true_r.
Qed.
Lemma alloc_dblk p : dblk B p -> dblk B' p.
Proof using Hd Ha.
  intros [Hp Hu]. pose proof (disk_pos B Hd). split; [done|]. rewrite (allocated_used sb B x B') by (done || lia). by rewrite Hu.
Qed.
Lemma alloc_not_dblk p : dblk B p -> p <> x.
Proof using Ha. intros [_ Hu] ->. pose proof (al_free _ _ _ _ Ha). congruence. Qed.
Lemma alloc_bblock : sb_bmapstart sb <= bblock sb x < dstart.
Proof using Hd Ha.
  pose proof (disk_pos B Hd). pose proof (al_range _ _ _ _ Ha).
  apply (bblock_range sb (length B)); [apply Hd|lia].
Qed.
Lemma alloc_blk p : dblk B p -> blk B' p = blk B p.
Proof using Hd Ha.
  intros Hp. pose proof (disk_pos B Hd). pose proof alloc_bblock. pose proof (alloc_not_dblk p Hp).
  rewrite (allocated_blk sb B x B') by (done || (destruct Hp; lia)).
  rewrite !decide_False; [done|destruct Hp; lia|done].
Qed.
Lemma alloc_blk_new : blk B' x = zeros.
Proof using Hd Ha.
  pose proof (disk_pos B Hd). pose proof (al_range _ _ _ _ Ha).
  rewrite (allocated_blk sb B x B') by (done || lia). by rewrite decide_True.
Qed.
Lemma alloc_meta p : 0 <= p < sb_bmapstart sb -> blk B' p = blk B p.
Proof using Hd Ha.
  intros Hp. pose proof (disk_pos B Hd). pose proof (al_range _ _ _ _ Ha). pose proof alloc_bblock.
  rewrite (allocated_blk sb B x B') by (done || lia). rewrite !decide_False; [done|lia|lia].
Qed.
Lemma alloc_used b : 0 <= b < sb_size sb -> used B b = true -> used B' b = true.
Proof using Hd Ha. intros Hb Hu. rewrite (allocated_used sb B x B') by done. by rewrite Hu. Qed.
End alloc.

(** One block more in the map, zeroed and fresh *)
Lemma grown_add B a B' a' n x : disk_ok B -> file_ok B a -> disk_ok B' -> length B' = length B ->
  length a' = 13%nat -> ind a' = ind a -> 0 <= n < MAXFILE -> fblk B a n = 0 ->
  (forall bn, 0 <= bn < MAXFILE -> fblk B' a' bn = if bn =? n then x else fblk B a bn) ->
  dblk B' x -> (forall p, dblk B p -> p <> x) -> blk B' x = zeros ->
  (forall b, 0 <= b < sb_size sb -> used B b = true -> used B' b = true) ->
  (forall p, dblk B p -> p <> ind a -> blk B' p = blk B p) ->
  (forall p, 0 <= p < sb_bmapstart sb -> blk B' p = blk B p) -> grown B a B' a'.
Proof using Type.
  intros Hd Hf Hd' Hlen Ha Hi Hn Hn0 Hmap Hx Hfresh Hzero Hused Hother Hmeta.
  pose proof (disk_pos B Hd) as Hpos.
  assert (forall p, dblk B p -> dblk B' p) as Hdb by (intros p [H1 H2]; split; [done|apply Hused; [lia|done]]).
  assert (x <> 0) as Hx0 by (destruct Hx; lia).
  assert (forall bn, 0 <= bn < MAXFILE -> fblk B a bn <> x) as Hnx.
  { intros bn Hb E. destruct (fo_map _ _ Hf bn Hb) as [E0|Hdb']; [congruence|]. by apply (Hfresh _ Hdb'). }
  split; try done.
  - split.
    + done.
    + rewrite Hi. destruct (fo_ind _ _ Hf) as [?|?]; [by left|right; by apply Hdb].
    + intros bn Hb. rewrite Hmap by done. destruct (bn =? n); [by right|].
      destruct (fo_map _ _ Hf bn Hb) as [?|?]; [by left|right; by apply Hdb].
    + intros bn bm Hb Hm. rewrite !Hmap by done. destruct (Z.eqb_spec bn n), (Z.eqb_spec bm n); intros E Hne.
      * lia.
      * exfalso. by apply (Hnx bm Hm).
      * exfalso. by apply (Hnx bn Hb).
      * by apply (fo_inj _ _ Hf).
    + intros bn Hb. rewrite Hmap, Hi by done. destruct (bn =? n); intros Hne; [|by apply (fo_ne _ _ Hf)].
      intros E. destruct (fo_ind _ _ Hf) as [E0|Hdi]; [lia|]. apply (Hfresh _ Hdi). done.
  - intros bn Hb. unfold fcontent. rewrite Hmap by done. destruct (Z.eqb_spec bn n) as [->|Hne].
    + rewrite Hn0. cbn. rewrite (proj2 (Z.eqb_neq x 0) Hx0). exact Hzero.
    + destruct (Z.eqb_spec (fblk B a bn) 0) as [|E0]; [done|]. apply Hother.
      * by destruct (fo_map _ _ Hf bn Hb).
      * by apply (fo_ne _ _ Hf).
  - intros bn Hb Hne. rewrite Hmap by done. destruct (Z.eqb_spec bn n) as [->|]; [congruence|done].
  - intros p Hp. rewrite Hi. by apply Hother.
  - intros bn Hb. rewrite Hmap by done. destruct (bn =? n); [|done]. intros _. apply not_true_iff_false. intros Hu.
    by apply (Hfresh x); [split; [apply Hx|]|].
Qed.

Lemma fblk_alloc B x B' a bn : disk_ok B -> file_ok B a -> allocated sb B x B' -> fblk B' a bn = fblk B a bn.
Proof using Type.
  intros Hd Hf Ha. unfold fblk. destruct (bn <? NDIRECT); [done|]. destruct (Z.eqb_spec (ind a) 0) as [|Hi]; [done|].
  rewrite (alloc_blk B x B' Hd Ha); [done|]. by destruct (fo_ind _ _ Hf).
Qed.

Lemma ind_insert (a : list Z) n x : n <> 12%nat -> ind (<[n := x]> a) = ind a.
Proof using Type. intros H. unfold ind. by rewrite list_lookup_total_insert_ne. Qed.

Lemma fblk_direct B x B' a n : disk_ok B -> file_ok B a -> allocated sb B x B' -> 0 <= n < NDIRECT ->
  forall bn, 0 <= bn < MAXFILE -> fblk B' (<[Z.to_nat n := x]> a) bn = if bn =? n then x else fblk B a bn.
Proof using Type.
  intros Hd Hf Ha Hn bn Hb. assert (NDIRECT = 12) as EN by done. pose proof (fo_len _ _ Hf) as Hlen.
  rewrite <- (fblk_alloc B x B' a bn) by done. unfold fblk. rewrite ind_insert by lia.
  destruct (Z.ltb_spec bn NDIRECT) as [Hlt|Hge].
  - destruct (Z.eqb_spec bn n) as [->|Hne]; [apply list_lookup_total_insert_eq; lia|].
    apply list_lookup_total_insert_ne. lia.
  - destruct (Z.eqb_spec bn n); [lia|done].
Qed.
Lemma grown_direct B x B' a n : disk_ok B -> file_ok B a -> allocated sb B x B' -> 0 <= n < NDIRECT -> fblk B a n = 0 ->
  grown B a B' (<[Z.to_nat n := x]> a) /\ fblk B' (<[Z.to_nat n := x]> a) n = x.
Proof using Type.
  intros Hd Hf Ha Hn Hn0. assert (NDIRECT = 12) as EN by done. assert (MAXFILE = 140) as EM by done.
  pose proof (fo_len _ _ Hf) as Hlen.
  pose proof (fblk_direct B x B' a n Hd Hf Ha Hn) as Hmap.
  split; [|by rewrite Hmap, Z.eqb_refl by lia].
  eapply (grown_add B a B' _ n x); try done.
  - by eapply (allocated_ok sb B x).
  - by eapply allocated_length.
  - by rewrite length_insert.
  - apply ind_insert. lia.
  - lia.
  - by eapply alloc_dblk_new.
  - intros p. by eapply alloc_not_dblk.
  - by eapply alloc_blk_new.
  - intros b. by eapply alloc_used.
  - intros p Hp _. by eapply alloc_blk.
  - intros p. by eapply alloc_meta.
Qed.

Lemma get32_zeros o : (o + 4 <= Z.to_nat BSIZE)%nat -> get32 zeros o = 0.
Proof using Type.
  intros Ho. unfold get32, get8, zeros. rewrite !lookup_total_replicate_2 by lia. done.
Qed.

Lemma fblk_ind B x B' a : disk_ok B -> file_ok B a -> allocated sb B x B' -> ind a = 0 ->
  forall bn, 0 <= bn < MAXFILE -> fblk B' (<[12%nat := x]> a) bn = fblk B a bn.
Proof using Type.
  intros Hd Hf Ha Hi bn Hb. assert (NDIRECT = 12) as EN by done. assert (MAXFILE = 140) as EM by done.
  pose proof (fo_len _ _ Hf) as Hlen. pose proof (disk_pos B Hd) as Hpos. pose proof (al_range _ _ _ _ Ha) as Hx.
  assert (ind (<[12%nat := x]> a) = x) as Hi' by (apply list_lookup_total_insert_eq; lia).
  unfold fblk. rewrite Hi', Hi. destruct (Z.ltb_spec bn NDIRECT) as [Hlt|Hge].
  - apply list_lookup_total_insert_ne. lia.
  - cbn [Z.eqb]. rewrite (proj2 (Z.eqb_neq x 0)) by lia. rewrite (alloc_blk_new B x B' Hd Ha).
    apply get32_zeros. assert (Z.to_nat BSIZE = 512%nat) as -> by done. lia.
Qed.
Lemma grown_ind B x B' a : disk_ok B -> file_ok B a -> allocated sb B x B' -> ind a = 0 ->
  grown B a B' (<[12%nat := x]> a) /\ ind (<[12%nat := x]> a) = x.
Proof using Type.
  intros Hd Hf Ha Hi. assert (NDIRECT = 12) as EN by done. assert (MAXFILE = 140) as EM by done.
  pose proof (fo_len _ _ Hf) as Hlen. pose proof (disk_pos B Hd) as Hpos. pose proof (al_range _ _ _ _ Ha) as Hx.
  assert (ind (<[12%nat := x]> a) = x) as Hi' by (apply list_lookup_total_insert_eq; lia). split; [|done].
  pose proof (fblk_ind B x B' a Hd Hf Ha Hi) as Hmap.
  assert (forall bn, 0 <= bn < MAXFILE -> fblk B a bn <> x) as Hnx.
  { intros bn Hb E. destruct (fo_map _ _ Hf bn Hb) as [E0|Hdb']; [lia|]. by apply (alloc_not_dblk B x B' Ha _ Hdb'). }
  split.
  - by eapply (allocated_ok sb B x).
  - split.
    + by rewrite length_insert.
    + right. rewrite Hi'. by eapply alloc_dblk_new.
    + intros bn Hb. rewrite Hmap by done. destruct (fo_map _ _ Hf bn Hb); [by left|right; by eapply alloc_dblk].
    + intros bn bm Hb Hm. rewrite !Hmap by done. by apply (fo_inj _ _ Hf).
    + intros bn Hb _. rewrite Hmap, Hi' by done. by apply Hnx.
  - by eapply allocated_length.
  - intros bn Hb. unfold fcontent. rewrite Hmap by done. destruct (Z.eqb_spec (fblk B a bn) 0); [done|].
    eapply alloc_blk; [done|done|]. by destruct (fo_map _ _ Hf bn Hb).
  - intros bn Hb _. by apply Hmap.
  - congruence.
  - intros b. by eapply alloc_used.
  - intros p Hp _. by eapply alloc_blk.
  - intros p. by eapply alloc_meta.
  - intros bn Hb. rewrite Hmap by done. done.
  - intros _. rewrite Hi'. exact (al_free _ _ _ _ Ha).
Qed.

(** Changing a data or an inode block *)
Definition no_bitmap (p : Z) : Prop := sb_inodestart sb <= p < sb_bmapstart sb \/ dstart <= p < sb_size sb.
Lemma used_set B p d b : disk_ok B -> no_bitmap p -> 0 <= b < sb_size sb -> used (setblk p d B) b = used B b.
Proof using Type.
  intros Hd Hp Hb. pose proof (disk_pos B Hd). destruct (bblock_range sb _ b (dk_layout _ _ Hd) Hb) as (Hr & _).
  unfold FsSpec.used. fold (bblock sb b). unfold no_bitmap in Hp. by rewrite blk_set_ne by lia.
Qed.
Lemma disk_set B p d : disk_ok B -> no_bitmap p -> block_ok d -> disk_ok (setblk p d B).
Proof using Type.
  intros Hd Hp Hb. pose proof (disk_pos B Hd). split.
  - rewrite length_setblk. apply Hd.
  - apply blocks_ok_set; [apply Hd|done].
  - unfold no_bitmap in Hp. rewrite blk_set_ne by lia. apply Hd.
  - intros b Hbr. rewrite used_set by (done || lia). by apply (dk_meta _ _ Hd).
Qed.
Lemma used_set_data B p d b : disk_ok B -> dstart <= p < sb_size sb -> 0 <= b < sb_size sb -> used (setblk p d B) b = used B b.
Proof using Type. intros Hd Hp Hb. apply used_set; [done|by right|done]. Qed.
Lemma disk_set_data B p d : disk_ok B -> dstart <= p < sb_size sb -> block_ok d -> disk_ok (setblk p d B).
Proof using Type. intros Hd Hp Hb. apply disk_set; [done|by right|done]. Qed.

Lemma fblk_entry B x B' a n : disk_ok B -> file_ok B a -> allocated sb B x B' -> NDIRECT <= n < MAXFILE -> ind a <> 0 ->
  let B2 := setblk (ind a) (put32 (4 * Z.to_nat (n - NDIRECT)) x (blk B (ind a))) B' in
  forall bn, 0 <= bn < MAXFILE -> fblk B2 a bn = if bn =? n then x else fblk B a bn.
Proof using Type.
  intros Hd Hf Ha Hn Hi B2 bn Hb. assert (NDIRECT = 12) as EN by done. assert (MAXFILE = 140) as EM by done.
  assert (Z.to_nat BSIZE = 512%nat) as EB by done.
  pose proof (disk_pos B Hd) as Hpos. pose proof (al_range _ _ _ _ Ha) as Hx.
  assert (dblk B (ind a)) as Hdi by (by destruct (fo_ind _ _ Hf)). pose proof (dblk_pos B _ Hd Hdi) as Hip.
  assert (block_ok (blk B (ind a))) as Hbo by (apply blocks_ok_blk; [apply Hd|lia]).
  pose proof (allocated_length _ _ _ _ Ha) as Hlen. set (o := (4 * Z.to_nat (n - NDIRECT))%nat) in *.
  assert (o + 4 <= length (blk B (ind a)))%nat as Ho by (destruct Hbo as [-> _]; subst o; lia).
  assert (blk B2 (ind a) = put32 o x (blk B (ind a))) as Hbi by (apply blk_set_eq; rewrite Hlen; lia).
  unfold fblk. destruct (Z.ltb_spec bn NDIRECT) as [Hlt|Hge].
  - destruct (Z.eqb_spec bn n); [lia|done].
  - rewrite (proj2 (Z.eqb_neq _ _) Hi), Hbi. destruct (Z.eqb_spec bn n) as [->|Hne].
    + rewrite get32_put32 by done. apply u32_small. lia.
    + apply get32_splice_out; cbn [length le32]; subst o; lia.
Qed.
Lemma grown_entry B x B' a n : disk_ok B -> file_ok B a -> allocated sb B x B' -> NDIRECT <= n < MAXFILE -> ind a <> 0 ->
  fblk B a n = 0 ->
  let B2 := setblk (ind a) (put32 (4 * Z.to_nat (n - NDIRECT)) x (blk B (ind a))) B' in
  grown B a B2 a /\ fblk B2 a n = x.
Proof using Type.
  intros Hd Hf Ha Hn Hi Hn0 B2. assert (NDIRECT = 12) as EN by done. assert (MAXFILE = 140) as EM by done.
  assert (Z.to_nat BSIZE = 512%nat) as EB by done.
  pose proof (disk_pos B Hd) as Hpos. pose proof (al_range _ _ _ _ Ha) as Hx.
  assert (dblk B (ind a)) as Hdi by (by destruct (fo_ind _ _ Hf)).
  pose proof (dblk_pos B _ Hd Hdi) as Hip. pose proof (alloc_not_dblk B x B' Ha _ Hdi) as Hix.
  assert (block_ok (blk B (ind a))) as Hbo by (apply blocks_ok_blk; [apply Hd|lia]).
  pose proof (allocated_length _ _ _ _ Ha) as Hlen. pose proof (allocated_ok sb B x B' Hd Ha) as Hd'.
  assert (4 * Z.to_nat (n - NDIRECT) + 4 <= length (blk B (ind a)))%nat as Ho by (destruct Hbo as [-> _]; lia).
  pose proof (fblk_entry B x B' a n Hd Hf Ha Hn Hi) as Hmap. cbv zeta in Hmap. fold B2 in Hmap.
  assert (dstart <= ind a < sb_size sb) as Hir by apply Hdi.
  split; [|by rewrite Hmap, Z.eqb_refl by lia].
  apply (grown_add B a B2 a n x); try done.
  - apply disk_set_data; [done|done|]. destruct Hbo as [Hl Hb]. split; [by rewrite length_put32|].
    apply splice_ok; [apply le32_ok|done].
  - subst B2. rewrite length_setblk. done.
  - apply Hf.
  - lia.
  - destruct (alloc_dblk_new B x B' Hd Ha) as [H1 H2]. split; [done|]. subst B2. rewrite used_set_data; [done|done|done|lia].
  - intros p. by eapply alloc_not_dblk.
  - subst B2. rewrite blk_set_ne by lia. exact (alloc_blk_new B x B' Hd Ha).
  - intros b Hb Hu. subst B2. rewrite used_set_data by done. by apply (alloc_used B x B' Hd Ha).
  - intros p Hp Hne. subst B2. pose proof (dblk_pos B p Hd Hp). rewrite blk_set_ne by (lia || congruence). by apply (alloc_blk B x B' Hd Ha).
  - intros p Hp. subst B2. rewrite blk_set_ne by lia. by apply (alloc_meta B x B' Hd Ha).
Qed.

(** ** Capacity: how much a growing file can still log and allocate *)
Definition no_ind (a : list Z) : nat := if ind a =? 0 then 1 else 0.
Definition indset (a : list Z) : gset nat := if ind a =? 0 then ∅ else {[Z.to_nat (ind a)]}.
Definition pot (a : list Z) (g : gset nat) : nat := (size (bmaps sb ∪ indset a ∪ g) + no_ind a)%nat.

Lemma filter_ne_id (x : Z) (l : list Z) : (x ∉ l) -> filter (fun y => y <> x) l = l.
Proof using Type.
  induction l as [|z l IH]; intros Hl; [done|]. rewrite not_elem_of_cons in Hl.
  rewrite filter_cons_True by (intros ->; tauto). by rewrite IH by tauto.
Qed.

Lemma free_alloc B x B' k : disk_ok B -> allocated sb B x B' -> free_ge sb B (Datatypes.S k) -> free_ge sb B' k.
Proof using Type.
  intros Hd Ha (fl & Hn & Hk & Hf).
  assert (exists fl', NoDup fl' /\ (k <= length fl')%nat /\ forall y, y ∈ fl' -> y ∈ fl /\ y <> x) as (fl' & Hn' & Hk' & Hf').
  { exists (filter (fun y => y <> x) fl). split_and!; [by apply NoDup_filter| |].
    - destruct (decide (x ∈ fl)) as [Hin|Hin].
      + apply list_elem_of_split in Hin as (l1 & l2 & ->). rewrite filter_app, filter_cons_False by tauto.
        apply NoDup_app in Hn as (_ & Hdis & Hn2). apply NoDup_cons in Hn2 as [Hx2 _].
        rewrite !filter_ne_id; [|done|intros Hx1; apply (Hdis x Hx1); left].
        rewrite length_app in *. cbn in Hk. lia.
      + rewrite filter_ne_id by done. lia.
    - intros y Hy. apply list_elem_of_filter in Hy. tauto. }
  eapply free_ge_mono; [|exact Hk']. exists fl'. split_and!; [done|done|].
  intros y Hy. destruct (Hf' y Hy) as [Hy1 Hy2]. destruct (Hf y Hy1) as [Hr Hu]. split; [done|].
  rewrite (allocated_used sb B x B') by done. rewrite Hu. destruct (Z.eqb_spec x y); [congruence|done].
Qed.

Lemma free_set_data B p d k : disk_ok B -> dstart <= p < sb_size sb -> free_ge sb B k -> free_ge sb (setblk p d B) k.
Proof using Type.
  intros Hd Hp (fl & Hn & Hk & Hf). exists fl. split_and!; [done|done|]. intros y Hy. destruct (Hf y Hy) as [Hr Hu].
  split; [done|]. by rewrite used_set_data.
Qed.

(** The blocks a bmap can add to the transaction. *)
Lemma pot_le a g a' g' (X : gset nat) n : bmaps sb ∪ indset a' ∪ g' ⊆ bmaps sb ∪ indset a ∪ g ∪ X ->
  (size X + no_ind a' <= n + no_ind a)%nat -> (pot a' g' <= pot a g + n)%nat.
Proof using Type.
  intros Hs Hn. unfold pot. apply subseteq_size in Hs. pose proof (size_union_le (bmaps sb ∪ indset a ∪ g) X). lia.
Qed.

Lemma bblock_bmaps B x B' : disk_ok B -> allocated sb B x B' -> Z.to_nat (bblock sb x) ∈ bmaps sb.
Proof using Type.
  intros Hd Ha. pose proof (disk_pos B Hd). pose proof (al_range _ _ _ _ Ha).
  apply (bblock_range sb (length B)); [apply Hd|lia].
Qed.

(** ** bmap *)
Definition with_addrs (a : list Z) (i : inode) : inode :=
  mkInode (i_dev i) (i_inum i) (i_ref i) (i_flags i) (i_type i) (i_major i) (i_minor i) (i_nlink i) (i_size i) a.
Lemma with_addrs_id i : with_addrs (i_addrs i) i = i.
Proof using Type. by destruct i. Qed.

Lemma alter_insert {A} (f : A -> A) k (l : list A) x : l !! k = Some x -> alter f k l = <[k := f x]> l.
Proof using Type.
  intros H. apply list_eq. intros j. destruct (decide (j = k)) as [->|Hj].
  - rewrite list_lookup_alter_eq, list_lookup_insert_eq, H by (by eapply lookup_lt_Some). done.
  - by rewrite list_lookup_alter_ne, list_lookup_insert_ne.
Qed.

Lemma wp_modi_at s B h g l ip i f Q : fs_is s B h g l -> l !! ip = Some i ->
  (forall s', fs_is s' B h g (<[ip := f i]> l) -> Q tt s') -> wp (modi ip f) s Q.
Proof using Type. intros H Hi HQ. eapply wp_modi; [exact H|]. intros s' H'. apply HQ. by rewrite (alter_insert _ _ _ _ Hi) in H'. Qed.
Lemma wp_geti_at s B h g l ip i Q : fs_is s B h g l -> l !! ip = Some i -> Q i s -> wp (geti ip) s Q.
Proof using Type. intros H Hi HQ. eapply wp_geti; [exact H|]. by rewrite (list_lookup_total_correct _ _ _ Hi). Qed.

Lemma held_ok_empty B : held_ok sb B ∅.
Proof using Type. intros b n H. by rewrite lookup_empty in H. Qed.
Lemma not_held_empty x : not_held ∅ x.
Proof using Type. intros b H. by rewrite lookup_empty in H. Qed.

Lemma size_in_pot a g n : (pot a g <= n)%nat -> (size g <= n)%nat /\ (size (bmaps sb ∪ g) <= n)%nat.
Proof using Type.
  unfold pot. intros H. pose proof (subseteq_size g (bmaps sb ∪ indset a ∪ g) ltac:(set_solver)).
  pose proof (subseteq_size (bmaps sb ∪ g) (bmaps sb ∪ indset a ∪ g) ltac:(set_solver)). lia.
Qed.

(** What bmap leaves: the block, and room for logging it. *)
Record mapped (B : list bytes) (a : list Z) (g : gset nat) (bn x : Z) (B' : list bytes) (a' : list Z) (g' : gset nat) : Prop := mkMapped {
  mp_grown : grown B a B' a';
  mp_blk : fblk B' a' bn = x;
  mp_nz : x <> 0;
  mp_pot : (pot a' ({[Z.to_nat x]} ∪ g') <= pot a g + 1)%nat;
  mp_cap : (size g' <= st_cap)%nat;
  mp_free : forall k, free_ge sb B (1 + no_ind a + k) -> free_ge sb B' (no_ind a' + k);
  mp_same : fblk B a bn <> 0 -> a' = a
}.

Lemma no_ind_0 a : ind a <> 0 -> no_ind a = 0%nat /\ indset a = {[Z.to_nat (ind a)]}.
Proof using Type. intros H. unfold no_ind, indset. by rewrite (proj2 (Z.eqb_neq _ _) H). Qed.
Lemma no_ind_1 a : ind a = 0 -> no_ind a = 1%nat /\ indset a = ∅.
Proof using Type. intros H. unfold no_ind, indset. by rewrite H. Qed.

Lemma mapped_here B a g bn : disk_ok B -> file_ok B a -> fblk B a bn <> 0 -> (pot a g < st_cap)%nat ->
  mapped B a g bn (fblk B a bn) B a g.
Proof using Type.
  intros Hd Hf Hn Hp. split; [by apply grown_refl|done|done| | | |done].
  - apply (pot_le _ _ _ _ {[Z.to_nat (fblk B a bn)]}); [set_solver|]. rewrite size_singleton. lia.
  - apply (size_in_pot a g st_cap). lia.
  - intros k Hk. eapply free_ge_mono; [exact Hk|lia].
Qed.

Lemma wp_bmap_entry s B g l dev bn a Q :
  fs_is s B ∅ g l -> dev = 1 -> disk_ok B -> file_ok B a -> NDIRECT <= bn < MAXFILE -> ind a <> 0 ->
  (pot a g < st_cap)%nat -> free_ge sb B 1 ->
  (forall s' x B' g', mapped B a g bn x B' a g' -> fs_is s' B' ∅ g' l -> Q x s') ->
  wp (bp ← bread dev (ind a);
      d ← data bp;
      let o := (4 * Z.to_nat (bn - NDIRECT))%nat in
      addr ← (if get32 d o =? 0 then
                addr ← balloc dev;
                put_data bp (put32 o addr d);;
                log_write bp;;
                mret addr
              else mret (get32 d o));
      brelse bp;;
      mret addr) s Q.
Proof using Type.
  intros H -> Hd Hf Hbn Hi Hpot Hfree HQ. pose proof (disk_pos B Hd) as Hpos.
  assert (NDIRECT = 12) as EN by done. assert (MAXFILE = 140) as EM by done. assert (Z.to_nat BSIZE = 512%nat) as EB by done.
  assert (dblk B (ind a)) as Hdi by (by destruct (fo_ind _ _ Hf)). pose proof (dblk_pos B _ Hd Hdi) as Hip.
  assert (block_ok (blk B (ind a))) as Hbo by (apply blocks_ok_blk; [apply Hd|lia]).
  destruct (no_ind_0 a Hi) as [Hn0 Hset].
  destruct (size_in_pot a g st_cap) as [Hg _]; [lia|].
  assert (get32 (blk B (ind a)) (4 * Z.to_nat (bn - NDIRECT)) = fblk B a bn) as Efb.
  { unfold fblk. rewrite (proj2 (Z.ltb_ge _ _)) by lia. by rewrite (proj2 (Z.eqb_neq _ _) Hi). }
  apply wp_bind. eapply (wp_bread sb _ _ _ _ _ (ind a)); [exact H|right|lia|lia|apply not_held_empty|rewrite map_size_empty; lia|exact Hg|].
  { pose proof (ly_first _ _ (dk_layout _ _ Hd)). destruct Hdi. lia. }
  intros s1 bp _ H1. apply wp_bind. eapply wp_data; [exact H1|by rewrite lookup_insert_eq|]. cbn zeta. rewrite Efb.
  destruct (Z.eqb_spec (fblk B a bn) 0) as [E0|E0].
  - apply wp_bind. apply wp_bind. eapply (wp_balloc sb); [exact H1|exact Hd| | | |exact Hfree|].
    { rewrite map_size_insert_None, map_size_empty by done. lia. }
    { intros c n. rewrite lookup_insert_Some, lookup_empty. intros [[_ <-]|[_ ?]]; [|done]. rewrite Z2Nat.id by lia. exact Hdi. }
    { destruct (size_in_pot a g (pot a g)); lia. }
    intros s2 x B' Ha H2. destruct (grown_entry B x B' a bn Hd Hf Ha Hbn Hi E0) as [Hgr Hx].
    pose proof (alloc_not_dblk B x B' Ha _ Hdi) as Hix.
    pose proof (bblock_bmaps B x B' Hd Ha) as Hbb. pose proof (al_range _ _ _ _ Ha) as Hxr.
    assert (pot a ({[Z.to_nat (ind a)]} ∪ alloc_log sb x g) <= pot a g + 1)%nat as Hp'.
    { apply (pot_le _ _ _ _ {[Z.to_nat x]}); [unfold alloc_log; rewrite Hset; set_solver|]. rewrite size_singleton. lia. }
    eapply (wp_put_log sb _ _ _ _ _ bp (ind a)); [exact H2|by rewrite lookup_insert_eq| | | |].
    { pose proof (ly_first _ _ (dk_layout _ _ Hd)). destruct Hdi. lia. }
    { destruct Hbo as [Hl Hb]. split; [rewrite length_put32; lia|apply splice_ok; [apply le32_ok|done]]. }
    { destruct (size_in_pot a ({[Z.to_nat (ind a)]} ∪ alloc_log sb x g) (pot a g + 1)); lia. }
    intros s3 H3. apply wp_ret. apply wp_bind. eapply wp_brelse; [exact H3|by rewrite lookup_insert_eq|].
    intros s4 H4. rewrite held_back in H4 by apply lookup_empty. apply wp_ret.
    eapply (HQ _ _ _ ({[Z.to_nat (ind a)]} ∪ alloc_log sb x g)); [|exact H4]. split; [exact Hgr|exact Hx|lia| | | |done].
    + apply (pot_le _ _ _ _ {[Z.to_nat x]}); [unfold alloc_log; rewrite Hset; set_solver|]. rewrite size_singleton. lia.
    + destruct (size_in_pot a ({[Z.to_nat (ind a)]} ∪ alloc_log sb x g) (pot a g + 1)); lia.
    + intros k Hk. rewrite Hn0 in *. apply free_set_data; [by eapply allocated_ok|apply Hdi|]. by eapply free_alloc.
  - apply wp_bind. apply wp_ret. apply wp_bind. eapply wp_brelse; [exact H1|by rewrite lookup_insert_eq|].
    intros s2 H2. rewrite held_back in H2 by apply lookup_empty. apply wp_ret.
    eapply HQ; [|exact H2]. by apply mapped_here.
Qed.

Lemma insert_same (l : list inode) (ip : nat) (i : inode) : l !! ip = Some i -> <[ip := with_addrs (i_addrs i) i]> l = l.
Proof using Type. intros H. rewrite with_addrs_id. by apply list_insert_id. Qed.

Lemma wp_bmap s B g l ip i bn Q :
  fs_is s B ∅ g l -> l !! ip = Some i -> i_dev i = 1 -> disk_ok B -> file_ok B (i_addrs i) -> 0 <= bn < MAXFILE ->
  (pot (i_addrs i) g < st_cap)%nat -> free_ge sb B (1 + no_ind (i_addrs i)) ->
  (forall s' x B' a' g', mapped B (i_addrs i) g bn x B' a' g' -> fs_is s' B' ∅ g' (<[ip := with_addrs a' i]> l) -> Q x s') ->
  wp (bmap ip bn) s Q.
Proof using Type.
  intros H Hip Hdev Hd Hf Hbn Hpot Hfree HQ. set (a := i_addrs i) in *.
  assert (NDIRECT = 12) as EN by done. assert (MAXFILE = 140) as EM by done. assert (NINDIRECT = 128) as EI by done.
  destruct (size_in_pot a g (pot a g)) as [Hg1 Hg2]; [lia|].
  assert (ip < length l)%nat as Hlt by (by eapply lookup_lt_Some).
  unfold bmap. apply wp_bind. eapply wp_geti_at; [exact H|exact Hip|]. rewrite Hdev. fold a.
  destruct (Z.ltb_spec bn NDIRECT) as [Hdir|Hind].
  - assert (a !!! Z.to_nat bn = fblk B a bn) as Efb by (unfold fblk; by rewrite (proj2 (Z.ltb_lt _ _) Hdir)).
    rewrite Efb. destruct (Z.eqb_spec (fblk B a bn) 0) as [E0|E0].
    + apply wp_bind. eapply (wp_balloc sb); [exact H|exact Hd|rewrite map_size_empty; lia|apply held_ok_empty|lia| |].
      { eapply free_ge_mono; [exact Hfree|lia]. }
      intros s1 x B' Ha H1. apply wp_bind. eapply wp_modi_at; [exact H1|exact Hip|]. intros s2 H2. apply wp_ret.
      destruct (grown_direct B x B' a bn Hd Hf Ha ltac:(lia) E0) as [Hgr Hx].
      pose proof (bblock_bmaps B x B' Hd Ha) as Hbb. pose proof (al_range _ _ _ _ Ha) as Hxr. pose proof (disk_pos B Hd) as Hpos.
      assert (ind (<[Z.to_nat bn := x]> a) = ind a) as Ei by (apply ind_insert; lia).
      assert (indset (<[Z.to_nat bn := x]> a) = indset a /\ no_ind (<[Z.to_nat bn := x]> a) = no_ind a) as [Es En].
      { unfold indset, no_ind. by rewrite Ei. }
      eapply (HQ _ _ _ (<[Z.to_nat bn := x]> a)); [|exact H2].
      assert (pot (<[Z.to_nat bn := x]> a) ({[Z.to_nat x]} ∪ alloc_log sb x g) <= pot a g + 1)%nat as Hp.
      { apply (pot_le _ _ _ _ {[Z.to_nat x]}); [unfold alloc_log; rewrite Es; set_solver|]. rewrite size_singleton. lia. }
      split; [exact Hgr|exact Hx|lia|exact Hp| | |done].
      * destruct (size_in_pot _ _ _ Hp) as [Hs _]. pose proof (subseteq_size (alloc_log sb x g) ({[Z.to_nat x]} ∪ alloc_log sb x g) ltac:(set_solver)). lia.
      * intros k Hk. rewrite En. by eapply free_alloc.
    + apply wp_ret. eapply (HQ _ _ B a g); [by apply mapped_here|]. unfold a. by rewrite insert_same.
  - rewrite (proj2 (Z.ltb_lt _ _)) by lia. fold (ind a). apply wp_bind.
    change (a !!! Z.to_nat NDIRECT) with (ind a). destruct (Z.eqb_spec (ind a) 0) as [E0|E0].
    + destruct (no_ind_1 a E0) as [En Es]. apply wp_bind.
      eapply (wp_balloc sb); [exact H|exact Hd|rewrite map_size_empty; lia|apply held_ok_empty|lia| |].
      { eapply free_ge_mono; [exact Hfree|lia]. }
      intros s1 y B1 Ha H1. apply wp_bind. eapply wp_modi_at; [exact H1|exact Hip|]. intros s2 H2. apply wp_ret.
      destruct (grown_ind B y B1 a Hd Hf Ha E0) as [Hgr Hy].
      pose proof (bblock_bmaps B y B1 Hd Ha) as Hbb. pose proof (al_range _ _ _ _ Ha) as Hyr. pose proof (disk_pos B Hd) as Hpos.
      set (a1 := <[12%nat := y]> a) in *. destruct (no_ind_0 a1) as [En1 Es1]; [lia|].
      assert (pot a1 (alloc_log sb y g) <= pot a g + 0)%nat as Hp1.
      { apply (pot_le _ _ _ _ {[Z.to_nat y]}); [unfold alloc_log; rewrite Es1, Hy; set_solver|]. rewrite size_singleton. lia. }
      rewrite <- Hy. eapply (wp_bmap_entry s2 B1 (alloc_log sb y g)); [exact H2|done|apply Hgr|apply Hgr|lia|lia|lia| |].
      { eapply free_alloc; [exact Hd|exact Ha|]. by rewrite En in Hfree. }
      intros s3 x B2 g2 Hm H3. eapply (HQ _ _ B2 a1 g2); [|exact H3]. destruct Hm as [M1 M2 M3 M4 M5 M6 M7]. split; try done.
      * by eapply grown_trans.
      * lia.
      * intros k Hk. apply M6. rewrite En1. eapply free_alloc; [exact Hd|exact Ha|]. rewrite En in Hk. exact Hk.
      * intros Hne. exfalso. apply Hne. unfold fblk. rewrite (proj2 (Z.ltb_ge _ _)) by lia. by rewrite E0.
    + apply wp_ret. destruct (no_ind_0 a E0) as [En Es].
      eapply (wp_bmap_entry s B g); [exact H|done|exact Hd|exact Hf|lia|done|done| |].
      { eapply free_ge_mono; [exact Hfree|lia]. }
      intros s1 x B' g' Hm H1. eapply (HQ _ _ B' a g'); [exact Hm|]. unfold a. by rewrite insert_same.
Qed.
End FsData.
