(* ===== verification/FsFile.v ===== *)
(** * Reading and writing files: readi and writei

    A file is the bytes of its blocks in order; readi returns a segment of
    them and writei replaces one, growing the file as needed, and neither
    touches a block of any other file. *)

From S2P Require Import Prelude Params Bytes Store CString Fs FsSpec FsData.

Lemma BSIZE_512 : BSIZE = 512. Proof. done. Qed.

Lemma same_block off k : 0 <= k < BSIZE - off mod BSIZE ->
  (off + k) / BSIZE = off / BSIZE /\ (off + k) mod BSIZE = off mod BSIZE + k.
Proof.
  rewrite BSIZE_512. intros H. assert (off + k = off / 512 * 512 + (off mod 512 + k)) as E by (Z.div_mod_to_equations; lia).
  pose proof (Z.mod_pos_bound off 512 ltac:(lia)). rewrite E. split.
  - rewrite Z.add_comm, Z.div_add by lia. rewrite Z.div_small by lia. lia.
  - rewrite Z.add_comm, Z.mod_add by lia. apply Z.mod_small. lia.
Qed.

(** Blocks touched by [r] bytes at [off] *)
Definition nch (off r : Z) : nat := if r <=? 0 then 0%nat else Z.to_nat ((off + r - 1) / BSIZE - off / BSIZE + 1).

Lemma nch_step off r m : 0 <= off -> 0 < r -> m = Z.min r (BSIZE - off mod BSIZE) -> nch off r = S (nch (off + m) (r - m)).
Proof.
  rewrite BSIZE_512. intros Ho Hr ->. unfold nch. rewrite BSIZE_512. pose proof (Z.mod_pos_bound off 512 ltac:(lia)) as Hmod.
  assert (off = 512 * (off / 512) + off mod 512) as Eo by (apply Z.div_mod; lia).
  set (q := off / 512) in *. set (o := off mod 512) in *.
  rewrite (proj2 (Z.leb_gt _ _)) by lia. destruct (Z.leb_spec (r - Z.min r (512 - o)) 0) as [Hle|Hgt].
  - assert ((off + r - 1) / 512 = q) as ->; [|lia].
    symmetry. apply (Z.div_unique_pos _ 512 q (o + r - 1)); lia.
  - replace (Z.min r (512 - o)) with (512 - o) by lia.
    replace (off + (512 - o) + (r - (512 - o)) - 1) with (off + r - 1) by lia.
    assert ((off + (512 - o)) / 512 = q + 1) as ->.
    { symmetry. apply (Z.div_unique_pos _ 512 (q + 1) 0); lia. }
    assert (q + 1 <= (off + r - 1) / 512) by (apply Z.div_le_lower_bound; lia). lia.
Qed.

Section FsFile.
Context {S : Type} {St : BlockStore S} {Dims : BlockStoreDims S} {Laws : BlockStoreLaws S} (sb : superblock).
Context (devsw_read : Z -> option (nat -> Z -> kernel (fsys S) (Z * bytes)))
        (devsw_write : Z -> option (nat -> bytes -> Z -> kernel (fsys S) Z)).

Abbreviation disk_ok := (disk_ok sb).
Abbreviation used := (used sb).
Abbreviation dstart := (dstart sb).
Abbreviation fs_is := (fs_is sb).
Abbreviation dblk := (dblk sb).
Abbreviation file_ok := (file_ok sb).
Abbreviation grown := (grown sb).
Abbreviation pot := (pot sb).
Abbreviation readi := (Fs.readi devsw_read).
Abbreviation writei := (Fs.writei devsw_write).

(** Byte [off] of the file *)
Definition fbyte (B : list bytes) (a : list Z) (off : Z) : Z :=
  fcontent B a (off / BSIZE) !!! Z.to_nat (off mod BSIZE).
Definition fbytes (B : list bytes) (a : list Z) (off : Z) (n : nat) : bytes :=
  (fun k => fbyte B a (off + Z.of_nat k)) <$> seq 0 n.

Lemma length_fbytes B a off n : length (fbytes B a off n) = n.
Proof using Type. unfold fbytes. by rewrite length_fmap, length_seq. Qed.
Lemma fbytes_lookup B a off n k : (k < n)%nat -> fbytes B a off n !! k = Some (fbyte B a (off + Z.of_nat k)).
Proof using Type. intros H. unfold fbytes. rewrite list_lookup_fmap, lookup_seq_lt by done. done. Qed.
Lemma fbytes_app B a off n m : fbytes B a off (n + m) = fbytes B a off n ++ fbytes B a (off + Z.of_nat n) m.
Proof using Type.
  unfold fbytes. rewrite seq_app, fmap_app. f_equal.
  replace (seq (0 + n) m) with (Nat.add n <$> seq 0 m) by (rewrite fmap_add_seq; f_equal; lia). rewrite <- list_fmap_compose.
  apply list_fmap_ext. intros k x _. cbn. f_equal. lia.
Qed.

Lemma fcontent_ok B a bn : disk_ok B -> file_ok B a -> 0 <= bn < MAXFILE -> block_ok (fcontent B a bn).
Proof using Type.
  intros Hd Hf Hb. unfold fcontent. destruct (Z.eqb_spec (fblk B a bn) 0) as [|E]; [apply zeros_ok|].
  apply blocks_ok_blk; [apply Hd|]. destruct (fo_map _ _ _ Hf bn Hb) as [?|Hdb]; [done|].
  pose proof (dblk_pos sb B _ Hd Hdb). lia.
Qed.

(** The part of a block that readi copies *)
Lemma slice_fbytes B a off m : disk_ok B -> file_ok B a -> 0 <= off -> off / BSIZE < MAXFILE -> 0 <= m <= BSIZE - off mod BSIZE ->
  slice (Z.to_nat (off mod BSIZE)) (Z.to_nat m) (fcontent B a (off / BSIZE)) = fbytes B a off (Z.to_nat m).
Proof using Type.
  intros Hd Hf Ho Hb Hm. assert (0 <= off / BSIZE) by (apply Z.div_pos; [lia|done]).
  destruct (fcontent_ok B a (off / BSIZE) Hd Hf ltac:(lia)) as [Hl _].
  pose proof (Z.mod_pos_bound off BSIZE ltac:(done)) as Hmod. rewrite BSIZE_512 in *.
  apply list_eq. intros k. unfold slice. destruct (decide (k < Z.to_nat m)%nat) as [Hk|Hk].
  - rewrite lookup_take_lt, lookup_drop, fbytes_lookup by done. unfold fbyte.
    destruct (same_block off (Z.of_nat k)) as [E1 E2]; [rewrite BSIZE_512; lia|]. rewrite BSIZE_512 in E1, E2. rewrite BSIZE_512, E1, E2.
    rewrite Z2Nat.inj_add, Nat2Z.id by lia. apply list_lookup_lookup_total_lt. rewrite Hl. lia.
  - rewrite lookup_take_ge by lia. symmetry. apply lookup_ge_None. rewrite length_fbytes. lia.
Qed.

(** bmap of a block that exists changes nothing. *)
Lemma wp_bmap_here s B g l ip i bn Q :
  fs_is s B ∅ g l -> l !! ip = Some i -> i_dev i = 1 -> disk_ok B -> file_ok B (i_addrs i) -> 0 <= bn < MAXFILE ->
  fblk B (i_addrs i) bn <> 0 -> (size g <= st_cap)%nat ->
  (forall s', fs_is s' B ∅ g l -> Q (fblk B (i_addrs i) bn) s') -> wp (bmap ip bn) s Q.
Proof using Type.
  intros H Hip Hdev Hd Hf Hbn Hn Hg HQ. set (a := i_addrs i) in *. pose proof (disk_pos sb B Hd) as Hpos.
  assert (NDIRECT = 12) as EN by done. assert (MAXFILE = 140) as EM by done. assert (NINDIRECT = 128) as EI by done.
  unfold bmap. apply wp_bind. eapply wp_geti_at; [exact H|exact Hip|]. rewrite Hdev. fold a.
  destruct (Z.ltb_spec bn NDIRECT) as [Hdir|Hind].
  - assert (a !!! Z.to_nat bn = fblk B a bn) as Efb by (unfold fblk; by rewrite (proj2 (Z.ltb_lt _ _) Hdir)).
    rewrite Efb, (proj2 (Z.eqb_neq _ _) Hn). apply wp_ret. by apply HQ.
  - rewrite (proj2 (Z.ltb_lt _ _)) by lia. change (a !!! Z.to_nat NDIRECT) with (ind a).
    assert (ind a <> 0) as Hi.
    { intros E. apply Hn. unfold fblk. rewrite (proj2 (Z.ltb_ge _ _)) by lia. by rewrite E. }
    assert (get32 (blk B (ind a)) (4 * Z.to_nat (bn - NDIRECT)) = fblk B a bn) as Efb.
    { unfold fblk. rewrite (proj2 (Z.ltb_ge _ _)) by lia. by rewrite (proj2 (Z.eqb_neq _ _) Hi). }
    assert (dblk B (ind a)) as Hdi by (by destruct (fo_ind _ _ _ Hf)). pose proof (dblk_pos sb B _ Hd Hdi) as Hip'.
    rewrite (proj2 (Z.eqb_neq _ _) Hi). apply wp_bind, wp_ret. apply wp_bind.
    eapply (wp_bread sb _ _ _ _ _ (ind a)); [exact H|right|lia|lia|apply not_held_empty|rewrite map_size_empty; lia|exact Hg|].
    { pose proof (ly_first _ _ (dk_layout _ _ Hd)). destruct Hdi. lia. }
    intros s1 bp _ H1. apply wp_bind. eapply wp_data; [exact H1|by rewrite lookup_insert_eq|].
    rewrite Efb, (proj2 (Z.eqb_neq _ _) Hn). apply wp_bind, wp_ret. apply wp_bind.
    eapply wp_brelse; [exact H1|by rewrite lookup_insert_eq|].
    intros s2 H2. rewrite held_back in H2 by apply lookup_empty. apply wp_ret. by apply HQ.
Qed.

(** Every block below the size is there. *)
Definition no_holes (B : list bytes) (a : list Z) (size : Z) : Prop :=
  forall bn, 0 <= bn -> bn * BSIZE < size -> fblk B a bn <> 0.

Lemma wp_readi_loop k s B g l ip i tot off n Q :
  fs_is s B ∅ g l -> l !! ip = Some i -> i_dev i = 1 -> disk_ok B -> file_ok B (i_addrs i) -> (size g <= st_cap)%nat ->
  no_holes B (i_addrs i) (off + (n - tot)) -> 0 <= tot <= n -> 0 <= off -> off + (n - tot) <= MAXFILE * BSIZE ->
  n - tot <= Z.of_nat k ->
  (forall s', fs_is s' B ∅ g l -> Q (fbytes B (i_addrs i) off (Z.to_nat (n - tot))) s') ->
  wp (readi_loop k ip tot off n) s Q.
Proof using Type.
  revert s tot off Q. induction k as [|k IH]; intros s tot off Q H Hip Hdev Hd Hf Hg Hnh Htot Hoff Hmax Hk HQ; cbn [readi_loop].
  - rewrite (proj2 (Z.ltb_ge _ _)) by lia. apply wp_ret. replace (Z.to_nat (n - tot)) with 0%nat in HQ by lia. by apply HQ.
  - destruct (Z.ltb_spec tot n) as [Hlt|Hge]; cycle 1.
    { apply wp_ret. replace (Z.to_nat (n - tot)) with 0%nat in HQ by lia. by apply HQ. }
    pose proof (Z.mod_pos_bound off BSIZE ltac:(done)) as Hmod. rewrite BSIZE_512 in Hmod.
    assert (chunk tot off n = Z.min (n - tot) (512 - off mod 512)) as Em by done.
    set (m := chunk tot off n) in *.
    assert (0 <= off / BSIZE < MAXFILE) as Hbn.
    { change MAXFILE with 140 in *. rewrite BSIZE_512 in *. split; [apply Z.div_pos; lia|apply Z.div_lt_upper_bound; lia]. }
    assert (fblk B (i_addrs i) (off / BSIZE) <> 0) as Hnz.
    { apply Hnh; [lia|]. rewrite BSIZE_512. pose proof (Z.mul_div_le off 512 ltac:(lia)). lia. }
    pose proof (disk_pos sb B Hd) as Hpos.
    assert (dblk B (fblk B (i_addrs i) (off / BSIZE))) as Hdb by (by destruct (fo_map _ _ _ Hf _ Hbn)).
    pose proof (dblk_pos sb B _ Hd Hdb) as Hdp.
    apply wp_bind. eapply wp_geti_at; [exact H|exact Hip|]. apply wp_bind.
    eapply wp_bmap_here; try done. intros s1 H1. rewrite Hdev. apply wp_bind.
    eapply (wp_bread sb); [exact H1|right|lia|lia|apply not_held_empty|rewrite map_size_empty; lia|exact Hg|].
    { pose proof (ly_first _ _ (dk_layout _ _ Hd)). destruct Hdb. lia. }
    intros s2 bp _ H2. apply wp_bind. eapply wp_data; [exact H2|by rewrite lookup_insert_eq|].
    apply wp_bind. eapply wp_brelse; [exact H2|by rewrite lookup_insert_eq|].
    intros s3 H3. rewrite held_back in H3 by apply lookup_empty. fold m.
    apply wp_bind. eapply IH; try done.
    { intros bn Hb1 Hb2. apply Hnh; lia. } { lia. } { lia. } { lia. } { lia. }
    intros s4 H4. apply wp_ret.
    replace (blk B (fblk B (i_addrs i) (off / BSIZE))) with (fcontent B (i_addrs i) (off / BSIZE))
      by (unfold fcontent; by rewrite (proj2 (Z.eqb_neq _ _) Hnz)).
    rewrite slice_fbytes; [|done|done|lia|lia|rewrite BSIZE_512; lia].
    assert (off + m = off + Z.of_nat (Z.to_nat m)) as -> by lia. rewrite <- fbytes_app.
    replace (Z.to_nat m + Z.to_nat (n - (tot + m)))%nat with (Z.to_nat (n - tot)) by lia. by apply HQ.
Qed.

(** readi of a file: the bytes of the segment, cut at the file's size; only
    the blocks of the segment have to be there *)
Lemma wp_readi_seg s B g l ip i off n Q :
  fs_is s B ∅ g l -> l !! ip = Some i -> i_dev i = 1 -> disk_ok B -> file_ok B (i_addrs i) -> (size g <= st_cap)%nat ->
  i_type i <> T_DEV -> no_holes B (i_addrs i) (Z.min (off + n) (i_size i)) -> 0 <= i_size i <= MAXFILE * BSIZE ->
  0 <= off <= i_size i -> 0 <= n < 2 ^ 31 ->
  (forall s', fs_is s' B ∅ g l -> let r := Z.min n (i_size i - off) in Q (r, fbytes B (i_addrs i) off (Z.to_nat r)) s') ->
  wp (readi ip off n) s Q.
Proof using Type.
  intros H Hip Hdev Hd Hf Hg Hty Hnh Hsz Hoff Hn HQ. assert (MAXFILE * BSIZE = 71680) as EM by done.
  unfold Fs.readi. apply wp_bind. eapply wp_geti_at; [exact H|exact Hip|].
  rewrite (proj2 (Z.eqb_neq _ _) Hty), (proj2 (Z.ltb_ge _ _)) by lia. rewrite (u32_small (off + n)) by lia.
  rewrite (proj2 (Z.ltb_ge _ _)) by lia. cbn [orb].
  assert ((if i_size i <? off + n then u32 (i_size i - off) else n) = Z.min n (i_size i - off)) as ->.
  { destruct (Z.ltb_spec (i_size i) (off + n)); [rewrite u32_small by lia|]; lia. }
  apply wp_bind. eapply wp_readi_loop; try done; try lia.
  { intros bn Hb1 Hb2. apply Hnh; lia. }
  intros s' H'. apply wp_ret. rewrite s32_small by lia. rewrite Z.sub_0_r. by apply HQ.
Qed.

Lemma wp_readi s B g l ip i off n Q :
  fs_is s B ∅ g l -> l !! ip = Some i -> i_dev i = 1 -> disk_ok B -> file_ok B (i_addrs i) -> (size g <= st_cap)%nat ->
  i_type i <> T_DEV -> no_holes B (i_addrs i) (i_size i) -> 0 <= i_size i <= MAXFILE * BSIZE -> 0 <= off <= i_size i ->
  0 <= n < 2 ^ 31 ->
  (forall s', fs_is s' B ∅ g l -> let r := Z.min n (i_size i - off) in Q (r, fbytes B (i_addrs i) off (Z.to_nat r)) s') ->
  wp (readi ip off n) s Q.
Proof using Type.
  intros H Hip Hdev Hd Hf Hg Hty Hnh Hsz Hoff Hn HQ. eapply wp_readi_seg; try done.
  intros bn Hb1 Hb2. apply Hnh; lia.
Qed.

(** ** Writing *)
Record wrote (B : list bytes) (a : list Z) (B' : list bytes) (a' : list Z) (off : Z) (c : bytes) : Prop := mkWrote {
  wr_disk : disk_ok B';
  wr_file : file_ok B' a';
  wr_len : length B' = length B;
  wr_bytes : forall p, 0 <= p < MAXFILE * BSIZE ->
    fbyte B' a' p = if (off <=? p) && (p <? off + Z.of_nat (length c)) then c !!! Z.to_nat (p - off) else fbyte B a p;
  wr_keep : forall bn, 0 <= bn < MAXFILE -> fblk B a bn <> 0 -> fblk B' a' bn = fblk B a bn;
  wr_have : forall p, off <= p < off + Z.of_nat (length c) -> fblk B' a' (p / BSIZE) <> 0;
  wr_ind : ind a <> 0 -> ind a' = ind a;
  wr_used : forall b, 0 <= b < sb_size sb -> used B b = true -> used B' b = true;
  wr_other : forall p, dblk B p -> p <> ind a' -> (forall bn, 0 <= bn < MAXFILE -> fblk B' a' bn <> p) -> blk B' p = blk B p;
  wr_meta : forall p, 0 <= p < sb_bmapstart sb -> blk B' p = blk B p;
  wr_new : forall bn, 0 <= bn < MAXFILE -> fblk B' a' bn <> fblk B a bn -> used B (fblk B' a' bn) = false;
  wr_newi : ind a' <> ind a -> used B (ind a') = false;
  wr_same : (forall p, off <= p < off + Z.of_nat (length c) -> fblk B a (p / BSIZE) <> 0) -> a' = a
}.

Lemma wrote_nil B a off : disk_ok B -> file_ok B a -> wrote B a B a off [].
Proof using Type.
  intros Hd Hf. split; try done.
  - intros p Hp. destruct (_ && _) eqn:E; [|done]. apply andb_true_iff in E as [E1 E2].
    apply Z.leb_le in E1. apply Z.ltb_lt in E2. cbn in E2. lia.
  - intros p Hp. cbn in Hp. lia.
Qed.

Lemma dblk_mono B B' p : (forall b, 0 <= b < sb_size sb -> used B b = true -> used B' b = true) -> disk_ok B -> dblk B p -> dblk B' p.
Proof using Type. intros H Hd [Hr Hu]. pose proof (disk_pos sb B Hd). split; [done|apply H; [lia|done]]. Qed.

Lemma wrote_trans B a B1 a1 B2 a2 off c1 c2 : disk_ok B -> 0 <= off ->
  off + Z.of_nat (length c1) + Z.of_nat (length c2) <= MAXFILE * BSIZE ->
  wrote B a B1 a1 off c1 -> wrote B1 a1 B2 a2 (off + Z.of_nat (length c1)) c2 -> wrote B a B2 a2 off (c1 ++ c2).
Proof using Type.
  intros Hd Ho Hmax W1 W2. pose proof (disk_pos sb B Hd) as Hpos. split.
  - exact (wr_disk _ _ _ _ _ _ W2).
  - exact (wr_file _ _ _ _ _ _ W2).
  - rewrite (wr_len _ _ _ _ _ _ W2). exact (wr_len _ _ _ _ _ _ W1).
  - intros p Hp. rewrite (wr_bytes _ _ _ _ _ _ W2), (wr_bytes _ _ _ _ _ _ W1) by done. rewrite length_app, Nat2Z.inj_add.
    destruct (Z.leb_spec (off + Z.of_nat (length c1)) p), (Z.ltb_spec p (off + Z.of_nat (length c1) + Z.of_nat (length c2)));
      destruct (Z.leb_spec off p), (Z.ltb_spec p (off + (Z.of_nat (length c1) + Z.of_nat (length c2)))),
        (Z.ltb_spec p (off + Z.of_nat (length c1))); try lia; cbn [andb]; try done.
    + rewrite !list_lookup_total_alt, lookup_app_r by lia. do 2 f_equal. lia.
    + rewrite !list_lookup_total_alt, lookup_app_l by lia. done.
  - intros bn Hb Hn. assert (fblk B1 a1 bn = fblk B a bn) as E by (by apply (wr_keep _ _ _ _ _ _ W1)).
    rewrite (wr_keep _ _ _ _ _ _ W2); [done|done|congruence].
  - intros p Hp. rewrite length_app in Hp. destruct (Z.lt_ge_cases p (off + Z.of_nat (length c1))) as [Hlt|Hge].
    + assert (fblk B1 a1 (p / BSIZE) <> 0) as E by (apply (wr_have _ _ _ _ _ _ W1); lia).
      rewrite (wr_keep _ _ _ _ _ _ W2); [done| |done]. change MAXFILE with 140 in *. rewrite BSIZE_512 in *.
      split; [apply Z.div_pos; lia|apply Z.div_lt_upper_bound; lia].
    + apply (wr_have _ _ _ _ _ _ W2). lia.
  - intros Hn. assert (ind a1 = ind a) as E by (by apply (wr_ind _ _ _ _ _ _ W1)). rewrite (wr_ind _ _ _ _ _ _ W2); congruence.
  - intros b Hb Hu. apply (wr_used _ _ _ _ _ _ W2); [done|]. by apply (wr_used _ _ _ _ _ _ W1).
  - intros p Hp Hni Hnf. assert (dblk B1 p) as Hp1 by (eapply dblk_mono; [apply (wr_used _ _ _ _ _ _ W1)|done|done]).
    rewrite (wr_other _ _ _ _ _ _ W2) by done. apply (wr_other _ _ _ _ _ _ W1); [done| |].
    + intros ->. destruct (decide (ind a1 = 0)) as [E|E]; [destruct Hp; lia|]. apply Hni. symmetry. by apply (wr_ind _ _ _ _ _ _ W2).
    + intros bn Hb E. apply (Hnf bn Hb). rewrite (wr_keep _ _ _ _ _ _ W2); [done|done|]. destruct Hp. lia.
  - intros p Hp. rewrite (wr_meta _ _ _ _ _ _ W2) by done. by apply (wr_meta _ _ _ _ _ _ W1).
  - intros bn Hb Hne. destruct (decide (fblk B2 a2 bn = fblk B1 a1 bn)) as [E|E].
    + rewrite E. apply (wr_new _ _ _ _ _ _ W1); [done|congruence].
    + apply (unused_before sb B B1); [apply (wr_used _ _ _ _ _ _ W1)|apply fblk_range; (done || apply W2)|by apply (wr_new _ _ _ _ _ _ W2)].
  - intros Hne. destruct (decide (ind a2 = ind a1)) as [E|E].
    + rewrite E. apply (wr_newi _ _ _ _ _ _ W1). congruence.
    + apply (unused_before sb B B1); [apply (wr_used _ _ _ _ _ _ W1)|apply (ind_range sb B2); apply W2|by apply (wr_newi _ _ _ _ _ _ W2)].
  - intros Hall. rewrite length_app in Hall.
    assert (a1 = a) as -> by (apply (wr_same _ _ _ _ _ _ W1); intros p Hp; apply Hall; lia).
    apply (wr_same _ _ _ _ _ _ W2). intros p Hp. pose proof (Hall p ltac:(lia)) as Hn.
    rewrite (wr_keep _ _ _ _ _ _ W1); [done| |done]. change MAXFILE with 140 in *. rewrite BSIZE_512 in *.
    split; [apply Z.div_pos; lia|apply Z.div_lt_upper_bound; lia].
Qed.

(** Replacing the content of one block of the file *)
Lemma set_file_block B a bn d : disk_ok B -> file_ok B a -> 0 <= bn < MAXFILE -> fblk B a bn <> 0 -> block_ok d ->
  let B' := setblk (fblk B a bn) d B in
  disk_ok B' /\ file_ok B' a /\ (forall m, 0 <= m < MAXFILE -> fblk B' a m = fblk B a m) /\
  (forall m, 0 <= m < MAXFILE -> fcontent B' a m = if m =? bn then d else fcontent B a m) /\
  (forall b, 0 <= b < sb_size sb -> used B' b = used B b).
Proof using Type.
  intros Hd Hf Hb Hn Hdo B'. pose proof (disk_pos sb B Hd) as Hpos.
  assert (dblk B (fblk B a bn)) as Hdb by (by destruct (fo_map _ _ _ Hf bn Hb)).
  pose proof (dblk_pos sb B _ Hd Hdb) as Hp. assert (dstart <= fblk B a bn < sb_size sb) as Hr by apply Hdb.
  assert (forall b, 0 <= b < sb_size sb -> used B' b = used B b) as Hu by (intros b Hbr; by apply used_set_data).
  assert (forall m, 0 <= m < MAXFILE -> fblk B' a m = fblk B a m) as Hfb.
  { intros m Hm. unfold fblk. destruct (m <? NDIRECT); [done|]. destruct (Z.eqb_spec (ind a) 0) as [|Hi]; [done|].
    assert (dblk B (ind a)) as Hdi by (by destruct (fo_ind _ _ _ Hf)). pose proof (dblk_pos sb B _ Hd Hdi).
    unfold B'. rewrite blk_set_ne; [done|lia|lia|]. by apply (fo_ne _ _ _ Hf). }
  assert (forall p, dblk B p -> dblk B' p) as Hdm by (intros p [H1 H2]; split; [done|rewrite Hu; [done|lia]]).
  split_and!; try done.
  - by apply disk_set_data.
  - split.
    + apply Hf.
    + destruct (fo_ind _ _ _ Hf); [by left|right; by apply Hdm].
    + intros m Hm. rewrite Hfb by done. destruct (fo_map _ _ _ Hf m Hm); [by left|right; by apply Hdm].
    + intros m m' Hm Hm'. rewrite !Hfb by done. by apply (fo_inj _ _ _ Hf).
    + intros m Hm. rewrite Hfb by done. by apply (fo_ne _ _ _ Hf).
  - intros m Hm. unfold fcontent. rewrite Hfb by done. destruct (Z.eqb_spec m bn) as [->|Hne].
    + rewrite (proj2 (Z.eqb_neq _ _) Hn). apply blk_set_eq. lia.
    + destruct (Z.eqb_spec (fblk B a m) 0) as [|E0]; [done|].
      assert (dblk B (fblk B a m)) as Hdm' by (by destruct (fo_map _ _ _ Hf m Hm)). pose proof (dblk_pos sb B _ Hd Hdm').
      apply blk_set_ne; [lia|lia|]. intros E. apply Hne. symmetry. by apply (fo_inj _ _ _ Hf).
Qed.

Lemma wrote_chunk B a B1 a1 off c : disk_ok B -> grown B a B1 a1 -> (fblk B a (off / BSIZE) <> 0 -> a1 = a) -> 0 <= off -> off / BSIZE < MAXFILE ->
  fblk B1 a1 (off / BSIZE) <> 0 -> (0 < length c)%nat -> off mod BSIZE + Z.of_nat (length c) <= BSIZE -> Forall byte_ok c ->
  let x := fblk B1 a1 (off / BSIZE) in
  wrote B a (setblk x (splice (Z.to_nat (off mod BSIZE)) c (blk B1 x)) B1) a1 off c.
Proof using Type.
  intros Hd G Hsame Ho Hlt Hn Hc0 Hc Hcb x. set (bn := off / BSIZE) in *. set (o := off mod BSIZE) in *.
  pose proof (Z.mod_pos_bound off BSIZE ltac:(done)) as Hmod. fold o in Hmod.
  assert (0 <= bn < MAXFILE) as Hbn by (split; [apply Z.div_pos; [lia|done]|lia]).
  assert (off = BSIZE * bn + o) as Eo by (apply Z.div_mod; done). rewrite BSIZE_512 in *.
  pose proof (gr_disk _ _ _ _ _ G) as Hd1. pose proof (gr_file _ _ _ _ _ G) as Hf1.
  assert (fcontent B1 a1 bn = blk B1 x) as Efc by (unfold fcontent; by rewrite (proj2 (Z.eqb_neq _ _) Hn)).
  destruct (fcontent_ok B1 a1 bn Hd1 Hf1 Hbn) as [Hl Hb]. rewrite Efc in Hl, Hb. change (Z.to_nat BSIZE) with 512%nat in Hl.
  set (d := splice (Z.to_nat o) c (blk B1 x)).
  assert (block_ok d) as Hdo.
  { split; [unfold d; rewrite length_splice; [done|lia]|by apply splice_ok]. }
  destruct (set_file_block B1 a1 bn d Hd1 Hf1 Hbn Hn Hdo) as (K1 & K2 & K3 & K4 & K5). fold x in K1, K2, K3, K4, K5.
  set (B2 := setblk x d B1) in *. split.
  - exact K1.
  - exact K2.
  - unfold B2. rewrite length_setblk. apply (gr_len _ _ _ _ _ G).
  - intros p Hp. unfold fbyte. rewrite BSIZE_512 in *.
    assert (0 <= p / 512 < MAXFILE) as Hpb.
    { change MAXFILE with 140 in *. split; [apply Z.div_pos; lia|apply Z.div_lt_upper_bound; lia]. }
    assert (p = 512 * (p / 512) + p mod 512) as Ep by (apply Z.div_mod; lia).
    pose proof (Z.mod_pos_bound p 512 ltac:(lia)) as Hpm.
    rewrite K4 by done. rewrite <- (gr_content _ _ _ _ _ G) by done.
    destruct (Z.eqb_spec (p / 512) bn) as [E|E].
    + rewrite E, Efc. unfold d. destruct (Z.leb_spec off p), (Z.ltb_spec p (off + Z.of_nat (length c))); cbn [andb].
      * replace (Z.to_nat (p mod 512)) with (Z.to_nat o + Z.to_nat (p - off))%nat by lia. apply splice_lookup_in; lia.
      * apply splice_lookup_out; lia.
      * apply splice_lookup_out; lia.
      * apply splice_lookup_out; lia.
    + destruct (Z.leb_spec off p), (Z.ltb_spec p (off + Z.of_nat (length c))); cbn [andb]; try done.
      exfalso. apply E. symmetry. apply (Z.div_unique_pos p 512 bn (p - 512 * bn)); lia.
  - intros m Hm Hmn. rewrite K3 by done. by apply (gr_keep _ _ _ _ _ G).
  - intros p Hp. rewrite BSIZE_512. assert (p / 512 = bn) as ->.
    { symmetry. apply (Z.div_unique_pos p 512 bn (p - 512 * bn)); lia. }
    by rewrite K3.
  - exact (gr_ind _ _ _ _ _ G).
  - intros b Hbr Hu. rewrite K5 by done. by apply (gr_used _ _ _ _ _ G).
  - intros p Hp Hni Hnf. pose proof (disk_pos sb B Hd) as Hpos. pose proof (dblk_pos sb B p Hd Hp).
    assert (dblk B1 x) as Hx by (by destruct (fo_map _ _ _ Hf1 bn Hbn)). pose proof (dblk_pos sb B1 x Hd1 Hx).
    unfold B2. rewrite blk_set_ne; [by apply (gr_other _ _ _ _ _ G)|lia|lia|].
    intros E. apply (Hnf bn Hbn). rewrite K3 by done. exact E.
  - intros p Hp. assert (dblk B1 x) as Hx by (by destruct (fo_map _ _ _ Hf1 bn Hbn)). pose proof (dblk_pos sb B1 x Hd1 Hx).
    pose proof (disk_pos sb B1 Hd1). unfold B2. rewrite blk_set_ne; [by apply (gr_meta _ _ _ _ _ G)|lia|lia|destruct Hx; lia].
  - intros m Hm. rewrite K3 by done. by apply (gr_new _ _ _ _ _ G).
  - exact (gr_newi _ _ _ _ _ G).
  - intros Hall. apply Hsame. apply (Hall off). lia.
Qed.

Lemma with_addrs_twice a b i : with_addrs a (with_addrs b i) = with_addrs a i.
Proof using Type. done. Qed.

Lemma wp_writei_loop k s B g l ip i src tot off n Q :
  fs_is s B ∅ g l -> l !! ip = Some i -> i_dev i = 1 -> disk_ok B -> file_ok B (i_addrs i) ->
  (pot (i_addrs i) g + nch off (n - tot) <= st_cap)%nat -> free_ge sb B (no_ind (i_addrs i) + nch off (n - tot)) ->
  0 <= tot <= n -> n <= Z.of_nat (length src) -> Forall byte_ok src -> 0 <= off -> off + (n - tot) <= MAXFILE * BSIZE ->
  n - tot <= Z.of_nat k ->
  (forall s' B' a' g', wrote B (i_addrs i) B' a' off (slice (Z.to_nat tot) (Z.to_nat (n - tot)) src) ->
     (pot a' g' <= pot (i_addrs i) g + nch off (n - tot))%nat ->
     fs_is s' B' ∅ g' (<[ip := with_addrs a' i]> l) -> Q (off + (n - tot)) s') ->
  wp (writei_loop k ip src tot off n) s Q.
Proof using Type.
  revert s B g l i tot off. induction k as [|k IH]; intros s B g l i tot off H Hip Hdev Hd Hf Hpot Hfree Htot Hsrc Hby Hoff Hmax Hk HQ;
    cbn [writei_loop]; destruct (Z.ltb_spec tot n) as [Hlt|Hge]; try lia.
  1, 3: apply wp_ret; replace off with (off + (n - tot)) by lia; apply (HQ _ B (i_addrs i) g);
    [replace (n - tot) with 0 by lia; unfold slice; cbn [Z.to_nat take]; by apply wrote_nil|lia|by rewrite insert_same].
  set (a := i_addrs i) in *.
  pose proof (Z.mod_pos_bound off BSIZE ltac:(done)) as Hmod. rewrite BSIZE_512 in Hmod.
  assert (chunk tot off n = Z.min (n - tot) (BSIZE - off mod BSIZE)) as Em by done. set (m := chunk tot off n) in *.
  assert (m = Z.min (n - tot) (512 - off mod 512)) as Em' by done.
  pose proof (nch_step off (n - tot) m Hoff ltac:(lia) Em) as Hnch. rewrite Hnch in Hpot, Hfree.
  assert (0 <= off / BSIZE < MAXFILE) as Hbn.
  { change MAXFILE with 140 in *. rewrite BSIZE_512 in *. split; [apply Z.div_pos; lia|apply Z.div_lt_upper_bound; lia]. }
  apply wp_bind. eapply wp_geti_at; [exact H|exact Hip|]. rewrite Hdev. apply wp_bind.
  eapply (wp_bmap sb); [exact H|exact Hip|done|exact Hd|exact Hf|exact Hbn|fold a; lia| |].
  { eapply free_ge_mono; [exact Hfree|fold a; lia]. }
  fold a. intros s1 x B1 a1 g1 Hm H1. destruct Hm as [M1 M2 M3 M4 M5 M6 M7].
  pose proof (gr_disk _ _ _ _ _ M1) as Hd1. pose proof (gr_file _ _ _ _ _ M1) as Hf1. subst x.
  set (x := fblk B1 a1 (off / BSIZE)) in *. pose proof (disk_pos sb B1 Hd1) as Hpos.
  assert (dblk B1 x) as Hx by (by destruct (fo_map _ _ _ Hf1 _ Hbn)). pose proof (dblk_pos sb B1 x Hd1 Hx) as Hxp.
  assert (Z.of_nat st_first <= x) as Hfx by (pose proof (ly_first _ _ (dk_layout _ _ Hd1)); destruct Hx; lia).
  apply wp_bind. eapply (wp_bread sb _ _ _ _ _ x); [exact H1|by right|lia|lia|apply not_held_empty|rewrite map_size_empty; lia|exact M5|].
  intros s2 bp _ H2. apply wp_bind. eapply wp_data; [exact H2|by rewrite lookup_insert_eq|].
  set (c := slice (Z.to_nat tot) (Z.to_nat m) src).
  assert (length c = Z.to_nat m) as Hlc by (apply length_slice; lia).
  assert (Forall byte_ok c) as Hcb by (apply Forall_take, Forall_drop, Hby).
  assert (wrote B a (setblk x (splice (Z.to_nat (off mod BSIZE)) c (blk B1 x)) B1) a1 off c) as W.
  { apply wrote_chunk; [exact Hd|exact M1|exact M7|done|lia|done|lia|rewrite Hlc; rewrite BSIZE_512; lia|done]. }
  set (B2 := setblk x _ B1) in W.
  destruct (fcontent_ok B1 a1 _ Hd1 Hf1 Hbn) as [Hl1 Hb1].
  assert (fcontent B1 a1 (off / BSIZE) = blk B1 x) as Efc by (unfold fcontent; fold x; by rewrite (proj2 (Z.eqb_neq _ _) M3)).
  rewrite Efc in Hl1, Hb1.
  eapply (wp_put_log sb _ _ _ _ _ bp x); [exact H2|by rewrite lookup_insert_eq|exact Hfx| | |].
  { split; [|by apply splice_ok]. change (Z.to_nat BSIZE) with 512%nat in *. rewrite length_splice; [done|].
    rewrite BSIZE_512. lia. }
  { destruct (size_in_pot sb _ _ _ M4) as [Hs _]. lia. }
  fold c. fold B2. intros s3 H3. apply wp_bind. eapply wp_brelse; [exact H3|by rewrite lookup_insert_eq|].
  intros s4 H4. rewrite held_back in H4 by apply lookup_empty.
  eapply (IH s4 B2 _ _ (with_addrs a1 i)); [exact H4| |done|exact (wr_disk _ _ _ _ _ _ W)|exact (wr_file _ _ _ _ _ _ W)| | | | |done|lia| |lia|].
  - by rewrite list_lookup_insert_eq by (by eapply lookup_lt_Some).
  - cbn [with_addrs i_addrs]. replace (n - (tot + m)) with (n - tot - m) by lia. lia.
  - cbn [with_addrs i_addrs]. replace (n - (tot + m)) with (n - tot - m) by lia.
    apply free_set_data; [done|apply Hx|]. apply M6. eapply free_ge_mono; [exact Hfree|lia].
  - lia.
  - lia.
  - replace (n - (tot + m)) with (n - tot - m) by lia. lia.
  - cbn [with_addrs i_addrs]. intros s5 B3 a3 g3 W3 P3 H5.
    rewrite list_insert_insert_eq in H5. change (with_addrs a3 (with_addrs a1 i)) with (with_addrs a3 i) in H5.
    replace (off + m + (n - (tot + m))) with (off + (n - tot)) by lia.
    eapply (HQ _ B3 a3 g3); [| |exact H5].
    + assert (slice (Z.to_nat tot) (Z.to_nat (n - tot)) src = c ++ slice (Z.to_nat (tot + m)) (Z.to_nat (n - (tot + m))) src) as ->.
      { unfold c, slice. replace (Z.to_nat (n - tot)) with (Z.to_nat m + Z.to_nat (n - (tot + m)))%nat by lia.
        rewrite <- take_take_drop, drop_drop. do 3 f_equal. lia. }
      replace (off + m) with (off + Z.of_nat (length c)) in W3 by lia.
      eapply wrote_trans; [exact Hd|done| |exact W|exact W3]. rewrite length_slice by lia. lia.
    + replace (n - (tot + m)) with (n - tot - m) in P3 by lia. lia.
Qed.
End FsFile.
