(* ===== verification/FsWrite.v ===== *)
(** * iupdate and writei: a file's bytes and its disk inode

    iupdate writes the cached inode to its slot of the inode blocks; writei
    is a splice of the file's bytes that leaves every other file and disk
    inode alone, and a read returns what was written. *)

From S2P Require Import Prelude Params Bytes Store CString Fs FsSpec FsData FsFile.

Section FsWrite.
Context {S : Type} {St : BlockStore S} {Dims : BlockStoreDims S} {Laws : BlockStoreLaws S} (sb : superblock).
Context (devsw_read : Z -> option (nat -> Z -> kernel (fsys S) (Z * bytes)))
        (devsw_write : Z -> option (nat -> bytes -> Z -> kernel (fsys S) Z)).

Abbreviation disk_ok := (disk_ok sb).
Abbreviation used := (used sb).
Abbreviation dstart := (dstart sb).
Abbreviation fs_is := (fs_is sb).
Abbreviation dblk := (dblk sb).
Abbreviation file_ok := (file_ok sb).
Abbreviation pot := (pot sb).
Abbreviation wrote := (wrote sb).
Abbreviation readi := (Fs.readi devsw_read).
Abbreviation writei := (Fs.writei devsw_write).

(** ** The blocks of a file and its bytes *)
Definition owns (B : list bytes) (a : list Z) (p : Z) : Prop :=
  p <> 0 /\ (p = ind a \/ exists bn, 0 <= bn < MAXFILE /\ fblk B a bn = p).
Definition apart (B : list bytes) (a b : list Z) : Prop := forall p, owns B a p -> owns B b p -> False.
Definition same_file (B B' : list bytes) (a : list Z) : Prop :=
  (forall bn, 0 <= bn < MAXFILE -> fblk B' a bn = fblk B a bn) /\ (forall p, 0 <= p < MAXFILE * BSIZE -> fbyte B' a p = fbyte B a p).

Lemma owns_dblk B a p : file_ok B a -> owns B a p -> dblk B p.
Proof using Type.
  intros Hf [Hp [->|(bn & Hb & <-)]]; [by destruct (fo_ind _ _ _ Hf)|by destruct (fo_map _ _ _ Hf bn Hb)].
Qed.

Lemma block_no_bound p : 0 <= p < MAXFILE * BSIZE -> 0 <= p / BSIZE < MAXFILE.
Proof using Type.
  change MAXFILE with 140. rewrite BSIZE_512. intros H. split; [apply Z.div_pos; lia|apply Z.div_lt_upper_bound; lia].
Qed.

(** A file whose blocks are untouched is untouched. *)
Lemma file_frame B B' a : disk_ok B -> file_ok B a -> (forall p, owns B a p -> blk B' p = blk B p /\ dblk B' p) ->
  file_ok B' a /\ same_file B B' a.
Proof using Type.
  intros Hd Hf H.
  assert (forall bn, 0 <= bn < MAXFILE -> fblk B' a bn = fblk B a bn) as Hfb.
  { intros bn Hb. unfold fblk. destruct (bn <? NDIRECT); [done|]. destruct (Z.eqb_spec (ind a) 0) as [|Hi]; [done|].
    destruct (H (ind a)) as [-> _]; [split; [done|by left]|done]. }
  split; [split|split].
  - apply Hf.
  - destruct (decide (ind a = 0)) as [|Hi]; [by left|right]. apply H. split; [done|by left].
  - intros m Hm. rewrite Hfb by done. destruct (decide (fblk B a m = 0)) as [|Hn]; [by left|right].
    apply H. split; [done|right; eauto].
  - intros m m' Hm Hm'. rewrite !Hfb by done. by apply (fo_inj _ _ _ Hf).
  - intros m Hm. rewrite Hfb by done. by apply (fo_ne _ _ _ Hf).
  - exact Hfb.
  - intros p Hp. pose proof (block_no_bound p Hp) as Hb. unfold fbyte, fcontent. rewrite Hfb by done.
    destruct (Z.eqb_spec (fblk B a (p / BSIZE)) 0) as [|Hn]; [done|].
    destruct (H (fblk B a (p / BSIZE))) as [-> _]; [split; [done|right; eauto]|done].
Qed.

Lemma wrote_apart B a B' a' off c b : disk_ok B -> file_ok B a -> wrote B a B' a' off c -> file_ok B b -> apart B a b ->
  forall p, owns B b p -> blk B' p = blk B p /\ dblk B' p.
Proof using Type.
  intros Hd Hfa W Hf Hap p Hp. assert (dblk B p) as Hdp by (by eapply owns_dblk). pose proof (disk_pos sb B Hd) as Hpos.
  assert (p <> 0) as Hp0 by apply Hp. split; [|by eapply dblk_mono; [apply (wr_used _ _ _ _ _ _ _ W)| |]].
  apply (wr_other _ _ _ _ _ _ _ W); [done| |].
  - intros ->. destruct (decide (ind a' = ind a)) as [E|E].
    + apply (Hap (ind a')); [split; [done|left; exact E]|done].
    + pose proof (wr_newi _ _ _ _ _ _ _ W E). destruct Hdp. congruence.
  - intros bn Hb E. subst p. destruct (decide (fblk B' a' bn = fblk B a bn)) as [E|E].
    + apply (Hap (fblk B' a' bn)); [split; [done|right; exists bn; done]|done].
    + pose proof (wr_new _ _ _ _ _ _ _ W bn Hb E). destruct Hdp. congruence.
Qed.

(** ** The inode blocks *)
Definition iblock (inum : Z) : Z := sb_inodestart sb + inum / IPB.
Definition inum_ok (inum : Z) : Prop := 0 <= inum < sb_ninodes sb.

Lemma IPB_8 : IPB = 8. Proof using Type. done. Qed.

Lemma iblock_range B inum : disk_ok B -> inum_ok inum ->
  sb_inodestart sb <= iblock inum < sb_bmapstart sb /\ IBLOCK inum sb = iblock inum.
Proof using Type.
  intros Hd [H0 H1]. pose proof (disk_pos sb B Hd) as Hp. pose proof (ly_inodes _ _ (dk_layout _ _ Hd)) as Hl. rewrite IPB_8 in Hl.
  assert (0 <= inum / 8 <= sb_ninodes sb / 8) as Hq by (split; [apply Z.div_pos; lia|apply Z.div_le_mono; lia]).
  unfold iblock, IBLOCK. rewrite IPB_8. split; [lia|]. rewrite Z.add_comm. apply u32_small. lia.
Qed.
Lemma dinode_off_le inum : (dinode_off inum + DINODE <= Z.to_nat BSIZE)%nat.
Proof using Type.
  unfold dinode_off, DINODE. rewrite IPB_8. pose proof (Z.mod_pos_bound inum 8 ltac:(lia)).
  assert (Z.to_nat BSIZE = 512%nat) as -> by done. lia.
Qed.
Lemma dinode_off_apart n m : 0 <= n -> 0 <= m -> n <> m -> iblock n = iblock m ->
  (dinode_off m + DINODE <= dinode_off n \/ dinode_off n + DINODE <= dinode_off m)%nat.
Proof using Type.
  unfold iblock, dinode_off, DINODE. rewrite IPB_8. intros Hn Hm Hne E.
  pose proof (Z.mod_pos_bound n 8 ltac:(lia)). pose proof (Z.mod_pos_bound m 8 ltac:(lia)).
  pose proof (Z.div_mod n 8 ltac:(lia)). pose proof (Z.div_mod m 8 ltac:(lia)). lia.
Qed.

(** The inode [inum] on disk; [i] gives the fields that are not there *)
Definition dinode_at (B : list bytes) (inum : Z) (i : inode) : inode := read_dinode (blk B (iblock inum)) (dinode_off inum) i.
(** The cached copy is the one on disk. *)
Definition synced (B : list bytes) (i : inode) : Prop := dinode_at B (i_inum i) i = i.

Definition iupdated (B : list bytes) (i : inode) : list bytes :=
  setblk (iblock (i_inum i)) (write_dinode i (dinode_off (i_inum i)) (blk B (iblock (i_inum i)))) B.

Lemma iblock_block_ok B n : disk_ok B -> inum_ok n -> block_ok (blk B (iblock n)).
Proof using Type.
  intros Hd Hn. apply blocks_ok_blk; [apply Hd|]. pose proof (disk_pos sb B Hd). destruct (iblock_range B n Hd Hn). lia.
Qed.

Section iupdated.
Context (B : list bytes) (i : inode) (Hd : disk_ok B) (Hin : inum_ok (i_inum i)).

Lemma iblock_no_bitmap : no_bitmap sb (iblock (i_inum i)).
Proof using Hd Hin. left. by apply (iblock_range B). Qed.
Lemma iupdated_disk : length (i_addrs i) = 13%nat -> disk_ok (iupdated B i).
Proof using Hd Hin.
  intros Hlen. apply disk_set; [done|apply iblock_no_bitmap|]. apply write_dinode_ok; [apply dinode_off_le|done|by apply iblock_block_ok].
Qed.
Lemma iupdated_used b : 0 <= b < sb_size sb -> used (iupdated B i) b = used B b.
Proof using Hd Hin. intros Hb. apply used_set; [done|apply iblock_no_bitmap|done]. Qed.
Lemma iupdated_dblk p : dblk B p -> dblk (iupdated B i) p.
Proof using Hd Hin. intros [Hp Hu]. pose proof (disk_pos sb B Hd). split; [done|]. by rewrite iupdated_used by lia. Qed.
Lemma iupdated_blk p : dblk B p -> blk (iupdated B i) p = blk B p.
Proof using Hd Hin.
  intros Hp. pose proof (dblk_pos sb B p Hd Hp). pose proof (disk_pos sb B Hd). destruct (iblock_range B _ Hd Hin). destruct Hp.
  apply blk_set_ne; lia.
Qed.
Lemma iupdated_file a : file_ok B a -> file_ok (iupdated B i) a /\ same_file B (iupdated B i) a.
Proof using Hd Hin.
  intros Hf. apply file_frame; [done|done|]. intros p Hp. assert (dblk B p) by (by eapply owns_dblk).
  split; [by apply iupdated_blk|by apply iupdated_dblk].
Qed.
Lemma iupdated_synced : inode_ok i -> synced (iupdated B i) i.
Proof using Hd Hin.
  intros Hi. unfold synced, dinode_at, iupdated. pose proof (disk_pos sb B Hd). destruct (iblock_range B _ Hd Hin).
  rewrite blk_set_eq by lia. rewrite dinode_roundtrip; [by destruct i|done|].
  destruct (iblock_block_ok B _ Hd Hin) as [-> _]. apply dinode_off_le.
Qed.
Lemma iupdated_other n j : length (i_addrs i) = 13%nat -> inum_ok n -> n <> i_inum i -> dinode_at (iupdated B i) n j = dinode_at B n j.
Proof using Hd Hin.
  intros Hlen Hn Hne. unfold dinode_at, iupdated. pose proof (disk_pos sb B Hd).
  destruct (iblock_range B _ Hd Hin) as [Hb _]. destruct (iblock_range B _ Hd Hn) as [Hb' _].
  destruct (decide (iblock n = iblock (i_inum i))) as [E|E]; [|by rewrite blk_set_ne by lia].
  rewrite E, blk_set_eq by lia. apply dinode_frame; [done| |].
  - destruct (iblock_block_ok B _ Hd Hin) as [-> _]. apply dinode_off_le.
  - apply (dinode_off_apart (i_inum i) n); [apply Hin|apply Hn|done|done].
Qed.
End iupdated.

Lemma wp_iupdate s B g l ip i Q : fs_is s B ∅ g l -> l !! ip = Some i -> i_dev i = 1 -> disk_ok B -> inum_ok (i_inum i) ->
  length (i_addrs i) = 13%nat -> (size ({[Z.to_nat (iblock (i_inum i))]} ∪ g) <= st_cap)%nat ->
  (forall s', fs_is s' (iupdated B i) ∅ ({[Z.to_nat (iblock (i_inum i))]} ∪ g) l -> Q tt s') -> wp (iupdate ip) s Q.
Proof using Type.
  intros H Hip Hdev Hd Hin Hlen Hg HQ. pose proof (disk_pos sb B Hd) as Hp. pose proof (ly_first _ _ (dk_layout _ _ Hd)) as Hfst.
  destruct (iblock_range B _ Hd Hin) as [Hb E]. unfold iupdate. apply wp_bind. eapply wp_geti_at; [exact H|exact Hip|].
  apply wp_bind. eapply wp_getsb; [exact H|]. rewrite Hdev, E. apply wp_bind.
  eapply (wp_bread sb _ _ _ _ _ (iblock (i_inum i))); [exact H|right; lia|lia|lia|apply not_held_empty|rewrite map_size_empty; lia| |].
  { eapply size_sub; [|exact Hg]. set_solver. }
  intros s1 bp _ H1. apply wp_bind. eapply wp_data; [exact H1|by rewrite lookup_insert_eq|].
  eapply (wp_put_log sb _ _ _ _ _ bp (iblock (i_inum i))); [exact H1|by rewrite lookup_insert_eq|lia| |exact Hg|].
  { apply write_dinode_ok; [apply dinode_off_le|done|by apply iblock_block_ok]. }
  intros s2 H2. eapply wp_brelse; [exact H2|by rewrite lookup_insert_eq|].
  intros s3 H3. rewrite held_back in H3 by apply lookup_empty. by apply HQ.
Qed.

(** ** Regular files *)
Definition file (B : list bytes) (i : inode) : bytes := fbytes B (i_addrs i) 0 (Z.to_nat (i_size i)).

Record file_inode (B : list bytes) (i : inode) : Prop := mkFileInode {
  fi_dev : i_dev i = 1;
  fi_type : i_type i <> T_DEV;
  fi_inum : inum_ok (i_inum i);
  fi_ok : inode_ok i;
  fi_file : file_ok B (i_addrs i);
  fi_holes : no_holes B (i_addrs i) (i_size i);
  fi_size : i_size i <= MAXFILE * BSIZE;
  fi_sync : synced B i
}.

Definition written (off n : Z) (a : list Z) (i : inode) : inode := set_isize (Z.max (i_size i) (off + n)) (with_addrs a i).

(** What writei does to the disk. *)
Record write_result (B : list bytes) (i : inode) (off : Z) (c : bytes) (B' : list bytes) (i' : inode) : Prop := mkWres {
  ws_disk : disk_ok B';
  ws_inode : file_inode B' i';
  ws_file : file B' i' = take (Z.to_nat off) (file B i) ++ c ++ drop (Z.to_nat off + length c) (file B i);
  ws_other : forall b, file_ok B b -> apart B (i_addrs i) b -> file_ok B' b /\ same_file B B' b;
  ws_dinode : forall n j, inum_ok n -> n <> i_inum i -> dinode_at B' n j = dinode_at B n j
}.

Lemma file_addrs_ok B a : disk_ok B -> file_ok B a -> Forall (fun x => 0 <= x < 2 ^ 32) a.
Proof using Type.
  intros Hd Hf. apply Forall_lookup. intros k x Hk. pose proof (disk_pos sb B Hd) as Hp. pose proof (fo_len _ _ _ Hf) as Hl.
  assert (k < 13)%nat as Hk' by (rewrite <- Hl; by eapply lookup_lt_Some).
  assert (a !!! k = x) as E by (by apply list_lookup_total_correct).
  destruct (decide (k = 12%nat)) as [->|Hne].
  - pose proof (ind_range sb B a Hd Hf) as Hr. unfold ind in Hr. lia.
  - pose proof (fblk_range sb B a (Z.of_nat k) Hd Hf ltac:(change MAXFILE with 140; lia)) as Hr. unfold fblk in Hr.
    rewrite (proj2 (Z.ltb_lt _ _)) in Hr by (change NDIRECT with 12; lia). rewrite Nat2Z.id in Hr. lia.
Qed.

Lemma written_ok B i off n a : inode_ok i -> disk_ok B -> file_ok B a -> 0 <= off -> 0 <= n -> off + n <= MAXFILE * BSIZE ->
  inode_ok (written off n a i).
Proof using Type.
  intros [H1 H2 H3 H4 H5 H6 H7] Hd Hf Ho Hn Hm. assert (MAXFILE * BSIZE = 71680) as EM by done.
  split; cbn [written set_isize with_addrs i_type i_major i_minor i_nlink i_size i_addrs]; try done.
  - lia.
  - exact (fo_len _ _ _ Hf).
  - by eapply file_addrs_ok.
Qed.

(** The bytes of the file after the write *)
Lemma wrote_file B a B' a' off c size : 0 <= off <= size -> size <= MAXFILE * BSIZE -> off + Z.of_nat (length c) <= MAXFILE * BSIZE ->
  wrote B a B' a' off c ->
  fbytes B' a' 0 (Z.to_nat (Z.max size (off + Z.of_nat (length c)))) =
  take (Z.to_nat off) (fbytes B a 0 (Z.to_nat size)) ++ c ++ drop (Z.to_nat off + length c) (fbytes B a 0 (Z.to_nat size)).
Proof using Type.
  intros Ho Hs Hm W. apply list_eq. intros k.
  assert (length (take (Z.to_nat off) (fbytes B a 0 (Z.to_nat size))) = Z.to_nat off) as Hl by (rewrite length_take, length_fbytes; lia).
  destruct (decide (k < Z.to_nat (Z.max size (off + Z.of_nat (length c))))%nat) as [Hk|Hk].
  - rewrite fbytes_lookup by done. rewrite Z.add_0_l, (wr_bytes _ _ _ _ _ _ _ W) by lia.
    destruct (Z.leb_spec off (Z.of_nat k)), (Z.ltb_spec (Z.of_nat k) (off + Z.of_nat (length c))); cbn [andb].
    + rewrite lookup_app_r, lookup_app_l by lia. rewrite Hl. symmetry.
      replace (Z.to_nat (Z.of_nat k - off)) with (k - Z.to_nat off)%nat by lia. apply list_lookup_lookup_total_lt. lia.
    + rewrite lookup_app_r, lookup_app_r by lia. rewrite lookup_drop, Hl, fbytes_lookup by lia. do 2 f_equal. lia.
    + rewrite lookup_app_l, lookup_take_lt, fbytes_lookup by lia. done.
    + lia.
  - rewrite !lookup_ge_None_2; [done| |].
    + rewrite !length_app, Hl, length_drop, length_fbytes. lia.
    + rewrite length_fbytes. lia.
Qed.

Section written.
Context (B : list bytes) (i : inode) (off : Z) (c : bytes) (B1 : list bytes) (a1 : list Z).
Context (Hd : disk_ok B) (Hi : file_inode B i) (W : wrote B (i_addrs i) B1 a1 off c).
Context (Ho : 0 <= off <= i_size i) (Hmax : off + Z.of_nat (length c) <= MAXFILE * BSIZE).
Abbreviation i' := (written off (Z.of_nat (length c)) a1 i).

Lemma written_holes : no_holes B1 a1 (Z.max (i_size i) (off + Z.of_nat (length c))).
Proof using Hd Hi W Ho Hmax.
  intros bn Hb Hs. change MAXFILE with 140 in *. rewrite BSIZE_512 in *.
  destruct (Z.lt_ge_cases (bn * 512) (i_size i)) as [Hlt|Hge].
  - assert (fblk B (i_addrs i) bn <> 0) as Hn by (apply (fi_holes _ _ Hi); [done|by rewrite BSIZE_512]).
    rewrite (wr_keep _ _ _ _ _ _ _ W); [done| |done]. pose proof (fi_size _ _ Hi) as Hsz.
    change (MAXFILE * BSIZE) with (140 * 512) in Hsz. change MAXFILE with 140. lia.
  - rewrite <- (Z.div_mul bn 512) by lia. rewrite <- BSIZE_512. apply (wr_have _ _ _ _ _ _ _ W). rewrite BSIZE_512. lia.
Qed.

Lemma written_dinode n j : inum_ok n -> dinode_at B1 n j = dinode_at B n j.
Proof using Hd W.
  intros Hn. unfold dinode_at. destruct (iblock_range B n Hd Hn) as [Hb _]. pose proof (disk_pos sb B Hd).
  rewrite (wr_meta _ _ _ _ _ _ _ W); [done|lia].
Qed.

Lemma written_other b : file_ok B b -> apart B (i_addrs i) b -> forall p, owns B b p -> blk B1 p = blk B p /\ dblk B1 p.
Proof using Hd Hi W. intros Hf Hap. by apply (wrote_apart B (i_addrs i) B1 a1 off c); [|apply Hi|..]. Qed.

(** The file did not grow: nothing but its bytes changed. *)
Lemma write_inside : off + Z.of_nat (length c) <= i_size i -> write_result B i off c B1 (with_addrs a1 i).
Proof using Hd Hi W Ho Hmax.
  intros Hin. pose proof (wr_disk _ _ _ _ _ _ _ W) as Hd1. pose proof (wr_file _ _ _ _ _ _ _ W) as Hf1.
  assert (a1 = i_addrs i) as Ea.
  { apply (wr_same _ _ _ _ _ _ _ W). intros p Hp. rewrite BSIZE_512. apply (fi_holes _ _ Hi).
    - apply Z.div_pos; lia.
    - rewrite BSIZE_512. pose proof (Z.mul_div_le p 512 ltac:(lia)). lia. }
  pose proof written_holes as Hnh. rewrite Z.max_l in Hnh by lia.
  pose proof (wrote_file B (i_addrs i) B1 a1 off c (i_size i) Ho (fi_size _ _ Hi) Hmax W) as Hbytes. rewrite Z.max_l in Hbytes by lia.
  rewrite Ea in Hnh, Hbytes, Hf1. rewrite Ea, with_addrs_id. split.
  - done.
  - destruct Hi as [F1 F2 F3 F4 F5 F6 F7 F8]. split; try done. unfold synced. by rewrite written_dinode.
  - exact Hbytes.
  - intros b Hf Hap. apply file_frame; [done|done|]. by apply written_other.
  - intros n j Hn _. by apply written_dinode.
Qed.

(** The file grew: the disk inode has the new size and blocks. *)
Lemma write_grown : write_result B i off c (iupdated B1 i') i'.
Proof using Hd Hi W Ho Hmax.
  pose proof (wr_disk _ _ _ _ _ _ _ W) as Hd1. pose proof (wr_file _ _ _ _ _ _ _ W) as Hf1.
  assert (inum_ok (i_inum i')) as Hin by apply Hi.
  assert (inode_ok i') as Hok by (apply (written_ok B1); [apply Hi|done|done|lia|lia|done]).
  assert (length (i_addrs i') = 13%nat) as Hlen by apply Hok.
  destruct (iupdated_file B1 i' Hd1 Hin a1 Hf1) as [Hf2 [Hfb2 Hby2]].
  assert (MAXFILE * BSIZE = 71680) as EM by done. pose proof (fi_size _ _ Hi) as Hsz.
  split.
  - by apply iupdated_disk.
  - split; try done; try apply Hi.
    + intros bn Hb Hs. cbn [written set_isize with_addrs i_addrs i_size] in *. rewrite Hfb2; [by apply written_holes|].
      rewrite BSIZE_512 in Hs. change MAXFILE with 140. lia.
    + cbn [written set_isize i_size]. lia.
    + by apply iupdated_synced.
  - unfold file. cbn [written set_isize with_addrs i_addrs i_size]. rewrite <- (wrote_file B (i_addrs i) B1 a1) by (done || apply Hi).
    apply list_fmap_ext. intros k x Hk. apply lookup_seq in Hk as [-> Hk]. apply Hby2. lia.
  - intros b Hf Hap. apply file_frame; [done|done|]. intros p Hp.
    destruct (written_other b Hf Hap p Hp) as [<- Hp1]. split; [by apply iupdated_blk|by apply iupdated_dblk].
  - intros n j Hn Hne. rewrite iupdated_other by done. by apply written_dinode.
Qed.
End written.

Lemma wp_writei s B g l ip i off src Q :
  fs_is s B ∅ g l -> l !! ip = Some i -> disk_ok B -> file_inode B i -> Forall byte_ok src ->
  0 <= off <= i_size i -> off + Z.of_nat (length src) <= MAXFILE * BSIZE ->
  (pot (i_addrs i) g + nch off (Z.of_nat (length src)) < st_cap)%nat ->
  free_ge sb B (no_ind (i_addrs i) + nch off (Z.of_nat (length src))) ->
  (forall s' B' i' g', write_result B i off src B' i' -> i_size i' = Z.max (i_size i) (off + Z.of_nat (length src)) ->
     (size g' <= st_cap)%nat -> fs_is s' B' ∅ g' (<[ip := i']> l) -> Q (Z.of_nat (length src)) s') ->
  wp (writei ip src off (Z.of_nat (length src))) s Q.
Proof using Type.
  intros H Hip Hd Hi Hby Ho Hmax Hpot Hfree HQ. assert (MAXFILE * BSIZE = 71680) as EM by done.
  remember (Z.of_nat (length src)) as n eqn:En. assert (0 <= n) as Hn by lia.
  unfold Fs.writei. apply wp_bind. eapply wp_geti_at; [exact H|exact Hip|].
  rewrite (proj2 (Z.eqb_neq _ _) (fi_type _ _ Hi)). rewrite (u32_small (off + n)) by lia.
  rewrite (proj2 (Z.ltb_ge (i_size i) off)), (proj2 (Z.ltb_ge (off + n) off)), (proj2 (Z.ltb_ge (MAXFILE * BSIZE) _)) by lia. cbn [orb].
  apply wp_bind. eapply (wp_writei_loop sb); [exact H|exact Hip|apply Hi|exact Hd|apply Hi| | |lia|lia|done|lia|lia|lia|];
    rewrite Z.sub_0_r; [lia|exact Hfree|].
  intros s1 B1 a1 g1 W Hp1 H1. replace (slice (Z.to_nat 0) (Z.to_nat n) src) with src in W
    by (unfold slice; cbn [drop Z.to_nat]; by rewrite En, Nat2Z.id, firstn_all).
  assert (ip < length l)%nat as Hlt by (by eapply lookup_lt_Some).
  assert ((<[ip := with_addrs a1 i]> l) !! ip = Some (with_addrs a1 i)) as Hip1 by (by rewrite list_lookup_insert_eq).
  destruct (size_in_pot sb a1 g1 _ Hp1) as [Hg1 _].
  apply wp_bind. eapply wp_geti_at; [exact H1|exact Hip1|]. cbn [with_addrs i_size].
  rewrite (s32_small n) by lia.
  destruct (Z.ltb_spec (i_size i) (off + n)) as [Hgr|Hin].
  - rewrite (proj2 (Z.ltb_lt 0 n)) by lia. cbn [andb]. apply wp_bind, wp_bind.
    eapply wp_modi_at; [exact H1|exact Hip1|]. intros s2 H2. rewrite list_insert_insert_eq in H2.
    assert (set_isize (off + n) (with_addrs a1 i) = written off n a1 i) as E by (unfold written; by rewrite Z.max_r by lia).
    rewrite E in H2. pose proof (write_grown B i off src B1 a1 Hd Hi W Ho ltac:(lia)) as R. rewrite <- En in R.
    assert (size ({[Z.to_nat (iblock (i_inum (written off n a1 i)))]} ∪ g1) <= st_cap)%nat as Hg2.
    { pose proof (size_union_le {[Z.to_nat (iblock (i_inum (written off n a1 i)))]} g1) as Hu. rewrite size_singleton in Hu. lia. }
    eapply wp_iupdate; [exact H2|by rewrite list_lookup_insert_eq|apply Hi|apply W|apply Hi|apply (fo_len _ _ _ (wr_file _ _ _ _ _ _ _ W))|exact Hg2|].
    intros s3 H3. apply wp_ret. eapply HQ; [exact R|cbn [written set_isize i_size]; lia|exact Hg2|exact H3].
  - rewrite andb_false_r. apply wp_bind, wp_ret, wp_ret. eapply HQ; [| | |exact H1].
    + apply write_inside; (done || lia).
    + cbn [with_addrs i_size]. lia.
    + lia.
Qed.

(** Reading back the segment just written returns the bytes that were
    written. *)
Theorem writei_readi s B g l ip i off src :
  fs_is s B ∅ g l -> l !! ip = Some i -> disk_ok B -> file_inode B i -> Forall byte_ok src ->
  0 <= off <= i_size i -> off + Z.of_nat (length src) <= MAXFILE * BSIZE ->
  (pot (i_addrs i) g + nch off (Z.of_nat (length src)) < st_cap)%nat ->
  free_ge sb B (no_ind (i_addrs i) + nch off (Z.of_nat (length src))) ->
  exists s', (writei ip src off (Z.of_nat (length src));; readi ip off (Z.of_nat (length src))) s =
    Done s' (Z.of_nat (length src), src).
Proof using Type.
  intros H Hip Hd Hi Hby Ho Hm Hp Hf. assert (MAXFILE * BSIZE = 71680) as EM by done.
  edestruct (wp_Done (writei ip src off (Z.of_nat (length src));; readi ip off (Z.of_nat (length src))) s
    (fun r s' => r = (Z.of_nat (length src), src))) as (s' & r & E & ->); [|by exists s'].
  apply wp_bind. eapply wp_writei; try done. intros s1 B1 i1 g1 R Hsz Hg H1.
  assert (ip < length l)%nat as Hlt by (by eapply lookup_lt_Some).
  destruct R as [R1 R2 R3 _ _]. destruct Hi as [_ _ _ I4 _ _ I7 _]. pose proof (io_size _ I4). destruct R2 as [F1 F2 F3 F4 F5 F6 F7 F8].
  eapply (wp_readi sb); [exact H1|by rewrite list_lookup_insert_eq|exact F1|exact R1|exact F5|exact Hg|exact F2|exact F6|lia|lia|lia|].
  intros s2 _. cbn zeta. rewrite Z.min_l by lia. f_equal.
  set (n := length src) in *. rewrite Nat2Z.id.
  assert (fbytes B1 (i_addrs i1) off n = take n (drop (Z.to_nat off) (file B1 i1))) as ->.
  { unfold file. replace (Z.to_nat (i_size i1)) with (Z.to_nat off + (n + (Z.to_nat (i_size i1) - Z.to_nat off - n)))%nat by lia.
    rewrite !fbytes_app, drop_app_length', take_app_length' by (by rewrite length_fbytes). f_equal. lia. }
  rewrite R3, drop_app_length', take_app_length'; [done|done|]. unfold file. rewrite length_take, length_fbytes. lia.
Qed.

(** The write makes sense: it leaves no gap and the file stays below its largest
    size; with true integers, not with those of the code *)
Definition fits (i : inode) (off : Z) (src : bytes) : Prop :=
  off <= i_size i /\ off + Z.of_nat (length src) <= MAXFILE * BSIZE.

(** C39: writei accepts exactly the writes that make sense, also when the 32-bit
    sum of offset and count wraps around.  A write that starts past the end of
    the file or would make it longer than MAXFILE blocks returns -1 and changes
    nothing.  Every other one, in a transaction with room for its blocks and
    with enough of them free, returns the count: the file is the old one with
    the bytes spliced in, and no other file or inode changes. *)
Theorem writei_exact s B g l ip i off src :
  fs_is s B ∅ g l -> l !! ip = Some i -> disk_ok B -> file_inode B i -> Forall byte_ok src ->
  0 <= off < 2 ^ 32 -> Z.of_nat (length src) < 2 ^ 32 ->
  (~ fits i off src -> writei ip src off (Z.of_nat (length src)) s = Done s (-1)) /\
  (fits i off src ->
   (pot (i_addrs i) g + nch off (Z.of_nat (length src)) < st_cap)%nat ->
   free_ge sb B (no_ind (i_addrs i) + nch off (Z.of_nat (length src))) ->
   exists s' B' i' g', writei ip src off (Z.of_nat (length src)) s = Done s' (Z.of_nat (length src)) /\
     write_result B i off src B' i' /\ i_size i' = Z.max (i_size i) (off + Z.of_nat (length src)) /\
     fs_is s' B' ∅ g' (<[ip := i']> l)).
Proof using Type.
  intros H Hip Hd Hi Hby Ho Hn. assert (MAXFILE * BSIZE = 71680) as EM by done. unfold fits. rewrite EM. split.
  - intros Hf. unfold Fs.writei, geti, kgets, mbind, kernel_bind. cbv beta iota.
    rewrite (is_inodes _ _ _ _ _ _ H), (list_lookup_total_correct _ _ _ Hip), (proj2 (Z.eqb_neq _ _) (fi_type _ _ Hi)).
    destruct (Z.ltb_spec (i_size i) off); [done|]. destruct (Z.ltb_spec (u32 (off + Z.of_nat (length src))) off) as [|Hw]; [done|]. cbn [orb].
    rewrite (proj2 (Z.ltb_lt _ _)); [done|]. rewrite EM. unfold u32 in *.
    destruct (decide (off + Z.of_nat (length src) < 2 ^ 32)); [rewrite Z.mod_small; lia|]. exfalso.
    assert ((off + Z.of_nat (length src)) mod 2 ^ 32 = off + Z.of_nat (length src) - 2 ^ 32)
      by (symmetry; apply (Z.mod_unique_pos _ _ 1); lia). lia.
  - intros [F1 F2] Hp Hf.
    edestruct (wp_Done (writei ip src off (Z.of_nat (length src))) s (fun r s' => exists B' i' g', r = Z.of_nat (length src) /\
      write_result B i off src B' i' /\ i_size i' = Z.max (i_size i) (off + Z.of_nat (length src)) /\ fs_is s' B' ∅ g' (<[ip := i']> l)))
      as (s' & r & E & B' & i' & g' & -> & R); [|by exists s', B', i', g'].
    eapply wp_writei; try done; try lia. intros s' B' i' g' R1 R2 _ R3. by exists B', i', g'.
Qed.
End FsWrite.
