(* ===== verification/FsCache.v ===== *)
(** * The inode cache (fs.c: iget, idup, ilock, iunlock, iput)

    [cache_ok] is the invariant of icache: entries in use have distinct inode
    numbers, a valid entry is a copy of the inode on disk, the busy ones are
    those in a given set. The operations keep it, and [rc] says what they do to
    the number of references to each inode. *)

From S2P Require Import Prelude Params Bytes Store CString Fs FsSpec FsData FsFile FsWrite.

Section FsCache.
Context {S : Type} {St : BlockStore S} {Dims : BlockStoreDims S} {Laws : BlockStoreLaws S} (sb : superblock).

Abbreviation disk_ok := (disk_ok sb).
Abbreviation fs_is := (fs_is sb).
Abbreviation inum_ok := (inum_ok sb).
Abbreviation dinode_at := (dinode_at sb).
Abbreviation synced := (synced sb).

(** The inode [n] as it is on disk *)
Definition dnode (B : list bytes) (n : Z) : inode := dinode_at B n (mkInode 1 n 0 0 0 0 0 0 0 []).

Record entry_ok (B : list bytes) (locked : Prop) (i : inode) : Prop := mkEntry {
  en_dev : i_dev i = 1;
  en_inum : inum_ok (i_inum i);
  en_lock : locked -> i_flags i = 3;
  en_free : ~ locked -> i_flags i = 0 \/ i_flags i = 2;
  en_sync : i_flags i <> 0 -> synced B i
}.

Record cache_ok (B : list bytes) (L : gset nat) (l : list inode) : Prop := mkCacheOk {
  ca_ref : forall p i, l !! p = Some i -> 0 <= i_ref i;
  ca_entry : forall p i, l !! p = Some i -> 0 < i_ref i -> entry_ok B (p ∈ L) i;
  ca_uniq : forall p q i j, l !! p = Some i -> l !! q = Some j -> 0 < i_ref i -> 0 < i_ref j -> i_inum i = i_inum j -> p = q;
  ca_held : forall p, p ∈ L -> exists i, l !! p = Some i /\ 0 < i_ref i
}.

(** ** References to an inode, free entries *)
Definition refs_to (n : Z) (i : inode) : Z := if i_inum i =? n then i_ref i else 0.
Definition rc (l : list inode) (n : Z) : Z := foldr (fun i t => refs_to n i + t) 0 l.
Definition is_free (i : inode) : nat := if i_ref i =? 0 then 1%nat else 0%nat.
Definition slots (l : list inode) : nat := foldr (fun i t => (is_free i + t)%nat) 0%nat l.

Lemma rc_insert l p i j n : l !! p = Some i -> rc (<[p := j]> l) n = rc l n - refs_to n i + refs_to n j.
Proof using Type.
  unfold rc. revert p. induction l as [|x l IH]; intros [|p] H; try done.
  - injection H as ->. change (<[0%nat := j]> (i :: l)) with (j :: l). cbn [foldr]. lia.
  - specialize (IH p H). change (<[Datatypes.S p := j]> (x :: l)) with (x :: <[p := j]> l). cbn [foldr]. lia.
Qed.
Lemma slots_insert l p i j : l !! p = Some i -> (slots (<[p := j]> l) + is_free i = slots l + is_free j)%nat.
Proof using Type.
  unfold slots. revert p. induction l as [|x l IH]; intros [|p] H; try done.
  - injection H as ->. change (<[0%nat := j]> (i :: l)) with (j :: l). cbn [foldr]. lia.
  - specialize (IH p H). change (<[Datatypes.S p := j]> (x :: l)) with (x :: <[p := j]> l). cbn [foldr]. lia.
Qed.
Lemma slots_pos l : (0 < slots l)%nat -> exists p i, l !! p = Some i /\ i_ref i = 0.
Proof using Type.
  unfold slots. induction l as [|x l IH]; cbn; [lia|]. unfold is_free at 1. destruct (Z.eqb_spec (i_ref x) 0) as [E|E]; intros H.
  - by exists 0%nat, x.
  - destruct (IH ltac:(lia)) as (p & i & Hp & Hi). by exists (Datatypes.S p), i.
Qed.
Lemma rc_nonneg l n : (forall q j, l !! q = Some j -> 0 <= i_ref j) -> 0 <= rc l n.
Proof using Type.
  unfold rc. induction l as [|x l IH]; intros Hr; cbn; [lia|]. pose proof (Hr 0%nat x eq_refl).
  specialize (IH (fun q j => Hr (Datatypes.S q) j)). unfold refs_to at 1. case_match; lia.
Qed.
Lemma rc_entry l p i : (forall q j, l !! q = Some j -> 0 <= i_ref j) -> l !! p = Some i -> i_ref i <= rc l (i_inum i).
Proof using Type.
  revert p. induction l as [|x l IH]; intros p Hr Hp; [done|]. pose proof (Hr 0%nat x eq_refl).
  assert (forall q j, l !! q = Some j -> 0 <= i_ref j) as Hr' by (intros q j; apply (Hr (Datatypes.S q) j)).
  change (rc (x :: l) ?n) with (refs_to n x + rc l n). destruct p as [|p].
  - injection Hp as ->. unfold refs_to. rewrite Z.eqb_refl. pose proof (rc_nonneg l (i_inum i) Hr'). lia.
  - pose proof (IH p Hr' Hp). unfold refs_to. case_match; lia.
Qed.

Lemma rc_none l n : (forall q j, l !! q = Some j -> 0 <= i_ref j) ->
  (forall q k, l !! q = Some k -> 0 < i_ref k -> i_inum k <> n) -> rc l n = 0.
Proof using Type.
  unfold rc. induction l as [|x l IH]; intros Hr Hn; cbn; [done|].
  rewrite IH; [|intros q; apply (Hr (Datatypes.S q))|intros q; apply (Hn (Datatypes.S q))].
  pose proof (Hr 0%nat x eq_refl). pose proof (Hn 0%nat x eq_refl). unfold refs_to. case_match; breflect; lia.
Qed.

(** ** Changing one entry *)
Lemma cache_insert B L L' l p i j : cache_ok B L l -> l !! p = Some i -> 0 <= i_ref j ->
  (0 < i_ref j -> entry_ok B (p ∈ L') j) ->
  (0 < i_ref j -> forall q k, q <> p -> l !! q = Some k -> 0 < i_ref k -> i_inum k <> i_inum j) ->
  (forall q, q <> p -> q ∈ L' <-> q ∈ L) -> (p ∈ L' -> 0 < i_ref j) ->
  cache_ok B L' (<[p := j]> l).
Proof using Type.
  intros [H1 H2 H3 H4] Hp Hj He Hu HL HpL. assert (p < length l)%nat as Hlt by (by eapply lookup_lt_Some). split.
  - intros q k Hq. apply list_lookup_insert_Some in Hq as [(<- & <- & _)|[_ Hq]]; [done|by eapply H1].
  - intros q k Hq Hk. apply list_lookup_insert_Some in Hq as [(<- & <- & _)|[Hne Hq]]; [by apply He|].
    destruct (H2 q k Hq Hk) as [E1 E2 E3 E4 E5]. assert (q ∈ L' <-> q ∈ L) as HL1 by (apply HL; done). split; try done.
    + rewrite HL1. done.
    + rewrite HL1. done.
  - intros q r k m Hq Hr Hk Hm E. apply list_lookup_insert_Some in Hq as [(<- & <- & _)|[Hq1 Hq]];
      apply list_lookup_insert_Some in Hr as [(<- & <- & _)|[Hr1 Hr]]; [done|..].
    + exfalso. by apply (Hu Hk r m).
    + exfalso. by apply (Hu Hm q k).
    + by eapply H3.
  - intros q Hq. destruct (decide (q = p)) as [->|Hne].
    + exists j. split; [by apply list_lookup_insert_eq|by apply HpL].
    + rewrite list_lookup_insert_ne by done. apply H4. by apply HL.
Qed.

(** An entry keeps its inode and is still in use, or is given up. *)
Lemma cache_update B L L' l p i j : cache_ok B L l -> l !! p = Some i -> 0 < i_ref i -> i_inum j = i_inum i -> 0 <= i_ref j ->
  (0 < i_ref j -> entry_ok B (p ∈ L') j) -> (forall q, q <> p -> q ∈ L' <-> q ∈ L) -> (p ∈ L' -> 0 < i_ref j) ->
  cache_ok B L' (<[p := j]> l).
Proof using Type.
  intros H Hp Hi E Hj He HL HpL. eapply cache_insert; try done. intros _ q k Hne Hq Hk E'.
  apply Hne. eapply (ca_uniq _ _ _ H); try done. congruence.
Qed.

(** ** The inodes in use *)
Definition in_use (l : list inode) : gset Z :=
  list_to_set (map i_inum (List.filter (fun i => 0 <? i_ref i) l)).

Lemma elem_in_use l n : n ∈ in_use l <-> exists p i, l !! p = Some i /\ 0 < i_ref i /\ i_inum i = n.
Proof using Type.
  unfold in_use. rewrite elem_of_list_to_set, list_elem_of_In, in_map_iff. split.
  - intros (i & <- & Hi). apply filter_In in Hi as [Hi Hr]. apply Z.ltb_lt in Hr. apply list_elem_of_In, list_elem_of_lookup in Hi as [p Hp]. by exists p, i.
  - intros (p & i & Hp & Hr & <-). exists i. split; [done|]. apply filter_In. split; [|by apply Z.ltb_lt].
    apply list_elem_of_In. by eapply list_elem_of_lookup_2.
Qed.
Lemma rc_in_use B L l n : cache_ok B L l -> n ∈ in_use l <-> 0 < rc l n.
Proof using Type.
  intros H. rewrite elem_in_use. split.
  - intros (p & i & Hp & Hr & <-). pose proof (rc_entry l p i (ca_ref _ _ _ H) Hp). lia.
  - intros Hrc. destruct (decide (n ∈ in_use l)) as [Hn|Hn]; [by apply elem_in_use|]. exfalso.
    rewrite (rc_none l n (ca_ref _ _ _ H)) in Hrc; [lia|]. intros q k Hq Hk E. apply Hn, elem_in_use. by exists q, k.
Qed.
Lemma slots_in_use_aux l : (forall p i, l !! p = Some i -> 0 <= i_ref i) ->
  (forall p q i j, l !! p = Some i -> l !! q = Some j -> 0 < i_ref i -> 0 < i_ref j -> i_inum i = i_inum j -> p = q) ->
  (slots l + size (in_use l) = length l)%nat.
Proof using Type.
  induction l as [|x l IH]; intros Hr Hu; [done|].
  assert (slots l + size (in_use l) = length l)%nat as IH'.
  { apply IH; [intros p; apply (Hr (Datatypes.S p))|]. intros p q i j Hp Hq H1 H2 E.
    pose proof (Hu (Datatypes.S p) (Datatypes.S q) i j Hp Hq H1 H2 E). lia. }
  pose proof (Hr 0%nat x eq_refl) as Hx. change (slots (x :: l)) with (is_free x + slots l)%nat. unfold is_free. cbn [length].
  unfold in_use. cbn [List.filter]. destruct (Z.ltb_spec 0 (i_ref x)) as [Hlt|Hge].
  - rewrite (proj2 (Z.eqb_neq _ _)) by lia. cbn [map list_to_set]. fold (in_use l).
    rewrite size_union, size_singleton; [lia|]. apply disjoint_singleton_l. intros Hin.
    apply elem_in_use in Hin as (p & i & Hp & Hi & E). pose proof (Hu 0%nat (Datatypes.S p) x i eq_refl Hp Hlt Hi (eq_sym E)). lia.
  - rewrite (proj2 (Z.eqb_eq _ _)) by lia. fold (in_use l). lia.
Qed.
Lemma slots_in_use B L l : cache_ok B L l -> (slots l + size (in_use l) = length l)%nat.
Proof using Type. intros H. apply slots_in_use_aux; apply H. Qed.
Lemma rc_eq_aux l p i : (forall q j, l !! q = Some j -> 0 <= i_ref j) -> l !! p = Some i ->
  (forall q j, l !! q = Some j -> q <> p -> 0 < i_ref j -> i_inum j <> i_inum i) -> rc l (i_inum i) = i_ref i.
Proof using Type.
  intros Hr Hp Hu. pose proof (rc_insert l p i (set_iref 0 i) (i_inum i) Hp) as E.
  assert (rc (<[p := set_iref 0 i]> l) (i_inum i) = 0) as E0.
  { apply rc_none.
    - intros q j Hq. apply list_lookup_insert_Some in Hq as [(_ & <- & _)|[_ Hq]]; [done|by eapply Hr].
    - intros q j Hq Hj. apply list_lookup_insert_Some in Hq as [(_ & <- & _)|[Hne Hq]]; [done|]. by apply (Hu q j). }
  unfold refs_to in E. cbn in E. rewrite Z.eqb_refl in E. lia.
Qed.
Lemma rc_eq B L l p i : cache_ok B L l -> l !! p = Some i -> 0 < i_ref i -> rc l (i_inum i) = i_ref i.
Proof using Type.
  intros H Hp Hi. apply (rc_eq_aux l p); [apply H|done|]. intros q j Hq Hne Hj E. apply Hne. by eapply (ca_uniq _ _ _ H).
Qed.

(** ** iget and idup *)
Definition keeps_entries (l l' : list inode) : Prop :=
  forall q k, l !! q = Some k -> 0 < i_ref k -> exists r, 0 < r /\ l' !! q = Some (set_iref r k).

Definition one_at (n m : Z) : Z := if m =? n then 1 else 0.

(** [l'] is [l] with one more reference to [n], at entry [p]. *)
Record got (B : list bytes) (L : gset nat) (l : list inode) (n : Z) (p : nat) (l' : list inode) : Prop := mkGot {
  gt_ok : cache_ok B L l';
  gt_at : exists j, l' !! p = Some j /\ i_inum j = n /\ 0 < i_ref j;
  gt_rc : forall m, rc l' m = rc l m + one_at n m;
  gt_slots : (slots l <= slots l' + 1)%nat /\ (0 < rc l n -> slots l' = slots l);
  gt_keep : keeps_entries l l';
  gt_len : length l' = length l
}.

Lemma synced_iref B r i : synced B i -> synced B (set_iref r i).
Proof using Type. exact (f_equal (set_iref r) (x:=_) (y:=_)). Qed.
Lemma synced_iflags B f i : synced B i -> synced B (set_iflags f i).
Proof using Type. exact (f_equal (set_iflags f) (x:=_) (y:=_)). Qed.

Lemma ref_more B L l p i : cache_ok B L l -> l !! p = Some i -> 0 < i_ref i ->
  got B L l (i_inum i) p (<[p := set_iref (i_ref i + 1) i]> l).
Proof using Type.
  intros H Hp Hi. assert (p < length l)%nat as Hlt by (by eapply lookup_lt_Some).
  pose proof (ca_entry _ _ _ H p i Hp Hi) as [E1 E2 E3 E4 E5]. split.
  - eapply cache_update; try done; cbn; try lia.
    intros _. split; try done. intros Hf. apply synced_iref, E5, Hf.
  - eexists. split; [by apply list_lookup_insert_eq|]. cbn. split; [done|lia].
  - intros m. rewrite (rc_insert _ _ _ _ _ Hp). unfold refs_to, one_at. cbn. rewrite (Z.eqb_sym m). case_match; lia.
  - pose proof (slots_insert l p i (set_iref (i_ref i + 1) i) Hp) as Es. unfold is_free in Es. cbn in Es.
    rewrite (proj2 (Z.eqb_neq (i_ref i) 0)), (proj2 (Z.eqb_neq (i_ref i + 1) 0)) in Es by lia. lia.
  - intros q k Hq Hk. destruct (decide (q = p)) as [->|Hne].
    + rewrite Hp in Hq. injection Hq as <-. exists (i_ref i + 1). split; [lia|]. by apply list_lookup_insert_eq.
    + exists (i_ref k). split; [done|]. rewrite list_lookup_insert_ne by done. rewrite Hq. by destruct k.
  - apply length_insert.
Qed.

Lemma wp_iget s B h g l L n Q :
  fs_is s B h g l -> cache_ok B L l -> inum_ok n -> 0 < rc l n \/ (0 < slots l)%nat -> rc l n + 1 < 2 ^ 31 ->
  (forall s' p l', got B L l n p l' -> fs_is s' B h g l' -> Q p s') -> wp (iget 1 n) s Q.
Proof using Type.
  intros H Hc Hn Hroom Hmax HQ. pose proof (is_inodes _ _ _ _ _ _ H) as El. unfold wp, iget. rewrite El.
  assert (forall q j, l !! q = Some j -> 0 <= i_ref j) as Hr by apply Hc.
  destruct (find_index (is_inode 1 n) l) as [p|] eqn:F.
  - apply find_index_Some in F as [(i & Hp & Hi) _]. unfold is_inode in Hi. breflect.
    assert (i_inum i = n) as En by done. subst n.
    pose proof (rc_entry l p i Hr Hp) as Hle. eapply (HQ _ p (<[p := set_iref (i_ref i + 1) i]> l)).
    + by apply (ref_more B L l p i).
    + destruct H as [G1 G2 G3]. split; [done|done|]. cbn.
      assert (alter (fun i => set_iref (s32 (i_ref i + 1)) i) p l = <[p := set_iref (i_ref i + 1) i]> l) as ->; [|done].
      rewrite (alter_insert _ _ _ _ Hp). by rewrite s32_small by lia.
  - rewrite find_index_None in F.
    assert (forall q k, l !! q = Some k -> 0 < i_ref k -> i_inum k <> n) as Hnot.
    { intros q k Hq Hk E. specialize (F q k Hq). unfold is_inode in F. rewrite (proj2 (Z.ltb_lt _ _) Hk) in F.
      rewrite (en_dev _ _ _ (ca_entry _ _ _ Hc q k Hq Hk)), E, !Z.eqb_refl in F. done. }
    pose proof (rc_none l n Hr Hnot) as Hrc.
    destruct Hroom as [Hroom|Hroom]; [lia|]. destruct (find_index is_empty l) as [p|] eqn:G; cycle 1.
    { rewrite find_index_None in G. destruct (slots_pos l Hroom) as (p & i & Hp & Hi). specialize (G p i Hp).
      unfold is_empty in G. breflect. lia. }
    apply find_index_Some in G as [(i & Hp & Hi) _]. unfold is_empty in Hi. breflect.
    set (j := mkInode 1 n 1 0 (i_type i) (i_major i) (i_minor i) (i_nlink i) (i_size i) (i_addrs i)).
    assert (p < length l)%nat as Hlt by (by eapply lookup_lt_Some).
    assert (p ∉ L) as HpL. { intros HpL. destruct (ca_held _ _ _ Hc p HpL) as (k & Hk & Hk0). rewrite Hp in Hk. injection Hk as <-. lia. }
    eapply (HQ _ p (<[p := j]> l)).
    + split.
      * eapply cache_insert; try done; cbn; try lia.
        -- intros _. split; try done. by left.
        -- intros _ q k _. apply Hnot.
      * exists j. split; [by apply list_lookup_insert_eq|done].
      * intros m. rewrite (rc_insert _ _ _ _ _ Hp). unfold refs_to, one_at. cbn. rewrite (Z.eqb_sym m), Hi. case_match; case_match; lia.
      * pose proof (slots_insert l p i j Hp) as Es. unfold is_free in Es. cbn in Es. rewrite Hi in Es. cbn in Es. lia.
      * intros q k Hq Hk. exists (i_ref k). split; [done|]. rewrite list_lookup_insert_ne; [rewrite Hq; by destruct k|].
        intros <-. rewrite Hp in Hq. injection Hq as <-. lia.
      * apply length_insert.
    + destruct H as [G1 G2 G3]. split; [done|done|]. cbn. by rewrite (alter_insert _ _ _ _ Hp).
Qed.

Lemma wp_idup s B h g l L p i Q :
  fs_is s B h g l -> cache_ok B L l -> l !! p = Some i -> 0 < i_ref i -> i_ref i + 1 < 2 ^ 31 ->
  (forall s' l', got B L l (i_inum i) p l' -> fs_is s' B h g l' -> Q p s') -> wp (idup p) s Q.
Proof using Type.
  intros H Hc Hp Hi Hmax HQ. unfold idup. apply wp_bind. eapply wp_modi_at; [exact H|exact Hp|].
  intros s' H'. apply wp_ret. eapply HQ; [by apply (ref_more B L l p i)|]. by rewrite s32_small in H' by lia.
Qed.

(** ** ilock and iunlock *)
Definition locked (B : list bytes) (i : inode) : inode := set_iflags 3 (dinode_at B (i_inum i) i).

Lemma locked_synced B i : synced B (locked B i).
Proof using Type. done. Qed.

Lemma cache_lock B L l p i : cache_ok B L l -> l !! p = Some i -> 0 < i_ref i ->
  cache_ok B ({[p]} ∪ L) (<[p := locked B i]> l).
Proof using Type.
  intros H Hp Hi. pose proof (ca_entry _ _ _ H p i Hp Hi) as [E1 E2 E3 E4 E5].
  eapply cache_update; try done; cbn; [lia| |set_solver].
  intros _. split; try done. intros Hn. exfalso. apply Hn. set_solver.
Qed.

Lemma wp_ilock s B g l L p i Q :
  fs_is s B ∅ g l -> disk_ok B -> cache_ok B L l -> (size g <= st_cap)%nat -> l !! p = Some i -> 0 < i_ref i -> p ∉ L ->
  i_type (dnode B (i_inum i)) <> 0 ->
  (forall s', fs_is s' B ∅ g (<[p := locked B i]> l) -> cache_ok B ({[p]} ∪ L) (<[p := locked B i]> l) -> Q tt s') ->
  wp (ilock (Some p)) s Q.
Proof using Type.
  intros H Hd Hc Hg Hp Hi HL Hty HQ. pose proof (ca_entry _ _ _ Hc p i Hp Hi) as [E1 E2 _ E4 E5].
  assert (p < length l)%nat as Hlt by (by eapply lookup_lt_Some). pose proof (disk_pos sb B Hd) as Hpos.
  unfold ilock. apply wp_bind. eapply wp_geti_at; [exact H|exact Hp|]. rewrite (proj2 (Z.ltb_ge _ _)) by lia.
  assert (has (i_flags i) I_BUSY = false) as -> by (by destruct (E4 HL) as [-> | ->]).
  apply wp_bind. eapply wp_modi_at; [exact H|exact Hp|]. intros s1 H1.
  apply wp_bind. eapply wp_geti_at; [exact H1|by apply list_lookup_insert_eq|].
  destruct (E4 HL) as [Ef|Ef].
  - assert (setf (i_flags i) I_BUSY = 1) as Es by (by rewrite Ef). cbn [i_flags set_iflags i_dev i_inum]. rewrite Es, E1.
    change (has 1 I_VALID) with false. cbn iota. apply wp_bind. eapply wp_getsb; [exact H1|].
    destruct (iblock_range sb B _ Hd E2) as [Hb ->]. pose proof (ly_first _ _ (dk_layout _ _ Hd)) as Hfst.
    apply wp_bind. eapply (wp_bread sb); [exact H1|right; lia|lia|lia|apply not_held_empty|rewrite map_size_empty; lia|exact Hg|].
    intros s2 b _ H2. apply wp_bind. eapply wp_data; [exact H2|by rewrite lookup_insert_eq|].
    apply wp_bind. eapply wp_modi_at; [exact H2|by apply list_lookup_insert_eq|]. rewrite list_insert_insert_eq. intros s3 H3.
    apply wp_bind. eapply wp_brelse; [exact H3|by rewrite lookup_insert_eq|]. intros s4 H4. rewrite held_back in H4 by apply lookup_empty.
    apply wp_bind. eapply wp_modi_at; [exact H4|by apply list_lookup_insert_eq|]. rewrite list_insert_insert_eq. intros s5 H5.
    apply wp_bind. eapply wp_geti_at; [exact H5|by apply list_lookup_insert_eq|].
    rewrite Es in H5. rewrite Es. change (set_iflags _ (read_dinode _ _ (set_iflags 1 i))) with (locked B i) in H5 |- *.
    change (i_type (locked B i)) with (i_type (dnode B (i_inum i))). rewrite (proj2 (Z.eqb_neq _ _) Hty).
    apply wp_ret. by apply HQ; [|apply cache_lock].
  - assert (setf (i_flags i) I_BUSY = 3) as Es by (by rewrite Ef). cbn [i_flags set_iflags]. rewrite Es in H1 |- *.
    change (has 3 I_VALID) with true. cbn iota. apply wp_ret.
    assert (set_iflags 3 i = locked B i) as E by (unfold locked; by rewrite E5 by lia).
    rewrite E in H1. by apply HQ; [|apply cache_lock].
Qed.

Lemma wp_iunlock s B h g l L p i Q :
  fs_is s B h g l -> cache_ok B L l -> l !! p = Some i -> p ∈ L ->
  (forall s', fs_is s' B h g (<[p := set_iflags 2 i]> l) -> cache_ok B (L ∖ {[p]}) (<[p := set_iflags 2 i]> l) -> Q tt s') ->
  wp (iunlock (Some p)) s Q.
Proof using Type.
  intros H Hc Hp HL HQ. destruct (ca_held _ _ _ Hc p HL) as (i' & Hp' & Hi). rewrite Hp in Hp'. injection Hp' as <-.
  pose proof (ca_entry _ _ _ Hc p i Hp Hi) as [E1 E2 E3 _ E5]. specialize (E3 HL).
  unfold iunlock. apply wp_bind. eapply wp_geti_at; [exact H|exact Hp|]. rewrite E3, (proj2 (Z.ltb_ge _ _)) by lia.
  change (negb (has 3 I_BUSY) || false) with false. cbn iota. eapply wp_modi_at; [exact H|exact Hp|].
  intros s' H'. rewrite E3 in H'. change (clrf 3 I_BUSY) with 2 in H'. apply HQ; [done|].
  eapply cache_update; try done; cbn; [lia| |set_solver].
  intros _. split; try done; [set_solver|by right|]. intros _. apply synced_iflags, E5. lia.
Qed.

(** ** iput of an inode that stays on disk *)
Record gave (B : list bytes) (L : gset nat) (l : list inode) (n : Z) (l' : list inode) : Prop := mkGave {
  gv_ok : cache_ok B L l';
  gv_rc : forall m, rc l' m = rc l m - one_at n m;
  gv_slots : (slots l <= slots l')%nat
}.

Lemma wp_iput s B h g l L p i Q :
  fs_is s B h g l -> cache_ok B L l -> l !! p = Some i -> 0 < i_ref i < 2 ^ 31 -> p ∉ L -> i_nlink (dnode B (i_inum i)) <> 0 ->
  (forall s' l', l' = <[p := set_iref (i_ref i - 1) i]> l -> gave B L l (i_inum i) l' -> fs_is s' B h g l' -> Q tt s') ->
  wp (iput p) s Q.
Proof using Type.
  intros H Hc Hp [Hi Hmax] HL Hnl HQ. pose proof (ca_entry _ _ _ Hc p i Hp Hi) as [E1 E2 _ E4 E5].
  unfold iput. apply wp_bind. eapply wp_geti_at; [exact H|exact Hp|].
  assert ((i_ref i =? 1) && has (i_flags i) I_VALID && (i_nlink i =? 0) = false) as ->.
  { apply andb_false_iff. destruct (E4 HL) as [Ef|Ef]; rewrite Ef; [left; apply andb_false_r|right].
    apply Z.eqb_neq. assert (synced B i) as Hs by (apply E5; lia). rewrite <- Hs. exact Hnl. }
  apply wp_bind, wp_ret. eapply wp_modi_at; [exact H|exact Hp|]. intros s' H'. rewrite s32_small in H' by lia.
  eapply HQ; [reflexivity| |exact H']. split.
  - eapply cache_update; try done; cbn; [lia|]. intros _. split; try done. intros Hf. apply synced_iref, E5, Hf.
  - intros m. rewrite (rc_insert _ _ _ _ _ Hp). unfold refs_to, one_at. cbn. rewrite (Z.eqb_sym m). case_match; lia.
  - pose proof (slots_insert l p i (set_iref (i_ref i - 1) i) Hp) as Es. unfold is_free at 1 in Es.
    rewrite (proj2 (Z.eqb_neq (i_ref i) 0)) in Es by lia. lia.
Qed.
End FsCache.
