(* ===== verification/FsDir.v ===== *)
(** * Directories (fs.c: dirlookup, dirlink)

    A directory is a file of 16-byte entries. [dir_map] is the finite map from
    names to inode numbers that it stands for: dirlookup is a lookup in the map,
    and dirlink inserts into it. Names are compared as the code does, up to their
    terminating 0 and at most DIRSIZ bytes of them. *)

From S2P Require Import Prelude Params Bytes Store CString Fs FsSpec FsData FsFile FsWrite FsCache.

(** ** Names *)
Definition fname (n : list Z) : list Z := take DIRSIZ (cstr n).
(** Reading [k] characters stays within the array. *)
Definition readable (k : nat) (p : list Z) : Prop := (k <= length p)%nat \/ 0 ∈ p.

Lemma readable_cons k a p : a <> 0 -> readable (Datatypes.S k) (a :: p) -> readable k p.
Proof. intros Ha [H|H]; [left; cbn in H; lia|]. apply elem_of_cons in H as [H|H]; [by subst|by right]. Qed.

Lemma strncmp_names k : forall p q, readable k p -> readable k q -> Forall byte_ok p -> Forall byte_ok q ->
  exists r, strncmp p q k = Some r /\ (r = 0 <-> take k (cstr p) = take k (cstr q)).
Proof.
  induction k as [|k IH]; intros p q Hp Hq Bp Bq; [exists 0; split; [by destruct p|by split]|].
  destruct p as [|a p]; [destruct Hp as [Hp|Hp]; [cbn in Hp; lia|by apply not_elem_of_nil in Hp]|].
  destruct q as [|b q]; [destruct Hq as [Hq|Hq]; [cbn in Hq; lia|by apply not_elem_of_nil in Hq]|].
  apply Forall_cons in Bp as [Ba Bp]. apply Forall_cons in Bq as [Bb Bq]. unfold byte_ok in Ba, Bb. cbn [strncmp cstr].
  destruct (Z.eqb_spec a 0) as [->|Ha]; cbn [negb andb].
  - eexists. split; [done|]. unfold u8. rewrite !Z.mod_small by lia. destruct (Z.eqb_spec b 0) as [->|Hb]; [done|].
    split; [lia|done].
  - destruct (Z.eqb_spec a b) as [->|Hab].
    + destruct (Z.eqb_spec b 0) as [|_]; [done|].
      destruct (IH p q) as (r & E & Hr); [by eapply readable_cons|by eapply readable_cons|done|done|].
      exists r. split; [done|]. rewrite Hr. cbn [take]. split; [congruence|by intros [= ?]].
    + eexists. split; [done|]. unfold u8. rewrite !Z.mod_small by lia. split; [lia|].
      destruct (Z.eqb_spec b 0); [done|]. intros [= ? _]. lia.
Qed.

Lemma strncpy_cstr k : forall t w, strncpy t k = Some w -> take k (cstr w) = take k (cstr t).
Proof.
  induction k as [|k IH]; intros t w E; [done|]. destruct t as [|a t]; [done|]. cbn [strncpy cstr] in *.
  destruct (Z.eqb_spec a 0) as [->|Ha]; [by injection E as <-|].
  destruct (strncpy t k) as [u|] eqn:Eu; [|done]. injection E as <-. cbn [cstr].
  rewrite (proj2 (Z.eqb_neq _ _) Ha). cbn [take]. f_equal. by apply IH.
Qed.
Lemma strncpy_readable k : forall t, readable k t -> Forall byte_ok t -> exists w, strncpy t k = Some w /\ length w = k /\ Forall byte_ok w.
Proof.
  induction k as [|k IH]; intros t Hr Ht; [exists []; by destruct t|].
  destruct t as [|a t]; [destruct Hr as [Hr|Hr]; [cbn in Hr; lia|by apply not_elem_of_nil in Hr]|].
  apply Forall_cons in Ht as [Ha Ht]. cbn [strncpy]. destruct (Z.eqb_spec a 0) as [->|Ha0].
  - eexists. split; [done|]. split; [cbn; by rewrite length_replicate|]. apply Forall_cons. split; [done|].
    apply Forall_replicate. unfold byte_ok. lia.
  - destruct (IH t) as (w & -> & Hl & Hw); [by eapply readable_cons|done|]. eexists. split; [done|].
    split; [cbn; by rewrite Hl|]. by apply Forall_cons.
Qed.

(** ** Entries *)
Fixpoint split16 (n : nat) (d : bytes) : list bytes :=
  match n with O => [] | Datatypes.S n' => take 16 d :: split16 n' (drop 16 d) end.
Definition dirents (d : bytes) : list bytes := split16 (length d / 16) d.

Definition live (e : bytes) : bool := negb (de_inum e =? 0).
Definition named (nm : list Z) (e : bytes) : bool := live e && bool_decide (fname (de_name e) = nm).

Fixpoint map_of (l : list bytes) : gmap (list Z) Z :=
  match l with
  | [] => ∅
  | e :: l' => if live e then <[fname (de_name e) := de_inum e]> (map_of l') else map_of l'
  end.
(** The directory whose content is [d]; of two entries with one name the
    first counts. *)
Definition dir_map (d : bytes) : gmap (list Z) Z := map_of (dirents d).

Lemma split16_concat n : forall d, length d = (16 * n)%nat -> concat (split16 n d) = d.
Proof.
  induction n as [|n IH]; intros d H; cbn [split16 concat]; [by destruct d|].
  rewrite IH by (rewrite length_drop; lia). apply take_drop.
Qed.
Lemma concat_split16 l : Forall (fun e => length e = 16%nat) l -> split16 (length l) (concat l) = l.
Proof.
  induction 1 as [|e l He Hl IH]; cbn [split16 concat length]; [done|].
  rewrite take_app_le, drop_app_ge by lia. rewrite take_ge by lia. by rewrite He, Nat.sub_diag, drop_0, IH.
Qed.
Lemma length_concat16 l : Forall (fun e : bytes => length e = 16%nat) l -> length (concat l) = (16 * length l)%nat.
Proof. induction 1 as [|e l He Hl IH]; cbn [concat length]; [done|]. rewrite length_app, IH. lia. Qed.
Lemma dirents_concat l : Forall (fun e => length e = 16%nat) l -> dirents (concat l) = l.
Proof.
  intros H. unfold dirents. rewrite length_concat16, Nat.mul_comm, Nat.div_mul by (done || lia). by apply concat_split16.
Qed.
Lemma concat_dirents d n : length d = (16 * n)%nat ->
  concat (dirents d) = d /\ length (dirents d) = n /\ Forall (fun e => length e = 16%nat) (dirents d).
Proof.
  intros H. unfold dirents. rewrite H, Nat.mul_comm, Nat.div_mul by lia. split; [by apply split16_concat|].
  revert d H. induction n as [|n IH]; intros d H; cbn [split16 length]; [done|].
  destruct (IH (drop 16 d)) as [E F]; [rewrite length_drop; lia|]. split; [by rewrite E|].
  apply Forall_cons. split; [rewrite length_take; lia|done].
Qed.

Lemma split16_lookup n : forall d k, (k < n)%nat -> split16 n d !! k = Some (slice (16 * k) 16 d).
Proof.
  induction n as [|n IH]; intros d k Hk; [lia|]. destruct k as [|k]; [done|]. cbn [split16].
  change ((take 16 d :: split16 n (drop 16 d)) !! Datatypes.S k) with (split16 n (drop 16 d) !! k).
  rewrite IH by lia. unfold slice. rewrite drop_drop. do 3 f_equal. lia.
Qed.
Lemma dirents_lookup d k : (k < length d / 16)%nat -> dirents d !! k = Some (slice (16 * k) 16 d).
Proof. apply split16_lookup. Qed.

(** ** The map and the first entry with a name *)
Lemma map_of_find nm l : map_of l !! nm = (k ← find_index (named nm) l; de_inum <$> l !! k).
Proof.
  induction l as [|e l IH]; [done|]. cbn [map_of find_index]. unfold named at 1. destruct (live e); cbn [andb].
  - destruct (bool_decide_reflect (fname (de_name e) = nm)) as [->|Hne]; [by rewrite lookup_insert_eq|].
    rewrite lookup_insert_ne, IH by done. by destruct (find_index (named nm) l).
  - rewrite IH. by destruct (find_index (named nm) l).
Qed.
Lemma map_of_none nm l : map_of l !! nm = None <-> find_index (named nm) l = None.
Proof.
  rewrite map_of_find. destruct (find_index (named nm) l) as [k|] eqn:F; [|done].
  apply find_index_Some in F as [(e & He & _) _]. cbn. by rewrite He.
Qed.

Lemma map_of_app l l' : map_of (l ++ l') = map_of l ∪ map_of l'.
Proof.
  induction l as [|e l IH]; cbn [app map_of]; [by rewrite left_id_L by apply _|].
  destruct (live e); [|done]. by rewrite IH, insert_union_l.
Qed.
(** A new entry in the place of a free one, or at the end *)
Lemma map_of_add l r e : live e = true -> map_of l !! fname (de_name e) = None -> map_of (l ++ e :: r) = <[fname (de_name e) := de_inum e]> (map_of (l ++ r)).
Proof.
  intros He Hn. rewrite !map_of_app. cbn [map_of]. rewrite He. by rewrite insert_union_r.
Qed.

Lemma concat_take16 l k : Forall (fun e : bytes => length e = 16%nat) l -> take (16 * k) (concat l) = concat (take k l).
Proof.
  intros H. revert k. induction H as [|e l He Hl IH]; intros k; [cbn; by rewrite !take_nil|].
  destruct k as [|k]; [done|]. cbn [concat take]. rewrite take_app_ge by lia. f_equal.
  replace (16 * Datatypes.S k - length e)%nat with (16 * k)%nat by lia. apply IH.
Qed.
Lemma concat_drop16 l k : Forall (fun e : bytes => length e = 16%nat) l -> drop (16 * k) (concat l) = concat (drop k l).
Proof.
  intros H. revert k. induction H as [|e l He Hl IH]; intros k; [cbn; by rewrite !drop_nil|].
  destruct k as [|k]; [done|]. cbn [concat drop]. rewrite drop_app_ge by lia.
  replace (16 * Datatypes.S k - length e)%nat with (16 * k)%nat by lia. apply IH.
Qed.
(** Writing one entry *)
Lemma dirents_write d n k e : length d = (16 * n)%nat -> (k <= n)%nat -> length e = 16%nat ->
  dirents (take (16 * k) d ++ e ++ drop (16 * k + 16) d) = take k (dirents d) ++ e :: drop (Datatypes.S k) (dirents d).
Proof.
  intros Hd Hk He. destruct (concat_dirents d n Hd) as (E & El & F). rewrite <- E at 1 2.
  replace (16 * k + 16)%nat with (16 * Datatypes.S k)%nat by lia. rewrite concat_take16, concat_drop16 by done.
  change (concat (take k (dirents d)) ++ e ++ concat (drop (Datatypes.S k) (dirents d))) with
    (concat (take k (dirents d)) ++ concat (e :: drop (Datatypes.S k) (dirents d))).
  rewrite <- concat_app. apply dirents_concat. apply Forall_app. split; [by apply Forall_take|].
  apply Forall_cons. split; [done|by apply Forall_drop].
Qed.
Lemma dir_map_write d n k e : length d = (16 * n)%nat -> (k <= n)%nat -> length e = 16%nat -> live e = true ->
  (forall x, dirents d !! k = Some x -> live x = false) -> dir_map d !! fname (de_name e) = None ->
  dir_map (take (16 * k) d ++ e ++ drop (16 * k + 16) d) = <[fname (de_name e) := de_inum e]> (dir_map d).
Proof.
  intros Hd Hk He Hl Hx Hn. unfold dir_map in *. rewrite (dirents_write d n) by done.
  destruct (concat_dirents d n Hd) as (_ & El & _).
  assert (map_of (dirents d) = map_of (take k (dirents d) ++ drop (Datatypes.S k) (dirents d))) as Em.
  { destruct (dirents d !! k) as [x|] eqn:Ex.
    - rewrite <- (take_drop_middle _ _ _ Ex) at 1. rewrite !map_of_app. cbn [map_of]. by rewrite (Hx x eq_refl).
    - apply lookup_ge_None in Ex. rewrite take_ge, drop_ge, app_nil_r by lia. done. }
  rewrite map_of_add, Em; [done|done|]. rewrite Em, map_of_app in Hn. by apply lookup_union_None in Hn as [? _].
Qed.

Lemma new_entry inum nm : 0 < inum < 2 ^ 16 -> length nm = DIRSIZ ->
  length (le16 inum ++ nm) = 16%nat /\ de_inum (le16 inum ++ nm) = inum /\ de_name (le16 inum ++ nm) = nm /\ live (le16 inum ++ nm) = true.
Proof.
  intros Hi Hl. assert (de_inum (le16 inum ++ nm) = inum) as E.
  { unfold de_inum, get16, get8, le16. change ((?a :: ?b :: []) ++ nm) with (a :: b :: nm). cbn [lookup_total list_lookup_total Nat.add].
    Z.div_mod_to_equations. lia. }
  split_and!; [by rewrite length_app, Hl|done| |unfold live; rewrite E; apply negb_true_iff, Z.eqb_neq; lia].
  unfold de_name, slice, le16. cbn [app drop]. apply take_ge. lia.
Qed.

Section FsDir.
Context {S : Type} {Dims : BlockStoreDims S} (sb : superblock).

Abbreviation disk_ok := (disk_ok sb).
Abbreviation file_ok := (file_ok sb).

Lemma fbytes_ok B a off n : disk_ok B -> file_ok B a -> 0 <= off -> off + Z.of_nat n <= MAXFILE * BSIZE -> Forall byte_ok (fbytes B a off n).
Proof using Type.
  intros Hd Hf Ho Hn. apply Forall_lookup. intros k x Hk. assert (k < n)%nat as Hlt by (rewrite <- (length_fbytes B a off n); by eapply lookup_lt_Some).
  rewrite fbytes_lookup in Hk by done. injection Hk as <-.
  destruct (block_no_bound (off + Z.of_nat k)) as [H1 H2]; [lia|].
  destruct (fcontent_ok sb B a _ Hd Hf (conj H1 H2)) as [Hl Hb]. unfold fbyte. apply (get8_range _ _ Hb).
Qed.

(** ** The entries of a directory inode *)
Record dir_inode (B : list bytes) (i : inode) : Prop := mkDir {
  di_dev : i_dev i = 1;
  di_type : i_type i = T_DIR;
  di_file : file_ok B (i_addrs i);
  di_size : 0 <= i_size i <= MAXFILE * BSIZE;
  di_ents : i_size i mod 16 = 0
}.
Definition ents (B : list bytes) (i : inode) : list bytes := dirents (file B i).

Lemma length_ents B i : dir_inode B i -> length (ents B i) = Z.to_nat (i_size i / 16) /\ i_size i = 16 * Z.of_nat (length (ents B i)).
Proof using Type.
  intros Hi. pose proof (di_size _ _ Hi) as Hs. pose proof (di_ents _ _ Hi) as Hm.
  assert (i_size i = 16 * (i_size i / 16)) as E by (Z.div_mod_to_equations; lia). assert (0 <= i_size i / 16) by lia.
  destruct (concat_dirents (file B i) (Z.to_nat (i_size i / 16))) as (_ & El & _).
  { unfold file. rewrite length_fbytes. lia. }
  unfold ents. rewrite El. lia.
Qed.
Lemma ents_lookup B i k : dir_inode B i -> (k < length (ents B i))%nat -> ents B i !! k = Some (fbytes B (i_addrs i) (16 * Z.of_nat k) 16).
Proof using Type.
  intros Hi Hk. destruct (length_ents B i Hi) as [El Es]. unfold ents. rewrite dirents_lookup.
  2:{ apply (Nat.lt_le_trans _ (length (ents B i))); [done|]. apply Nat.div_le_lower_bound; [lia|]. unfold file. rewrite length_fbytes. lia. }
  f_equal. unfold slice, file.
  replace (Z.to_nat (i_size i)) with (16 * k + (16 + (Z.to_nat (i_size i) - 16 * k - 16)))%nat by lia.
  rewrite fbytes_app, drop_app_ge by (rewrite length_fbytes; lia). rewrite length_fbytes, Nat.sub_diag, drop_0.
  rewrite fbytes_app, take_app_le by (rewrite length_fbytes; lia). rewrite take_ge by (rewrite length_fbytes; lia). f_equal. lia.
Qed.
Lemma ents_ok B i k e : disk_ok B -> dir_inode B i -> ents B i !! k = Some e -> length e = 16%nat /\ Forall byte_ok e.
Proof using Type.
  intros Hd Hi He. assert (k < length (ents B i))%nat as Hk by (by eapply lookup_lt_Some).
  rewrite ents_lookup in He by done. injection He as <-. split; [apply length_fbytes|].
  destruct (length_ents B i Hi) as [_ Es]. pose proof (di_size _ _ Hi). apply fbytes_ok; [done|apply Hi|lia|lia].
Qed.

Context {St : BlockStore S} {Laws : BlockStoreLaws S}.
Context (devsw_read : Z -> option (nat -> Z -> kernel (fsys S) (Z * bytes)))
        (devsw_write : Z -> option (nat -> bytes -> Z -> kernel (fsys S) Z)).
Abbreviation fs_is := (fs_is sb).
Abbreviation file_inode := (file_inode sb).
Abbreviation dirlookup_loop := (Fs.dirlookup_loop devsw_read).
Abbreviation dirlookup := (Fs.dirlookup devsw_read).
Abbreviation dirlink_loop := (Fs.dirlink_loop devsw_read).
Abbreviation dirlink := (Fs.dirlink devsw_read devsw_write).

(** Reading entry [k] *)
Lemma wp_read_entry s B g l dp i k Q : fs_is s B ∅ g l -> l !! dp = Some i -> (size g <= st_cap)%nat -> disk_ok B -> dir_inode B i ->
  (k < length (ents B i))%nat -> no_holes B (i_addrs i) (16 * Z.of_nat k + 16) ->
  (forall s' e, ents B i !! k = Some e -> fs_is s' B ∅ g l -> Q (16, e) s') -> wp (readi devsw_read dp (16 * Z.of_nat k) DIRENT) s Q.
Proof using Type.
  intros H Hdp Hg Hd Hi Hk Hnh HQ. destruct (length_ents B i Hi) as [_ Es]. pose proof (di_size _ _ Hi) as Hs.
  eapply (wp_readi_seg sb devsw_read); try done; try apply Hi.
  - rewrite (di_type _ _ Hi). done.
  - change DIRENT with 16. intros bn H1 H2. apply Hnh; lia.
  - lia.
  - intros s' H'. cbn zeta. change DIRENT with 16. rewrite Z.min_l by lia. apply HQ; [by apply ents_lookup|done].
Qed.

(** The part of the directory that a search for [nm] from entry [k] on reads *)
Definition searched (B : list bytes) (i : inode) (nm : list Z) (k : nat) : Z :=
  match find_index (named nm) (drop k (ents B i)) with
  | Some j => 16 * Z.of_nat (k + j) + 16
  | None => i_size i
  end.

Lemma de_name_readable e : length e = 16%nat -> Forall byte_ok e -> readable DIRSIZ (de_name e) /\ Forall byte_ok (de_name e).
Proof using Type.
  intros Hl He. unfold de_name, slice. split; [left; rewrite length_take, length_drop, Hl; unfold DIRSIZ; lia|].
  by apply Forall_take, Forall_drop.
Qed.

Lemma wp_dirlookup_loop k : forall s B g l dp i name off n Q, fs_is s B ∅ g l -> l !! dp = Some i -> (size g <= st_cap)%nat ->
  disk_ok B -> dir_inode B i -> readable DIRSIZ name -> Forall byte_ok name -> off = 16 * Z.of_nat n ->
  (length (ents B i) <= n + k)%nat -> (n <= length (ents B i))%nat -> no_holes B (i_addrs i) (searched B i (fname name) n) ->
  (find_index (named (fname name)) (drop n (ents B i)) = None -> forall s', fs_is s' B ∅ g l -> Q None s') ->
  (forall j e s', find_index (named (fname name)) (drop n (ents B i)) = Some j -> ents B i !! (n + j)%nat = Some e -> fs_is s' B ∅ g l ->
     wp (iget 1 (de_inum e)) s' (fun p s'' => Q (Some (p, 16 * Z.of_nat (n + j))) s'')) ->
  wp (dirlookup_loop k dp name off) s Q.
Proof using Type.
  induction k as [|k IH]; intros s B g l dp i name off n Q H Hdp Hg Hd Hi Hr Hb Eo Hk Hn Hnh HN HS; cbn [Fs.dirlookup_loop];
    destruct (length_ents B i Hi) as [_ Es]; apply wp_bind; (eapply wp_geti_at; [exact H|exact Hdp|]).
  - rewrite (proj2 (Z.ltb_ge _ _)) by lia. apply wp_ret, HN; [|done]. by rewrite drop_ge by lia.
  - destruct (Z.ltb_spec off (i_size i)) as [Hlt|Hge]; cycle 1.
    { apply wp_ret, HN; [|done]. by rewrite drop_ge by lia. }
    destruct (lookup_lt_is_Some_2 (ents B i) n ltac:(lia)) as [e He].
    rewrite (drop_S _ _ _ He) in *. cbn [find_index] in HN, HS. unfold searched in Hnh. rewrite (drop_S _ _ _ He) in Hnh. cbn [find_index] in Hnh.
    apply wp_bind. subst off. eapply wp_read_entry; try done; [lia| |].
    { intros bn H1 H2. apply Hnh; [done|]. destruct (named (fname name) e); [lia|]. destruct (find_index _ _) as [j|]; cbn; lia. }
    intros s1 e' He' H1. rewrite He in He'. injection He' as <-. cbn [fst snd]. change (negb (16 =? DIRENT)) with false. cbn iota.
    assert (16 * Z.of_nat n + DIRENT = 16 * Z.of_nat (Datatypes.S n)) as Enext by (change DIRENT with 16; lia).
    assert (named (fname name) e = false -> wp (dirlookup_loop k dp name (16 * Z.of_nat n + DIRENT)) s1 Q) as Hrec.
    { intros En. rewrite En in HN, HS, Hnh. eapply (IH s1 B g l dp i name _ (Datatypes.S n)); try done; [lia|lia|..].
      - unfold searched. destruct (find_index (named (fname name)) (drop (Datatypes.S n) (ents B i))) as [j|]; [|done].
        cbn in Hnh. intros bn X1 X2. apply Hnh; [done|]. lia.
      - intros EN. apply HN. by rewrite EN.
      - intros j e' s' Ej Ee H'. specialize (HS (Datatypes.S j) e' s'). rewrite Ej in HS. cbn [fmap option_fmap option_map] in HS.
        rewrite <- (Nat.add_succ_comm n j) in HS. by apply HS. }
    unfold named, live in Hrec, HN, HS. destruct (de_inum e =? 0) eqn:E0; cbn [negb andb] in Hrec, HN, HS; [by apply Hrec|].
    destruct (ents_ok B i n e Hd Hi He) as [Hl16 Hbe]. destruct (de_name_readable e Hl16 Hbe) as [Hdr Hdb].
    destruct (strncmp_names DIRSIZ name (de_name e) Hr Hdr Hb Hdb) as (c & Ec & Hc).
    apply wp_bind. unfold namecmp. rewrite Ec. apply wp_ret.
    destruct (bool_decide_reflect (fname (de_name e) = fname name)) as [Eq|Ne].
    + rewrite (proj2 (Z.eqb_eq c 0)) by (apply Hc; by symmetry). rewrite (di_dev _ _ Hi). apply wp_bind.
      specialize (HS 0%nat e s1 eq_refl). rewrite Nat.add_0_r in HS. specialize (HS He H1).
      eapply wp_mono; [exact HS|]. intros p s2 HQ. by apply wp_ret.
    + rewrite (proj2 (Z.eqb_neq c 0)) by (intros E; apply Ne; symmetry; by apply Hc). by apply Hrec.
Qed.

Lemma dir_map_find nm B i k : find_index (named nm) (ents B i) = Some k ->
  exists e, ents B i !! k = Some e /\ fname (de_name e) = nm /\ dir_map (file B i) !! nm = Some (de_inum e).
Proof using Type.
  intros F. pose proof (map_of_find nm (ents B i)) as E. rewrite F in E. apply find_index_Some in F as [(e & He & Hn) _].
  exists e. unfold named in Hn. apply andb_true_iff in Hn as [_ Hn]. apply bool_decide_eq_true in Hn.
  split; [done|]. split; [done|]. change (dir_map (file B i)) with (map_of (ents B i)). rewrite E.
  change (de_inum <$> ents B i !! k = Some (de_inum e)). by rewrite He.
Qed.

(** dirlookup is a lookup in the map; the inode found gets a reference. *)
Lemma wp_dirlookup s B g l L dp i name Q :
  fs_is s B ∅ g l -> cache_ok sb B L l -> l !! dp = Some i -> (size g <= st_cap)%nat -> disk_ok B -> dir_inode B i ->
  readable DIRSIZ name -> Forall byte_ok name -> no_holes B (i_addrs i) (searched B i (fname name) 0) ->
  (forall n, dir_map (file B i) !! fname name = Some n -> inum_ok sb n /\ (0 < rc l n \/ (0 < slots l)%nat) /\ rc l n + 1 < 2 ^ 31) ->
  (forall s', dir_map (file B i) !! fname name = None -> fs_is s' B ∅ g l -> Q None s') ->
  (forall s' l' n p k e, dir_map (file B i) !! fname name = Some n -> got sb B L l n p l' ->
     ents B i !! k = Some e -> named (fname name) e = true -> de_inum e = n -> fs_is s' B ∅ g l' -> Q (Some (p, 16 * Z.of_nat k)) s') ->
  wp (dirlookup dp name) s Q.
Proof using Type.
  intros H Hc Hdp Hg Hd Hi Hr Hb Hnh Hin HN HS. unfold Fs.dirlookup. apply wp_bind. eapply wp_geti_at; [exact H|exact Hdp|].
  rewrite (di_type _ _ Hi). change (negb (T_DIR =? T_DIR)) with false. cbn iota.
  destruct (length_ents B i Hi) as [_ Es]. eapply (wp_dirlookup_loop _ _ _ _ _ _ _ _ _ 0); try done; [lia|lia|..].
  - rewrite drop_0. intros F s' H'. apply HN; [|done]. by apply map_of_none.
  - rewrite drop_0. cbn [Nat.add]. intros j e s' F He H'. destruct (dir_map_find _ _ _ _ F) as (e' & He' & _ & Em).
    rewrite He in He'. injection He' as <-. destruct (Hin _ Em) as (Hn1 & Hn2 & Hn3).
    apply find_index_Some in F as [(e' & He' & Hnm) _]. rewrite He in He'. injection He' as <-.
    eapply wp_iget; try done. intros s2 p l' Hgot H2. by eapply HS.
Qed.

(** ** dirlink *)
(** The entry it writes: the first free one, or one more *)
Definition free_ent (B : list bytes) (i : inode) : nat := default (length (ents B i)) (find_index (fun e => negb (live e)) (ents B i)).

Lemma wp_dirlink_loop k : forall s B g l dp i off n Q, fs_is s B ∅ g l -> l !! dp = Some i -> (size g <= st_cap)%nat ->
  disk_ok B -> dir_inode B i -> off = 16 * Z.of_nat n ->
  (length (ents B i) <= n + k)%nat -> (n <= length (ents B i))%nat -> no_holes B (i_addrs i) (i_size i) ->
  (forall s', fs_is s' B ∅ g l -> Q (16 * Z.of_nat (n + default (length (ents B i) - n)%nat (find_index (fun e => negb (live e)) (drop n (ents B i))))) s') ->
  wp (dirlink_loop k dp off) s Q.
Proof using Type.
  induction k as [|k IH]; intros s B g l dp i off n Q H Hdp Hg Hd Hi Eo Hk Hn Hnh HQ; cbn [Fs.dirlink_loop];
    destruct (length_ents B i Hi) as [_ Es]; apply wp_bind; (eapply wp_geti_at; [exact H|exact Hdp|]).
  - rewrite (proj2 (Z.ltb_ge _ _)) by lia. apply wp_ret. rewrite drop_ge in HQ by lia. cbn [find_index default] in HQ.
    replace (n + (length (ents B i) - n))%nat with n in HQ by lia. subst off. by apply HQ.
  - destruct (Z.ltb_spec off (i_size i)) as [Hlt|Hge]; cycle 1.
    { apply wp_ret. rewrite drop_ge in HQ by lia. cbn [find_index default] in HQ.
      replace (n + (length (ents B i) - n))%nat with n in HQ by lia. subst off. by apply HQ. }
    destruct (lookup_lt_is_Some_2 (ents B i) n ltac:(lia)) as [e He].
    rewrite (drop_S _ _ _ He) in HQ. cbn [find_index] in HQ.
    apply wp_bind. subst off. eapply wp_read_entry; try done; [lia| |].
    { intros bn H1 H2. apply Hnh; [done|]. lia. }
    intros s1 e' He' H1. rewrite He in He'. injection He' as <-. cbn [fst snd]. change (negb (16 =? DIRENT)) with false. cbn iota.
    unfold live in HQ at 1. destruct (de_inum e =? 0); cbn [negb default] in HQ.
    + apply wp_ret. rewrite Nat.add_0_r in HQ. by apply HQ.
    + eapply (IH s1 B g l dp i _ (Datatypes.S n)); try done; [change DIRENT with 16; lia|lia|lia|].
      intros s' H'. specialize (HQ s' H'). destruct (find_index _ _) as [j|]; cbn [fmap option_fmap option_map default from_option id] in HQ |- *.
      * by replace (Datatypes.S n + j)%nat with (n + Datatypes.S j)%nat by lia.
      * by replace (Datatypes.S n + (length (ents B i) - Datatypes.S n))%nat with (n + (length (ents B i) - n))%nat by lia.
Qed.

Lemma free_ent_spec B i : (free_ent B i <= length (ents B i))%nat /\ forall x, ents B i !! free_ent B i = Some x -> live x = false.
Proof using Type.
  unfold free_ent. destruct (find_index _ (ents B i)) as [k|] eqn:F; cbn [default from_option id].
  - split; [apply find_index_lt in F; lia|]. apply find_index_Some in F as [(e & He & Hl) _]. intros x Hx.
    rewrite He in Hx. injection Hx as <-. by apply negb_true_iff.
  - split; [lia|]. intros x Hx. apply lookup_lt_Some in Hx. lia.
Qed.

(** A name that is not there is added; everything else about the disk is as
    after the write of one entry. *)
Lemma wp_dirlink_new s B g l L dp i name inum Q :
  fs_is s B ∅ g l -> cache_ok sb B L l -> l !! dp = Some i -> disk_ok B -> file_inode B i -> dir_inode B i ->
  readable DIRSIZ name -> Forall byte_ok name -> 0 < inum < 2 ^ 16 -> dir_map (file B i) !! fname name = None ->
  let off := 16 * Z.of_nat (free_ent B i) in
  off + 16 <= MAXFILE * BSIZE -> (pot sb (i_addrs i) g + nch off 16 < st_cap)%nat -> free_ge sb B (no_ind (i_addrs i) + nch off 16) ->
  (forall s' B' i' g' e, write_result sb B i off e B' i' -> i_size i' = Z.max (i_size i) (off + 16) ->
     dir_map (file B' i') = <[fname name := inum]> (dir_map (file B i)) -> (size g' <= st_cap)%nat ->
     fs_is s' B' ∅ g' (<[dp := i']> l) -> Q 0 s') ->
  wp (dirlink dp name inum) s Q.
Proof using Type.
  intros H Hc Hdp Hd Hfi Hi Hr Hb Hin Hnone off Hmax Hpot Hfree HQ. destruct (size_in_pot sb (i_addrs i) g st_cap ltac:(lia)) as [Hg _].
  destruct (length_ents B i Hi) as [_ Es]. destruct (free_ent_spec B i) as [Hfe1 Hfe2].
  unfold Fs.dirlink. apply wp_bind. eapply wp_dirlookup; try done.
  { unfold searched. rewrite drop_0. assert (find_index (named (fname name)) (ents B i) = None) as -> by (by apply map_of_none). apply Hfi. }
  { intros n E. congruence. } 2:{ intros s' l' n p k e E. congruence. }
  intros s1 _ H1. cbn iota beta. apply wp_bind. eapply wp_geti_at; [exact H1|exact Hdp|]. apply wp_bind.
  eapply (wp_dirlink_loop _ _ _ _ _ _ _ _ 0); try done; [lia|lia|apply Hfi|]. rewrite drop_0, Nat.sub_0_r. cbn [Nat.add]. fold (free_ent B i). fold off.
  intros s2 H2. destruct (strncpy_readable DIRSIZ name Hr Hb) as (nm & Enm & Lnm & Bnm). rewrite Enm.
  destruct (new_entry inum nm Hin Lnm) as (Le & Ei & En & Elive). set (e := le16 inum ++ nm) in *.
  apply wp_bind. change DIRENT with (Z.of_nat 16). rewrite <- Le.
  eapply (wp_writei sb devsw_write); try done; rewrite ?Le; try done.
  { unfold e. apply Forall_app. split; [apply le16_ok|done]. } { lia. }
  intros s3 B' i' g' W Hsz Hg' H3. change (negb (Z.of_nat 16 =? Z.of_nat 16)) with false. cbn iota. apply wp_ret.
  eapply HQ; try done. rewrite (ws_file _ _ _ _ _ _ _ W), Le. replace (Z.to_nat off) with (16 * free_ent B i)%nat by lia.
  assert (fname (de_name e) = fname name) as Ef by (rewrite En; by apply strncpy_cstr).
  rewrite (dir_map_write _ (length (ents B i))); rewrite ?Ef, ?Ei; try done. unfold file. rewrite length_fbytes. lia.
Qed.

(** C25: dirlink adds a name that the directory does not have: it returns 0, and the
    directory then maps the name, cut to 14 characters, to the inode number
    and every other name as before; the entry is written at the first free place
    and no other part of the disk changes but for the blocks the write takes. *)
Theorem dirlink_inserts s B g l L dp i name inum :
  fs_is s B ∅ g l -> cache_ok sb B L l -> l !! dp = Some i -> disk_ok B -> file_inode B i -> dir_inode B i ->
  readable DIRSIZ name -> Forall byte_ok name -> 0 < inum < 2 ^ 16 -> dir_map (file B i) !! fname name = None ->
  let off := 16 * Z.of_nat (free_ent B i) in
  off + 16 <= MAXFILE * BSIZE -> (pot sb (i_addrs i) g + nch off 16 < st_cap)%nat -> free_ge sb B (no_ind (i_addrs i) + nch off 16) ->
  exists s' B' i' g' e, dirlink dp name inum s = Done s' 0 /\ write_result sb B i off e B' i' /\
    dir_map (file B' i') = <[fname name := inum]> (dir_map (file B i)) /\ fs_is s' B' ∅ g' (<[dp := i']> l).
Proof using Type.
  intros H Hc Hdp Hd Hfi Hi Hr Hb Hin Hnone off Hmax Hpot Hfree.
  edestruct (wp_Done (dirlink dp name inum) s (fun r s' => exists B' i' g' e, r = 0 /\ write_result sb B i off e B' i' /\
    dir_map (file B' i') = <[fname name := inum]> (dir_map (file B i)) /\ fs_is s' B' ∅ g' (<[dp := i']> l)))
    as (s' & r & E & B' & i' & g' & e & -> & HW & HM & H').
  { eapply wp_dirlink_new; try done. intros s' B' i' g' e HW _ HM _ H'. exists B', i', g', e. done. }
  exists s', B', i', g', e. done.
Qed.
End FsDir.
