(* ===== verification/FsPath.v ===== *)
(** * Paths (fs.c: skipelem, namex, namei, nameiparent)

    [elems] splits a path at its slashes and [walk] follows the elements through
    the directories on the disk. namex returns the inode at the end of the walk,
    with one more reference to it and no other change in the counts, or no inode
    when the walk fails. *)

From S2P Require Import Prelude Params Bytes Store CString Fs FsSpec FsData FsFile FsWrite FsCache FsDir.

(** ** The elements of a path *)
Fixpoint split_slash (path : list Z) : list (list Z) :=
  match path with
  | [] => [[]]
  | c :: path' =>
      if c =? 47 then [] :: split_slash path'
      else match split_slash path' with x :: xs => (c :: x) :: xs | [] => [[c]] end
  end.
Definition nonempty (x : list Z) : bool := match x with [] => false | _ => true end.
Definition elems (path : list Z) : list (list Z) := List.filter nonempty (split_slash path).

Lemma elems_slash path : elems (47 :: path) = elems path.
Proof. done. Qed.
Lemma elems_skip path : elems (skip_slashes path) = elems path.
Proof.
  induction path as [|c path IH]; [done|]. cbn [skip_slashes]. destruct (Z.eqb_spec c 47) as [->|]; [|done].
  rewrite IH. by rewrite elems_slash.
Qed.
Lemma skip_slashes_head path : match skip_slashes path with [] => True | c :: _ => c <> 47 end.
Proof. induction path as [|c path IH]; cbn [skip_slashes]; [done|]. by destruct (Z.eqb_spec c 47). Qed.
Lemma length_skip path : (length (skip_slashes path) <= length path)%nat.
Proof. induction path as [|c path IH]; cbn [skip_slashes]; [done|]. destruct (c =? 47); cbn in *; lia. Qed.

Lemma split_elem path : exists xs, split_slash path = take (elem_len path) path :: xs /\
  List.filter nonempty xs = elems (drop (elem_len path) path).
Proof.
  induction path as [|c path IH]; [by exists []|]. cbn [split_slash elem_len]. destruct (Z.eqb_spec c 47) as [->|Hc].
  - exists (split_slash path). split; [done|]. by rewrite drop_0, elems_slash.
  - destruct IH as (xs & -> & E). exists xs. done.
Qed.
Lemma elems_step c path : c <> 47 ->
  elems (c :: path) = take (elem_len (c :: path)) (c :: path) :: elems (drop (elem_len (c :: path)) (c :: path)).
Proof.
  intros Hc. unfold elems at 1. destruct (split_elem (c :: path)) as (xs & -> & E). cbn [elem_len] in *.
  rewrite (proj2 (Z.eqb_neq _ _) Hc) in *. cbn [take List.filter nonempty]. by rewrite E.
Qed.

Lemma take_cstr p k l : Forall (fun c => c <> 0) p -> (k <= length p)%nat -> take k (cstr (p ++ l)) = take k p.
Proof.
  intros H. revert k. induction H as [|c p Hc Hp IH]; intros k Hk.
  - assert (k = 0)%nat as -> by (cbn in Hk; lia). done.
  - destruct k as [|k]; [done|]. cbn [app cstr]. rewrite (proj2 (Z.eqb_neq _ _) Hc). cbn [take]. f_equal. apply IH. cbn in Hk. lia.
Qed.
Lemma cstr_app_0 p l : Forall (fun c => c <> 0) p -> cstr (p ++ 0 :: l) = p.
Proof. induction 1 as [|c p Hc Hp IH]; [done|]. cbn [app cstr]. by rewrite (proj2 (Z.eqb_neq _ _) Hc), IH. Qed.

Lemma elem_len_le path : (elem_len path <= length path)%nat.
Proof. induction path as [|c path IH]; cbn [elem_len length]; [done|]. destruct (c =? 47); lia. Qed.

(** Characters of a path: bytes, and not the terminating 0 *)
Definition char_ok (c : Z) : Prop := byte_ok c /\ c <> 0.
(** A name buffer *)
Definition buffer (name : list Z) : Prop := length name = DIRSIZ /\ Forall byte_ok name.

Lemma skipelem_None path name : skipelem path name = None <-> elems path = [].
Proof.
  unfold skipelem. rewrite <- (elems_skip path). pose proof (skip_slashes_head path) as Hh.
  destruct (skip_slashes path) as [|c s]; [done|]. rewrite elems_step by done. done.
Qed.
Lemma skipelem_Some path name rest name' : Forall char_ok path -> buffer name -> skipelem path name = Some (rest, name') ->
  exists e, elems path = e :: elems rest /\ fname name' = take DIRSIZ e /\ buffer name' /\ Forall char_ok rest /\
    (length rest < length path)%nat /\ (rest = [] <-> elems rest = []).
Proof.
  intros Hp [Hn Hb] E. unfold skipelem in E. pose proof (skip_slashes_head path) as Hh. pose proof (length_skip path) as Hls.
  assert (Forall char_ok (skip_slashes path)) as Hs.
  { clear -Hp. induction Hp as [|c path Hc Hp IH]; cbn [skip_slashes]; [done|]. destruct (c =? 47); [done|by apply Forall_cons]. }
  pose proof (elems_skip path) as Ee. destruct (skip_slashes path) as [|c s]; [done|]. rewrite elems_step in Ee by done.
  set (len := elem_len (c :: s)) in *. pose proof (elem_len_le (c :: s)) as Hle. fold len in Hle.
  assert (0 < len)%nat as Hl0 by (unfold len; cbn [elem_len]; rewrite (proj2 (Z.eqb_neq _ _) Hh); lia).
  apply (inj Some), pair_equal_spec in E as [<- <-]. exists (take len (c :: s)).
  assert (Forall (fun c => c <> 0) (c :: s)) as Hnz by (eapply Forall_impl; [exact Hs|by intros x []]).
  assert (Forall byte_ok (c :: s)) as Hby by (eapply Forall_impl; [exact Hs|by intros x []]).
  split_and!.
  - rewrite <- Ee. by rewrite elems_skip.
  - destruct (Nat.leb_spec DIRSIZ len) as [Hd|Hd].
    + unfold splice. rewrite take_0, app_nil_l. unfold fname. rewrite take_cstr; [|by apply Forall_take|rewrite length_take; unfold len in *; lia].
      rewrite !take_take. f_equal. lia.
    + unfold splice. rewrite take_0, app_nil_l. rewrite length_take, Nat.min_l by lia. cbn [Nat.add].
      rewrite insert_app_r_alt by (rewrite length_take; lia). rewrite length_take, Nat.min_l, Nat.sub_diag by lia.
      destruct (drop len name) as [|x r] eqn:Er; [apply (f_equal length) in Er; rewrite length_drop in Er; cbn [length] in Er; lia|].
      unfold fname. change (<[0%nat := 0]> (x :: r)) with (0 :: r). rewrite cstr_app_0 by (by apply Forall_take). done.
  - split.
    + destruct (Nat.leb_spec DIRSIZ len) as [Hd|Hd].
      * rewrite length_splice; [done|]. rewrite length_take. lia.
      * rewrite length_insert, length_splice; [done|]. rewrite length_take. lia.
    + destruct (Nat.leb_spec DIRSIZ len) as [Hd|Hd]; [|apply Forall_insert; [|unfold byte_ok; lia]]; (apply splice_ok; [by apply Forall_take|done]).
  - clear -Hs. assert (Forall char_ok (drop len (c :: s))) as H by (by apply Forall_drop). clear Hs.
    induction H as [|d path Hd Hp IH]; cbn [skip_slashes]; [done|]. destruct (d =? 47); [done|by apply Forall_cons].
  - pose proof (length_skip (drop len (c :: s))) as H1. rewrite length_drop in H1. lia.
  - split; [by intros ->|]. pose proof (skip_slashes_head (drop len (c :: s))) as Hh'.
    destruct (skip_slashes (drop len (c :: s))) as [|d r]; [done|]. by rewrite elems_step.
Qed.

(** ** Walking the directories on the disk *)
Section Walk.
Context (sb : superblock).
Abbreviation inum_ok := (inum_ok sb).
Abbreviation dnode := (dnode sb).
Abbreviation cache_ok := (cache_ok sb).

Definition is_dir (B : list bytes) (n : Z) : bool := i_type (dnode B n) =? T_DIR.
Definition node_dir (B : list bytes) (n : Z) : gmap (list Z) Z := dir_map (file B (dnode B n)).
Fixpoint walk (B : list bytes) (n : Z) (es : list (list Z)) : option Z :=
  match es with
  | [] => Some n
  | e :: es' => if is_dir B n then m ← node_dir B n !! take DIRSIZ e; walk B m es' else None
  end.
(** The directory that holds the last element *)
Fixpoint walk_parent (B : list bytes) (n : Z) (es : list (list Z)) : option Z :=
  match es with
  | [] => None
  | e :: es' =>
      if is_dir B n then
        match es' with
        | [] => Some n
        | _ => m ← node_dir B n !! take DIRSIZ e; walk_parent B m es'
        end
      else None
  end.
Definition target (parent : bool) : list bytes -> Z -> list (list Z) -> option Z := if parent then walk_parent else walk.

(** ** States of the walk

    [N] are the inodes of the tree; [b] counts the references besides the one to the current inode, [X] holds
    the inodes that have such references. *)
Record walking (N : Z -> Prop) (B : list bytes) (b : Z -> Z) (l : list inode) (n : Z) (p : nat) : Prop := mkWalking {
  wk_cache : cache_ok B ∅ l;
  wk_at : exists i, l !! p = Some i /\ i_inum i = n /\ 0 < i_ref i;
  wk_node : N n;
  wk_rc : forall m, rc l m = b m + one_at n m
}.
(** Enough room in the cache, and in its counters *)
Record room (b : Z -> Z) (X : gset Z) (len : nat) : Prop := mkRoom {
  rm_in : forall m, 0 < b m -> m ∈ X;
  rm_size : (size X + 2 <= len)%nat;
  rm_max : forall m, 0 <= b m /\ b m + 2 < 2 ^ 31
}.
(** What the walk leaves: the target with its reference, or nothing more *)
Record walked (N : Z -> Prop) (B : list bytes) (b : Z -> Z) (len : nat) (r : option Z) (p : option nat) (l : list inode) : Prop := mkWalked {
  wd_cache : cache_ok B ∅ l;
  wd_len : length l = len;
  wd_at : match r, p with
          | Some n, Some p => exists i, l !! p = Some i /\ i_inum i = n /\ 0 < i_ref i /\ N n
          | None, None => True
          | _, _ => False
          end;
  wd_rc : forall m, rc l m = b m + match r with Some n => one_at n m | None => 0 end
}.

Lemma one_at_range n m : 0 <= one_at n m <= 1.
Proof using Type. unfold one_at. case_match; lia. Qed.

Lemma one_at_same n : one_at n n = 1.
Proof using Type. unfold one_at. by rewrite Z.eqb_refl. Qed.

Lemma room_slots B L b X l n : cache_ok B L l -> (forall m, rc l m = b m + one_at n m) -> room b X (length l) -> (0 < slots l)%nat.
Proof using Type.
  intros Hc Hrc [Hin Hs _]. pose proof (slots_in_use sb B L l Hc) as E.
  enough (size (in_use l) <= size X + 1)%nat by lia. transitivity (size (X ∪ {[n]})).
  - apply subseteq_size. intros m Hm. apply (rc_in_use sb B L l m Hc) in Hm. rewrite Hrc in Hm. unfold one_at in Hm.
    destruct (Z.eqb_spec m n); [set_solver|]. apply elem_of_union_l, Hin. lia.
  - rewrite size_union_alt. pose proof (subseteq_size ({[n]} ∖ X) ({[n]} : gset Z) ltac:(set_solver)) as Hsub. rewrite size_singleton in Hsub. lia.
Qed.
End Walk.

Section FsPath.
Context {S : Type} {Dims : BlockStoreDims S} {St : BlockStore S} {Laws : BlockStoreLaws S} (sb : superblock).
Abbreviation disk_ok := (disk_ok sb).
Abbreviation inum_ok := (inum_ok sb).
Abbreviation dnode := (dnode sb).
Abbreviation cache_ok := (cache_ok sb).
Abbreviation fs_is := (fs_is sb).

(** A tree of inodes: those in [N] exist and have links, the directories are
    whole, and their entries lead to inodes in [N]. *)
Context (N : Z -> Prop).
Abbreviation walking := (walking sb N).
Abbreviation walked := (walked sb N).
Record tree_ok (B : list bytes) : Prop := mkTree {
  tr_disk : disk_ok B;
  tr_node : forall n, N n -> inum_ok n /\ i_type (dnode B n) <> 0 /\ i_nlink (dnode B n) <> 0;
  tr_dir : forall n, N n -> i_type (dnode B n) = T_DIR ->
    dir_inode sb B (dnode B n) /\ no_holes B (i_addrs (dnode B n)) (i_size (dnode B n));
  tr_ents : forall n nm m, N n -> i_type (dnode B n) = T_DIR -> node_dir sb B n !! nm = Some m -> N m
}.

(** A walk reads a directory up to the entry it finds. For names in [looked] it
    is enough that the directory has no hole before that. *)
Record tree_for (looked : list Z -> Prop) (B : list bytes) : Prop := mkTreeFor {
  tf_disk : disk_ok B;
  tf_node : forall n, N n -> inum_ok n /\ i_type (dnode B n) <> 0 /\ i_nlink (dnode B n) <> 0;
  tf_dir : forall n, N n -> i_type (dnode B n) = T_DIR ->
    dir_inode sb B (dnode B n) /\ forall nm, looked nm -> no_holes B (i_addrs (dnode B n)) (searched B (dnode B n) nm 0);
  tf_ents : forall n nm m, N n -> i_type (dnode B n) = T_DIR -> node_dir sb B n !! nm = Some m -> N m
}.
Lemma searched_whole B i nm : dir_inode sb B i -> no_holes B (i_addrs i) (i_size i) -> no_holes B (i_addrs i) (searched B i nm 0).
Proof using Type.
  intros Hd Hnh bn B1 B2. apply Hnh; [done|]. unfold searched in B2. rewrite drop_0 in B2. destruct (length_ents sb B _ Hd) as [_ Es].
  destruct (find_index _ _) as [k|] eqn:F; [apply find_index_lt in F|]; lia.
Qed.
Lemma whole_for looked B : tree_ok B -> tree_for looked B.
Proof using Type.
  intros [T1 T2 T3 T4]. split; [done|done| |done]. intros n Hn Ht. destruct (T3 n Hn Ht) as [Hd Hnh]. split; [done|].
  intros nm _. by apply searched_whole.
Qed.

(** ** iunlockput of an inode that stays on disk *)
Lemma wp_iunlockput s B h g l p i Q :
  fs_is s B h g l -> cache_ok B {[p]} l -> l !! p = Some i -> 0 < i_ref i < 2 ^ 31 -> i_nlink (dnode B (i_inum i)) <> 0 ->
  (forall s' l', cache_ok B ∅ l' -> (forall m, rc l' m = rc l m - one_at (i_inum i) m) -> length l' = length l ->
     l' !! p = Some (set_iref (i_ref i - 1) (set_iflags 2 i)) -> (forall q, q <> p -> l' !! q = l !! q) ->
     fs_is s' B h g l' -> Q tt s') ->
  wp (iunlockput p) s Q.
Proof using Type.
  intros H Hc Hp Hi Hnl HQ. assert (p < length l)%nat as Hlt by (by eapply lookup_lt_Some).
  unfold iunlockput. apply wp_bind. eapply wp_iunlock; [exact H|exact Hc|exact Hp|set_solver|].
  intros s1 H1 Hc1. replace ({[p]} ∖ {[p]} : gset nat) with (∅ : gset nat) in Hc1 by set_solver.
  eapply (wp_iput sb); [exact H1|exact Hc1|by apply list_lookup_insert_eq|done|set_solver|done|].
  intros s2 l2 -> [G1 G2 _] H2. cbn [i_ref set_iflags i_inum] in *. eapply HQ; try done.
  - intros m. rewrite G2, (rc_insert _ _ _ _ _ Hp). unfold refs_to. cbn. lia.
  - by rewrite !length_insert.
  - by rewrite list_lookup_insert_eq by (by rewrite length_insert).
  - intros q Hq. by rewrite !list_lookup_insert_ne by done.
Qed.


Context (devsw_read : Z -> option (nat -> Z -> kernel (fsys S) (Z * bytes))).
Abbreviation namex_loop := (Fs.namex_loop devsw_read).
Abbreviation namex := (Fs.namex devsw_read).

(** The current inode is locked. *)
Record at_lock (B : list bytes) (b : Z -> Z) (len : nat) (l : list inode) (n : Z) (p : nat) (j : inode) : Prop := mkAtLock {
  lk_cache : cache_ok B {[p]} l;
  lk_at : l !! p = Some j;
  lk_inum : i_inum j = n;
  lk_ref : 0 < i_ref j;
  lk_sync : synced sb B j;
  lk_dev : i_dev j = 1;
  lk_node : N n;
  lk_rc : forall m, rc l m = b m + one_at n m;
  lk_len : length l = len
}.

Lemma wp_enter looked s B g b l n p Q : tree_for looked B -> fs_is s B ∅ g l -> (size g <= st_cap)%nat -> walking B b l n p ->
  (forall s' l' j, at_lock B b (length l) l' n p j -> fs_is s' B ∅ g l' -> Q tt s') -> wp (ilock (Some p)) s Q.
Proof using Type.
  intros Ht H Hg [Hc (i & Hp & En & Hr) Hn Hrc] HQ. assert (p < length l)%nat as Hlt by (by eapply lookup_lt_Some).
  eapply (wp_ilock sb); [exact H|apply Ht|exact Hc|exact Hg|exact Hp|exact Hr|set_solver|rewrite En; by apply Ht|].
  intros s1 H1 Hc1. eapply (HQ s1 _ (locked sb B i)); [|exact H1]. split; try done.
  - by rewrite right_id_L in Hc1 by apply _.
  - by apply list_lookup_insert_eq.
  - cbn. by apply (en_dev _ _ _ _ (ca_entry _ _ _ _ Hc p i Hp Hr)).
  - intros m. rewrite (rc_insert _ _ _ _ _ Hp), Hrc. unfold refs_to. cbn. lia.
  - apply length_insert.
Qed.

Lemma at_lock_max B b X len l n p j : at_lock B b len l n p j -> room b X len -> i_ref j < 2 ^ 31.
Proof using Type.
  intros K [_ _ Hm]. pose proof (rc_entry l p j (ca_ref _ _ _ _ (lk_cache _ _ _ _ _ _ _ K)) (lk_at _ _ _ _ _ _ _ K)) as Hle.
  rewrite (lk_rc _ _ _ _ _ _ _ K) in Hle. destruct (Hm (i_inum j)) as [_ Hmax]. pose proof (one_at_range n (i_inum j)). lia.
Qed.

Lemma wp_leave looked s B g b X len l n p j Q : tree_for looked B -> fs_is s B ∅ g l -> at_lock B b len l n p j -> room b X len ->
  (forall s' l', walked B b len None None l' -> fs_is s' B ∅ g l' -> Q tt s') -> wp (iunlockput p) s Q.
Proof using Type.
  intros Ht H K Hroom HQ. pose proof (at_lock_max _ _ _ _ _ _ _ _ K Hroom) as Hmax. destruct K as [K1 K2 K3 K4 K5 K6 K7 K8 K9].
  eapply wp_iunlockput; [exact H|exact K1|exact K2|lia|rewrite K3; by apply Ht|].
  intros s' l' C1 C2 C3 _ _ H'. eapply HQ; [|exact H']. split; [done|lia|done|]. intros m. rewrite C2, K8, K3. lia.
Qed.

(** Giving up the directory after its entry was found *)
Lemma wp_leave_next looked s B g b X len l l2 n p j m q Q : tree_for looked B -> fs_is s B ∅ g l2 -> at_lock B b len l n p j -> room b X len ->
  got sb B {[p]} l m q l2 -> N m ->
  (forall s' l', walking B b l' m q -> length l' = len -> fs_is s' B ∅ g l' -> Q tt s') -> wp (iunlockput p) s Q.
Proof using Type.
  intros Ht H [K1 K2 K3 K4 K5 K6 K7 K8 K9] [_ _ Hm] [G1 (x & Hx & Ex & Rx) G3 _ G5 Hlen] Hnode HQ.
  destruct (G5 p j K2 K4) as (r & Hr & Hp). destruct (Hm n) as [Hb Hbm]. pose proof (one_at_range m n) as Hone.
  pose proof (rc_eq sb B {[p]} l2 p _ G1 Hp Hr) as Erc. cbn in Erc. rewrite K3 in Erc.
  rewrite G3, K8, one_at_same in Erc.
  eapply wp_iunlockput; [exact H|exact G1|exact Hp|cbn; lia|cbn; rewrite K3; by apply Ht|].
  cbn [i_ref set_iref i_inum]. rewrite K3. intros s' l' C1 C2 C3 C4 C5 H'. apply (HQ s' l'); [|lia|exact H']. split; [done| |done|].
  - destruct (decide (q = p)) as [->|Hne]; [|exists x; by rewrite C5].
    eexists. split; [exact C4|]. cbn. rewrite Hp in Hx. injection Hx as <-. cbn in Ex. split; [done|].
    assert (m = n) as -> by congruence. rewrite one_at_same in Erc. lia.
  - intros y. rewrite C2, G3, K8. lia.
Qed.

(** Searching the directory *)
Lemma wp_search looked s B g b X len l n p j name Q : tree_for looked B -> fs_is s B ∅ g l -> (size g <= st_cap)%nat -> at_lock B b len l n p j -> room b X len ->
  is_dir sb B n = true -> buffer name -> looked (fname name) ->
  (forall s', node_dir sb B n !! fname name = None -> fs_is s' B ∅ g l -> Q None s') ->
  (forall s' l' m q off, node_dir sb B n !! fname name = Some m -> got sb B {[p]} l m q l' -> N m ->
     fs_is s' B ∅ g l' -> Q (Some (q, off)) s') ->
  wp (Fs.dirlookup devsw_read p name) s Q.
Proof using Type.
  intros Ht H Hg K Hroom Hdir [Hbl Hbb] Hlk HN HS. pose proof K as [K1 K2 K3 K4 K5 K6 K7 K8 K9].
  assert (i_type (dnode B n) = T_DIR) as Hty by (by apply Z.eqb_eq).
  destruct (tf_dir _ _ Ht n K7 Hty) as [[D1 D2 D3 D4 D5] Hnh].
  assert (file B j = file B (dnode B n)) as Ef by (rewrite <- K5, K3; done).
  assert (dir_inode sb B j) as Hdj. { rewrite <- K5, K3. split; cbn; try done. }
  assert (forall m, node_dir sb B n !! fname name = Some m -> N m) as Hnode by (intros m; by apply (tf_ents _ _ Ht)).
  assert (0 < slots l)%nat as Hslots by (eapply room_slots; [exact K1|exact K8|by rewrite K9]).
  eapply (wp_dirlookup sb devsw_read); try done.
  - apply Ht.
  - left. unfold DIRSIZ in *. lia.
  - assert (i_addrs j = i_addrs (dnode B n) /\ i_size j = i_size (dnode B n)) as [Ea Ez] by (rewrite <- K5, K3; done).
    specialize (Hnh _ Hlk). unfold searched, ents in *. by rewrite Ef, Ea, Ez.
  - rewrite Ef. intros m Em. split; [by apply Ht, Hnode|]. split; [by right|]. rewrite K8.
    destruct (rm_max _ _ _ Hroom m) as [_ Hm]. pose proof (one_at_range n m). lia.
  - rewrite Ef. intros s' E H'. by apply HN.
  - rewrite Ef. intros s' l' m q k e Em Hgot _ _ _ H'. eapply HS; try done. by apply Hnode.
Qed.

Lemma wp_drop looked s B g b X l n p Q : tree_for looked B -> fs_is s B ∅ g l -> walking B b l n p -> room b X (length l) ->
  (forall s' l', walked B b (length l) None None l' -> fs_is s' B ∅ g l' -> Q tt s') -> wp (iput p) s Q.
Proof using Type.
  intros Ht H [Hc (i & Hp & En & Hr) Hnode Hrc] [_ _ Hm] HQ. pose proof (rc_eq sb B ∅ l p i Hc Hp Hr) as E. rewrite Hrc, En, one_at_same in E.
  destruct (Hm n) as [_ Hmax]. eapply (wp_iput sb); [exact H|exact Hc|exact Hp|lia|set_solver|rewrite En; by apply Ht|].
  intros s' l' -> [G1 G2 _] H'. eapply HQ; [|exact H']. split; [done|apply length_insert|done|].
  intros m. rewrite G2, Hrc, En. lia.
Qed.

Lemma wp_unlock s B g b len l n p j Q : fs_is s B ∅ g l -> at_lock B b len l n p j ->
  (forall s' l', walked B b len (Some n) (Some p) l' -> fs_is s' B ∅ g l' -> Q tt s') -> wp (iunlock (Some p)) s Q.
Proof using Type.
  intros H [K1 K2 K3 K4 K5 K6 K7 K8 K9] HQ. assert (p < length l)%nat as Hlt by (by eapply lookup_lt_Some).
  eapply (wp_iunlock sb); [exact H|exact K1|exact K2|set_solver|]. intros s' H' Hc'.
  replace ({[p]} ∖ {[p]} : gset nat) with (∅ : gset nat) in Hc' by set_solver. eapply HQ; [|exact H']. split; [done|by rewrite length_insert| |].
  - eexists. split; [by apply list_lookup_insert_eq|done].
  - intros m. rewrite (rc_insert _ _ _ _ _ K2), K8. unfold refs_to. cbn. lia.
Qed.

Lemma wp_namex_loop looked k : forall s B g b X l n p path par name Q, tree_for looked B -> fs_is s B ∅ g l -> (size g <= st_cap)%nat ->
  walking B b l n p -> room b X (length l) -> Forall char_ok path -> buffer name ->
  Forall (fun e => looked (take DIRSIZ e)) (elems path) -> (length path <= k)%nat ->
  (forall s' r l' name', walked B b (length l) (target sb par B n (elems path)) r l' -> buffer name' ->
     (par = true -> forall e, last (elems path) = Some e -> is_Some r -> fname name' = take DIRSIZ e) ->
     fs_is s' B ∅ g l' -> Q (r, name') s') ->
  wp (namex_loop k path par name p) s Q.
Proof using Type.
  induction k as [|k IH]; intros s B g b X l n p path par name Q Ht H Hg Hw Hroom Hpath Hbuf Hlk Hk HQ; cbn [Fs.namex_loop];
    destruct (skipelem path name) as [[rest name']|] eqn:Es.
  1:{ apply skipelem_Some in Es as (e & _ & _ & _ & _ & Hlt & _); [lia|done|done]. }
  1,3: apply skipelem_None in Es; rewrite Es in HQ; destruct par;
    [apply wp_bind; eapply wp_drop; try done; intros s1 l1 W H1; apply wp_ret; by apply (HQ s1 None l1)
    |apply wp_ret, (HQ s (Some p) l); try done; destruct Hw as [W1 (i & W2 & W3 & W4) W5 W6]; split; try done; by exists i].
  apply skipelem_Some in Es as (e & Ee & Ename & Hbuf' & Hrest & Hlt & Hempty); [|done|done]. rewrite Ee in HQ, Hlk.
  apply Forall_cons in Hlk as [Hlk Hlks]. rewrite <- Ename in Hlk.
  apply wp_bind. eapply wp_enter; try done. intros s1 l1 j K H1. apply wp_bind.
  eapply wp_geti_at; [exact H1|apply (lk_at _ _ _ _ _ _ _ K)|].
  assert ((i_type j =? T_DIR) = is_dir sb B n) as -> by (rewrite <- (lk_sync _ _ _ _ _ _ _ K), (lk_inum _ _ _ _ _ _ _ K); done).
  destruct (is_dir sb B n) eqn:Edir; cbn [negb]; cycle 1.
  { apply wp_bind. eapply wp_leave; try done. intros s2 l2 W H2. apply wp_ret, (HQ s2 None l2); try done.
    destruct par; cbn [target walk walk_parent]; by rewrite Edir. }
  destruct (par && match rest with [] => true | _ => false end) eqn:Elast.
  { apply andb_true_iff in Elast as [-> Elast]. assert (rest = []) as Er by (by destruct rest). rewrite (proj1 Hempty Er) in HQ.
    apply wp_bind. eapply wp_unlock; try done. intros s2 l2 W H2. apply wp_ret, (HQ s2 (Some p) l2); try done.
    - cbn [target walk_parent]. by rewrite Edir.
    - intros _ x [= <-] _. done. }
  assert (target sb par B n (e :: elems rest) = (m ← node_dir sb B n !! fname name'; target sb par B m (elems rest))) as Etgt.
  { rewrite Ename. destruct par; cbn [target walk walk_parent]; rewrite Edir; [|done]. destruct (elems rest) eqn:Erest; [|done].
    rewrite (proj2 Hempty eq_refl) in Elast. done. }
  rewrite Etgt in HQ. apply wp_bind. eapply wp_search; try done.
  - intros s2 En H2. rewrite En in HQ. apply wp_bind. eapply wp_leave; try done. intros s3 l3 W H3.
    by apply wp_ret, (HQ s3 None l3).
  - intros s2 l2 m q off Em G Hm H2. rewrite Em in HQ. apply wp_bind. eapply wp_leave_next; try done. intros s3 l3 W3 L3 H3.
    eapply IH; try done; [by rewrite L3|lia|]. rewrite L3. intros s4 r l4 name4 W4 B4 N4 H4. apply (HQ s4 r l4 name4); try done.
    intros Epar x Hx Hr. destruct (elems rest) as [|y ys] eqn:Erest; [|by apply (N4 Epar x)].
    rewrite Epar, (proj2 Hempty eq_refl) in Elast. done.
Qed.

(** Where a path starts *)
Definition absolute (path : list Z) : bool := match path with c :: _ => c =? 47 | [] => false end.
Definition start_of (l : list inode) (cwd : nat) (path : list Z) : Z := if absolute path then ROOTINO else i_inum (l !!! cwd).
Definition cwd_ok (l : list inode) (cwd : nat) : Prop := exists c, l !! cwd = Some c /\ 0 < i_ref c /\ N (i_inum c).

Lemma wp_namex looked s B g X l cwd path par name Q : tree_for looked B -> fs_is s B ∅ g l -> (size g <= st_cap)%nat -> cache_ok B ∅ l ->
  room (rc l) X (length l) -> N ROOTINO -> (absolute path = false -> cwd_ok l cwd) -> Forall char_ok path -> buffer name ->
  Forall (fun e => looked (take DIRSIZ e)) (elems path) ->
  (forall s' r l' name', walked B (rc l) (length l) (target sb par B (start_of l cwd path) (elems path)) r l' -> buffer name' ->
     (par = true -> forall e, last (elems path) = Some e -> is_Some r -> fname name' = take DIRSIZ e) ->
     fs_is s' B ∅ g l' -> Q (r, name') s') ->
  wp (namex cwd path par name) s Q.
Proof using Type.
  intros Ht H Hg Hc Hroom Hroot Hcwd Hpath Hbuf Hlk HQ. unfold Fs.namex.
  assert (forall n p l1 s1, got sb B ∅ l n p l1 -> N n -> start_of l cwd path = n -> fs_is s1 B ∅ g l1 ->
    wp (namex_loop (length path) path par name p) s1 Q) as Hgo.
  { intros n p l1 s1 [G1 G2 G3 _ _ G6] Hn En H1. rewrite En in HQ. rewrite <- G6 in HQ, Hroom. by eapply (wp_namex_loop looked _ _ _ _ (rc l)). }
  assert (forall m, rc l m + 1 < 2 ^ 31) as Hmax by (intros m; destruct (rm_max _ _ _ Hroom m); lia).
  assert (absolute path = false -> wp (idup cwd) s (fun p s1 => wp (namex_loop (length path) path par name p) s1 Q)) as Hdup.
  { intros Ea. destruct (Hcwd Ea) as (c & Hc1 & Hc2 & Hc3). eapply (wp_idup sb); try done.
    - specialize (Hmax (i_inum c)). pose proof (rc_entry l cwd c (ca_ref _ _ _ _ Hc) Hc1). lia.
    - intros s1 l1 G H1. eapply Hgo; try done. unfold start_of. by rewrite Ea, (list_lookup_total_correct _ _ _ Hc1). }
  apply wp_bind. destruct path as [|x path]; [by apply Hdup|].
  unfold absolute in Hdup. destruct (x =? 47) eqn:Ex; [|by apply Hdup].
  eapply (wp_iget sb); try done; [by apply Ht| |].
  - right. destruct (decide (size (in_use l) < length l)%nat) as [|Hge]; [pose proof (slots_in_use sb B ∅ l Hc); lia|].
    exfalso. pose proof (rm_size _ _ _ Hroom). assert (size (in_use l) <= size X)%nat; [|lia].
    apply subseteq_size. intros m Hm. apply (rm_in _ _ _ Hroom). by apply (rc_in_use sb B ∅ l m Hc).
  - intros s1 p l1 G H1. eapply Hgo; try done. unfold start_of, absolute. by rewrite Ex.
Qed.

(** C9: namei finds the inode that walking the directories from the root, or
    from the current directory, leads to, or none when there is none; it leaves
    one more reference to that inode, and otherwise the counts of references
    as they were. *)
Theorem namei_walks s B g X l cwd path name : tree_ok B -> fs_is s B ∅ g l -> (size g <= st_cap)%nat -> cache_ok B ∅ l ->
  room (rc l) X (length l) -> N ROOTINO -> (absolute path = false -> cwd_ok l cwd) -> Forall char_ok path -> buffer name ->
  exists s' r l', namei devsw_read cwd path name s = Done s' r /\ fs_is s' B ∅ g l' /\
    walked B (rc l) (length l) (walk sb B (start_of l cwd path) (elems path)) r l'.
Proof using Type.
  intros Ht H Hg Hc Hroom Hroot Hcwd Hpath Hbuf.
  edestruct (wp_Done (namei devsw_read cwd path name) s (fun r s' => exists l', fs_is s' B ∅ g l' /\
    walked B (rc l) (length l) (walk sb B (start_of l cwd path) (elems path)) r l')) as (s' & r & E & l' & H' & W).
  { unfold namei. apply wp_bind. eapply (wp_namex (fun _ => True)); try done; [by apply whole_for|by apply Forall_true|]. intros s1 r l1 name1 W _ _ H1. apply wp_ret. by exists l1. }
  by exists s', r, l'.
Qed.
End FsPath.
