(* ===== verification/FsLog.v ===== *)
(** * The log as the file system's block store

    The buffer cache and the log, inside a transaction, implement the
    interface of Store.v: [log_laws] discharges its laws from the refinement
    of Txn.v. [atomic] runs an operation of the file system as the system
    calls do, between begin_op and end_op, and a power failure at any point
    recovers the state before or after all of it. *)

From S2P Require Import Prelude Params Bytes Bio Log Txn Store.

#[export] Instance log_store : BlockStore logst := {
  st_bread dev bn := on_bc (bread dev bn);
  st_log_write := log_write;
  st_brelse b := on_bc (brelse b);
  st_data := data;
  st_put b d s := put_bc (put_data b d (ls_bc s)) s
}.

#[export] Instance log_tx : Transactions logst := { st_begin := begin_op; st_end := end_op; st_init := initlog }.

Section FsLog.
Context (start : nat) (Hstart : (1 < start)%nat).
(** mkfs makes the log LOGSIZE blocks long. *)
Abbreviation nlog := 30%nat.
(** The committed state, the operations outstanding, and the disk and its
    writes so far, which do not change before the commit *)
Context (D : list bytes) (out : nat) (Hout : (0 < out)%nat) (dk : list bytes) (ws : list (nat * bytes)).

Definition tv (w : store) (l : list nat) : tview := mkT (so_blocks w) D (so_held w) l (so_fresh w) out.
Definition log_rep (s : logst) (w : store) : Prop :=
  exists l v, tinv start nlog s (tv w l) v /\ so_logged w = list_to_set l /\ v_writes v = ws /\ v_disk v = dk.

(** A step of the specification that is not a commit *)
Lemma rep_step s w l v o : steps_to start nlog s (tv w l) v o -> v_writes v = ws -> v_disk v = dk -> o <> TEnd ->
  exists s' r w' v', run_top o s = Done s' r /\ tspec start nlog (tv w l) o r w' /\ tinv start nlog s' w' v' /\
    v_writes v' = ws /\ v_disk v' = dk.
Proof using Type.
  intros (s' & r & w' & v' & E & Hs & H' & _ & [?|[E1 E2]]) Hw Hd Ho; [done|].
  exists s', r, w', v'. rewrite E1, E2. done.
Qed.

Lemma rep_size s w l v : tinv start nlog s (tv w l) v -> so_logged w = list_to_set l -> size (so_logged w) = length l.
Proof using Type. intros H ->. apply size_list_to_set. exact (hm_nodup _ _ _ _ (ti_homes _ _ _ _ _ H)). Qed.

Lemma list_to_set_log_add l bn : list_to_set (log_add l bn) = ({[bn]} ∪ list_to_set l : gset nat).
Proof using Type.
  apply set_eq. intros m. unfold log_add. rewrite elem_of_union, elem_of_singleton, !elem_of_list_to_set.
  destruct (decide _); [naive_solver|]. rewrite elem_of_app, list_elem_of_singleton. tauto.
Qed.

Lemma log_bread_ok s w bn : log_rep s w -> bn = 1%nat \/ (start + nlog <= bn)%nat -> (bn < length (so_blocks w))%nat ->
  (forall b, so_held w !! b <> Some bn) -> bn ∈ so_logged w \/ (size (so_held w) + size (so_logged w) < NBUF)%nat ->
  exists s' b, on_bc (bread 1 (Z.of_nat bn)) s = Done s' b /\ so_held w !! b = None /\
    log_rep s' (so_set_held (<[b := bn]> (so_held w)) w).
Proof using Hstart Hout.
  intros (l & v & H & Hl & Hw & Hd) Hbn Hlt Hnh Hroom. rewrite (rep_size _ _ _ _ H Hl), Hl, elem_of_list_to_set in Hroom.
  destruct (rep_step s w l v (TRead bn)) as (s' & r & w' & v' & E & Hs & H' & Hw' & Hd'); [|done|done|done|].
  { apply read_steps; [done|done| |done|done|done]. destruct Hbn as [->|?]; [left; lia|by right]. }
  apply bind_inv in E as (s1 & b & E & E1). injection E1 as <- <-.
  inversion Hs; subst. exists s1, b. split_and!; [exact E|done|]. by exists l, v'.
Qed.

Lemma log_put_ok s w b bn d : log_rep s w -> so_held w !! b = Some bn -> (start + nlog <= bn)%nat -> length d = Z.to_nat BSIZE ->
  log_rep (put_bc (put_data b d (ls_bc s)) s) (so_write bn d w).
Proof using Hstart Hout.
  intros (l & v & H & Hl & Hw & Hd) Hb Hbn Hlen.
  destruct (rep_step s w l v (TPut b d)) as (s' & r & w' & v' & E & Hs & H' & Hw' & Hd'); [by eapply put_steps|done|done|done|].
  apply bind_inv in E as (s1 & ? & E & E1). injection E1 as <- <-. injection E as <- <-.
  inversion Hs as [| |? bn' ? Hb'| | | |]; subst. assert (bn' = bn) as -> by (cbn in Hb'; congruence). by exists l, v'.
Qed.

Lemma log_log_write_ok s w b bn : log_rep s w -> so_held w !! b = Some bn -> (start + nlog <= bn)%nat ->
  (size (so_logged w) <= 28)%nat -> exists s', log_write b s = Done s' tt /\ log_rep s' (so_log bn w).
Proof using Hstart Hout.
  intros (l & v & H & Hl & Hw & Hd) Hb Hbn Hsz. rewrite (rep_size _ _ _ _ H Hl) in Hsz.
  assert (LOGSIZE = 30 /\ NBUF = 30%nat) as [EL EN] by done.
  destruct (rep_step s w l v (TLog b)) as (s' & r & w' & v' & E & Hs & H' & Hw' & Hd'); [|done|done|done|].
  { eapply log_steps; [done|exact H|exact Hb|exact Hbn|exact Hout|cbn [t_list tv]; lia|cbn [t_list tv]; lia|cbn [t_list tv]; lia]. }
  apply bind_inv in E as (s1 & [] & E & E1). injection E1 as <- <-.
  inversion Hs as [| | |? bn' Hb'| | |]; subst. assert (bn' = bn) as -> by (cbn in Hb'; congruence).
  exists s1. split; [exact E|]. exists (log_add l bn), v'. split_and!; [exact H'| |done|done].
  cbn [so_log so_logged]. by rewrite list_to_set_log_add, Hl.
Qed.

Lemma log_brelse_ok s w b bn : log_rep s w -> so_held w !! b = Some bn -> (bn ∉ so_fresh w) ->
  exists s', on_bc (brelse b) s = Done s' tt /\ log_rep s' (so_set_held (delete b (so_held w)) w).
Proof using Hstart Hout.
  intros (l & v & H & Hl & Hw & Hd) Hb Hf.
  destruct (rep_step s w l v (TRelse b)) as (s' & r & w' & v' & E & Hs & H' & Hw' & Hd'); [by eapply relse_steps|done|done|done|].
  apply bind_inv in E as (s1 & [] & E & E1). injection E1 as <- <-.
  inversion Hs; subst. exists s1. split; [exact E|]. by exists l, v'.
Qed.

Lemma log_data_ok s w b bn : log_rep s w -> so_held w !! b = Some bn -> so_blocks w !! bn = Some (data b s).
Proof using Type.
  intros (l & v & H & _) Hb.
  rewrite <- (ti_blocks _ _ _ _ _ H : forall bn, outside start nlog bn -> v_blocks v !! bn = so_blocks w !! bn)
    by (by eapply (ti_outside _ _ _ _ _ H)).
  apply (data_spec _ _ _ _ (ti_cache _ _ _ _ _ H)). by rewrite (ti_held _ _ _ _ _ H).
Qed.

(** A transaction can log 28 blocks: log_write wants one slot left of the
    log's 29, and bread two buffers of the 30 beside those it pins. *)
Definition log_dims : BlockStoreDims logst := {| st_first := start + nlog; st_cap := 28; st_bufs := NBUF; st_cap_bufs := le_n 30 |}.
#[local] Existing Instance log_dims.
Definition log_laws : BlockStoreLaws logst := {|
  st_rep := log_rep;
  st_bread_ok s w bn := log_bread_ok s w bn;
  st_data_ok s w b bn := log_data_ok s w b bn;
  st_put_ok s w b bn d := log_put_ok s w b bn d;
  st_log_write_ok s w b bn H1 H2 H3 _ H5 := log_log_write_ok s w b bn H1 H2 H3 H5;
  st_brelse_ok s w b bn := log_brelse_ok s w b bn
|}.
End FsLog.
