(* ===== verification/FsTxn.v ===== *)
(** * System calls as transactions

    begin_op and end_op around an operation of the file system, as sysfile.c,
    file.c and exec.c use them: if the operation keeps to the interface of
    the block store, all its changes reach the disk or none does, whatever
    the moment of a power failure. *)

From S2P Require Import Prelude Params Bytes Bio Log Txn Store FsLog CString Fs FsSpec FsData FsFile FsWrite.

Definition begin_op : kernel (fsys logst) unit := on_store Log.begin_op.
Definition end_op : kernel (fsys logst) unit := on_store Log.end_op.
(** begin_op(); m; end_op(); *)
Definition atomic {A} (m : kernel (fsys logst) A) : kernel (fsys logst) A := begin_op;; a ← m; end_op;; mret a.

Section FsTxn.
Context (start : nat) (Hstart : (1 < start)%nat) (sb : superblock).
#[local] Instance dims : BlockStoreDims logst := log_dims start.
Abbreviation laws D dk ws := (log_laws start Hstart D 1 Nat.lt_0_1 dk ws).
Abbreviation in_op s D dk ws B g l := (@fs_is logst log_store dims (laws D dk ws) sb s B ∅ g l).
Abbreviation disk s := (bc_disk (ls_bc (f_store s))).
Abbreviation writes s := (bc_writes (ls_bc (f_store s))).

(** No operation is outstanding; [D] is committed and is what bread returns. *)
Definition idle (s : fsys logst) (D : list bytes) (l : list inode) : Prop :=
  (exists v, tinv start 30 (f_store s) (mkT D D ∅ [] ∅ 0) v) /\ f_sb s = sb /\ f_inodes s = l.

Lemma begin_op_ok s D l : idle s D l ->
  exists s1, begin_op s = Done s1 tt /\ in_op s1 D (disk s) (writes s) D ∅ l.
Proof using Type.
  intros ((v & H) & Hsb & Hl).
  destruct (begin_steps start 30 Hstart _ _ _ H) as (t & r & w' & v' & E & Hs & H' & _ & [?|[E1 E2]]); [done|done|].
  apply bind_inv in E as (t1 & [] & E & E'). injection E' as <- <-.
  inversion Hs; subst. exists (put_store t1 s). split.
  - unfold begin_op, on_store, klift. by rewrite E.
  - split; [|done|done]. exists [], v'. split_and!.
    + exact H'.
    + done.
    + by rewrite E1, (c_writes _ _ (ti_cache _ _ _ _ _ H)).
    + by rewrite E2, (c_disk _ _ (ti_cache _ _ _ _ _ H)).
Qed.

Lemma end_op_ok s D dk ws B g l : in_op s D dk ws B g l ->
  exists s' W, end_op s = Done s' tt /\ idle s' B l /\ writes s' = ws ++ W /\
    forall k, let image := put_blocks (take k W) dk in recovers_to start 30 image D \/ recovers_to start 30 image B.
Proof using Type.
  intros [(li & v & H & _ & Hw & Hd) Hsb Hl].
  destruct (commit_steps start 30 Hstart _ _ _ H) as (t & r & w' & v' & E & Hs & H' & (W & EW & HW) & _); [done|done|].
  apply bind_inv in E as (t1 & [] & E & E'). injection E' as <- <-.
  assert (w' = mkT B B ∅ [] ∅ 0) as -> by (inversion Hs as [| | | | |Ho|]; subst; [cbn in Ho; lia|done]).
  exists (put_store t1 s), W. split_and!.
  - unfold end_op, on_store, klift. by rewrite E.
  - split; [by exists v'|done].
  - cbn. by rewrite (c_writes _ _ (ti_cache _ _ _ _ _ H')), EW, Hw.
  - by rewrite <- Hd.
Qed.

Lemma atomic_ok {A} (m : kernel (fsys logst) A) s D l (Q : A -> list bytes -> list inode -> Prop) : idle s D l ->
  (forall s1 dk ws, in_op s1 D dk ws D ∅ l -> wp m s1 (fun a s2 => exists B g l', in_op s2 D dk ws B g l' /\ Q a B l')) ->
  exists s' a B l' W, atomic m s = Done s' a /\ Q a B l' /\ idle s' B l' /\ writes s' = writes s ++ W /\
    forall k, let image := put_blocks (take k W) (disk s) in recovers_to start 30 image D \/ recovers_to start 30 image B.
Proof using Type.
  intros Hi Hm. destruct (begin_op_ok s D l Hi) as (s1 & E1 & H1).
  destruct (wp_Done _ _ _ (Hm _ _ _ H1)) as (s2 & a & E2 & B & g & l' & H2 & HQ).
  destruct (end_op_ok _ _ _ _ _ _ _ H2) as (s3 & W & E3 & H3 & HW & Hc).
  exists s3, a, B, l', W. split_and!; [|done|done|done|done].
  unfold atomic. rewrite (bind_Done _ _ _ _ _ E1), (bind_Done _ _ _ _ _ E2), (bind_Done _ _ _ _ _ E3). done.
Qed.

(** C3: A write system call is atomic. begin_op, writei within the limits of
    a transaction, end_op: it returns, the file has the written bytes in
    place and everything else is unchanged, and if the power fails after any
    number of the disk writes the next boot recovers (outside the log) the
    blocks as they were before the call or as they are after it. *)
Theorem write_transaction_atomic devsw_write s D l ip i off src :
  idle s D l -> l !! ip = Some i -> disk_ok sb D -> file_inode sb D i -> Forall byte_ok src ->
  0 <= off <= i_size i -> off + Z.of_nat (length src) <= MAXFILE * BSIZE ->
  (pot sb (i_addrs i) ∅ + nch off (Z.of_nat (length src)) < 28)%nat ->
  free_ge sb D (no_ind (i_addrs i) + nch off (Z.of_nat (length src))) ->
  exists s' B i' W, atomic (writei devsw_write ip src off (Z.of_nat (length src))) s = Done s' (Z.of_nat (length src)) /\
    write_result sb D i off src B i' /\ idle s' B (<[ip := i']> l) /\ writes s' = writes s ++ W /\
    forall k, let image := put_blocks (take k W) (disk s) in recovers_to start 30 image D \/ recovers_to start 30 image B.
Proof using Hstart.
  intros Hi Hip Hd Hf Hby Ho Hm Hp Hfree.
  destruct (atomic_ok (writei devsw_write ip src off (Z.of_nat (length src))) s D l
    (fun r B l' => r = Z.of_nat (length src) /\ exists i', l' = <[ip := i']> l /\ write_result sb D i off src B i') Hi)
    as (s' & r & B & l' & W & E & (-> & i' & -> & R) & H' & Hw & Hc).
  - intros s1 dk ws H1. eapply (wp_writei sb); try done.
    intros s2 B i' g' R _ _ H2. exists B, g', (<[ip := i']> l). split; [exact H2|]. split; [done|]. by exists i'.
  - exists s', B, i', W. done.
Qed.
End FsTxn.
