(* ===== verification/FsBoot.v ===== *)
(** * Starting the file system, and reading a file by its path

    forkret() calls iinit and initlog, which recovers the log; then a file is
    read the way exec reads one: begin_op, namei, ilock, readi, iunlockput,
    end_op. *)

From S2P Require Import Prelude Params Bytes Bio Log Txn Store FsLog CString Fs FsSpec FsData FsFile FsWrite FsCache FsDir FsPath FsTxn.

(** proc.c: forkret, the first time *)
Definition fsinit : kernel (fsys logst) unit := iinit ROOTDEV;; on_store (initlog ROOTDEV).

Lemma iinit_ok t d sb0 ic : cache t (mkView d d ∅ ∅ []) -> (1 < length d)%nat ->
  exists t', iinit ROOTDEV (mkFs (mkLs t log0) sb0 ic) = Done (mkFs (mkLs t' log0) (decode_sb (d !!! 1%nat)) ic) tt /\
    cache t' (mkView d d ∅ ∅ []).
Proof.
  intros Ht Hd. destruct (readsb_spec (mkLs t log0) _ Ht) as ([t' g'] & E & Eg & Ht'); cbn [v_held v_blocks v_dirty ls_log] in *.
  { done. } { done. } { rewrite size_empty. unfold NBUF. lia. } { set_solver. }
  subst g'. exists t'. split; [|done]. unfold Log.readsb in E.
  apply bind_inv in E as (s1 & bp & E1 & E). apply bind_inv in E as (s2 & sb & E2 & E). injection E2 as <- Esb.
  apply bind_inv in E as (s3 & [] & E3 & E). injection E as -> E.
  unfold iinit, Fs.readsb. rewrite bind_assoc.
  erewrite (bind_Done (Fs.bread ROOTDEV 1) _ _ (mkFs s1 sb0 ic) bp); [|unfold Fs.bread, on_store, klift; change (st_bread _ _ _) with (on_bc (Bio.bread (u32 1) 1) (mkLs t log0)); by rewrite E1].
  rewrite bind_assoc. erewrite (bind_Done (Fs.data bp)); [|reflexivity]. rewrite bind_assoc.
  erewrite (bind_Done (Fs.brelse bp) _ _ (mkFs (mkLs t' log0) sb0 ic) tt); [|unfold Fs.brelse, on_store, klift; change (st_brelse _ _) with (on_bc (Bio.brelse bp) s1); by rewrite E3].
  unfold kmodify, mret, kernel_ret, mbind, kernel_bind, put_sb. rewrite <- E, <- Esb. done.
Qed.

Section FsBoot.
Context (start : nat) (Hstart : (1 < start)%nat).
#[local] Instance dims : BlockStoreDims logst := log_dims start.

Lemma fsinit_ok d l sb0 ic : bootable start 30 d l ->
  exists s, fsinit (mkFs (mkLs (Bio.boot d) log0) sb0 ic) = Done s tt /\ idle start (decode_sb (d !!! 1%nat)) s (recovered start d l) ic.
Proof using Hstart.
  intros Hb. assert (1 < length d)%nat as Hd by (pose proof (im_fits _ _ _ _ (bo_image _ _ _ _ Hb)); lia).
  destruct (iinit_ok _ d sb0 ic (boot_cache d) Hd) as (t & E & Ht).
  destruct (boot_from start 30 Hstart t d l Ht Hb) as (s & v & E' & Hv).
  exists (mkFs s (decode_sb (d !!! 1%nat)) ic). unfold fsinit. rewrite (bind_Done _ _ _ _ _ E). split.
  - unfold on_store, klift. cbn [f_store]. change ROOTDEV with 1. by rewrite E'.
  - split; [exists v; exact Hv|split; reflexivity].
Qed.

(** ** Reading by path *)
Context (sb : superblock) (N : Z -> Prop) (devsw_read : Z -> option (nat -> Z -> kernel (fsys logst) (Z * bytes))).
Abbreviation in_op s D dk ws B g l := (@fs_is logst log_store dims (log_laws start Hstart D 1 Nat.lt_0_1 dk ws) sb s B ∅ g l).

Definition read_body (path name : list Z) (n : Z) : kernel (fsys logst) (option (Z * bytes)) :=
  r ← namei devsw_read 0 path name;
  match r with
  | None => mret None
  | Some ip => ilock (Some ip);; x ← readi devsw_read ip 0 n; iunlockput ip;; mret (Some x)
  end.
Definition read_path (path name : list Z) (n : Z) : kernel (fsys logst) (option (Z * bytes)) := atomic (read_body path name n).

(** What is read: the file at the end of the walk *)
Definition path_data (D : list bytes) (path : list Z) (n : Z) : option (Z * bytes) :=
  m ← walk sb D ROOTINO (elems path);
  let i := dnode sb D m in let r := Z.min n (i_size i) in
  Some (r, fbytes D (i_addrs i) 0 (Z.to_nat r)).

Record readable_node (D : list bytes) (m : Z) : Prop := mkReadable {
  rn_type : i_type (dnode sb D m) <> T_DEV;
  rn_file : file_ok sb D (i_addrs (dnode sb D m));
  rn_size : 0 <= i_size (dnode sb D m) <= MAXFILE * BSIZE;
  rn_holes : no_holes D (i_addrs (dnode sb D m)) (i_size (dnode sb D m))
}.

Lemma wp_read_path looked s D dk ws X l path name n : tree_for sb N looked D -> in_op s D dk ws D ∅ l -> cache_ok sb D ∅ l ->
  room (rc l) X (length l) -> N ROOTINO -> absolute path = true -> Forall char_ok path -> buffer name -> 0 <= n < 2 ^ 31 ->
  Forall (fun e => looked (take DIRSIZ e)) (elems path) -> (forall m, walk sb D ROOTINO (elems path) = Some m -> readable_node D m) ->
  wp (read_body path name n) s (fun a s' => exists B g l', in_op s' D dk ws B g l' /\ a = path_data D path n /\ B = D /\
      cache_ok sb D ∅ l' /\ (forall m, rc l' m = rc l m) /\ length l' = length l).
Proof using Hstart.
  intros Ht H Hc Hroom Hroot Habs Hpath Hbuf Hn Hlk Hread. unfold read_body. apply wp_bind. unfold namei. apply wp_bind.
  eapply (wp_namex sb N devsw_read looked); try done; [apply Nat.le_0_l|congruence|].
  intros s1 r l1 name1 W _ _ H1. apply wp_ret. cbn [fst]. unfold path_data. unfold start_of in W. rewrite Habs in W. cbn [target] in W.
  destruct W as [W1 W2 W3 W4]. destruct (walk sb D ROOTINO (elems path)) as [m|] eqn:Ew; cbn [mbind option_bind]; destruct r as [ip|]; try done; cycle 1.
  { apply wp_ret. exists D, ∅, l1. split_and!; try done. intros m. rewrite W4. lia. }
  destruct W3 as (i & W5 & W6 & W7 & W8). destruct (Hread m eq_refl) as [R1 R2 R3 R4]. apply wp_bind.
  eapply (wp_enter sb N _ _ _ _ (rc l) l1 m); try done; [apply Nat.le_0_l|split; try done; by exists i|].
  intros s2 l2 j K H2. pose proof K as [K1 K2 K3 K4 K5 K6 K7 K8 K9].
  assert (i_addrs j = i_addrs (dnode sb D m)) as Ea by (rewrite <- K5, K3; done).
  assert (i_size j = i_size (dnode sb D m)) as Es by (rewrite <- K5, K3; done).
  assert (i_type j = i_type (dnode sb D m)) as Ety by (rewrite <- K5, K3; done).
  apply wp_bind. eapply (wp_readi sb devsw_read _ _ _ _ _ j); rewrite ?Ea, ?Es, ?Ety; try done; [apply Ht|apply Nat.le_0_l|lia|].
  intros s3 H3. cbn zeta. rewrite Z.sub_0_r. apply wp_bind. eapply (wp_leave sb N _ _ _ _ (rc l) X); try done; [by rewrite W2|].
  intros s4 l4 [V1 V2 _ V4] H4. apply wp_ret. exists D, ∅, l4. split_and!; try done; [|by rewrite V2].
  intros y. rewrite V4. lia.
Qed.

Lemma read_path_ok looked s D X l path name n : tree_for sb N looked D -> idle start sb s D l -> cache_ok sb D ∅ l ->
  room (rc l) X (length l) -> N ROOTINO -> absolute path = true -> Forall char_ok path -> buffer name -> 0 <= n < 2 ^ 31 ->
  Forall (fun e => looked (take DIRSIZ e)) (elems path) -> (forall m, walk sb D ROOTINO (elems path) = Some m -> readable_node D m) ->
  exists s' l', read_path path name n s = Done s' (path_data D path n) /\ idle start sb s' D l' /\ cache_ok sb D ∅ l' /\
    (forall m, rc l' m = rc l m) /\ length l' = length l.
Proof using Hstart.
  intros Ht Hi Hc Hroom Hroot Habs Hpath Hbuf Hn Hlk Hread.
  edestruct (atomic_ok start Hstart sb (read_body path name n) s D l (fun a B l' => a = path_data D path n /\ B = D /\ cache_ok sb D ∅ l' /\
    (forall m, rc l' m = rc l m) /\ length l' = length l) Hi) as (s' & a & B & l' & W & E & (-> & -> & Hc' & Hrc & Hl) & Hi' & _).
  { intros s1 dk ws H1. by eapply (wp_read_path looked s1 D dk ws X l path name n). }
  by exists s', l'.
Qed.
End FsBoot.
