(* ===== verification/FsDemo.v ===== *)
(** * A concrete file system

    A disk of 40 blocks with a log, an inode block, a bitmap and one empty
    directory, booted; the theorems on file operations at it. *)

From S2P Require Import Prelude Params Bytes Bio Log Txn Store FsLog CString Fs FsSpec FsData FsFile FsWrite FsCache FsDir FsTxn.

Definition zero : bytes := replicate 512 0.
Definition img_sb : bytes :=
  put32 0 40 (put32 4 5 (put32 8 8 (put32 12 30 (put32 16 2 (put32 20 32 (put32 24 34 zero)))))).
Definition the_sb : superblock := mkSb 40 5 8 30 2 32 34.
(** Inode 1: a directory, one link, no blocks *)
Definition img_inodes : bytes := put16 64 1 (put16 70 1 zero).
Definition img_bitmap : bytes := put32 0 (2 ^ 32 - 1) (put8 4 7 zero).
Definition img : list bytes :=
  [zero; img_sb] ++ replicate 30 zero ++ [img_inodes; zero; img_bitmap] ++ replicate 5 zero.

Definition the_inode : inode := mkInode 1 1 1 3 1 0 0 1 0 (replicate 13 0).
Definition the_icache : list inode := the_inode :: replicate 49 inhabitant.
Definition img_boot : logst := state_of (initlog 1 (mkLs (Bio.boot img) log0)) (mkLs (Bio.boot img) log0).
Definition the_fs : fsys logst := mkFs img_boot the_sb the_icache.
Definition the_blocks : list bytes := recovered 2 img [].

Lemma img_boot_eq : initlog 1 (mkLs (Bio.boot img) log0) = Done img_boot tt.
Proof. apply result_is_Done. vm_compute. reflexivity. Qed.
Lemma img_bootable : bootable 2 30 img [].
Proof.
  split.
  - split; [|apply homes_nil; lia|vm_compute; lia]. split; [vm_compute; reflexivity|]. split; [vm_compute; reflexivity|done].
  - intros b Hb. by destruct (not_elem_of_nil _ Hb).
  - split; vm_compute; reflexivity.
  - vm_compute. reflexivity.
Qed.
Lemma the_fs_idle : idle 2 the_sb the_fs the_blocks the_icache.
Proof. split; [|done]. apply (boot_tinv 2 30 (le_n 2) img []); [apply img_bootable|apply img_boot_eq]. Qed.

#[local] Instance the_dims : BlockStoreDims logst := log_dims 2.

(** Decidable checks of the conditions on the image *)
Definition block_okb (d : bytes) : bool := (length d =? 512)%nat && forallb (fun x => (0 <=? x) && (x <? 256)) d.
Lemma block_okb_ok d : block_okb d = true -> block_ok d.
Proof.
  intros [H1 H2]%andb_true_iff. split; [by apply Nat.eqb_eq|]. apply Forall_forall. intros x Hx.
  rewrite forallb_forall in H2. specialize (H2 x (proj1 (list_elem_of_In _ _) Hx)). unfold byte_ok. lia.
Qed.
Lemma forall_below n (P : Z -> bool) : forallb (fun k => P (Z.of_nat k)) (seq 0 n) = true -> forall b, 0 <= b < Z.of_nat n -> P b = true.
Proof.
  intros H b Hb. rewrite forallb_forall in H. rewrite <- (Z2Nat.id b) by lia. apply H. apply in_seq. lia.
Qed.

Lemma the_disk_ok : disk_ok the_sb the_blocks.
Proof.
  split.
  - split; vm_compute; (reflexivity || lia || discriminate).
  - assert (forallb block_okb the_blocks = true) as H by (vm_compute; reflexivity).
    apply Forall_forall. intros d Hd. apply block_okb_ok. rewrite forallb_forall in H. by apply H, list_elem_of_In.
  - vm_compute. reflexivity.
  - intros b Hb. apply (forall_below 35); [vm_compute; reflexivity|exact Hb].
Qed.

Lemma the_fblk B bn : 0 <= bn < MAXFILE -> fblk B (replicate 13 0) bn = 0.
Proof.
  intros Hb. unfold fblk. destruct (Z.ltb_spec bn NDIRECT) as [Hlt|_]; [|done].
  change NDIRECT with 12 in Hlt. rewrite lookup_total_replicate_2 by lia. done.
Qed.
Lemma the_file_inode : file_inode the_sb the_blocks the_inode.
Proof.
  split; try done; cbn [the_inode i_addrs i_size i_dev i_type i_inum].
  - split; try done. apply Forall_replicate. lia.
  - split; [done|by left| | |].
    + intros bn Hb. left. by apply the_fblk.
    + intros bn bm Hb Hm _ Hn. by rewrite the_fblk in Hn.
    + intros bn Hb Hn. by rewrite the_fblk in Hn.
  - intros bn Hb Hs. change BSIZE with 512 in Hs. lia.
Qed.
Lemma the_free : free_ge the_sb the_blocks 4.
Proof.
  exists [35; 36; 37; 38]. split_and!; [|done|].
  - repeat constructor; rewrite ?elem_of_cons, ?elem_of_nil; lia.
  - intros y Hy. repeat (apply elem_of_cons in Hy as [->|Hy]); [..|by destruct (not_elem_of_nil _ Hy)]; (split; [vm_compute; split; congruence|vm_compute; reflexivity]).
Qed.
Lemma the_inode_at : the_icache !! 0%nat = Some the_inode. Proof. done. Qed.
Definition the_src : bytes := [120; 118; 54].
Lemma the_src_ok : Forall byte_ok the_src.
Proof. unfold the_src, byte_ok. repeat constructor; lia. Qed.
Lemma the_budget g : (size g <= 0)%nat -> (pot the_sb (i_addrs the_inode) g + nch 0 (Z.of_nat (length the_src)) < 28)%nat.
Proof.
  intros Hg. apply Nat.le_0_r, size_empty_inv in Hg. apply leibniz_equiv in Hg as ->. vm_compute. lia.
Qed.

Lemma write_transaction_atomic_witness :
  exists s' B i' W, atomic (writei (fun _ => None) 0 the_src 0 3) the_fs = Done s' 3 /\
    write_result the_sb the_blocks the_inode 0 the_src B i' /\ idle 2 the_sb s' B (<[0%nat := i']> the_icache) /\
    bc_writes (ls_bc (f_store s')) = bc_writes (ls_bc (f_store the_fs)) ++ W /\
    forall k, let image := put_blocks (take k W) (bc_disk (ls_bc (f_store the_fs))) in
      recovers_to 2 30 image the_blocks \/ recovers_to 2 30 image B.
Proof.
  apply (write_transaction_atomic 2 (le_n 2) the_sb (fun _ => None) the_fs the_blocks the_icache 0 the_inode 0 the_src
    the_fs_idle the_inode_at the_disk_ok the_file_inode the_src_ok).
  - cbn. lia.
  - vm_compute. discriminate.
  - apply (the_budget ∅). by rewrite size_empty.
  - eapply free_ge_mono; [apply the_free|vm_compute; lia].
Defined.

Lemma writei_readi_witness :
  exists s s', FsTxn.begin_op the_fs = Done s tt /\
    (writei (fun _ => None) 0 the_src 0 3;; readi (fun _ => None) 0 0 3) s = Done s' (3, the_src).
Proof.
  destruct (begin_op_ok 2 (le_n 2) the_sb the_fs the_blocks the_icache the_fs_idle) as (s & E & H).
  edestruct (writei_readi the_sb (fun _ => None) (fun _ => None) s the_blocks ∅ the_icache 0 the_inode 0 the_src
    H the_inode_at the_disk_ok the_file_inode the_src_ok) as [s' E'].
  - cbn. lia.
  - vm_compute. discriminate.
  - apply (the_budget ∅). by rewrite size_empty.
  - eapply free_ge_mono; [apply the_free|vm_compute; lia].
  - exists s, s'. split; [exact E|exact E'].
Defined.

Lemma writei_exact_witness : exists s, FsTxn.begin_op the_fs = Done s tt /\
  writei (fun _ => None) 0 the_src 1 3 s = Done s (-1) /\ exists s', writei (fun _ => None) 0 the_src 0 3 s = Done s' 3.
Proof.
  destruct (begin_op_ok 2 (le_n 2) the_sb the_fs the_blocks the_icache the_fs_idle) as (s & E & H). exists s. split; [exact E|].
  assert (Hr : 0 <= 1 < 2 ^ 32) by (split; [discriminate|reflexivity]). assert (Hr0 : 0 <= 0 < 2 ^ 32) by (split; [discriminate|reflexivity]).
  assert (Hl : Z.of_nat (length the_src) < 2 ^ 32) by reflexivity. split.
  - apply (writei_exact the_sb (fun _ => None) s the_blocks ∅ the_icache 0 the_inode 1 the_src
      H the_inode_at the_disk_ok the_file_inode the_src_ok Hr Hl). intros [F _]. by apply F.
  - edestruct (writei_exact the_sb (fun _ => None) s the_blocks ∅ the_icache 0 the_inode 0 the_src
      H the_inode_at the_disk_ok the_file_inode the_src_ok Hr0 Hl) as [_ (s' & B' & i' & g' & E' & _)].
    + split; vm_compute; discriminate.
    + apply (the_budget ∅). by rewrite size_empty.
    + eapply free_ge_mono; [apply the_free|vm_compute; lia].
    + exists s'. exact E'.
Defined.

Definition the_name : list Z := [97; 98; 0].
Lemma the_cache_ok : cache_ok the_sb the_blocks {[ 0%nat ]} the_icache.
Proof.
  assert (forall p i, the_icache !! p = Some i -> (p = 0%nat /\ i = the_inode) \/ i_ref i = 0) as Hat.
  { intros [|p] i Hi; [left; by injection Hi as <-|right].
    change (the_icache !! S p) with (replicate 49 (inhabitant : inode) !! p) in Hi. apply lookup_replicate in Hi as [-> _]. reflexivity. }
  split.
  - intros p i Hi. destruct (Hat p i Hi) as [[_ ->]| ->]; [discriminate|lia].
  - intros p i Hi Hr. destruct (Hat p i Hi) as [[-> ->]|E]; [|lia]. split.
    + reflexivity.
    + split; [discriminate|reflexivity].
    + reflexivity.
    + intros Hn. exfalso. apply Hn. by apply elem_of_singleton.
    + intros _. apply (fi_sync _ _ _ the_file_inode).
  - intros p q i j Hi Hj Hri Hrj _. destruct (Hat p i Hi) as [[-> _]|E], (Hat q j Hj) as [[-> _]|E']; (reflexivity || lia).
  - intros p Hp. apply elem_of_singleton in Hp as ->. exists the_inode. split; [reflexivity|reflexivity].
Qed.

Lemma dirlink_inserts_witness :
  exists s s' B' i', FsTxn.begin_op the_fs = Done s tt /\
    dirlink (fun _ => None) (fun _ => None) 0 the_name 7 s = Done s' 0 /\ dir_map (file B' i') !! [97; 98] = Some 7.
Proof.
  destruct (begin_op_ok 2 (le_n 2) the_sb the_fs the_blocks the_icache the_fs_idle) as (s & E & H).
  assert (free_ent the_blocks the_inode = 0%nat) as Ef by (vm_compute; reflexivity).
  edestruct (dirlink_inserts the_sb (fun _ => None) (fun _ => None) s the_blocks ∅ the_icache {[0%nat]} 0 the_inode the_name 7
    H the_cache_ok the_inode_at the_disk_ok the_file_inode) as (s' & B' & i' & g' & e & E' & _ & HM & _).
  - split; [reflexivity|reflexivity|apply (fi_file _ _ _ the_file_inode)|split; discriminate|reflexivity].
  - right. unfold the_name. rewrite !elem_of_cons. auto.
  - unfold the_name, byte_ok. repeat constructor; lia.
  - lia.
  - vm_compute. reflexivity.
  - rewrite Ef. vm_compute. discriminate.
  - rewrite Ef. vm_compute. lia.
  - rewrite Ef. eapply free_ge_mono; [apply the_free|vm_compute; lia].
  - exists s, s', B', i'. split; [exact E|]. split; [exact E'|]. rewrite HM. vm_compute. reflexivity.
Defined.
