(* ===== verification/File.v ===== *)
(** * Files (file.c) and pipealloc (pipe.c)

    The file table over the inode layer, the pipes and the page allocator. A
    file pointer is an index into ftable; a pipe is at the address of the page
    kalloc gave for it, its fields kept in a map. Channels passed to wakeup are
    collected in [e_woken]. A call that has to wait for an inode, the log, a
    buffer or a pipe ends in [Sleeping]. *)

From S2P Require Import Prelude Params Bytes CString Spinlock Kalloc Pipe Store Fs.

Inductive fdtype : Set := FD_NONE | FD_PIPE | FD_INODE.
#[export] Instance fdtype_eq_dec : EqDecision fdtype.
Proof. solve_decision. Defined.

Record file : Type := mkFd {
  f_type : fdtype; f_ref : Z; f_readable : Z; f_writable : Z; f_pipe : Z; f_ip : nat; f_off : Z
}.
#[export] Instance file_inhabited : Inhabited file := populate (mkFd FD_NONE 0 0 0 0 0 0).
Definition set_fref (x : Z) (f : file) : file :=
  mkFd (f_type f) x (f_readable f) (f_writable f) (f_pipe f) (f_ip f) (f_off f).
Definition set_foff (x : Z) (f : file) : file :=
  mkFd (f_type f) (f_ref f) (f_readable f) (f_writable f) (f_pipe f) (f_ip f) x.

Record kenv (S : Type) : Type := mkEnv {
  e_fs : fsys S; e_ftable : list file; e_mem : kmem; e_pipes : gmap Z pipe; e_woken : list chan
}.
Arguments mkEnv {S} _ _ _ _ _.
Arguments e_fs {S} _.
Arguments e_ftable {S} _.
Arguments e_mem {S} _.
Arguments e_pipes {S} _.
Arguments e_woken {S} _.

(** An address that belongs to no object has no defined behaviour. *)
Definition kundef {S A} : kernel S A := kspin.

Section File.
Context {S : Type} {St : BlockStore S} {Tx : Transactions S}.
(** The end of the kernel image, the CPU, devsw, and proc->killed *)
Context (kernel_end : Z) (me : nat).
Context (devsw_read : Z -> option (nat -> Z -> kernel (fsys S) (Z * bytes)))
        (devsw_write : Z -> option (nat -> bytes -> Z -> kernel (fsys S) Z)).

Definition put_fs (x : fsys S) (e : kenv S) : kenv S := mkEnv x (e_ftable e) (e_mem e) (e_pipes e) (e_woken e).
Definition put_ftable (x : list file) (e : kenv S) : kenv S := mkEnv (e_fs e) x (e_mem e) (e_pipes e) (e_woken e).
Definition put_kmem (x : kmem) (e : kenv S) : kenv S := mkEnv (e_fs e) (e_ftable e) x (e_pipes e) (e_woken e).
Definition put_pipes (x : gmap Z pipe) (e : kenv S) : kenv S := mkEnv (e_fs e) (e_ftable e) (e_mem e) x (e_woken e).
Definition put_woken (x : list chan) (e : kenv S) : kenv S := mkEnv (e_fs e) (e_ftable e) (e_mem e) (e_pipes e) x.

Definition on_fs {A} : kernel (fsys S) A -> kernel (kenv S) A := klift e_fs put_fs.
Definition on_mem {A} : kernel kmem A -> kernel (kenv S) A := klift e_mem put_kmem.
Definition begin_op : kernel (kenv S) unit := on_fs (on_store st_begin).
Definition end_op : kernel (kenv S) unit := on_fs (on_store st_end).
Definition getf (f : nat) : kernel (kenv S) file := kgets (fun e => e_ftable e !!! f).
Definition modf (f : nat) (g : file -> file) : kernel (kenv S) unit :=
  kmodify (fun e => put_ftable (alter g f (e_ftable e)) e).

(** ** Pipes at their addresses *)
Definition waker_chan (p : Z) (w : waker) : chan := match w with WakeReaders => CPipeR p | WakeWriters => CPipeW p end.
Definition set_pipe (p : Z) (x : pipe) (w : list waker) : kernel (kenv S) unit :=
  kmodify (fun e => put_woken (e_woken e ++ (waker_chan p <$> w)) (put_pipes (<[p := x]> (e_pipes e)) e)).
Definition get_pipe (p : Z) : kernel (kenv S) pipe := fun e =>
  match e_pipes e !! p with Some x => Done e x | None => kundef e end.

Definition do_pipeclose (p : Z) (writable : Z) : kernel (kenv S) unit :=
  x ← get_pipe p;
  let '(x', w, free) := pipeclose (negb (writable =? 0)) x in
  set_pipe p x' w;;
  if (free : bool) then
    kmodify (fun e => put_pipes (delete p (e_pipes e)) e);; on_mem (kfree kernel_end me p)
  else mret tt.

Definition do_piperead (killed : bool) (p n : Z) : kernel (kenv S) (Z * bytes) :=
  x ← get_pipe p;
  let '(x', w, r) := piperead_turn killed n x in
  set_pipe p x' w;;
  match r with
  | RRet v got => mret (v, got)
  | RSleep => ksleep (CPipeR p)
  end.

Definition do_pipewrite (killed : bool) (p : Z) (addr : bytes) (n : Z) : kernel (kenv S) Z :=
  x ← get_pipe p;
  let '(x', w, r) := pipewrite_turn killed n addr x in
  set_pipe p x' w;;
  match r with
  | WRet v _ => mret v
  | WSleep _ => ksleep (CPipeW p)
  end.

(** ** file.c *)
Definition filealloc : kernel (kenv S) (option nat) := fun e =>
  match find_index (fun f => f_ref f =? 0) (e_ftable e) with
  | Some i => Done (put_ftable (alter (set_fref 1) i (e_ftable e)) e) (Some i)
  | None => Done e None
  end.

Definition filedup (f : nat) : kernel (kenv S) nat :=
  x ← getf f;
  if f_ref x <? 1 then kpanic "filedup"
  else modf f (fun x => set_fref (s32 (f_ref x + 1)) x);; mret f.

Definition fileclose (f : nat) : kernel (kenv S) unit :=
  x ← getf f;
  if f_ref x <? 1 then kpanic "fileclose"
  else
    modf f (fun x => set_fref (s32 (f_ref x - 1)) x);;
    ff ← getf f;
    if 0 <? f_ref ff then mret tt
    else
      modf f (fun x => mkFd FD_NONE 0 (f_readable x) (f_writable x) (f_pipe x) (f_ip x) (f_off x));;
      match f_type ff with
      | FD_PIPE => do_pipeclose (f_pipe ff) (f_writable ff)
      | FD_INODE => begin_op;; on_fs (iput (f_ip ff));; end_op
      | FD_NONE => mret tt
      end.

(** The result and what is stored at st *)
Definition filestat (f : nat) : kernel (kenv S) (Z * option stat) :=
  x ← getf f;
  match f_type x with
  | FD_INODE =>
      on_fs (ilock (Some (f_ip x)));;
      st ← on_fs (stati (f_ip x));
      on_fs (iunlock (Some (f_ip x)));;
      mret (0, Some st)
  | _ => mret (-1, None)
  end.

(** The result and the bytes stored at addr *)
Definition fileread (killed : bool) (f : nat) (n : Z) : kernel (kenv S) (Z * bytes) :=
  x ← getf f;
  if f_readable x =? 0 then mret (-1, [])
  else match f_type x with
  | FD_PIPE => do_piperead killed (f_pipe x) n
  | FD_INODE =>
      on_fs (ilock (Some (f_ip x)));;
      x ← getf f;
      r ← on_fs (readi devsw_read (f_ip x) (f_off x) (u32 n));
      (if 0 <? r.1 then modf f (fun x => set_foff (u32 (f_off x + r.1)) x) else mret tt);;
      on_fs (iunlock (Some (f_ip x)));;
      mret r
  | FD_NONE => kpanic "fileread"
  end.

Definition max_write : Z := ((LOGSIZE - 1 - 1 - 2) / 2) * 512.

(** The loop of filewrite: the value of i when it ends *)
Fixpoint filewrite_loop (k : nat) (f : nat) (addr : bytes) (n i : Z) : kernel (kenv S) Z :=
  if i <? n then
    match k with
    | O => kspin
    | Datatypes.S k' =>
        let n1 := if max_write <? n - i then max_write else n - i in
        begin_op;;
        x ← getf f;
        on_fs (ilock (Some (f_ip x)));;
        x ← getf f;
        r ← on_fs (writei devsw_write (f_ip x) (slice (Z.to_nat i) (Z.to_nat n1) addr) (f_off x) (u32 n1));
        (if 0 <? r then modf f (fun x => set_foff (u32 (f_off x + r)) x) else mret tt);;
        on_fs (iunlock (Some (f_ip x)));;
        end_op;;
        if r <? 0 then mret i
        else if negb (r =? n1) then kpanic "short filewrite"
        else filewrite_loop k' f addr n (i + r)
    end
  else mret i.

Definition filewrite (killed : bool) (f : nat) (addr : bytes) (n : Z) : kernel (kenv S) Z :=
  x ← getf f;
  if f_writable x =? 0 then mret (-1)
  else match f_type x with
  | FD_PIPE => do_pipewrite killed (f_pipe x) addr n
  | FD_INODE =>
      i ← filewrite_loop (Z.to_nat n) f addr n 0;
      mret (if i =? n then n else -1)
  | FD_NONE => kpanic "filewrite"
  end.

(** ** pipealloc: the data array is in the page after the 52 bytes of the lock *)
Definition page_data (m : mem) (p : Z) : bytes := (fun k => ld8 m (p + 52 + Z.of_nat k)) <$> seq 0 (Z.to_nat PIPESIZE).
Definition pipe_end (readable writable p : Z) (x : file) : file :=
  mkFd FD_PIPE (f_ref x) readable writable p (f_ip x) (f_off x).

Definition pipealloc : kernel (kenv S) (option (nat * nat)) :=
  r0 ← filealloc;
  match r0 with
  | None => mret None
  | Some f0 =>
      r1 ← filealloc;
      match r1 with
      | None => fileclose f0;; mret None
      | Some f1 =>
          p ← on_mem (kalloc me);
          if p =? 0 then fileclose f0;; fileclose f1;; mret None
          else
            m ← kgets (fun e => km_mem (e_mem e));
            set_pipe p (pipe_init (page_data m p)) [];;
            modf f0 (pipe_end 1 0 p);;
            modf f1 (pipe_end 0 1 p);;
            mret (Some (f0, f1))
      end
  end.
End File.
