(* ===== verification/KEnv.v ===== *)
(** * The kernel around the process table

    The page tables, the files and the file system implement the interface
    that proc.c calls ([ProcEnv]), so that the process code runs on the state
    of the whole kernel. Here too: how kernel code reads and writes the memory
    of the current process through its page table. *)

From S2P Require Import Prelude Params Bytes CString Spinlock Kalloc Vm Pipe Store Fs File Proc.

(** ** User memory: an access that does not translate faults, and trap()
    panics for a fault in the kernel. CR0_WP makes read-only pages fault. *)
Definition uaddr (write : bool) (pgdir va : Z) : kernel kmem Z := fun k =>
  match translate (km_mem k) pgdir va with
  | Some e => if write && negb (has e PTE_W) then Panic "trap" else Done k (p2v (PTE_ADDR e) + va mod PGSIZE)
  | None => Panic "trap"
  end.
Definition uload8 (pgdir va : Z) : kernel kmem Z := a ← uaddr false pgdir va; kgets (fun k => ld8 (km_mem k) a).
Definition ustore8 (pgdir va v : Z) : kernel kmem unit :=
  a ← uaddr true pgdir va; kmodify (fun k => put_mem (st8 (km_mem k) a v) k).
Fixpoint uloads (pgdir va : Z) (n : nat) : kernel kmem (list Z) :=
  match n with
  | O => mret []
  | S n' => b ← uload8 pgdir va; l ← uloads pgdir (u32 (va + 1)) n'; mret (b :: l)
  end.
Fixpoint ustores (pgdir va : Z) (l : list Z) : kernel kmem unit :=
  match l with
  | [] => mret tt
  | b :: l' => ustore8 pgdir va b;; ustores pgdir (u32 (va + 1)) l'
  end.
Definition uload32 (pgdir va : Z) : kernel kmem Z := l ← uloads pgdir va 4; mret (get32 l 0).

(** File and inode pointers in struct proc: never null *)
Definition ptr (i : nat) : Z := Z.of_nat i + 1.
Definition idx (p : Z) : nat := Z.to_nat (p - 1).

Section KEnv.
Context {S : Type} {St : BlockStore S} {Tx : Transactions S}.
(** Linker symbols (the end of the kernel, its data, the first user program),
    the CPU, the word at virtual address 0, the content of an uninitialised
    char name[DIRSIZ], devsw, and the interrupt handlers of the devices. *)
Context (kernel_end kdata init_start init_size : Z) (c : nat) (word0 : Z) (name0 : list Z).
Context (devsw_read : Z -> option (nat -> Z -> kernel (fsys S) (Z * bytes)))
        (devsw_write : Z -> option (nat -> bytes -> Z -> kernel (fsys S) Z)).
Context (intr : Z -> kernel (kenv S) (list chan)).

(** The channels woken since the last call *)
Definition take_woken : kernel (kenv S) (list chan) := fun e => Done (put_woken [] e) (e_woken e).

Definition kenv_env : ProcEnv (kenv S) := {|
  env_kalloc := on_mem (kalloc c);
  env_kfree p := on_mem (kfree kernel_end c p);
  env_setupkvm := on_mem (setupkvm kdata c);
  env_inituvm pgdir := on_mem (inituvm c pgdir init_start init_size);
  env_copyuvm pgdir sz := on_mem (copyuvm kernel_end kdata c pgdir sz);
  env_freevm pgdir := on_mem (freevm kernel_end c pgdir);
  env_allocuvm pgdir old new := on_mem (allocuvm kernel_end c pgdir old new);
  env_deallocuvm pgdir old new := on_mem (deallocuvm kernel_end c pgdir old new);
  env_store_int pgdir va v := on_mem (ustores pgdir va (le32 v));
  env_filedup f := filedup (idx f);; mret tt;
  env_fileclose f := fileclose kernel_end c (idx f);; take_woken;
  env_idup p := on_fs (idup (idx p));; mret tt;
  env_iput p := begin_op;; on_fs (iput (idx p));; end_op;; take_woken;
  env_namei_root :=
    r ← on_fs (namei devsw_read 0 [47] name0);
    mret (match r with Some i => ptr i | None => 0 end);
  env_fsinit := on_fs (iinit ROOTDEV);; on_fs (on_store (st_init ROOTDEV));
  env_intr := intr
|}.
End KEnv.
