(* ===== verification/KRun.v ===== *)
(** * wait and waitx on the kernel's own memory

    A process with a page of memory, and its zombie child with a kernel stack
    and memory of its own, in pages that the allocator gave out: a state of the
    whole kernel in which the process calls free pages and store through page
    tables as vm.c and kalloc.c do. *)

From S2P Require Import Prelude Params Bytes CString Spinlock Kalloc Vm Pipe Bio Store Log FsLog Fs File Proc ProcSpec ProcInv ProcStep ProcTotal KEnv.

(** The process table over page tables, files and file system *)
#[local] Instance demo_env : ProcEnv (kenv logst) :=
  kenv_env demo_end demo_end 0 0 0 (replicate DIRSIZ 0) (fun _ => None) (fun _ => mret []).

(** Eight free pages; a stack; two directories, with the user half only, each
    with one user page *)
Definition empty_dir : kernel kmem Z := p ← kalloc 0; set_page p 0;; mret p.
Definition set_up : kernel kmem (Z * Z * Z) :=
  kinit1 demo_end 0 demo_end (demo_end + 7 * PGSIZE);;
  kinit2 demo_end 0 (demo_end + 7 * PGSIZE) (demo_end + 8 * PGSIZE);;
  stack ← kalloc 0;
  pg1 ← empty_dir;
  pg2 ← empty_dir;
  _ ← allocuvm demo_end 0 pg1 0 PGSIZE;
  _ ← allocuvm demo_end 0 pg2 0 PGSIZE;
  mret (stack, pg1, pg2).

Definition final {S A} (s0 : S) (o : outcome S A) : S := match o with Done s _ => s | _ => s0 end.
Definition value {S A} (a0 : A) (o : outcome S A) : A := match o with Done _ a => a | _ => a0 end.
Definition returns {S} (o : outcome S unit) : bool := match o with Done _ _ => true | _ => false end.
Lemma returns_Done {S} (o : outcome S unit) : returns o = true -> exists s, o = Done s tt.
Proof. destruct o as [s []| | |]; try discriminate. by exists s. Qed.

(** The length of the free list *)
Fixpoint free_pages (n : nat) (m : mem) (p : Z) : nat :=
  match n with O => O | S n' => if p =? 0 then O else S (free_pages n' m (ld32 m p)) end.

Definition demo_mem : kmem := final (demo_kmem 0) (set_up (demo_kmem 0)).
Definition demo_pages : Z * Z * Z := value (0, 0, 0) (set_up (demo_kmem 0)).
Definition parent : proc := set_state RUNNING (set_pid 1 (set_pgdir demo_pages.1.2 (set_sz PGSIZE proc0))).
Definition zombie : proc :=
  set_state ZOMBIE (set_pid 2 (set_parent (Some 0%nat) (set_kstack demo_pages.1.1 (set_pgdir demo_pages.2 (set_sz PGSIZE
    (set_etime 9 (set_rtime 4 (set_ctime1 2 proc0)))))))).
Definition demo_kernel : kst (kenv logst) :=
  mkKst ([parent; zombie] ++ replicate (NPROC - 2) proc0) (Some 0%nat) 3 9 (fun _ => initlock "")
    [mkCpu 0 0 0 0 (Some 0%nat) 0 0 0] 0 false
    (mkEnv (mkFs (mkLs (Bio.boot []) log0) (mkSb 0 0 0 0 0 0 0) []) [] demo_mem ∅ []).

(** The parent's page is at address 0; the integers go to 100 and 104. *)
Lemma waitx_agrees_with_wait_witness : exists s1 s2 r,
  wait 0 demo_kernel = Done s1 r /\ waitx 0 100 104 demo_kernel = Done s2 r /\ no_context (k_procs s1) = no_context (k_procs s2).
Proof.
  apply (waitx_agrees_with_wait demo_kernel 0 0 100 104).
  - split; [apply Nat.lt_0_1|split; reflexivity].
  - reflexivity.
  - apply Nat.lt_0_succ.
  - intros i Hi. replace (first_zombie 0 (k_procs demo_kernel) (seq 0 NPROC)) with (Some 1%nat) in Hi by (vm_compute; reflexivity).
    injection Hi as <-. cbv zeta. split; apply returns_Done; vm_compute; reflexivity.
Defined.

(** Both return the child, and all of its pages are free again: the stack, the
    directory, the page table and the user page. *)
Example reaped_pages_freed :
  value None (wait 0 demo_kernel) = Some 2 /\ value None (waitx 0 100 104 demo_kernel) = Some 2 /\
  free_pages 8 (km_mem demo_mem) (km_freelist demo_mem) = 1%nat /\
  (let k := e_mem (k_env (final demo_kernel (waitx 0 100 104 demo_kernel))) in free_pages 8 (km_mem k) (km_freelist k) = 5%nat).
Proof. vm_compute. done. Qed.
