(* ===== verification/Syscall.v ===== *)
(** * System call arguments (syscall.c) and the process system calls (sysproc.c)

    The arguments lie on the user stack, read through the page table of the
    current process after a check against proc->sz. A system call returns
    [Some] value for %eax, or [None] when the process gave up the CPU: it
    sleeps, and its context returns later, or it is gone. *)

From S2P Require Import Prelude Params Bytes CString Spinlock Kalloc Vm Pipe Store Fs File Proc KEnv.

Section Syscall.
Context {S : Type} {Env : ProcEnv (kenv S)} (c : nat).
Abbreviation K := (kernel (kst (kenv S))).

Definition curproc : K proc := i ← myproc c; getp i.
Definition on_kmem {A} (m : kernel kmem A) : K A := lift_env (on_mem m).

(** int fetchint(uint addr, int *ip): the value, or None for -1 *)
Definition fetchint (addr : Z) : K (option Z) :=
  p ← curproc;
  if (p_sz p <=? addr) || (p_sz p <? u32 (addr + 4)) then mret None
  else v ← on_kmem (uload32 (p_pgdir p) addr); mret (Some (s32 v)).

(** The bytes from [s] to the first 0 before [ep] *)
Fixpoint fetchstr_loop (k : nat) (pgdir s ep : Z) : kernel kmem (option (list Z)) :=
  if s <? ep then
    match k with
    | O => kspin
    | Datatypes.S k' =>
        b ← uload8 pgdir s;
        if b =? 0 then mret (Some [])
        else
          r ← fetchstr_loop k' pgdir (s + 1) ep;
          mret (match r with Some l => Some (b :: l) | None => None end)
    end
  else mret None.

(** int fetchstr(uint addr, char **pp): the string at addr, whose length is the
    result, or None for -1 *)
Definition fetchstr (addr : Z) : K (option (list Z)) :=
  p ← curproc;
  if p_sz p <=? addr then mret None
  else on_kmem (fetchstr_loop (Z.to_nat (p_sz p - addr)) (p_pgdir p) addr (p_sz p)).

Definition argint (n : Z) : K (option Z) :=
  p ← curproc; fetchint (u32 (tf_esp (p_tf p) + 4 + 4 * n)).

Definition argptr (n size : Z) : K (option Z) :=
  r ← argint n;
  match r with
  | None => mret None
  | Some i =>
      p ← curproc;
      if (p_sz p <=? u32 i) || (p_sz p <? u32 (u32 i + size)) then mret None
      else mret (Some (u32 i))
  end.

Definition argstr (n : Z) : K (option (list Z)) :=
  r ← argint n;
  match r with
  | None => mret None
  | Some addr => fetchstr (u32 addr)
  end.

(** ** sysproc.c *)
Definition sys_fork : K (option Z) := r ← fork c; mret (Some r).
Definition sys_exit : K (option Z) := exit c;; mret None.
Definition sys_wait : K (option Z) := wait c.

Definition sys_waitx : K (option Z) :=
  w ← argptr 0 4;
  match w with
  | None => mret (Some 12)
  | Some wtime =>
      r ← argptr 1 4;
      match r with
      | None => mret (Some 13)
      | Some rtime => waitx c wtime rtime
      end
  end.

Definition sys_kill : K (option Z) :=
  r ← argint 0;
  match r with
  | None => mret (Some (-1))
  | Some pid => v ← kill c pid; mret (Some v)
  end.

Definition sys_getpid : K (option Z) := p ← curproc; mret (Some (p_pid p)).

Definition sys_sbrk : K (option Z) :=
  r ← argint 0;
  match r with
  | None => mret (Some (-1))
  | Some n =>
      p ← curproc;
      let addr := s32 (p_sz p) in
      v ← growproc c n;
      if v <? 0 then mret (Some (-1)) else mret (Some addr)
  end.

Definition sys_sleep : K (option Z) :=
  r ← argint 0;
  match r with
  | None => mret (Some (-1))
  | Some n =>
      acquire_l LTicks c;;
      ticks0 ← kgets k_ticks;
      sys_sleep_turn c n ticks0
  end.

Definition sys_uptime : K (option Z) :=
  acquire_l LTicks c;;
  xticks ← kgets k_ticks;
  release_l LTicks c;;
  mret (Some (s32 xticks)).

(** A negative size passes the check of argptr, whose sum wraps around: sys_read
    and sys_write take their size from the user. *)
Lemma argptr_negative_size n size s s' i p :
  argint n s = Done s' (Some i) -> curproc s' = Done s' p -> u32 i < p_sz p -> - u32 i <= size < 0 ->
  argptr n size s = Done s' (Some (u32 i)).
Proof using Type.
  intros Ei Ep Hlt Hs. unfold argptr. rewrite (bind_Done _ _ _ _ _ Ei). rewrite (bind_Done _ _ _ _ _ Ep).
  assert (0 <= u32 i < 2 ^ 32) as Hr by (apply Z.mod_pos_bound; lia). rewrite (u32_small (u32 i + size)) by lia.
  rewrite (proj2 (Z.leb_gt _ _)), (proj2 (Z.ltb_ge _ _)) by lia. done.
Qed.
End Syscall.
