(* ===== verification/Sysfile.v ===== *)
(** * The file system calls (sysfile.c)

    Argument checking and calls into the file and inode layers. The parts
    that work on inodes only (create, the bodies of link and unlink) run on
    the file system state; the system calls run on the whole kernel. *)

From S2P Require Import Prelude Params Bytes CString Spinlock Kalloc Vm Pipe Store Fs File Proc KEnv Syscall.

Section Sysfile.
Context {S : Type} {St : BlockStore S} {Tx : Transactions S}.
(** What an uninitialised char name[DIRSIZ] holds, and devsw *)
Context (name0 : list Z).
Context (devsw_read : Z -> option (nat -> Z -> kernel (fsys S) (Z * bytes)))
        (devsw_write : Z -> option (nat -> bytes -> Z -> kernel (fsys S) Z)).

(** ** On inodes *)
Abbreviation fs := (kernel (fsys S)).
Definition fs_begin_op : fs unit := on_store st_begin.
Definition fs_end_op : fs unit := on_store st_end.
Definition dot : list Z := [46; 0].
Definition dotdot : list Z := [46; 46; 0].

(** The bad: label of sys_link *)
Definition link_bad (ip : nat) : fs Z :=
  ilock (Some ip);;
  modi ip (fun i => set_inlink (s16 (i_nlink i - 1)) i);;
  iupdate ip;;
  iunlockput ip;;
  fs_end_op;;
  mret (-1).

(** sys_link after its arguments *)
Definition link (cwd : nat) (old new : list Z) : fs Z :=
  fs_begin_op;;
  r ← namei devsw_read cwd old name0;
  match r with
  | None => fs_end_op;; mret (-1)
  | Some ip =>
      ilock (Some ip);;
      i ← geti ip;
      if i_type i =? T_DIR then iunlockput ip;; fs_end_op;; mret (-1)
      else
        modi ip (fun i => set_inlink (s16 (i_nlink i + 1)) i);;
        iupdate ip;;
        iunlock (Some ip);;
        d ← nameiparent devsw_read cwd new name0;
        match d.1 with
        | None => link_bad ip
        | Some dp =>
            ilock (Some dp);;
            di ← geti dp;
            i ← geti ip;
            r ← (if negb (i_dev di =? i_dev i) then mret (-1)
                 else dirlink devsw_read devsw_write dp d.2 (i_inum i));
            if r <? 0 then iunlockput dp;; link_bad ip
            else iunlockput dp;; iput ip;; fs_end_op;; mret 0
        end
  end.

Fixpoint isdirempty_loop (k : nat) (dp : nat) (off : Z) : fs bool :=
  i ← geti dp;
  if off <? i_size i then
    match k with
    | O => kspin
    | Datatypes.S k' =>
        r ← readi devsw_read dp off DIRENT;
        if negb (r.1 =? DIRENT) then kpanic "isdirempty: readi"
        else if negb (de_inum r.2 =? 0) then mret false
        else isdirempty_loop k' dp (off + DIRENT)
    end
  else mret true.
Definition isdirempty (dp : nat) : fs bool :=
  i ← geti dp; isdirempty_loop (Z.to_nat (i_size i)) dp (2 * DIRENT).

(** The bad: label of sys_unlink *)
Definition unlink_bad (dp : nat) : fs Z := iunlockput dp;; fs_end_op;; mret (-1).

(** sys_unlink after its arguments *)
Definition unlink (cwd : nat) (path : list Z) : fs Z :=
  fs_begin_op;;
  d ← nameiparent devsw_read cwd path name0;
  match d.1 with
  | None => fs_end_op;; mret (-1)
  | Some dp =>
      ilock (Some dp);;
      c1 ← namecmp d.2 dot;
      c2 ← (if c1 =? 0 then mret 0 else namecmp d.2 dotdot);
      if (c1 =? 0) || (c2 =? 0) then unlink_bad dp
      else
        f ← dirlookup devsw_read dp d.2;
        match f with
        | None => unlink_bad dp
        | Some (ip, off) =>
            ilock (Some ip);;
            i ← geti ip;
            if i_nlink i <? 1 then kpanic "unlink: nlink < 1"
            else
              empty ← (if i_type i =? T_DIR then isdirempty ip else mret true);
              if negb empty then iunlockput ip;; unlink_bad dp
              else
                r ← writei devsw_write dp (replicate (Z.to_nat DIRENT) 0) off DIRENT;
                if negb (r =? DIRENT) then kpanic "unlink: writei"
                else
                  i ← geti ip;
                  (if i_type i =? T_DIR then
                     modi dp (fun i => set_inlink (s16 (i_nlink i - 1)) i);; iupdate dp
                   else mret tt);;
                  iunlockput dp;;
                  modi ip (fun i => set_inlink (s16 (i_nlink i - 1)) i);;
                  iupdate ip;;
                  iunlockput ip;;
                  fs_end_op;;
                  mret 0
        end
  end.

(** The inode is returned locked. *)
Definition create (cwd : nat) (path : list Z) (type major minor : Z) : fs (option nat) :=
  d ← nameiparent devsw_read cwd path name0;
  match d.1 with
  | None => mret None
  | Some dp =>
      ilock (Some dp);;
      f ← dirlookup devsw_read dp d.2;
      match f with
      | Some (ip, _) =>
          iunlockput dp;;
          ilock (Some ip);;
          i ← geti ip;
          if (type =? T_FILE) && (i_type i =? T_FILE) then mret (Some ip)
          else iunlockput ip;; mret None
      | None =>
          di ← geti dp;
          ip ← ialloc (i_dev di) type;
          ilock (Some ip);;
          modi ip (set_imajor major);;
          modi ip (set_iminor minor);;
          modi ip (set_inlink 1);;
          iupdate ip;;
          (if type =? T_DIR then
             modi dp (fun i => set_inlink (s16 (i_nlink i + 1)) i);;
             iupdate dp;;
             i ← geti ip;
             r ← dirlink devsw_read devsw_write ip dot (i_inum i);
             if r <? 0 then kpanic "create dots"
             else
               di ← geti dp;
               r ← dirlink devsw_read devsw_write ip dotdot (i_inum di);
               if r <? 0 then kpanic "create dots" else mret tt
           else mret tt);;
          i ← geti ip;
          r ← dirlink devsw_read devsw_write dp d.2 (i_inum i);
          if r <? 0 then kpanic "create: dirlink"
          else iunlockput dp;; mret (Some ip)
      end
  end.

(** ** The system calls *)
Context (kernel_end : Z) {Env : ProcEnv (kenv S)} (c : nat).
Abbreviation K := (kernel (kst (kenv S))).

(** Code of the other components, followed by the wakeups it did *)
Definition call {A} (m : kernel (kenv S) A) : K A :=
  a ← lift_env m; chs ← lift_env take_woken; wakeups c chs;; mret a.
Definition call_fs {A} (m : fs A) : K A := call (on_fs m).

(** fd and the index of its struct file *)
Definition argfd (n : Z) : K (option (nat * nat)) :=
  r ← argint c n;
  match r with
  | None => mret None
  | Some fd =>
      p ← curproc c;
      if (fd <? 0) || (Z.of_nat NOFILE <=? fd) then mret None
      else
        let f := p_ofile p !!! Z.to_nat fd in
        if f =? 0 then mret None else mret (Some (Z.to_nat fd, idx f))
  end.

Definition set_fd (fd : nat) (f : Z) : K unit :=
  me ← myproc c; modp me (fun p => set_ofile (<[fd := f]> (p_ofile p)) p).

Definition fdalloc (f : nat) : K Z :=
  p ← curproc c;
  match find_index (Z.eqb 0) (take NOFILE (p_ofile p)) with
  | Some fd => set_fd fd (ptr f);; mret (Z.of_nat fd)
  | None => mret (-1)
  end.

Definition sys_dup : K (option Z) :=
  r ← argfd 0;
  match r with
  | None => mret (Some (-1))
  | Some (_, f) =>
      fd ← fdalloc f;
      if fd <? 0 then mret (Some (-1))
      else _ ← call (filedup f); mret (Some fd)
  end.

Definition cur_killed : K bool := p ← curproc c; mret (negb (p_killed p =? 0)).

Definition sys_read : K (option Z) :=
  r ← argfd 0;
  match r with
  | None => mret (Some (-1))
  | Some (_, f) =>
      n ← argint c 2;
      match n with
      | None => mret (Some (-1))
      | Some n =>
          a ← argptr c 1 n;
          match a with
          | None => mret (Some (-1))
          | Some addr =>
              k ← cur_killed;
              v ← call (fileread devsw_read k f n);
              p ← curproc c;
              on_kmem (ustores (p_pgdir p) addr v.2);;
              mret (Some v.1)
          end
      end
  end.

(** The n bytes at p are read before they are written to the file. *)
Definition sys_write : K (option Z) :=
  r ← argfd 0;
  match r with
  | None => mret (Some (-1))
  | Some (_, f) =>
      n ← argint c 2;
      match n with
      | None => mret (Some (-1))
      | Some n =>
          a ← argptr c 1 n;
          match a with
          | None => mret (Some (-1))
          | Some addr =>
              p ← curproc c;
              data ← on_kmem (uloads (p_pgdir p) addr (Z.to_nat n));
              k ← cur_killed;
              v ← call (filewrite devsw_write k f data n);
              mret (Some v)
          end
      end
  end.

Definition sys_close : K (option Z) :=
  r ← argfd 0;
  match r with
  | None => mret (Some (-1))
  | Some (fd, f) => set_fd fd 0;; call (fileclose kernel_end c f);; mret (Some 0)
  end.

(** struct stat: short type; int dev; uint ino; short nlink; uint size; with
    the padding the compiler puts before dev and size, which keeps its old
    content. *)
Definition store_stat (pgdir st : Z) (x : stat) : K unit :=
  on_kmem (
    ustores pgdir st (le16 (st_type x));;
    ustores pgdir (u32 (st + 4)) (le32 (st_dev x));;
    ustores pgdir (u32 (st + 8)) (le32 (st_ino x));;
    ustores pgdir (u32 (st + 12)) (le16 (st_nlink x));;
    ustores pgdir (u32 (st + 16)) (le32 (st_size x))).

Definition sys_fstat : K (option Z) :=
  r ← argfd 0;
  match r with
  | None => mret (Some (-1))
  | Some (_, f) =>
      a ← argptr c 1 20;
      match a with
      | None => mret (Some (-1))
      | Some st =>
          v ← call (filestat f);
          p ← curproc c;
          (match v.2 with Some x => store_stat (p_pgdir p) st x | None => mret tt end);;
          mret (Some v.1)
      end
  end.

Definition cur_cwd : K nat := p ← curproc c; mret (idx (p_cwd p)).

Definition sys_link : K (option Z) :=
  old ← argstr c 0;
  match old with
  | None => mret (Some (-1))
  | Some old =>
      new ← argstr c 1;
      match new with
      | None => mret (Some (-1))
      | Some new => cwd ← cur_cwd; v ← call_fs (link cwd old new); mret (Some v)
      end
  end.

Definition sys_unlink : K (option Z) :=
  path ← argstr c 0;
  match path with
  | None => mret (Some (-1))
  | Some path => cwd ← cur_cwd; v ← call_fs (unlink cwd path); mret (Some v)
  end.

(** iunlockput(ip); end_op(); return -1; *)
Definition put_and_fail (ip : nat) : K (option Z) :=
  call_fs (iunlockput ip);; call_fs fs_end_op;; mret (Some (-1)).

(** f->type = FD_INODE; ... *)
Definition open_file (ip : nat) (omode : Z) (x : file) : file :=
  mkFd FD_INODE (f_ref x) (if has omode O_WRONLY then 0 else 1)
    (if has omode O_WRONLY || has omode O_RDWR then 1 else 0) (f_pipe x) ip 0.

Definition sys_open : K (option Z) :=
  path ← argstr c 0;
  match path with
  | None => mret (Some (-1))
  | Some path =>
      omode ← argint c 1;
      match omode with
      | None => mret (Some (-1))
      | Some omode =>
          call_fs fs_begin_op;;
          cwd ← cur_cwd;
          r ← (if has omode O_CREATE then call_fs (create cwd path T_FILE 0 0)
               else
                 r ← call_fs (namei devsw_read cwd path name0);
                 match r with
                 | None => mret None
                 | Some ip => call_fs (ilock (Some ip));; mret (Some ip)
                 end);
          match r with
          | None => call_fs fs_end_op;; mret (Some (-1))
          | Some ip =>
              i ← lift_env (on_fs (geti ip));
              if negb (has omode O_CREATE) && (i_type i =? T_DIR) && negb (omode =? O_RDONLY) then put_and_fail ip
              else
                f ← call filealloc;
                match f with
                | None => put_and_fail ip
                | Some f =>
                    fd ← fdalloc f;
                    if fd <? 0 then call (fileclose kernel_end c f);; put_and_fail ip
                    else
                      call_fs (iunlock (Some ip));;
                      call_fs fs_end_op;;
                      lift_env (modf f (open_file ip omode));;
                      mret (Some fd)
                end
          end
      end
  end.

(** end_op(); return -1; *)
Definition end_and_fail : K (option Z) := call_fs fs_end_op;; mret (Some (-1)).
(** The tails of sys_mkdir and sys_mknod *)
Definition finish_create (r : option nat) : K (option Z) :=
  match r with
  | None => end_and_fail
  | Some ip => call_fs (iunlockput ip);; call_fs fs_end_op;; mret (Some 0)
  end.

Definition sys_mkdir : K (option Z) :=
  call_fs fs_begin_op;;
  path ← argstr c 0;
  match path with
  | None => end_and_fail
  | Some path => cwd ← cur_cwd; r ← call_fs (create cwd path T_DIR 0 0); finish_create r
  end.

Definition sys_mknod : K (option Z) :=
  call_fs fs_begin_op;;
  path ← argstr c 0;
  match path with
  | None => end_and_fail
  | Some path =>
      major ← argint c 1;
      match major with
      | None => end_and_fail
      | Some major =>
          minor ← argint c 2;
          match minor with
          | None => end_and_fail
          | Some minor =>
              cwd ← cur_cwd;
              r ← call_fs (create cwd path T_DEV (s16 major) (s16 minor));
              finish_create r
          end
      end
  end.

Definition sys_chdir : K (option Z) :=
  call_fs fs_begin_op;;
  path ← argstr c 0;
  match path with
  | None => end_and_fail
  | Some path =>
      cwd ← cur_cwd;
      r ← call_fs (namei devsw_read cwd path name0);
      match r with
      | None => end_and_fail
      | Some ip =>
          call_fs (ilock (Some ip));;
          i ← lift_env (on_fs (geti ip));
          if negb (i_type i =? T_DIR) then put_and_fail ip
          else
            call_fs (iunlock (Some ip));;
            call_fs (iput cwd);;
            call_fs fs_end_op;;
            me ← myproc c;
            modp me (set_cwd (ptr ip));;
            mret (Some 0)
      end
  end.

Definition sys_pipe : K (option Z) :=
  a ← argptr c 0 8;
  match a with
  | None => mret (Some (-1))
  | Some fd =>
      r ← call (pipealloc kernel_end c);
      match r with
      | None => mret (Some (-1))
      | Some (rf, wf) =>
          fd0 ← fdalloc rf;
          fd1 ← (if fd0 <? 0 then mret (-1) else fdalloc wf);
          if (fd0 <? 0) || (fd1 <? 0) then
            (if 0 <=? fd0 then set_fd (Z.to_nat fd0) 0 else mret tt);;
            call (fileclose kernel_end c rf);;
            call (fileclose kernel_end c wf);;
            mret (Some (-1))
          else
            p ← curproc c;
            on_kmem (ustores (p_pgdir p) fd (le32 fd0));;
            on_kmem (ustores (p_pgdir p) (u32 (fd + 4)) (le32 fd1));;
            mret (Some 0)
      end
  end.
End Sysfile.
