(* ===== verification/Exec.v ===== *)
(** * exec (exec.c)

    The new address space is built beside the old one, and the process is
    changed only after everything that can fail has succeeded. *)

From S2P Require Import Prelude Params Bytes CString Spinlock Kalloc Vm Pipe Store Fs File Proc KEnv Syscall.

(** elf.h *)
Definition ELF_MAGIC : Z := 0x464C457F.
Definition ELF_PROG_LOAD : Z := 1.
Definition ELFHDR : Z := 52.
Definition PROGHDR : Z := 32.
Record elfhdr : Type := mkElf { elf_magic : Z; elf_entry : Z; elf_phoff : Z; elf_phnum : Z }.
Definition decode_elf (d : bytes) : elfhdr := mkElf (get32 d 0) (get32 d 24) (get32 d 28) (get16 d 44).
Record proghdr : Type := mkPh { ph_type : Z; ph_off : Z; ph_vaddr : Z; ph_filesz : Z; ph_memsz : Z }.
Definition decode_ph (d : bytes) : proghdr := mkPh (get32 d 0) (get32 d 4) (get32 d 8) (get32 d 16) (get32 d 20).

Section Exec.
Context {S : Type} {St : BlockStore S} {Tx : Transactions S}.
Context (kernel_end kdata : Z) (c : nat) (word0 : Z) (name0 : list Z).
Context (devsw_read : Z -> option (nat -> Z -> kernel (fsys S) (Z * bytes))).
(** The content of the local struct elfhdr and struct proghdr before readi *)
Context (elf0 ph0 : bytes).
Abbreviation E := (kernel (kenv S)).

Definition iunlockput_end (ip : nat) : E unit := on_fs (iunlockput ip);; end_op.

(** The bad: label, while ip is held and after it was put *)
Definition exec_bad_ip (pgdir : Z) (ip : nat) : E unit :=
  (if pgdir =? 0 then mret tt else on_mem (freevm kernel_end c pgdir));; iunlockput_end ip.
Definition exec_bad (pgdir : Z) : E unit := if pgdir =? 0 then mret tt else on_mem (freevm kernel_end c pgdir).

(** readi into a local variable whose bytes were [old] *)
Definition readi_local (ip : nat) (old : bytes) (off n : Z) : E (Z * bytes) :=
  r ← on_fs (readi devsw_read ip off n); mret (r.1, splice 0 r.2 old).
(** readi to a kernel address *)
Definition readi_to (ip : nat) (dst off n : Z) : E Z :=
  r ← on_fs (readi devsw_read ip off n); on_mem (store_bytes dst r.2);; mret r.1.

(** The loop over program headers: the size, or None for goto bad *)
Fixpoint load_segments (k : nat) (ip : nat) (pgdir off sz : Z) (old : bytes) : E (option Z) :=
  match k with
  | O => mret (Some sz)
  | Datatypes.S k' =>
      r ← readi_local ip old (u32 off) PROGHDR;
      if negb (u32 r.1 =? PROGHDR) then mret None
      else
        let ph := decode_ph r.2 in
        if negb (ph_type ph =? ELF_PROG_LOAD) then load_segments k' ip pgdir (s32 (off + PROGHDR)) sz r.2
        else if ph_memsz ph <? ph_filesz ph then mret None
        else
          sz' ← on_mem (allocuvm kernel_end c pgdir sz (u32 (ph_vaddr ph + ph_memsz ph)));
          if sz' =? 0 then mret None
          else
            l ← loaduvm c (fun A => on_mem) (readi_to ip) pgdir (ph_vaddr ph) (ph_off ph) (ph_filesz ph);
            if l <? 0 then mret None
            else load_segments k' ip pgdir (s32 (off + PROGHDR)) sz' r.2
  end.

(** The loop over argv: the stack pointer and ustack[3..], or None *)
Fixpoint push_args (pgdir : Z) (argv : list (list Z)) (argc : nat) (sp : Z) (ustack : list Z) : E (option (Z * list Z)) :=
  match argv with
  | [] => mret (Some (sp, ustack))
  | s :: argv' =>
      if (MAXARG <=? argc)%nat then mret None
      else
        let sp := Z.land (u32 (sp - (Z.of_nat (length s) + 1))) (Z.lnot 3) in
        r ← on_mem (copyout c word0 pgdir sp (s ++ [0]));
        if r <? 0 then mret None
        else push_args pgdir argv' (Datatypes.S argc) sp (ustack ++ [sp])
  end.

(** exec up to the point where nothing can fail any more: the page directory,
    its size, the entry point and the stack pointer, or None for -1 *)
Definition exec_build (cwd : nat) (path : list Z) (argv : list (list Z)) : E (option (Z * Z * Z * Z)) :=
  begin_op;;
  r ← on_fs (namei devsw_read cwd path name0);
  match r with
  | None => end_op;; mret None
  | Some ip =>
      on_fs (ilock (Some ip));;
      h ← readi_local ip elf0 0 ELFHDR;
      let elf := decode_elf h.2 in
      if (u32 h.1 <? ELFHDR) || negb (elf_magic elf =? ELF_MAGIC) then exec_bad_ip 0 ip;; mret None
      else
        pgdir ← on_mem (setupkvm kdata c);
        if pgdir =? 0 then exec_bad_ip 0 ip;; mret None
        else
          l ← load_segments (Z.to_nat (elf_phnum elf)) ip pgdir (s32 (elf_phoff elf)) 0 ph0;
          match l with
          | None => exec_bad_ip pgdir ip;; mret None
          | Some sz =>
              iunlockput_end ip;;
              let sz := PGROUNDUP sz in
              sz ← on_mem (allocuvm kernel_end c pgdir sz (u32 (sz + 2 * PGSIZE)));
              if sz =? 0 then exec_bad pgdir;; mret None
              else
                on_mem (clearpteu c pgdir (u32 (sz - 2 * PGSIZE)));;
                a ← push_args pgdir argv 0 sz [];
                match a with
                | None => exec_bad pgdir;; mret None
                | Some (sp, args) =>
                    let argc := Z.of_nat (length args) in
                    let ustack := [0xffffffff; argc; u32 (sp - (argc + 1) * 4)] ++ args ++ [0] in
                    let sp := u32 (sp - (3 + argc + 1) * 4) in
                    r ← on_mem (copyout c word0 pgdir sp (concat (le32 <$> ustack)));
                    if r <? 0 then exec_bad pgdir;; mret None
                    else mret (Some (pgdir, sz, elf_entry elf, sp))
                end
          end
  end.

(** The bytes after the last slash *)
Fixpoint last_elem (path last : list Z) : list Z :=
  match path with
  | [] => last
  | b :: path' => last_elem path' (if b =? 47 then path' else last)
  end.

Definition set_tf_image (eip esp : Z) (x : trapframe) : trapframe :=
  mkTf (tf_edi x) (tf_esi x) (tf_ebp x) (tf_oesp x) (tf_ebx x) (tf_edx x) (tf_ecx x) (tf_eax x)
    (tf_gs x) (tf_fs x) (tf_es x) (tf_ds x) (tf_trapno x) (tf_err x) eip (tf_cs x)
    (tf_eflags x) esp (tf_ss x).

Context {Env : ProcEnv (kenv S)}.

Definition exec (path : list Z) (argv : list (list Z)) : kernel (kst (kenv S)) Z :=
  p ← curproc c;
  r ← lift_env (exec_build (idx (p_cwd p)) path argv);
  match r with
  | None => mret (-1)
  | Some (pgdir, sz, entry, sp) =>
      me ← myproc c;
      modp me (copy_name (last_elem path path ++ [0]));;
      p ← getp me;
      modp me (set_pgdir pgdir);;
      modp me (set_sz sz);;
      modp me (fun p => set_tf (set_tf_image entry sp (p_tf p)) p);;
      switchuvm c me;;
      lift_env (on_mem (freevm kernel_end c (p_pgdir p)));;
      mret 0
  end.
End Exec.
