(* ===== verification/Bootmain.v ===== *)
(** * The boot loader (bootmain.c)

    It runs before paging, on physical addresses.  The disk is an ATA drive:
    six registers select a sector, and command 0x20 makes the data port return
    its 512 bytes. *)

From S2P Require Import Prelude Params CString Vm Copyout Exec.

Definition SECTSIZE : Z := 512.
(** Memory, the bytes last written to the ports, and how often the status port was read *)
Record boot : Type := mkBoot { b_mem : mem; b_port : gmap Z Z; b_polls : nat }.
Definition set_bmem (m : mem) (s : boot) : boot := mkBoot m (b_port s) (b_polls s).

Section Boot.
(** The sectors of the disk, and what its status port returns *)
Context (disk : Z -> list Z) (status : nat -> Z) (patience : nat).

Definition outb (port v : Z) : kernel boot unit :=
  kmodify (fun s => mkBoot (b_mem s) (<[port := u8 v]> (b_port s)) (b_polls s)).
Definition in_status : kernel boot Z :=
  fun s => Done (mkBoot (b_mem s) (b_port s) (S (b_polls s))) (status (b_polls s)).
Definition port (p : Z) (s : boot) : Z := default 0 (b_port s !! p).
(** The sector that the registers name: 28 bits *)
Definition lba (s : boot) : Z :=
  port 0x1F3 s + 256 * port 0x1F4 s + 65536 * port 0x1F5 s + 2 ^ 24 * (port 0x1F6 s mod 16).
(** insl(0x1F0, dst, SECTSIZE/4) *)
Definition insl (dst : Z) : kernel boot unit := kmodify (fun s => set_bmem (st_bytes (b_mem s) dst (disk (lba s))) s).

Fixpoint waitdisk_loop (k : nat) : kernel boot unit :=
  match k with
  | O => kspin
  | S k' => r ← in_status; if negb (Z.land r 0xC0 =? 0x40) then waitdisk_loop k' else mret tt
  end.
Definition waitdisk : kernel boot unit := waitdisk_loop patience.

Definition readsect (dst offset : Z) : kernel boot unit :=
  waitdisk;;
  outb 0x1F2 1;;
  outb 0x1F3 offset;;
  outb 0x1F4 (Z.shiftr offset 8);;
  outb 0x1F5 (Z.shiftr offset 16);;
  outb 0x1F6 (Z.lor (Z.shiftr offset 24) 0xE0);;
  outb 0x1F7 0x20;;
  waitdisk;;
  insl dst.

(** for(; pa < epa; pa += SECTSIZE, offset++) *)
Fixpoint readseg_loop (k : nat) (pa epa offset : Z) : kernel boot unit :=
  if pa <? epa then
    match k with
    | O => kspin
    | S k' => readsect pa offset;; readseg_loop k' (u32 (pa + SECTSIZE)) epa (u32 (offset + 1))
    end
  else mret tt.
Definition readseg (pa count offset : Z) : kernel boot unit :=
  let epa := u32 (pa + count) in
  let pa := u32 (pa - offset mod SECTSIZE) in
  readseg_loop (Z.to_nat ((epa - pa) / SECTSIZE + 1)) pa epa (u32 (offset / SECTSIZE + 1)).

Definition rd32 (a : Z) : kernel boot Z := kgets (fun s => ld32 (b_mem s) a).
(** for(; ph < eph; ph++), [n] headers *)
Fixpoint load_kernel (n : nat) (ph : Z) : kernel boot unit :=
  match n with
  | O => mret tt
  | S n' =>
      pa ← rd32 (ph + 12);
      filesz ← rd32 (ph + 16);
      off ← rd32 (ph + 4);
      readseg pa filesz off;;
      memsz ← rd32 (ph + 20);
      filesz ← rd32 (ph + 16);
      (if filesz <? memsz then
         kmodify (fun s => set_bmem (stosb (b_mem s) (u32 (pa + filesz)) 0 (Z.to_nat (memsz - filesz))) s)
       else mret tt);;
      load_kernel n' (ph + 32)
  end.
(** The entry point that is called, or [None] when bootmain returns *)
Definition bootmain : kernel boot (option Z) :=
  let elf := 0x10000 in
  readseg elf 4096 0;;
  magic ← rd32 elf;
  if negb (magic =? ELF_MAGIC) then mret None
  else
    phoff ← rd32 (elf + 28);
    phnum ← kgets (fun s => ld8 (b_mem s) (elf + 44) + 256 * ld8 (b_mem s) (elf + 45));
    load_kernel (Z.to_nat phnum) (elf + phoff);;
    entry ← rd32 (elf + 24);
    mret (Some entry).

(** ** The drive *)
Hypothesis disk_sectors : forall n, length (disk n) = 512%nat /\ Forall (fun b => 0 <= b < 256) (disk n).
(** Of any [patience] polls one finds the drive ready. *)
Hypothesis disk_ready : forall t, exists i, (i < patience)%nat /\ Z.land (status (t + i)) 0xC0 = 0x40.

(** The kernel image starts in sector 1. *)
Definition image (j : Z) : Z := nth (Z.to_nat (j mod SECTSIZE)) (disk (j / SECTSIZE + 1)) 0.
Definition later (s s' : boot) : Prop := b_mem s' = b_mem s /\ b_port s' = b_port s.

Lemma waitdisk_loop_spec k : forall s i, (i < k)%nat -> Z.land (status (b_polls s + i)) 0xC0 = 0x40 ->
  exists s', waitdisk_loop k s = Done s' tt /\ later s s'.
Proof using Type.
  induction k as [|k IH]; intros s i Hi Hr; [lia|]. cbn [waitdisk_loop].
  rewrite (bind_Done in_status _ s (mkBoot (b_mem s) (b_port s) (S (b_polls s))) (status (b_polls s)) eq_refl).
  destruct (Z.eqb_spec (Z.land (status (b_polls s)) 0xC0) 0x40) as [E|E]; cbn [negb]; [eexists; by split; [reflexivity|]|].
  destruct i as [|i]; [rewrite Nat.add_0_r in Hr; done|].
  destruct (IH (mkBoot (b_mem s) (b_port s) (S (b_polls s))) i ltac:(lia)) as (s' & Hs' & Hl); [|by exists s'].
  cbn. by rewrite Nat.add_succ_r in Hr.
Qed.
Lemma waitdisk_spec s : exists s', waitdisk s = Done s' tt /\ later s s'.
Proof using disk_ready. destruct (disk_ready (b_polls s)) as (i & Hi & Hr). by eapply waitdisk_loop_spec. Qed.

Lemma outb_then {A} p v (k : kernel boot A) s :
  (outb p v;; k) s = k (mkBoot (b_mem s) (<[p := u8 v]> (b_port s)) (b_polls s)).
Proof using Type. done. Qed.
Lemma lba_bytes n : 0 <= n < 2 ^ 28 ->
  u8 n + 256 * u8 (Z.shiftr n 8) + 65536 * u8 (Z.shiftr n 16) + 2 ^ 24 * (u8 (Z.lor (Z.shiftr n 24) 0xE0) mod 16) = n.
Proof using Type.
  intros Hn. rewrite !Z.shiftr_div_pow2 by lia. assert (Hx : 0 <= n / 2 ^ 24 < 16).
  { split; [apply Z.div_pos; lia|]. apply Z.div_lt_upper_bound; lia. }
  assert (E : u8 (Z.lor (n / 2 ^ 24) 0xE0) mod 16 = n / 2 ^ 24).
  { generalize dependent (n / 2 ^ 24). intros x Hx.
    assert (x = 0 \/ x = 1 \/ x = 2 \/ x = 3 \/ x = 4 \/ x = 5 \/ x = 6 \/ x = 7 \/ x = 8 \/ x = 9 \/ x = 10 \/ x = 11 \/
      x = 12 \/ x = 13 \/ x = 14 \/ x = 15) as Hc by lia.
    repeat (destruct Hc as [->|Hc]; [reflexivity|]). subst. reflexivity. }
  rewrite E. unfold u8. change (2 ^ 8) with 256. change (2 ^ 16) with 65536. change (2 ^ 24) with 16777216.
  Z.div_mod_to_equations. lia.
Qed.
Lemma readsect_spec dst offset s : 0 <= offset < 2 ^ 28 ->
  exists s', readsect dst offset s = Done s' tt /\ b_mem s' = st_bytes (b_mem s) dst (disk offset).
Proof using disk_ready.
  intros Ho. unfold readsect. destruct (waitdisk_spec s) as (s1 & E1 & Hm1 & _). rewrite (bind_Done _ _ _ _ _ E1).
  rewrite !outb_then. cbn [b_mem b_port b_polls].
  set (s2 := mkBoot _ _ _). destruct (waitdisk_spec s2) as (s3 & E3 & Hm3 & Hp3). rewrite (bind_Done _ _ _ _ _ E3).
  eexists. split; [reflexivity|]. cbn [b_mem set_bmem]. rewrite Hm3. cbn [b_mem s2]. rewrite Hm1. do 2 f_equal.
  unfold lba, port. rewrite Hp3. cbn [b_port s2].
  rewrite !lookup_insert. cbn. by apply lba_bytes.
Qed.

(** ** Segments *)
Definition inside (a lo hi : Z) : bool := (lo <=? a) && (a <? hi).
Definition sectors (pa epa : Z) : Z := (epa - pa + 511) / SECTSIZE.
Lemma image_sector off a pa : pa <= a < pa + 512 -> image (512 * (off - 1) + (a - pa)) = nth (Z.to_nat (a - pa)) (disk off) 0.
Proof using Type.
  intros Ha. unfold image, SECTSIZE. replace (512 * (off - 1) + (a - pa)) with ((a - pa) + (off - 1) * 512) by lia.
  rewrite Z.div_add, Z.mod_add, Z.div_small, Z.mod_small by lia. do 2 f_equal. lia.
Qed.
Lemma readseg_loop_spec k : forall pa epa off s, 0 <= pa -> epa <= 2 ^ 32 - 512 -> pa < epa + 512 -> epa - pa <= 512 * Z.of_nat k ->
  0 <= off -> off + Z.of_nat k <= 2 ^ 28 ->
  exists s', readseg_loop k pa epa off s = Done s' tt /\
    forall a, ld8 (b_mem s') a = if inside a pa (pa + 512 * sectors pa epa) then image (512 * (off - 1) + (a - pa)) else ld8 (b_mem s) a.
Proof using disk_sectors disk_ready.
  induction k as [|k IH]; intros pa epa off s Hpa He Hlt Hk Ho Hok; cbn [readseg_loop]; destruct (Z.ltb_spec pa epa) as [H|H]; try lia.
  1, 3: exists s; split; [done|]; intros a; unfold inside, sectors, SECTSIZE;
    replace ((epa - pa + 511) / 512) with 0 by (symmetry; apply Z.div_small; lia); case_match; [breflect; lia|done].
  destruct (readsect_spec pa off s ltac:(lia)) as (s1 & E1 & Hm1). rewrite (bind_Done _ _ _ _ _ E1).
  rewrite !u32_small by (unfold SECTSIZE; lia). unfold SECTSIZE.
  destruct (IH (pa + 512) epa (off + 1) s1 ltac:(lia) He ltac:(lia) ltac:(lia) ltac:(lia) ltac:(lia)) as (s' & E & Hm).
  exists s'. split; [exact E|]. intros a. rewrite Hm, Hm1, ld8_st_bytes. destruct (disk_sectors off) as [Hlen Hb]. rewrite Hlen.
  assert (En : sectors pa epa = sectors (pa + 512) epa + 1).
  { unfold sectors, SECTSIZE. rewrite <- Z.div_add by lia. f_equal. lia. }
  assert (0 <= sectors (pa + 512) epa) by (unfold sectors, SECTSIZE; apply Z.div_pos; lia).
  unfold inside. rewrite En. replace (512 * (off + 1 - 1) + (a - (pa + 512))) with (512 * (off - 1) + (a - pa)) by lia.
  destruct (Z.leb_spec (pa + 512) a), (Z.ltb_spec a (pa + 512 + 512 * sectors (pa + 512) epa)), (Z.leb_spec pa a),
    (Z.ltb_spec a (pa + 512 * (sectors (pa + 512) epa + 1))), (Z.ltb_spec a (pa + Z.of_nat 512)); cbn [andb]; try lia; try done.
  rewrite image_sector by lia. apply Z.mod_small.
  rewrite Forall_forall in Hb. apply Hb, list_elem_of_In, nth_In. lia.
Qed.
(** readseg fills whole sectors: from the sector boundary at or before [off]
    to the one at or after [off + count]. *)
Lemma readseg_spec pa count off s : off mod 512 <= pa -> 0 <= count -> pa + count <= 2 ^ 32 - 512 -> 0 <= off -> off + count < 2 ^ 36 ->
  exists s', readseg pa count off s = Done s' tt /\
    forall a, ld8 (b_mem s') a =
      if inside a (pa - off mod 512) (pa - off mod 512 + 512 * sectors (pa - off mod 512) (pa + count)) then image (off + (a - pa))
      else ld8 (b_mem s) a.
Proof using disk_sectors disk_ready.
  intros Hpa Hc He Ho Hoff. unfold readseg, SECTSIZE. pose proof (Z.mod_pos_bound off 512 ltac:(lia)) as Hm.
  assert (Hd : 0 <= off / 512 /\ off / 512 + (count + 1023) / 512 + 1 <= 2 ^ 28) by (Z.div_mod_to_equations; lia).
  rewrite !u32_small by (lia || (Z.div_mod_to_equations; lia)).
  destruct (readseg_loop_spec (Z.to_nat ((pa + count - (pa - off mod 512)) / 512 + 1)) (pa - off mod 512) (pa + count) (off / 512 + 1) s)
    as (s' & E & Hmem); [lia|lia|lia| |lia| |].
  - rewrite Z2Nat.id by (Z.div_mod_to_equations; lia). Z.div_mod_to_equations; lia.
  - rewrite Z2Nat.id by (Z.div_mod_to_equations; lia). Z.div_mod_to_equations; lia.
  - exists s'. split; [exact E|]. intros a. rewrite Hmem. case_match; [|done]. f_equal. Z.div_mod_to_equations; lia.
Qed.

(** ** The kernel image *)
Definition img32 (j : Z) : Z := image j + 2 ^ 8 * image (j + 1) + 2 ^ 16 * image (j + 2) + 2 ^ 24 * image (j + 3).
(** A program header: where the segment is in the file and in memory *)
Record segment : Type := mkSeg { sg_off : Z; sg_pa : Z; sg_filesz : Z; sg_memsz : Z }.
Definition seg_at (j : Z) : segment := mkSeg (img32 (j + 4)) (img32 (j + 12)) (img32 (j + 16)) (img32 (j + 20)).
Fixpoint segs (n : nat) (j : Z) : list segment :=
  match n with O => [] | S n' => seg_at j :: segs n' (j + 32) end.
Definition phnum : Z := image 44 + 256 * image 45.
Definition phoff : Z := img32 28.
(** The segments go up in memory, with room for the part of the first sector
    that is before each of them. *)
Fixpoint laid (lo : Z) (l : list segment) : Prop :=
  match l with
  | [] => True
  | g :: l' => lo <= sg_pa g - sg_off g mod 512 /\ sg_filesz g <= sg_memsz g /\ sg_pa g + sg_memsz g <= 2 ^ 32 - 512 /\
      laid (sg_pa g + sg_memsz g) l'
  end.
Definition loaded (m : mem) (g : segment) : Prop := forall i, 0 <= i < sg_memsz g ->
  ld8 m (sg_pa g + i) = if i <? sg_filesz g then image (sg_off g + i) else 0.
(** The first page of the file is at 0x10000. *)
Definition scratch (m : mem) : Prop := forall j, 0 <= j < 4096 -> ld8 m (0x10000 + j) = image j.

Lemma image_range j : 0 <= image j < 256.
Proof using disk_sectors.
  unfold image. destruct (disk_sectors (j / SECTSIZE + 1)) as [Hl Hb]. rewrite Forall_forall in Hb.
  apply Hb, list_elem_of_In, nth_In. rewrite Hl. pose proof (Z.mod_pos_bound j 512 ltac:(lia)). unfold SECTSIZE. lia.
Qed.
Lemma img32_range j : 0 <= img32 j < 2 ^ 32.
Proof using disk_sectors.
  unfold img32. pose proof (image_range j). pose proof (image_range (j + 1)). pose proof (image_range (j + 2)).
  pose proof (image_range (j + 3)). lia.
Qed.
Lemma scratch_32 m j : scratch m -> 0 <= j <= 4092 -> ld32 m (0x10000 + j) = img32 j.
Proof using Type. intros Hs Hj. unfold ld32, img32. rewrite <- !Z.add_assoc, !Hs by lia. done. Qed.
Lemma rd32_then {A} a (k : Z -> kernel boot A) s : (x ← rd32 a; k x) s = k (ld32 (b_mem s) a) s.
Proof using Type. done. Qed.

(** The body of the loop *)
Definition load_one (ph : Z) : kernel boot unit :=
  pa ← rd32 (ph + 12);
  filesz ← rd32 (ph + 16);
  off ← rd32 (ph + 4);
  readseg pa filesz off;;
  memsz ← rd32 (ph + 20);
  filesz ← rd32 (ph + 16);
  (if filesz <? memsz then
     kmodify (fun s => set_bmem (stosb (b_mem s) (u32 (pa + filesz)) 0 (Z.to_nat (memsz - filesz))) s)
   else mret tt).
Lemma load_kernel_S n ph s s' : load_one ph s = Done s' tt -> load_kernel (S n) ph s = load_kernel n (ph + 32) s'.
Proof using Type.
  intros H. cbn [load_kernel]. unfold load_one in H. rewrite !rd32_then in H |- *. apply bind_inv in H as (s1 & [] & E1 & H).
  rewrite (bind_Done _ _ _ _ _ E1). rewrite !rd32_then in H |- *. by rewrite (bind_Done _ _ _ _ _ H).
Qed.
Lemma load_one_spec j lo s : scratch (b_mem s) -> 0 <= j <= 4064 -> 0x11000 <= lo -> laid lo [seg_at j] ->
  exists s', load_one (0x10000 + j) s = Done s' tt /\ (forall a, a < lo -> ld8 (b_mem s') a = ld8 (b_mem s) a) /\
    loaded (b_mem s') (seg_at j).
Proof using disk_sectors disk_ready.
  intros Hs Hj Hlo (Hpa & Hsz & Hend & _). cbn [sg_pa sg_off sg_filesz sg_memsz seg_at] in Hpa, Hsz, Hend.
  pose proof (img32_range (j + 4)). pose proof (img32_range (j + 12)). pose proof (img32_range (j + 16)). pose proof (img32_range (j + 20)).
  unfold load_one, loaded. rewrite <- !Z.add_assoc, !rd32_then, !(scratch_32 _ _ Hs) by lia. cbn [sg_pa sg_off sg_filesz sg_memsz seg_at].
  set (off := img32 (j + 4)) in *. set (pa := img32 (j + 12)) in *. set (fsz := img32 (j + 16)) in *. set (msz := img32 (j + 20)) in *.
  pose proof (Z.mod_pos_bound off 512 ltac:(lia)) as Hm.
  destruct (readseg_spec pa fsz off s ltac:(lia) ltac:(lia) ltac:(lia) ltac:(lia) ltac:(lia)) as (s1 & E1 & Hm1).
  rewrite (bind_Done _ _ _ _ _ E1), !rd32_then. unfold inside in Hm1.
  assert (Hlow : forall a, a < lo -> ld8 (b_mem s1) a = ld8 (b_mem s) a).
  { intros a Ha. rewrite Hm1. case_match; [breflect; lia|done]. }
  assert (Hs1 : scratch (b_mem s1)) by (intros i Hi; rewrite Hlow by lia; by apply Hs).
  rewrite !(scratch_32 _ _ Hs1) by lia. fold msz fsz.
  assert (Hfile : forall i, 0 <= i < fsz -> ld8 (b_mem s1) (pa + i) = image (off + i)).
  { intros i Hi. rewrite Hm1. assert (pa + fsz <= pa - off mod 512 + 512 * sectors (pa - off mod 512) (pa + fsz)).
    { unfold sectors, SECTSIZE. Z.div_mod_to_equations. lia. }
    case_match; breflect; [f_equal; lia|]. destruct (Z.leb_spec (pa - off mod 512) (pa + i)), (Z.ltb_spec (pa + i) (pa - off mod 512 + 512 * sectors (pa - off mod 512) (pa + fsz))); cbn in *; lia || done. }
  destruct (Z.ltb_spec fsz msz) as [Hlt|Hge].
  - eexists. split; [reflexivity|]. cbn [b_mem set_bmem]. rewrite u32_small by lia. split.
    + intros a Ha. rewrite ld8_stosb. case_match; [breflect; lia|by apply Hlow].
    + intros i Hi. rewrite ld8_stosb. destruct (Z.ltb_spec i fsz).
      * rewrite (proj2 (Z.leb_gt (pa + fsz) (pa + i))) by lia. cbn [andb]. apply Hfile; lia.
      * rewrite (proj2 (Z.leb_le (pa + fsz) (pa + i))), (proj2 (Z.ltb_lt (pa + i) _)) by lia. done.
  - exists s1. split; [done|]. split; [done|]. intros i Hi. rewrite (proj2 (Z.ltb_lt i fsz)) by lia. apply Hfile. lia.
Qed.
Lemma load_kernel_spec n : forall j lo s, scratch (b_mem s) -> 0 <= j -> j + 32 * Z.of_nat n <= 4096 -> 0x11000 <= lo -> laid lo (segs n j) ->
  exists s', load_kernel n (0x10000 + j) s = Done s' tt /\ (forall a, a < lo -> ld8 (b_mem s') a = ld8 (b_mem s) a) /\
    Forall (loaded (b_mem s')) (segs n j).
Proof using disk_sectors disk_ready.
  induction n as [|n IH]; intros j lo s Hs Hj Hn Hlo Hl; [exists s; by split; [|split; [|constructor]]|].
  cbn [segs laid] in Hl. destruct Hl as (H1 & H2 & H3 & Hl).
  destruct (load_one_spec j lo s Hs ltac:(lia) Hlo (conj H1 (conj H2 (conj H3 I)))) as (s1 & E1 & Hlow1 & Hld).
  rewrite (load_kernel_S _ _ _ _ E1), <- Z.add_assoc.
  pose proof (Z.mod_pos_bound (sg_off (seg_at j)) 512 ltac:(lia)). pose proof (img32_range (j + 20)). pose proof (img32_range (j + 16)).
  assert (Hms : 0 <= sg_memsz (seg_at j)) by (cbn; lia).
  destruct (IH (j + 32) (sg_pa (seg_at j) + sg_memsz (seg_at j)) s1) as (s' & E & Hlow & Hall); [|lia|lia|lia|exact Hl|].
  { intros i Hi. rewrite Hlow1 by lia. by apply Hs. }
  exists s'. split; [exact E|]. split; [intros a Ha; rewrite Hlow by lia; by apply Hlow1|].
  constructor; [|exact Hall]. intros i Hi. rewrite Hlow by lia. by apply Hld.
Qed.

End Boot.

(** ** An image with one segment *)
(** A file, cut into sectors from sector 1 on *)
Definition sector (file : list Z) (n : Z) : list Z :=
  let d := take 512 (drop (Z.to_nat (512 * (n - 1))) file) in d ++ replicate (512 - length d) 0.
Lemma sector_ok file n : Forall (fun b => 0 <= b < 256) file ->
  length (sector file n) = 512%nat /\ Forall (fun b => 0 <= b < 256) (sector file n).
Proof.
  intros Hf. unfold sector. set (d := take 512 _). assert (length d <= 512)%nat by apply firstn_le_length. split.
  - rewrite length_app, length_replicate. lia.
  - apply Forall_app. split; [by apply Forall_take, Forall_drop|]. apply Forall_replicate. lia.
Qed.
(** Five bytes at 600 of the file go to 0x100058, with five zeros behind them. *)
Definition tiny_kernel : list Z :=
  [0x7F; 0x45; 0x4C; 0x46] ++ replicate 20 0 ++ [0x58; 0; 0x10; 0] ++ [52; 0; 0; 0] ++ replicate 12 0 ++ [1; 0] ++ replicate 6 0 ++
  [1; 0; 0; 0; 0x58; 2; 0; 0; 0x58; 0; 0x10; 0x80; 0x58; 0; 0x10; 0; 5; 0; 0; 0; 10; 0; 0; 0] ++ replicate 8 0 ++
  replicate 516 0 ++ [11; 22; 33; 44; 55].
Lemma tiny_kernel_bytes : Forall (fun b => 0 <= b < 256) tiny_kernel.
Proof. apply Forall_forall. intros b Hb. by apply (proj1 (Forall_forall (fun b => (0 <=? b) && (b <? 256) = true) tiny_kernel) ltac:(vm_compute; repeat constructor)) in Hb; breflect. Qed.
