(* ===== verification/Mp.v ===== *)
(** * The multiprocessor tables (mp.c)

    The BIOS leaves a floating pointer structure in low memory, which points
    to a table of processors and interrupt controllers.  Memory is read through
    the kernel's map of it. *)

From S2P Require Import Prelude Params CString.

Definition MPPROC : Z := 0.
Definition MPBUS : Z := 1.
Definition MPIOAPIC : Z := 2.
Definition MPIOINTR : Z := 3.
Definition MPLINTR : Z := 4.
Definition MPBOOT : Z := 2.

Section Tables.
(** Memory, and what port 0x23 returns *)
Context (m : mem) (imcr : Z).

Definition ld16 (a : Z) : Z := ld8 m a + 256 * ld8 m (a + 1).
Definition bytes_at (a : Z) (n : nat) : list Z := map (fun i => ld8 m (a + Z.of_nat i)) (seq 0 n).
Definition sum (addr : Z) (len : nat) : Z := u8 (foldr Z.add 0 (bytes_at addr len)).

(** memcmp(p, "_MP_", 4) == 0 && sum(p, sizeof(struct mp)) == 0 *)
Definition is_mp (p : Z) : bool := bool_decide (bytes_at p 4 = [95; 77; 80; 95]) && (sum p 16 =? 0).
Fixpoint mpsearch1_loop (k : nat) (p e : Z) : Z :=
  match k with
  | O => 0
  | S k' => if p <? e then if is_mp p then p else mpsearch1_loop k' (p + 16) e else 0
  end.
Definition mpsearch1 (a len : Z) : Z :=
  let addr := p2v a in
  mpsearch1_loop (Z.to_nat ((len + 15) / 16)) addr (addr + len).
Definition mpsearch : Z :=
  let bda := p2v 0x400 in
  let p := Z.shiftl (Z.lor (Z.shiftl (ld8 m (bda + 0x0F)) 8) (ld8 m (bda + 0x0E))) 4 in
  let mp :=
    if negb (p =? 0) then mpsearch1 p 1024
    else
      let p := Z.lor (Z.shiftl (ld8 m (bda + 0x14)) 8) (ld8 m (bda + 0x13)) * 1024 in
      mpsearch1 (u32 (p - 1024)) 1024 in
  if negb (mp =? 0) then mp else mpsearch1 0xF0000 0x10000.
(** The table, and the structure that points to it *)
Definition mpconfig : option (Z * Z) :=
  let mp := mpsearch in
  if (mp =? 0) || (ld32 m (mp + 4) =? 0) then None
  else
    let conf := p2v (ld32 m (mp + 4)) in
    if negb (bool_decide (bytes_at conf 4 = [80; 67; 77; 80])) then None
    else if negb (ld8 m (conf + 6) =? 1) && negb (ld8 m (conf + 6) =? 4) then None
    else if negb (sum conf (Z.to_nat (ld16 (conf + 4))) =? 0) then None
    else Some (conf, mp).

(** ** mpinit *)
Record mpstate : Type := mkMp {
  ms_ismp : bool;
  ms_ncpu : nat;
  ms_bcpu : nat;          (** bcpu - cpus *)
  ms_ids : list Z;        (** cpus[i].id *)
  ms_lapic : Z;
  ms_ioapicid : Z;
  ms_out : list (Z * Z)   (** the bytes written to ports *)
}.
Definition set_ismp (b : bool) (s : mpstate) : mpstate :=
  mkMp b (ms_ncpu s) (ms_bcpu s) (ms_ids s) (ms_lapic s) (ms_ioapicid s) (ms_out s).
Definition set_bcpu (c : nat) (s : mpstate) : mpstate :=
  mkMp (ms_ismp s) (ms_ncpu s) c (ms_ids s) (ms_lapic s) (ms_ioapicid s) (ms_out s).
Definition set_ncpu (n : nat) (s : mpstate) : mpstate :=
  mkMp (ms_ismp s) n (ms_bcpu s) (ms_ids s) (ms_lapic s) (ms_ioapicid s) (ms_out s).
Definition set_ids (l : list Z) (s : mpstate) : mpstate :=
  mkMp (ms_ismp s) (ms_ncpu s) (ms_bcpu s) l (ms_lapic s) (ms_ioapicid s) (ms_out s).
Definition set_lapic (a : Z) (s : mpstate) : mpstate :=
  mkMp (ms_ismp s) (ms_ncpu s) (ms_bcpu s) (ms_ids s) a (ms_ioapicid s) (ms_out s).
Definition set_ioapicid (i : Z) (s : mpstate) : mpstate :=
  mkMp (ms_ismp s) (ms_ncpu s) (ms_bcpu s) (ms_ids s) (ms_lapic s) i (ms_out s).
Definition mp_outb (p v : Z) (s : mpstate) : mpstate :=
  mkMp (ms_ismp s) (ms_ncpu s) (ms_bcpu s) (ms_ids s) (ms_lapic s) (ms_ioapicid s) (ms_out s ++ [(p, u8 v)]).
Definition mpbcpu (s : mpstate) : nat := ms_bcpu s.

(** case MPPROC; a processor more than cpus has room for is a write past its end *)
Definition mp_proc (p : Z) : kernel mpstate unit :=
  s ← kget;
  kwhen (negb (Z.of_nat (ms_ncpu s) =? ld8 m (p + 1))) (kmodify (set_ismp false));;
  kwhen (has (ld8 m (p + 3)) MPBOOT) (kmodify (set_bcpu (ms_ncpu s)));;
  if decide (ms_ncpu s < length (ms_ids s))%nat then
    kmodify (fun s => set_ids (<[ms_ncpu s := Z.of_nat (ms_ncpu s)]> (ms_ids s)) s);;
    kmodify (fun s => set_ncpu (S (ms_ncpu s)) s)
  else kpanic "cpus[ncpu] is past the array".
(** for(...; p < e; ) *)
Fixpoint mpinit_loop (k : nat) (p e : Z) : kernel mpstate unit :=
  if p <? e then
    match k with
    | O => kspin
    | S k' =>
        let t := ld8 m p in
        if t =? MPPROC then mp_proc p;; mpinit_loop k' (p + 20) e
        else if t =? MPIOAPIC then kmodify (set_ioapicid (ld8 m (p + 1)));; mpinit_loop k' (p + 8) e
        else if (t =? MPBUS) || (t =? MPIOINTR) || (t =? MPLINTR) then mpinit_loop k' (p + 8) e
        else kmodify (set_ismp false);; mpinit_loop k' p e
    end
  else mret tt.
(** [k] bounds the turns of the loop *)
Definition mpinit (k : nat) : kernel mpstate unit :=
  kmodify (set_bcpu 0);;
  match mpconfig with
  | None => mret tt
  | Some (conf, mp) =>
      kmodify (set_ismp true);;
      kmodify (set_lapic (ld32 m (conf + 36)));;
      mpinit_loop k (conf + 44) (conf + ld16 (conf + 4));;
      ok ← kgets ms_ismp;
      if negb ok then kmodify (set_ncpu 1);; kmodify (set_lapic 0);; kmodify (set_ioapicid 0)
      else
        kwhen (negb (ld8 m (mp + 12) =? 0)) (kmodify (mp_outb 0x22 0x70);; kmodify (mp_outb 0x23 (Z.lor imcr 1)))
  end.

(** ** The search *)
(** The first of the places [addr], [addr + 16], ... below [addr + len] that
    holds a valid structure, or 0 *)
Definition first_mp (addr len r : Z) : Prop :=
  (r = 0 /\ forall i, 0 <= i -> 16 * i < len -> is_mp (addr + 16 * i) = false) \/
  (exists i, 0 <= i /\ 16 * i < len /\ r = addr + 16 * i /\ is_mp r = true /\ forall j, 0 <= j < i -> is_mp (addr + 16 * j) = false).
Lemma mpsearch1_loop_spec k : forall p len, len <= 16 * Z.of_nat k -> first_mp p len (mpsearch1_loop k p (p + len)).
Proof using Type.
  induction k as [|k IH]; intros p len Hk; cbn [mpsearch1_loop]; [left; split; [done|lia]|].
  destruct (Z.ltb_spec p (p + len)) as [Hlt|Hge]; [|left; split; [done|lia]].
  destruct (is_mp p) eqn:Ep; [right; exists 0; rewrite Z.add_0_r; repeat split; done || lia|].
  replace (p + len) with (p + 16 + (len - 16)) by lia.
  assert (Hshift : forall i, p + 16 + 16 * (i - 1) = p + 16 * i) by lia.
  destruct (IH (p + 16) (len - 16) ltac:(lia)) as [[-> H]|(i & Hi & Hl & -> & Hv & H)].
  - left. split; [done|]. intros i Hi Hl. destruct (decide (i = 0)) as [->|]; [by rewrite Z.add_0_r|].
    rewrite <- Hshift. apply H; lia.
  - right. exists (i + 1). rewrite <- (Hshift (i + 1)), Z.add_simpl_r. repeat split; try done; try lia.
    intros j Hj. destruct (decide (j = 0)) as [->|]; [by rewrite Z.add_0_r|]. rewrite <- Hshift. apply H; lia.
Qed.
Lemma mpsearch1_spec a len : first_mp (p2v a) len (mpsearch1 a len).
Proof using Type. apply mpsearch1_loop_spec. Z.div_mod_to_equations. lia. Qed.

(** ** The table *)
Inductive mpentry : Type :=
| EProc (apicid version flags : Z) (rest : list Z)
| EIoapic (apicno : Z) (rest : list Z)
| EOther (type : Z) (rest : list Z).
Definition enc (e : mpentry) : list Z :=
  match e with
  | EProc id v f rest => [MPPROC; id; v; f] ++ rest
  | EIoapic id rest => [MPIOAPIC; id] ++ rest
  | EOther t rest => [t] ++ rest
  end.
Definition entry_ok (e : mpentry) : Prop :=
  match e with
  | EProc _ _ _ rest => length rest = 16%nat
  | EIoapic _ rest => length rest = 6%nat
  | EOther t rest => (t = MPBUS \/ t = MPIOINTR \/ t = MPLINTR) /\ length rest = 7%nat
  end.
(** The processors, as (APIC id, flags), and the I/O APICs *)
Definition procs (es : list mpentry) : list (Z * Z) := omap (fun e => match e with EProc id _ f _ => Some (id, f) | _ => None end) es.
Definition ioapics (es : list mpentry) : list Z := omap (fun e => match e with EIoapic id _ => Some id | _ => None end) es.
(** The APIC ids are [c], [c + 1], ... *)
Fixpoint in_order (c : nat) (l : list (Z * Z)) : bool :=
  match l with [] => true | x :: l' => (Z.of_nat c =? x.1) && in_order (S c) l' end.
(** The last processor that is marked as the one that boots *)
Fixpoint boot_cpu (b c : nat) (l : list (Z * Z)) : nat :=
  match l with [] => b | x :: l' => boot_cpu (if has x.2 MPBOOT then c else b) (S c) l' end.

Definition holds_at (p : Z) (l : list Z) : Prop := bytes_at p (length l) = l.
Lemma bytes_at_app p n k : bytes_at p (n + k) = bytes_at p n ++ bytes_at (p + Z.of_nat n) k.
Proof using Type.
  unfold bytes_at. rewrite seq_app, map_app. f_equal. replace (0 + n)%nat with (n + 0)%nat by lia. rewrite <- fmap_add_seq.
  rewrite <- list_fmap_compose. apply map_ext. intros i. cbn. f_equal. lia.
Qed.
Lemma holds_app p a b : holds_at p (a ++ b) -> holds_at p a /\ holds_at (p + Z.of_nat (length a)) b.
Proof using Type.
  unfold holds_at. rewrite length_app, bytes_at_app. intros H. apply app_inj_1 in H; [done|]. unfold bytes_at. by rewrite length_map, length_seq.
Qed.
Lemma holds_nth p l i x : holds_at p l -> l !! i = Some x -> ld8 m (p + Z.of_nat i) = x.
Proof using Type.
  intros H E. unfold holds_at, bytes_at in H. rewrite <- H in E. rewrite list_lookup_fmap in E.
  destruct (seq 0 (length l) !! i) as [j|] eqn:Ej; [|done]. apply lookup_seq in Ej as [-> _]. cbn in E. by injection E.
Qed.

(** What the loop has done after the entries [es] *)
Definition seen (es : list mpentry) (s s' : mpstate) : Prop :=
  ms_ismp s' = ms_ismp s && in_order (ms_ncpu s) (procs es) /\
  ms_ncpu s' = (ms_ncpu s + length (procs es))%nat /\
  ms_bcpu s' = boot_cpu (ms_bcpu s) (ms_ncpu s) (procs es) /\
  length (ms_ids s') = length (ms_ids s) /\
  (forall i, ms_ids s' !! i = if decide (ms_ncpu s <= i < ms_ncpu s + length (procs es))%nat then Some (Z.of_nat i) else ms_ids s !! i) /\
  ms_lapic s' = ms_lapic s /\ ms_ioapicid s' = List.last (ioapics es) (ms_ioapicid s) /\ ms_out s' = ms_out s.

Lemma seen_nil s : seen [] s s.
Proof using Type.
  repeat split; cbn; rewrite ?andb_true_r, ?Nat.add_0_r; try done. intros i. by rewrite decide_False by lia.
Qed.
Lemma last_cons_def {A} (l : list A) a d : List.last (a :: l) d = List.last l a.
Proof using Type. revert a d. induction l as [|b l IH]; intros a d; [done|]. change (List.last (b :: l) d = List.last (b :: l) a). by rewrite !IH. Qed.
Lemma seen_cons e es s s1 s' : seen [e] s s1 -> seen es s1 s' -> seen (e :: es) s s'.
Proof using Type.
  intros (A1 & A2 & A3 & A4 & A5 & A6 & A7 & A8) (B1 & B2 & B3 & B4 & B5 & B6 & B7 & B8).
  unfold seen. rewrite B1, B2, B3, B4, B6, B7, B8, A1, A2, A3, A4, A6, A7, A8. unfold procs, ioapics in *. cbn [omap list_omap] in *.
  destruct e as [id v f rest|id rest|t rest]; cbn [in_order boot_cpu length fst snd] in *; rewrite ?Nat.add_0_r in *.
  - split; [by rewrite andb_true_r, andb_assoc, Nat.add_1_r|]. split; [lia|]. split; [by rewrite Nat.add_1_r|]. split; [done|].
    split; [|done]. intros i. rewrite B5, A5, A2. repeat case_decide; done || lia.
  - split; [by rewrite andb_true_r|]. split; [done|]. split; [done|]. split; [done|]. split; [|split; [done|split; [|done]]].
    + intros i. rewrite B5, A5, A2. repeat case_decide; done || lia.
    + symmetry. apply last_cons_def.
  - split; [by rewrite andb_true_r|]. split; [done|]. split; [done|]. split; [done|]. split; [|done].
    intros i. rewrite B5, A5, A2. repeat case_decide; done || lia.
Qed.
Lemma mp_proc_spec p id v f rest s : holds_at p (enc (EProc id v f rest)) -> (ms_ncpu s < length (ms_ids s))%nat ->
  exists s', mp_proc p s = Done s' tt /\ seen [EProc id v f rest] s s'.
Proof using Type.
  intros Hp Hroom. unfold mp_proc. rewrite (bind_Done kget _ s s s eq_refl).
  rewrite (holds_nth p _ 1 id Hp eq_refl : ld8 m (p + 1) = id), (holds_nth p _ 3 f Hp eq_refl : ld8 m (p + 3) = f).
  destruct (Z.eqb_spec (Z.of_nat (ms_ncpu s)) id) as [Ei|Ei], (has f MPBOOT) eqn:Ef; cbn [negb];
    (eexists; split; [unfold kwhen, kmodify, mbind, kernel_bind, mret, kernel_ret; rewrite decide_True by done; reflexivity|]);
    unfold seen; cbn; rewrite ?(proj2 (Z.eqb_eq _ _) Ei), ?(proj2 (Z.eqb_neq _ _) Ei), ?andb_true_r, ?andb_false_r, ?Ef;
    (split; [done|]); (split; [lia|]); (split; [done|]); (split; [apply length_insert|]); (split; [|done]);
    intros i; destruct (decide (i = ms_ncpu s)) as [->|]; rewrite ?list_lookup_insert_eq, ?list_lookup_insert_ne by done; case_decide; done || lia.
Qed.
Lemma mpinit_loop_spec es : Forall entry_ok es -> forall k p s, holds_at p (concat (map enc es)) -> (length es <= k)%nat ->
  (ms_ncpu s + length (procs es) <= length (ms_ids s))%nat ->
  exists s', mpinit_loop k p (p + Z.of_nat (length (concat (map enc es)))) s = Done s' tt /\ seen es s s'.
Proof using Type.
  induction 1 as [|e es He Hes IH]; intros k p s Hp Hk Hroom.
  { exists s. split; [|apply seen_nil]. cbn. rewrite Z.add_0_r. by destruct k; cbn; rewrite Z.ltb_irrefl. }
  destruct k as [|k]; [cbn in Hk; lia|]. cbn [map concat] in *. apply holds_app in Hp as [Hp Hrest].
  assert (Hlen : (8 <= length (enc e))%nat) by (destruct e; cbn in *; lia).
  assert (Hgo : forall s1, seen [e] s s1 ->
    exists s', mpinit_loop k (p + Z.of_nat (length (enc e))) (p + Z.of_nat (length (enc e ++ concat (map enc es)))) s1 = Done s' tt /\ seen (e :: es) s s').
  { intros s1 H1. destruct (IH k (p + Z.of_nat (length (enc e))) s1 Hrest ltac:(cbn in Hk; lia)) as (s' & E & Hs').
    - destruct H1 as (_ & -> & _ & -> & _). revert Hroom. unfold procs. cbn. destruct e; cbn; lia.
    - exists s'. split; [|by eapply seen_cons]. rewrite <- E. f_equal. rewrite length_app. lia. }
  cbn [mpinit_loop]. rewrite (proj2 (Z.ltb_lt _ _)) by (rewrite length_app; lia).
  pose proof (fun x => holds_nth p _ 0 x Hp) as Ht. rewrite Z.add_0_r in Ht. destruct e as [id v f rest|id rest|t rest]; cbn [entry_ok] in He.
  - rewrite (Ht MPPROC eq_refl). cbn [Z.eqb MPPROC].
    destruct (mp_proc_spec p id v f rest s Hp) as (s1 & E1 & H1); [unfold procs in Hroom; cbn in Hroom; lia|].
    rewrite (bind_Done _ _ _ _ _ E1). replace 20 with (Z.of_nat (length (enc (EProc id v f rest)))) by (cbn; lia). by apply Hgo.
  - rewrite (Ht MPIOAPIC eq_refl). cbn [Z.eqb MPPROC MPIOAPIC Pos.eqb].
    rewrite (bind_Done (kmodify _) _ s (set_ioapicid (ld8 m (p + 1)) s) tt eq_refl).
    replace 8 with (Z.of_nat (length (enc (EIoapic id rest)))) by (cbn; lia). apply Hgo.
    rewrite (holds_nth p _ 1 id Hp eq_refl : ld8 m (p + 1) = id).
    repeat split; cbn; rewrite ?andb_true_r, ?Nat.add_0_r; try done. intros i. by rewrite decide_False by lia.
  - rewrite (Ht t eq_refl). destruct He as [He Hr].
    replace 8 with (Z.of_nat (length (enc (EOther t rest)))) by (cbn; lia).
    destruct (Hgo s) as (s' & E & Hs'); [repeat split; cbn; rewrite ?andb_true_r, ?Nat.add_0_r; try done; intros i; by rewrite decide_False by lia|].
    exists s'. split; [|done]. destruct He as [->|[->| ->]]; cbn [Z.eqb MPPROC MPIOAPIC MPBUS MPIOINTR MPLINTR Pos.eqb orb]; exact E.
Qed.

(** C28: mpinit reads the table of processors: when mpconfig has found one, and it
    holds known entries with at most NCPU processors, it returns; if the APIC ids
    are 0, 1, 2, ... in order it has counted and numbered the processors and
    knows which one booted, the local APIC's address and the I/O APIC; otherwise
    it falls back to one processor and no APIC. *)
Theorem mpinit_reads_table k conf mp es s : mpconfig = Some (conf, mp) -> Forall entry_ok es ->
  holds_at (conf + 44) (concat (map enc es)) -> ld16 (conf + 4) = 44 + Z.of_nat (length (concat (map enc es))) ->
  (length es <= k)%nat -> ms_ncpu s = 0%nat -> length (ms_ids s) = NCPU -> (length (procs es) <= NCPU)%nat ->
  exists s', mpinit k s = Done s' tt /\
    if in_order 0 (procs es) then
      ms_ismp s' = true /\ ms_ncpu s' = length (procs es) /\ mpbcpu s' = boot_cpu 0 0 (procs es) /\
      (forall i, (i < length (procs es))%nat -> ms_ids s' !! i = Some (Z.of_nat i)) /\
      ms_lapic s' = ld32 m (conf + 36) /\ ms_ioapicid s' = List.last (ioapics es) (ms_ioapicid s)
    else ms_ismp s' = false /\ ms_ncpu s' = 1%nat /\ ms_lapic s' = 0 /\ ms_ioapicid s' = 0.
Proof using Type.
  intros Hc He Hh Hlen Hk Hn Hids Hp. unfold mpinit. rewrite (bind_Done (kmodify _) _ s (set_bcpu 0 s) tt eq_refl), Hc.
  rewrite (bind_Done (kmodify _) _ _ (set_ismp true (set_bcpu 0 s)) tt eq_refl).
  set (s0 := set_lapic (ld32 m (conf + 36)) (set_ismp true (set_bcpu 0 s))). rewrite (bind_Done (kmodify _) _ _ s0 tt eq_refl), Hlen, Z.add_assoc.
  destruct (mpinit_loop_spec es He k (conf + 44) s0 Hh Hk) as (s1 & E & Hs1).
  { change (ms_ncpu s0) with (ms_ncpu s). change (ms_ids s0) with (ms_ids s). rewrite Hn, Hids. lia. }
  rewrite (bind_Done _ _ _ _ _ E), (bind_Done (kgets ms_ismp) _ s1 s1 (ms_ismp s1) eq_refl).
  destruct Hs1 as (A1 & A2 & A3 & A4 & A5 & A6 & A7 & A8).
  change (ms_ncpu s0) with (ms_ncpu s) in *. rewrite Hn in *. cbn [ms_ismp set_lapic set_ismp s0 andb] in A1. rewrite A1.
  destruct (in_order 0 (procs es)); cbn [negb].
  - assert (Hi : forall i, (i < length (procs es))%nat -> ms_ids s1 !! i = Some (Z.of_nat i)).
    { intros i Hi. by rewrite A5, decide_True by lia. }
    destruct (ld8 m (mp + 12) =? 0); cbn [negb kwhen]; eexists; (split; [reflexivity|]); unfold mpbcpu; cbn; rewrite A2, A3, A6, A7; done.
  - eexists. split; [reflexivity|]. done.
Qed.

(** An entry of an unknown type is never passed: the loop reports it for ever. *)
Theorem mpinit_unknown_type p e s : p < e -> 4 < ld8 m p -> forall k, mpinit_loop k p e s = Diverge.
Proof using Type.
  intros Hp Ht k. revert s. induction k as [|k IH]; intros s; cbn [mpinit_loop]; rewrite (proj2 (Z.ltb_lt p e) Hp); [done|].
  unfold MPPROC, MPIOAPIC, MPBUS, MPIOINTR, MPLINTR.
  rewrite !(proj2 (Z.eqb_neq _ _)) by lia. cbn [orb]. by rewrite (bind_Done (kmodify _) _ s (set_ismp false s) tt eq_refl), IH.
Qed.
End Tables.

(** ** A machine with two processors *)
Definition bios (l : list (Z * list Z)) : mem :=
  list_to_map (concat (map (fun x => imap (fun i b => (p2v x.1 + Z.of_nat i, b)) x.2) l)).
Definition two_cpus : list mpentry :=
  [EProc 0 20 3 (replicate 16 0); EProc 1 20 1 (replicate 16 0); EOther MPBUS (replicate 7 0); EIoapic 2 [17; 1; 0; 0; 0xC0; 0xFE]].
Definition mp_table : list Z :=
  [80; 67; 77; 80; 100; 0; 4; 136] ++ replicate 28 0 ++ [0; 0; 0xE0; 0xFE; 0; 0; 0; 0] ++ concat (map enc two_cpus).
Definition mp_bios : mem :=
  bios [(0xF0010, [95; 77; 80; 95; 0; 1; 0x0F; 0; 1; 4; 144; 0; 0; 0; 0; 0]); (0xF0100, mp_table)].
Definition mp0 : mpstate := mkMp false 0 0 (replicate 8 0) 0 0 [].
Lemma mpinit_reads_table_witness : exists s', mpinit mp_bios 0 4 mp0 = Done s' tt /\
  ms_ismp s' = true /\ ms_ncpu s' = 2%nat /\ mpbcpu s' = 0%nat /\ ms_lapic s' = 0xFEE00000 /\ ms_ioapicid s' = 2.
Proof.
  destruct (mpinit_reads_table mp_bios 0 4 (p2v 0xF0100) (p2v 0xF0010) two_cpus mp0) as (s' & E & H1 & H2 & H3 & _ & H4 & H5).
  - vm_compute. reflexivity.
  - repeat constructor.
  - vm_compute. reflexivity.
  - vm_compute. reflexivity.
  - cbn. lia.
  - reflexivity.
  - reflexivity.
  - cbn. unfold NCPU. lia.
  - exists s'. repeat split; done.
Defined.
