(* ===== verification/Segment.v ===== *)
(** * Segments and gates (mmu.h, seginit of vm.c, tvinit of trap.c)

    The descriptors as the C bit fields they are, cut to their widths, and what
    the processor reads in them.  The tables that the kernel sets up are flat
    segments and gates of which only the one for system calls is open to user
    programs. *)

From S2P Require Import Prelude Params.

Definition SEG_KCPU : Z := 3.
Definition SEG_TSS : Z := 6.
Definition NSEGS : nat := 7.
#[local] Notation STA_X := 0x8%Z.
#[local] Notation STA_W := 0x2%Z.
#[local] Notation STA_R := 0x2%Z.
Definition STS_T32A : Z := 0x9.
Definition STS_IG32 : Z := 0xE.
Definition STS_TG32 : Z := 0xF.

(** ** struct segdesc *)
Record segdesc : Type := mkSegdesc {
  sd_lim_15_0 : Z; sd_base_15_0 : Z; sd_base_23_16 : Z; sd_type : Z; sd_s : Z; sd_dpl : Z; sd_p : Z;
  sd_lim_19_16 : Z; sd_avl : Z; sd_rsv1 : Z; sd_db : Z; sd_g : Z; sd_base_31_24 : Z }.
(** Assignment to bit fields keeps their low bits. *)
Definition bits (w x : Z) : Z := x mod 2 ^ w.
Definition segdesc_of (lim0 base0 base1 type s dpl p lim1 avl rsv1 db g base2 : Z) : segdesc :=
  mkSegdesc (bits 16 lim0) (bits 16 base0) (bits 8 base1) (bits 4 type) (bits 1 s) (bits 2 dpl) (bits 1 p)
    (bits 4 lim1) (bits 1 avl) (bits 1 rsv1) (bits 1 db) (bits 1 g) (bits 8 base2).
Definition SEG (type base lim dpl : Z) : segdesc :=
  segdesc_of (Z.land (Z.shiftr lim 12) 0xffff) (Z.land (u32 base) 0xffff)
    (Z.land (Z.shiftr (u32 base) 16) 0xff) type 1 dpl 1
    (Z.shiftr (u32 lim) 28) 0 0 1 1 (Z.shiftr (u32 base) 24).
Definition SEG16 (type base lim dpl : Z) : segdesc :=
  segdesc_of (Z.land lim 0xffff) (Z.land (u32 base) 0xffff)
    (Z.land (Z.shiftr (u32 base) 16) 0xff) type 1 dpl 1
    (Z.shiftr (u32 lim) 16) 0 0 1 0 (Z.shiftr (u32 base) 24).

(** What the processor takes from a descriptor *)
Definition sd_base (d : segdesc) : Z := sd_base_15_0 d + 2 ^ 16 * sd_base_23_16 d + 2 ^ 24 * sd_base_31_24 d.
Definition sd_limit (d : segdesc) : Z :=
  let l := sd_lim_15_0 d + 2 ^ 16 * sd_lim_19_16 d in if sd_g d =? 1 then 4096 * l + 4095 else l.

(** ** struct gatedesc *)
Record gatedesc : Type := mkGate {
  gd_off_15_0 : Z; gd_cs : Z; gd_args : Z; gd_rsv1 : Z; gd_type : Z; gd_s : Z; gd_dpl : Z; gd_p : Z; gd_off_31_16 : Z }.
Definition SETGATE (istrap : bool) (sel off d : Z) : gatedesc :=
  mkGate (bits 16 (Z.land (u32 off) 0xffff)) (bits 16 sel) 0 0 (bits 4 (if istrap then STS_TG32 else STS_IG32)) 0 (bits 2 d) 1
    (bits 16 (Z.shiftr (u32 off) 16)).
Definition gd_off (g : gatedesc) : Z := gd_off_15_0 g + 2 ^ 16 * gd_off_31_16 g.

(** ** seginit *)
(** The tables and registers of one CPU: gdt, the fields of its task state that
    are set, the segment register gs and the task register *)
Record segs : Type := mkSegs { sg_gdt : list segdesc; sg_ss0 : Z; sg_esp0 : Z; sg_gs : Z; sg_tr : Z }.
Definition set_desc (i : Z) (d : segdesc) (s : segs) : segs :=
  mkSegs (<[Z.to_nat i := d]> (sg_gdt s)) (sg_ss0 s) (sg_esp0 s) (sg_gs s) (sg_tr s).
(** [cpu_addr] is &c->cpu; lgdt loads the table that is written here. The
    variables cpu and proc, which gs then addresses, are in the process model. *)
Definition seginit (cpu_addr : Z) (s : segs) : segs :=
  let s := set_desc SEG_KCODE (SEG (Z.lor STA_X STA_R) 0 0xffffffff 0) s in
  let s := set_desc SEG_KDATA (SEG STA_W 0 0xffffffff 0) s in
  let s := set_desc SEG_UCODE (SEG (Z.lor STA_X STA_R) 0 0xffffffff DPL_USER) s in
  let s := set_desc SEG_UDATA (SEG STA_W 0 0xffffffff DPL_USER) s in
  let s := set_desc SEG_KCPU (SEG STA_W cpu_addr 8 0) s in
  mkSegs (sg_gdt s) (sg_ss0 s) (sg_esp0 s) (Z.shiftl SEG_KCPU 3) (sg_tr s).
(** The task state segment of switchuvm: [ts_addr] is &cpu->ts, of 104 bytes *)
Definition set_sd_s (x : Z) (d : segdesc) : segdesc :=
  mkSegdesc (sd_lim_15_0 d) (sd_base_15_0 d) (sd_base_23_16 d) (sd_type d) (bits 1 x) (sd_dpl d) (sd_p d)
    (sd_lim_19_16 d) (sd_avl d) (sd_rsv1 d) (sd_db d) (sd_g d) (sd_base_31_24 d).
Definition switch_tss (ts_addr kstack : Z) (s : segs) : segs :=
  let s := set_desc SEG_TSS (set_sd_s 0 (SEG16 STS_T32A ts_addr (104 - 1) 0)) s in
  mkSegs (sg_gdt s) (Z.shiftl SEG_KDATA 3) (u32 (kstack + KSTACKSIZE)) (sg_gs s) (Z.shiftl SEG_TSS 3).

(** ** tvinit *)
Section Tvinit.
(** The addresses of the entry points of vectors.S *)
Context (vectors : Z -> Z).
Fixpoint tvinit_loop (n : nat) (i : Z) (idt : list gatedesc) : list gatedesc :=
  match n with
  | O => idt
  | S n' => tvinit_loop n' (i + 1) (<[Z.to_nat i := SETGATE false (Z.shiftl SEG_KCODE 3) (vectors i) 0]> idt)
  end.
Definition tvinit (idt : list gatedesc) : list gatedesc :=
  <[Z.to_nat T_SYSCALL := SETGATE true (Z.shiftl SEG_KCODE 3) (vectors T_SYSCALL) DPL_USER]> (tvinit_loop 256 0 idt).
End Tvinit.

(** ** What the processor reads in them *)
Lemma bits_land w x : 0 <= w -> bits w x = Z.land x (Z.ones w).
Proof. intros Hw. unfold bits. by rewrite Z.land_ones. Qed.
Ltac flat := unfold bits, u32; rewrite ?(Z.land_ones _ 16), ?(Z.land_ones _ 8), ?Z.shiftr_div_pow2 by lia;
  change (2 ^ 16) with 65536; change (2 ^ 8) with 256; change (2 ^ 24) with 16777216; change (2 ^ 32) with 4294967296;
  change (2 ^ 4) with 16; change (2 ^ 28) with 268435456; change (2 ^ 12) with 4096.
Lemma SEG_base type base lim dpl : sd_base (SEG type base lim dpl) = u32 base.
Proof.
  unfold sd_base, SEG, segdesc_of. cbn. change 0xffff with (Z.ones 16). change 0xff with (Z.ones 8). flat.
  Z.div_mod_to_equations. lia.
Qed.
Lemma SEG16_base type base lim dpl : sd_base (SEG16 type base lim dpl) = u32 base.
Proof.
  unfold sd_base, SEG16, segdesc_of. cbn. change 0xffff with (Z.ones 16). change 0xff with (Z.ones 8). flat.
  Z.div_mod_to_equations. lia.
Qed.
(** The limit is in pages: it reaches to the end of the page of [lim]. *)
Lemma SEG_limit type base lim dpl : 0 <= lim < 2 ^ 32 -> sd_limit (SEG type base lim dpl) = 4096 * (lim / 4096) + 4095.
Proof.
  intros Hl. unfold sd_limit, SEG, segdesc_of. cbn [sd_g sd_lim_15_0 sd_lim_19_16]. change (bits 1 1 =? 1) with true. cbv iota zeta.
  change 0xffff with (Z.ones 16). rewrite (Z.land_ones _ 16) by lia. rewrite !Z.shiftr_div_pow2 by lia.
  flat. change (2 ^ 32) with 4294967296 in Hl. Z.div_mod_to_equations. lia.
Qed.
Lemma SEG16_limit type base lim dpl : 0 <= lim < 2 ^ 20 -> sd_limit (SEG16 type base lim dpl) = lim.
Proof.
  intros Hl. unfold sd_limit, SEG16, segdesc_of. cbn [sd_g sd_lim_15_0 sd_lim_19_16]. change (bits 1 0 =? 1) with false. cbv iota zeta.
  change 0xffff with (Z.ones 16). rewrite (Z.land_ones _ 16) by lia. rewrite !Z.shiftr_div_pow2 by lia.
  flat. change (2 ^ 20) with 1048576 in Hl. Z.div_mod_to_equations. lia.
Qed.
Lemma SETGATE_off istrap sel off d : gd_off (SETGATE istrap sel off d) = u32 off.
Proof.
  unfold gd_off, SETGATE. cbn. change 0xffff with (Z.ones 16). flat. Z.div_mod_to_equations. lia.
Qed.

(** ** The tables *)
Lemma tvinit_loop_length vectors n : forall i idt, length (tvinit_loop vectors n i idt) = length idt.
Proof. induction n as [|n IH]; intros i idt; cbn [tvinit_loop]; [done|]. by rewrite IH, length_insert. Qed.
Lemma tvinit_loop_gate vectors n : forall i idt k, 0 <= i -> (Z.to_nat i + n <= length idt)%nat ->
  tvinit_loop vectors n i idt !! k =
    if decide (Z.to_nat i <= k < Z.to_nat i + n)%nat then Some (SETGATE false (Z.shiftl SEG_KCODE 3) (vectors (Z.of_nat k)) 0) else idt !! k.
Proof.
  induction n as [|n IH]; intros i idt k Hi Hl; cbn [tvinit_loop]; [by rewrite decide_False by lia|].
  rewrite IH by (rewrite ?length_insert; lia). destruct (decide (k = Z.to_nat i)) as [->|Hk].
  - rewrite decide_False, decide_True, list_lookup_insert_eq by lia. by rewrite Z2Nat.id.
  - rewrite list_lookup_insert_ne by done. repeat case_decide; done || lia.
Qed.
Lemma tvinit_gate vectors idt n : length idt = 256%nat -> 0 <= n < 256 ->
  tvinit vectors idt !! Z.to_nat n =
    Some (if n =? T_SYSCALL then SETGATE true (Z.shiftl SEG_KCODE 3) (vectors n) DPL_USER
          else SETGATE false (Z.shiftl SEG_KCODE 3) (vectors n) 0).
Proof.
  intros Hl Hn. unfold tvinit. destruct (Z.eqb_spec n T_SYSCALL) as [->|Hne].
  - rewrite list_lookup_insert_eq; [done|]. rewrite tvinit_loop_length, Hl. change (Z.to_nat T_SYSCALL) with 64%nat. lia.
  - rewrite list_lookup_insert_ne by (unfold T_SYSCALL in *; lia). rewrite tvinit_loop_gate by (rewrite ?Hl; change (Z.to_nat 0) with 0%nat; lia).
    change (Z.to_nat 0) with 0%nat. rewrite decide_True by lia. by rewrite Z2Nat.id by lia.
Qed.
(** A selector: the index of its descriptor and the privilege it asks for *)
Definition sel_index (sel : Z) : nat := Z.to_nat (sel / 8).
Definition sel_rpl (sel : Z) : Z := sel mod 4.
(** int n with current privilege level [cpl] passes the gate. *)
Definition int_allowed (idt : list gatedesc) (n cpl : Z) : bool :=
  match idt !! Z.to_nat n with Some g => (gd_p g =? 1) && (cpl <=? gd_dpl g) | None => false end.

(** What the type bits of an application segment say: that it holds code, and
    that it is data that may be written *)
Definition executable (d : segdesc) : bool := (sd_s d =? 1) && Z.testbit (sd_type d) 3.
Definition writable (d : segdesc) : bool := (sd_s d =? 1) && negb (Z.testbit (sd_type d) 3) && Z.testbit (sd_type d) 1.
(** A present segment over the whole address space *)
Definition flat (d : segdesc) : Prop := sd_base d = 0 /\ sd_limit d = 2 ^ 32 - 1 /\ sd_p d = 1 /\ sd_db d = 1.

(** C26: The tables that seginit and tvinit set up protect the kernel.  The code
    and data segments cover the whole address space, the user's at privilege
    level 3 and the kernel's at 0; the two code segments can be executed and not
    written, the two data segments written and not executed; the per-CPU segment
    starts at the cpu's variables and is the kernel's.  Every trap enters the
    kernel's code segment, executable and at level 0, at its own entry point.  A
    user program gets through int n for the system call alone, and every other
    gate is an interrupt gate, which turns interrupts off. *)
Theorem tables_protect vectors idt cpu_addr s : length idt = 256%nat -> length (sg_gdt s) = NSEGS ->
  let gdt := sg_gdt (seginit cpu_addr s) in
  (forall i, In i [SEG_KCODE; SEG_KDATA; SEG_UCODE; SEG_UDATA] -> exists d, gdt !! Z.to_nat i = Some d /\ flat d /\
     (sd_dpl d = if (i =? SEG_UCODE) || (i =? SEG_UDATA) then 3 else 0) /\
     executable d = (i =? SEG_KCODE) || (i =? SEG_UCODE) /\ writable d = (i =? SEG_KDATA) || (i =? SEG_UDATA)) /\
  (exists d, gdt !! sel_index (sg_gs (seginit cpu_addr s)) = Some d /\ sd_base d = u32 cpu_addr /\ writable d = true /\ sd_p d = 1 /\ sd_dpl d = 0) /\
  (forall n, 0 <= n < 256 -> exists g d, tvinit vectors idt !! Z.to_nat n = Some g /\ gd_p g = 1 /\ gd_off g = u32 (vectors n) /\
     sel_index (gd_cs g) = Z.to_nat SEG_KCODE /\ sel_rpl (gd_cs g) = 0 /\
     gdt !! sel_index (gd_cs g) = Some d /\ flat d /\ sd_dpl d = 0 /\ executable d = true /\
     int_allowed (tvinit vectors idt) n 3 = (n =? T_SYSCALL) /\ (gd_type g = if n =? T_SYSCALL then STS_TG32 else STS_IG32)).
Proof.
  intros Hidt Hg gdt. destruct s as [g ss0 esp0 gs tr]. cbn in Hg. do 7 (destruct g as [|? g]; [discriminate|]). destruct g; [|discriminate].
  split; [|split].
  - intros i Hi. cbn in Hi. unfold flat.
    destruct Hi as [<-|[<-|[<-|[<-|[]]]]]; eexists; (split; [reflexivity|]); rewrite SEG_base; repeat split; reflexivity.
  - eexists. split; [reflexivity|]. rewrite SEG_base. repeat split; reflexivity.
  - intros n Hn. pose proof (tvinit_gate vectors idt n Hidt Hn) as Eg. eexists _, _. split; [exact Eg|].
    unfold int_allowed, flat. rewrite Eg.
    destruct (n =? T_SYSCALL); (split; [reflexivity|]); (split; [by rewrite SETGATE_off|]); (split; [reflexivity|]); (split; [reflexivity|]);
      (split; [reflexivity|]); rewrite SEG_base; repeat split; reflexivity.
Qed.
(** Tables of zeros *)
Definition no_desc : segdesc := mkSegdesc 0 0 0 0 0 0 0 0 0 0 0 0 0.
Definition no_gate : gatedesc := mkGate 0 0 0 0 0 0 0 0 0.
Definition segs0 : segs := mkSegs (replicate NSEGS no_desc) 0 0 0 0.
Lemma tables_protect_witness : exists g,
  tvinit (fun n => 0x80105000 + 16 * n) (replicate 256 no_gate) !! 64%nat = Some g /\ gd_off g = 0x80105400 /\
  int_allowed (tvinit (fun n => 0x80105000 + 16 * n) (replicate 256 no_gate)) 64 3 = true.
Proof.
  destruct (tables_protect (fun n => 0x80105000 + 16 * n) (replicate 256 no_gate) 0x80112000 segs0 eq_refl eq_refl) as (_ & _ & H).
  destruct (H 64) as (g & d & E & _ & Ho & _ & _ & _ & _ & _ & _ & Ha & _); [lia|]. exists g. split; [exact E|]. split; [exact Ho|exact Ha].
Defined.

(** The stack that a trap from user mode switches to is the process's kernel
    stack, and the task state is where the task register points. *)
Theorem switch_tss_stack ts_addr kstack s : length (sg_gdt s) = NSEGS -> 0 <= kstack -> kstack + KSTACKSIZE < 2 ^ 32 ->
  let s' := switch_tss ts_addr kstack s in
  sg_esp0 s' = kstack + KSTACKSIZE /\ sel_index (sg_ss0 s') = Z.to_nat SEG_KDATA /\
  exists d, sg_gdt s' !! sel_index (sg_tr s') = Some d /\ sd_base d = u32 ts_addr /\ sd_limit d = 103 /\ sd_type d = STS_T32A /\ sd_s d = 0 /\ sd_dpl d = 0.
Proof.
  intros Hg Hk Hk2. cbn. unfold KSTACKSIZE in *. rewrite u32_small by lia. split; [done|]. split; [done|].
  eexists. split; [apply list_lookup_insert_eq; rewrite Hg; vm_compute; lia|].
  split; [apply SEG16_base|]. split; [apply SEG16_limit; lia|]. done.
Qed.
