(* ===== verification/Trapasm.v ===== *)
(** * Traps and context switches in assembly (trapasm.S, vectors.S, swtch.S)

    The instructions these files use, on the registers and the memory of one
    processor, the way the processor delivers an interrupt through a gate, and
    the code itself.  A trap leaves a struct trapframe for trap() and its return
    restores the interrupted program; swtch saves one thread and resumes
    another. *)

From S2P Require Import Prelude Params CString Segment.

Inductive reg : Set :=
| EAX | ECX | EDX | EBX | ESP | EBP | ESI | EDI | EIP | EFLAGS | CS | DS | ES | FS | GS | SS.
(** The number by which the code below tells registers apart *)
Definition reg_code (r : reg) : nat :=
  match r with
  | EAX => 0 | ECX => 1 | EDX => 2 | EBX => 3 | ESP => 4 | EBP => 5 | ESI => 6 | EDI => 7 | EIP => 8 | EFLAGS => 9
  | CS => 10 | DS => 11 | ES => 12 | FS => 13 | GS => 14 | SS => 15
  end.
Definition same_reg (a b : reg) : bool := Nat.eqb (reg_code a) (reg_code b).
Record machine : Type := mkM { rg : reg -> Z; mm : mem }.
Definition put (r : reg) (v : Z) (m : machine) : machine := mkM (fun x => if same_reg x r then v else rg m x) (mm m).
Definition is_seg (r : reg) : bool := match r with CS | DS | ES | FS | GS | SS => true | _ => false end.
(** A register of its width *)
Definition fit (r : reg) (v : Z) : Z := if is_seg r then u16 v else u32 v.

(** A segment register is pushed zero-extended; processors that write only its
    low half leave the padding of struct trapframe as it was. *)
Definition push (v : Z) (m : machine) : machine :=
  let sp := u32 (rg m ESP - 4) in
  mkM (fun x => if same_reg x ESP then sp else rg m x) (st32 (mm m) sp v).
(** The word on the stack, and the machine with it popped *)
Definition top (m : machine) : Z := ld32 (mm m) (rg m ESP).
Definition drop_word (m : machine) : machine := put ESP (u32 (rg m ESP + 4)) m.
Definition pop (r : reg) (m : machine) : machine := put r (fit r (top m)) (drop_word m).

Inductive operand : Set := Reg (r : reg) | Imm (v : Z).
Inductive instr : Set :=
| Push (o : operand)
| Pop (r : reg)
| Pushal
| Popal
| Movl (dst : reg) (src : reg)
| Movw (dst : reg) (o : operand)      (** 16 bits; the upper half of dst stays *)
| Load (dst base : reg) (off : Z)      (** movl off(base), dst *)
| Store (src base : reg)               (** movl src, (base) *)
| AddEsp (n : Z)
| Ret
| Iret.
Definition value (o : operand) (m : machine) : Z := match o with Reg r => rg m r | Imm v => v end.
Definition step (i : instr) (m : machine) : machine :=
  match i with
  | Push o => push (value o m) m
  | Pop r => pop r m
  | Pushal =>
      let sp := rg m ESP in
      push (rg m EDI) (push (rg m ESI) (push (rg m EBP) (push sp (push (rg m EBX) (push (rg m EDX) (push (rg m ECX) (push (rg m EAX) m)))))))
  | Popal => pop EAX (pop ECX (pop EDX (pop EBX (drop_word (pop EBP (pop ESI (pop EDI m)))))))
  | Movl dst src => put dst (rg m src) m
  | Movw dst o => if is_seg dst then put dst (u16 (value o m)) m else put dst (rg m dst / 2 ^ 16 * 2 ^ 16 + u16 (value o m)) m
  | Load dst base off => put dst (ld32 (mm m) (u32 (rg m base + off))) m
  | Store src base => mkM (rg m) (st32 (mm m) (rg m base) (rg m src))
  | AddEsp n => put ESP (u32 (rg m ESP + n)) m
  | Ret => pop EIP m
  | Iret =>
      let cpl := rg m CS mod 4 in
      let m1 := pop EFLAGS (pop CS (pop EIP m)) in
      if cpl <? rg m1 CS mod 4 then put ESP (top m1) (pop SS (drop_word m1)) else m1
  end.
Definition run_code (code : list instr) (m : machine) : machine := fold_left (fun m i => step i m) code m.

(** ** The code *)
Definition swtch : list instr :=
  [Load EAX ESP 4; Load EDX ESP 8; Push (Reg EBP); Push (Reg EBX); Push (Reg ESI); Push (Reg EDI);
   Store ESP EAX; Movl ESP EDX; Pop EDI; Pop ESI; Pop EBX; Pop EBP; Ret].
(** The traps whose entry point leaves the error code to the processor *)
Definition has_error (n : Z) : bool := (n =? 8) || ((10 <=? n) && (n <=? 14)) || (n =? 17).
Definition vector (n : Z) : list instr := (if has_error n then [] else [Push (Imm 0)]) ++ [Push (Imm n)].
(** Up to the call of trap, which pushes [ret] *)
Definition alltraps (ret : Z) : list instr :=
  [Push (Reg DS); Push (Reg ES); Push (Reg FS); Push (Reg GS); Pushal;
   Movw EAX (Imm (Z.shiftl SEG_KDATA 3)); Movw DS (Reg EAX); Movw ES (Reg EAX);
   Movw EAX (Imm (Z.shiftl SEG_KCPU 3)); Movw FS (Reg EAX); Movw GS (Reg EAX);
   Push (Reg ESP); Push (Imm ret)].
Definition trapret : list instr := [Popal; Pop GS; Pop FS; Pop ES; Pop DS; AddEsp 8; Iret].
(** After trap has returned *)
Definition after_trap : list instr := AddEsp 4 :: trapret.

(** ** Delivery of an interrupt through a gate *)
(** The exceptions with which the processor pushes an error code, as its manual
    lists them: double fault, invalid TSS, segment not present, stack fault,
    general protection, page fault and alignment check *)
Definition cpu_errors : list Z := [8; 10; 11; 12; 13; 14; 17].
Lemma has_error_cpu n : has_error n = existsb (Z.eqb n) cpu_errors.
Proof. unfold has_error, cpu_errors. cbn [existsb]. apply eq_true_iff_eq. rewrite !orb_true_iff, andb_true_iff. lia. Qed.
Definition deliver (s : segs) (g : gatedesc) (err : option Z) (m : machine) : machine :=
  let m1 :=
    if rg m CS mod 4 =? 3 then push (rg m ESP) (push (rg m SS) (put SS (sg_ss0 s) (put ESP (sg_esp0 s) m))) else m in
  let m2 := push (rg m EIP) (push (rg m CS) (push (rg m EFLAGS) m1)) in
  let m3 := match err with Some e => push e m2 | None => m2 end in
  let m4 := if gd_type g =? STS_IG32 then put EFLAGS (clrf (rg m3 EFLAGS) FL_IF) m3 else m3 in
  put EIP (gd_off g) (put CS (gd_cs g) m4).
(** From the trap to the call of trap *)
Definition enter (s : segs) (g : gatedesc) (n : Z) (err : option Z) (ret : Z) (m : machine) : machine :=
  run_code (vector n ++ alltraps ret) (deliver s g err m).

(** ** Stacks *)
(** Words in memory from address [a] on *)
Definition words_at (m : mem) (a : Z) (ws : list Z) : Prop := forall i w, ws !! i = Some w -> ld32 m (a + 4 * Z.of_nat i) = w.
Definition word (w : Z) : Prop := 0 <= w < 2 ^ 32.
(** The stack pointer and the memory after a push *)
Definition pushw (k : Z * mem) (w : Z) : Z * mem := (u32 (k.1 - 4), st32 k.2 (u32 (k.1 - 4)) w).
Definition pushes (ws : list Z) (k : Z * mem) : Z * mem := fold_left pushw ws k.

Lemma words_at_cons m a w ws : words_at m a (w :: ws) <-> ld32 m a = w /\ words_at m (a + 4) ws.
Proof.
  split.
  - intros H. split; [specialize (H 0%nat w eq_refl); by rewrite Z.mul_0_r, Z.add_0_r in H|].
    intros i x Hi. specialize (H (S i) x Hi). rewrite <- H. f_equal. lia.
  - intros [H0 H] [|i] x Hi; [injection Hi as <-; by rewrite Z.mul_0_r, Z.add_0_r|]. rewrite <- (H i x Hi). f_equal. lia.
Qed.
Lemma words_at_frame m m' a ws : (forall b, a <= b < a + 4 * Z.of_nat (length ws) -> ld8 m' b = ld8 m b) -> words_at m a ws -> words_at m' a ws.
Proof.
  intros Hf H i w Hi. rewrite <- (H i w Hi). apply lookup_lt_Some in Hi. unfold ld32. rewrite !Hf by lia. done.
Qed.
Lemma pushes_spec ws : forall sp m old, Forall word ws -> 4 * Z.of_nat (length ws) <= sp < 2 ^ 32 -> words_at m sp old ->
  let k := pushes ws (sp, m) in
  k.1 = sp - 4 * Z.of_nat (length ws) /\ words_at k.2 k.1 (rev ws ++ old) /\
  (forall b, b < k.1 \/ sp <= b -> ld8 k.2 b = ld8 m b).
Proof.
  induction ws as [|w ws IH]; intros sp m old Hw Hsp Hold; cbn [length] in Hsp.
  { cbn. rewrite Z.sub_0_r. done. }
  apply Forall_cons in Hw as [Hw Hws]. unfold pushes. cbn zeta.
  change (fold_left pushw (w :: ws) (sp, m)) with (fold_left pushw ws (u32 (sp - 4), st32 m (u32 (sp - 4)) w)). rewrite u32_small by lia.
  destruct (IH (sp - 4) (st32 m (sp - 4) w) (w :: old) Hws ltac:(lia)) as (E1 & E2 & E3).
  - apply words_at_cons. split; [rewrite ld32_st32_same; by apply u32_small|].
    replace (sp - 4 + 4) with sp by lia. eapply words_at_frame; [|exact Hold].
    intros b Hb. rewrite ld8_st32. rewrite (proj2 (Z.ltb_ge b _)), andb_false_r by lia. done.
  - unfold pushes in *. split; [rewrite E1; cbn [length]; lia|]. split; [cbn [rev]; rewrite <- app_assoc; exact E2|].
    intros b Hb. rewrite E3 by (rewrite E1 in *; cbn [length] in Hb; lia). rewrite ld8_st32.
    destruct (Z.leb_spec (sp - 4) b), (Z.ltb_spec b (sp - 4 + 4)); cbn [andb]; rewrite ?E1 in Hb; cbn [length] in Hb; lia || done.
Qed.

(** ** Instructions on a stack *)
(** The machine has the stack pointer and memory [k], and [u] in the other registers. *)
Definition state (m : machine) (k : Z * mem) (u : reg -> Z) : Prop :=
  (rg m ESP, mm m) = k /\ forall r, r <> ESP -> rg m r = u r.
Lemma same_reg_spec a b : reflect (a = b) (same_reg a b).
Proof. destruct a, b; cbn; constructor; congruence. Qed.
Lemma state_self m : state m (rg m ESP, mm m) (rg m).
Proof. done. Qed.
Lemma state_push v m k u : state m k u -> state (push v m) (pushw k v) u.
Proof.
  intros [<- H]. split; [done|]. intros r Hr. cbn [put push rg mm]. destruct (same_reg_spec r ESP); [done|by apply H].
Qed.
Lemma state_put r v m k u : r <> ESP -> state m k u -> state (put r v m) k (fun x => if same_reg x r then v else u x).
Proof.
  intros Hr [<- H]. split; [cbn [put push rg mm]; destruct (same_reg_spec ESP r); [congruence|done]|].
  intros x Hx. cbn [put push rg mm]. destruct (same_reg x r); [done|by apply H].
Qed.
Lemma state_esp v m k u : state m k u -> state (put ESP v m) (v, k.2) u.
Proof. intros [<- H]. split; [done|]. intros x Hx. cbn [put push rg mm]. destruct (same_reg_spec x ESP); [done|by apply H]. Qed.
Definition opval (u : reg -> Z) (o : operand) : Z := match o with Reg r => u r | Imm v => v end.
Definition not_esp (o : operand) : Prop := match o with Reg r => r <> ESP | Imm _ => True end.
Lemma run_app c1 c2 m : run_code (c1 ++ c2) m = run_code c2 (run_code c1 m).
Proof. apply fold_left_app. Qed.
Lemma run_one i m : run_code [i] m = step i m.
Proof. done. Qed.
Lemma run_pushes os : Forall not_esp os -> forall m k u, state m k u -> state (run_code (map Push os) m) (pushes (map (opval u) os) k) u.
Proof.
  induction 1 as [|o os Ho Hos IH]; intros m k u Hs; [done|]. cbn [map run_code fold_left step pushes].
  replace (value o m) with (opval u o); [apply IH; by apply state_push|].
  destruct o as [r|v]; [|done]. destruct Hs as [_ H]. cbn. symmetry. by apply H.
Qed.
Lemma run_pushal m k u : state m k u ->
  state (step Pushal m) (pushes [u EAX; u ECX; u EDX; u EBX; k.1; u EBP; u ESI; u EDI] k) u.
Proof.
  intros Hs. pose proof Hs as [<- H]. cbn [step pushes fold_left fst]. rewrite <- !H by done. do 8 apply state_push. done.
Qed.
Definition load_segs : list instr :=
  [Movw EAX (Imm (Z.shiftl SEG_KDATA 3)); Movw DS (Reg EAX); Movw ES (Reg EAX);
   Movw EAX (Imm (Z.shiftl SEG_KCPU 3)); Movw FS (Reg EAX); Movw GS (Reg EAX)].
(** The data segments are the kernel's and the CPU's. *)
Definition kernel_segs (u : reg -> Z) : Prop :=
  u DS = Z.shiftl SEG_KDATA 3 /\ u ES = Z.shiftl SEG_KDATA 3 /\ u FS = Z.shiftl SEG_KCPU 3 /\ u GS = Z.shiftl SEG_KCPU 3.
Lemma low_word x v : 0 <= v < 2 ^ 16 -> u16 (x / 2 ^ 16 * 2 ^ 16 + v) = v.
Proof. intros Hv. unfold u16. rewrite Z.add_comm, Z.mod_add by lia. by apply Z.mod_small. Qed.
Lemma run_load_segs m k u : state m k u -> exists u', state (run_code load_segs m) k u' /\ kernel_segs u'.
Proof.
  intros Hs. eexists. split; [unfold load_segs; cbn [run_code fold_left step is_seg]; do 6 (apply state_put; [done|]); exact Hs|].
  unfold kernel_segs. cbn [same_reg reg_code Nat.eqb value put rg].
  repeat split; rewrite low_word; first [reflexivity | unfold u16; split; [by apply Z.mod_pos_bound | by apply Z.mod_pos_bound]].
Qed.

(** ** Traps *)
(** struct trapframe, a word each; the last two only for a trap from user mode *)
Definition trapframe_words (u : reg -> Z) (oesp trapno err : Z) : list Z :=
  [u EDI; u ESI; u EBP; oesp; u EBX; u EDX; u ECX; u EAX; u GS; u FS; u ES; u DS; trapno; err; u EIP; u CS; u EFLAGS] ++
  (if u CS mod 4 =? 3 then [u ESP; u SS] else []).
Definition regs_ok (u : reg -> Z) : Prop := forall r, 0 <= u r < (if is_seg r then 2 ^ 16 else 2 ^ 32).
(** The processor pushes an error code for just those exceptions. *)
Definition error_fits (n : Z) (err : option Z) : Prop := is_Some err <-> In n cpu_errors.
Lemma error_fits_has n err : error_fits n err -> has_error n = match err with Some _ => true | None => false end.
Proof.
  intros H. rewrite has_error_cpu. apply eq_true_iff_eq. rewrite existsb_exists. split.
  - intros (x & Hx & E). apply Z.eqb_eq in E. subst x. apply H in Hx as [e ->]. done.
  - intros He. exists n. split; [apply H; by destruct err|apply Z.eqb_refl].
Qed.
(** The stack the trap goes to: the process's kernel stack, or the current one *)
Definition trap_stack (s : segs) (m : machine) : Z := if rg m CS mod 4 =? 3 then sg_esp0 s else rg m ESP.
Definition user_part (m : machine) : list Z := if rg m CS mod 4 =? 3 then [rg m SS; rg m ESP] else [].

Lemma deliver_state s g err m :
  exists u, state (deliver s g err m)
    (pushes (user_part m ++ [rg m EFLAGS; rg m CS; rg m EIP] ++ match err with Some e => [e] | None => [] end) (trap_stack s m, mm m)) u /\
    forall r, In r [DS; ES; FS; GS; EAX; ECX; EDX; EBX; EBP; ESI; EDI] -> u r = rg m r.
Proof.
  unfold deliver, user_part, trap_stack.
  set (m1 := if _ : bool then push _ _ else m).
  assert (H1 : exists u, state m1 (pushes (if rg m CS mod 4 =? 3 then [rg m SS; rg m ESP] else []) (if rg m CS mod 4 =? 3 then sg_esp0 s else rg m ESP, mm m)) u /\
    forall r, r <> ESP -> r <> SS -> u r = rg m r).
  { unfold m1. destruct (rg m CS mod 4 =? 3); [|exists (rg m); split; [apply state_self|done]].
    eexists. split; [cbn [pushes fold_left]; do 2 apply state_push; apply state_put; [done|]; apply (state_esp _ _ _ _ (state_self m))|].
    intros r Hr Hs. cbv beta. by destruct (same_reg_spec r SS). }
  destruct H1 as (u & Hs & Hu). unfold pushes in *. rewrite !fold_left_app. set (k := fold_left pushw _ _) in *.
  set (m3 := match err with Some _ => _ | None => _ end).
  assert (H3 : state m3 (fold_left pushw (match err with Some e => [e] | None => [] end) (fold_left pushw [rg m EFLAGS; rg m CS; rg m EIP] k)) u).
  { unfold m3. destruct err; cbn [fold_left]; repeat apply state_push; exact Hs. }
  assert (H4 : exists u', state (if gd_type g =? STS_IG32 then put EFLAGS (clrf (rg m3 EFLAGS) FL_IF) m3 else m3)
      (fold_left pushw (match err with Some e => [e] | None => [] end) (fold_left pushw [rg m EFLAGS; rg m CS; rg m EIP] k)) u' /\
      forall r, r <> EFLAGS -> u' r = u r).
  { destruct (gd_type g =? STS_IG32); [|by exists u]. eexists. split; [by apply state_put|]. intros r Hr. cbv beta. by destruct (same_reg_spec r EFLAGS). }
  destruct H4 as (u' & H4 & Hu'). eexists. split; [apply state_put; [done|]; apply state_put; [done|exact H4]|].
  intros r Hr. cbn in Hr. repeat (destruct Hr as [<-|Hr]; [cbn; by rewrite Hu', Hu|]). done.
Qed.
Lemma run_vector n m k u : state m k u -> state (run_code (vector n) m) (pushes ((if has_error n then [] else [0]) ++ [n]) k) u.
Proof.
  intros Hs. unfold vector. destruct (has_error n); [apply (run_pushes [Imm n])|apply (run_pushes [Imm 0; Imm n])];
    first [exact Hs | by repeat constructor].
Qed.
Lemma run_alltraps ret m k u : state m k u ->
  let k1 := pushes [u DS; u ES; u FS; u GS] k in
  let k2 := pushes [u EAX; u ECX; u EDX; u EBX; k1.1; u EBP; u ESI; u EDI] k1 in
  exists u', state (run_code (alltraps ret) m) (pushes [k2.1; ret] k2) u' /\ kernel_segs u'.
Proof.
  intros H1. cbn zeta.
  change (alltraps ret) with (map Push [Reg DS; Reg ES; Reg FS; Reg GS] ++ [Pushal] ++ load_segs ++ [Push (Reg ESP)] ++ map Push [Imm ret]).
  rewrite !run_app, (run_one Pushal), (run_one (Push (Reg ESP))).
  pose proof (run_pushes [Reg DS; Reg ES; Reg FS; Reg GS] ltac:(by repeat constructor) _ _ _ H1) as H2.
  change (map (opval u) [Reg DS; Reg ES; Reg FS; Reg GS]) with [u DS; u ES; u FS; u GS] in H2.
  generalize dependent (pushes [u DS; u ES; u FS; u GS] k). intros k1 H2.
  generalize dependent (run_code (map Push [Reg DS; Reg ES; Reg FS; Reg GS]) m). intros mb H2.
  apply run_pushal in H2. generalize dependent (step Pushal mb). intros mc H2.
  generalize dependent (pushes [u EAX; u ECX; u EDX; u EBX; k1.1; u EBP; u ESI; u EDI] k1). intros k2 H2.
  apply run_load_segs in H2 as (u' & H2 & Hk). generalize dependent (run_code load_segs mc). intros md H2. exists u'. split; [|exact Hk].
  replace k2.1 with (rg md ESP) by (destruct H2 as [<- _]; done).
  apply (state_push (rg md ESP)) in H2. apply (run_pushes [Imm ret] ltac:(by repeat constructor)) in H2. exact H2.
Qed.
Lemma enter_pushes s g n err ret m : error_fits n err ->
  let k1 := pushes (user_part m ++ [rg m EFLAGS; rg m CS; rg m EIP; default 0 err; n; rg m DS; rg m ES; rg m FS; rg m GS]) (trap_stack s m, mm m) in
  let k2 := pushes [rg m EAX; rg m ECX; rg m EDX; rg m EBX; k1.1; rg m EBP; rg m ESI; rg m EDI] k1 in
  (rg (enter s g n err ret m) ESP, mm (enter s g n err ret m)) = pushes [k2.1; ret] k2 /\ kernel_segs (rg (enter s g n err ret m)).
Proof.
  intros He%error_fits_has. destruct (deliver_state s g err m) as (u & Hs & Hu). unfold enter. rewrite run_app.
  generalize dependent (deliver s g err m). intros ma Hs. apply (run_vector n), (run_alltraps ret) in Hs as (u' & Hs & Hk).
  assert (Ek : pushes [u DS; u ES; u FS; u GS] (pushes ((if has_error n then [] else [0]) ++ [n])
      (pushes (user_part m ++ [rg m EFLAGS; rg m CS; rg m EIP] ++ match err with Some e => [e] | None => [] end) (trap_stack s m, mm m))) =
    pushes (user_part m ++ [rg m EFLAGS; rg m CS; rg m EIP; default 0 err; n; rg m DS; rg m ES; rg m FS; rg m GS]) (trap_stack s m, mm m)).
  { rewrite !Hu by (cbn; tauto). unfold pushes. rewrite <- !fold_left_app. f_equal. rewrite <- !app_assoc. rewrite He.
    by destruct err. }
  rewrite Ek, !(Hu EAX), !(Hu ECX), !(Hu EDX), !(Hu EBX), !(Hu EBP), !(Hu ESI), !(Hu EDI) in Hs by (cbn; tauto). destruct Hs as [Hs Hr]. split; [exact Hs|].
  unfold kernel_segs. rewrite !Hr by done. exact Hk.
Qed.

(** ** Pops *)
Definition popm (o : option reg) (m : machine) : machine := match o with Some r => pop r m | None => drop_word m end.
Definition upd (r : reg) (v : Z) (u : reg -> Z) : reg -> Z := fun x => if same_reg x r then v else u x.
Fixpoint assign (os : list (option reg)) (ws : list Z) (u : reg -> Z) : reg -> Z :=
  match os, ws with
  | Some r :: os, w :: ws => assign os ws (upd r (fit r w) u)
  | None :: os, _ :: ws => assign os ws u
  | _, _ => u
  end.
Lemma state_popm o w m sp M u : o <> Some ESP -> state m (sp, M) u -> ld32 M sp = w -> 0 <= sp -> sp + 4 < 2 ^ 32 ->
  state (popm o m) (sp + 4, M) (match o with Some r => upd r (fit r w) u | None => u end).
Proof.
  intros Ho Hs Hw H0 H1. assert (Hd : state (drop_word m) (sp + 4, M) u).
  { unfold drop_word. replace (u32 (rg m ESP + 4)) with (sp + 4); [exact (state_esp (sp + 4) m (sp, M) u Hs)|].
    destruct Hs as [[= -> _] _]. by rewrite u32_small by lia. }
  destruct o as [r|]; [|exact Hd]. cbn [popm]. unfold pop.
  replace (top m) with w; [apply state_put; [congruence|exact Hd]|]. unfold top. by destruct Hs as [[= -> ->] _].
Qed.
Lemma run_pops os : forall ws m sp M u, length os = length ws -> Forall (fun o => o <> Some ESP) os -> state m (sp, M) u -> words_at M sp ws ->
  0 <= sp -> sp + 4 * Z.of_nat (length ws) < 2 ^ 32 ->
  state (fold_left (fun m o => popm o m) os m) (sp + 4 * Z.of_nat (length ws), M) (assign os ws u).
Proof.
  induction os as [|o os IH]; intros [|w ws] m sp M u Hlen Hos Hs Hw H0 H1; try done.
  { cbn. by rewrite Z.add_0_r. }
  apply Forall_cons in Hos as [Ho Hos]. apply words_at_cons in Hw as [Hw Hws]. cbn [length] in *.
  pose proof (state_popm o w m sp M u Ho Hs Hw H0 ltac:(lia)) as Hs1. cbn [fold_left].
  replace (sp + 4 * Z.of_nat (S (length ws))) with (sp + 4 + 4 * Z.of_nat (length ws)) by lia.
  destruct o as [r|]; cbn [assign]; apply IH; first [done | lia].
Qed.
(** trapret up to the iret, and the words that iret pops in every case *)
Definition frame_pops : list (option reg) :=
  [Some EDI; Some ESI; Some EBP; None; Some EBX; Some EDX; Some ECX; Some EAX; Some GS; Some FS; Some ES; Some DS].
Definition iret_pops : list (option reg) := [Some EIP; Some CS; Some EFLAGS].
Lemma add_esp n m sp M u : state m (sp, M) u -> 0 <= sp + n < 2 ^ 32 -> state (step (AddEsp n) m) (sp + n, M) u.
Proof.
  intros Hs Hn. cbn [step]. replace (u32 (rg m ESP + n)) with (sp + n); [exact (state_esp _ m (sp, M) u Hs)|].
  destruct Hs as [[= -> _] _]. by rewrite u32_small.
Qed.
Lemma after_trap_code m :
  run_code after_trap m = step Iret (step (AddEsp 8) (fold_left (fun m o => popm o m) frame_pops (step (AddEsp 4) m))).
Proof. reflexivity. Qed.
Lemma step_iret m : step Iret m =
  let m1 := fold_left (fun m o => popm o m) iret_pops m in
  if rg m CS mod 4 <? rg m1 CS mod 4 then put ESP (top m1) (pop SS (drop_word m1)) else m1.
Proof. reflexivity. Qed.
Lemma words_at_app m a l1 l2 : words_at m a (l1 ++ l2) <-> words_at m a l1 /\ words_at m (a + 4 * Z.of_nat (length l1)) l2.
Proof.
  revert a. induction l1 as [|w l1 IH]; intros a; cbn [app length].
  - rewrite Z.mul_0_r, Z.add_0_r. split; [intros H; split; [intros [] ? ?; done|done]|tauto].
  - rewrite !words_at_cons, IH. replace (a + 4 + 4 * Z.of_nat (length l1)) with (a + 4 * Z.of_nat (S (length l1))) by lia. tauto.
Qed.
Lemma fit_ok u r : regs_ok u -> fit r (u r) = u r.
Proof. intros H. specialize (H r). unfold fit, u16, u32. destruct (is_seg r); by apply Z.mod_small. Qed.
Definition common_words (u : reg -> Z) (oesp : Z) : list Z :=
  [u EDI; u ESI; u EBP; oesp; u EBX; u EDX; u ECX; u EAX; u GS; u FS; u ES; u DS].
Lemma trapframe_split u oesp n e :
  trapframe_words u oesp n e = common_words u oesp ++ [n; e] ++ [u EIP; u CS; u EFLAGS] ++ (if u CS mod 4 =? 3 then [u ESP; u SS] else []).
Proof. done. Qed.
Lemma after_trap_spec m tf u oesp n e : regs_ok u -> words_at (mm m) tf (trapframe_words u oesp n e) -> rg m ESP = tf - 4 ->
  rg m CS mod 4 = 0 -> u CS mod 4 = 0 \/ u CS mod 4 = 3 -> 4 <= tf -> tf + 76 < 2 ^ 32 ->
  let m' := run_code after_trap m in
  (forall r, r <> ESP -> r <> SS -> rg m' r = u r) /\
  (if u CS mod 4 =? 3 then rg m' ESP = u ESP /\ rg m' SS = u SS else rg m' ESP = tf + 68 /\ rg m' SS = rg m SS).
Proof.
  intros Hu Hw Hsp Hcpl Hcs H0 H1. cbn zeta. rewrite after_trap_code. pose proof (fun r => fit_ok u r Hu) as Hfit.
  rewrite trapframe_split in Hw. apply words_at_app in Hw as [Hw1 Hw]. apply words_at_app in Hw as [_ Hw]. apply words_at_app in Hw as [Hw2 Hw3].
  cbn [common_words length] in Hw2, Hw3. change (Z.of_nat 12) with 12 in *. change (Z.of_nat 2) with 2 in *. change (Z.of_nat 3) with 3 in *.
  assert (Hs : state (step (AddEsp 4) m) (tf, mm m) (rg m)).
  { replace tf with (tf - 4 + 4) at 1 by lia. apply add_esp; [split; [by rewrite Hsp|done]|lia]. }
  assert (Hcs2 : rg m CS = rg m CS) by done. revert Hs. generalize (step (AddEsp 4) m). intros ma Hs.
  apply (run_pops frame_pops (common_words u oesp)) in Hs; [|done|by repeat constructor|exact Hw1|lia|cbn; lia].
  cbn [common_words length] in Hs. change (Z.of_nat 12) with 12 in Hs. revert Hs. generalize (fold_left (fun m o => popm o m) frame_pops ma). intros mb Hs.
  apply (add_esp 8) in Hs; [|lia]. revert Hs. generalize (step (AddEsp 8) mb). intros mc Hs. rewrite step_iret. cbn zeta.
  assert (Ecs : rg mc CS = rg m CS) by (destruct Hs as [_ ->]; done). rewrite Ecs, Hcpl.
  apply (run_pops iret_pops [u EIP; u CS; u EFLAGS]) in Hs; [|done|by repeat constructor|replace (tf + 4 * 12 + 8) with (tf + 4 * 12 + 4 * 2) by lia; exact Hw2|lia|cbn; lia].
  cbn [length] in Hs. change (Z.of_nat 3) with 3 in Hs. revert Hs. generalize (fold_left (fun m o => popm o m) iret_pops mc). intros md Hs.
  pose proof Hs as [[= Esp Em] Hr]. cbn [assign frame_pops iret_pops common_words] in Hr.
  assert (Hall : forall r, r <> ESP -> r <> SS -> rg md r = u r).
  { intros r H2 H3. rewrite Hr by done. unfold upd; destruct r; cbn [same_reg reg_code Nat.eqb]; rewrite ?Hfit; done. }
  rewrite (Hall CS) by done.
  destruct (Z.eqb_spec (u CS mod 4) 3) as [E3|E3].
  - rewrite E3. cbn [Z.ltb Z.compare Pos.compare Pos.compare_cont]. apply words_at_cons in Hw3 as [Hwsp Hw3]. apply words_at_cons in Hw3 as [Hwss _].
    assert (Esp1 : rg md ESP = tf + 68) by (rewrite Esp; lia).
    assert (Etop : top md = u ESP) by (unfold top; rewrite Em, Esp1, <- Hwsp; f_equal; lia).
    assert (Ess : fit SS (top (drop_word md)) = u SS).
    { rewrite <- (Hfit SS). f_equal. unfold top, drop_word. cbn. rewrite Em, Esp1, u32_small, <- Hwss by lia. f_equal. lia. }
    unfold pop. rewrite Ess, Etop. split; [|done]. intros r H2 H3. rewrite <- (Hall r H2 H3). destruct r; done.
  - destruct Hcs as [E0|]; [|done]. rewrite E0. cbn [Z.ltb Z.compare]. split; [done|]. split; [rewrite Esp; lia|]. by rewrite Hr.
Qed.
Lemma regs_word u r : regs_ok u -> word (u r).
Proof. intros H. specialize (H r). unfold word. destruct (is_seg r); lia. Qed.
Ltac forall_words := repeat first [apply List.Forall_nil | apply List.Forall_cons].
Lemma enter_frame s g n err ret m : regs_ok (rg m) -> error_fits n err -> word n -> word (default 0 err) -> word ret ->
  84 <= trap_stack s m < 2 ^ 32 ->
  let m1 := enter s g n err ret m in
  let tf := trap_stack s m - 4 * Z.of_nat (length (trapframe_words (rg m) 0 n 0)) in
  rg m1 ESP = tf - 8 /\ ld32 (mm m1) (tf - 4) = tf /\ words_at (mm m1) tf (trapframe_words (rg m) (tf + 32) n (default 0 err)) /\
  (forall b, b < tf - 8 \/ trap_stack s m <= b -> ld8 (mm m1) b = ld8 (mm m) b) /\ kernel_segs (rg m1).
Proof.
  intros Hr He Hn Herr Hret Hst. cbn zeta. destruct (enter_pushes s g n err ret m He) as [E Hk]. cbn zeta in E.
  set (L1 := user_part m ++ _) in E. pose proof (fun r => regs_word (rg m) r Hr) as Hw.
  assert (HL1 : Forall word L1) by (unfold L1, user_part; destruct (rg m CS mod 4 =? 3); cbn [app]; forall_words; first [apply Hw | assumption]).
  assert (Hlen : Z.of_nat (length (trapframe_words (rg m) 0 n 0)) = Z.of_nat (length L1) + 8 /\ (length L1 <= 11)%nat).
  { unfold L1, user_part, trapframe_words. rewrite !length_app. destruct (rg m CS mod 4 =? 3); cbn; lia. }
  destruct Hlen as [-> Hl]. set (st := trap_stack s m) in *. set (l := Z.of_nat (length L1)) in *.
  assert (Hl' : 0 <= l <= 11) by (unfold l; lia).
  destruct (pushes_spec L1 st (mm m) [] HL1 ltac:(fold l; lia) ltac:(intros [] ? ?; done)) as (P1 & W1 & F1).
  rewrite app_nil_r in W1. destruct (pushes L1 (st, mm m)) as [sp1 M1]. cbn [fst snd] in *. fold l in P1.
  set (L2 := [rg m EAX; _; _; _; sp1; _; _; _]) in E.
  assert (HL2 : Forall word L2) by (unfold L2; forall_words; first [apply Hw | unfold word; lia]).
  destruct (pushes_spec L2 sp1 M1 (rev L1) HL2 ltac:(cbn [length L2]; lia) W1) as (P2 & W2 & F2).
  destruct (pushes L2 (sp1, M1)) as [sp2 M2]. cbn [fst snd length L2] in *.
  destruct (pushes_spec [sp2; ret] sp2 M2 (rev L2 ++ rev L1)) as (P3 & W3 & F3); [|cbn [length]; lia|exact W2|].
  { forall_words; [unfold word; lia|done]. }
  destruct (pushes [sp2; ret] (sp2, M2)) as [sp3 M3]. cbn [fst snd length rev app] in *. injection E as Esp Em. rewrite Esp, Em.
  apply words_at_cons in W3 as [_ W3]. apply words_at_cons in W3 as [W3 W4].
  replace (sp3 + 4) with (st - 4 * (l + 8) - 4) in W3 by lia. replace (sp3 + 4 + 4) with (st - 4 * (l + 8)) in W4 by lia.
  split; [lia|]. split; [rewrite W3; lia|]. replace (st - 4 * (l + 8) + 32) with sp1 by lia.
  split; [unfold trapframe_words; unfold L1, user_part in W4; destruct (rg m CS mod 4 =? 3); exact W4|].
  split; [|exact Hk]. intros b Hb. rewrite F3, F2, F1 by lia. done.
Qed.

(** C8: A trap can be returned from: whatever registers a program has when a
    trap or system call interrupts it, in user mode or in the kernel, trap() is
    called with a pointer to a struct trapframe that holds them.  From user mode
    the frame is at the top of the stack that the task state names, esp0, which
    switchuvm sets to the process's kernel stack; in the kernel it is below the
    interrupted stack pointer.  No byte outside the frame and the two words under
    it is changed, and the data segments are the kernel's.  When trap() returns,
    the program goes on with exactly the registers, stack and flags that the
    frame then holds: its own, if trap() has not changed them. *)
Theorem trap_round_trip s g n err ret m : regs_ok (rg m) -> error_fits n err -> word n -> word (default 0 err) -> word ret ->
  rg m CS mod 4 = 0 \/ rg m CS mod 4 = 3 -> 84 <= trap_stack s m < 2 ^ 32 - 8 ->
  let m1 := enter s g n err ret m in
  let tf := rg m1 ESP + 8 in
  tf = (if rg m CS mod 4 =? 3 then sg_esp0 s - 76 else rg m ESP - 68) /\
  ld32 (mm m1) (rg m1 ESP + 4) = tf /\ words_at (mm m1) tf (trapframe_words (rg m) (tf + 32) n (default 0 err)) /\
  (forall b, b < tf - 8 \/ (if rg m CS mod 4 =? 3 then sg_esp0 s else rg m ESP) <= b -> ld8 (mm m1) b = ld8 (mm m) b) /\
  kernel_segs (rg m1) /\
  forall m2 u oesp n' e', rg m2 ESP = rg m1 ESP + 4 -> rg m2 CS mod 4 = 0 -> regs_ok u -> u CS mod 4 = rg m CS mod 4 ->
    words_at (mm m2) tf (trapframe_words u oesp n' e') ->
    let m3 := run_code after_trap m2 in
    (forall r, r <> ESP -> r <> SS -> rg m3 r = u r) /\
    (if rg m CS mod 4 =? 3 then rg m3 ESP = u ESP /\ rg m3 SS = u SS else rg m3 ESP = rg m ESP /\ rg m3 SS = rg m2 SS).
Proof.
  intros Hr He Hn Herr Hret Hcs Hst. cbn zeta.
  destruct (enter_frame s g n err ret m Hr He Hn Herr Hret ltac:(lia)) as (Esp & Earg & Hw & Hf & Hk). cbn zeta in Esp, Earg, Hw, Hf.
  set (len := Z.of_nat (length (trapframe_words (rg m) 0 n 0))) in *.
  assert (Hlen : len = if rg m CS mod 4 =? 3 then 19 else 17).
  { unfold len, trapframe_words. rewrite length_app. by destruct (rg m CS mod 4 =? 3). }
  replace (rg (enter s g n err ret m) ESP + 4) with (trap_stack s m - 4 * len - 4) by lia.
  replace (rg (enter s g n err ret m) ESP + 8) with (trap_stack s m - 4 * len) by lia.
  split; [unfold trap_stack; destruct (rg m CS mod 4 =? 3); lia|].
  split; [exact Earg|]. split; [exact Hw|]. split; [exact Hf|]. split; [exact Hk|]. intros m2 u oesp n' e' E2 Hc2 Hu Hucs Hw2.
  destruct (after_trap_spec m2 (trap_stack s m - 4 * len) u oesp n' e' Hu Hw2) as [H1 H2]; [lia|done|by rewrite Hucs| | |].
  - destruct (rg m CS mod 4 =? 3); lia.
  - destruct (rg m CS mod 4 =? 3); lia.
  - cbn zeta in H1, H2. split; [exact H1|]. rewrite Hucs in H2. unfold trap_stack in *. destruct (rg m CS mod 4 =? 3); [exact H2|].
    destruct H2 as [H2 H3]. split; [rewrite H2; lia|exact H3].
Qed.

(** ** Context switches *)
(** struct context, from low to high addresses *)
Definition context_words (u : reg -> Z) (eip : Z) : list Z := [u EDI; u ESI; u EBX; u EBP; eip].
Lemma swtch_code m :
  run_code swtch m =
    fold_left (fun m o => popm o m) [Some EDI; Some ESI; Some EBX; Some EBP; Some EIP]
      (step (Movl ESP EDX) (step (Store ESP EAX)
        (run_code (map Push [Reg EBP; Reg EBX; Reg ESI; Reg EDI]) (step (Load EDX ESP 8) (step (Load EAX ESP 4) m))))).
Proof. reflexivity. Qed.
(** A call of swtch with its arguments on the stack *)
Definition calls_swtch (m : machine) (ret old new : Z) : Prop := words_at (mm m) (rg m ESP) [ret; old; new].
Definition apart_from (a n b k : Z) : Prop := a + n <= b \/ b + k <= a.
Lemma state_load d off m sp M u : d <> ESP -> state m (sp, M) u -> state (step (Load d ESP off) m) (sp, M) (upd d (ld32 M (u32 (sp + off))) u).
Proof.
  intros Hd Hs. pose proof Hs as [[= E1 E2] _]. cbn [step]. rewrite E1, E2. by apply state_put.
Qed.
Lemma words_at_st32 M a v b ws : apart_from a 4 b (4 * Z.of_nat (length ws)) -> words_at M b ws -> words_at (st32 M a v) b ws.
Proof.
  intros Ha. apply words_at_frame. intros x Hx. rewrite ld8_st32. unfold apart_from in Ha.
  destruct (Z.leb_spec a x), (Z.ltb_spec x (a + 4)); cbn [andb]; lia || done.
Qed.
(** The first half: what is saved, and where the stacks are changed *)
Lemma swtch_saves m ret old new : regs_ok (rg m) -> calls_swtch m ret old new ->
  word ret -> word old -> 16 <= rg m ESP -> rg m ESP + 12 < 2 ^ 32 -> apart_from old 4 (rg m ESP - 16) 20 ->
  exists M u, let m' := step (Movl ESP EDX) (step (Store ESP EAX)
      (run_code (map Push [Reg EBP; Reg EBX; Reg ESI; Reg EDI]) (step (Load EDX ESP 8) (step (Load EAX ESP 4) m)))) in
    state m' (new, M) u /\ ld32 M old = rg m ESP - 16 /\ words_at M (rg m ESP - 16) (context_words (rg m) ret) /\
    (forall b, ~ (rg m ESP - 16 <= b < rg m ESP) -> ~ (old <= b < old + 4) -> ld8 M b = ld8 (mm m) b).
Proof.
  intros Hr Hc Hret Hold Hsp Hsp2 A3. pose proof (fun r => regs_word (rg m) r Hr) as Hw.
  apply words_at_cons in Hc as [Hc0 Hc]. apply words_at_cons in Hc as [Hc1 Hc]. apply words_at_cons in Hc as [Hc2 _].
  replace (rg m ESP + 4 + 4) with (rg m ESP + 8) in Hc2 by lia.
  pose proof (state_load EAX 4 _ _ _ _ ltac:(done) (state_self m)) as Hs. rewrite u32_small, Hc1 in Hs by lia.
  revert Hs. generalize (step (Load EAX ESP 4) m). intros ma Hs.
  apply (state_load EDX 8 _ _ _ _ ltac:(done)) in Hs. rewrite u32_small, Hc2 in Hs by lia.
  revert Hs. generalize (step (Load EDX ESP 8) ma). intros mb Hs.
  apply (run_pushes [Reg EBP; Reg EBX; Reg ESI; Reg EDI] ltac:(by repeat constructor)) in Hs.
  revert Hs. generalize (run_code (map Push [Reg EBP; Reg EBX; Reg ESI; Reg EDI]) mb). intros mc Hs.
  change (map _ [Reg EBP; Reg EBX; Reg ESI; Reg EDI]) with [rg m EBP; rg m EBX; rg m ESI; rg m EDI] in Hs.
  destruct (pushes_spec [rg m EBP; rg m EBX; rg m ESI; rg m EDI] (rg m ESP) (mm m) [ret]) as (P & W & F);
    [forall_words; apply Hw|cbn [length]; lia|by apply words_at_cons|].
  destruct (pushes _ (rg m ESP, mm m)) as [sp M]. cbn [fst snd length rev app] in P, W, F. assert (sp = rg m ESP - 16) as -> by lia.
  destruct Hs as [[= E1 E2] Eu]. exists (st32 M old (rg m ESP - 16)), (rg mc).
  assert (Eax : rg mc EAX = old) by (rewrite Eu by done; done). assert (Edx : rg mc EDX = new) by (rewrite Eu by done; done).
  split; [|split; [|split]].
  - split; [cbn; by rewrite E1, E2, Eax, Edx|]. intros r Hr'. cbn. destruct r; done.
  - rewrite ld32_st32_same. apply u32_small. lia.
  - apply words_at_st32; [exact A3|exact W].
  - intros b Hb1 Hb2. rewrite ld8_st32. destruct (Z.leb_spec old b), (Z.ltb_spec b (old + 4)); cbn [andb]; try lia; apply F; lia.
Qed.
Lemma swtch_spec m ret old new ctx eip : regs_ok (rg m) -> calls_swtch m ret old new -> words_at (mm m) new (context_words ctx eip) ->
  word ret -> regs_ok ctx -> word eip -> word old -> 16 <= rg m ESP -> rg m ESP + 12 < 2 ^ 32 -> 0 <= new -> new + 20 < 2 ^ 32 ->
  apart_from (rg m ESP - 16) 16 new 20 -> apart_from old 4 new 20 -> apart_from old 4 (rg m ESP - 16) 20 ->
  let m' := run_code swtch m in
  (forall r, In r [EDI; ESI; EBX; EBP] -> rg m' r = ctx r) /\ rg m' EIP = eip /\ rg m' ESP = new + 20 /\
  ld32 (mm m') old = rg m ESP - 16 /\ words_at (mm m') (rg m ESP - 16) (context_words (rg m) ret) /\
  (forall b, ~ (rg m ESP - 16 <= b < rg m ESP) -> ~ (old <= b < old + 4) -> ld8 (mm m') b = ld8 (mm m) b).
Proof.
  intros Hr Hc Hctx Hret Hcr Heip Hold Hsp Hsp2 Hn Hn2 A1 A2 A3. cbn zeta. rewrite swtch_code.
  destruct (swtch_saves m ret old new Hr Hc Hret Hold Hsp Hsp2 A3) as (M & u & Hs & S1 & S2 & S3). cbn zeta in Hs.
  assert (Hctx' : words_at M new (context_words ctx eip)).
  { eapply words_at_frame; [|exact Hctx]. cbn [context_words length]. intros b Hb. unfold apart_from in A1, A2. apply S3; lia. }
  revert Hs. generalize (step (Movl ESP EDX) (step (Store ESP EAX)
    (run_code (map Push [Reg EBP; Reg EBX; Reg ESI; Reg EDI]) (step (Load EDX ESP 8) (step (Load EAX ESP 4) m))))). intros md Hs.
  apply (run_pops [Some EDI; Some ESI; Some EBX; Some EBP; Some EIP] (context_words ctx eip)) in Hs; [|done|by repeat constructor|done|done|cbn; lia].
  revert Hs. generalize (fold_left (fun m o => popm o m) [Some EDI; Some ESI; Some EBX; Some EBP; Some EIP] md). intros me Hs.
  destruct Hs as [[= E1 E2] Eu]. rewrite E1, E2. cbn [context_words length] in *. split; [|split; [|split; [lia|done]]].
  - intros r Hin. pose proof (fit_ok ctx r Hcr) as Hf. cbn in Hin.
    destruct Hin as [<-|[<-|[<-|[<-|[]]]]]; rewrite Eu by done; unfold assign, upd; cbn [same_reg reg_code Nat.eqb]; exact Hf.
  - rewrite Eu by done. unfold assign, upd. cbn [same_reg reg_code Nat.eqb]. unfold fit. cbn [is_seg]. by apply u32_small.
Qed.

(** C20: A thread that calls swtch is resumed as it was.  swtch leaves the
    thread's callee-saved registers and return address as a struct context at
    the top of its stack, the address of that where the old context pointer
    points, and every other byte of memory alone; and the other thread goes on
    with its registers and stack.  When some later swtch is given that address,
    and nothing has written to the twenty bytes of the context meanwhile, the
    first thread returns from its own call with those registers and its stack. *)
Theorem swtch_resumes m1 ret old new ctx eip m2 ret2 old2 : regs_ok (rg m1) -> calls_swtch m1 ret old new ->
  words_at (mm m1) new (context_words ctx eip) -> word ret -> regs_ok ctx -> word eip -> word old -> 16 <= rg m1 ESP -> rg m1 ESP + 12 < 2 ^ 32 ->
  0 <= new -> new + 20 < 2 ^ 32 -> apart_from (rg m1 ESP - 16) 16 new 20 -> apart_from old 4 new 20 -> apart_from old 4 (rg m1 ESP - 16) 20 ->
  let m1' := run_code swtch m1 in
  let saved := ld32 (mm m1') old in
  (* the context is saved, and nothing else is written *)
  saved = rg m1 ESP - 16 /\ words_at (mm m1') saved (context_words (rg m1) ret) /\
  (forall b, ~ (saved <= b < saved + 16) -> ~ (old <= b < old + 4) -> ld8 (mm m1') b = ld8 (mm m1) b) /\
  (* the other thread runs, with its own registers and stack *)
  (forall r, In r [EDI; ESI; EBX; EBP] -> rg m1' r = ctx r) /\ rg m1' EIP = eip /\ rg m1' ESP = new + 20 /\
  (* until a switch back *)
  (regs_ok (rg m2) -> calls_swtch m2 ret2 old2 saved -> (forall b, saved <= b < saved + 20 -> ld8 (mm m2) b = ld8 (mm m1') b) ->
   word ret2 -> word old2 -> 16 <= rg m2 ESP -> rg m2 ESP + 12 < 2 ^ 32 ->
   apart_from (rg m2 ESP - 16) 16 saved 20 -> apart_from old2 4 saved 20 -> apart_from old2 4 (rg m2 ESP - 16) 20 ->
   let m3 := run_code swtch m2 in
   (forall r, In r [EDI; ESI; EBX; EBP] -> rg m3 r = rg m1 r) /\ rg m3 EIP = ret /\ rg m3 ESP = rg m1 ESP + 4).
Proof.
  intros Hr Hc Hctx Hret Hcr Heip Hold Hsp Hsp2 Hn Hn2 A1 A2 A3. cbn zeta.
  destruct (swtch_spec m1 ret old new ctx eip Hr Hc Hctx Hret Hcr Heip Hold Hsp Hsp2 Hn Hn2 A1 A2 A3) as (H1 & H2 & H3 & H4 & H5 & H6).
  cbn zeta in *. rewrite H4. split; [done|]. split; [exact H5|]. split; [intros b Hb1 Hb2; apply H6; lia|].
  split; [exact H1|]. split; [exact H2|]. split; [exact H3|]. intros Hr2 Hc2 Hf Hret2 Hold2 Hs Hs2 B1 B2 B3.
  assert (Hw2 : words_at (mm m2) (rg m1 ESP - 16) (context_words (rg m1) ret)) by (by eapply words_at_frame, H5).
  destruct (swtch_spec m2 ret2 old2 (rg m1 ESP - 16) (rg m1) ret Hr2 Hc2 Hw2 Hret2 Hr Hret Hold2 Hs Hs2 ltac:(lia) ltac:(lia) B1 B2 B3)
    as (G1 & G2 & G3 & _). cbn zeta in *. split; [exact G1|]. split; [exact G2|]. rewrite G3. lia.
Qed.

(** ** Examples *)
Definition some_user : machine :=
  mkM (fun r => match r with CS => 0x23 | SS | DS | ES => 0x2B | FS | GS => 0 | ESP => 0x2FF0 | EIP => 0x104 | EFLAGS => FL_IF | _ => 1000 + Z.of_nat (reg_code r) end) ∅.
Definition some_segs : segs := mkSegs [] 0x10 0x8DFFF000 0x18 0x30.
Definition syscall_gate : gatedesc := SETGATE true 8 0x80105400 DPL_USER.
Lemma some_user_ok : regs_ok (rg some_user).
Proof. intros r. destruct r; vm_compute; split; discriminate || reflexivity. Qed.
Lemma some_user_ret_ok : regs_ok (upd EAX 7 (rg some_user)).
Proof. intros r. destruct r; vm_compute; split; discriminate || reflexivity. Qed.
(** A system call that returns 7 *)
Lemma trap_round_trip_witness :
  let m1 := enter some_segs syscall_gate 64 None 0x80105999 some_user in
  ld32 (mm m1) (rg m1 ESP + 4) = rg m1 ESP + 8 /\
  forall M, words_at M (rg m1 ESP + 8) (trapframe_words (upd EAX 7 (rg some_user)) 0 64 0) ->
    let m3 := run_code after_trap (mkM (fun r => match r with ESP => rg m1 ESP + 4 | CS => 8 | _ => 0 end) M) in
    rg m3 EAX = 7 /\ rg m3 EBX = 1003 /\ rg m3 EIP = 0x104 /\ rg m3 ESP = 0x2FF0.
Proof.
  destruct (trap_round_trip some_segs syscall_gate 64 None 0x80105999 some_user) as (_ & H1 & _ & _ & _ & H3).
  - exact some_user_ok.
  - split; [intros [? H]; discriminate | cbn; intros H; repeat (destruct H as [H|H]; [discriminate|]); destruct H].
  - split; [discriminate|reflexivity].
  - split; [discriminate|reflexivity].
  - split; [discriminate|reflexivity].
  - right. reflexivity.
  - vm_compute. split; [discriminate|reflexivity].
  - cbn zeta in *. split; [exact H1|]. intros M HM.
    destruct (H3 (mkM (fun r => match r with ESP => rg (enter some_segs syscall_gate 64 None 0x80105999 some_user) ESP + 4 | CS => 8 | _ => 0 end) M)
      (upd EAX 7 (rg some_user)) 0 64 0 eq_refl eq_refl) as [G1 G2].
    + exact some_user_ret_ok.
    + reflexivity.
    + exact HM.
    + split; [exact (G1 EAX ltac:(discriminate) ltac:(discriminate))|]. split; [exact (G1 EBX ltac:(discriminate) ltac:(discriminate))|].
      split; [exact (G1 EIP ltac:(discriminate) ltac:(discriminate))|]. exact (proj1 G2).
Defined.
(** Two threads with stacks at 0x1000 and 0x2000; the context pointers are at 0x100 and 0x104 *)
Definition regs_at (sp : Z) : reg -> Z := fun r => match r with ESP => sp | EDI => 1 | ESI => 2 | EBX => 3 | EBP => 4 | _ => 0 end.
Definition thread1 : machine :=
  mkM (regs_at 0x1000) (foldr (fun x m => st32 m x.1 x.2) ∅
    [(0x1000, 0x500); (0x1004, 0x100); (0x1008, 0x1FE0); (0x1FE0, 5); (0x1FE4, 6); (0x1FE8, 7); (0x1FEC, 8); (0x1FF0, 0x600)]).
Definition other_ctx : reg -> Z := fun r => match r with EDI => 5 | ESI => 6 | EBX => 7 | EBP => 8 | _ => 0 end.
Definition thread2 : machine :=
  mkM (regs_at 0x1F00) (foldr (fun x m => st32 m x.1 x.2) (mm (run_code swtch thread1)) [(0x1F00, 0x700); (0x1F04, 0x104); (0x1F08, 0xFF0)]).
Lemma thread1_ok : regs_ok (rg thread1) /\ calls_swtch thread1 0x500 0x100 0x1FE0 /\ words_at (mm thread1) 0x1FE0 (context_words other_ctx 0x600) /\
  regs_ok other_ctx.
Proof.
  split; [intros r; destruct r; vm_compute; split; discriminate || reflexivity|].
  split; [intros [|[|[|i]]] w Hi; first [injection Hi as <-; vm_compute; reflexivity | discriminate]|].
  split; [intros [|[|[|[|[|i]]]]] w Hi; first [injection Hi as <-; vm_compute; reflexivity | discriminate]|].
  intros r; destruct r; vm_compute; split; discriminate || reflexivity.
Qed.
Lemma thread2_ok : regs_ok (rg thread2) /\ calls_swtch thread2 0x700 0x104 0xFF0 /\
  (forall b, 0xFF0 <= b < 0xFF0 + 20 -> ld8 (mm thread2) b = ld8 (mm (run_code swtch thread1)) b) /\
  ld32 (mm (run_code swtch thread1)) 0x100 = 0xFF0.
Proof.
  split; [intros r; destruct r; vm_compute; split; discriminate || reflexivity|].
  split; [intros [|[|[|i]]] w Hi; first [injection Hi as <-; vm_compute; reflexivity | discriminate]|].
  split; [|vm_compute; reflexivity]. intros b Hb. unfold thread2. cbn [mm foldr fst snd]. rewrite !ld8_st32.
  destruct (Z.ltb_spec b 0x1F00), (Z.leb_spec 0x1F00 b), (Z.leb_spec 0x1F04 b), (Z.leb_spec 0x1F08 b); cbn [andb]; done || lia.
Qed.
Lemma swtch_resumes_witness :
  rg (run_code swtch thread1) EIP = 0x600 /\ rg (run_code swtch thread2) EIP = 0x500 /\ rg (run_code swtch thread2) ESP = 0x1004.
Proof.
  pose proof thread1_ok as (A1 & A2 & A3 & A4). pose proof thread2_ok as (B1 & B2 & B3 & B4).
  assert (W : forall x, (0 <=? x) && (x <? 2 ^ 32) = true -> word x) by (intros x Hx; unfold word; breflect; lia).
  assert (Hsp1 : rg thread1 ESP = 0x1000) by reflexivity. assert (Hsp2 : rg thread2 ESP = 0x1F00) by reflexivity.
  destruct (swtch_resumes thread1 0x500 0x100 0x1FE0 other_ctx 0x600 thread2 0x700 0x104 A1 A2 A3 (W 0x500 eq_refl) A4 (W 0x600 eq_refl) (W 0x100 eq_refl))
    as (_ & _ & _ & _ & H1 & _ & H2); try (rewrite Hsp1); unfold apart_from; try lia.
  split; [exact H1|].
  cbn zeta in H2. rewrite B4 in H2.
  destruct (H2 B1 B2 B3 (W 0x700 eq_refl) (W 0x104 eq_refl)) as (_ & H3 & H4); try (rewrite Hsp2); unfold apart_from; try lia.
Defined.
