(* ===== verification/Hw.v ===== *)
(** * Interrupt controllers, timer, serial port, clock (lapic.c, ioapic.c, picirq.c, timer.c, uart.c)

    The drivers write device registers and read them back.  The model keeps the
    bytes written to the ports in order, the registers of the two APICs as last
    written, and takes what reads return from the outside: [inport t out p] is
    what the read number [t] finds at port [p] after the writes [out],
    [lapic_in t i] at register [i] of the local APIC.  microdelay has an empty
    body in the code and is left out. *)

From S2P Require Import Prelude Params CString.

(** The #define constants of the drivers, and PTE_PS of mmu.h *)
#[local] Notation ID := (0x0020 / 4)%Z.
#[local] Notation VER := (0x0030 / 4)%Z.
#[local] Notation TPR := (0x0080 / 4)%Z.
#[local] Notation EOI := (0x00B0 / 4)%Z.
#[local] Notation SVR := (0x00F0 / 4)%Z.
#[local] Notation ENABLE := 0x100%Z.
#[local] Notation ESR := (0x0280 / 4)%Z.
#[local] Notation ICRLO := (0x0300 / 4)%Z.
#[local] Notation INIT := 0x500%Z.
#[local] Notation STARTUP := 0x600%Z.
#[local] Notation DELIVS := 0x1000%Z.
#[local] Notation ASSERT := 0x4000%Z.
#[local] Notation LEVEL := 0x8000%Z.
#[local] Notation BCAST := 0x80000%Z.
#[local] Notation ICRHI := (0x0310 / 4)%Z.
#[local] Notation TIMER := (0x0320 / 4)%Z.
#[local] Notation X1 := 0xB%Z.
#[local] Notation PERIODIC := 0x20000%Z.
#[local] Notation PCINT := (0x0340 / 4)%Z.
#[local] Notation LINT0 := (0x0350 / 4)%Z.
#[local] Notation LINT1 := (0x0360 / 4)%Z.
#[local] Notation ERROR := (0x0370 / 4)%Z.
#[local] Notation MASKED := 0x10000%Z.
#[local] Notation TICR := (0x0380 / 4)%Z.
#[local] Notation TDCR := (0x03E0 / 4)%Z.
#[local] Notation CMOS_PORT := 0x70%Z.
#[local] Notation CMOS_RETURN := 0x71%Z.
#[local] Notation CMOS_STATA := 0x0a%Z.
#[local] Notation CMOS_STATB := 0x0b%Z.
#[local] Notation CMOS_UIP := (Z.shiftl 1 7)%Z.
#[local] Notation SECS := 0x00%Z.
#[local] Notation MINS := 0x02%Z.
#[local] Notation HOURS := 0x04%Z.
#[local] Notation DAY := 0x07%Z.
#[local] Notation MONTH := 0x08%Z.
#[local] Notation YEAR := 0x09%Z.
#[local] Notation REG_ID := 0%Z.
#[local] Notation REG_VER := 1%Z.
#[local] Notation REG_TABLE := 0x10%Z.
#[local] Notation INT_DISABLED := 0x10000%Z.
#[local] Notation IO_PIC1 := 0x20%Z.
#[local] Notation IO_PIC2 := 0xA0%Z.
#[local] Notation IRQ_SLAVE := 2%Z.
#[local] Notation IO_TIMER1 := 0x040%Z.
#[local] Notation TIMER_FREQ := 1193182%Z.
#[local] Notation TIMER_MODE := (IO_TIMER1 + 3)%Z.
#[local] Notation TIMER_SEL0 := 0x00%Z.
#[local] Notation TIMER_RATEGEN := 0x04%Z.
#[local] Notation TIMER_16BIT := 0x30%Z.
#[local] Notation COM1 := 0x3f8%Z.
#[local] Notation IDE_BSY := 0x80%Z.
#[local] Notation IDE_DRDY := 0x40%Z.
#[local] Notation IDE_DF := 0x20%Z.
#[local] Notation IDE_ERR := 0x01%Z.
#[local] Notation PTE_PS := 0x080%Z.
#[local] Notation TIMER_DIV x := ((TIMER_FREQ + x / 2) / x)%Z.

(** The device registers, and the variables of the drivers *)
Record hw : Type := mkHw {
  hw_out : list (Z * Z);     (** port writes, the oldest first *)
  hw_time : nat;             (** reads so far *)
  hw_irqmask : Z;            (** irqmask of picirq.c *)
  hw_lapic : Z;              (** lapic; 0 when there is none *)
  hw_lreg : gmap Z Z;        (** the local APIC's registers *)
  hw_ismp : bool;            (** ismp, ncpu, ioapicid of mp.c *)
  hw_ncpu : Z;
  hw_ioapicid : Z;
  hw_ioreg : Z;              (** ioapic->reg and the registers behind ioapic->data *)
  hw_iodata : gmap Z Z;
  hw_uart : bool;            (** uart of uart.c *)
  hw_printed : list string;  (** what cprintf was given *)
  hw_havedisk1 : bool;       (** havedisk1 of ide.c *)
  hw_mem : mem }.
Definition set_out (x : list (Z * Z)) (s : hw) : hw :=
  mkHw x (hw_time s) (hw_irqmask s) (hw_lapic s) (hw_lreg s) (hw_ismp s) (hw_ncpu s) (hw_ioapicid s) (hw_ioreg s) (hw_iodata s) (hw_uart s) (hw_printed s) (hw_havedisk1 s) (hw_mem s).
Definition set_time (x : nat) (s : hw) : hw :=
  mkHw (hw_out s) x (hw_irqmask s) (hw_lapic s) (hw_lreg s) (hw_ismp s) (hw_ncpu s) (hw_ioapicid s) (hw_ioreg s) (hw_iodata s) (hw_uart s) (hw_printed s) (hw_havedisk1 s) (hw_mem s).
Definition set_irqmask (x : Z) (s : hw) : hw :=
  mkHw (hw_out s) (hw_time s) x (hw_lapic s) (hw_lreg s) (hw_ismp s) (hw_ncpu s) (hw_ioapicid s) (hw_ioreg s) (hw_iodata s) (hw_uart s) (hw_printed s) (hw_havedisk1 s) (hw_mem s).
Definition set_lreg (x : gmap Z Z) (s : hw) : hw :=
  mkHw (hw_out s) (hw_time s) (hw_irqmask s) (hw_lapic s) x (hw_ismp s) (hw_ncpu s) (hw_ioapicid s) (hw_ioreg s) (hw_iodata s) (hw_uart s) (hw_printed s) (hw_havedisk1 s) (hw_mem s).
Definition set_io (r : Z) (x : gmap Z Z) (s : hw) : hw :=
  mkHw (hw_out s) (hw_time s) (hw_irqmask s) (hw_lapic s) (hw_lreg s) (hw_ismp s) (hw_ncpu s) (hw_ioapicid s) r x (hw_uart s) (hw_printed s) (hw_havedisk1 s) (hw_mem s).
Definition set_uart (b : bool) (s : hw) : hw :=
  mkHw (hw_out s) (hw_time s) (hw_irqmask s) (hw_lapic s) (hw_lreg s) (hw_ismp s) (hw_ncpu s) (hw_ioapicid s) (hw_ioreg s) (hw_iodata s) b (hw_printed s) (hw_havedisk1 s) (hw_mem s).
Definition set_printed (x : list string) (s : hw) : hw :=
  mkHw (hw_out s) (hw_time s) (hw_irqmask s) (hw_lapic s) (hw_lreg s) (hw_ismp s) (hw_ncpu s) (hw_ioapicid s) (hw_ioreg s) (hw_iodata s) (hw_uart s) x (hw_havedisk1 s) (hw_mem s).
Definition set_havedisk1 (b : bool) (s : hw) : hw :=
  mkHw (hw_out s) (hw_time s) (hw_irqmask s) (hw_lapic s) (hw_lreg s) (hw_ismp s) (hw_ncpu s) (hw_ioapicid s) (hw_ioreg s) (hw_iodata s) (hw_uart s) (hw_printed s) b (hw_mem s).
Definition set_hmem (m : mem) (s : hw) : hw :=
  mkHw (hw_out s) (hw_time s) (hw_irqmask s) (hw_lapic s) (hw_lreg s) (hw_ismp s) (hw_ncpu s) (hw_ioapicid s) (hw_ioreg s) (hw_iodata s) (hw_uart s) (hw_printed s) (hw_havedisk1 s) m.

(** struct rtcdate of date.h *)
Record rtcdate : Type := mkDate { second : Z; minute : Z; hour : Z; day : Z; month : Z; year : Z }.
#[export] Instance rtcdate_eq_dec : EqDecision rtcdate.
Proof. solve_decision. Defined.

Section Devices.
Context (inport : nat -> list (Z * Z) -> Z -> Z) (lapic_in : nat -> Z -> Z).

Definition outb (p v : Z) : kernel hw unit := kmodify (fun s => set_out (hw_out s ++ [(p, u8 v)]) s).
Definition inb (p : Z) : kernel hw Z := fun s => Done (set_time (S (hw_time s)) s) (inport (hw_time s) (hw_out s) p).

(** ** lapic.c *)

Definition lapicr (i : Z) : kernel hw Z := fun s => Done (set_time (S (hw_time s)) s) (lapic_in (hw_time s) i).
Definition lapicw (i v : Z) : kernel hw unit :=
  kmodify (fun s => set_lreg (<[i := u32 v]> (hw_lreg s)) s);; _ ← lapicr ID; mret tt.
(** while(lapic[ICRLO] & DELIVS) *)
Fixpoint wait_delivered (k : nat) : kernel hw unit :=
  match k with
  | O => kspin
  | S k' => v ← lapicr ICRLO; if has v DELIVS then wait_delivered k' else mret tt
  end.
(** [k] bounds the polls *)
Definition lapicinit (k : nat) : kernel hw unit :=
  s ← kget;
  if hw_lapic s =? 0 then mret tt
  else
    lapicw SVR (Z.lor ENABLE (T_IRQ0 + IRQ_SPURIOUS));;
    lapicw TDCR X1;;
    lapicw TIMER (Z.lor PERIODIC (T_IRQ0 + IRQ_TIMER));;
    lapicw TICR 10000000;;
    lapicw LINT0 MASKED;;
    lapicw LINT1 MASKED;;
    v ← lapicr VER;
    kwhen (4 <=? Z.land (Z.shiftr v 16) 0xFF) (lapicw PCINT MASKED);;
    lapicw ERROR (T_IRQ0 + IRQ_ERROR);;
    lapicw ESR 0;;
    lapicw ESR 0;;
    lapicw EOI 0;;
    lapicw ICRHI 0;;
    lapicw ICRLO (Z.lor (Z.lor BCAST INIT) LEVEL);;
    wait_delivered k;;
    lapicw TPR 0.
(** The warning that cpunum prints once when interrupts are on is left out. *)
Definition cpunum : kernel hw Z :=
  s ← kget; if hw_lapic s =? 0 then mret 0 else v ← lapicr ID; mret (Z.shiftr v 24).
Definition lapiceoi : kernel hw unit := s ← kget; if hw_lapic s =? 0 then mret tt else lapicw EOI 0.

(** *(ushort* )a = v *)
Definition st16 (m : mem) (a v : Z) : mem := st8 (st8 m a v) (a + 1) (v / 2 ^ 8).
Fixpoint send_startup (n : nat) (apicid addr : Z) : kernel hw unit :=
  match n with
  | O => mret tt
  | S n' =>
      lapicw ICRHI (Z.shiftl apicid 24);; lapicw ICRLO (Z.lor STARTUP (Z.shiftr addr 12));; send_startup n' apicid addr
  end.
Definition lapicstartap (apicid addr : Z) : kernel hw unit :=
  outb CMOS_PORT 0xF;;
  outb (CMOS_PORT + 1) 0x0A;;
  let wrv := p2v (Z.lor (Z.shiftl 0x40 4) 0x67) in
  kmodify (fun s => set_hmem (st16 (hw_mem s) wrv 0) s);;
  kmodify (fun s => set_hmem (st16 (hw_mem s) (wrv + 2) (Z.shiftr addr 4)) s);;
  lapicw ICRHI (Z.shiftl apicid 24);;
  lapicw ICRLO (Z.lor (Z.lor INIT LEVEL) ASSERT);;
  lapicw ICRLO (Z.lor INIT LEVEL);;
  send_startup 2 apicid addr.

(** ** ioapic.c *)
Definition ioapicread (reg : Z) : kernel hw Z :=
  kmodify (fun s => set_io reg (hw_iodata s) s);; kgets (fun s => default 0 (hw_iodata s !! hw_ioreg s)).
Definition ioapicwrite (reg data : Z) : kernel hw unit :=
  kmodify (fun s => set_io reg (hw_iodata s) s);; kmodify (fun s => set_io (hw_ioreg s) (<[hw_ioreg s := u32 data]> (hw_iodata s)) s).
(** for(i = 0; i <= maxintr; i++), [n] turns *)
Fixpoint ioapic_clear (n : nat) (i : Z) : kernel hw unit :=
  match n with
  | O => mret tt
  | S n' =>
      ioapicwrite (REG_TABLE + 2 * i) (Z.lor INT_DISABLED (T_IRQ0 + i));;
      ioapicwrite (REG_TABLE + 2 * i + 1) 0;;
      ioapic_clear n' (i + 1)
  end.
(** The pointer ioapic is set to the constant IOAPIC; its registers are the state. *)
Definition ioapicinit : kernel hw unit :=
  s ← kget;
  if negb (hw_ismp s) then mret tt
  else
    v ← ioapicread REG_VER;
    let maxintr := Z.land (Z.shiftr v 16) 0xFF in
    w ← ioapicread REG_ID;
    kwhen (negb (Z.shiftr w 24 =? hw_ioapicid s))
      (kmodify (fun s => set_printed (hw_printed s ++ ["ioapicinit: id isn't equal to ioapicid; not a MP"%string]) s));;
    ioapic_clear (Z.to_nat (maxintr + 1)) 0.
Definition ioapicenable (irq cpunum : Z) : kernel hw unit :=
  s ← kget;
  if negb (hw_ismp s) then mret tt
  else
    ioapicwrite (REG_TABLE + 2 * irq) (T_IRQ0 + irq);;
    ioapicwrite (REG_TABLE + 2 * irq + 1) (Z.shiftl cpunum 24).

(** ** picirq.c *)
Definition irqmask0 : Z := Z.land 0xFFFF (Z.lnot (Z.shiftl 1 IRQ_SLAVE)).
Definition picsetmask (mask : Z) : kernel hw unit :=
  kmodify (set_irqmask (u16 mask));; outb (IO_PIC1 + 1) mask;; outb (IO_PIC2 + 1) (Z.shiftr mask 8).
Definition picenable (irq : Z) : kernel hw unit :=
  s ← kget; picsetmask (u16 (Z.land (hw_irqmask s) (Z.lnot (Z.shiftl 1 irq)))).
Definition picinit : kernel hw unit :=
  outb (IO_PIC1 + 1) 0xFF;;
  outb (IO_PIC2 + 1) 0xFF;;
  outb IO_PIC1 0x11;;
  outb (IO_PIC1 + 1) T_IRQ0;;
  outb (IO_PIC1 + 1) (Z.shiftl 1 IRQ_SLAVE);;
  outb (IO_PIC1 + 1) 0x3;;
  outb IO_PIC2 0x11;;
  outb (IO_PIC2 + 1) (T_IRQ0 + 8);;
  outb (IO_PIC2 + 1) IRQ_SLAVE;;
  outb (IO_PIC2 + 1) 0x3;;
  outb IO_PIC1 0x68;;
  outb IO_PIC1 0x0a;;
  outb IO_PIC2 0x68;;
  outb IO_PIC2 0x0a;;
  s ← kget;
  kwhen (negb (hw_irqmask s =? 0xFFFF)) (picsetmask (hw_irqmask s)).

(** ** cmostime of lapic.c *)
Definition cmos_read (reg : Z) : kernel hw Z := outb CMOS_PORT reg;; inb CMOS_RETURN.
Definition fill_rtcdate : kernel hw rtcdate :=
  second ← cmos_read SECS;
  minute ← cmos_read MINS;
  hour ← cmos_read HOURS;
  day ← cmos_read DAY;
  month ← cmos_read MONTH;
  year ← cmos_read YEAR;
  mret (mkDate second minute hour day month year).
Definition CONV (x : Z) : Z := u32 (u32 (Z.shiftr x 4 * 10) + Z.land x 0xf).
Definition convert (t1 : rtcdate) : rtcdate :=
  mkDate (CONV (second t1)) (CONV (minute t1)) (CONV (hour t1)) (CONV (day t1)) (CONV (month t1)) (CONV (year t1)).
(** for (;;), at most [k] turns *)
Fixpoint cmostime_loop (k : nat) : kernel hw rtcdate :=
  match k with
  | O => kspin
  | S k' =>
      t1 ← fill_rtcdate;
      a ← cmos_read CMOS_STATA;
      if has a CMOS_UIP then cmostime_loop k'
      else t2 ← fill_rtcdate; if decide (t1 = t2) then mret t1 else cmostime_loop k'
  end.
Definition cmostime (k : nat) : kernel hw rtcdate :=
  sb ← cmos_read CMOS_STATB;
  let bcd := Z.land sb (Z.shiftl 1 2) =? 0 in
  t1 ← cmostime_loop k;
  let t1 := if bcd then convert t1 else t1 in
  mret (mkDate (second t1) (minute t1) (hour t1) (day t1) (month t1) (u32 (year t1 + 2000))).

(** ** timer.c *)
Definition timerinit : kernel hw unit :=
  outb TIMER_MODE (Z.lor (Z.lor TIMER_SEL0 TIMER_RATEGEN) TIMER_16BIT);;
  outb IO_TIMER1 (TIMER_DIV 100 mod 256);;
  outb IO_TIMER1 (TIMER_DIV 100 / 256);;
  picenable IRQ_TIMER.

(** ** uart.c *)
(** for(i = 0; i < 128 && !(inb(COM1+5) & 0x20); i++), [n] turns left *)
Fixpoint uart_wait (n : nat) : kernel hw unit :=
  match n with
  | O => mret tt
  | S n' => v ← inb (COM1 + 5); if has v 0x20 then mret tt else uart_wait n'
  end.
Definition uartputc (c : Z) : kernel hw unit :=
  s ← kget; if negb (hw_uart s) then mret tt else uart_wait 128;; outb (COM1 + 0) c.
Fixpoint uart_puts (cs : list Z) : kernel hw unit :=
  match cs with [] => mret tt | c :: cs' => uartputc c;; uart_puts cs' end.
Definition uartinit : kernel hw unit :=
  outb (COM1 + 2) 0;;
  outb (COM1 + 3) 0x80;;
  outb (COM1 + 0) (115200 / 9600);;
  outb (COM1 + 1) 0;;
  outb (COM1 + 3) 0x03;;
  outb (COM1 + 4) 0;;
  outb (COM1 + 1) 0x01;;
  v ← inb (COM1 + 5);
  if v =? 0xFF then mret tt
  else
    kmodify (set_uart true);;
    _ ← inb (COM1 + 2);
    _ ← inb (COM1 + 0);
    picenable IRQ_COM1;;
    ioapicenable IRQ_COM1 0;;
    uart_puts [120; 118; 54; 46; 46; 46; 10].
Definition uartgetc : kernel hw Z :=
  s ← kget;
  if negb (hw_uart s) then mret (-1)
  else
    v ← inb (COM1 + 5);
    if negb (has v 0x01) then mret (-1) else inb (COM1 + 0).

(** ** ideinit of ide.c, consoleinit of console.c *)
(** [k] bounds the polls *)
Fixpoint ide_ready (k : nat) : kernel hw Z :=
  match k with
  | O => kspin
  | S k' =>
      r ← inb 0x1f7;
      if negb (Z.land r (Z.lor IDE_BSY IDE_DRDY) =? IDE_DRDY) then ide_ready k' else mret r
  end.
Definition idewait (k : nat) (checkerr : bool) : kernel hw Z :=
  r ← ide_ready k;
  if checkerr && negb (Z.land r (Z.lor IDE_DF IDE_ERR) =? 0) then mret (-1) else mret 0.
Fixpoint find_disk1 (n : nat) : kernel hw unit :=
  match n with
  | O => mret tt
  | S n' => v ← inb 0x1f7; if negb (v =? 0) then kmodify (set_havedisk1 true) else find_disk1 n'
  end.
(** initlock is left out: the lock is in the model of the request queue. *)
Definition ideinit (k : nat) : kernel hw unit :=
  picenable IRQ_IDE;;
  s ← kget;
  ioapicenable IRQ_IDE (hw_ncpu s - 1);;
  _ ← idewait k false;
  outb 0x1f6 (Z.lor 0xe0 (Z.shiftl 1 4));;
  find_disk1 1000;;
  outb 0x1f6 (Z.lor 0xe0 (Z.shiftl 0 4)).
(** The interrupt part; the locks and devsw are set up elsewhere. *)
Definition consoleinit : kernel hw unit := picenable IRQ_KBD;; ioapicenable IRQ_KBD 0.

(** ** The devices' part of main of main.c, in its order

    pinit, tvinit, binit and fileinit, which it calls in between, touch no device. *)
Definition main_devices (k : nat) : kernel hw unit :=
  picinit;;
  ioapicinit;;
  consoleinit;;
  uartinit;;
  ideinit k;;
  s ← kget;
  kwhen (negb (hw_ismp s)) timerinit.

(** ** Reasoning about device code

    [gives m s Q]: [m] finishes from [s], and [Q] holds of where it ends. *)
Definition gives {A} (m : kernel hw A) (s : hw) (Q : hw -> A -> Prop) : Prop :=
  exists s' a, m s = Done s' a /\ Q s' a.
Lemma gives_bind {A B} (m : kernel hw A) (k : A -> kernel hw B) s Q :
  gives m s (fun s' a => gives (k a) s' Q) -> gives (a ← m; k a) s Q.
Proof using. intros (s1 & a & E & s2 & b & E2 & HQ). exists s2, b. split; [|exact HQ]. by rewrite (bind_Done _ _ _ _ _ E). Qed.
Lemma gives_ret {A} (a : A) s Q : Q s a -> gives (mret a) s Q.
Proof using. intros. by exists s, a. Qed.
Lemma gives_mono {A} (m : kernel hw A) s (P Q : hw -> A -> Prop) :
  gives m s P -> (forall s' a, P s' a -> Q s' a) -> gives m s Q.
Proof using. intros (s' & a & E & HP) H. exists s', a. auto. Qed.
Lemma gives_get s (Q : hw -> hw -> Prop) : Q s s -> gives kget s Q.
Proof using. intros. by exists s, s. Qed.
Lemma gives_modify f s (Q : hw -> unit -> Prop) : Q (f s) tt -> gives (kmodify f) s Q.
Proof using. intros. by exists (f s), tt. Qed.
Lemma gives_outb p v s (Q : hw -> unit -> Prop) : Q (set_out (hw_out s ++ [(p, u8 v)]) s) tt -> gives (outb p v) s Q.
Proof using. apply (gives_modify (fun s => set_out (hw_out s ++ [(p, u8 v)]) s)). Qed.
Lemma gives_inb p s (Q : hw -> Z -> Prop) :
  Q (set_time (S (hw_time s)) s) (inport (hw_time s) (hw_out s) p) -> gives (inb p) s Q.
Proof using. intros. eexists _, _. by split; [unfold inb; reflexivity|]. Qed.
Lemma gives_kwhen b m s (Q : hw -> unit -> Prop) : (b = true -> gives m s Q) -> (b = false -> Q s tt) -> gives (kwhen b m) s Q.
Proof using. destruct b; cbn; intros H1 H2; [by apply H1 | apply gives_ret; by apply H2]. Qed.

(** ** The clock

    [cmos t r] is the content of the clock's register [r] at the read [t]: the
    chip answers on CMOS_RETURN with the register last written to CMOS_PORT. *)
Section Clock.
Context (cmos : nat -> Z -> Z).
Hypothesis cmos_answers : forall t out r, inport t (out ++ [(CMOS_PORT, r)]) CMOS_RETURN = cmos t r.

Lemma gives_cmos_read r s (Q : hw -> Z -> Prop) :
  u8 r = r -> Q (set_time (S (hw_time s)) (set_out (hw_out s ++ [(CMOS_PORT, r)]) s)) (cmos (hw_time s) r) -> gives (cmos_read r) s Q.
Proof using cmos_answers.
  intros Hr HQ. apply gives_bind, gives_outb, gives_inb. rewrite Hr. cbn. by rewrite cmos_answers.
Qed.
(** What fill_rtcdate reads from time [t] on *)
Definition reading (t : nat) : rtcdate :=
  mkDate (cmos t SECS) (cmos (1 + t) MINS) (cmos (2 + t) HOURS) (cmos (3 + t) DAY) (cmos (4 + t) MONTH) (cmos (5 + t) YEAR).
Lemma gives_fill s (Q : hw -> rtcdate -> Prop) :
  (forall s', hw_time s' = (6 + hw_time s)%nat -> Q s' (reading (hw_time s))) -> gives fill_rtcdate s Q.
Proof using cmos_answers.
  intros HQ. unfold fill_rtcdate. do 6 (apply gives_bind, gives_cmos_read; [reflexivity|]).
  apply gives_ret. by apply HQ.
Qed.

Context (show : nat -> rtcdate) (code : Z -> Z).
Definition encode (d : rtcdate) : rtcdate :=
  mkDate (code (second d)) (code (minute d)) (code (hour d)) (code (day d)) (code (month d)) (code (year d)).
(** The registers hold the date [show t], each field written by [code]. *)
Definition shows : Prop := forall t,
  cmos t SECS = code (second (show t)) /\ cmos t MINS = code (minute (show t)) /\ cmos t HOURS = code (hour (show t)) /\
  cmos t DAY = code (day (show t)) /\ cmos t MONTH = code (month (show t)) /\ cmos t YEAR = code (year (show t)).
(** The clock ticks at most once in the thirteen reads of a turn of the loop. *)
Definition ticks_once : Prop := forall t, exists u a b, forall i, (t <= i < t + 13)%nat -> show i = if (i <? u)%nat then a else b.
(** From [T] on it neither ticks nor announces an update for 26 reads. *)
Definition quiet (T : nat) : Prop :=
  forall i, (T <= i < T + 26)%nat -> show i = show T /\ has (cmos i CMOS_STATA) CMOS_UIP = false.
Hypotheses (Hshows : shows) (Hticks : ticks_once).

Lemma reading_const t d : (forall i, (t <= i < t + 6)%nat -> show i = d) -> reading t = encode d.
Proof using Hshows.
  intros H. unfold reading, encode.
  f_equal; match goal with |- cmos ?t' _ = _ => rewrite <- (H t') by lia; apply (Hshows t') end.
Qed.
(** Two equal readings are a date the clock showed. *)
Lemma reading_twice t : reading t = reading (7 + t) -> exists i, (t <= i < t + 13)%nat /\ reading t = encode (show i).
Proof using Hshows Hticks.
  intros E. destruct (Hticks t) as (u & a & b & H). destruct (decide (u <= 7 + t)%nat).
  - exists (12 + t)%nat. split; [lia|]. rewrite E, (reading_const (7 + t) b).
    + rewrite H by lia. by rewrite (proj2 (Nat.ltb_ge _ _)) by lia.
    + intros i Hi. rewrite H by lia. by rewrite (proj2 (Nat.ltb_ge _ _)) by lia.
  - exists t. split; [lia|]. rewrite (reading_const t a).
    + rewrite H by lia. by rewrite (proj2 (Nat.ltb_lt _ _)) by lia.
    + intros i Hi. rewrite H by lia. by rewrite (proj2 (Nat.ltb_lt _ _)) by lia.
Qed.
Lemma loop_gives T : quiet T -> forall k s, (hw_time s <= T + 13)%nat -> (T + 13 - hw_time s < k)%nat ->
  gives (cmostime_loop k) s (fun s' d => exists i, (hw_time s <= i < hw_time s')%nat /\ d = encode (show i)).
Proof using cmos_answers Hshows Hticks.
  intros HT. induction k as [|k IH]; intros s Hs Hk; [lia|]. cbn [cmostime_loop].
  apply gives_bind, gives_fill. intros s1 E1. apply gives_bind, gives_cmos_read; [reflexivity|].
  assert (Again : forall s', (7 + hw_time s <= hw_time s' <= 13 + hw_time s)%nat ->
    (T <= hw_time s -> False)%nat ->
    gives (cmostime_loop k) s' (fun s' d => exists i, (hw_time s <= i < hw_time s')%nat /\ d = encode (show i))).
  { intros s' H' Hn. eapply gives_mono; [apply IH; lia|]. cbn. intros s2 d (i & Hi & ->). exists i. split; [lia|done]. }
  destruct (has _ CMOS_UIP) eqn:EU.
  - apply Again; cbn; [lia|]. intros. destruct (HT (hw_time s1)) as [_ HU]; [lia|]. congruence.
  - apply gives_bind, gives_fill. cbn [hw_time set_time set_out]. intros s2 E2.
    replace (S (hw_time s1)) with (7 + hw_time s)%nat in * by lia. destruct (decide _) as [E|E].
    + apply gives_ret. destruct (reading_twice _ E) as (i & Hi & ->). exists i. split; [lia|done].
    + apply Again; cbn; [lia|]. intros. destruct E.
      rewrite !(reading_const _ (show T)); [done|..]; intros; apply HT; lia.
Qed.

(** Two-digit dates, and the two ways the chip writes a field *)
Definition two_digits (d : rtcdate) : Prop :=
  Forall (fun x => 0 <= x < 100) [second d; minute d; hour d; day d; month d; year d].
Definition bcd_code (x : Z) : Z := 16 * (x / 10) + x mod 10.
Lemma CONV_bcd x : 0 <= x < 100 -> CONV (bcd_code x) = x.
Proof using.
  intros H. assert (0 <= x / 10 < 10) by (split; [apply Z.div_pos; lia | apply Z.div_lt_upper_bound; lia]).
  pose proof (Z.mod_pos_bound x 10 ltac:(lia)). pose proof (Z.div_mod x 10 ltac:(lia)). unfold CONV, bcd_code.
  change 0xf with (Z.ones 4). rewrite Z.land_ones, Z.shiftr_div_pow2 by lia. change (2 ^ 4) with 16.
  replace (16 * (x / 10) + x mod 10) with (x mod 10 + x / 10 * 16) by lia.
  rewrite Z.div_add, Z.mod_add, (Z.div_small (x mod 10)), (Z.mod_small (x mod 10)) by lia.
  rewrite !u32_small; unfold u32 in *; rewrite ?Z.mod_small by lia; lia.
Qed.
End Clock.

(** ** Which interrupts are on

    The view of the machine that decides it: the mask and the bytes last given
    to the two 8259A, the drive selected, and the I/O APIC's registers. *)
Definition last_out (p : Z) (out : list (Z * Z)) : option Z := snd <$> last (filter (fun w => w.1 = p) out).
#[local] Arguments last_out : simpl never.
Record irqs : Type := mkIrqs {
  i_mask : Z; i_pic1 : option Z; i_pic2 : option Z; i_drive : option Z;
  i_ismp : bool; i_ncpu : Z; i_table : gmap Z Z; i_uart : bool }.
Definition view (s : hw) : irqs :=
  mkIrqs (hw_irqmask s) (last_out 0x21 (hw_out s)) (last_out 0xA1 (hw_out s)) (last_out 0x1f6 (hw_out s))
    (hw_ismp s) (hw_ncpu s) (hw_iodata s) (hw_uart s).
Definition v_mask (m : Z) (v : irqs) : irqs :=
  mkIrqs m (Some (u8 m)) (Some (u8 (Z.shiftr m 8))) (i_drive v) (i_ismp v) (i_ncpu v) (i_table v) (i_uart v).
Definition v_pic (irq : Z) (v : irqs) : irqs := v_mask (u16 (Z.land (i_mask v) (Z.lnot (Z.shiftl 1 irq)))) v.
Definition v_table (f : gmap Z Z -> gmap Z Z) (v : irqs) : irqs :=
  mkIrqs (i_mask v) (i_pic1 v) (i_pic2 v) (i_drive v) (i_ismp v) (i_ncpu v) (if i_ismp v then f (i_table v) else i_table v) (i_uart v).
Definition route (irq cpu : Z) (t : gmap Z Z) : gmap Z Z :=
  <[REG_TABLE + 2 * irq + 1 := u32 (Z.shiftl cpu 24)]> (<[REG_TABLE + 2 * irq := u32 (T_IRQ0 + irq)]> t).
Definition v_uart (v : irqs) : irqs :=
  mkIrqs (i_mask v) (i_pic1 v) (i_pic2 v) (i_drive v) (i_ismp v) (i_ncpu v) (i_table v) true.
Fixpoint clear (n : nat) (i : Z) (t : gmap Z Z) : gmap Z Z :=
  match n with
  | O => t
  | S n' => clear n' (i + 1) (<[REG_TABLE + 2 * i + 1 := 0]> (<[REG_TABLE + 2 * i := u32 (Z.lor INT_DISABLED (T_IRQ0 + i))]> t))
  end.
Definition maxintr (t : gmap Z Z) : Z := Z.land (Z.shiftr (default 0 (t !! REG_VER)) 16) 0xFF.

Lemma last_out_snoc p q v out : last_out p (out ++ [(q, v)]) = if decide (q = p) then Some v else last_out p out.
Proof using.
  unfold last_out. rewrite filter_app. destruct (decide (q = p)) as [->|n].
  - rewrite filter_cons_True, filter_nil, last_snoc by done. done.
  - rewrite filter_cons_False, filter_nil, app_nil_r by done. done.
Qed.
Definition other_port (p : Z) : bool := negb (p =? 0x21) && negb (p =? 0xA1) && negb (p =? 0x1f6).
Lemma view_out p v s : other_port p = true -> view (set_out (hw_out s ++ [(p, v)]) s) = view s.
Proof using.
  unfold other_port. intros H. unfold view. cbn. rewrite !last_out_snoc.
  destruct (decide (p = 33)) as [->|]; [done|]. destruct (decide (p = 161)) as [->|]; [done|].
  destruct (decide (p = 502)) as [->|]; [done|]. done.
Qed.
Lemma gives_out p v s (Q : hw -> unit -> Prop) :
  other_port p = true -> (forall s', view s' = view s -> Q s' tt) -> gives (outb p v) s Q.
Proof using. intros Hp H. apply gives_outb, H, view_out, Hp. Qed.
Lemma gives_in p s (Q : hw -> Z -> Prop) : (forall s' v, view s' = view s -> Q s' v) -> gives (inb p) s Q.
Proof using. intros H. by apply gives_inb, H. Qed.
Lemma gives_picsetmask m s (Q : hw -> unit -> Prop) :
  0 <= m < 2 ^ 16 -> (forall s', view s' = v_mask m (view s) -> Q s' tt) -> gives (picsetmask m) s Q.
Proof using.
  intros Hm H. apply gives_bind, gives_modify, gives_bind, gives_outb, gives_outb, H.
  unfold view, v_mask. cbn. rewrite !last_out_snoc. cbn. f_equal. unfold u16. by rewrite Z.mod_small.
Qed.
Lemma gives_picenable irq s (Q : hw -> unit -> Prop) :
  (forall s', view s' = v_pic irq (view s) -> Q s' tt) -> gives (picenable irq) s Q.
Proof using.
  intros H. apply gives_bind, gives_get, gives_picsetmask; [apply Z.mod_pos_bound; lia|]. exact H.
Qed.
Lemma gives_ioapicenable irq cpu s (Q : hw -> unit -> Prop) :
  (forall s', view s' = v_table (route irq cpu) (view s) -> Q s' tt) -> gives (ioapicenable irq cpu) s Q.
Proof using.
  intros H. apply gives_bind, gives_get. destruct (hw_ismp s) eqn:E; cbn [negb].
  - apply gives_bind, gives_bind, gives_modify, gives_modify, gives_bind, gives_modify, gives_modify, H.
    unfold view, v_table. cbn. by rewrite E.
  - apply gives_ret, H. unfold view, v_table. cbn. by rewrite E.
Qed.
Lemma gives_clear n : forall i s (Q : hw -> unit -> Prop), hw_ismp s = true ->
  (forall s', view s' = v_table (clear n i) (view s) -> Q s' tt) -> gives (ioapic_clear n i) s Q.
Proof using.
  induction n as [|n IH]; intros i s Q E H; cbn [ioapic_clear].
  - apply gives_ret, H. unfold view, v_table. cbn. by rewrite E.
  - apply gives_bind, gives_bind, gives_modify, gives_modify, gives_bind, gives_bind, gives_modify, gives_modify, IH; [done|].
    intros s' E'. apply H. rewrite E'. unfold view, v_table. cbn. by rewrite E.
Qed.
Lemma gives_ioapicinit s (Q : hw -> unit -> Prop) :
  (forall s', view s' = v_table (fun t => clear (Z.to_nat (maxintr t + 1)) 0 t) (view s) -> Q s' tt) -> gives ioapicinit s Q.
Proof using.
  intros H. apply gives_bind, gives_get. destruct (hw_ismp s) eqn:E; cbn [negb].
  - apply gives_bind, gives_bind, gives_modify. eexists _, _. split; [unfold kgets; reflexivity|].
    apply gives_bind, gives_bind, gives_modify. eexists _, _. split; [unfold kgets; reflexivity|].
    apply gives_bind, gives_kwhen; intros _; [apply gives_modify|]; (apply gives_clear; [exact E|]);
      intros s' E'; apply H; rewrite E'; unfold view, v_table; cbn; by rewrite E.
  - apply gives_ret, H. unfold view, v_table. cbn. by rewrite E.
Qed.
(** A write to the 8259A leaves the view as it is up to their masks. *)
Lemma gives_out_pic p v s (Q : hw -> unit -> Prop) : p <> 0x1f6 ->
  (forall s', hw_irqmask s' = hw_irqmask s -> v_mask irqmask0 (view s') = v_mask irqmask0 (view s) -> Q s' tt) -> gives (outb p v) s Q.
Proof using.
  intros Hp H. apply gives_outb, H; [done|]. unfold v_mask, view. cbn [i_drive i_ismp i_ncpu i_table i_uart hw_out set_out].
  rewrite last_out_snoc. by destruct (decide (p = 502)).
Qed.
Lemma gives_picinit s (Q : hw -> unit -> Prop) :
  hw_irqmask s = irqmask0 -> (forall s', view s' = v_mask irqmask0 (view s) -> Q s' tt) -> gives picinit s Q.
Proof using.
  intros E H. unfold picinit. do 14 (apply gives_bind, gives_out_pic; [done|]; intros ? ? ?). apply gives_bind, gives_get.
  match goal with |- context [kwhen (negb (hw_irqmask ?x =? _))] => assert (hw_irqmask x = irqmask0) as -> by congruence end.
  apply gives_picsetmask; [by vm_compute|]. intros s1 E1. apply H. congruence.
Qed.
Lemma gives_uart_wait n : forall s (Q : hw -> unit -> Prop), (forall s', view s' = view s -> Q s' tt) -> gives (uart_wait n) s Q.
Proof using.
  induction n as [|n IH]; intros s Q H; cbn [uart_wait]; [by apply gives_ret, H|].
  apply gives_bind, gives_in. intros s1 v E. destruct (has v 0x20); [by apply gives_ret, H|].
  apply IH. intros s2 E2. apply H. congruence.
Qed.
Lemma gives_uartputc c s (Q : hw -> unit -> Prop) : (forall s', view s' = view s -> Q s' tt) -> gives (uartputc c) s Q.
Proof using.
  intros H. apply gives_bind, gives_get. destruct (negb _); [by apply gives_ret, H|].
  apply gives_bind, gives_uart_wait. intros s1 E1. apply gives_out; [done|]. intros s2 E2. apply H. congruence.
Qed.
Lemma gives_uart_puts cs : forall s (Q : hw -> unit -> Prop), (forall s', view s' = view s -> Q s' tt) -> gives (uart_puts cs) s Q.
Proof using.
  induction cs as [|c cs IH]; intros s Q H; cbn [uart_puts]; [by apply gives_ret, H|].
  apply gives_bind, gives_uartputc. intros s1 E1. apply IH. intros s2 E2. apply H. congruence.
Qed.
Lemma gives_uartinit s (Q : hw -> unit -> Prop) :
  (forall s', view s' = view s \/ view s' = v_table (route IRQ_COM1 0) (v_pic IRQ_COM1 (v_uart (view s))) -> Q s' tt) -> gives uartinit s Q.
Proof using.
  intros H. unfold uartinit. do 7 (apply gives_bind, gives_out; [done|]; intros ? ?). apply gives_bind, gives_in.
  intros s1 v E1. destruct (v =? 255); [apply gives_ret, H; left; congruence|].
  apply gives_bind, gives_modify, gives_bind, gives_in. intros s2 ? E2. apply gives_bind, gives_in. intros s3 ? E3.
  apply gives_bind, gives_picenable. intros s4 E4. apply gives_bind, gives_ioapicenable. intros s5 E5.
  apply gives_uart_puts. intros s6 E6. apply H. right. rewrite E6, E5, E4, E3, E2.
  change (view (set_uart true s1)) with (v_uart (view s1)). replace (view s1) with (view s) by congruence. reflexivity.
Qed.

Lemma gives_find_disk1 n : forall s (Q : hw -> unit -> Prop), (forall s', view s' = view s -> Q s' tt) -> gives (find_disk1 n) s Q.
Proof using.
  induction n as [|n IH]; intros s Q H; cbn [find_disk1]; [by apply gives_ret, H|].
  apply gives_bind, gives_in. intros s1 v E. destruct (negb _); [by apply gives_modify, H|].
  apply IH. intros s2 E2. apply H. congruence.
Qed.

(** The disk answers ready from the read [n] on, while drive 1 is not selected. *)
Definition disk_ready (n : nat) : Prop := forall t out, (n <= t)%nat ->
  last_out 0x1f6 out <> Some 0xf0 -> Z.land (inport t out 0x1f7) (Z.lor IDE_BSY IDE_DRDY) = IDE_DRDY.
Lemma gives_ide_ready n : disk_ready n -> forall k s (Q : hw -> Z -> Prop),
  (n - hw_time s < k)%nat -> i_drive (view s) <> Some 0xf0 ->
  (forall s' r, view s' = view s -> Q s' r) -> gives (ide_ready k) s Q.
Proof using.
  intros Hn. induction k as [|k IH]; intros s Q Hk Hd H; [lia|]. cbn [ide_ready].
  apply gives_bind, gives_inb. destruct (negb _) eqn:E; [|by apply gives_ret, H].
  apply IH; cbn.
  - destruct (decide (n <= hw_time s)%nat); [|lia]. rewrite Hn in E by done. discriminate.
  - exact Hd.
  - intros s' r E'. by apply H.
Qed.
Lemma gives_ideinit n k s (Q : hw -> unit -> Prop) :
  disk_ready n -> (n < k)%nat -> i_drive (view s) <> Some 0xf0 ->
  (forall s', (exists d, view s' = let v := v_table (route IRQ_IDE (i_ncpu (view s) - 1)) (v_pic IRQ_IDE (view s)) in
     mkIrqs (i_mask v) (i_pic1 v) (i_pic2 v) d (i_ismp v) (i_ncpu v) (i_table v) (i_uart v)) -> Q s' tt) ->
  gives (ideinit k) s Q.
Proof using.
  intros Hn Hk Hd H. apply gives_bind, gives_picenable. intros s1 E1. apply gives_bind, gives_get.
  apply gives_bind, gives_ioapicenable. intros s2 E2. apply gives_bind, gives_bind.
  apply (gives_ide_ready n Hn); [lia | by rewrite E2, E1 |]. intros s3 r E3. cbn [andb]. apply gives_ret.
  apply gives_bind, gives_outb. apply gives_bind, gives_find_disk1. intros s4 E4. apply gives_outb, H.
  exists (Some 0xe0). change (hw_ncpu s1) with (i_ncpu (view s1)) in E2. rewrite E1 in E2.
  change (i_ncpu (v_pic _ (view s))) with (i_ncpu (view s)) in E2. rewrite <- E2, <- E3.
  transitivity (mkIrqs (i_mask (view s4)) (i_pic1 (view s4)) (i_pic2 (view s4)) (Some 0xe0) (i_ismp (view s4)) (i_ncpu (view s4)) (i_table (view s4)) (i_uart (view s4))).
  - unfold view. cbn. by rewrite !last_out_snoc.
  - rewrite E4. unfold view. cbn. by rewrite !last_out_snoc.
Qed.
Lemma gives_timerinit s (Q : hw -> unit -> Prop) : (forall s', view s' = v_pic IRQ_TIMER (view s) -> Q s' tt) -> gives timerinit s Q.
Proof using.
  intros H. unfold timerinit. do 3 (apply gives_bind, gives_out; [done|]; intros ? ?).
  apply gives_picenable. intros s1 E. apply H. rewrite E. f_equal. congruence.
Qed.

Lemma clear_other n : forall i t r, (r < REG_TABLE + 2 * i \/ REG_TABLE + 2 * (i + Z.of_nat n) <= r) -> clear n i t !! r = t !! r.
Proof using.
  induction n as [|n IH]; intros i t r H; cbn [clear]; [done|].
  rewrite IH by lia. by rewrite !lookup_insert_ne by lia.
Qed.
Lemma clear_entry n : forall i t j, i <= j < i + Z.of_nat n ->
  clear n i t !! (REG_TABLE + 2 * j) = Some (u32 (Z.lor INT_DISABLED (T_IRQ0 + j))) /\ clear n i t !! (REG_TABLE + 2 * j + 1) = Some 0.
Proof using.
  induction n as [|n IH]; intros i t j H; cbn [clear]; [lia|]. destruct (decide (j = i)) as [->|]; [|apply IH; lia].
  rewrite !clear_other by lia. rewrite lookup_insert_ne by lia. by rewrite !lookup_insert_eq.
Qed.
(** The redirection entry of [i] *)
Definition entry (t : gmap Z Z) (i : Z) : option Z * option Z := (t !! (REG_TABLE + 2 * i), t !! (REG_TABLE + 2 * i + 1)).
Lemma entry_route irq cpu t i :
  entry (route irq cpu t) i = if decide (i = irq) then (Some (u32 (T_IRQ0 + irq)), Some (u32 (Z.shiftl cpu 24))) else entry t i.
Proof using.
  unfold entry, route. destruct (decide (i = irq)) as [->|].
  - rewrite lookup_insert_ne by lia. by rewrite !lookup_insert_eq.
  - by rewrite !lookup_insert_ne by lia.
Qed.
Lemma entry_clear n t i : 0 <= i < Z.of_nat n -> entry (clear n 0 t) i = (Some (u32 (Z.lor INT_DISABLED (T_IRQ0 + i))), Some 0).
Proof using. intros H. unfold entry. by destruct (clear_entry n 0 t i H) as [-> ->]. Qed.

(** The lines that are let through at the end of main's device setup *)
Definition wanted (ismp uart : bool) (irq : Z) : bool :=
  (irq =? IRQ_SLAVE) || (irq =? IRQ_KBD) || (irq =? IRQ_IDE) || (uart && (irq =? IRQ_COM1)) || (negb ismp && (irq =? IRQ_TIMER)).
Definition routed (uart : bool) (irq : Z) : bool := (irq =? IRQ_KBD) || (irq =? IRQ_IDE) || (uart && (irq =? IRQ_COM1)).

(** The view after main's device setup, [u]: a serial port was found *)
Definition after_devices (u : bool) (d : option Z) (v : irqs) : irqs :=
  let v1 := v_table (fun t => clear (Z.to_nat (maxintr t + 1)) 0 t) (v_mask irqmask0 v) in
  let v2 := v_table (route IRQ_KBD 0) (v_pic IRQ_KBD v1) in
  let v3 := if u then v_table (route IRQ_COM1 0) (v_pic IRQ_COM1 (v_uart v2)) else v2 in
  let v4 := v_table (route IRQ_IDE (i_ncpu v3 - 1)) (v_pic IRQ_IDE v3) in
  let v5 := mkIrqs (i_mask v4) (i_pic1 v4) (i_pic2 v4) d (i_ismp v4) (i_ncpu v4) (i_table v4) (i_uart v4) in
  if i_ismp v5 then v5 else v_pic IRQ_TIMER v5.
Lemma gives_main_devices n k s : disk_ready n -> (n < k)%nat -> last_out 0x1f6 (hw_out s) <> Some 0xf0 -> hw_irqmask s = irqmask0 ->
  gives (main_devices k) s (fun s' _ => exists u d, view s' = after_devices u d (view s)).
Proof using.
  intros Hn Hk Hd Hm. apply gives_bind, gives_picinit; [done|]. intros s1 E1.
  apply gives_bind, gives_ioapicinit. intros s2 E2. apply gives_bind, gives_bind, gives_picenable. intros s3 E3.
  apply gives_ioapicenable. intros s4 E4. apply gives_bind, gives_uartinit. intros s5 E5.
  assert (exists u : bool, view s5 = if u then v_table (route IRQ_COM1 0) (v_pic IRQ_COM1 (v_uart (view s4))) else view s4)
    as [u E5'] by (destruct E5; [by exists false | by exists true]). clear E5.
  rewrite E4, E3, E2, E1 in E5'. apply gives_bind, (gives_ideinit n); [done | done | by rewrite E5'; destruct u |].
  intros s6 [d E6]. rewrite E5' in E6. apply gives_bind, gives_get.
  assert (Ei : hw_ismp s6 = i_ismp (view s6)) by reflexivity.
  apply gives_kwhen; rewrite Ei; intros Hi; [apply gives_timerinit; intros s7 E7|]; exists u, d;
    unfold after_devices; cbv zeta in E6 |- *; rewrite <- E6; destruct (i_ismp (view s6)); try discriminate Hi; [exact E7 | reflexivity].
Qed.
Lemma after_devices_mask u d v irq : 0 <= irq < 16 -> i_uart v = false ->
  Z.testbit (i_mask (after_devices u d v)) irq = negb (wanted (i_ismp v) (i_uart (after_devices u d v)) irq).
Proof using.
  intros Hi Hu. destruct v as [m p1 p2 dr mp nc t ua]. cbn in Hu. subst ua.
  assert (K : forall j, In j (seqZ 0 16) -> Z.testbit (i_mask (after_devices u d (mkIrqs m p1 p2 dr mp nc t false))) j
    = negb (wanted mp (i_uart (after_devices u d (mkIrqs m p1 p2 dr mp nc t false))) j)).
  { destruct u, mp; cbn -[Z.testbit In irqmask0 u16 wanted]; intros j Hj; repeat (destruct Hj as [<-|Hj]; [reflexivity|]); destruct Hj. }
  apply K, list_elem_of_In, elem_of_seqZ. lia.
Qed.
Lemma after_devices_pics u d v : let v' := after_devices u d v in
  i_pic1 v' = Some (u8 (i_mask v')) /\ i_pic2 v' = Some (u8 (Z.shiftr (i_mask v') 8)).
Proof using. destruct v as [m p1 p2 dr mp nc t ua]. destruct u, mp; split; reflexivity. Qed.
Lemma after_devices_table u d v : i_uart v = false ->
  i_uart (after_devices u d v) = u /\
  i_table (after_devices u d v) =
    if i_ismp v
    then let t := route IRQ_KBD 0 (clear (Z.to_nat (maxintr (i_table v) + 1)) 0 (i_table v)) in
         route IRQ_IDE (i_ncpu v - 1) (if u then route IRQ_COM1 0 t else t)
    else i_table v.
Proof using. destruct v as [m p1 p2 dr mp nc t ua]. cbn. intros ->. destruct u, mp; split; reflexivity. Qed.
Lemma lor_disabled i : 0 <= i <= 255 -> 0 <= Z.lor INT_DISABLED (T_IRQ0 + i) < 2 ^ 32.
Proof using.
  intros H. unfold T_IRQ0. assert (0 <= Z.lor 65536 (32 + i)) by (apply Z.lor_nonneg; lia). split; [done|].
  assert (Z.lor 65536 (32 + i) <> 0) by (rewrite Z.lor_eq_0_iff; lia).
  apply Z.log2_lt_pow2; [lia|]. rewrite Z.log2_lor by lia.
  pose proof (Z.log2_le_mono (32 + i) 287 ltac:(lia)). change (Z.log2 287) with 8 in *. change (Z.log2 65536) with 16. lia.
Qed.
Lemma entry_devices (u : bool) nc t irq : 0 <= irq <= maxintr t \/ routed u irq = true ->
  entry (let t1 := route IRQ_KBD 0 (clear (Z.to_nat (maxintr t + 1)) 0 t) in
         route IRQ_IDE nc (if u then route IRQ_COM1 0 t1 else t1)) irq =
  if routed u irq then (Some (T_IRQ0 + irq), Some (if irq =? IRQ_IDE then u32 (Z.shiftl nc 24) else 0))
  else (Some (Z.lor INT_DISABLED (T_IRQ0 + irq)), Some 0).
Proof using.
  intros H. cbv zeta. rewrite entry_route. unfold routed in *.
  destruct (decide (irq = IRQ_IDE)) as [->|N1]; [reflexivity|]. rewrite (proj2 (Z.eqb_neq irq IRQ_IDE) N1) in *.
  assert (E : entry (if u then route IRQ_COM1 0 (route IRQ_KBD 0 (clear (Z.to_nat (maxintr t + 1)) 0 t)) else
    route IRQ_KBD 0 (clear (Z.to_nat (maxintr t + 1)) 0 t)) irq =
    if u && (irq =? IRQ_COM1) then (Some (T_IRQ0 + irq), Some 0)
    else entry (route IRQ_KBD 0 (clear (Z.to_nat (maxintr t + 1)) 0 t)) irq).
  { destruct u; [|done]. rewrite entry_route. destruct (decide (irq = IRQ_COM1)) as [->|N2]; [reflexivity|].
    by rewrite (proj2 (Z.eqb_neq irq IRQ_COM1) N2). }
  rewrite E. clear E. destruct (u && (irq =? IRQ_COM1)); [by rewrite orb_true_r|].
  rewrite !orb_false_r in *. rewrite entry_route. destruct (decide (irq = IRQ_KBD)) as [->|N3]; [reflexivity|].
  rewrite (proj2 (Z.eqb_neq irq IRQ_KBD) N3) in *. destruct H as [H|H]; [|discriminate].
  assert (maxintr t <= 255) by (unfold maxintr; change 0xFF with (Z.ones 8) at 1; rewrite Z.land_ones by lia;
    pose proof (Z.mod_pos_bound (Z.shiftr (default 0 (t !! REG_VER)) 16) (2 ^ 8) ltac:(lia)); lia).
  rewrite entry_clear by lia. do 2 f_equal. apply u32_small, lor_disabled. lia.
Qed.

(** C22: the device part of main lets through exactly the interrupts the drivers
    serve.  Whatever the devices answer, if the disk gets ready, main's calls
    return; the 8259A masks, in memory and as last written to the chips, have
    the lines of the keyboard, the disk, the slave and, where found, the serial
    port on, the timer's only on a uniprocessor, and all others off; on a
    multiprocessor the I/O APIC delivers the same lines at T_IRQ0 + irq, the
    disk's to the last cpu and the others' to cpu 0, and masks all other
    entries, and on a uniprocessor it is not touched. *)
Theorem main_devices_interrupts (n k : nat) (s : hw)
    (Hn : disk_ready n) (Hk : (n < k)%nat) (Hd : last_out 0x1f6 (hw_out s) <> Some 0xf0)
    (Hm : hw_irqmask s = irqmask0) (Hu : hw_uart s = false) :
  exists s', main_devices k s = Done s' tt /\
    (forall irq, 0 <= irq < 16 -> Z.testbit (hw_irqmask s') irq = negb (wanted (hw_ismp s) (hw_uart s') irq)) /\
    last_out (IO_PIC1 + 1) (hw_out s') = Some (u8 (hw_irqmask s')) /\
    last_out (IO_PIC2 + 1) (hw_out s') = Some (u8 (Z.shiftr (hw_irqmask s') 8)) /\
    if hw_ismp s
    then forall irq, 0 <= irq <= maxintr (hw_iodata s) \/ routed (hw_uart s') irq = true ->
      entry (hw_iodata s') irq =
        if routed (hw_uart s') irq
        then (Some (T_IRQ0 + irq), Some (if irq =? IRQ_IDE then u32 (Z.shiftl (hw_ncpu s - 1) 24) else 0))
        else (Some (Z.lor INT_DISABLED (T_IRQ0 + irq)), Some 0)
    else hw_iodata s' = hw_iodata s.
Proof using.
  destruct (gives_main_devices n k s Hn Hk Hd Hm) as (s' & [] & E & u & d & V). exists s'. split; [exact E|].
  destruct (after_devices_table u d (view s) Hu) as [EU ET]. destruct (after_devices_pics u d (view s)) as [P1 P2].
  pose proof (fun irq H => after_devices_mask u d (view s) irq H Hu) as M.
  rewrite <- V in EU, ET, P1, P2, M. split; [exact M|]. split; [exact P1|]. split; [exact P2|].
  cbn in EU, ET. destruct (hw_ismp s); [|exact ET]. intros irq H. rewrite EU in *. rewrite ET. by apply entry_devices.
Qed.

(** C27: cmostime tells the time.  Of a clock chip that keeps a two-digit date,
    in BCD or in binary as its status register B says, that ticks at most once
    in thirteen reads and is left alone by ticks for 26 reads at some point,
    cmostime returns a date that the chip showed between the call and the
    return, in binary, with 2000 added to the year. *)
Theorem cmostime_correct (cmos : nat -> Z -> Z) (show : nat -> rtcdate) (bcd : bool) (T k : nat) (s : hw)
    (Hc : forall t out r, inport t (out ++ [(CMOS_PORT, r)]) CMOS_RETURN = cmos t r)
    (Hs : shows cmos show (if bcd then bcd_code else id))
    (Hb : (Z.land (cmos (hw_time s) CMOS_STATB) 4 =? 0) = bcd)
    (Hd : forall t, two_digits (show t)) (Ht : ticks_once show)
    (HT : quiet cmos show T) (Hs0 : (hw_time s < T)%nat) (Hk : (T + 13 - hw_time s < k)%nat) :
  exists s' i, (hw_time s <= i < hw_time s')%nat /\
    cmostime k s = Done s' (let d := show i in mkDate (second d) (minute d) (hour d) (day d) (month d) (year d + 2000)).
Proof using.
  enough (G : gives (cmostime k) s (fun s' r => exists i, (hw_time s <= i < hw_time s')%nat /\
    r = (let d := show i in mkDate (second d) (minute d) (hour d) (day d) (month d) (year d + 2000)))).
  { destruct G as (s' & r & E & i & Hi & ->). by exists s', i. }
  apply gives_bind, (gives_cmos_read cmos Hc); [reflexivity|]. change (Z.shiftl 1 2) with 4. rewrite Hb. apply gives_bind.
  eapply gives_mono; [eapply (loop_gives cmos Hc show _ Hs Ht T HT); cbn; lia|]. cbn [hw_time set_time].
  intros s1 d (i & Hi & ->). apply gives_ret. exists i. split; [lia|].
  specialize (Hd i). unfold two_digits in Hd. rewrite !Forall_cons in Hd. destruct Hd as (? & ? & ? & ? & ? & ? & _).
  destruct bcd; unfold encode, convert, id; cbn [second minute hour day month year]; rewrite ?CONV_bcd by done; by rewrite u32_small by lia.
Qed.

(** The state but for the local APIC's registers and the count of reads *)
Definition rest (s : hw) : hw := set_time 0 (set_lreg ∅ s).
Lemma rest_same s s' : rest s = rest s' -> hw_mem s = hw_mem s' /\ hw_out s = hw_out s'.
Proof using. intros E. exact (conj (f_equal hw_mem E) (f_equal hw_out E)). Qed.
Lemma gives_lapicw i v s (Q : hw -> unit -> Prop) :
  (forall s', hw_lreg s' = <[i := u32 v]> (hw_lreg s) -> rest s' = rest s -> Q s' tt) -> gives (lapicw i v) s Q.
Proof using. intros H. eexists _, _. split; [unfold lapicw, lapicr; reflexivity|]. by apply H. Qed.
Lemma gives_lapicr i s (Q : hw -> Z -> Prop) :
  (forall s' v, hw_lreg s' = hw_lreg s -> rest s' = rest s -> Q s' v) -> gives (lapicr i) s Q.
Proof using. intros H. eexists _, _. split; [unfold lapicr; reflexivity|]. by apply H. Qed.
(** The local APIC accepts the interrupt command from the read [n] on. *)
Definition delivers (n : nat) : Prop := forall t, (n <= t)%nat -> has (lapic_in t ICRLO) DELIVS = false.
Lemma gives_wait_delivered n : delivers n -> forall k s (Q : hw -> unit -> Prop), (n - hw_time s < k)%nat ->
  (forall s', hw_lreg s' = hw_lreg s -> rest s' = rest s -> Q s' tt) -> gives (wait_delivered k) s Q.
Proof using.
  intros Hn. induction k as [|k IH]; intros s Q Hk H; [lia|]. cbn [wait_delivered].
  apply gives_bind. eexists _, _. split; [unfold lapicr; reflexivity|].
  destruct (has _ _) eqn:E; [|by apply gives_ret, H]. apply IH; [|intros s' E1 E2; by apply H]. cbn.
  destruct (decide (n <= hw_time s)%nat); [|lia]. rewrite Hn in E by done. discriminate.
Qed.
(** lapicinit turns the local APIC on, with the timer interrupting periodically
    at the vector trap() serves as the clock, the local lines masked, errors at
    their own vector and every priority admitted. *)
Theorem lapicinit_enables (n k : nat) (s : hw) (Hl : hw_lapic s <> 0) (Hn : delivers n) (Hk : (n < k)%nat) :
  exists s', lapicinit k s = Done s' tt /\ rest s' = rest s /\
    hw_lreg s' !! SVR = Some (ENABLE + (T_IRQ0 + IRQ_SPURIOUS)) /\ hw_lreg s' !! TIMER = Some (PERIODIC + (T_IRQ0 + IRQ_TIMER)) /\
    hw_lreg s' !! TICR = Some 10000000 /\ hw_lreg s' !! TDCR = Some X1 /\
    hw_lreg s' !! LINT0 = Some MASKED /\ hw_lreg s' !! LINT1 = Some MASKED /\
    hw_lreg s' !! ERROR = Some (T_IRQ0 + IRQ_ERROR) /\ hw_lreg s' !! TPR = Some 0.
Proof using.
  match goal with |- exists s', _ /\ @?P s' => enough (G : gives (lapicinit k) s (fun s' _ => P s')) by (destruct G as (s' & [] & G); by exists s') end.
  apply gives_bind, gives_get. rewrite (proj2 (Z.eqb_neq _ _) Hl). cbv beta.
  do 6 (apply gives_bind, gives_lapicw; intros ? ? ?). apply gives_bind, gives_lapicr. intros ? ? ? ?.
  apply gives_bind, gives_kwhen; intros _; [apply gives_lapicw; intros ? ? ?|];
    (do 6 (apply gives_bind, gives_lapicw; intros ? ? ?)); apply gives_bind, (gives_wait_delivered n Hn); try lia;
    intros ? ? ?; apply gives_lapicw; intros ? ? ?; (split; [congruence|]);
    repeat match goal with E : hw_lreg ?x = _ |- context [hw_lreg ?x] => rewrite E; clear E end;
    rewrite !lookup_insert; repeat split; reflexivity.
Qed.

Lemma lor_add v : 0 <= v < 256 -> Z.lor STARTUP v = STARTUP + v.
Proof using.
  intros H. assert (E : Z.land STARTUP v = 0).
  { replace v with (Z.land v (Z.ones 8)) by (rewrite Z.land_ones by lia; apply Z.mod_small; lia).
    rewrite (Z.land_comm v), Z.land_assoc. reflexivity. }
  pose proof (Z.add_lor_land STARTUP v). lia.
Qed.
(** A real-mode far pointer stored at [w] *)
Lemma far_pointer m w addr : 0 <= addr < 2 ^ 20 -> addr mod 4096 = 0 ->
  let m' := st16 (st16 m w 0) (w + 2) (Z.shiftr addr 4) in
  16 * (ld8 m' (w + 2) + 256 * ld8 m' (w + 3)) + (ld8 m' w + 256 * ld8 m' (w + 1)) = addr /\
  forall b, b < w \/ w + 4 <= b -> ld8 m' b = ld8 m b.
Proof using.
  clear inport lapic_in. intros Ha Hp m'. subst m'. unfold st16. rewrite Z.shiftr_div_pow2 by lia. rewrite !ld8_st8.
  split; [|intros b Hb; rewrite !ld8_st8]; repeat match goal with |- context [?x =? ?y] =>
    first [rewrite (proj2 (Z.eqb_neq x y)) by lia | rewrite (proj2 (Z.eqb_eq x y)) by lia] end; [wraps|done].
Qed.

(** lapicstartap sends the other processor to [addr].  It leaves the warm
    reset vector at 40:67 as a far pointer to [addr] and the shutdown code that
    makes the BIOS use it in the clock chip, changes nothing else of memory, and
    its last command to the local APIC is a start-up interrupt for [apicid]
    whose page number is that of [addr]. *)
Theorem lapicstartap_points_to (apicid addr : Z) (s : hw)
    (Hid : 0 <= apicid < 256) (Ha : 0 <= addr < 2 ^ 20) (Hp : addr mod 4096 = 0) :
  exists s', lapicstartap apicid addr s = Done s' tt /\
    (let m := hw_mem s' in let w := p2v 0x467 in
     16 * (ld8 m (w + 2) + 256 * ld8 m (w + 3)) + (ld8 m w + 256 * ld8 m (w + 1)) = addr /\
     forall b, b < w \/ w + 4 <= b -> ld8 m b = ld8 (hw_mem s) b) /\
    hw_out s' = hw_out s ++ [(CMOS_PORT, 0xF); (CMOS_RETURN, 0xA)] /\
    hw_lreg s' !! ICRHI = Some (apicid * 2 ^ 24) /\
    (exists v, hw_lreg s' !! ICRLO = Some (STARTUP + v) /\ 0 <= v < 256 /\ v * 4096 = addr) /\
    (forall r, r <> ICRHI -> r <> ICRLO -> hw_lreg s' !! r = hw_lreg s !! r).
Proof using.
  match goal with |- exists s', _ /\ @?P s' => enough (G : gives (lapicstartap apicid addr) s (fun s' _ => P s')) by (destruct G as (s' & [] & G); by exists s') end.
  unfold lapicstartap. apply gives_bind, gives_outb, gives_bind, gives_outb. cbv zeta.
  apply gives_bind, gives_modify, gives_bind, gives_modify. do 3 (apply gives_bind, gives_lapicw; intros ? ? ?).
  cbn [send_startup]. do 4 (apply gives_bind, gives_lapicw; intros ? ? ?). apply gives_ret.
  match goal with E : rest ?a = rest ?b, E1 : rest ?b = rest ?c, E2 : rest ?c = rest ?d, E3 : rest ?d = rest ?e, E4 : rest ?e = rest ?f,
    E5 : rest ?f = rest ?g, E6 : rest ?g = rest ?h |- _ => assert (R : rest a = rest h) by congruence; clear E E1 E2 E3 E4 E5 E6 end.
  destruct (rest_same _ _ R) as [-> ->]. repeat match goal with E : hw_lreg ?x = _ |- context [hw_lreg ?x] => rewrite E; clear E end.
  split; [exact (far_pointer (hw_mem s) (p2v 0x467) addr Ha Hp)|].
  split; [cbn [hw_out set_hmem set_out]; rewrite <- app_assoc; reflexivity|].
  rewrite !lookup_insert_eq. rewrite lookup_insert_ne, lookup_insert_eq by done. split; [|split].
  - f_equal. rewrite Z.shiftl_mul_pow2, u32_small by lia. done.
  - exists (addr / 4096). rewrite Z.shiftr_div_pow2 by lia. change (2 ^ 12) with 4096.
    assert (0 <= addr / 4096 < 256) by (Z.div_mod_to_equations; lia). split; [|split; [done|Z.div_mod_to_equations; lia]].
    f_equal. rewrite lor_add by lia. apply u32_small. lia.
  - intros r H1 H2. by rewrite !lookup_insert_ne by done.
Qed.
End Devices.

(** ** entrypgdir of main.c, the page directory of entry.S and entryother.S *)
Definition entrypgdir (i : Z) : Z :=
  if i =? 0 then Z.lor (Z.lor (Z.lor 0 PTE_P) PTE_W) PTE_PS
  else if i =? Z.shiftr KERNBASE PDXSHIFT then Z.lor (Z.lor (Z.lor 0 PTE_P) PTE_W) PTE_PS
  else 0.
(** What the processor makes of an entry for a 4-Mbyte page *)
Definition translate_4m (pgdir : Z -> Z) (va : Z) : option Z :=
  let e := pgdir (PDX va) in
  if has e PTE_P && has e PTE_PS then Some (Z.lor (Z.land e 0xFFC00000) (Z.land va 0x3FFFFF)) else None.
(** The boot page table maps the first 4 Mbytes of memory, where the kernel is
    loaded, both at 0 and at KERNBASE, and nothing else: the code at low
    addresses goes on running when paging is turned on, and the linked one can
    be jumped to. *)
Theorem entrypgdir_maps (va : Z) (H : 0 <= va < 2 ^ 32) :
  translate_4m entrypgdir va =
    if va <? 0x400000 then Some va
    else if (KERNBASE <=? va) && (va <? KERNBASE + 0x400000) then Some (va - KERNBASE)
    else None.
Proof.
  unfold translate_4m, entrypgdir. cbv zeta. assert (E : PDX va = va / 2 ^ 22).
  { unfold PDX, PDXSHIFT. rewrite Z.shiftr_div_pow2 by lia. change 0x3FF with (Z.ones 10). rewrite Z.land_ones by lia.
    apply Z.mod_small. Z.div_mod_to_equations; lia. }
  rewrite E. change (Z.shiftr KERNBASE PDXSHIFT) with 512. change KERNBASE with 2147483648. change (2147483648 + 0x400000) with 2151677952.
  assert (L : Z.land va 0x3FFFFF = va mod 2 ^ 22) by (change 0x3FFFFF with (Z.ones 22); by rewrite Z.land_ones by lia).
  destruct (va / 2 ^ 22 =? 0) eqn:E0; [|destruct (va / 2 ^ 22 =? 512) eqn:E1]; breflect.
  - rewrite (proj2 (Z.ltb_lt va _)) by (Z.div_mod_to_equations; lia). 
    change (Some (Z.lor 0 (Z.land va 0x3FFFFF)) = Some va). rewrite Z.lor_0_l, L. f_equal. Z.div_mod_to_equations; lia.
  - rewrite (proj2 (Z.ltb_ge va 0x400000)), (proj2 (Z.leb_le _ va)), (proj2 (Z.ltb_lt va _)) by (Z.div_mod_to_equations; lia).
    change (Some (Z.lor 0 (Z.land va 0x3FFFFF)) = Some (va - 2147483648)). rewrite Z.lor_0_l, L. f_equal. Z.div_mod_to_equations; lia.
  - rewrite (proj2 (Z.ltb_ge va 0x400000)) by (Z.div_mod_to_equations; lia). cbn.
    destruct (2147483648 <=? va) eqn:E2, (va <? 2151677952) eqn:E3; try reflexivity; breflect; exfalso; Z.div_mod_to_equations; lia.
Qed.
Lemma entrypgdir_maps_witness : 0 <= KERNBASE + 5 < 2 ^ 32 /\ translate_4m entrypgdir (KERNBASE + 5) = Some 5.
Proof. split; [by vm_compute|]. rewrite (entrypgdir_maps (KERNBASE + 5)); [reflexivity | by vm_compute]. Defined.

(** ** Concrete machines *)
(** Two processors, an I/O APIC with 24 entries, a serial port and disk 0 *)
Definition demo_in (t : nat) (out : list (Z * Z)) (p : Z) : Z := if p =? 0x1f7 then 0x40 else 0x60.
Definition demo_hw : hw :=
  mkHw [] 0 irqmask0 0xfee00000 ∅ true 2 0 0 {[REG_VER := Z.shiftl 23 16]} false [] false ∅.
Lemma demo_ready : disk_ready demo_in 0.
Proof. intros t out _ _. reflexivity. Qed.
Lemma main_devices_interrupts_witness : exists s', main_devices demo_in 1 demo_hw = Done s' tt /\
  Z.testbit (hw_irqmask s') IRQ_KBD = false /\ Z.testbit (hw_irqmask s') IRQ_TIMER = true.
Proof.
  destruct (main_devices_interrupts demo_in 0 1 demo_hw) as (s' & E & M & _);
    [exact demo_ready | lia | discriminate | reflexivity | reflexivity |].
  exists s'. split; [exact E|]. split; rewrite M; [reflexivity | vm_compute; split; [discriminate|reflexivity] | |].
  - destruct (hw_uart s'); reflexivity.
  - vm_compute. split; [discriminate|reflexivity].
Defined.

(** A clock in BCD that passes midnight of New Year at the read 5 *)
Definition demo_show (t : nat) : rtcdate := if (t <? 5)%nat then mkDate 59 59 23 31 12 16 else mkDate 0 0 0 1 1 17.
Definition demo_cmos (t : nat) (r : Z) : Z :=
  let d := demo_show t in
  if r =? SECS then bcd_code (second d) else if r =? MINS then bcd_code (minute d) else if r =? HOURS then bcd_code (hour d)
  else if r =? DAY then bcd_code (day d) else if r =? MONTH then bcd_code (month d) else if r =? YEAR then bcd_code (year d) else 0.
Definition demo_clock_in (t : nat) (out : list (Z * Z)) (p : Z) : Z := demo_cmos t (default 0 (last_out CMOS_PORT out)).
Lemma demo_digits t : two_digits (demo_show t).
Proof. unfold demo_show. destruct (t <? 5)%nat; unfold two_digits; cbn; repeat constructor; lia. Qed.
Lemma demo_ticks : ticks_once demo_show.
Proof. intros t. exists 5%nat, (mkDate 59 59 23 31 12 16), (mkDate 0 0 0 1 1 17). reflexivity. Qed.
Lemma demo_quiet : quiet demo_cmos demo_show 5.
Proof.
  intros i Hi. split; [|reflexivity]. unfold demo_show. by rewrite (proj2 (Nat.ltb_ge _ _)) by lia.
Qed.
Lemma cmostime_correct_witness : exists s' i, (0 <= i < hw_time s')%nat /\
  cmostime demo_clock_in 20 demo_hw = Done s' (let d := demo_show i in mkDate (second d) (minute d) (hour d) (day d) (month d) (year d + 2000)).
Proof.
  apply (cmostime_correct demo_clock_in demo_cmos demo_show true 5 20 demo_hw).
  - intros t out r. unfold demo_clock_in. rewrite last_out_snoc. reflexivity.
  - intros t. repeat split.
  - reflexivity.
  - exact demo_digits.
  - exact demo_ticks.
  - exact demo_quiet.
  - cbn. lia.
  - cbn. lia.
Defined.
Lemma lapicinit_enables_witness : exists s', lapicinit (fun _ _ => 0) 1 demo_hw = Done s' tt /\ hw_lreg s' !! TPR = Some 0.
Proof.
  destruct (lapicinit_enables (fun _ _ => 0) 0 1 demo_hw) as (s' & E & _ & _ & _ & _ & _ & _ & _ & _ & H);
    [discriminate | intros t _; reflexivity | lia |]. by exists s'.
Defined.
Lemma lapicstartap_points_to_witness : exists s', lapicstartap (fun _ _ => 0) 1 0x7000 demo_hw = Done s' tt /\
  hw_lreg s' !! ICRHI = Some (1 * 2 ^ 24).
Proof.
  destruct (lapicstartap_points_to (fun _ _ => 0) 1 0x7000 demo_hw) as (s' & E & _ & _ & H & _); [lia | lia | reflexivity |].
  by exists s'.
Defined.
