(* ===== verification/Dispatch.v ===== *)
(** * The system call table (syscall.c), sys_exec, and the T_SYSCALL trap

    A system call number selects one of the 22 calls; its value goes to %eax.
    A call that put the process to sleep has no value yet: the process resumes
    in the context sleep() saved. *)

From S2P Require Import Prelude Params Bytes CString Spinlock Kalloc Vm Pipe Store Fs File Proc KEnv Syscall Sysfile Exec.

Section Dispatch.
Context {S : Type} {St : BlockStore S} {Tx : Transactions S}.
Context (kernel_end kdata : Z) (c : nat) (word0 : Z) (name0 : list Z) (elf0 ph0 : bytes).
Context (devsw_read : Z -> option (nat -> Z -> kernel (fsys S) (Z * bytes)))
        (devsw_write : Z -> option (nat -> bytes -> Z -> kernel (fsys S) Z)).
Context {Env : ProcEnv (kenv S)}.
Abbreviation K := (kernel (kst (kenv S))).

(** for(i=0;; i++) of sys_exec: argv[i..], or None for -1 *)
Fixpoint fetch_argv (k : nat) (uargv : Z) (i : nat) : K (option (list (list Z))) :=
  match k with
  | O => mret None
  | Datatypes.S k' =>
      u ← fetchint c (u32 (uargv + 4 * Z.of_nat i));
      match u with
      | None => mret None
      | Some uarg =>
          if uarg =? 0 then mret (Some [])
          else
            s ← fetchstr c (u32 uarg);
            match s with
            | None => mret None
            | Some s =>
                r ← fetch_argv k' uargv (Datatypes.S i);
                mret (match r with Some l => Some (s :: l) | None => None end)
            end
      end
  end.

Definition sys_exec : K (option Z) :=
  path ← argstr c 0;
  match path with
  | None => mret (Some (-1))
  | Some path =>
      u ← argint c 1;
      match u with
      | None => mret (Some (-1))
      | Some uargv =>
          a ← fetch_argv MAXARG (u32 uargv) 0;
          match a with
          | None => mret (Some (-1))
          | Some argv =>
              v ← exec kernel_end kdata c word0 name0 devsw_read elf0 ph0 path argv;
              mret (Some v)
          end
      end
  end.

(** syscalls[num] *)
Definition syscalls (num : Z) : option (K (option Z)) :=
  if num =? 1 then Some (sys_fork c)
  else if num =? 2 then Some (sys_exit c)
  else if num =? 3 then Some (sys_wait c)
  else if num =? 4 then Some (sys_pipe kernel_end c)
  else if num =? 5 then Some (sys_read devsw_read c)
  else if num =? 6 then Some (sys_kill c)
  else if num =? 7 then Some sys_exec
  else if num =? 8 then Some (sys_fstat c)
  else if num =? 9 then Some (sys_chdir name0 devsw_read c)
  else if num =? 10 then Some (sys_dup c)
  else if num =? 11 then Some (sys_getpid c)
  else if num =? 12 then Some (sys_sbrk c)
  else if num =? 13 then Some (sys_sleep c)
  else if num =? 14 then Some (sys_uptime c)
  else if num =? 15 then Some (sys_open name0 devsw_read devsw_write kernel_end c)
  else if num =? 16 then Some (sys_write devsw_write c)
  else if num =? 17 then Some (sys_mknod name0 devsw_read devsw_write c)
  else if num =? 18 then Some (sys_unlink name0 devsw_read devsw_write c)
  else if num =? 19 then Some (sys_link name0 devsw_read devsw_write c)
  else if num =? 20 then Some (sys_mkdir name0 devsw_read devsw_write c)
  else if num =? 21 then Some (sys_close kernel_end c)
  else if num =? 22 then Some (sys_waitx c)
  else None.

Definition set_eax (v : Z) : K unit :=
  me ← myproc c; modp me (fun p => set_tf (set_tf_eax (u32 v) (p_tf p)) p).

(** The message for an unknown call is printed with cprintf. *)
Definition syscall : K unit :=
  p ← curproc c;
  match syscalls (s32 (tf_eax (p_tf p))) with
  | Some call =>
      r ← call;
      match r with Some v => set_eax v | None => mret tt end
  | None => set_eax (-1)
  end.

(** trap() for T_SYSCALL: [gone] when the process gave up the CPU. *)
Definition trap_syscall (tf : trapframe) : K unit :=
  p ← curproc c;
  if negb (p_killed p =? 0) then Proc.exit c
  else
    me ← myproc c;
    modp me (set_tf tf);;
    syscall;;
    x ← getc c;
    match c_proc x with
    | None => mret tt
    | Some i => p ← getp i; if negb (p_killed p =? 0) then Proc.exit c else mret tt
    end.
End Dispatch.
