(* ===== verification/Console.v ===== *)
(** * The console (console.c) and formatted output (printf.c)

    Output goes to the serial line and to the screen; input is collected in a
    ring and edited until a line is complete. The devices are part of the
    state: the bytes sent to the serial port, the cells of the screen and the
    cursor registers. *)

From S2P Require Import Prelude Params Bytes CString.

Definition BACKSPACE : Z := 0x100.
Definition INPUT_BUF : Z := 128.
(** C(x) *)
Definition ctrl (x : Z) : Z := x - 64.

Record console : Type := mkCons {
  co_panicked : Z;
  co_uart : Z;           (** is there a uart? *)
  co_sent : list Z;      (** bytes sent to it *)
  co_crt : list Z;       (** cells of CGA memory *)
  co_pos : Z;            (** cursor registers *)
  in_buf : list Z;
  in_r : Z;              (** read index *)
  in_w : Z;              (** write index *)
  in_e : Z;              (** edit index *)
  co_woken : nat         (** calls of wakeup(&input.r) *)
}.
Definition put_sent (x : list Z) (s : console) : console :=
  mkCons (co_panicked s) (co_uart s) x (co_crt s) (co_pos s) (in_buf s) (in_r s) (in_w s) (in_e s) (co_woken s).
Definition put_screen (x : list Z) (pos : Z) (s : console) : console :=
  mkCons (co_panicked s) (co_uart s) (co_sent s) x pos (in_buf s) (in_r s) (in_w s) (in_e s) (co_woken s).
Definition put_buf (x : list Z) (s : console) : console :=
  mkCons (co_panicked s) (co_uart s) (co_sent s) (co_crt s) (co_pos s) x (in_r s) (in_w s) (in_e s) (co_woken s).
Definition put_r (x : Z) (s : console) : console :=
  mkCons (co_panicked s) (co_uart s) (co_sent s) (co_crt s) (co_pos s) (in_buf s) x (in_w s) (in_e s) (co_woken s).
Definition put_w (x : Z) (s : console) : console :=
  mkCons (co_panicked s) (co_uart s) (co_sent s) (co_crt s) (co_pos s) (in_buf s) (in_r s) x (in_e s) (co_woken s).
Definition put_e (x : Z) (s : console) : console :=
  mkCons (co_panicked s) (co_uart s) (co_sent s) (co_crt s) (co_pos s) (in_buf s) (in_r s) (in_w s) x (co_woken s).
Definition wake_input (s : console) : console :=
  mkCons (co_panicked s) (co_uart s) (co_sent s) (co_crt s) (co_pos s) (in_buf s) (in_r s) (in_w s) (in_e s) (S (co_woken s)).

(** ** Output *)
(** The wait for the transmitter is bounded and has no effect. *)
Definition uartputc (c : Z) : kernel console unit :=
  s ← kget;
  if co_uart s =? 0 then mret tt else kmodify (fun s => put_sent (co_sent s ++ [u8 c]) s).

(** crt[pos] = v; a cell outside the memory of the adapter is not defined *)
Definition set_cell (pos v : Z) (crt : list Z) : option (list Z) :=
  if (0 <=? pos) && (pos <? Z.of_nat (length crt)) then Some (<[Z.to_nat pos := v]> crt) else None.
(** memmove(crt, crt+80, sizeof(crt[0])*23*80); memset(crt+pos, 0, sizeof(crt[0])*(24*80 - pos)) *)
Definition scroll (pos : Z) (crt : list Z) : list Z :=
  let crt := take (23 * 80) (drop 80 crt) ++ drop (23 * 80) crt in
  take (Z.to_nat pos) crt ++ replicate (Z.to_nat (24 * 80 - pos)) 0 ++ drop (24 * 80) crt.

Definition kopt {S A} (o : option A) : kernel S A := match o with Some a => mret a | None => kspin end.

Definition cgaputc (c : Z) : kernel console unit :=
  s ← kget;
  let pos := co_pos s in
  '(crt, pos) ← (if c =? 10 then mret (co_crt s, pos + (80 - pos mod 80))
                 else if c =? BACKSPACE then mret (co_crt s, if 0 <? pos then pos - 1 else pos)
                 else
                   crt ← kopt (set_cell pos (Z.lor (Z.land c 0xff) 0x0700) (co_crt s));
                   mret (crt, pos + 1));
  '(crt, pos) ← (if 24 <=? pos / 80 then
                   if 24 * 80 <? pos - 80 then kspin else mret (scroll (pos - 80) crt, pos - 80)
                 else mret (crt, pos));
  crt ← kopt (set_cell pos (Z.lor 32 0x0700) crt);
  kmodify (put_screen crt (u16 pos)).

Definition consputc (c : Z) : kernel console unit :=
  s ← kget;
  if negb (co_panicked s =? 0) then kspin
  else
    (if c =? BACKSPACE then uartputc 8;; uartputc 32;; uartputc 8 else uartputc c);;
    cgaputc c.

Fixpoint consputs (l : list Z) : kernel console unit :=
  match l with
  | [] => mret tt
  | c :: l' => consputc c;; consputs l'
  end.

(** *** Numbers: digits[], the do-while loop, and buf from its end *)
Definition digit (upper : bool) (d : Z) : Z := if d <? 10 then 48 + d else if upper then 55 + d else 87 + d.
Fixpoint digits_loop (k : nat) (upper : bool) (base x : Z) : list Z :=
  match k with
  | O => []
  | S k' => digit upper (x mod base) :: (if x / base =? 0 then [] else digits_loop k' upper base (x / base))
  end.
(** The characters printint prints; buf has 16 entries, x 32 bits *)
Definition int_chars (upper : bool) (xx base : Z) (sign : bool) : list Z :=
  let neg := sign && (xx <? 0) in
  let x := if neg then u32 (- xx) else u32 xx in
  rev (digits_loop 32 upper base x ++ (if neg then [45] else [])).
Definition printint (xx base : Z) (sign : bool) : kernel console unit := consputs (int_chars false xx base sign).

(** *** Format strings: the bytes before the terminating 0 *)
Inductive farg : Type := FInt (v : Z) | FStr (s : option (list Z)).
Definition null_str : list Z := [40; 110; 117; 108; 108; 41].

Fixpoint cprintf_loop (fmt : list Z) (argp : list farg) : kernel console unit :=
  match fmt with
  | [] => mret tt
  | c :: fmt =>
      if negb (c =? 37) then consputc c;; cprintf_loop fmt argp
      else match fmt with
      | [] => mret tt
      | c :: fmt =>
          if c =? 100 then
            match argp with FInt v :: argp => printint (s32 v) 10 true;; cprintf_loop fmt argp | _ => kspin end
          else if (c =? 120) || (c =? 112) then
            match argp with FInt v :: argp => printint (s32 v) 16 false;; cprintf_loop fmt argp | _ => kspin end
          else if c =? 115 then
            match argp with
            | FStr s :: argp => consputs (default null_str s);; cprintf_loop fmt argp
            | _ => kspin
            end
          else if c =? 37 then consputc 37;; cprintf_loop fmt argp
          else consputc 37;; consputc c;; cprintf_loop fmt argp
      end
  end.
Definition cprintf (fmt : option (list Z)) (argp : list farg) : kernel console unit :=
  match fmt with
  | None => kpanic "null fmt"
  | Some fmt => cprintf_loop fmt argp
  end.

(** printf.c: the characters written to fd, or None when an argument is missing *)
Fixpoint printf_loop (fmt : list Z) (state : bool) (ap : list farg) : option (list Z) :=
  match fmt with
  | [] => Some []
  | c :: fmt =>
      if negb state then
        if c =? 37 then printf_loop fmt true ap
        else cons c <$> printf_loop fmt false ap
      else if c =? 100 then
        match ap with FInt v :: ap => app (int_chars true (s32 v) 10 true) <$> printf_loop fmt false ap | _ => None end
      else if (c =? 120) || (c =? 112) then
        match ap with FInt v :: ap => app (int_chars true (s32 v) 16 false) <$> printf_loop fmt false ap | _ => None end
      else if c =? 115 then
        match ap with FStr s :: ap => app (default null_str s) <$> printf_loop fmt false ap | _ => None end
      else if c =? 99 then
        match ap with FInt v :: ap => cons (u8 v) <$> printf_loop fmt false ap | _ => None end
      else if c =? 37 then cons c <$> printf_loop fmt false ap
      else app [37; c] <$> printf_loop fmt false ap
  end.
Definition printf (fmt : list Z) (ap : list farg) : option (list Z) := printf_loop fmt false ap.

(** ** Input *)
Definition buf_at (s : console) (i : Z) : Z := in_buf s !!! Z.to_nat (i mod INPUT_BUF).

(** case C('U') *)
Fixpoint kill_line (k : nat) : kernel console unit :=
  s ← kget;
  if negb (in_e s =? in_w s) && negb (buf_at s (u32 (in_e s - 1)) =? 10) then
    match k with
    | O => kspin
    | S k' =>
        kmodify (fun s => put_e (u32 (in_e s - 1)) s);;
        consputc BACKSPACE;;
        kill_line k'
    end
  else mret tt.

(** One turn of the loop of consoleintr; procdump prints and is left out *)
Definition consoleintr_char (c : Z) : kernel console unit :=
  if c =? ctrl 80 then mret tt
  else if c =? ctrl 85 then kill_line (Z.to_nat INPUT_BUF)
  else if (c =? ctrl 72) || (c =? 127) then
    s ← kget;
    if negb (in_e s =? in_w s) then kmodify (put_e (u32 (in_e s - 1)));; consputc BACKSPACE else mret tt
  else
    s ← kget;
    if negb (c =? 0) && (u32 (in_e s - in_r s) <? INPUT_BUF) then
      let c := if c =? 13 then 10 else c in
      kmodify (fun s => put_e (u32 (in_e s + 1)) (put_buf (<[Z.to_nat (in_e s mod INPUT_BUF) := u8 c]> (in_buf s)) s));;
      consputc c;;
      s ← kget;
      if (c =? 10) || (c =? ctrl 68) || (in_e s =? u32 (in_r s + INPUT_BUF)) then
        kmodify (fun s => wake_input (put_w (in_e s) s))
      else mret tt
    else mret tt.

(** The characters getc returns until -1 *)
Fixpoint consoleintr (l : list Z) : kernel console unit :=
  match l with
  | [] => mret tt
  | c :: l' => consoleintr_char c;; consoleintr l'
  end.

(** A turn of consoleread between iunlock and ilock: it returns a value with
    the bytes stored at dst, or sleeps on &input.r with [n] bytes to go. *)
Inductive cresult : Type := CRet (v : Z) (got : list Z) | CSleep (n : nat) (got : list Z).

Fixpoint consoleread_turn (killed : bool) (target : Z) (n : nat) (got : list Z) (s : console) : console * cresult :=
  match n with
  | O => (s, CRet target got)
  | S n' =>
      if in_r s =? in_w s then
        if killed then (s, CRet (-1) got) else (s, CSleep n got)
      else
        let c := buf_at s (in_r s) in
        let s1 := put_r (u32 (in_r s + 1)) s in
        if c =? ctrl 68 then
          (if Z.of_nat n <? target then put_r (u32 (in_r s1 - 1)) s1 else s1, CRet (target - Z.of_nat n) got)
        else if c =? 10 then (s1, CRet (target - Z.of_nat n') (got ++ [c]))
        else consoleread_turn killed target n' (got ++ [c]) s1
  end.

(** for n <= 0 the result is target - n = 0 *)
Definition consoleread (killed : bool) (n : Z) (s : console) : console * cresult :=
  consoleread_turn killed (Z.max 0 n) (Z.to_nat n) [] s.

(** consolewrite between iunlock and ilock, and the count it returns *)
Definition consolewrite (buf : list Z) : kernel console Z :=
  consputs (map (fun c => Z.land c 0xff) buf);; mret (Z.of_nat (length buf)).

(** ** The screen *)
Record screen_ok (s : console) : Prop := mkScreen {
  sc_running : co_panicked s = 0;
  sc_pos : 0 <= co_pos s < 24 * 80;
  sc_cells : (24 * 80 <= length (co_crt s))%nat
}.
(** What output leaves alone: the input side and the memory below the screen *)
Record output_frame (s s' : console) : Prop := mkOut {
  of_panicked : co_panicked s' = co_panicked s;
  of_buf : in_buf s' = in_buf s;
  of_r : in_r s' = in_r s;
  of_w : in_w s' = in_w s;
  of_e : in_e s' = in_e s;
  of_woken : co_woken s' = co_woken s;
  of_below : drop (24 * 80) (co_crt s') = drop (24 * 80) (co_crt s)
}.
Lemma output_frame_refl s : output_frame s s.
Proof. by split. Qed.
Lemma output_frame_trans s1 s2 s3 : output_frame s1 s2 -> output_frame s2 s3 -> output_frame s1 s3.
Proof. intros [] []. split; congruence. Qed.

Lemma set_cell_ok pos v crt : 0 <= pos < 24 * 80 -> (24 * 80 <= length crt)%nat ->
  exists crt', set_cell pos v crt = Some crt' /\ length crt' = length crt /\ drop (24 * 80) crt' = drop (24 * 80) crt.
Proof.
  intros Hp Hl. unfold set_cell. rewrite (proj2 (Z.leb_le _ _)), (proj2 (Z.ltb_lt _ _)) by lia. cbn [andb].
  eexists. split; [reflexivity|]. split; [apply length_insert|]. apply drop_insert_lt. lia.
Qed.

Lemma scroll_ok crt : (24 * 80 <= length crt)%nat ->
  length (scroll (23 * 80) crt) = length crt /\ drop (24 * 80) (scroll (23 * 80) crt) = drop (24 * 80) crt.
Proof.
  intros Hl. unfold scroll. change (Z.to_nat (23 * 80)) with 1840%nat. change (Z.to_nat (24 * 80 - 23 * 80)) with 80%nat.
  set (crt1 := take _ _ ++ drop _ crt).
  assert (length crt1 = length crt) as E by (unfold crt1; rewrite length_app, length_take, !length_drop; lia).
  assert (drop (24 * 80) crt1 = drop (24 * 80) crt) as E2.
  { unfold crt1. rewrite drop_app_ge by (rewrite length_take, length_drop; lia). rewrite drop_drop, length_take, length_drop. f_equal. lia. }
  rewrite !length_app, length_take, length_replicate, length_drop, E. split; [lia|].
  rewrite drop_app_ge by (rewrite length_take; lia).
  rewrite drop_app_ge by (rewrite length_take, length_replicate; lia).
  rewrite length_take, length_replicate, E. replace (24 * 80 - 1840 `min` length crt - 80)%nat with 0%nat by lia. exact E2.
Qed.

Definition put_char (c : Z) (s : console) : option (list Z * Z) :=
  if c =? 10 then Some (co_crt s, co_pos s + (80 - co_pos s mod 80))
  else if c =? BACKSPACE then Some (co_crt s, if 0 <? co_pos s then co_pos s - 1 else co_pos s)
  else crt ← set_cell (co_pos s) (Z.lor (Z.land c 0xff) 0x0700) (co_crt s); Some (crt, co_pos s + 1).

Lemma put_char_ok c s : screen_ok s -> exists crt pos, put_char c s = Some (crt, pos) /\ 0 <= pos <= 24 * 80 /\
  length crt = length (co_crt s) /\ drop (24 * 80) crt = drop (24 * 80) (co_crt s).
Proof.
  intros [_ Hp Hl]. unfold put_char. destruct (c =? 10).
  { exists (co_crt s), (co_pos s + (80 - co_pos s mod 80)). split; [done|]. split; [|done].
    pose proof (Z.mod_pos_bound (co_pos s) 80 ltac:(lia)). pose proof (Z.div_mod (co_pos s) 80 ltac:(lia)).
    assert (co_pos s / 80 <= 23) by (apply Z.lt_succ_r, Z.div_lt_upper_bound; lia). lia. }
  destruct (c =? BACKSPACE).
  { exists (co_crt s), (if 0 <? co_pos s then co_pos s - 1 else co_pos s). split; [done|]. split; [|done].
    destruct (Z.ltb_spec 0 (co_pos s)); lia. }
  destruct (set_cell_ok (co_pos s) (Z.lor (Z.land c 255) 1792) (co_crt s) Hp Hl) as (crt & -> & E1 & E2).
  exists crt, (co_pos s + 1). split; [done|]. split; [lia|done].
Qed.

Lemma cgaputc_ok c s : screen_ok s -> exists s', cgaputc c s = Done s' tt /\ screen_ok s' /\ output_frame s s'.
Proof.
  intros Hs. destruct (put_char_ok c s Hs) as (crt & pos & E & Hp & Hl & Hb). destruct Hs as [Hr Hps Hc].
  assert (forall k, ('(crt, pos) ← (if c =? 10 then mret (co_crt s, co_pos s + (80 - co_pos s mod 80))
      else if c =? BACKSPACE then mret (co_crt s, if 0 <? co_pos s then co_pos s - 1 else co_pos s)
      else crt ← kopt (set_cell (co_pos s) (Z.lor (Z.land c 0xff) 0x0700) (co_crt s)); mret (crt, co_pos s + 1));
    k crt pos) s = k crt pos s :> outcome console unit) as Ek.
  { intros k. unfold put_char in E. unfold mbind, kernel_bind, mret, kernel_ret. destruct (c =? 10); [by simplify_eq|].
    destruct (c =? BACKSPACE); [by simplify_eq|]. destruct (set_cell _ _ _); cbn in *; by simplify_eq. }
  unfold cgaputc, kget. unfold mbind at 1, kernel_bind at 1. rewrite Ek. clear Ek E.
  destruct (Z.leb_spec 24 (pos / 80)) as [Hsc|Hno].
  - assert (pos = 24 * 80) as -> by (pose proof (Z.mul_div_le pos 80 ltac:(lia)); lia).
    change (24 * 80 - 80) with (23 * 80). change (24 * 80 <? 23 * 80) with false. cbn iota.
    destruct (scroll_ok crt ltac:(lia)) as [Hl' Hb'].
    destruct (set_cell_ok (23 * 80) (Z.lor 32 0x0700) (scroll (23 * 80) crt)) as (crt2 & E2 & Hl2 & Hb2); [lia|lia|].
    unfold mbind, kernel_bind, mret, kernel_ret. rewrite E2. cbn. eexists. split; [reflexivity|]. split.
    + split; cbn; [done|vm_compute; split; congruence|lia].
    + split; try reflexivity. cbn [put_screen co_crt]. congruence.
  - assert (pos < 24 * 80) by (apply Z.nle_gt; intros Hle; apply (Z.div_le_mono _ _ 80) in Hle; [|lia]; change (24 * 80 / 80) with 24 in Hle; lia).
    destruct (set_cell_ok pos (Z.lor 32 0x0700) crt) as (crt2 & E2 & Hl2 & Hb2); [lia|lia|].
    unfold mbind, kernel_bind, mret, kernel_ret. rewrite E2. cbn. eexists. split; [reflexivity|].
    assert (u16 pos = pos) as Ep by (unfold u16; apply Z.mod_small; lia). split.
    + split; cbn; [done|rewrite Ep; lia|lia].
    + split; try reflexivity. cbn [put_screen co_crt]. congruence.
Qed.

Lemma uartputc_ok c s : exists s', uartputc c s = Done s' tt /\ output_frame s s' /\ co_crt s' = co_crt s /\ co_pos s' = co_pos s.
Proof. unfold uartputc, mbind, kernel_bind, kget. destruct (co_uart s =? 0); eexists; (split; [reflexivity|]); by repeat split. Qed.

Lemma consputc_ok c s : screen_ok s -> exists s', consputc c s = Done s' tt /\ screen_ok s' /\ output_frame s s'.
Proof.
  intros Hs. unfold consputc. rewrite (bind_Done kget _ s s s eq_refl), (sc_running _ Hs). change (negb (0 =? 0)) with false. cbn iota.
  assert (exists s1, (if c =? BACKSPACE then uartputc 8;; uartputc 32;; uartputc 8 else uartputc c) s = Done s1 tt /\
    screen_ok s1 /\ output_frame s s1) as (s1 & E1 & H1 & F1).
  { assert (forall x t, screen_ok t -> exists t', uartputc x t = Done t' tt /\ screen_ok t' /\ output_frame t t') as Hu.
    { intros x t [T1 T2 T3]. destruct (uartputc_ok x t) as (t' & E & F & Ec & Ep). exists t'. split; [done|]. split; [|done].
      split; [by rewrite (of_panicked _ _ F)|by rewrite Ep|by rewrite Ec]. }
    destruct (c =? BACKSPACE); [|by apply Hu].
    destruct (Hu 8 s Hs) as (t1 & T1 & O1 & G1), (Hu 32 t1 O1) as (t2 & T2 & O2 & G2), (Hu 8 t2 O2) as (t3 & T3 & O3 & G3).
    exists t3. rewrite (bind_Done _ _ _ _ _ T1), (bind_Done _ _ _ _ _ T2). split; [done|]. split; [done|].
    eapply output_frame_trans; [exact G1|]. by eapply output_frame_trans. }
  destruct (cgaputc_ok c s1 H1) as (s2 & E2 & H2 & F2). exists s2.
  split; [by rewrite (bind_Done _ _ _ _ _ E1)|]. split; [done|]. by eapply output_frame_trans.
Qed.

Lemma cgaputc_serial c s s' : cgaputc c s = Done s' tt -> co_sent s' = co_sent s /\ co_uart s' = co_uart s.
Proof.
  unfold cgaputc, kget. unfold mbind at 1, kernel_bind at 1. intros H.
  apply bind_inv in H as (s1 & [crt pos] & E1 & H). apply bind_inv in H as (s2 & [crt2 pos2] & E2 & H). apply bind_inv in H as (s3 & crt3 & E3 & H).
  assert (Hk : forall (o : option (list Z)) (t t' : console) x, kopt o t = Done t' x -> t' = t) by (intros [a|] t t' x E; [by inversion E|done]).
  assert (s1 = s) as ->.
  { destruct (c =? 10); [by inversion E1|]. destruct (c =? BACKSPACE); [by inversion E1|].
    apply bind_inv in E1 as (t & x & Ex & Et). inversion Et; subst. by apply Hk in Ex. }
  assert (s2 = s) as -> by (destruct (24 <=? pos / 80); [destruct (24 * 80 <? pos - 80); [done|]|]; by inversion E2).
  apply Hk in E3 as ->. inversion H. done.
Qed.
Lemma consputc_serial c s s' : c <> BACKSPACE -> consputc c s = Done s' tt ->
  co_sent s' = co_sent s ++ (if co_uart s =? 0 then [] else [u8 c]) /\ co_uart s' = co_uart s.
Proof.
  intros Hc. unfold consputc. rewrite (bind_Done kget _ s s s eq_refl), (proj2 (Z.eqb_neq c BACKSPACE) Hc). destruct (negb _); [discriminate|].
  intros H. apply bind_inv in H as (s1 & [] & E1 & H). apply cgaputc_serial in H as [-> ->]. revert E1.
  unfold uartputc. rewrite (bind_Done kget _ s s s eq_refl). destruct (co_uart s =? 0); intros E1; inversion E1; cbn; by rewrite ?app_nil_r.
Qed.
Lemma consputs_ok l : forall s, screen_ok s -> Forall (fun c => c <> BACKSPACE) l ->
  exists s', consputs l s = Done s' tt /\ screen_ok s' /\ output_frame s s' /\
    co_sent s' = co_sent s ++ (if co_uart s =? 0 then [] else map u8 l) /\ co_uart s' = co_uart s.
Proof.
  induction l as [|c l IH]; intros s Hs Hl.
  { exists s. split; [done|]. split; [done|]. split; [done|]. by destruct (co_uart s =? 0); rewrite ?app_nil_r. }
  apply Forall_cons in Hl as [Hc Hl]. cbn [consputs].
  destruct (consputc_ok c s Hs) as (s1 & E1 & H1 & F1). destruct (consputc_serial c s s1 Hc E1) as [G1 U1].
  destruct (IH s1 H1 Hl) as (s2 & E2 & H2 & F2 & G2 & U2). exists s2. rewrite (bind_Done _ _ _ _ _ E1). split; [done|]. split; [done|].
  split; [by eapply output_frame_trans|]. rewrite G2, G1, U1, U2, U1. split; [|done].
  rewrite <- app_assoc. by destruct (co_uart s =? 0).
Qed.

(** C37: Console output never leaves the screen and goes nowhere else.  From a
    cursor in the first 24 rows, consolewrite of any bytes returns their number,
    the cursor is again in those rows, no cell of the adapter's memory beyond
    them is written, exactly the bytes have gone to the serial port if there is
    one, and the input side is as it was: its buffer, its three indices and the
    wakeups of its readers. *)
Theorem consolewrite_in_bounds s buf : screen_ok s ->
  exists s', consolewrite buf s = Done s' (Z.of_nat (length buf)) /\ screen_ok s' /\
    drop (24 * 80) (co_crt s') = drop (24 * 80) (co_crt s) /\
    co_sent s' = co_sent s ++ (if co_uart s =? 0 then [] else map u8 buf) /\
    in_buf s' = in_buf s /\ in_r s' = in_r s /\ in_w s' = in_w s /\ in_e s' = in_e s /\ co_woken s' = co_woken s.
Proof.
  assert (B : forall c, Z.land c 0xff = u8 c) by (intros c; exact (Z.land_ones c 8 ltac:(lia))).
  intros Hs. destruct (consputs_ok (map (fun c => Z.land c 0xff) buf) s Hs) as (s' & E & H & F & G & _).
  { apply Forall_map, Forall_true. intros c. rewrite B. unfold u8, BACKSPACE. pose proof (Z.mod_pos_bound c (2 ^ 8) ltac:(lia)). lia. }
  exists s'. unfold consolewrite. rewrite (bind_Done _ _ _ _ _ E). split; [done|]. split; [done|]. destruct F. split; [done|].
  split; [|done]. rewrite G, map_map. do 2 f_equal. destruct (co_uart s =? 0); [done|]. apply map_ext. intros c. rewrite B.
  unfold u8. apply Z.mod_mod. lia.
Qed.

(** ** Numbers *)
Lemma atoi_digits k x t : 0 <= x < 10 ^ Z.of_nat k -> x < 2 ^ 31 -> (0 < k)%nat ->
  atoi_loop (rev (digits_loop k true 10 x) ++ t) 0 = atoi_loop t x.
Proof.
  revert x t. induction k as [|k IH]; intros x t Hx Hm Hk; [lia|]. cbn [digits_loop rev].
  rewrite <- app_assoc. cbn [app].
  pose proof (Z.mod_pos_bound x 10 ltac:(lia)) as Hd. pose proof (Z.div_mod x 10 ltac:(lia)) as Ex.
  assert (digit true (x mod 10) = 48 + x mod 10) as -> by (unfold digit; by rewrite (proj2 (Z.ltb_lt _ _)) by lia).
  assert (forall n, n = x / 10 -> atoi_loop (48 + x mod 10 :: t) n = atoi_loop t x) as Hlast.
  { intros n ->. cbn [atoi_loop]. rewrite (proj2 (Z.leb_le _ _)), (proj2 (Z.leb_le _ _)) by lia. cbn [andb].
    f_equal. rewrite s32_small; lia. }
  destruct (Z.eqb_spec (x / 10) 0) as [E|E]; [by apply Hlast|].
  rewrite IH; [by apply Hlast| | |].
  - split; [apply Z.div_pos; lia|]. apply Z.div_lt_upper_bound; [lia|]. rewrite Nat2Z.inj_succ, Z.pow_succ_r in Hx by lia. lia.
  - assert (x / 10 <= x) by (apply Z.div_le_upper_bound; lia). lia.
  - destruct k; [|lia]. exfalso. apply E. apply Z.div_small. cbn in Hx. lia.
Qed.

(** A number printed with %d is read back by atoi. *)
Theorem printf_atoi x rest : 0 <= x < 2 ^ 31 ->
  exists l, printf [37; 100] [FInt x] = Some l /\ atoi (l ++ 0 :: rest) = Some x.
Proof.
  intros Hx. eexists. split; [reflexivity|]. rewrite app_nil_r. unfold int_chars. rewrite s32_small by lia.
  rewrite (proj2 (Z.ltb_ge x 0)) by lia. cbn [andb]. rewrite u32_small, app_nil_r by lia. unfold atoi. rewrite atoi_digits; [done|lia|lia|lia].
Qed.
Lemma printf_atoi_witness : exists l, printf [37; 100] [FInt 1234] = Some l /\ atoi (l ++ [0]) = Some 1234.
Proof. apply (printf_atoi 1234 []). lia. Defined.
