(* ===== verification/ConsoleIn.v ===== *)
(** * The console's line discipline

    The input ring holds complete lines, which consoleread hands out, and the
    line being edited, which the keyboard interrupt extends and erases. *)

From S2P Require Import Prelude Params Bytes CString Console.

(** ** The ring as two lists *)
Record ring (s : console) (com ed : list Z) : Prop := mkRing {
  rg_len : length (in_buf s) = Z.to_nat INPUT_BUF;
  rg_r : 0 <= in_r s < 2 ^ 32;
  rg_w : in_w s = u32 (in_r s + Z.of_nat (length com));
  rg_e : in_e s = u32 (in_r s + Z.of_nat (length (com ++ ed)));
  rg_room : Z.of_nat (length (com ++ ed)) <= INPUT_BUF;
  rg_at : forall k x, (com ++ ed) !! k = Some x -> buf_at s (in_r s + Z.of_nat k) = x;
  rg_line : forall x, x ∈ ed -> x <> 10 /\ x <> ctrl 68
}.

(** What one character does *)
Definition type_char (t : list Z * list Z) (c : Z) : list Z * list Z :=
  let '(com, ed) := t in
  if c =? ctrl 80 then t
  else if c =? ctrl 85 then (com, [])
  else if (c =? ctrl 72) || (c =? 127) then (com, removelast ed)
  else if negb (c =? 0) && (Z.of_nat (length (com ++ ed)) <? INPUT_BUF) then
    let c := if c =? 13 then 10 else c in
    let ed := ed ++ [c] in
    if (c =? 10) || (c =? ctrl 68) || (Z.of_nat (length (com ++ ed)) =? INPUT_BUF) then (com ++ ed, []) else (com, ed)
  else t.

(** What a read of at most [n] bytes takes from complete lines: the bytes it
    stores, what is left, and whether it has to wait for more. A ^D ends a
    read; it is kept for the next one unless it is the first byte. *)
Fixpoint read_line (n : nat) (got com : list Z) : list Z * list Z * bool :=
  match n, com with
  | O, _ => (got, com, false)
  | _, [] => (got, [], true)
  | S n', c :: com' =>
      if c =? ctrl 68 then (got, if decide (got = []) then com' else com, false)
      else if c =? 10 then (got ++ [c], com', false)
      else read_line n' (got ++ [c]) com'
  end.

(** ** Ring arithmetic *)
Lemma buf_at_u32 s x : buf_at s (u32 x) = buf_at s x.
Proof.
  unfold buf_at, u32, INPUT_BUF. do 2 f_equal. rewrite Z.mod_mod_divide; [done|]. exists (2 ^ 25). lia.
Qed.
Lemma buf_at_frame s s' x : in_buf s' = in_buf s -> buf_at s' x = buf_at s x.
Proof. unfold buf_at. by intros ->. Qed.

Lemma buf_at_put s x y v : length (in_buf s) = Z.to_nat INPUT_BUF -> 0 <= x - y < INPUT_BUF ->
  buf_at (put_buf (<[Z.to_nat (u32 x mod INPUT_BUF) := v]> (in_buf s)) s) y = if x =? y then v else buf_at s y.
Proof.
  intros Hl Hxy. unfold buf_at. cbn [put_buf in_buf].
  assert (u32 x mod INPUT_BUF = x mod INPUT_BUF) as ->.
  { unfold u32, INPUT_BUF. rewrite Z.mod_mod_divide; [done|]. exists (2 ^ 25). lia. }
  pose proof (Z.mod_pos_bound x INPUT_BUF ltac:(done)) as H1. pose proof (Z.mod_pos_bound y INPUT_BUF ltac:(done)) as H2.
  destruct (Z.eqb_spec x y) as [->|Hne].
  - apply list_lookup_total_insert_eq. lia.
  - apply list_lookup_total_insert_ne. intros E. apply Z2Nat.inj in E; [|lia|lia]. apply Hne.
    unfold INPUT_BUF in *. pose proof (Z.div_mod x 128 ltac:(lia)). pose proof (Z.div_mod y 128 ltac:(lia)). lia.
Qed.

Lemma ring_frame s s' com ed : output_frame s s' -> ring s com ed -> ring s' com ed.
Proof.
  intros F [R1 R2 R3 R4 R5 R6 R7]. destruct F as [F1 F2 F3 F4 F5 F6 F7]. split; rewrite ?F2, ?F3, ?F4, ?F5; try done.
  intros k x Hk. rewrite (buf_at_frame s) by done. by apply R6.
Qed.

Lemma ring_e_w s com ed : ring s com ed -> (in_e s =? in_w s) = bool_decide (ed = []).
Proof.
  intros [R1 R2 R3 R4 R5 R6 R7]. rewrite R3, R4, length_app, Nat2Z.inj_add. rewrite length_app, Nat2Z.inj_add in R5. unfold INPUT_BUF in R5.
  destruct ed as [|x ed].
  - rewrite bool_decide_true by done. apply Z.eqb_eq. f_equal. cbn. lia.
  - rewrite bool_decide_false by done. apply Z.eqb_neq. cbn [length] in *. wraps.
Qed.
Lemma ring_r_w s com ed : ring s com ed -> (in_r s =? in_w s) = bool_decide (com = []).
Proof.
  intros [R1 R2 R3 R4 R5 R6 R7]. rewrite R3. rewrite length_app, Nat2Z.inj_add in R5. unfold INPUT_BUF in R5.
  destruct com as [|x com].
  - rewrite bool_decide_true by done. apply Z.eqb_eq. cbn. rewrite Z.add_0_r, u32_small; lia.
  - rewrite bool_decide_false by done. apply Z.eqb_neq. cbn [length] in *. wraps.
Qed.
Lemma ring_count s com ed : ring s com ed -> u32 (in_e s - in_r s) = Z.of_nat (length (com ++ ed)).
Proof.
  intros [R1 R2 R3 R4 R5 R6 R7]. rewrite R4, u32_sub_l. unfold INPUT_BUF in R5.
  replace (in_r s + Z.of_nat (length (com ++ ed)) - in_r s) with (Z.of_nat (length (com ++ ed))) by lia. apply u32_small. lia.
Qed.

(** ** The operations on the ring *)
Lemma ring_erase s com ed x : ring s com (ed ++ [x]) -> ring (put_e (u32 (in_e s - 1)) s) com ed.
Proof.
  intros [R1 R2 R3 R4 R5 R6 R7]. rewrite app_assoc, length_app in R4, R5. cbn in R4, R5. split; cbn; try done.
  - rewrite R4, u32_sub_l. f_equal. lia.
  - lia.
  - intros k y Hk. apply R6. rewrite app_assoc, lookup_app_l; [done|by eapply lookup_lt_Some].
  - intros y Hy. apply R7. by apply elem_of_app; left.
Qed.

Definition insert_char (c : Z) (s : console) : console :=
  put_e (u32 (in_e s + 1)) (put_buf (<[Z.to_nat (in_e s mod INPUT_BUF) := u8 c]> (in_buf s)) s).

Lemma insert_at s com ed c k x : ring s com ed -> Z.of_nat (length (com ++ ed)) < INPUT_BUF -> 0 <= c < 256 ->
  (com ++ ed ++ [c]) !! k = Some x -> buf_at (insert_char c s) (in_r s + Z.of_nat k) = x.
Proof.
  intros [R1 R2 R3 R4 R5 R6 R7] Hlt Hc Hk. unfold insert_char.
  rewrite (buf_at_frame (put_buf (<[Z.to_nat (in_e s mod INPUT_BUF) := u8 c]> (in_buf s)) s)) by done.
  assert (k <= length (com ++ ed))%nat as Hk'.
  { apply lookup_lt_Some in Hk. rewrite app_assoc, length_app in Hk. cbn in Hk. lia. }
  rewrite R4, buf_at_put by (done || lia).
  assert (u8 c = c) as -> by (unfold u8; apply Z.mod_small; lia).
  rewrite app_assoc in Hk. destruct (Z.eqb_spec (in_r s + Z.of_nat (length (com ++ ed))) (in_r s + Z.of_nat k)) as [E|E].
  - rewrite list_lookup_middle in Hk by lia. congruence.
  - apply R6. rewrite lookup_app_l in Hk; [done|lia].
Qed.

Lemma ring_insert s com ed c : ring s com ed -> Z.of_nat (length (com ++ ed)) < INPUT_BUF -> 0 <= c < 256 -> c <> 10 -> c <> ctrl 68 ->
  ring (insert_char c s) com (ed ++ [c]).
Proof.
  intros Hr Hlt Hc H10 H4. pose proof (insert_at s com ed c) as Hat. pose proof Hr as [R1 R2 R3 R4 R5 R6 R7]. split; cbn [insert_char put_e put_buf in_buf in_r in_w in_e].
  - by rewrite length_insert.
  - done.
  - done.
  - rewrite R4, u32_add_l, app_assoc, (length_app (com ++ ed)). cbn. f_equal. lia.
  - rewrite app_assoc, length_app. cbn. lia.
  - intros k x Hk. by apply Hat.
  - intros x Hx. apply elem_of_app in Hx as [Hx|Hx]; [by apply R7|]. by apply list_elem_of_singleton in Hx as ->.
Qed.
Lemma ring_commit s com ed c : ring s com ed -> Z.of_nat (length (com ++ ed)) < INPUT_BUF -> 0 <= c < 256 ->
  let s1 := insert_char c s in ring (wake_input (put_w (in_e s1) s1)) (com ++ ed ++ [c]) [].
Proof.
  intros Hr Hlt Hc s1. pose proof (insert_at s com ed c) as Hat. pose proof Hr as [R1 R2 R3 R4 R5 R6 R7]. split; cbn [s1 insert_char wake_input put_w put_e put_buf in_buf in_r in_w in_e].
  - by rewrite length_insert.
  - done.
  - rewrite R4, u32_add_l, app_assoc, (length_app (com ++ ed)). cbn. f_equal. lia.
  - rewrite R4, u32_add_l, app_nil_r, app_assoc, (length_app (com ++ ed)). cbn. f_equal. lia.
  - rewrite app_nil_r, app_assoc, length_app. cbn. lia.
  - intros k x Hk. rewrite app_nil_r in Hk. exact (Hat k x Hr Hlt Hc Hk).
  - intros x Hx. by destruct (not_elem_of_nil _ Hx).
Qed.

(** ** The interrupt handler *)
Lemma kill_line_ok k s com ed : ring s com ed -> screen_ok s -> (length ed <= k)%nat ->
  exists s', kill_line k s = Done s' tt /\ ring s' com [] /\ screen_ok s'.
Proof.
  revert s ed. induction k as [|k IH]; intros s ed Hr Hs Hk.
  - destruct ed; [|cbn in Hk; lia]. exists s. cbn [kill_line]. rewrite (bind_Done kget _ s s s eq_refl), (ring_e_w _ _ _ Hr). done.
  - cbn [kill_line]. rewrite (bind_Done kget _ s s s eq_refl), (ring_e_w _ _ _ Hr).
    destruct ed as [|x ed] using rev_ind; [exists s; done|]. clear IHed. rewrite bool_decide_false by (by destruct ed).
    assert (buf_at s (u32 (in_e s - 1)) = x) as Ex.
    { rewrite (rg_e _ _ _ Hr), u32_sub_l, buf_at_u32, app_assoc, (length_app (com ++ ed)). cbn.
      replace (in_r s + Z.of_nat (length (com ++ ed) + 1) - 1) with (in_r s + Z.of_nat (length (com ++ ed))) by lia.
      apply (rg_at _ _ _ Hr). rewrite app_assoc. by apply list_lookup_middle. }
    destruct (rg_line _ _ _ Hr x) as [Hx _]; [apply elem_of_app; right; by apply list_elem_of_singleton|].
    rewrite Ex, (proj2 (Z.eqb_neq _ _) Hx). cbn [negb andb].
    pose proof (ring_erase _ _ _ _ Hr) as Hr1. set (s1 := put_e (u32 (in_e s - 1)) s) in *.
    rewrite (bind_Done _ _ s s1 tt) by reflexivity.
    destruct (consputc_ok BACKSPACE s1) as (s2 & E2 & Hs2 & F2); [by destruct Hs; split|].
    rewrite (bind_Done _ _ _ _ _ E2). rewrite length_app in Hk. cbn in Hk.
    apply (IH s2 ed); [by eapply ring_frame|done|lia].
Qed.

Lemma consoleintr_char_ok s com ed c : ring s com ed -> screen_ok s -> 0 <= c < 256 ->
  exists s', consoleintr_char c s = Done s' tt /\ ring s' (type_char (com, ed) c).1 (type_char (com, ed) c).2 /\ screen_ok s'.
Proof.
  intros Hr Hs Hc. unfold consoleintr_char, type_char. destruct (c =? ctrl 80); [by exists s|].
  destruct (c =? ctrl 85).
  { apply kill_line_ok with ed; [done|done|]. pose proof (rg_room _ _ _ Hr) as Hroom. rewrite length_app in Hroom. lia. }
  destruct ((c =? ctrl 72) || (c =? 127)).
  { rewrite (bind_Done kget _ s s s eq_refl), (ring_e_w _ _ _ Hr). destruct ed as [|x ed] using rev_ind; [exists s; done|].
    clear IHed. rewrite bool_decide_false by (by destruct ed). cbn [negb fst snd]. rewrite removelast_last.
    pose proof (ring_erase _ _ _ _ Hr) as Hr1. set (s1 := put_e (u32 (in_e s - 1)) s) in *.
    rewrite (bind_Done _ _ s s1 tt) by reflexivity.
    destruct (consputc_ok BACKSPACE s1) as (s2 & E2 & Hs2 & F2); [by destruct Hs; split|].
    exists s2. split; [done|]. split; [by eapply ring_frame|done]. }
  rewrite (bind_Done kget _ s s s eq_refl), (ring_count _ _ _ Hr).
  destruct (negb (c =? 0) && (Z.of_nat (length (com ++ ed)) <? INPUT_BUF)) eqn:Eb; [|by exists s].
  apply andb_true_iff in Eb as [_ Hlt]. apply Z.ltb_lt in Hlt. set (c' := if c =? 13 then 10 else c).
  assert (0 <= c' < 256) as Hc' by (unfold c'; destruct (c =? 13); lia).
  rewrite (bind_Done _ _ s (insert_char c' s) tt) by reflexivity.
  destruct (consputc_ok c' (insert_char c' s)) as (s2 & E2 & Hs2 & F2); [by destruct Hs; split|].
  rewrite (bind_Done _ _ _ _ _ E2), (bind_Done kget _ s2 s2 s2 eq_refl).
  assert ((in_e s2 =? u32 (in_r s2 + INPUT_BUF)) = (Z.of_nat (length (com ++ ed ++ [c'])) =? INPUT_BUF)) as Efull.
  { rewrite (of_e _ _ F2), (of_r _ _ F2). cbn [insert_char put_e put_buf in_e in_r]. rewrite (rg_e _ _ _ Hr), u32_add_l.
    rewrite app_assoc, (length_app (com ++ ed)). cbn [length]. pose proof (rg_r _ _ _ Hr). unfold INPUT_BUF in *.
    destruct (Z.eqb_spec (Z.of_nat (length (com ++ ed) + 1)) 128) as [E|E].
    - apply Z.eqb_eq. f_equal. lia.
    - apply Z.eqb_neq. wraps. }
  rewrite Efull. destruct ((c' =? 10) || (c' =? ctrl 68) || (Z.of_nat (length (com ++ ed ++ [c'])) =? INPUT_BUF)) eqn:Ec.
  - exists (wake_input (put_w (in_e s2) s2)). split; [done|]. split; [|by destruct Hs2; split].
    pose proof (ring_commit s com ed c' Hr Hlt Hc') as Hr2. cbn zeta in Hr2. rewrite app_assoc in *.
    destruct F2 as [F1 F2 F3 F4 F5 F6 F7], Hr2 as [T1 T2 T3 T4 T5 T6 T7].
    split; cbn [fst snd wake_input put_w in_buf in_r in_w in_e] in *; rewrite ?F2, ?F3, ?F5; try done.
    intros k x Hk. rewrite <- (T6 k x Hk). by apply buf_at_frame.
  - exists s2. split; [done|]. split; [|done]. apply orb_false_iff in Ec as [[E10 E4]%orb_false_iff _].
    apply Z.eqb_neq in E10, E4. cbn [fst snd]. eapply ring_frame; [exact F2|]. by apply ring_insert.
Qed.

(** ** Reading *)
Lemma ring_take s com ed c : ring s (c :: com) ed -> ring (put_r (u32 (in_r s + 1)) s) com ed.
Proof.
  intros [R1 R2 R3 R4 R5 R6 R7]. cbn [app length] in *. split; cbn; try done.
  - apply u32_range.
  - rewrite R3, u32_add_l. f_equal. lia.
  - rewrite R4, u32_add_l. f_equal. lia.
  - lia.
  - intros k x Hk. rewrite <- (R6 (S k) x Hk), <- (buf_at_u32 _ (in_r s + Z.of_nat (S k))). rewrite (buf_at_frame s) by done.
    rewrite <- buf_at_u32, u32_add_l. do 2 f_equal. lia.
Qed.

Definition read_result (killed : bool) (target : Z) (r : list Z * list Z * bool) : cresult :=
  let '(got, _, more) := r in
  if (more : bool) then if killed then CRet (-1) got else CSleep (Z.to_nat (target - Z.of_nat (length got))) got
  else CRet (Z.of_nat (length got)) got.

Lemma consoleread_turn_ok killed target n got s com ed : ring s com ed -> target = Z.of_nat (length got) + Z.of_nat n ->
  exists s', consoleread_turn killed target n got s = (s', read_result killed target (read_line n got com)) /\
    ring s' (read_line n got com).1.2 ed /\ co_crt s' = co_crt s /\ co_pos s' = co_pos s /\ co_panicked s' = co_panicked s.
Proof.
  revert s com got. induction n as [|n IH]; intros s com got Hr Ht; cbn [consoleread_turn read_line].
  - exists s. split; [|done]. cbn. do 2 f_equal. lia.
  - rewrite (ring_r_w _ _ _ Hr). destruct com as [|c com].
    + rewrite bool_decide_true by done. cbn [read_result]. exists s. destruct killed; [done|].
      split; [|done]. do 2 f_equal. lia.
    + rewrite bool_decide_false by done.
      assert (buf_at s (in_r s) = c) as Ec by (rewrite <- (rg_at _ _ _ Hr 0 c eq_refl); f_equal; lia). rewrite Ec.
      pose proof (ring_take _ _ _ _ Hr) as Hr1. set (s1 := put_r (u32 (in_r s + 1)) s) in *.
      destruct (c =? ctrl 68).
      * cbn [read_result fst snd].
        assert (put_r (u32 (in_r s1 - 1)) s1 = s) as Eback.
        { unfold s1. cbn [put_r in_r]. rewrite u32_sub_l. replace (in_r s + 1 - 1) with (in_r s) by lia.
          rewrite u32_small by apply Hr. by destruct s. }
        rewrite Eback. destruct (decide (got = [])) as [->|Hg].
        -- rewrite (proj2 (Z.ltb_ge _ _)) by (cbn in Ht; lia). exists s1. split; [|done]. do 2 f_equal. cbn in *. lia.
        -- rewrite (proj2 (Z.ltb_lt _ _)) by (destruct got; [done|cbn in Ht; lia]). exists s. split; [|done]. do 2 f_equal. lia.
      * destruct (c =? 10).
        -- cbn [read_result fst snd]. exists s1. split; [|done]. rewrite length_app. cbn. do 2 f_equal. lia.
        -- apply (IH s1 com); [done|]. rewrite length_app. cbn. lia.
Qed.

(** C18: The console is a line discipline. Whatever the characters typed, the
    interrupt handler returns and the ring holds what the editing rules say:
    complete lines in order, the line being edited with erase and kill
    applied, and never more than 128 bytes. A read returns the first bytes of
    the complete lines up to a newline, a ^D or its limit, and waits only when
    there are none left. *)
Theorem console_line_discipline s com ed : ring s com ed -> screen_ok s ->
  (forall l, Forall (fun c => 0 <= c < 256) l -> exists s', consoleintr l s = Done s' tt /\ screen_ok s' /\
     ring s' (foldl type_char (com, ed) l).1 (foldl type_char (com, ed) l).2) /\
  (forall killed n, 0 <= n -> exists s', consoleread killed n s = (s', read_result killed n (read_line (Z.to_nat n) [] com)) /\
     screen_ok s' /\ ring s' (read_line (Z.to_nat n) [] com).1.2 ed).
Proof.
  intros Hr Hs. split.
  - intros l Hl. revert s com ed Hr Hs. induction Hl as [|c l Hc _ IH]; intros s com ed Hr Hs; [by exists s|].
    cbn [consoleintr foldl]. destruct (consoleintr_char_ok s com ed c Hr Hs Hc) as (s1 & E1 & Hr1 & Hs1).
    rewrite (bind_Done _ _ _ _ _ E1). destruct (type_char (com, ed) c) as [com1 ed1]. by apply IH.
  - intros killed n Hn. unfold consoleread. rewrite Z.max_r by done.
    destruct (consoleread_turn_ok killed n (Z.to_nat n) [] s com ed Hr) as (s' & E & Hr' & E1 & E2 & E3); [cbn; lia|].
    exists s'. split; [done|]. split; [|done]. destruct Hs as [H1 H2 H3]. split; congruence.
Qed.

Definition console0 : console := mkCons 0 1 [] (replicate 2000 0) 0 (replicate 128 0) 0 0 0 0.
Lemma console_line_discipline_witness :
  exists s', consoleintr [104; 106; 8; 105; 13] console0 = Done s' tt /\ screen_ok s' /\ ring s' [104; 105; 10] [].
Proof.
  assert (ring console0 [] []) as Hr.
  { split; try done; try (cbn; lia). intros x Hx. by destruct (not_elem_of_nil _ Hx). }
  assert (screen_ok console0) as Hs by (split; [done|vm_compute; split; congruence|cbn; lia]).
  destruct (console_line_discipline console0 [] [] Hr Hs) as [H _].
  destruct (H [104; 106; 8; 105; 13]) as (s' & E & Hs' & Hr'); [repeat constructor; lia|]. exists s'. split; [exact E|split; [exact Hs'|exact Hr']].
Defined.

Lemma consolewrite_in_bounds_witness :
  exists s', consolewrite (replicate 30 10) console0 = Done s' 30 /\ screen_ok s'.
Proof.
  destruct (consolewrite_in_bounds console0 (replicate 30 10)) as (s' & E & H & _); [|exists s'; split; [exact E|exact H]].
  split; [reflexivity|vm_compute; split; congruence|cbn; lia].
Defined.
