(* ===== verification/Kbd.v ===== *)
(** * The keyboard (kbd.c, kbd.h)

    Scan codes to characters, with the shift state kept between calls. *)

From S2P Require Import Prelude Params.

Definition SHIFT : Z := 1.
Definition CTL : Z := 2.
Definition ALT : Z := 4.
Definition CAPSLOCK : Z := 8.
Definition E0ESC : Z := 64.

(** A 256-entry array: the first entries and designated ones, 0 elsewhere *)
Definition table (l : list Z) (d : list (Z * Z)) : list Z :=
  foldl (fun t '(i, x) => <[Z.to_nat i := x]> t) (l ++ replicate (256 - length l) 0) d.
Definition shiftcode : list Z :=
  table []
    [(29, 2); (42, 1); (54, 1); (56, 4); (157, 2); (184, 4)].
Definition togglecode : list Z :=
  table []
    [(58, 8); (69, 16); (70, 32)].
Definition normalmap : list Z :=
  table [0; 27; 49; 50; 51; 52; 53; 54; 55; 56; 57; 48; 45; 61; 8; 9; 113; 119; 101; 114; 116; 121; 117;
    105; 111; 112; 91; 93; 10; 0; 97; 115; 100; 102; 103; 104; 106; 107; 108; 59; 39; 96; 0; 92;
    122; 120; 99; 118; 98; 110; 109; 44; 46; 47; 0; 42; 0; 32; 0; 0; 0; 0; 0; 0; 0; 0; 0; 0; 0; 0;
    0; 55; 56; 57; 45; 52; 53; 54; 43; 49; 50; 51; 48; 46; 0; 0; 0; 0]
    [(151, 224); (156, 10); (181, 47); (200, 226); (201, 230); (203, 228); (205, 229); (207, 225); (208, 227); (209, 231); (210, 232); (211, 233)].
Definition shiftmap : list Z :=
  table [0; 27; 33; 64; 35; 36; 37; 94; 38; 42; 40; 41; 95; 43; 8; 9; 81; 87; 69; 82; 84; 89; 85; 73; 79;
    80; 123; 125; 10; 0; 65; 83; 68; 70; 71; 72; 74; 75; 76; 58; 34; 126; 0; 124; 90; 88; 67; 86;
    66; 78; 77; 60; 62; 63; 0; 42; 0; 32; 0; 0; 0; 0; 0; 0; 0; 0; 0; 0; 0; 0; 0; 55; 56; 57; 45; 52;
    53; 54; 43; 49; 50; 51; 48; 46; 0; 0; 0; 0]
    [(151, 224); (156, 10); (181, 47); (200, 226); (201, 230); (203, 228); (205, 229); (207, 225); (208, 227); (209, 231); (210, 232); (211, 233)].
Definition ctlmap : list Z :=
  table [0; 0; 0; 0; 0; 0; 0; 0; 0; 0; 0; 0; 0; 0; 0; 0; 17; 23; 5; 18; 20; 25; 21; 9; 15; 16; 0; 0; 13;
    0; 1; 19; 4; 6; 7; 8; 10; 11; 12; 0; 0; 0; 0; 28; 26; 24; 3; 22; 2; 14; 13; 0; 0; 239; 0; 0]
    [(151, 224); (156, 13); (181, 239); (200, 226); (201, 230); (203, 228); (205, 229); (207, 225); (208, 227); (209, 231); (210, 232); (211, 233)].

Definition at_code (t : list Z) (i : Z) : Z := t !!! Z.to_nat i.
(** charcode[shift & (CTL | SHIFT)] *)
Definition charcode (i : Z) : list Z := if i =? 0 then normalmap else if i =? 1 then shiftmap else ctlmap.

(** kbdgetc: [data] is the byte in the controller's buffer, if there is one;
    the result is the new shift state and the value returned. *)
Definition kbdgetc (shift : Z) (data : option Z) : Z * Z :=
  match data with
  | None => (shift, -1)
  | Some data =>
      if data =? 0xE0 then (setf shift E0ESC, 0)
      else if has data 0x80 then
        let data := if has shift E0ESC then data else Z.land data 0x7F in
        (clrf shift (Z.lor (at_code shiftcode data) E0ESC), 0)
      else
        let '(data, shift) := if has shift E0ESC then (Z.lor data 0x80, clrf shift E0ESC) else (data, shift) in
        let shift := Z.lor shift (at_code shiftcode data) in
        let shift := Z.lxor shift (at_code togglecode data) in
        let c := at_code (charcode (Z.land shift (Z.lor CTL SHIFT))) data in
        let c := if has shift CAPSLOCK then
                   if (97 <=? c) && (c <=? 122) then c - 32
                   else if (65 <=? c) && (c <=? 90) then c + 32
                   else c
                 else c in
        (shift, c)
  end.

(** kbdintr hands consoleintr what kbdgetc returns until it is -1. *)
Fixpoint kbd_chars (shift : Z) (data : list Z) : Z * list Z :=
  match data with
  | [] => (shift, [])
  | d :: data' =>
      let '(shift, c) := kbdgetc shift (Some d) in
      let '(shift, l) := kbd_chars shift data' in
      (shift, c :: l)
  end.

Lemma table_byte t i : forallb (fun x => (0 <=? x) && (x <? 256)) t = true -> 0 <= at_code t i < 256.
Proof.
  intros H. unfold at_code. rewrite list_lookup_total_alt. destruct (t !! Z.to_nat i) as [x|] eqn:E; cbn; [|lia].
  rewrite forallb_forall in H. specialize (H x (proj1 (list_elem_of_In _ _) (list_elem_of_lookup_2 _ _ _ E))). lia.
Qed.

(** Whatever scan codes arrive in whatever shift state, every value kbdintr
    passes to the console is a byte, as the console's buffer needs. *)
Theorem kbd_chars_bytes shift data : Forall (fun c => 0 <= c < 256) (kbd_chars shift data).2.
Proof.
  revert shift. induction data as [|d data IH]; intros shift; [constructor|]. cbn [kbd_chars].
  destruct (kbdgetc shift (Some d)) as [shift1 c] eqn:E. specialize (IH shift1).
  destruct (kbd_chars shift1 data) as [shift2 l]. constructor; [|exact IH]. clear IH. unfold kbdgetc in E.
  destruct (d =? 0xE0); [injection E as _ <-; lia|]. destruct (has d 0x80); [injection E as _ <-; lia|].
  destruct (has shift E0ESC); injection E as _ <-.
  all: match goal with |- context [at_code (charcode ?i) ?j] =>
         assert (0 <= at_code (charcode i) j < 256) as Hb by
           (apply table_byte; unfold charcode; destruct (i =? 0); [vm_compute; reflexivity|]; destruct (i =? 1); vm_compute; reflexivity);
         revert Hb; generalize (at_code (charcode i) j); intros c Hb end.
  all: destruct (has _ CAPSLOCK); [|exact Hb]; destruct ((97 <=? c) && (c <=? 122)) eqn:E1; [lia|].
  all: destruct ((65 <=? c) && (c <=? 90)) eqn:E2; lia.
Qed.

(** ** The keyboard on the desk

    The keys of a US keyboard by their scan codes, with what is printed on them;
    it is described here by its rows, from left to right, and not by the tables
    of kbd.h. *)
Definition codes (l : string) : list Z := map (fun a => Z.of_nat (Ascii.nat_of_ascii a)) (String.list_ascii_of_string l).
(** The keys of a row from the scan code [c] on: code, character, shifted character *)
Fixpoint row (c : Z) (plain shifted : list Z) : list (Z * Z * Z) :=
  match plain, shifted with
  | p :: plain', q :: shifted' => (c, p, q) :: row (c + 1) plain' shifted'
  | _, _ => []
  end.
Definition keys : list (Z * Z * Z) :=
  row 0x02 (codes "1234567890-=") (codes "!@#$%^&*()_+") ++
  row 0x10 (codes "qwertyuiop[]") (codes "QWERTYUIOP{}") ++
  row 0x1E (codes "asdfghjkl;'`") (codes "ASDFGHJKL:" ++ [34; 126]) ++
  row 0x2B (codes "\zxcvbnm,./") (codes "|ZXCVBNM<>?") ++
  [(0x39, 32, 32); (0x1C, 10, 10); (0x0F, 9, 9); (0x0E, 8, 8)].
(** Keys whose codes follow an escape byte: the arrows, page up and down, end,
    insert, delete, and the enter and / of the key pad *)
Definition ext_keys : list (Z * Z) :=
  [(0x48, 0xE2); (0x50, 0xE3); (0x4B, 0xE4); (0x4D, 0xE5); (0x49, 0xE6); (0x51, 0xE7); (0x4F, 0xE1); (0x52, 0xE8); (0x53, 0xE9);
   (0x1C, 10); (0x35, 47)].
(** The left and the right key of a pair *)
Inductive side : Set := L | R.
Inductive stroke : Set :=
| Key (sh ct : option side) (k : Z * Z * Z)   (** a key, struck while shift and control keys are held *)
| Ext (k : Z * Z)
| Caps.
(** The bytes that the keyboard sends: every key when it goes down and when it goes up *)
Definition down_up (pre : list Z) (c : Z) (inner : list Z) : list Z := pre ++ [c] ++ inner ++ pre ++ [c + 0x80].
Definition scan (st : stroke) : list Z :=
  match st with
  | Key sh ct (c, _, _) =>
      let l := down_up [] c [] in
      let l := match ct with None => l | Some L => down_up [] 0x1D l | Some R => down_up [0xE0] 0x1D l end in
      match sh with None => l | Some L => down_up [] 0x2A l | Some R => down_up [] 0x36 l end
  | Ext (c, _) => down_up [0xE0] c []
  | Caps => down_up [] 0x3A []
  end.
Definition is_lower (c : Z) : bool := (97 <=? c) && (c <=? 122).
Definition swap_case (c : Z) : Z := if is_lower c then c - 32 else if (65 <=? c) && (c <=? 90) then c + 32 else c.
(** The character a stroke means, with caps lock on or off: control and a letter
    is the letter's place in the alphabet, caps lock exchanges the cases *)
Definition meaning (caps : bool) (st : stroke) : list Z :=
  match st with
  | Key sh ct (_, p, q) =>
      [if ct then p - 96 else let c := if sh then q else p in if caps then swap_case c else c]
  | Ext (_, c) => [c]
  | Caps => []
  end.
Definition stroke_ok (st : stroke) : Prop :=
  match st with
  | Key _ ct (c, p, q) => In (c, p, q) keys /\ (is_Some ct -> is_lower p = true)
  | Ext k => In k ext_keys
  | Caps => True
  end.
Definition caps_after (caps : bool) (st : stroke) : bool := match st with Caps => negb caps | _ => caps end.
Fixpoint typed (caps : bool) (l : list stroke) : list Z :=
  match l with [] => [] | st :: l' => meaning caps st ++ typed (caps_after caps st) l' end.
Definition shift_of (caps : bool) : Z := if caps then CAPSLOCK else 0.

Lemma kbd_chars_app shift l1 l2 :
  kbd_chars shift (l1 ++ l2) =
    let '(s1, o1) := kbd_chars shift l1 in let '(s2, o2) := kbd_chars s1 l2 in (s2, o1 ++ o2).
Proof.
  revert shift. induction l1 as [|d l1 IH]; intros shift; cbn [app kbd_chars]; [by destruct (kbd_chars shift l2)|].
  destruct (kbdgetc shift (Some d)) as [s c]. rewrite IH. destruct (kbd_chars s l1) as [s1 o1]. by destruct (kbd_chars s1 l2).
Qed.
(** One stroke, checked for every key and every combination of keys held *)
Definition stroke_right (caps : bool) (st : stroke) : bool :=
  let '(s, o) := kbd_chars (shift_of caps) (scan st) in
  bool_decide (s = shift_of (caps_after caps st)) && bool_decide (filter (fun c => c <> 0) o = meaning caps st).
Definition mods : list (option side) := [None; Some L; Some R].
Lemma mods_all (o : option side) : In o mods.
Proof. destruct o as [[]|]; cbn; tauto. Qed.
Lemma keys_right : forallb (fun caps => forallb (fun sh => forallb (fun ct => forallb (fun k =>
  (if ct : option side then negb (is_lower k.1.2) else false) || stroke_right caps (Key sh ct k)) keys) mods) mods) [true; false] = true.
Proof. vm_compute. reflexivity. Qed.
Lemma ext_right : forallb (fun caps => stroke_right caps Caps && forallb (fun k => stroke_right caps (Ext k)) ext_keys) [true; false] = true.
Proof. vm_compute. reflexivity. Qed.
Lemma stroke_ok_right caps st : stroke_ok st -> stroke_right caps st = true.
Proof.
  assert (Hc : In caps [true; false]) by (destruct caps; cbn; tauto).
  pose proof (proj1 (forallb_forall _ _) keys_right caps Hc) as HK. pose proof (proj1 (forallb_forall _ _) ext_right caps Hc) as HE.
  apply andb_true_iff in HE as [HC HE]. destruct st as [sh ct [[c p] q]|k|]; cbn [stroke_ok]; intros H.
  - destruct H as [Hk Hl]. pose proof (proj1 (forallb_forall _ _) HK sh (mods_all sh)) as H1. cbv beta in H1.
    pose proof (proj1 (forallb_forall _ _) H1 ct (mods_all ct)) as H2. cbv beta in H2.
    pose proof (proj1 (forallb_forall _ _) H2 (c, p, q) Hk) as H3. cbv beta in H3. apply orb_true_iff in H3 as [H3|H3]; [|exact H3].
    destruct ct; [|discriminate]. cbn [fst snd] in H3. rewrite Hl in H3 by done. discriminate.
  - exact (proj1 (forallb_forall _ _) HE k H).
  - exact HC.
Qed.

(** C40: What is typed is what the console gets.  For any sequence of strokes on a
    US keyboard - the keys of the main block with either shift key, letters with
    either control key, caps lock, and the keys with an escape code but Home - the
    characters other than 0, which consoleintr ignores, are the ones the strokes
    mean, one for each, and the driver is left with only the caps lock state. *)
Theorem kbd_types caps l : Forall stroke_ok l ->
  exists out, kbd_chars (shift_of caps) (concat (map scan l)) = (shift_of (foldl caps_after caps l), out) /\
    filter (fun c => c <> 0) out = typed caps l.
Proof.
  revert caps. induction l as [|st l IH]; intros caps Hl; [by exists []|]. apply Forall_cons in Hl as [Hst Hl].
  apply (stroke_ok_right caps) in Hst. unfold stroke_right in Hst. cbn [map concat foldl typed]. rewrite kbd_chars_app.
  destruct (kbd_chars (shift_of caps) (scan st)) as [s o]. apply andb_true_iff in Hst as [H1%bool_decide_eq_true H2%bool_decide_eq_true]. subst s.
  destruct (IH (caps_after caps st) Hl) as (out & -> & E). exists (o ++ out). split; [done|]. by rewrite filter_app, H2, E.
Qed.
(** Hi! with the right shift key, the caps lock and the left one, then control-D *)
Lemma kbd_types_witness : exists out,
  kbd_chars 0 [0x36; 0x23; 0xA3; 0xB6; 0x3A; 0xBA; 0x2A; 0x17; 0x97; 0xAA; 0x2A; 0x02; 0x82; 0xAA; 0x1D; 0x20; 0xA0; 0x9D] = (CAPSLOCK, out) /\
  filter (fun c => c <> 0) out = [72; 105; 33; 4].
Proof.
  apply (kbd_types false [Key (Some R) None (0x23, 104, 72); Caps; Key (Some L) None (0x17, 105, 73); Key (Some L) None (0x02, 49, 33);
    Key None (Some L) (0x20, 100, 68)]).
  assert (K : forall k, existsb (fun x => bool_decide (x = k)) keys = true -> In k keys).
  { intros k H. apply existsb_exists in H as (x & Hx & E%bool_decide_eq_true). by subst. }
  repeat first [apply List.Forall_nil | apply List.Forall_cons]; cbn [stroke_ok]; try exact I;
    (split; [apply K; vm_compute; reflexivity | intros [? H]; first [reflexivity | discriminate H]]).
Defined.
(** The home key sends 0xE0 0x47, which is entry 0xC7; KEY_HOME is in entry 0x97, where no key is. *)
Theorem home_key_lost : kbd_chars 0 [0xE0; 0x47; 0xE0; 0xC7] = (0, [0; 0; 0; 0]).
Proof. reflexivity. Qed.
