(* ===== verification/Ide.v ===== *)
(** * The IDE disk driver (ide.c)

    Requests queue up; the first one is at the disk, whose registers hold its
    address and direction. The disk's part (carrying out the command in its
    registers and raising the interrupt) is [drive]; idewait's polling has no
    effect but its error result, an argument of ideintr. Served in order, the
    queue does to buffers and disk what the memory disk does at once. *)

From S2P Require Import Prelude Params Bytes Bio.

(** The command block registers (ports 0x1f2 to 0x1f6) and the command *)
Record regs : Type := mkRegs { rg_count : Z; rg_lo : Z; rg_mid : Z; rg_hi : Z; rg_dev : Z }.
Inductive command : Type := IDE_CMD_READ | IDE_CMD_WRITE (data : bytes).

Record ide : Type := mkIde {
  id_bc : bcache;                       (** the buffers, and disk 1 *)
  id_disk0 : list bytes;
  id_queue : list nat;                  (** idequeue, following qnext *)
  id_havedisk1 : Z;
  id_cmd : option (regs * command);     (** what the disk is doing *)
  id_data : bytes                       (** the sector a read delivered *)
}.
Definition put_ibc (x : bcache) (s : ide) : ide := mkIde x (id_disk0 s) (id_queue s) (id_havedisk1 s) (id_cmd s) (id_data s).
Definition put_queue (x : list nat) (s : ide) : ide := mkIde (id_bc s) (id_disk0 s) x (id_havedisk1 s) (id_cmd s) (id_data s).
Definition put_cmd (x : option (regs * command)) (s : ide) : ide :=
  mkIde (id_bc s) (id_disk0 s) (id_queue s) (id_havedisk1 s) x (id_data s).
Definition ibuf (s : ide) (b : nat) : buf := bc_bufs (id_bc s) !!! b.

(** outb of the sector number and the drive *)
Definition set_regs (dev sector : Z) : regs :=
  mkRegs 1 (Z.land sector 0xff) (Z.land (Z.shiftr sector 8) 0xff) (Z.land (Z.shiftr sector 16) 0xff)
    (Z.lor (Z.lor 0xe0 (Z.shiftl (Z.land dev 1) 4)) (Z.land (Z.shiftr sector 24) 0x0f)).

Definition idestart (b : option nat) : kernel ide unit :=
  match b with
  | None => kpanic "idestart"
  | Some b =>
      s ← kget;
      let x := ibuf s b in
      if FSSIZE <=? b_blockno x then kpanic "incorrect blockno"
      else
        let sector := s32 (b_blockno x * (BSIZE / 512)) in
        kmodify (put_cmd (Some (set_regs (b_dev x) sector,
                                if has (b_flags x) B_DIRTY then IDE_CMD_WRITE (b_data x) else IDE_CMD_READ)))
  end.

(** The interrupt handler; [err] when idewait(1) reports an error. The result
    is the buffer passed to wakeup. *)
Definition ideintr (err : bool) : kernel ide (option nat) :=
  s ← kget;
  match id_queue s with
  | [] => mret None
  | b :: q =>
      kmodify (put_queue q);;
      (if negb (has (b_flags (ibuf s b)) B_DIRTY) && negb err then
         kmodify (fun s => put_ibc (modb b (set_bdata (id_data s)) (id_bc s)) s)
       else mret tt);;
      kmodify (fun s => put_ibc (modb b (fun x => set_bflags (setf (b_flags x) B_VALID) x) (id_bc s)) s);;
      kmodify (fun s => put_ibc (modb b (fun x => set_bflags (clrf (b_flags x) B_DIRTY) x) (id_bc s)) s);;
      (match q with [] => mret tt | n :: _ => idestart (Some n) end);;
      mret (Some b)
  end.

(** iderw up to its wait: it returns at once or sleeps on the buffer *)
Definition iderw (b : nat) : kernel ide unit :=
  s ← kget;
  let x := ibuf s b in
  if negb (has (b_flags x) B_BUSY) then kpanic "iderw: buf not busy"
  else if Z.land (b_flags x) (Z.lor B_VALID B_DIRTY) =? B_VALID then kpanic "iderw: nothing to do"
  else if negb (b_dev x =? 0) && (id_havedisk1 s =? 0) then kpanic "iderw: ide disk 1 not present"
  else
    kmodify (put_queue (id_queue s ++ [b]));;
    (if decide (head (id_queue s ++ [b]) = Some b) then idestart (Some b) else mret tt);;
    s ← kget;
    if Z.land (b_flags (ibuf s b)) (Z.lor B_VALID B_DIRTY) =? B_VALID then mret tt
    else ksleep (CBuf b).

(** ** The disk *)
Definition lba (r : regs) : Z :=
  rg_lo r + 2 ^ 8 * rg_mid r + 2 ^ 16 * rg_hi r + 2 ^ 24 * Z.land (rg_dev r) 0x0f.
Definition drive_no (r : regs) : Z := Z.land (Z.shiftr (rg_dev r) 4) 1.

Definition drive (s : ide) : ide :=
  match id_cmd s with
  | None => s
  | Some (r, c) =>
      let p := Z.to_nat (lba r) in
      if drive_no r =? 1 then
        match c with
        | IDE_CMD_READ => mkIde (id_bc s) (id_disk0 s) (id_queue s) (id_havedisk1 s) None (bc_disk (id_bc s) !!! p)
        | IDE_CMD_WRITE d => mkIde (disk_write p d (id_bc s)) (id_disk0 s) (id_queue s) (id_havedisk1 s) None (id_data s)
        end
      else
        match c with
        | IDE_CMD_READ => mkIde (id_bc s) (id_disk0 s) (id_queue s) (id_havedisk1 s) None (id_disk0 s !!! p)
        | IDE_CMD_WRITE d => mkIde (id_bc s) (<[p := d]> (id_disk0 s)) (id_queue s) (id_havedisk1 s) None (id_data s)
        end
  end.

(** The disk finishes and its interrupt is handled, [n] times. *)
Fixpoint serve (n : nat) : kernel ide (list nat) :=
  match n with
  | O => mret []
  | S n' =>
      kmodify drive;;
      r ← ideintr false;
      l ← serve n';
      mret (match r with Some b => b :: l | None => l end)
  end.
(** The memory disk, one request after the other *)
Fixpoint memory_disk (l : list nat) : kernel bcache unit :=
  match l with
  | [] => mret tt
  | b :: l' => Bio.iderw b;; memory_disk l'
  end.

(** ** Registers *)
Lemma land_byte x : Z.land x 0xff = x mod 2 ^ 8.
Proof. change 0xff with (Z.ones 8). apply Z.land_ones. lia. Qed.
Lemma set_regs_ok sector : 0 <= sector < 2 ^ 24 -> lba (set_regs 1 sector) = sector /\ drive_no (set_regs 1 sector) = 1.
Proof.
  intros H. unfold lba, drive_no, set_regs. cbn [rg_lo rg_mid rg_hi rg_dev]. rewrite !land_byte, !Z.shiftr_div_pow2 by lia.
  assert (sector / 2 ^ 24 = 0) as -> by (apply Z.div_small; lia).
  change (Z.land (Z.lor (Z.lor 224 (Z.shiftl (Z.land 1 1) 4)) (Z.land 0 15)) 15) with 0.
  split; [|reflexivity]. rewrite (Z.mod_small (sector / 2 ^ 16)) by (split; [apply Z.div_pos; lia|apply Z.div_lt_upper_bound; lia]).
  pose proof (Z.div_mod sector (2 ^ 8) ltac:(lia)). pose proof (Z.div_mod (sector / 2 ^ 8) (2 ^ 8) ltac:(lia)).
  rewrite Z.div_div in * by lia. change (2 ^ 8 * 2 ^ 8) with (2 ^ 16) in *. lia.
Qed.

(** ** Requests *)
Record request (bc : bcache) (b : nat) : Prop := mkReq {
  rq_in : (b < length (bc_bufs bc))%nat;
  rq_busy : has (b_flags (bc_bufs bc !!! b)) B_BUSY = true;
  rq_todo : Z.land (b_flags (bc_bufs bc !!! b)) (Z.lor B_VALID B_DIRTY) <> B_VALID;
  rq_dev : b_dev (bc_bufs bc !!! b) = 1;
  rq_block : 0 <= b_blockno (bc_bufs bc !!! b) < Z.min FSSIZE (Z.of_nat (length (bc_disk bc)))
}.
(** The disk works on the first request. *)
Definition at_disk (bc : bcache) (b : nat) : regs * command :=
  let x := bc_bufs bc !!! b in
  (set_regs 1 (b_blockno x), if has (b_flags x) B_DIRTY then IDE_CMD_WRITE (b_data x) else IDE_CMD_READ).
Record ide_ok (s : ide) : Prop := mkIdeOk {
  io_queue : NoDup (id_queue s);
  io_req : forall b, b ∈ id_queue s -> request (id_bc s) b;
  io_cmd : id_cmd s = at_disk (id_bc s) <$> head (id_queue s);
  io_disk : id_havedisk1 s <> 0
}.

(** What a request does to the buffers and the disk *)
Definition finish (b : nat) (bc : bcache) : bcache :=
  let x := bc_bufs bc !!! b in
  let p := Z.to_nat (b_blockno x) in
  let bc1 := if has (b_flags x) B_DIRTY then disk_write p (b_data x) bc else modb b (set_bdata (bc_disk bc !!! p)) bc in
  modb b (fun x => set_bflags (clrf (setf (b_flags x) B_VALID) B_DIRTY) x) bc1.

Lemma modb_modb b f g bc : modb b f (modb b g bc) = modb b (fun x => f (g x)) bc.
Proof. unfold modb, put_bufs. cbn. by rewrite list_alter_alter_eq. Qed.
Lemma modb_ext b f g bc : (forall x, bc_bufs bc !! b = Some x -> f x = g x) -> modb b f bc = modb b g bc.
Proof. intros H. unfold modb. f_equal. apply list_alter_ext; [|done]. intros x Hx. by apply H. Qed.

Lemma set_clear f : clrf (setf f B_VALID) B_DIRTY = setf (clrf f B_DIRTY) B_VALID.
Proof.
  unfold clrf, setf, B_VALID, B_DIRTY. apply Z.bits_inj'. intros n Hn.
  rewrite Z.land_spec, !Z.lor_spec, Z.land_spec, !Z.lnot_spec by lia.
  change 2 with (2 ^ 1). change 4 with (2 ^ 2). rewrite !Z.pow2_bits_eqb by lia.
  destruct (Z.eqb_spec 1 n), (Z.eqb_spec 2 n); try lia; by rewrite ?orb_true_r, ?orb_false_r, ?andb_true_r, ?andb_false_r.
Qed.
Lemma clear_clean f : has f B_DIRTY = false -> clrf f B_DIRTY = f.
Proof.
  unfold has, clrf. rewrite negb_false_iff, Z.eqb_eq. intros H. rewrite <- Z.ldiff_land. apply Z.bits_inj'. intros n Hn.
  rewrite Z.ldiff_spec. apply (f_equal (fun z => Z.testbit z n)) in H. rewrite Z.land_spec, Z.bits_0 in H.
  destruct (Z.testbit f n), (Z.testbit B_DIRTY n); done.
Qed.

Lemma memory_disk_finish bc b : request bc b -> Bio.iderw b bc = Done (finish b bc) tt.
Proof.
  intros [R1 R2 R3 R4 R5]. unfold Bio.iderw, finish. rewrite (bind_Done kget _ bc bc bc eq_refl). cbn zeta.
  set (x := bc_bufs bc !!! b) in *.
  rewrite R2, (proj2 (Z.eqb_neq _ _) R3), R4, Z.eqb_refl, (proj2 (Z.leb_gt _ _)) by lia. cbn [negb].
  assert (bc_bufs bc !! b = Some x) as Hx by (by apply list_lookup_lookup_total_lt).
  destruct (has (b_flags x) B_DIRTY) eqn:Ed; unfold mbind, kernel_bind, kmodify; f_equal.
  - transitivity (modb b (fun x => set_bflags (setf (clrf (b_flags x) B_DIRTY) B_VALID) x)
      (disk_write (Z.to_nat (b_blockno x)) (b_data x) bc)).
    + unfold modb, put_bufs, disk_write. cbn. by rewrite list_alter_alter_eq.
    + apply modb_ext. intros y _. by rewrite set_clear.
  - rewrite !modb_modb. apply modb_ext. intros y Hy. rewrite Hx in Hy. injection Hy as <-. cbn.
    rewrite set_clear, clear_clean by done. done.
Qed.

Lemma finish_other b bc c : b <> c -> bc_bufs (finish b bc) !!! c = bc_bufs bc !!! c /\ length (bc_disk (finish b bc)) = length (bc_disk bc) /\
  length (bc_bufs (finish b bc)) = length (bc_bufs bc).
Proof.
  intros Hne. unfold finish. destruct (has _ B_DIRTY); cbn [modb put_bufs bc_bufs bc_disk disk_write].
  - rewrite list_lookup_total_alter_ne, length_alter, length_insert by done. done.
  - rewrite !list_lookup_total_alter_ne, !length_alter by done. done.
Qed.

Lemma request_finish b bc c : b <> c -> request bc c -> request (finish b bc) c.
Proof. intros Hne [R1 R2 R3 R4 R5]. destruct (finish_other b bc c Hne) as (E1 & E2 & E3). split; rewrite ?E1, ?E2, ?E3; done. Qed.

(** ** Service *)
Lemma idestart_ok s b : request (id_bc s) b -> idestart (Some b) s = Done (put_cmd (Some (at_disk (id_bc s) b)) s) tt.
Proof.
  intros [R1 R2 R3 R4 R5]. unfold idestart, at_disk. rewrite (bind_Done kget _ s s s eq_refl). unfold ibuf. cbn zeta.
  assert (FSSIZE = 1000) as EF by done. rewrite (proj2 (Z.leb_gt _ _)) by lia. change (BSIZE / 512) with 1.
  rewrite Z.mul_1_r, s32_small, R4 by lia. done.
Qed.

Definition served (b : nat) (q : list nat) (s : ide) : ide :=
  let bc := finish b (id_bc s) in
  mkIde bc (id_disk0 s) q (id_havedisk1 s) (at_disk bc <$> head q) (id_data (drive s)).

Lemma serve_one s b q : ide_ok s -> id_queue s = b :: q ->
  ideintr false (drive s) = Done (served b q s) (Some b) /\ ide_ok (served b q s).
Proof.
  intros [I1 I2 I3 I4] Eq. rewrite Eq in *. apply NoDup_cons in I1 as [Hn I1].
  assert (request (id_bc s) b) as Hb by (apply I2; apply elem_of_cons; by left).
  set (bc := finish b (id_bc s)).
  assert (forall c, c ∈ q -> request bc c) as Hq.
  { intros c Hc. apply request_finish; [intros ->; done|]. apply I2. apply elem_of_cons. by right. }
  assert (ide_ok (served b q s)) as Hok by (by split). split; [|exact Hok]. clear Hok.
  assert (FSSIZE = 1000) as EF by done. pose proof (rq_block _ _ Hb) as Hr.
  destruct (set_regs_ok (b_blockno (bc_bufs (id_bc s) !!! b))) as [El Ed]; [lia|].
  set (x := bc_bufs (id_bc s) !!! b) in *.
  assert (bc_bufs (id_bc s) !! b = Some x) as Hx by (apply list_lookup_lookup_total_lt, Hb).
  (* the drive and the handler up to the next idestart *)
  assert (forall A (k : unit -> kernel ide A) d, let t := mkIde bc (id_disk0 s) q (id_havedisk1 s) None d in
    ((match q with [] => mret tt | n :: _ => idestart (Some n) end);; k tt) t =
    k tt (mkIde bc (id_disk0 s) q (id_havedisk1 s) (at_disk bc <$> head q) d)) as Hnext.
  { intros A k d t. destruct q as [|c q]; [done|]. rewrite (bind_Done _ _ _ _ _ (idestart_ok t c ltac:(apply Hq, elem_of_cons; by left))). done. }
  unfold ideintr, served, drive. rewrite I3. unfold at_disk at 1 3. cbn [head fmap option_fmap option_map]. fold x. rewrite El, Ed. change (1 =? 1) with true. cbn iota.
  destruct (has (b_flags x) B_DIRTY) eqn:EdD; cbn [id_data].
  - rewrite (bind_Done kget _ _ _ _ eq_refl). cbn [id_queue]. rewrite Eq. unfold ibuf. cbn [id_bc disk_write bc_bufs]. fold x.
    rewrite EdD. cbn [negb andb]. etrans; [|exact (Hnext _ (fun _ => mret (Some b)) (id_data s))]. clear Hnext.
    unfold mbind, kernel_bind, kmodify, mret, kernel_ret, put_ibc, put_queue. cbn [id_bc id_disk0 id_queue id_havedisk1 id_cmd id_data].
    rewrite modb_modb. unfold bc, finish. fold x. rewrite EdD. done.
  - rewrite (bind_Done kget _ _ _ _ eq_refl). cbn [id_queue]. rewrite Eq. unfold ibuf. cbn [id_bc bc_bufs]. fold x.
    rewrite EdD. cbn [negb andb]. etrans; [|exact (Hnext _ (fun _ => mret (Some b)) (bc_disk (id_bc s) !!! Z.to_nat (b_blockno x)))]. clear Hnext.
    unfold mbind, kernel_bind, kmodify, mret, kernel_ret, put_ibc, put_queue. cbn [id_bc id_disk0 id_queue id_havedisk1 id_cmd id_data].
    rewrite !modb_modb. unfold bc, finish. fold x. rewrite EdD, modb_modb. done.
Qed.

Lemma iderw_queues s b : ide_ok s -> request (id_bc s) b -> (b ∉ id_queue s) ->
  exists s', iderw b s = Sleeping s' (CBuf b) /\ ide_ok s' /\ id_queue s' = id_queue s ++ [b] /\ id_bc s' = id_bc s.
Proof.
  intros [I1 I2 I3 I4] Hb Hn. unfold iderw. rewrite (bind_Done kget _ s s s eq_refl). unfold ibuf. cbn zeta.
  rewrite (rq_busy _ _ Hb), (proj2 (Z.eqb_neq _ _) (rq_todo _ _ Hb)), (proj2 (Z.eqb_neq _ _) I4), andb_false_r. cbn [negb].
  set (s1 := put_queue (id_queue s ++ [b]) s). rewrite (bind_Done _ _ s s1 tt) by reflexivity.
  assert (exists s2, (if decide (head (id_queue s ++ [b]) = Some b) then idestart (Some b) else mret tt) s1 = Done s2 tt /\
    id_queue s2 = id_queue s ++ [b] /\ id_bc s2 = id_bc s /\ id_havedisk1 s2 = id_havedisk1 s /\
    id_cmd s2 = at_disk (id_bc s) <$> head (id_queue s ++ [b])) as (s2 & E & Eq & Ebc & Eh & Ec).
  { destruct (id_queue s) as [|c q] eqn:Eq.
    - cbn [app head]. rewrite decide_True by done. rewrite (idestart_ok s1 b Hb). eexists. split; [reflexivity|]. done.
    - cbn [app head]. rewrite decide_False by (intros [= ->]; apply Hn, elem_of_cons; by left). exists s1. done. }
  rewrite (bind_Done _ _ _ _ _ E), (bind_Done kget _ s2 s2 s2 eq_refl). rewrite Ebc, (proj2 (Z.eqb_neq _ _) (rq_todo _ _ Hb)).
  exists s2. split; [done|]. split; [|done]. split; rewrite ?Eq, ?Ebc, ?Eh; try done.
  - apply NoDup_app. split_and!; [done| |apply NoDup_singleton]. intros c Hc Hc'. by apply list_elem_of_singleton in Hc' as ->.
  - intros c Hc. apply elem_of_app in Hc as [Hc|Hc]; [by apply I2|]. by apply list_elem_of_singleton in Hc as ->.
Qed.

Lemma serve_all s : ide_ok s ->
  exists s', serve (length (id_queue s)) s = Done s' (id_queue s) /\ id_queue s' = [] /\ id_cmd s' = None /\
    memory_disk (id_queue s) (id_bc s) = Done (id_bc s') tt.
Proof.
  remember (id_queue s) as q eqn:Eq. revert s Eq. induction q as [|b q IH]; intros s Eq Hs.
  - exists s. split; [done|]. split; [done|]. split; [|done]. by rewrite (io_cmd _ Hs), <- Eq.
  - destruct (serve_one s b q Hs (eq_sym Eq)) as [E1 H1]. destruct (IH (served b q s) eq_refl H1) as (s' & E2 & Q' & C' & M').
    exists s'. cbn [length serve memory_disk]. rewrite (bind_Done _ _ s (drive s) tt) by reflexivity.
    rewrite (bind_Done _ _ _ _ _ E1), (bind_Done _ _ _ _ _ E2). split; [done|]. split; [done|]. split; [done|].
    rewrite (bind_Done _ _ _ _ _ (memory_disk_finish _ b (io_req _ Hs b ltac:(rewrite <- Eq; apply elem_of_cons; by left)))). exact M'.
Qed.

(** C19: The disk driver serves its queue in order and to the end. iderw of a
    buffer that is not queued puts it last, starts the disk if it was idle and
    sleeps. After as many interrupts as there are requests, each requester has
    been woken once, in the order of the calls of iderw, the queue is empty,
    and buffers and disk are as if the memory disk had handled the requests
    one after the other. *)
Theorem ide_serves_queue s : ide_ok s ->
  (forall b, request (id_bc s) b -> (b ∉ id_queue s) ->
     exists s', iderw b s = Sleeping s' (CBuf b) /\ ide_ok s' /\ id_queue s' = id_queue s ++ [b] /\ id_bc s' = id_bc s) /\
  exists s', serve (length (id_queue s)) s = Done s' (id_queue s) /\ id_queue s' = [] /\ id_cmd s' = None /\
    memory_disk (id_queue s) (id_bc s) = Done (id_bc s') tt.
Proof. intros Hs. split; [|by apply serve_all]. intros b Hb Hn. by apply iderw_queues. Qed.

Definition ide_demo : ide :=
  mkIde (mkBc [mkBuf 5 1 0 [7]; mkBuf 1 1 0 [8]] [] [] [[9]] []) [] [0%nat; 1%nat] 1 (Some (set_regs 1 0, IDE_CMD_WRITE [7])) [].
Lemma ide_serves_queue_witness :
  exists s', serve 2 ide_demo = Done s' [0%nat; 1%nat] /\ id_queue s' = [] /\ id_cmd s' = None /\
    memory_disk [0%nat; 1%nat] (id_bc ide_demo) = Done (id_bc s') tt.
Proof.
  apply (ide_serves_queue ide_demo). split.
  - apply NoDup_cons. split; [|apply NoDup_singleton]. intros H. by apply list_elem_of_singleton in H.
  - intros b Hb. apply elem_of_cons in Hb as [->|Hb]; [|apply list_elem_of_singleton in Hb as ->];
      (split; [cbn; lia|reflexivity|vm_compute; discriminate|reflexivity|vm_compute; split; congruence]).
  - reflexivity.
  - cbn. lia.
Defined.

(** A read that the disk reports as failed: the buffer keeps what it had and
    is marked valid all the same. *)
Lemma ideintr_error_marks_valid :
  let s := mkIde (mkBc [mkBuf 1 1 0 [8]] [] [] [[9]] []) [] [0%nat] 1 None [9] in
  exists s', ideintr true s = Done s' (Some 0%nat) /\ b_flags (ibuf s' 0) = Z.lor B_BUSY B_VALID /\ b_data (ibuf s' 0) = [8].
Proof. eexists. split; [reflexivity|]. split; reflexivity. Qed.
