(* ===== verification/Mkfs.v ===== *)
(** * Making a file system image (mkfs.c)

    The image file is the list of its 512-byte sectors; mkfs's global
    variables are the state. exit(1) after an error, and a failed assert, are
    [Panic]. The files given on the command line are parameters: their names
    and what the successive reads of them return. *)

From S2P Require Import Prelude Params Bytes Store CString Fs.

Definition NINODES : Z := 200.
Definition nbitmap : Z := FSSIZE / (BSIZE * 8) + 1.
Definition ninodeblocks : Z := NINODES / IPB + 1.
Definition nlog : Z := LOGSIZE.
Definition nmeta : Z := 2 + nlog + ninodeblocks + nbitmap.
Definition nblocks : Z := FSSIZE - nmeta.

(** xshort and xint store the bytes in i386 order; the host reads them back. *)
Definition xshort (x : Z) : Z := get16 (le16 x) 0.
Definition xint (x : Z) : Z := get32 (le32 x) 0.

Definition sb : superblock :=
  mkSb (xint FSSIZE) (xint nblocks) (xint NINODES) (xint nlog) (xint 2) (xint (2 + nlog)) (xint (2 + nlog + ninodeblocks)).
Definition sb_bytes : bytes :=
  le32 (sb_size sb) ++ le32 (sb_nblocks sb) ++ le32 (sb_ninodes sb) ++ le32 (sb_nlog sb) ++
  le32 (sb_logstart sb) ++ le32 (sb_inodestart sb) ++ le32 (sb_bmapstart sb).

Record mkst : Type := mkMk { m_img : list bytes; m_freeinode : Z; m_freeblock : Z }.
Definition set_img (l : list bytes) (s : mkst) : mkst := mkMk l (m_freeinode s) (m_freeblock s).
Definition zeroes : bytes := replicate (Z.to_nat BSIZE) 0.

(** A write past the end of the file extends it. *)
Definition wsect (sec : Z) (buf : bytes) : kernel mkst unit := fun s =>
  let n := Z.to_nat sec in
  if (n <? length (m_img s))%nat then Done (set_img (<[n := buf]> (m_img s)) s) tt
  else Done (set_img (m_img s ++ replicate (n - length (m_img s)) zeroes ++ [buf]) s) tt.
(** A read past the end returns fewer bytes. *)
Definition rsect (sec : Z) : kernel mkst bytes := fun s =>
  match m_img s !! Z.to_nat sec with Some d => Done s d | None => Panic "read" end.

(** A struct dinode is an inode whose device, number, reference count and
    flags mean nothing. *)
Definition winode (inum : Z) (ip : inode) : kernel mkst unit :=
  let bn := IBLOCK inum sb in
  buf ← rsect bn;
  wsect bn (write_dinode ip (dinode_off inum) buf).
Definition rinode (inum : Z) : kernel mkst inode :=
  let bn := IBLOCK inum sb in
  buf ← rsect bn;
  mret (read_dinode buf (dinode_off inum) (mkInode 1 inum 0 0 0 0 0 0 0 [])).

(** uint inum = freeinode++ and freeblock++ *)
Definition next_inode : kernel mkst Z := fun s =>
  Done (mkMk (m_img s) (u32 (m_freeinode s + 1)) (m_freeblock s)) (m_freeinode s).
Definition next_block : kernel mkst Z := fun s =>
  Done (mkMk (m_img s) (m_freeinode s) (u32 (m_freeblock s + 1))) (m_freeblock s).

Definition ialloc (type : Z) : kernel mkst Z :=
  inum ← next_inode;
  let din := mkInode 1 inum 0 0 (s16 (xshort type)) 0 0 (s16 (xshort 1)) (xint 0) (replicate 13 0) in
  winode inum din;;
  mret inum.

Fixpoint set_bits (i : Z) (k : nat) (buf : bytes) : bytes :=
  match k with
  | O => buf
  | S k' => set_bits (i + 1) k' (let o := Z.to_nat (i / 8) in put8 o (Z.lor (get8 buf o) (Z.shiftl 1 (i mod 8))) buf)
  end.
Definition balloc (used : Z) : kernel mkst unit :=
  if negb (used <? BSIZE * 8) then kpanic "assert used < BSIZE*8"
  else wsect (sb_bmapstart sb) (set_bits 0 (Z.to_nat used) zeroes).

(** if(xint(din.addrs[n]) == 0) din.addrs[n] = xint(freeblock++) *)
Definition ensure_addr (din : inode) (n : nat) : kernel mkst inode :=
  if xint (i_addrs din !!! n) =? 0 then b ← next_block; mret (set_iaddr n (xint b) din) else mret din.
(** The sector of file block [fbn], allocated if there is none *)
Definition get_block (din : inode) (fbn : Z) : kernel mkst (inode * Z) :=
  if fbn <? NDIRECT then
    din ← ensure_addr din (Z.to_nat fbn);
    mret (din, xint (i_addrs din !!! Z.to_nat fbn))
  else
    din ← ensure_addr din (Z.to_nat NDIRECT);
    indirect ← rsect (xint (i_addrs din !!! Z.to_nat NDIRECT));
    let o := (4 * Z.to_nat (fbn - NDIRECT))%nat in
    if get32 indirect o =? 0 then
      b ← next_block;
      let indirect := put32 o (xint b) indirect in
      wsect (xint (i_addrs din !!! Z.to_nat NDIRECT)) indirect;;
      mret (din, xint (get32 indirect o))
    else mret (din, xint (get32 indirect o)).

(** while(n > 0): [p] is what is left to write *)
Fixpoint iappend_loop (k : nat) (din : inode) (p : bytes) (off : Z) : kernel mkst (inode * Z) :=
  match p with
  | [] => mret (din, off)
  | _ =>
      match k with
      | O => kspin
      | S k' =>
          let fbn := off / BSIZE in
          if negb (fbn <? MAXFILE) then kpanic "assert fbn < MAXFILE"
          else
            '(din, x) ← get_block din fbn;
            let n1 := Z.min (Z.of_nat (length p)) ((fbn + 1) * BSIZE - off) in
            buf ← rsect x;
            wsect x (splice (Z.to_nat (off - fbn * BSIZE)) (take (Z.to_nat n1) p) buf);;
            iappend_loop k' din (drop (Z.to_nat n1) p) (u32 (off + n1))
      end
  end.
Definition iappend (inum : Z) (p : bytes) : kernel mkst unit :=
  din ← rinode inum;
  '(din, off) ← iappend_loop (length p) din p (xint (i_size din));
  winode inum (set_isize (xint off) din).

(** A struct dirent with the given name bytes *)
Definition dirent (inum : Z) (name : bytes) : bytes := splice 2 name (put16 0 (xshort inum) (replicate 16 0)).
Definition strcpy_name (name : list Z) : bytes := default [] (strcpy (name ++ [0])).
Definition strncpy_name (name : list Z) : bytes := default [] (strncpy (name ++ [0]) DIRSIZ).

(** ++argv[i] over a leading '_' *)
Definition skip_underscore (name : list Z) : list Z :=
  match name with c :: name' => if c =? 95 then name' else name | [] => [] end.
Fixpoint append_reads (inum : Z) (reads : list bytes) : kernel mkst unit :=
  match reads with
  | [] => mret tt
  | buf :: reads' => iappend inum buf;; append_reads inum reads'
  end.
Fixpoint add_files (rootino : Z) (files : list (list Z * list bytes)) : kernel mkst unit :=
  match files with
  | [] => mret tt
  | (name, reads) :: files' =>
      if existsb (Z.eqb 47) name then kpanic "assert index(argv[i], '/') == 0"
      else
        let name := skip_underscore name in
        inum ← ialloc T_FILE;
        iappend rootino (dirent inum (strncpy_name name));;
        append_reads inum reads;;
        add_files rootino files'
  end.

(** for(i = 0; i < FSSIZE; i++) wsect(i, zeroes) *)
Fixpoint zero_all (i : Z) (k : nat) : kernel mkst unit :=
  match k with O => mret tt | S k' => wsect i zeroes;; zero_all (i + 1) k' end.
(** The image file starts out empty. *)
Definition main (files : list (list Z * list bytes)) : kernel mkst unit :=
  kmodify (fun s => mkMk (m_img s) (m_freeinode s) nmeta);;
  zero_all 0 (Z.to_nat FSSIZE);;
  wsect 1 (splice 0 sb_bytes zeroes);;
  rootino ← ialloc T_DIR;
  if negb (rootino =? ROOTINO) then kpanic "assert rootino == ROOTINO"
  else
    iappend rootino (dirent rootino (strcpy_name [46]));;
    iappend rootino (dirent rootino (strcpy_name [46; 46]));;
    add_files rootino files;;
    din ← rinode rootino;
    let off := xint (i_size din) in
    let off := u32 ((off / BSIZE + 1) * BSIZE) in
    winode rootino (set_isize (xint off) din);;
    s ← kget;
    balloc (s32 (m_freeblock s)).
Definition mkfs (files : list (list Z * list bytes)) : outcome mkst unit := main files (mkMk [] 1 0).
