(* ===== verification/MkfsSpec.v ===== *)
(** * The image that mkfs makes

    The bitmap is written last; [view] is the image with the bitmap that would
    be written now, and on it mkfs's allocation and appending are the ones the
    kernel's file operations are specified by ([allocated], [grown],
    [wrote]). *)

From S2P Require Import Prelude Params Bytes Bio Log Txn Store FsLog CString Fs FsSpec FsData FsFile FsWrite Mkfs.

#[local] Instance mk_dims : BlockStoreDims logst := log_dims 2.
Abbreviation disk_ok := (FsSpec.disk_ok sb).
Abbreviation file_ok := (FsData.file_ok sb).

Lemma sb_eq : sb = mkSb 1000 941 200 30 2 32 58.
Proof. vm_compute. reflexivity. Qed.
Lemma dstart_eq : dstart sb = 59.
Proof. vm_compute. reflexivity. Qed.

Definition bitmap (n : Z) : bytes := set_bits 0 (Z.to_nat n) zeroes.
Definition view (s : mkst) : list bytes := setblk 58 (bitmap (m_freeblock s)) (m_img s).

(** ** The bitmap *)
Lemma set_bits_S k i buf : set_bits i (S k) buf = set_bit (set_bits i k buf) (i + Z.of_nat k).
Proof.
  revert i buf. induction k as [|k IH]; intros i buf; [cbn [set_bits]; unfold set_bit; by rewrite Z.add_0_r|].
  change (set_bits i (S (S k)) buf) with (set_bits (i + 1) (S k) (set_bit buf i)). rewrite IH.
  change (set_bits i (S k) buf) with (set_bits (i + 1) k (set_bit buf i)). f_equal. lia.
Qed.
Lemma bitmap_succ n : 0 <= n -> bitmap (n + 1) = set_bit (bitmap n) n.
Proof.
  intros H. unfold bitmap. replace (Z.to_nat (n + 1)) with (S (Z.to_nat n)) by lia. rewrite set_bits_S. f_equal. lia.
Qed.
Lemma bitmap_spec n : 0 <= n <= BPB -> block_ok (bitmap n) /\ forall b, 0 <= b < BPB -> bit (bitmap n) b = (b <? n).
Proof.
  intros [H0 H]. revert H. pattern n. apply natlike_ind; [| |done].
  - intros _. split; [exact zeros_ok|]. intros b Hb. rewrite (proj2 (Z.ltb_ge _ _)) by lia.
    change (bitmap 0) with zeroes. rewrite bit_testbit by lia. unfold get8, zeroes.
    rewrite lookup_total_replicate_2; [apply Z.bits_0|]. pose proof (bit_byte_range b Hb). lia.
  - clear n H0. intros n Hn IH Hle. unfold Z.succ in *. destruct IH as [Hok Hbit]; [lia|]. rewrite bitmap_succ by done. split.
    + apply set_bit_ok; [done|lia].
    + intros b Hb. rewrite bit_set by (done || lia). rewrite Hbit by done.
      destruct (Z.ltb_spec b n), (Z.eqb_spec n b), (Z.ltb_spec b (n + 1)); try done; lia.
Qed.

(** ** Sectors and allocation *)
Record vol (s : mkst) : Prop := mkVol {
  vl_len : length (m_img s) = 1000%nat;
  vl_free : 59 <= m_freeblock s <= 1000;
  vl_disk : disk_ok (view s);
  vl_zero : forall b, m_freeblock s <= b < 1000 -> blk (view s) b = zeros
}.

Lemma length_view s : length (view s) = length (m_img s).
Proof. apply length_setblk. Qed.
Lemma view_blk s p : 0 <= p -> p <> 58 -> blk (view s) p = blk (m_img s) p.
Proof. intros H0 H. unfold view. by apply blk_set_ne. Qed.
Lemma bblock_58 b : 0 <= b < 1000 -> bblock sb b = 58 /\ b mod BPB = b.
Proof.
  intros H. unfold bblock. rewrite sb_eq. cbn [sb_bmapstart]. unfold BPB, BSIZE. split; [|apply Z.mod_small; lia].
  rewrite Z.div_small by lia. done.
Qed.
Lemma used_view s b : vol s -> 0 <= b < 1000 -> used sb (view s) b = (b <? m_freeblock s).
Proof.
  intros [Hl Hf _ _] Hb. destruct (bblock_58 b Hb) as [E1 E2]. unfold used. fold (bblock sb b). rewrite E1, E2.
  unfold view. rewrite blk_set_eq by (rewrite Hl; lia). apply bitmap_spec; unfold BPB, BSIZE; lia.
Qed.

Lemma next_block_ok s : vol s -> m_freeblock s < 1000 ->
  let s' := mkMk (m_img s) (m_freeinode s) (m_freeblock s + 1) in
  next_block s = Done s' (m_freeblock s) /\ allocated sb (view s) (m_freeblock s) (view s') /\ vol s'.
Proof.
  intros Hv Hlt s'. pose proof Hv as [Hl Hf Hd Hz].
  assert (allocated sb (view s) (m_freeblock s) (view s')) as Ha.
  { split.
    - rewrite dstart_eq, sb_eq. cbn. lia.
    - rewrite used_view by (done || lia). apply Z.ltb_irrefl.
    - destruct (bblock_58 (m_freeblock s) ltac:(lia)) as [-> ->].
      assert (blk (view s) 58 = bitmap (m_freeblock s)) as -> by (apply blk_set_eq; rewrite Hl; lia).
      rewrite <- bitmap_succ by lia. unfold view, s', setblk. cbn [m_img m_freeblock]. rewrite list_insert_insert_eq.
      symmetry. apply list_insert_id. rewrite list_lookup_insert_ne by lia.
      specialize (Hz (m_freeblock s) ltac:(lia)). rewrite view_blk in Hz by lia. unfold blk in Hz.
      rewrite <- Hz. apply list_lookup_lookup_total_lt. lia. }
  split; [|split; [done|]].
  - unfold next_block, s'. rewrite u32_small by lia. done.
  - split; cbn [m_img m_freeblock s']; [done|lia|by eapply allocated_ok|].
    intros b Hb. rewrite <- (Hz b) by lia. unfold s'. rewrite !view_blk by lia. done.
Qed.

Lemma rsect_ok s p : vol s -> 0 <= p < 1000 -> p <> 58 -> rsect p s = Done s (blk (view s) p).
Proof.
  intros [Hl _ _ _] Hp Hn. unfold rsect. rewrite view_blk by lia. unfold blk.
  by rewrite (list_lookup_lookup_total_lt (m_img s)) by lia.
Qed.
(** The sectors mkfs writes before the bitmap: inodes and allocated blocks *)
Definition writable (s : mkst) (p : Z) : Prop := 32 <= p < 58 \/ 59 <= p < m_freeblock s.
Lemma wsect_ok s p d : vol s -> writable s p -> block_ok d ->
  let s' := set_img (setblk p d (m_img s)) s in
  wsect p d s = Done s' tt /\ view s' = setblk p d (view s) /\ vol s'.
Proof.
  intros [Hl Hf Hd Hz] Hp Hb s'.
  assert (view s' = setblk p d (view s)) as Hv.
  { unfold view, s', setblk. cbn. apply list_insert_insert_ne. destruct Hp; lia. }
  split; [|split; [done|]].
  - unfold wsect. rewrite (proj2 (Nat.ltb_lt _ _)) by (destruct Hp; lia). done.
  - split; cbn; [by rewrite length_setblk|done| |].
    + rewrite Hv. apply disk_set; [done| |done]. unfold no_bitmap. rewrite dstart_eq, sb_eq. cbn. destruct Hp; lia.
    + intros b Hbr. rewrite Hv, blk_set_ne by (destruct Hp; lia). by apply Hz.
Qed.

(** ** A block of a file *)
Lemma xint_id x : 0 <= x < 2 ^ 32 -> xint x = x.
Proof.
  intros H. change (xint x) with (x mod 256 + 2 ^ 8 * (x / 2 ^ 8 mod 256) + 2 ^ 16 * (x / 2 ^ 16 mod 256) + 2 ^ 24 * (x / 2 ^ 24 mod 256)).
  Z.div_mod_to_equations. lia.
Qed.
Lemma block_range B x : disk_ok B -> dblk sb B x -> 59 <= x < 1000.
Proof. intros Hd [H _]. rewrite dstart_eq, sb_eq in H. exact H. Qed.
Lemma fblk_small B a bn : disk_ok B -> file_ok B a -> 0 <= bn < MAXFILE -> 0 <= fblk B a bn < 1000.
Proof. intros Hd Hf Hb. pose proof (fblk_range sb B a bn Hd Hf Hb) as H. by rewrite sb_eq in H. Qed.
Lemma ind_small B a : disk_ok B -> file_ok B a -> 0 <= ind a < 1000.
Proof. intros Hd Hf. pose proof (ind_range sb B a Hd Hf) as H. by rewrite sb_eq in H. Qed.
(** An allocated block lies below the next free one. *)
Lemma dblk_below s x : vol s -> dblk sb (view s) x -> 59 <= x < m_freeblock s.
Proof.
  intros Hv Hx. pose proof (block_range _ _ (vl_disk _ Hv) Hx) as Hr. destruct Hx as [_ Hu].
  rewrite used_view in Hu by (done || lia). apply Z.ltb_lt in Hu. lia.
Qed.

(** What get_block does for file block [fbn], with [cost] new blocks *)
Record got (s : mkst) (a : list Z) (fbn : Z) (s' : mkst) (a' : list Z) (cost : Z) : Prop := mkGot {
  gt_vol : vol s';
  gt_free : m_freeblock s' = m_freeblock s + cost;
  gt_inodes : m_freeinode s' = m_freeinode s;
  gt_grown : grown sb (view s) a (view s') a';
  gt_have : fblk (view s') a' fbn <> 0;
  gt_rest : forall m, 0 <= m < MAXFILE -> m <> fbn -> fblk (view s') a' m = fblk (view s) a m;
  gt_ind : ind a' = 0 <-> ind a = 0 /\ fbn < NDIRECT;
  gt_same : fblk (view s) a fbn <> 0 -> a' = a
}.

Lemma ensure_none s din n : 0 < i_addrs din !!! n < 2 ^ 32 -> ensure_addr din n s = Done s din.
Proof. intros H. unfold ensure_addr. rewrite xint_id, (proj2 (Z.eqb_neq _ 0)) by lia. done. Qed.
Lemma ensure_new s din n : vol s -> m_freeblock s < 1000 -> i_addrs din !!! n = 0 ->
  ensure_addr din n s = Done (mkMk (m_img s) (m_freeinode s) (m_freeblock s + 1)) (with_addrs (<[n := m_freeblock s]> (i_addrs din)) din).
Proof.
  intros Hv Hlt E. destruct (next_block_ok s Hv Hlt) as (En & _ & _). pose proof (vl_free _ Hv). unfold ensure_addr. rewrite E.
  change (xint 0 =? 0) with true. cbn iota. rewrite (bind_Done _ _ _ _ _ En). rewrite xint_id by lia. done.
Qed.

Lemma get_direct s din fbn : vol s -> file_ok (view s) (i_addrs din) -> 0 <= fbn < NDIRECT ->
  let cost := if fblk (view s) (i_addrs din) fbn =? 0 then 1 else 0 in
  m_freeblock s + cost <= 1000 ->
  exists s' a', get_block din fbn s = Done s' (with_addrs a' din, fblk (view s') a' fbn) /\ got s (i_addrs din) fbn s' a' cost.
Proof.
  intros Hv Hf Hb cost. unfold cost. clear cost. set (a := i_addrs din) in *. assert (NDIRECT = 12) as EN by done. assert (MAXFILE = 140) as EM by done.
  pose proof (vl_disk _ Hv) as Hd. pose proof (fblk_small _ _ fbn Hd Hf ltac:(lia)) as Hr.
  assert (fblk (view s) a fbn = a !!! Z.to_nat fbn) as Ea by (unfold fblk; by rewrite (proj2 (Z.ltb_lt _ _)) by lia).
  unfold get_block. rewrite (proj2 (Z.ltb_lt _ _)) by lia. destruct (Z.eqb_spec (fblk (view s) a fbn) 0) as [E0|E0]; intros Hc.
  - destruct (next_block_ok s Hv ltac:(lia)) as (_ & Ha & Hv'). pose proof (vl_free _ Hv).
    set (s' := mkMk (m_img s) (m_freeinode s) (m_freeblock s + 1)) in *. exists s', (<[Z.to_nat fbn := m_freeblock s]> a).
    destruct (grown_direct sb _ _ _ a fbn Hd Hf Ha Hb E0) as [G Eg]. pose proof (fblk_direct sb _ _ _ a fbn Hd Hf Ha Hb) as Hmap. split.
    + rewrite (bind_Done _ _ _ _ _ (ensure_new s din (Z.to_nat fbn) Hv ltac:(lia) (eq_trans (eq_sym Ea) E0))).
      rewrite Eg. cbn [with_addrs i_addrs]. fold a. rewrite list_lookup_total_insert_eq by (rewrite (fo_len _ _ _ Hf); lia).
      rewrite xint_id by lia. done.
    + split; try done; [rewrite Eg; lia| |].
      * intros m Hm Hne. rewrite Hmap by done. by rewrite (proj2 (Z.eqb_neq _ _)) by done.
      * rewrite ind_insert by lia. split; [intros; split; [done|lia]|by intros [? _]].
  - exists s, a. rewrite (bind_Done _ _ _ _ _ (ensure_none s din (Z.to_nat fbn) ltac:(fold a; lia))). split.
    + fold a. unfold mret, kernel_ret. rewrite Ea, xint_id by lia. unfold a. by rewrite with_addrs_id.
    + split; try done; [lia|]. split; [intros; split; [done|lia]|by intros [? _]].
Qed.

(** The address of the indirect block, and then the entry in it *)
Lemma get_ind s din fbn : vol s -> file_ok (view s) (i_addrs din) -> NDIRECT <= fbn < MAXFILE ->
  let cost := if ind (i_addrs din) =? 0 then 1 else 0 in m_freeblock s + cost <= 1000 ->
  exists s' a', ensure_addr din 12 s = Done s' (with_addrs a' din) /\ vol s' /\ m_freeblock s' = m_freeblock s + cost /\
    m_freeinode s' = m_freeinode s /\ grown sb (view s) (i_addrs din) (view s') a' /\ ind a' <> 0 /\
    (forall m, 0 <= m < MAXFILE -> fblk (view s') a' m = fblk (view s) (i_addrs din) m) /\ (ind (i_addrs din) <> 0 -> a' = i_addrs din).
Proof.
  intros Hv Hf Hb cost. unfold cost. clear cost. set (a := i_addrs din) in *. assert (NDIRECT = 12) as EN by done.
  pose proof (vl_disk _ Hv) as Hd. pose proof (ind_small _ _ Hd Hf) as Hr. destruct (Z.eqb_spec (ind a) 0) as [E0|E0]; intros Hc.
  - destruct (next_block_ok s Hv ltac:(lia)) as (_ & Ha & Hv'). pose proof (vl_free _ Hv).
    exists (mkMk (m_img s) (m_freeinode s) (m_freeblock s + 1)), (<[12%nat := m_freeblock s]> a).
    destruct (grown_ind sb _ _ _ a Hd Hf Ha E0) as [G Ei]. split; [exact (ensure_new s din 12 Hv ltac:(lia) E0)|].
    split; [done|]. split; [done|]. split; [done|]. split; [done|]. split; [rewrite Ei; lia|]. split; [|done].
    exact (fblk_ind sb _ _ _ a Hd Hf Ha E0).
  - exists s, a. split; [rewrite (ensure_none s din 12) by (fold a; fold (ind a); lia); unfold a; by rewrite with_addrs_id|].
    split; [done|]. split; [lia|]. split; [done|]. split; [by apply grown_refl|done].
Qed.

Lemma get_entry s a fbn : vol s -> file_ok (view s) a -> NDIRECT <= fbn < MAXFILE -> ind a <> 0 -> fblk (view s) a fbn = 0 ->
  m_freeblock s < 1000 ->
  let s1 := mkMk (m_img s) (m_freeinode s) (m_freeblock s + 1) in
  let d := put32 (4 * Z.to_nat (fbn - NDIRECT)) (m_freeblock s) (blk (view s) (ind a)) in
  exists s', wsect (ind a) d s1 = Done s' tt /\ got s a fbn s' a 1 /\ fblk (view s') a fbn = m_freeblock s.
Proof.
  intros Hv Hf Hb Hi E0 Hlt s1 d. assert (NDIRECT = 12) as EN by done. assert (MAXFILE = 140) as EM by done.
  pose proof (vl_disk _ Hv) as Hd. pose proof (vl_free _ Hv) as Hfr.
  destruct (next_block_ok s Hv Hlt) as (_ & Ha & Hv1). fold s1 in Ha, Hv1.
  assert (dblk sb (view s) (ind a)) as Hdi by (by destruct (fo_ind _ _ _ Hf)). pose proof (dblk_below _ _ Hv Hdi) as Hbi.
  assert (block_ok (blk (view s) (ind a))) as [Hbl Hbb] by (apply blocks_ok_blk; [apply Hd|rewrite length_view, (vl_len _ Hv); lia]).
  destruct (wsect_ok s1 (ind a) d Hv1) as (Ew & Evw & Hv2).
  { right. cbn. lia. }
  { split; [unfold d; rewrite length_put32; [done|rewrite Hbl; change (Z.to_nat BSIZE) with 512%nat; lia]|].
    apply splice_ok; [apply le32_ok|done]. }
  eexists. split; [exact Ew|]. destruct (grown_entry sb _ _ _ a fbn Hd Hf Ha Hb Hi E0) as [G Eg]. fold d in G, Eg. rewrite <- Evw in G, Eg.
  split; [|done]. split; try done.
  - rewrite Eg. lia.
  - intros m Hm Hne. rewrite Evw. etrans; [exact (fblk_entry sb _ _ _ a fbn Hd Hf Ha Hb Hi m Hm)|]. by rewrite (proj2 (Z.eqb_neq _ _)).
  - split; [done|by intros [? _]].
Qed.

Lemma fblk_indirect B a fbn : NDIRECT <= fbn -> ind a <> 0 -> fblk B a fbn = get32 (blk B (ind a)) (4 * Z.to_nat (fbn - NDIRECT)).
Proof. intros Hb Hi. unfold fblk. by rewrite (proj2 (Z.ltb_ge _ _)), (proj2 (Z.eqb_neq _ _)). Qed.
Lemma got_after_ind s a s1 a1 fbn s' a' c1 c2 : NDIRECT <= fbn < MAXFILE -> grown sb (view s) a (view s1) a1 ->
  (forall m, 0 <= m < MAXFILE -> fblk (view s1) a1 m = fblk (view s) a m) -> (ind a <> 0 -> a1 = a) -> ind a1 <> 0 ->
  (fblk (view s) a fbn <> 0 -> ind a <> 0) ->
  m_freeblock s1 = m_freeblock s + c1 -> m_freeinode s1 = m_freeinode s -> got s1 a1 fbn s' a' c2 -> got s a fbn s' a' (c1 + c2).
Proof.
  intros Hb G Hmap Hsame Hi Hfi Hfr Hfn Hg. assert (NDIRECT = 12) as EN by done. split.
  - apply Hg.
  - rewrite (gt_free _ _ _ _ _ _ Hg). lia.
  - by rewrite (gt_inodes _ _ _ _ _ _ Hg).
  - eapply grown_trans; [exact G|apply Hg].
  - apply Hg.
  - intros m Hm Hne. rewrite (gt_rest _ _ _ _ _ _ Hg) by done. by apply Hmap.
  - rewrite (gt_ind _ _ _ _ _ _ Hg). split; [by intros [? _]|intros [_ ?]; lia].
  - intros Hn. rewrite (gt_same _ _ _ _ _ _ Hg); [by apply Hsame, Hfi|]. by rewrite Hmap by lia.
Qed.

Definition cost (B : list bytes) (a : list Z) (fbn : Z) : Z :=
  (if (NDIRECT <=? fbn) && (ind a =? 0) then 1 else 0) + (if fblk B a fbn =? 0 then 1 else 0).
Lemma get_block_ok s din fbn : vol s -> file_ok (view s) (i_addrs din) -> 0 <= fbn < MAXFILE ->
  m_freeblock s + cost (view s) (i_addrs din) fbn <= 1000 ->
  exists s' a', get_block din fbn s = Done s' (with_addrs a' din, fblk (view s') a' fbn) /\
    got s (i_addrs din) fbn s' a' (cost (view s) (i_addrs din) fbn).
Proof.
  intros Hv Hf Hb. unfold cost. destruct (Z.leb_spec NDIRECT fbn) as [Hge|Hlt]; [|apply (get_direct s din fbn Hv Hf ltac:(lia))].
  cbn [andb]. set (c2 := if fblk (view s) (i_addrs din) fbn =? 0 then 1 else 0). intros Hc. assert (0 <= c2 <= 1) as Hc2 by (unfold c2; destruct (_ =? _); lia).
  destruct (get_ind s din fbn Hv Hf ltac:(lia) ltac:(lia)) as (s1 & a1 & E1 & Hv1 & Hf1 & Hn1 & G1 & Hi1 & Hmap & Hsame).
  assert (fblk (view s) (i_addrs din) fbn <> 0 -> ind (i_addrs din) <> 0) as Hfi.
  { intros Hn Hi. apply Hn. unfold fblk. by rewrite (proj2 (Z.ltb_ge _ _)), Hi by lia. }
  unfold get_block. rewrite (proj2 (Z.ltb_ge _ _)) by lia. rewrite (bind_Done _ _ _ _ _ E1). cbn [with_addrs i_addrs].
  change (a1 !!! Z.to_nat NDIRECT) with (ind a1).
  pose proof (gr_file _ _ _ _ _ G1) as Hfo1. pose proof (vl_disk _ Hv1) as Hd1.
  assert (dblk sb (view s1) (ind a1)) as Hdi by (by destruct (fo_ind _ _ _ Hfo1)). pose proof (dblk_below _ _ Hv1 Hdi) as Hbi. pose proof (vl_free _ Hv1).
  rewrite xint_id by lia. rewrite (bind_Done _ _ _ _ _ (rsect_ok s1 (ind a1) Hv1 ltac:(lia) ltac:(lia))). cbv zeta.
  rewrite <- (fblk_indirect _ _ fbn Hge Hi1). pose proof (fblk_small _ _ fbn Hd1 Hfo1 Hb) as Hr.
  destruct (Z.eqb_spec (fblk (view s1) a1 fbn) 0) as [E0|E0].
  - assert (c2 = 1) as Ec2 by (unfold c2; by rewrite <- Hmap, E0 by done).
    destruct (next_block_ok s1 Hv1 ltac:(lia)) as (En & _ & _). rewrite (bind_Done _ _ _ _ _ En).
    destruct (get_entry s1 a1 fbn Hv1 Hfo1 ltac:(lia) Hi1 E0 ltac:(lia)) as (s' & Ew & Hg & Ef).
    rewrite (xint_id (m_freeblock s1)) by lia. rewrite (bind_Done _ _ _ _ _ Ew). exists s', a1. split.
    + rewrite get32_put32, u32_small, xint_id, Ef by
        (lia || (assert (block_ok (blk (view s1) (ind a1))) as [-> _] by (apply blocks_ok_blk; [apply Hd1|rewrite length_view, (vl_len _ Hv1); lia]);
         change (Z.to_nat BSIZE) with 512%nat; change NDIRECT with 12 in *; change MAXFILE with 140 in *; lia)). done.
    + rewrite Ec2. by apply (got_after_ind s (i_addrs din) s1 a1); try done; lia.
  - assert (c2 = 0) as Ec2 by (unfold c2; rewrite <- Hmap by done; by rewrite (proj2 (Z.eqb_neq _ _))).
    exists s1, a1. rewrite xint_id by lia. split; [done|]. rewrite Ec2.
    apply (got_after_ind s (i_addrs din) s1 a1); try done; [lia|]. split; try done; [lia|]. split; [done|by intros [? _]].
Qed.

(** ** Appending *)
(** A file of [n] bytes has the blocks it needs and no others. *)
Record sized (B : list bytes) (a : list Z) (n : Z) : Prop := mkSized {
  sz_blocks : forall bn, 0 <= bn < MAXFILE -> fblk B a bn = 0 <-> n <= bn * BSIZE;
  sz_ind : ind a = 0 <-> n <= NDIRECT * BSIZE
}.
Definition need (n : Z) : Z := (n + BSIZE - 1) / BSIZE + (if NDIRECT * BSIZE <? n then 1 else 0).

Lemma cost_need B a off n1 : sized B a off -> 0 <= off -> off / BSIZE < MAXFILE -> 0 < n1 <= (off / BSIZE + 1) * BSIZE - off ->
  cost B a (off / BSIZE) = need (off + n1) - need off.
Proof.
  intros [Hb Hi] H0 Hm Hn. unfold cost, need. assert (0 <= off / BSIZE) as Hq by (apply Z.div_pos; [lia|done]).
  specialize (Hb (off / BSIZE) ltac:(lia)). change NDIRECT with 12 in *. rewrite BSIZE_512 in *.
  destruct (Z.eqb_spec (fblk B a (off / 512)) 0), (Z.eqb_spec (ind a) 0), (Z.leb_spec 12 (off / 512));
    destruct (Z.ltb_spec (12 * 512) (off + n1)), (Z.ltb_spec (12 * 512) off); cbn [andb]; Z.div_mod_to_equations; lia.
Qed.
Lemma need_mono n m : 0 <= n <= m -> need n <= need m.
Proof.
  intros H. unfold need. rewrite BSIZE_512. change NDIRECT with 12.
  destruct (Z.ltb_spec (12 * 512) n), (Z.ltb_spec (12 * 512) m); Z.div_mod_to_equations; lia.
Qed.

Record appended (s : mkst) (a : list Z) (s' : mkst) (a' : list Z) (off : Z) (c : bytes) : Prop := mkApp {
  ap_vol : vol s';
  ap_free : m_freeblock s' = m_freeblock s + need (off + Z.of_nat (length c)) - need off;
  ap_inodes : m_freeinode s' = m_freeinode s;
  ap_wrote : wrote sb (view s) a (view s') a' off c;
  ap_sized : sized (view s') a' (off + Z.of_nat (length c))
}.

Lemma put_chunk s a s1 a1 off c : vol s -> sized (view s) a off -> 0 <= off -> off / BSIZE < MAXFILE ->
  (0 < length c)%nat -> Z.of_nat (length c) <= (off / BSIZE + 1) * BSIZE - off -> Forall byte_ok c ->
  got s a (off / BSIZE) s1 a1 (cost (view s) a (off / BSIZE)) ->
  let x := fblk (view s1) a1 (off / BSIZE) in
  exists s', rsect x s1 = Done s1 (blk (view s1) x) /\
    wsect x (splice (Z.to_nat (off mod BSIZE)) c (blk (view s1) x)) s1 = Done s' tt /\ appended s a s' a1 off c.
Proof.
  intros Hv Hsz H0 Hm Hc0 Hc Hcb Hg x. pose proof (gt_vol _ _ _ _ _ _ Hg) as Hv1. pose proof (gt_grown _ _ _ _ _ _ Hg) as G.
  pose proof (gr_file _ _ _ _ _ G) as Hf1. assert (0 <= off / BSIZE < MAXFILE) as Hq by (split; [apply Z.div_pos; [lia|done]|done]).
  assert (x <> 0) as Hx by apply Hg.
  assert (dblk sb (view s1) x) as Hdx by (by destruct (fo_map _ _ _ Hf1 _ Hq)). pose proof (dblk_below _ _ Hv1 Hdx) as Hbx. pose proof (vl_free _ Hv1).
  assert (off mod BSIZE = off - off / BSIZE * BSIZE) as Emod by (rewrite Z.mod_eq by done; lia).
  pose proof (Z.mod_pos_bound off BSIZE ltac:(done)) as Hmod.
  assert (block_ok (blk (view s1) x)) as [Hbl Hbb] by (apply blocks_ok_blk; [apply (vl_disk _ Hv1)|rewrite length_view, (vl_len _ Hv1); lia]).
  set (d := splice (Z.to_nat (off mod BSIZE)) c (blk (view s1) x)).
  assert (block_ok d) as Hd.
  { split; [|by apply splice_ok]. unfold d. rewrite length_splice; [done|]. rewrite Hbl. lia. }
  destruct (wsect_ok s1 x d Hv1 ltac:(right; lia) Hd) as (Ew & Evw & Hv2). eexists. split; [apply rsect_ok; [done|lia|lia]|]. split; [exact Ew|].
  destruct (set_file_block sb (view s1) a1 (off / BSIZE) d (vl_disk _ Hv1) Hf1 Hq Hx Hd) as (_ & _ & K3 & _ & _). fold x in K3.
  split; [done|..].
  - cbn. rewrite (gt_free _ _ _ _ _ _ Hg). rewrite (cost_need _ _ _ (Z.of_nat (length c)) Hsz H0 Hm) by lia. lia.
  - exact (gt_inodes _ _ _ _ _ _ Hg).
  - rewrite Evw. apply (wrote_chunk sb (view s) a (view s1) a1 off c (vl_disk _ Hv) G (gt_same _ _ _ _ _ _ Hg) H0 Hm Hx Hc0); [lia|done].
  - rewrite Evw. split.
    + intros m Hmr. rewrite K3 by done. destruct (decide (m = off / BSIZE)) as [->|Hne].
      * split; [done|]. lia.
      * rewrite (gt_rest _ _ _ _ _ _ Hg) by done. rewrite (sz_blocks _ _ _ Hsz) by done. rewrite BSIZE_512 in *. lia.
    + rewrite (gt_ind _ _ _ _ _ _ Hg), (sz_ind _ _ _ Hsz). change NDIRECT with 12. rewrite BSIZE_512 in *. lia.
Qed.

Lemma appended_nil s a off : vol s -> file_ok (view s) a -> sized (view s) a off -> appended s a s a off [].
Proof.
  intros Hv Hf Hs. split; [done|cbn; rewrite Z.add_0_r; lia|done|apply wrote_nil; [apply Hv|done]|cbn; by rewrite Z.add_0_r].
Qed.
Lemma appended_trans s a s1 a1 s2 a2 off c1 c2 : vol s -> 0 <= off ->
  off + Z.of_nat (length c1) + Z.of_nat (length c2) <= MAXFILE * BSIZE ->
  appended s a s1 a1 off c1 -> appended s1 a1 s2 a2 (off + Z.of_nat (length c1)) c2 -> appended s a s2 a2 off (c1 ++ c2).
Proof.
  intros Hv H0 Hm A1 A2. assert (off + Z.of_nat (length (c1 ++ c2)) = off + Z.of_nat (length c1) + Z.of_nat (length c2)) as E by (rewrite length_app; lia).
  split.
  - apply A2.
  - rewrite E, (ap_free _ _ _ _ _ _ A2), (ap_free _ _ _ _ _ _ A1). lia.
  - by rewrite (ap_inodes _ _ _ _ _ _ A2), (ap_inodes _ _ _ _ _ _ A1).
  - eapply wrote_trans; [apply Hv|done|done|apply A1|apply A2].
  - rewrite E. apply A2.
Qed.

Lemma iappend_loop_ok k p : forall din off s, vol s -> file_ok (view s) (i_addrs din) -> sized (view s) (i_addrs din) off ->
  0 <= off -> off + Z.of_nat (length p) <= MAXFILE * BSIZE -> Forall byte_ok p -> (length p <= k)%nat ->
  m_freeblock s + need (off + Z.of_nat (length p)) - need off <= 1000 ->
  exists s' a', iappend_loop k din p off s = Done s' (with_addrs a' din, off + Z.of_nat (length p)) /\
    appended s (i_addrs din) s' a' off p.
Proof.
  revert p. induction k as [|k IH]; intros p din off s Hv Hf Hs H0 Hm Hp Hk Hfree.
  - destruct p; [|cbn in Hk; lia]. exists s, (i_addrs din). rewrite with_addrs_id. cbn. rewrite Z.add_0_r. split; [done|by apply appended_nil].
  - destruct p as [|b p'].
    { exists s, (i_addrs din). rewrite with_addrs_id. cbn. rewrite Z.add_0_r. split; [done|by apply appended_nil]. }
    set (p := b :: p') in *. assert (0 < length p)%nat as Hp0 by (cbn; lia). assert (MAXFILE * BSIZE = 71680) as EM by done.
    assert (off / BSIZE < MAXFILE) as Hq by (apply Z.div_lt_upper_bound; [done|lia]).
    assert (0 <= off / BSIZE) as Hq0 by (apply Z.div_pos; [lia|done]).
    assert (off mod BSIZE = off - off / BSIZE * BSIZE) as Emod by (rewrite Z.mod_eq by done; lia).
    pose proof (Z.mod_pos_bound off BSIZE ltac:(done)) as Hmod.
    set (n1 := Z.min (Z.of_nat (length p)) ((off / BSIZE + 1) * BSIZE - off)).
    assert (0 < n1 <= (off / BSIZE + 1) * BSIZE - off) as Hn1 by lia.
    set (c := take (Z.to_nat n1) p). set (rest := drop (Z.to_nat n1) p).
    assert (Z.of_nat (length c) = n1) as Hlc by (unfold c; rewrite length_take; lia).
    assert (Z.of_nat (length rest) = Z.of_nat (length p) - n1) as Hlr by (unfold rest; rewrite length_drop; lia).
    pose proof (need_mono (off + n1) (off + Z.of_nat (length p)) ltac:(lia)) as Hmono.
    pose proof (cost_need _ _ _ n1 Hs H0 Hq Hn1) as Hcost.
    destruct (get_block_ok s din (off / BSIZE) Hv Hf ltac:(lia) ltac:(lia)) as (s1 & a1 & E1 & Hg).
    destruct (put_chunk s (i_addrs din) s1 a1 off c Hv Hs H0 Hq ltac:(lia) ltac:(lia) ltac:(by apply Forall_take) Hg) as (s2 & Er & Ew & A1).
    destruct (IH rest (with_addrs a1 din) (off + n1) s2) as (s3 & a3 & E3 & A3); cbn [with_addrs i_addrs].
    + apply A1.
    + apply (wr_file _ _ _ _ _ _ _ (ap_wrote _ _ _ _ _ _ A1)).
    + rewrite <- Hlc. apply A1.
    + lia.
    + lia.
    + by apply Forall_drop.
    + lia.
    + rewrite (ap_free _ _ _ _ _ _ A1), Hlc. replace (off + n1 + Z.of_nat (length rest)) with (off + Z.of_nat (length p)) by lia. lia.
    + exists s3, a3. split.
      * unfold p at 1. cbn [iappend_loop]. fold p. rewrite (proj2 (Z.ltb_lt _ _) Hq). cbn [negb]. rewrite (bind_Done _ _ _ _ _ E1).
        cbv beta iota zeta. fold n1. fold c. rewrite (bind_Done _ _ _ _ _ Er). rewrite <- Emod. rewrite (bind_Done _ _ _ _ _ Ew). fold rest.
        rewrite (u32_small (off + n1)) by lia. rewrite E3. f_equal. f_equal. lia.
      * rewrite <- (take_drop (Z.to_nat n1) p). fold c rest. eapply appended_trans; [done|done|lia|exact A1|]. rewrite Hlc. exact A3.
Qed.
