(* ===== verification/MkfsImage.v ===== *)
(** * The files of the image

    The image holds, after every call of main, the files appended so far, each
    with its bytes, its inode and blocks of its own; at the end it is a disk
    that the kernel boots from. *)

From S2P Require Import Prelude Params Bytes Bio Log Txn Store FsLog CString Fs FsSpec FsData FsFile FsWrite Mkfs MkfsSpec.

#[local] Existing Instance mk_dims.
Abbreviation disk_ok := (FsSpec.disk_ok sb).
Abbreviation file_ok := (FsData.file_ok sb).

(** A file: its inode's type and block addresses, its bytes *)
Record mfile : Type := mkF { mf_type : Z; mf_addrs : list Z; mf_data : bytes }.
Definition len (f : mfile) : Z := Z.of_nat (length (mf_data f)).
Definition inode_of (inum : Z) (f : mfile) : inode := mkInode 1 inum 0 0 (mf_type f) 0 0 1 (len f) (mf_addrs f).

Record file_at (B : list bytes) (inum : Z) (f : mfile) : Prop := mkAt {
  fa_inode : file_inode sb B (inode_of inum f);
  fa_bytes : forall p, 0 <= p < MAXFILE * BSIZE -> fbyte B (mf_addrs f) p = default 0 (mf_data f !! Z.to_nat p);
  fa_sized : sized B (mf_addrs f) (len f)
}.

Definition inum_of (k : nat) : Z := Z.of_nat k + 1.
Definition needs (F : list mfile) : Z := foldr (fun f n => need (len f) + n) 0 F.

Record image_inv (s : mkst) (F : list mfile) : Prop := mkInv {
  mi_vol : vol s;
  mi_free : m_freeblock s = 59 + needs F;
  mi_next : m_freeinode s = Z.of_nat (length F) + 1;
  mi_log : forall p, 2 <= p < 32 -> blk (view s) p = zeros;
  mi_files : forall k f, F !! k = Some f -> file_at (view s) (inum_of k) f;
  mi_apart : forall j k f g, F !! j = Some f -> F !! k = Some g -> j <> k -> apart (view s) (mf_addrs f) (mf_addrs g)
}.

(** ** Reading and writing inodes *)
Lemma inum_range k (F : list mfile) : (k < length F)%nat -> (length F < 200)%nat -> inum_ok sb (inum_of k).
Proof. intros H1 H2. unfold inum_ok, inum_of. rewrite sb_eq. cbn. lia. Qed.
Lemma iblock_mk inum : inum_ok sb inum -> IBLOCK inum sb = iblock sb inum /\ 32 <= iblock sb inum < 58.
Proof.
  unfold inum_ok, iblock, IBLOCK. rewrite sb_eq. cbn [sb_ninodes sb_inodestart]. rewrite IPB_8. intros H.
  assert (0 <= inum / 8 < 25) by (split; [apply Z.div_pos; lia|apply Z.div_lt_upper_bound; lia]). rewrite u32_small; lia.
Qed.
Lemma rinode_ok s inum : vol s -> inum_ok sb inum ->
  rinode inum s = Done s (dinode_at sb (view s) inum (mkInode 1 inum 0 0 0 0 0 0 0 [])).
Proof.
  intros Hv Hi. destruct (iblock_mk inum Hi) as [E Hr]. unfold rinode. rewrite E.
  by rewrite (bind_Done _ _ _ _ _ (rsect_ok s (iblock sb inum) Hv ltac:(lia) ltac:(lia))).
Qed.
Lemma winode_ok s i : vol s -> inum_ok sb (i_inum i) -> length (i_addrs i) = 13%nat ->
  exists s', winode (i_inum i) i s = Done s' tt /\ view s' = iupdated sb (view s) i /\ vol s' /\
    m_freeblock s' = m_freeblock s /\ m_freeinode s' = m_freeinode s.
Proof.
  intros Hv Hi Hl. destruct (iblock_mk _ Hi) as [E Hr]. unfold winode. rewrite E.
  rewrite (bind_Done _ _ _ _ _ (rsect_ok s (iblock sb (i_inum i)) Hv ltac:(lia) ltac:(lia))).
  edestruct (wsect_ok s (iblock sb (i_inum i))) as (Ew & Evw & Hv'); [done|by left| |eexists; split; [exact Ew|done]].
  apply write_dinode_ok; [apply dinode_off_le|done|]. apply (iblock_block_ok sb _ _ (vl_disk _ Hv) Hi).
Qed.

(** A file at [inum] survives what leaves its blocks and its inode alone. *)
Lemma file_at_frame B B' inum f : disk_ok B -> file_at B inum f ->
  (forall p, owns B (mf_addrs f) p -> blk B' p = blk B p /\ dblk sb B' p) ->
  (forall j, dinode_at sb B' inum j = dinode_at sb B inum j) ->
  file_at B' inum f /\ (forall p, owns B' (mf_addrs f) p <-> owns B (mf_addrs f) p).
Proof.
  intros Hd [Hi Hb Hs] Hp Hj. destruct (file_frame sb B B' (mf_addrs f) Hd (fi_file _ _ _ Hi) Hp) as [Hf' [Hfb Hby]].
  split; [split|].
  - destruct Hi as [F1 F2 F3 F4 F5 F6 F7 F8]. split; try done.
    + intros bn Hbn Hsz. rewrite Hfb; [by apply F6|]. split; [done|]. change (MAXFILE * BSIZE) with (140 * 512) in F7.
      rewrite BSIZE_512 in Hsz. change MAXFILE with 140. lia.
    + unfold synced. by rewrite Hj.
  - intros p Hpr. rewrite Hby by done. by apply Hb.
  - split; [|apply Hs]. intros bn Hbn. rewrite Hfb by done. by apply Hs.
  - intros p. unfold owns. split; intros [H0 [H|(bn & Hbn & H)]]; (split; [done|]); [by left| |by left|];
      right; exists bn; (split; [done|]); [by rewrite <- Hfb|by rewrite Hfb].
Qed.

(** Blocks a file gained were nobody's. *)
Lemma apart_wrote B a B' a' off c b : disk_ok B -> file_ok B a -> file_ok B b -> wrote sb B a B' a' off c -> apart B a b ->
  forall p, owns B' a' p -> owns B b p -> False.
Proof.
  intros Hd Hfa Hfb W Hap p [Hp Ho] Hb. assert (dblk sb B p) as [_ Hu] by (by eapply owns_dblk). destruct Ho as [->|(bn & Hbn & <-)].
  - destruct (decide (ind a' = ind a)) as [E|E].
    + apply (Hap (ind a')); [split; [done|by left]|done].
    + rewrite (wr_newi _ _ _ _ _ _ _ W E) in Hu. done.
  - destruct (decide (fblk B' a' bn = fblk B a bn)) as [E|E].
    + apply (Hap (fblk B' a' bn)); [split; [done|right; by exists bn]|done].
    + rewrite (wr_new _ _ _ _ _ _ _ W bn Hbn E) in Hu. done.
Qed.

(** ** iappend adds to one file *)
Lemma len_app t a d p : len (mkF t a (d ++ p)) = Z.of_nat (length d) + Z.of_nat (length p).
Proof. unfold len. cbn. rewrite length_app. lia. Qed.
Lemma inode_written inum f a1 p : inode_of inum (mkF (mf_type f) a1 (mf_data f ++ p)) =
  written (len f) (Z.of_nat (length p)) a1 (inode_of inum f).
Proof.
  unfold inode_of, written, set_isize, with_addrs. cbn [i_dev i_inum i_ref i_flags i_type i_major i_minor i_nlink i_size mf_type mf_addrs].
  f_equal. rewrite len_app. unfold len. lia.
Qed.

Section iappend.
Context (s : mkst) (F : list mfile) (k : nat) (f : mfile) (p : bytes) (s1 s2 : mkst) (a1 : list Z).
Abbreviation off := (len f).
Abbreviation f' := (mkF (mf_type f) a1 (mf_data f ++ p)).
Context (Hinv : image_inv s F) (Hk : F !! k = Some f) (HF : (length F < 200)%nat) (Hmax : off + Z.of_nat (length p) <= MAXFILE * BSIZE)
  (HA : appended s (mf_addrs f) s1 a1 off p) (Hv2 : view s2 = iupdated sb (view s1) (inode_of (inum_of k) f')).

Lemma k_lt : (k < length F)%nat.
Proof using Hk. by eapply lookup_lt_Some. Qed.
Lemma iappend_result : write_result sb (view s) (inode_of (inum_of k) f) off p (view s2) (inode_of (inum_of k) f').
Proof using Hinv Hk HF Hmax HA Hv2.
  rewrite Hv2, inode_written. pose proof (mi_files _ _ Hinv k f Hk) as [Hi _ _].
  apply write_grown; [apply (vl_disk _ (mi_vol _ _ Hinv))|done|apply HA|cbn; unfold len; lia|done].
Qed.
Lemma iappend_log q : 2 <= q < 32 -> blk (view s2) q = zeros.
Proof using Hinv Hk HF HA Hv2.
  intros Hq. destruct (iblock_mk (inum_of k) (inum_range k F k_lt HF)) as [_ Hr].
  rewrite Hv2. unfold iupdated. cbn [inode_of i_inum]. rewrite blk_set_ne by lia.
  rewrite (wr_meta _ _ _ _ _ _ _ (ap_wrote _ _ _ _ _ _ HA)) by (rewrite sb_eq; cbn; lia). by apply (mi_log _ _ Hinv).
Qed.
Lemma iappend_this : file_at (view s2) (inum_of k) f'.
Proof using Hinv Hk HF Hmax HA Hv2.
  pose proof (ap_vol _ _ _ _ _ _ HA) as Hv1. pose proof (ap_wrote _ _ _ _ _ _ HA) as W.
  assert (inum_ok sb (i_inum (inode_of (inum_of k) f'))) as Hin by (apply (inum_range k F k_lt HF)).
  destruct (iupdated_file sb (view s1) _ (vl_disk _ Hv1) Hin a1 (wr_file _ _ _ _ _ _ _ W)) as [_ [Hfb Hby]]. rewrite <- Hv2 in Hfb, Hby.
  split; cbn [mf_addrs mf_data].
  - apply iappend_result.
  - intros q Hq. rewrite Hby, (wr_bytes _ _ _ _ _ _ _ W) by done.
    pose proof (fa_bytes _ _ _ (mi_files _ _ Hinv k f Hk) q Hq) as Hold. unfold len.
    destruct (Z.leb_spec (Z.of_nat (length (mf_data f))) q), (Z.ltb_spec q (Z.of_nat (length (mf_data f)) + Z.of_nat (length p))); cbn [andb].
    + rewrite lookup_app_r by lia. rewrite list_lookup_total_alt. replace (Z.to_nat q - length (mf_data f))%nat with (Z.to_nat (q - Z.of_nat (length (mf_data f)))) by lia.
      destruct (p !! Z.to_nat (q - Z.of_nat (length (mf_data f)))) eqn:E; [done|]. apply lookup_ge_None in E. lia.
    + rewrite Hold, lookup_app_r by lia. rewrite !lookup_ge_None_2 by lia. done.
    + rewrite Hold, lookup_app_l by lia. done.
    + lia.
  - rewrite len_app. fold (len f). destruct (ap_sized _ _ _ _ _ _ HA) as [Z1 Z2]. split; [|done]. intros bn Hb. rewrite Hfb by done. by apply Z1.
Qed.
Lemma iappend_other j g : F !! j = Some g -> j <> k ->
  file_at (view s2) (inum_of j) g /\ (forall q, owns (view s2) (mf_addrs g) q <-> owns (view s) (mf_addrs g) q).
Proof using Hinv Hk HF Hmax HA Hv2.
  intros Hj Hne. pose proof (vl_disk _ (mi_vol _ _ Hinv)) as Hd. pose proof (mi_files _ _ Hinv j g Hj) as Hg. pose proof (mi_files _ _ Hinv k f Hk) as Hf.
  pose proof (ap_vol _ _ _ _ _ _ HA) as Hv1. assert (j < length F)%nat as Hjl by (by eapply lookup_lt_Some).
  assert (inum_ok sb (i_inum (inode_of (inum_of k) f'))) as Hin by (apply (inum_range k F k_lt HF)).
  apply file_at_frame; [done|done| |].
  - intros q Hq. destruct (wrote_apart sb _ _ _ _ _ _ (mf_addrs g) Hd (fi_file _ _ _ (fa_inode _ _ _ Hf)) (ap_wrote _ _ _ _ _ _ HA)
      (fi_file _ _ _ (fa_inode _ _ _ Hg)) (mi_apart _ _ Hinv k j f g Hk Hj ltac:(done)) q Hq) as [<- Hdq].
    rewrite Hv2. split; [by apply (iupdated_blk sb _ _ (vl_disk _ Hv1) Hin)|by apply (iupdated_dblk sb _ _ (vl_disk _ Hv1) Hin)].
  - intros i. apply (ws_dinode _ _ _ _ _ _ _ iappend_result); [by apply (inum_range j F)|]. cbn. unfold inum_of. lia.
Qed.
Lemma iappend_apart j g : F !! j = Some g -> j <> k -> apart (view s2) a1 (mf_addrs g).
Proof using Hinv Hk HF Hmax HA Hv2.
  intros Hj Hne q H1 H2. apply (iappend_other j g Hj Hne) in H2.
  pose proof (vl_disk _ (mi_vol _ _ Hinv)) as Hd. pose proof (mi_files _ _ Hinv j g Hj) as Hg. pose proof (mi_files _ _ Hinv k f Hk) as Hf.
  pose proof (ap_wrote _ _ _ _ _ _ HA) as W. pose proof (ap_vol _ _ _ _ _ _ HA) as Hv1.
  assert (inum_ok sb (i_inum (inode_of (inum_of k) f'))) as Hin by (apply (inum_range k F k_lt HF)).
  destruct (iupdated_file sb (view s1) _ (vl_disk _ Hv1) Hin a1 (wr_file _ _ _ _ _ _ _ W)) as [_ [Hfb _]]. rewrite <- Hv2 in Hfb.
  apply (apart_wrote (view s) (mf_addrs f) (view s1) a1 off p (mf_addrs g) Hd (fi_file _ _ _ (fa_inode _ _ _ Hf)) (fi_file _ _ _ (fa_inode _ _ _ Hg)) W
    (mi_apart _ _ Hinv k j f g Hk Hj ltac:(done)) q); [|done].
  destruct H1 as [H0 [H1|(bn & Hb & H1)]]; (split; [done|]); [by left|]. right. exists bn. split; [done|]. by rewrite <- Hfb.
Qed.
End iappend.

Lemma needs_insert F k f g : F !! k = Some f -> needs (<[k := g]> F) = needs F + need (len g) - need (len f).
Proof.
  unfold needs. revert k. induction F as [|h F IH]; intros [|k] Hk; try done.
  - injection Hk as ->. change (<[0%nat := g]> (f :: F)) with (g :: F). cbn [foldr]. lia.
  - specialize (IH k Hk). change (<[S k := g]> (h :: F)) with (h :: <[k := g]> F). cbn [foldr]. lia.
Qed.
Lemma apart_sym B a b : apart B a b -> apart B b a.
Proof. intros H p H1 H2. by apply (H p). Qed.

Lemma iappend_ok s F k f p : image_inv s F -> F !! k = Some f -> (length F < 200)%nat -> Forall byte_ok p ->
  len f + Z.of_nat (length p) <= MAXFILE * BSIZE -> m_freeblock s + need (len f + Z.of_nat (length p)) - need (len f) <= 1000 ->
  exists s' a', iappend (inum_of k) p s = Done s' tt /\ image_inv s' (<[k := mkF (mf_type f) a' (mf_data f ++ p)]> F).
Proof.
  intros Hinv Hk HF Hp Hmax Hfree. assert (k < length F)%nat as Hlt by (by eapply lookup_lt_Some).
  pose proof (mi_vol _ _ Hinv) as Hv. pose proof (mi_files _ _ Hinv k f Hk) as [Hi Hb Hs]. assert (MAXFILE * BSIZE = 71680) as EM by done.
  assert (inum_ok sb (inum_of k)) as Hin by (by apply (inum_range k F)).
  destruct (iappend_loop_ok (length p) p (inode_of (inum_of k) f) (len f) s Hv (fi_file _ _ _ Hi) Hs ltac:(unfold len; lia) Hmax Hp ltac:(lia) Hfree)
    as (s1 & a1 & E1 & HA). cbn [inode_of i_addrs] in HA.
  pose proof (wr_file _ _ _ _ _ _ _ (ap_wrote _ _ _ _ _ _ HA)) as Hf1.
  destruct (winode_ok s1 (inode_of (inum_of k) (mkF (mf_type f) a1 (mf_data f ++ p)))) as (s2 & E2 & Hv2 & Hvol2 & Hfb2 & Hfn2);
    [apply HA|exact Hin|exact (fo_len _ _ _ Hf1)|].
  exists s2, a1. split.
  - unfold iappend. rewrite (bind_Done _ _ _ _ _ (rinode_ok s _ Hv Hin)).
    assert (dinode_at sb (view s) (inum_of k) (mkInode 1 (inum_of k) 0 0 0 0 0 0 0 []) = inode_of (inum_of k) f) as -> by exact (fi_sync _ _ _ Hi).
    change (i_size (inode_of (inum_of k) f)) with (len f). rewrite xint_id by (unfold len in *; lia). rewrite (bind_Done _ _ _ _ _ E1).
    cbv beta iota. rewrite xint_id by (unfold len in *; lia).
    replace (set_isize (len f + Z.of_nat (length p)) (with_addrs a1 (inode_of (inum_of k) f)))
      with (inode_of (inum_of k) (mkF (mf_type f) a1 (mf_data f ++ p))); [exact E2|].
    unfold inode_of, set_isize, with_addrs. cbn [i_dev i_inum i_ref i_flags i_type i_major i_minor i_nlink i_addrs mf_type mf_addrs].
    f_equal. apply len_app.
  - split.
    + done.
    + rewrite Hfb2, (ap_free _ _ _ _ _ _ HA), (mi_free _ _ Hinv), (needs_insert F k f) by done. rewrite len_app. fold (len f). lia.
    + rewrite length_insert, Hfn2, (ap_inodes _ _ _ _ _ _ HA). by apply (mi_next _ _ Hinv).
    + intros q Hq. by eapply (iappend_log s F k f p s1 s2 a1).
    + intros j g Hj. destruct (decide (j = k)) as [->|Hne].
      * rewrite list_lookup_insert_eq in Hj by done. injection Hj as <-. by eapply (iappend_this s F k f p s1 s2 a1).
      * rewrite list_lookup_insert_ne in Hj by done. by eapply (iappend_other s F k f p s1 s2 a1).
    + intros j m g h Hj Hm Hne. destruct (decide (j = k)) as [->|Hjk]; [|destruct (decide (m = k)) as [->|Hmk]].
      * rewrite list_lookup_insert_eq in Hj by done. injection Hj as <-. rewrite list_lookup_insert_ne in Hm by done.
        by eapply (iappend_apart s F k f p s1 s2 a1).
      * rewrite list_lookup_insert_eq in Hm by done. injection Hm as <-. rewrite list_lookup_insert_ne in Hj by done.
        apply apart_sym. by eapply (iappend_apart s F k f p s1 s2 a1).
      * rewrite list_lookup_insert_ne in Hj, Hm by done. intros q H1 H2.
        apply (iappend_other s F k f p s1 s2 a1 Hinv Hk HF Hmax HA Hv2 j g Hj Hjk) in H1.
        apply (iappend_other s F k f p s1 s2 a1 Hinv Hk HF Hmax HA Hv2 m h Hm Hmk) in H2.
        by apply (mi_apart _ _ Hinv j m g h Hj Hm Hne q).
Qed.

(** ** ialloc adds an empty file *)
Definition no_addrs : list Z := replicate 13 0.
Lemma no_addrs_fblk B bn : 0 <= bn < MAXFILE -> fblk B no_addrs bn = 0.
Proof.
  intros Hb. unfold fblk, no_addrs. destruct (Z.ltb_spec bn NDIRECT) as [Hlt|_]; [|done].
  change NDIRECT with 12 in Hlt. by rewrite lookup_total_replicate_2 by lia.
Qed.
Lemma no_addrs_owns B p : owns B no_addrs p -> False.
Proof. intros [Hp [->|(bn & Hb & <-)]]; [done|]. by rewrite no_addrs_fblk in Hp. Qed.
Lemma no_addrs_file B : file_ok B no_addrs.
Proof.
  split; [done|by left|..].
  - intros bn Hb. left. by apply no_addrs_fblk.
  - intros bn bm Hb Hm _ Hn. by rewrite no_addrs_fblk in Hn.
  - intros bn Hb Hn. by rewrite no_addrs_fblk in Hn.
Qed.
Lemma no_addrs_byte B p : 0 <= p < MAXFILE * BSIZE -> fbyte B no_addrs p = 0.
Proof.
  intros Hp. unfold fbyte, fcontent. rewrite no_addrs_fblk by (by apply block_no_bound). cbn [Z.eqb].
  pose proof (Z.mod_pos_bound p BSIZE ltac:(done)). unfold zeros. apply lookup_total_replicate_2. lia.
Qed.
Lemma new_file_at B i ty : i = inode_of (i_inum i) (mkF ty no_addrs []) -> disk_ok B -> inum_ok sb (i_inum i) -> ty = T_DIR \/ ty = T_FILE ->
  file_at (iupdated sb B i) (i_inum i) (mkF ty no_addrs []).
Proof.
  intros Ei Hd Hin Hty.
  assert (inode_ok i) as Hok.
  { rewrite Ei. destruct Hty as [->| ->]; (split; cbn; try done; try lia; repeat constructor; lia). }
  split; cbn [mf_addrs mf_data].
  - split; rewrite <- Ei; try done.
    + by rewrite Ei.
    + rewrite Ei. by destruct Hty as [->| ->].
    + rewrite Ei. apply no_addrs_file.
    + rewrite Ei. intros bn Hb Hs. change (i_size _) with 0 in Hs. rewrite BSIZE_512 in Hs. lia.
    + by rewrite Ei.
    + by apply iupdated_synced.
  - intros p Hp. by apply no_addrs_byte.
  - split; [|done]. intros bn Hb. rewrite no_addrs_fblk by done. change (len _) with 0. rewrite BSIZE_512. lia.
Qed.

Lemma needs_app F f : needs (F ++ [f]) = needs F + need (len f).
Proof. unfold needs. induction F as [|g F IH]; cbn [app foldr]; lia. Qed.
Lemma ialloc_ok s F ty : image_inv s F -> (length F < 199)%nat -> ty = T_DIR \/ ty = T_FILE ->
  exists s', ialloc ty s = Done s' (inum_of (length F)) /\ image_inv s' (F ++ [mkF ty no_addrs []]).
Proof.
  intros Hinv HF Hty. pose proof (mi_vol _ _ Hinv) as Hv. set (inum := inum_of (length F)).
  set (s1 := mkMk (m_img s) (m_freeinode s + 1) (m_freeblock s)).
  assert (vol s1) as Hv1 by (destruct Hv; by split).
  assert (next_inode s = Done s1 inum) as En.
  { unfold next_inode, s1. rewrite (mi_next _ _ Hinv), u32_small by lia. done. }
  assert (inum_ok sb inum) as Hin by (unfold inum_ok, inum, inum_of; rewrite sb_eq; cbn; lia).
  set (i := inode_of inum (mkF ty no_addrs [])).
  destruct (winode_ok s1 i Hv1 Hin eq_refl) as (s2 & E2 & Hv2 & Hvol2 & Hfb2 & Hfn2). exists s2. split.
  - unfold ialloc. rewrite (bind_Done _ _ _ _ _ En).
    replace (mkInode 1 inum 0 0 (s16 (xshort ty)) 0 0 (s16 (xshort 1)) (xint 0) (replicate 13 0)) with i by (by destruct Hty as [->| ->]).
    cbv zeta. change inum with (i_inum i) at 1. by rewrite (bind_Done _ _ _ _ _ E2).
  - change (view s1) with (view s) in Hv2. pose proof (vl_disk _ Hv) as Hd.
    assert (forall k f, F !! k = Some f -> file_at (view s2) (inum_of k) f /\ (forall p, owns (view s2) (mf_addrs f) p <-> owns (view s) (mf_addrs f) p)) as Hold.
    { intros k f Hk. assert (k < length F)%nat as Hkl by (by eapply lookup_lt_Some). pose proof (mi_files _ _ Hinv k f Hk) as Hf. rewrite Hv2.
      apply file_at_frame; [done|done| |].
      - intros p Hp. assert (dblk sb (view s) p) by (eapply owns_dblk; [apply (fa_inode _ _ _ Hf)|done]).
        split; [by apply iupdated_blk|by apply iupdated_dblk].
      - intros j. apply iupdated_other; [done|done|done|by apply (inum_range k F); lia|]. cbn. unfold inum, inum_of. lia. }
    split.
    + done.
    + rewrite Hfb2, needs_app. cbn [s1 m_freeblock]. rewrite (mi_free _ _ Hinv). change (need (len _)) with 0. lia.
    + rewrite Hfn2, length_app. cbn [s1 m_freeinode length]. rewrite (mi_next _ _ Hinv). lia.
    + intros p Hp. destruct (iblock_mk inum Hin) as [_ Hr]. rewrite Hv2. unfold iupdated. change (i_inum i) with inum.
      rewrite blk_set_ne by lia. by apply (mi_log _ _ Hinv).
    + intros k f Hk. apply lookup_app_Some in Hk as [Hk|[Hk1 Hk2]]; [by apply Hold|].
      apply list_lookup_singleton_Some in Hk2 as [Hk2 <-]. replace k with (length F) by lia. rewrite Hv2. by apply (new_file_at (view s) i).
    + intros j k f g Hj Hk Hne p H1 H2.
      apply lookup_app_Some in Hj as [Hj|[_ Hj]]; [|apply list_lookup_singleton_Some in Hj as [_ <-]; by apply no_addrs_owns in H1].
      apply lookup_app_Some in Hk as [Hk|[_ Hk]]; [|apply list_lookup_singleton_Some in Hk as [_ <-]; by apply no_addrs_owns in H2].
      apply (proj2 (Hold j f Hj)) in H1. apply (proj2 (Hold k g Hk)) in H2. by apply (mi_apart _ _ Hinv j k f g Hj Hk Hne p).
Qed.
