(* ===== verification/MkfsMain.v ===== *)
(** * mkfs makes the file system it was asked for

    The whole run: the empty disk, the root directory and its entries, the
    files, the size of the root, the bitmap. *)

From S2P Require Import Prelude Params Bytes Bio Log Txn Store FsLog CString Fs FsSpec FsData FsFile FsWrite Mkfs MkfsSpec MkfsImage.

#[local] Existing Instance mk_dims.
Abbreviation disk_ok := (FsSpec.disk_ok sb).
Abbreviation file_ok := (FsData.file_ok sb).

(** ** The contents of an image, by inode number *)
Abbreviation contents := (list (Z * bytes)).
Definition shape (F : list mfile) : contents := map (fun f => (mf_type f, mf_data f)) F.
Definition total (l : contents) : Z := foldr (fun x n => need (Z.of_nat (length x.2)) + n) 0 l.
Definition add_to (p : bytes) (x : Z * bytes) : Z * bytes := (x.1, x.2 ++ p).
Definition has (s : mkst) (l : contents) : Prop := exists F, image_inv s F /\ shape F = l.

Lemma total_shape F : total (shape F) = needs F.
Proof. unfold total, needs. induction F as [|f F IH]; [done|]. cbn [shape map foldr]. unfold shape in IH. by rewrite IH. Qed.
Lemma total_add l k t d p : l !! k = Some (t, d) ->
  total (alter (add_to p) k l) = total l + need (Z.of_nat (length d) + Z.of_nat (length p)) - need (Z.of_nat (length d)).
Proof.
  unfold total. revert k. induction l as [|x l IH]; intros [|k] Hk; try done.
  - injection Hk as ->. cbn [alter list_alter foldr add_to snd]. rewrite length_app, Nat2Z.inj_add. lia.
  - specialize (IH k Hk). change (alter (add_to p) (S k) (x :: l)) with (x :: alter (add_to p) k l). cbn [foldr]. lia.
Qed.
Lemma alter_same {A} (g : A -> A) k (l : list A) : (forall x, l !! k = Some x -> g x = x) -> alter g k l = l.
Proof.
  intros H. apply list_eq. intros j. destruct (decide (j = k)) as [->|Hne]; [|by rewrite list_lookup_alter_ne].
  rewrite list_lookup_alter_eq. destruct (l !! k) as [x|]; [|done]. cbn. f_equal. by apply H.
Qed.
Lemma total_le_add l k p : total l <= total (alter (add_to p) k l).
Proof.
  destruct (l !! k) as [[t d]|] eqn:E.
  - rewrite (total_add l k t d p E). pose proof (need_mono (Z.of_nat (length d)) (Z.of_nat (length d) + Z.of_nat (length p)) ltac:(lia)). lia.
  - rewrite alter_same; [lia|]. by rewrite E.
Qed.
Lemma total_snoc l t : total (l ++ [(t, [])]) = total l.
Proof.
  unfold total. induction l as [|x l IH]; cbn [app foldr]; [done|]. by rewrite IH.
Qed.

Lemma iappend_has s l k t d p : has s l -> l !! k = Some (t, d) -> (length l < 200)%nat -> Forall byte_ok p ->
  Z.of_nat (length d) + Z.of_nat (length p) <= MAXFILE * BSIZE -> 59 + total (alter (add_to p) k l) <= 1000 ->
  exists s', iappend (inum_of k) p s = Done s' tt /\ has s' (alter (add_to p) k l).
Proof.
  intros (F & Hinv & <-) Hk Hl Hp Hmax Htot. rewrite (total_add _ k t d p Hk), total_shape in Htot.
  unfold shape in Hk, Hl. rewrite length_map in Hl. rewrite list_lookup_fmap in Hk. destruct (F !! k) as [f|] eqn:Ef; [|done].
  injection Hk as <- <-.
  destruct (iappend_ok s F k f p Hinv Ef Hl Hp Hmax) as (s' & a' & E & Hinv').
  { rewrite (mi_free _ _ Hinv). unfold len. lia. }
  exists s'. split; [done|]. eexists. split; [exact Hinv'|]. unfold shape.
  change (map ?g ?x) with (g <$> x). rewrite list_fmap_insert. cbn.
  apply list_eq. intros j. destruct (decide (j = k)) as [->|Hne].
  - rewrite list_lookup_insert_eq by (rewrite length_fmap; by eapply lookup_lt_Some).
    rewrite list_lookup_alter_eq, list_lookup_fmap, Ef. done.
  - by rewrite list_lookup_insert_ne, list_lookup_alter_ne by done.
Qed.
Lemma ialloc_has s l t : has s l -> (length l < 199)%nat -> t = T_DIR \/ t = T_FILE ->
  exists s', ialloc t s = Done s' (inum_of (length l)) /\ has s' (l ++ [(t, [])]).
Proof.
  intros (F & Hinv & <-) Hl Ht. unfold shape in *. rewrite length_map in *. destruct (ialloc_ok s F t Hinv Hl Ht) as (s' & E & Hinv').
  exists s'. split; [done|]. eexists. split; [exact Hinv'|]. unfold shape. by rewrite map_app.
Qed.

(** ** The files of the command line *)
Definition file_data (x : list Z * list bytes) : bytes := concat x.2.
Definition entry (inum : Z) (x : list Z * list bytes) : bytes := dirent inum (strncpy_name (skip_underscore x.1)).
(** What adding files does to the contents *)
Fixpoint add_spec (l : contents) (files : list (list Z * list bytes)) : contents :=
  match files with
  | [] => l
  | x :: files' =>
      let l1 := alter (add_to (entry (inum_of (length l)) x)) 0%nat (l ++ [(T_FILE, [])]) in
      add_spec (alter (add_to (file_data x)) (length l) l1) files'
  end.
Lemma total_le_spec files l : total l <= total (add_spec l files).
Proof.
  revert l. induction files as [|x files IH]; intros l; cbn [add_spec]; [lia|].
  etrans; [|apply IH]. etrans; [|apply total_le_add]. etrans; [|apply total_le_add]. by rewrite total_snoc.
Qed.

Lemma append_reads_has reads : forall s l k t d, has s l -> l !! k = Some (t, d) -> (length l < 200)%nat -> Forall (Forall byte_ok) reads ->
  Z.of_nat (length d) + Z.of_nat (length (concat reads)) <= MAXFILE * BSIZE ->
  59 + total (alter (add_to (concat reads)) k l) <= 1000 ->
  exists s', append_reads (inum_of k) reads s = Done s' tt /\ has s' (alter (add_to (concat reads)) k l).
Proof.
  induction reads as [|buf reads IH]; intros s l k t d Hs Hk Hl Hr Hmax Htot; cbn [concat append_reads] in *.
  - exists s. split; [done|]. replace (alter (add_to []) k l) with l; [done|]. symmetry. apply alter_same.
    intros [u e] _. unfold add_to. cbn. by rewrite app_nil_r.
  - apply Forall_cons in Hr as [Hb Hr]. rewrite length_app in Hmax.
    assert (alter (add_to (buf ++ concat reads)) k l = alter (add_to (concat reads)) k (alter (add_to buf) k l)) as E.
    { rewrite list_alter_alter_eq. apply list_alter_ext; [|done]. intros [u e] _. unfold add_to. cbn. by rewrite app_assoc. }
    rewrite E in *.
    destruct (iappend_has s l k t d buf Hs Hk Hl Hb ltac:(lia)) as (s1 & E1 & Hs1).
    { pose proof (total_le_add (alter (add_to buf) k l) k (concat reads)). lia. }
    destruct (IH s1 (alter (add_to buf) k l) k t (d ++ buf)) as (s2 & E2 & Hs2).
    + done.
    + by rewrite list_lookup_alter_eq, Hk.
    + by rewrite length_alter.
    + done.
    + rewrite length_app. lia.
    + done.
    + exists s2. split; [|done]. by rewrite (bind_Done _ _ _ _ _ E1).
Qed.

Lemma strncpy_ok name n : Forall byte_ok name -> exists w, strncpy (name ++ [0]) n = Some w /\ length w = n /\ Forall byte_ok w.
Proof.
  intros Hn. revert n. induction Hn as [|c name Hc Hn IH]; intros [|n]; cbn [app strncpy]; try by exists [].
  - change (0 =? 0) with true. cbn iota. eexists. split; [reflexivity|]. split; [cbn; by rewrite length_replicate|].
    apply Forall_cons. split; [unfold byte_ok; lia|]. apply Forall_replicate. unfold byte_ok. lia.
  - destruct (c =? 0).
    + eexists. split; [reflexivity|]. split; [cbn; by rewrite length_replicate|].
      apply Forall_cons. split; [unfold byte_ok; lia|]. apply Forall_replicate. unfold byte_ok. lia.
    + destruct (IH n) as (w & -> & Hl & Hw). eexists. split; [reflexivity|]. split; [cbn; by rewrite Hl|]. by apply Forall_cons.
Qed.
Lemma dirent_ok inum w : (length w <= 14)%nat -> Forall byte_ok w -> length (dirent inum w) = 16%nat /\ Forall byte_ok (dirent inum w).
Proof.
  intros Hl Hw. unfold dirent.
  assert (length (put16 0 (xshort inum) (replicate 16 0)) = 16%nat) as L by (rewrite length_put16; cbn; lia).
  split; [rewrite length_splice; lia|]. apply splice_ok; [done|]. apply splice_ok; [apply le16_ok|].
  apply Forall_replicate. unfold byte_ok. lia.
Qed.
Lemma entry_ok inum x : Forall byte_ok x.1 -> length (entry inum x) = 16%nat /\ Forall byte_ok (entry inum x).
Proof.
  intros Hx. unfold entry, strncpy_name.
  assert (Forall byte_ok (skip_underscore x.1)) as Hs.
  { destruct x.1 as [|c n]; [done|]. cbn. apply Forall_cons in Hx as [? ?]. case_match; [done|by apply Forall_cons]. }
  destruct (strncpy_ok _ DIRSIZ Hs) as (w & -> & Hl & Hw). change (default [] (Some w)) with w. apply dirent_ok; [rewrite Hl; unfold DIRSIZ; lia|done].
Qed.

(** A file that can be added: a name without '/', and no more than a file can hold *)
Record arg_ok (x : list Z * list bytes) : Prop := mkArg {
  ar_name : Forall byte_ok x.1;
  ar_slash : existsb (Z.eqb 47) x.1 = false;
  ar_reads : Forall (Forall byte_ok) x.2;
  ar_size : Z.of_nat (length (file_data x)) <= MAXFILE * BSIZE
}.

Lemma add_files_has files : forall s l t d, has s l -> l !! 0%nat = Some (t, d) -> (length l + length files <= 199)%nat -> Forall arg_ok files ->
  Z.of_nat (length d) + 16 * Z.of_nat (length files) <= MAXFILE * BSIZE -> 59 + total (add_spec l files) <= 1000 ->
  exists s', add_files (inum_of 0) files s = Done s' tt /\ has s' (add_spec l files).
Proof.
  induction files as [|x files IH]; intros s l t d Hs H0 Hl Ha Hmax Htot; [by exists s|].
  apply Forall_cons in Ha as [[Hn Hsl Hr Hsz] Ha]. cbn [add_spec length] in *.
  set (l1 := l ++ [(T_FILE, [])]) in *. set (e := entry (inum_of (length l)) x) in *.
  set (l2 := alter (add_to e) 0%nat l1) in *. set (l3 := alter (add_to (file_data x)) (length l) l2) in *.
  assert (0 < length l)%nat as Hl0 by (by eapply lookup_lt_Some).
  assert (length l1 = S (length l)) as L1 by (unfold l1; rewrite length_app; cbn; lia).
  assert (length l2 = S (length l)) as L2 by (unfold l2; by rewrite length_alter).
  pose proof (total_le_spec files l3) as T3. pose proof (total_le_add l2 (length l) (file_data x)) as T2. fold l3 in T2.
  destruct (entry_ok (inum_of (length l)) x Hn) as [Le Be]. fold e in Le, Be.
  destruct (ialloc_has s l T_FILE Hs ltac:(lia) ltac:(by right)) as (s1 & E1 & Hs1). fold l1 in Hs1.
  destruct (iappend_has s1 l1 0 t d e Hs1) as (s2 & E2 & Hs2); [unfold l1; by rewrite lookup_app_l by lia|lia|done|lia|fold l2; lia|].
  fold l2 in Hs2.
  destruct (append_reads_has x.2 s2 l2 (length l) T_FILE [] Hs2) as (s3 & E3 & Hs3).
  { unfold l2. rewrite list_lookup_alter_ne by lia. unfold l1. rewrite lookup_app_r by lia. by rewrite Nat.sub_diag. }
  { lia. } { done. } { cbn [length]. unfold file_data in Hsz. lia. } { fold (file_data x) l3. lia. }
  fold (file_data x) in Hs3. fold l3 in Hs3.
  destruct (IH s3 l3 t (d ++ e) Hs3) as (s4 & E4 & Hs4).
  { unfold l3. rewrite list_lookup_alter_ne by lia. unfold l2. rewrite list_lookup_alter_eq. unfold l1.
    rewrite lookup_app_l by lia. by rewrite H0. }
  { unfold l3. rewrite length_alter. lia. } { done. } { rewrite length_app. lia. } { done. }
  exists s4. split; [|done]. cbn [add_files]. destruct x as [name reads]. cbn [fst snd] in *. rewrite Hsl.
  rewrite (bind_Done _ _ _ _ _ E1). rewrite (bind_Done _ _ _ _ _ E2). by rewrite (bind_Done _ _ _ _ _ E3).
Qed.

(** ** The empty disk *)
Lemma zero_all_ok k : forall i s, length (m_img s) = Z.to_nat i -> 0 <= i ->
  zero_all i k s = Done (set_img (m_img s ++ replicate k zeroes) s) tt.
Proof.
  induction k as [|k IH]; intros i s Hl Hi; cbn [zero_all].
  - cbn [replicate]. rewrite app_nil_r. by destruct s.
  - assert (wsect i zeroes s = Done (set_img (m_img s ++ [zeroes]) s) tt) as Ew.
    { unfold wsect. rewrite (proj2 (Nat.ltb_ge _ _)) by lia. by rewrite Hl, Nat.sub_diag. }
    rewrite (bind_Done _ _ _ _ _ Ew). rewrite IH; [|cbn; rewrite length_app; cbn; lia|lia].
    cbn [set_img m_img]. by rewrite <- app_assoc.
Qed.
Definition sb_block : bytes := splice 0 sb_bytes zeroes.
Definition empty_disk : mkst := mkMk (setblk 1 sb_block (replicate 1000 zeroes)) 1 59.
Lemma sb_block_ok : block_ok sb_block /\ decode_sb sb_block = sb.
Proof.
  split; [split; [vm_compute; reflexivity|]|vm_compute; reflexivity].
  apply splice_ok; [|exact (proj2 zeros_ok)]. unfold sb_bytes. repeat (apply Forall_app; split); apply le32_ok.
Qed.
Lemma empty_blk p : 0 <= p < 1000 -> p <> 1 -> p <> 58 -> blk (view empty_disk) p = zeros.
Proof.
  intros Hp H1 H58. rewrite view_blk by lia. cbn [empty_disk m_img]. rewrite blk_set_ne by lia. unfold blk. apply lookup_total_replicate_2. lia.
Qed.
Lemma empty_disk_inv : image_inv empty_disk [].
Proof.
  destruct sb_block_ok as [Hsb Hdec].
  assert (length (m_img empty_disk) = 1000%nat) as Hl by (etrans; [apply length_setblk|apply length_replicate]).
  assert (vol empty_disk) as Hv; [|split; [done|done|done|intros p Hp; apply empty_blk; lia|by intros k f Hk|by intros j k f g Hj]].
  split; [done|cbn [empty_disk m_freeblock]; lia| |intros b Hb; cbn [empty_disk m_freeblock] in Hb; apply empty_blk; lia].
  assert (block_ok (bitmap 59)) as Hbm by (apply bitmap_spec; unfold BPB, BSIZE; lia).
  split.
  - rewrite length_view, Hl. split; rewrite ?dstart_eq, ?sb_eq; vm_compute; try lia; try done.
  - apply blocks_ok_set; [apply blocks_ok_set; [|done]|done]. apply Forall_replicate. exact zeros_ok.
  - rewrite view_blk by lia. cbn [empty_disk m_img]. rewrite blk_set_eq by (rewrite length_replicate; lia). exact Hdec.
  - intros b Hb. rewrite dstart_eq in Hb. destruct (bblock_58 b ltac:(lia)) as [E1 E2]. unfold used. fold (bblock sb b). rewrite E1, E2.
    unfold view. rewrite blk_set_eq by (rewrite Hl; lia). cbn [empty_disk m_freeblock].
    rewrite (proj2 (bitmap_spec 59 ltac:(unfold BPB, BSIZE; lia))) by (unfold BPB, BSIZE; lia). apply Z.ltb_lt. lia.
Qed.

(** ** The finished image *)
Definition inode_with (inum type size : Z) (a : list Z) : inode := mkInode 1 inum 0 0 type 0 0 1 size a.
(** Inode [inum] of the image has these fields, its blocks are in order, and
    its bytes are [d], followed by zeros. *)
Record holds (img : list bytes) (a : list Z) (inum type size : Z) (d : bytes) : Prop := mkHolds {
  hf_inode : synced sb img (inode_with inum type size a);
  hf_blocks : file_ok img a;
  hf_bytes : forall p, 0 <= p < MAXFILE * BSIZE -> fbyte img a p = default 0 (d !! Z.to_nat p);
  hf_holes : no_holes img a (Z.of_nat (length d))
}.
Definition root_size (n : Z) : Z := (n / BSIZE + 1) * BSIZE.
Definition size_of (k : nat) (d : bytes) : Z := if decide (k = 0%nat) then root_size (Z.of_nat (length d)) else Z.of_nat (length d).
Record made (img : list bytes) (l : contents) (A : list (list Z)) : Prop := mkMade {
  md_disk : disk_ok img;
  md_boot : bootable 2 30 img [];
  md_used : forall b, 0 <= b < FSSIZE -> used sb img b = (b <? nmeta + total l);
  md_len : length A = length l;
  md_files : forall k t d, l !! k = Some (t, d) -> exists a, A !! k = Some a /\ holds img a (inum_of k) t (size_of k d) d;
  md_apart : forall j k a b, j <> k -> A !! j = Some a -> A !! k = Some b -> apart img a b
}.

Section finish.
Context (s : mkst) (F : list mfile) (f : mfile) (img : list bytes).
Abbreviation i := (inode_with (inum_of 0) (mf_type f) (root_size (len f)) (mf_addrs f)).
Context (Hinv : image_inv s F) (H0 : F !! 0%nat = Some f) (HF : (length F < 200)%nat) (Himg : img = iupdated sb (view s) i).

Lemma root_inum : inum_ok sb (i_inum i).
Proof using Type. vm_compute. done. Qed.
Lemma root_ok : inode_ok i.
Proof using Hinv H0 HF.
  pose proof (mi_files _ _ Hinv _ _ H0) as [[_ _ _ [I1 I2 I3 I4 I5 I6 I7] _ _ I8 _] _ _]. cbn in I8.
  change (MAXFILE * BSIZE) with 71680 in I8. split; try done. cbn [inode_with i_size]. unfold root_size. rewrite BSIZE_512.
  assert (0 <= len f) by (unfold len; lia). Z.div_mod_to_equations. lia.
Qed.
Lemma finish_disk : disk_ok img.
Proof using Hinv H0 HF Himg. rewrite Himg. apply iupdated_disk; [apply (vl_disk _ (mi_vol _ _ Hinv))|apply root_inum|apply root_ok]. Qed.
Lemma finish_low p : 0 <= p < 32 -> blk img p = blk (view s) p.
Proof using HF Himg. intros Hp. rewrite Himg. unfold iupdated. destruct (iblock_mk _ root_inum) as [_ Hr]. apply blk_set_ne; lia. Qed.
Lemma finish_boot : bootable 2 30 img [].
Proof using Hinv H0 HF Himg.
  pose proof (dk_super _ _ finish_disk) as Hsb. change (blk img 1) with (img !!! 1%nat) in Hsb.
  assert (length img = 1000%nat) as Hl by (rewrite Himg; unfold iupdated; rewrite length_setblk, length_view; apply (mi_vol _ _ Hinv)).
  assert (img !!! 2%nat = zeros) as H2 by (etrans; [exact (finish_low 2 ltac:(lia))|]; apply (mi_log _ _ Hinv); lia).
  split.
  - split; [|apply homes_nil; lia|lia]. rewrite H2. split; [vm_compute; reflexivity|]. split; [vm_compute; reflexivity|done].
  - intros b Hb. by destruct (not_elem_of_nil _ Hb).
  - rewrite sb_eq in Hsb. split; [exact (f_equal sb_logstart Hsb)|exact (f_equal sb_nlog Hsb)].
  - rewrite Hl. lia.
Qed.
Lemma finish_used b : 0 <= b < FSSIZE -> used sb img b = (b <? nmeta + total (shape F)).
Proof using Hinv H0 HF Himg.
  intros Hb. change FSSIZE with 1000 in Hb. rewrite Himg, iupdated_used; [|apply (vl_disk _ (mi_vol _ _ Hinv))|apply root_inum|rewrite sb_eq; exact Hb].
  rewrite used_view by (done || apply Hinv). rewrite (mi_free _ _ Hinv), total_shape. done.
Qed.
Lemma finish_file k g : F !! k = Some g -> holds img (mf_addrs g) (inum_of k) (mf_type g) (size_of k (mf_data g)) (mf_data g) /\
  (forall p, owns img (mf_addrs g) p -> owns (view s) (mf_addrs g) p).
Proof using Hinv H0 HF Himg.
  intros Hk. pose proof (mi_files _ _ Hinv k g Hk) as Hg. pose proof (fi_file _ _ _ (fa_inode _ _ _ Hg)) as Hfg. pose proof (vl_disk _ (mi_vol _ _ Hinv)) as Hd.
  destruct (iupdated_file sb (view s) i Hd root_inum (mf_addrs g) Hfg) as [Hf2 [Hfb Hby]]. rewrite <- Himg in Hf2, Hfb, Hby.
  split; [split|].
  - rewrite Himg. unfold size_of. destruct (decide (k = 0%nat)) as [->|Hne].
    + rewrite H0 in Hk. injection Hk as <-. apply iupdated_synced; [done|apply root_inum|apply root_ok].
    + unfold synced. cbn [inode_with i_inum]. rewrite iupdated_other; [exact (fi_sync _ _ _ (fa_inode _ _ _ Hg))|done|apply root_inum|apply root_ok| |].
      * apply (inum_range k F); [by eapply lookup_lt_Some|done].
      * cbn. unfold inum_of. lia.
  - done.
  - intros p Hp. rewrite Hby by done. by apply (fa_bytes _ _ _ Hg).
  - pose proof (fi_size _ _ _ (fa_inode _ _ _ Hg)) as Hsz. cbn in Hsz. intros bn H1 H2. unfold len in Hsz. change (MAXFILE * BSIZE) with 71680 in Hsz.
    rewrite Hfb by (change MAXFILE with 140; rewrite BSIZE_512 in H2; lia). by apply (fi_holes _ _ _ (fa_inode _ _ _ Hg)).
  - intros p [Hp [H|(bn & Hb & H)]]; (split; [done|]); [by left|]. right. exists bn. split; [done|]. by rewrite <- Hfb.
Qed.
Lemma finish_made : made img (shape F) (map mf_addrs F).
Proof using Hinv H0 HF Himg.
  split; [apply finish_disk|apply finish_boot|apply finish_used|unfold shape; by rewrite !length_map|..].
  - intros k t d Hk. unfold shape in Hk. rewrite list_lookup_fmap in Hk. destruct (F !! k) as [g|] eqn:E; [|done]. injection Hk as <- <-.
    exists (mf_addrs g). rewrite list_lookup_fmap, E. split; [done|]. by apply finish_file.
  - intros j k a b Hne Ha Hb p H1 H2. rewrite list_lookup_fmap in Ha, Hb. destruct (F !! j) as [g|] eqn:Ej; [|done]. destruct (F !! k) as [h|] eqn:Ek; [|done].
    injection Ha as <-. injection Hb as <-. apply (finish_file j g Ej) in H1. apply (finish_file k h Ek) in H2.
    by apply (mi_apart _ _ Hinv j k g h Ej Ek Hne p).
Qed.
End finish.

(** ** The whole run *)
Definition dots : bytes := dirent 1 (strcpy_name [46]) ++ dirent 1 (strcpy_name [46; 46]).
Fixpoint entries (inum : Z) (files : list (list Z * list bytes)) : bytes :=
  match files with [] => [] | x :: files' => entry inum x ++ entries (inum + 1) files' end.
(** The root directory and then the files, in the order of the arguments *)
Definition contents_of (files : list (list Z * list bytes)) : contents :=
  (T_DIR, dots ++ entries 2 files) :: map (fun x => (T_FILE, file_data x)) files.

Lemma alter_last {A} (g : A -> A) (l : list A) x : alter g (length l) (l ++ [x]) = l ++ [g x].
Proof. induction l as [|y l IH]; [done|]. cbn [length app]. change (alter g (S (length l)) (y :: (l ++ [x]))) with (y :: alter g (length l) (l ++ [x])). by rewrite IH. Qed.
Lemma add_spec_eq files t d l :
  add_spec ((t, d) :: l) files = (t, d ++ entries (inum_of (S (length l))) files) :: l ++ map (fun x => (T_FILE, file_data x)) files.
Proof.
  revert d l. induction files as [|x files IH]; intros d l; cbn [add_spec entries map]; [by rewrite !app_nil_r|].
  set (e := entry _ x). change (alter (add_to e) 0%nat (((t, d) :: l) ++ [(T_FILE, [])])) with ((t, d ++ e) :: (l ++ [(T_FILE, [])])).
  change (alter (add_to (file_data x)) (length ((t, d) :: l)) ((t, d ++ e) :: (l ++ [(T_FILE, [])])))
    with ((t, d ++ e) :: alter (add_to (file_data x)) (length l) (l ++ [(T_FILE, [])])).
  replace (alter (add_to (file_data x)) (length l) (l ++ [(T_FILE, [])])) with (l ++ [(T_FILE, file_data x)]).
  - rewrite IH, length_app, <- !app_assoc. cbn [length app]. do 2 f_equal. unfold e. cbn [length]. do 2 f_equal. f_equal. unfold inum_of. lia.
  - symmetry. by rewrite alter_last.
Qed.

Lemma dot_entries : length (dirent 1 (strcpy_name [46])) = 16%nat /\ length (dirent 1 (strcpy_name [46; 46])) = 16%nat /\ Forall byte_ok dots.
Proof.
  split; [reflexivity|]. split; [reflexivity|]. unfold dots. apply Forall_app.
  split; (apply dirent_ok; [cbn; lia|repeat constructor]; unfold byte_ok; lia).
Qed.

Lemma length_entries n files : Forall arg_ok files -> length (entries n files) = (16 * length files)%nat.
Proof.
  intros H. revert n. induction H as [|x files Hx H IH]; intros n; [done|]. cbn [entries length]. rewrite length_app, IH.
  destruct (entry_ok n x (ar_name _ Hx)) as [-> _]. lia.
Qed.
Lemma main_start {A} (k : kernel mkst A) :
  (kmodify (fun s => mkMk (m_img s) (m_freeinode s) nmeta);; zero_all 0 (Z.to_nat FSSIZE);; wsect 1 (splice 0 sb_bytes zeroes);; k) (mkMk [] 1 0) =
  k empty_disk.
Proof.
  rewrite (bind_Done (kmodify (fun s => mkMk (m_img s) (m_freeinode s) nmeta)) _ (mkMk [] 1 0) (mkMk [] 1 59) tt eq_refl).
  rewrite (bind_Done _ _ _ _ _ (zero_all_ok (Z.to_nat FSSIZE) 0 (mkMk [] 1 59) eq_refl ltac:(lia))).
  assert (wsect 1 sb_block (set_img (replicate 1000 zeroes) (mkMk [] 1 59)) = Done empty_disk tt) as E.
  { unfold wsect. cbn [set_img m_img]. rewrite length_replicate. done. }
  by rewrite (bind_Done _ _ _ _ _ E).
Qed.
Lemma finish_run s l t d : has s l -> l !! 0%nat = Some (t, d) -> (length l < 200)%nat -> Z.of_nat (length d) <= MAXFILE * BSIZE ->
  exists s' A, (din ← rinode 1;
    winode 1 (set_isize (xint (u32 ((xint (i_size din) / BSIZE + 1) * BSIZE))) din);;
    s ← kget; balloc (s32 (m_freeblock s))) s = Done s' tt /\ made (m_img s') l A.
Proof.
  intros (F & Hinv & <-) Hk Hl Hd. unfold shape in Hk, Hl. rewrite length_map in Hl. rewrite list_lookup_fmap in Hk.
  destruct (F !! 0%nat) as [f|] eqn:E0; [|done]. injection Hk as <- <-. pose proof (mi_vol _ _ Hinv) as Hv.
  change (MAXFILE * BSIZE) with 71680 in Hd. pose proof (mi_files _ _ Hinv _ _ E0) as Hf.
  set (i := inode_with (inum_of 0) (mf_type f) (root_size (len f)) (mf_addrs f)).
  destruct (winode_ok s i Hv (root_inum f) (io_len _ (root_ok s F f Hinv E0 Hl))) as (s1 & E1 & Hv1 & Hvol1 & Hfb1 & _).
  pose proof (vl_free _ Hvol1) as Hfree. exists (set_img (view s1) s1), (map mf_addrs F). split.
  - rewrite (bind_Done _ _ _ _ _ (rinode_ok s 1 Hv (root_inum f))).
    assert (dinode_at sb (view s) 1 (mkInode 1 1 0 0 0 0 0 0 0 []) = inode_of 1 f) as -> by exact (fi_sync _ _ _ (fa_inode _ _ _ Hf)).
    change (i_size (inode_of 1 f)) with (len f). rewrite (xint_id (len f)) by (unfold len; lia).
    assert (0 <= root_size (len f) < 2 ^ 32) as Hrs.
    { unfold root_size. rewrite BSIZE_512. unfold len. Z.div_mod_to_equations. lia. }
    fold (root_size (len f)). rewrite u32_small, xint_id by done. change (set_isize (root_size (len f)) (inode_of 1 f)) with i.
    change 1 with (i_inum i) at 1. rewrite (bind_Done _ _ _ _ _ E1). rewrite (bind_Done kget _ s1 s1 s1 eq_refl).
    unfold balloc. rewrite s32_small by lia. rewrite (proj2 (Z.ltb_lt _ _)) by (unfold BSIZE; lia). cbn [negb].
    change (set_bits 0 (Z.to_nat (m_freeblock s1)) zeroes) with (bitmap (m_freeblock s1)). unfold wsect.
    change (Z.to_nat (sb_bmapstart sb)) with 58%nat. rewrite (proj2 (Nat.ltb_lt _ _)) by (rewrite (vl_len _ Hvol1); lia). done.
  - cbn [set_img m_img]. rewrite Hv1. by apply (finish_made s F f).
Qed.

Lemma image_made files : Forall arg_ok files -> (length files <= 198)%nat -> nmeta + total (contents_of files) <= FSSIZE ->
  exists s A, mkfs files = Done s tt /\ made (m_img s) (contents_of files) A.
Proof.
  intros Ha Hn Htot. change nmeta with 59 in Htot. change FSSIZE with 1000 in Htot. destruct dot_entries as (L1 & L2 & Hdots).
  unfold dots in Hdots. apply Forall_app in Hdots as [B1 B2].
  assert (MAXFILE * BSIZE = 71680) as EM by done.
  assert (add_spec [(T_DIR, dots)] files = contents_of files) as Espec by (rewrite add_spec_eq; done).
  pose proof (total_le_spec files [(T_DIR, dots)]) as Hle. rewrite Espec in Hle.
  assert (length dots = 32%nat) as Ld by reflexivity.
  destruct (ialloc_has empty_disk [] T_DIR) as (s1 & E1 & Hs1); [exists []; split; [apply empty_disk_inv|done]|cbn; lia|by left|].
  destruct (iappend_has s1 [(T_DIR, [])] 0 T_DIR [] _ Hs1 eq_refl ltac:(cbn; lia) B1) as (s2 & E2 & Hs2); [cbn [length]; rewrite L1; lia|vm_compute; discriminate|].
  destruct (iappend_has s2 _ 0 T_DIR (dirent 1 (strcpy_name [46])) _ Hs2 eq_refl ltac:(cbn; lia) B2) as (s3 & E3 & Hs3); [rewrite L1, L2; lia|vm_compute; discriminate|].
  change (has s3 [(T_DIR, dots)]) in Hs3.
  destruct (add_files_has files s3 _ T_DIR dots Hs3 eq_refl ltac:(cbn [length]; lia) Ha) as (s4 & E4 & Hs4); [rewrite Ld; lia|rewrite Espec; lia|].
  rewrite Espec in Hs4.
  destruct (finish_run s4 (contents_of files) T_DIR (dots ++ entries 2 files) Hs4 eq_refl) as (s5 & A & E5 & Hm).
  { cbn [contents_of length]. rewrite length_map. lia. }
  { rewrite length_app, Ld, length_entries by done. lia. }
  exists s5, A. split; [|done].
  unfold mkfs, main. rewrite main_start. rewrite (bind_Done _ _ _ _ _ E1). change (negb (inum_of (length []) =? ROOTINO)) with false. cbn iota.
  change (inum_of (length [])) with (inum_of 0). rewrite (bind_Done _ _ _ _ _ E2), (bind_Done _ _ _ _ _ E3), (bind_Done _ _ _ _ _ E4). exact E5.
Qed.

(** mkfs makes the file system it is asked for: with at most 198 files,
    each with a name without '/' and small enough, that fit the disk, it ends
    without an error, and the image boots, marks exactly the first blocks used,
    and holds a root directory with an entry for each file in order, and in
    blocks of its own every file, byte for byte. *)
Theorem mkfs_correct files : Forall arg_ok files -> (length files <= 198)%nat -> nmeta + total (contents_of files) <= FSSIZE ->
  exists s A, mkfs files = Done s tt /\ made (m_img s) (contents_of files) A.
Proof. exact (image_made files). Qed.

(** _a with the bytes 1 2 3 4 in two reads, and an empty file b *)
Definition some_files : list (list Z * list bytes) := [([95; 97], [[1; 2; 3]; [4]]); ([98], [])].
Lemma some_files_ok : Forall arg_ok some_files.
Proof. repeat constructor; unfold byte_ok; cbn; lia || (vm_compute; discriminate) || done. Qed.
Lemma mkfs_correct_witness : exists s A, mkfs some_files = Done s tt /\ made (m_img s) (contents_of some_files) A.
Proof. apply (mkfs_correct some_files some_files_ok); [cbn; lia|vm_compute; discriminate]. Defined.
