(* ===== verification/MkfsBoot.v ===== *)
(** * A kernel booted from the image that mkfs makes

    mkfs on the host and the kernel agree: after fsinit on the image, reading
    "/name" gives the bytes of the first file of that name on mkfs's command
    line, and fails when there is none. *)

From S2P Require Import Prelude Params Bytes Bio Log Txn Store FsLog CString Fs FsSpec FsData FsFile FsWrite FsCache FsDir FsPath FsTxn.
From S2P Require Import FsBoot Mkfs MkfsSpec MkfsImage MkfsMain.

#[local] Existing Instance mk_dims.

(** ** The root directory of the image as a map *)
Definition file_name (x : list Z * list bytes) : list Z := fname (skip_underscore x.1).
Definition is_named (nm : list Z) (x : list Z * list bytes) : bool := bool_decide (file_name x = take DIRSIZ nm).
Fixpoint name_map (inum : Z) (files : list (list Z * list bytes)) : gmap (list Z) Z :=
  match files with [] => ∅ | x :: files' => <[file_name x := inum]> (name_map (inum + 1) files') end.
Definition root_map (files : list (list Z * list bytes)) : gmap (list Z) Z := <[ [46] := 1 ]> (<[ [46; 46] := 1 ]> (name_map 2 files)).

Fixpoint entry_list (inum : Z) (files : list (list Z * list bytes)) : list bytes :=
  match files with [] => [] | x :: files' => entry inum x :: entry_list (inum + 1) files' end.
Definition root_list (files : list (list Z * list bytes)) : list bytes :=
  dirent 1 (strcpy_name [46]) :: dirent 1 (strcpy_name [46; 46]) :: entry_list 2 files.

Lemma entries_list inum files : entries inum files = concat (entry_list inum files).
Proof. revert inum. induction files as [|x files IH]; intros inum; cbn [entries entry_list concat]; [done|]. by rewrite IH. Qed.

Lemma entry_name inum x : 0 < inum < 2 ^ 16 -> Forall byte_ok x.1 ->
  live (entry inum x) = true /\ de_inum (entry inum x) = inum /\ fname (de_name (entry inum x)) = file_name x.
Proof.
  intros Hi Hx. unfold entry, strncpy_name, file_name.
  assert (Forall byte_ok (skip_underscore x.1)) as Hs.
  { destruct x.1 as [|c n]; [done|]. cbn. apply Forall_cons in Hx as [? ?]. case_match; [done|by apply Forall_cons]. }
  destruct (strncpy_ok _ DIRSIZ Hs) as (w & E & Hl & Hw). rewrite E. change (default [] (Some w)) with w.
  assert (dirent inum w = le16 inum ++ w) as Ed.
  { unfold dirent. assert (xshort inum = inum) as -> by (unfold xshort, le16, get16, get8; cbn [lookup_total list_lookup_total Nat.add]; Z.div_mod_to_equations; lia).
    unfold splice at 1, put16, splice. rewrite take_0. unfold le16 at 1 2 3. cbn [length Nat.add app take drop replicate]. rewrite Hl.
    rewrite drop_ge, app_nil_r; [done|]. cbn. unfold DIRSIZ. lia. }
  rewrite Ed. destruct (new_entry inum w Hi Hl) as (_ & E1 & E2 & E3). rewrite E1, E2. split_and!; [done|done|].
  unfold fname. rewrite (strncpy_cstr _ _ _ E). f_equal.
  clear. induction (skip_underscore x.1) as [|c n IH]; cbn [app cstr]; [done|]. destruct (c =? 0); [done|]. by rewrite IH.
Qed.

Lemma map_of_entries files : forall inum, 0 < inum -> inum + Z.of_nat (length files) < 2 ^ 16 -> Forall arg_ok files ->
  map_of (entry_list inum files) = name_map inum files.
Proof.
  induction files as [|x files IH]; intros inum Hi Hm Ha; [done|]. apply Forall_cons in Ha as [Hx Ha]. cbn [entry_list map_of name_map length] in *.
  destruct (entry_name inum x ltac:(lia) (ar_name _ Hx)) as (-> & -> & ->). by rewrite IH by (done || lia).
Qed.
Lemma map_of_root files : (length files <= 198)%nat -> Forall arg_ok files -> map_of (root_list files) = root_map files.
Proof. intros Hl Ha. unfold root_list, root_map. rewrite <- (map_of_entries files) by (done || lia). reflexivity. Qed.
Lemma root_list_16 files : Forall arg_ok files -> Forall (fun e => length e = 16%nat) (root_list files).
Proof.
  intros H. unfold root_list. apply Forall_cons. split; [done|]. apply Forall_cons. split; [done|]. generalize 2.
  induction H as [|x files Hx H IH]; intros inum; cbn [entry_list]; [done|]. apply Forall_cons. split; [|apply IH].
  by apply entry_ok, Hx.
Qed.
Lemma length_root_list files : length (root_list files) = (2 + length files)%nat.
Proof. unfold root_list. cbn [length]. do 2 f_equal. generalize 2. induction files as [|x files IH]; intros inum; cbn [entry_list length]; [done|]. by rewrite IH. Qed.

Lemma name_map_lookup files nm : forall inum, name_map inum files !! take DIRSIZ nm = (fun k => inum + Z.of_nat k) <$> find_index (is_named nm) files.
Proof.
  induction files as [|x files IH]; intros inum; [done|]. cbn [name_map find_index]. unfold is_named at 1.
  destruct (bool_decide_reflect (file_name x = take DIRSIZ nm)) as [->|Hne].
  - rewrite lookup_insert_eq. cbn. f_equal. lia.
  - rewrite lookup_insert_ne, IH by done. destruct (find_index (is_named nm) files) as [k|]; [|done]. cbn. f_equal. lia.
Qed.
Lemma root_map_named files nm : nm <> [46] -> nm <> [46; 46] ->
  root_map files !! take DIRSIZ nm = (fun k => 2 + Z.of_nat k) <$> find_index (is_named nm) files.
Proof.
  intros H1 H2. unfold root_map. assert (forall y, (length y <= 2)%nat -> nm <> y -> y <> take DIRSIZ nm) as Hdot.
  { intros y Hy Hn' E. apply Hn'. rewrite E in Hy |- *. rewrite length_take in Hy. symmetry. apply take_ge. unfold DIRSIZ in *. lia. }
  rewrite !lookup_insert_ne by (apply Hdot; [cbn; lia|done]). apply name_map_lookup.
Qed.
Lemma elems_one nm : nm <> [] -> ~ (47 ∈ nm) -> elems (47 :: nm) = [nm].
Proof.
  intros Hne Hs. rewrite elems_slash. destruct nm as [|c nm]; [done|]. rewrite elems_step by (intros ->; apply Hs; left).
  assert (forall p, ~ (47 ∈ p) -> elem_len p = length p) as Hel.
  { induction p as [|d p IH]; intros Hp; [done|]. cbn [elem_len length]. rewrite (proj2 (Z.eqb_neq _ _)) by (intros ->; apply Hp; left).
    f_equal. apply IH. intros H. apply Hp. by right. }
  rewrite (Hel _ Hs), drop_all. f_equal. by rewrite take_ge.
Qed.
Lemma root_map_range files nm m : root_map files !! nm = Some m -> 1 <= m <= 1 + Z.of_nat (length files).
Proof.
  assert (forall f inum, name_map inum f !! nm = Some m -> inum <= m < inum + Z.of_nat (length f)) as Hnm.
  { induction f as [|x f IH]; intros inum H; cbn [name_map length] in *; [done|]. apply lookup_insert_Some in H as [[_ <-]|[_ H]]; [lia|].
    apply IH in H. lia. }
  unfold root_map. intros H. apply lookup_insert_Some in H as [[_ <-]|[_ H]]; [lia|]. apply lookup_insert_Some in H as [[_ <-]|[_ H]]; [lia|].
  apply Hnm in H. lia.
Qed.

Definition no_entry : bytes := replicate 16 0.
Lemma concat_zeros k : concat (replicate k no_entry) = replicate (16 * k) 0.
Proof.
  induction k as [|k IH]; [done|]. change (replicate (S k) no_entry) with (no_entry :: replicate k no_entry). cbn [concat].
  rewrite IH. replace (16 * S k)%nat with (16 + 16 * k)%nat by lia. by rewrite replicate_add.
Qed.
Lemma map_of_zeros k : map_of (replicate k no_entry) = ∅.
Proof. induction k as [|k IH]; [done|]. exact IH. Qed.

(** ** The image as a tree *)
Lemma put32_0 d : (4 <= length d)%nat -> Forall byte_ok d -> get32 d 0 = 0 -> put32 0 0 d = d.
Proof.
  intros Hl Hb E. destruct d as [|b0 [|b1 [|b2 [|b3 d]]]]; try (cbn in Hl; lia).
  unfold get32, get8 in E. cbn [lookup_total list_lookup_total Nat.add] in E.
  repeat (apply Forall_cons in Hb as [? Hb]). unfold byte_ok in *.
  assert (b0 = 0) as -> by lia. assert (b1 = 0) as -> by lia. assert (b2 = 0) as -> by lia. assert (b3 = 0) as -> by lia. done.
Qed.
Lemma recovered_same img : bootable 2 30 img [] -> blocks_ok img -> recovered 2 img [] = img.
Proof.
  intros Hb Hok. destruct (bo_image _ _ _ _ Hb) as [[H1 [H2 _]] _ H3].
  assert (2 < length img)%nat as Hl by lia. unfold recovered, recovery_writes. cbn [home_writes app put_blocks].
  unfold head_bytes. cbn [put_entries length]. change (Z.of_nat 0) with 0 in *.
  rewrite put32_0; [by apply list_insert_id, list_lookup_lookup_total_lt|rewrite H1; change (Z.to_nat BSIZE) with 512%nat; lia| |done].
  apply (Forall_lookup_1 _ _ 2%nat (img !!! 2%nat) Hok). by apply list_lookup_lookup_total_lt.
Qed.

Section made.
Context (files : list (list Z * list bytes)) (img : list bytes) (A : list (list Z)).
Context (Hm : made img (contents_of files) A).

Definition in_tree (n : Z) : Prop := 1 <= n <= 1 + Z.of_nat (length files).

Lemma node_is n : in_tree n -> exists a t d, contents_of files !! Z.to_nat (n - 1) = Some (t, d) /\ holds img a n t (size_of (Z.to_nat (n - 1)) d) d /\
  dnode sb img n = inode_with n t (size_of (Z.to_nat (n - 1)) d) a.
Proof using Hm.
  intros Hin. unfold in_tree in Hin. assert (Z.to_nat (n - 1) < length (contents_of files))%nat as Hlt by (cbn [contents_of length]; rewrite length_map; lia).
  apply lookup_lt_is_Some_2 in Hlt as [[t d] E]. destruct (md_files _ _ _ Hm _ _ _ E) as (a & _ & Hh).
  replace (inum_of (Z.to_nat (n - 1))) with n in Hh by (unfold inum_of; lia).
  exists a, t, d. split; [done|]. split; [done|]. exact (hf_inode _ _ _ _ _ _ Hh).
Qed.
Lemma file_node k x : files !! k = Some x -> exists a, holds img a (2 + Z.of_nat k) T_FILE (Z.of_nat (length (file_data x))) (file_data x) /\
  dnode sb img (2 + Z.of_nat k) = inode_with (2 + Z.of_nat k) T_FILE (Z.of_nat (length (file_data x))) a.
Proof using Hm.
  intros Hk. assert (k < length files)%nat as Hlt by (by eapply lookup_lt_Some).
  destruct (node_is (2 + Z.of_nat k)) as (a & t & d & E & Hh & Hd); [unfold in_tree; lia|].
  replace (Z.to_nat (2 + Z.of_nat k - 1)) with (S k) in * by lia. unfold contents_of in E. rewrite lookup_cons in E.
  change (map ?f ?l) with (f <$> l) in E.
  rewrite list_lookup_fmap, Hk in E. cbn in E. injection E as <- <-. by exists a.
Qed.

Definition root_data : bytes := concat (root_list files).
Lemma root_node : exists a, holds img a 1 T_DIR (root_size (Z.of_nat (length root_data))) root_data /\
  dnode sb img 1 = inode_with 1 T_DIR (root_size (Z.of_nat (length root_data))) a.
Proof using Hm.
  destruct (node_is 1) as (a & t & d & E & Hh & Hd); [unfold in_tree; lia|]. change (Z.to_nat (1 - 1)) with 0%nat in *.
  assert (d = root_data /\ t = T_DIR) as [-> ->]; [|by exists a].
  unfold contents_of in E. rewrite lookup_cons in E. apply (inj Some), pair_equal_spec in E as [<- <-]. split; [|done]. unfold root_data, root_list, dots. cbn [concat]. by rewrite entries_list, <- app_assoc.
Qed.

Context (Ha : Forall arg_ok files) (Hn : (length files <= 198)%nat).

Lemma length_root_data : length root_data = (16 * (2 + length files))%nat.
Proof using All. unfold root_data. rewrite length_concat16 by (by apply root_list_16). by rewrite length_root_list. Qed.

Definition padding : nat := Z.to_nat ((root_size (Z.of_nat (length root_data)) - Z.of_nat (length root_data)) / 16).
Lemma root_size_eq : root_size (Z.of_nat (length root_data)) = 16 * Z.of_nat (2 + length files + padding) /\
  Z.of_nat (length root_data) < root_size (Z.of_nat (length root_data)) <= 3584.
Proof using All.
  unfold padding, root_size. rewrite length_root_data, BSIZE_512. set (n := Z.of_nat (2 + length files)).
  replace (Z.of_nat (16 * (2 + length files))) with (16 * n) by lia. assert (2 <= n <= 200) by lia. Z.div_mod_to_equations. lia.
Qed.

Lemma root_file : file img (dnode sb img 1) = concat (root_list files ++ replicate padding no_entry).
Proof using All.
  destruct root_node as (a & Hh & ->). destruct root_size_eq as [Es Hs]. unfold file. cbn [inode_with i_addrs i_size].
  rewrite concat_app, concat_zeros. fold root_data.
  pose proof length_root_data as Hl. apply list_eq. intros k. destruct (decide (k < Z.to_nat (root_size (Z.of_nat (length root_data))))%nat) as [Hk|Hk].
  - rewrite fbytes_lookup by done. rewrite (hf_bytes _ _ _ _ _ _ Hh) by (change (MAXFILE * BSIZE) with 71680; lia).
    replace (Z.to_nat (0 + Z.of_nat k)) with k by lia. destruct (decide (k < length root_data)%nat) as [H|H].
    + rewrite lookup_app_l by done. by rewrite (list_lookup_lookup_total_lt _ _ H).
    + rewrite lookup_app_r, lookup_replicate_2 by lia. by rewrite lookup_ge_None_2 by lia.
  - rewrite !lookup_ge_None_2; [done|rewrite length_app, length_replicate; lia|rewrite length_fbytes; lia].
Qed.
Lemma root_dir : node_dir sb img 1 = root_map files.
Proof using All.
  unfold node_dir, dir_map. rewrite root_file, dirents_concat.
  - rewrite map_of_app, map_of_root, map_of_zeros by done. by rewrite right_id_L by apply _.
  - apply Forall_app. split; [by apply root_list_16|]. apply Forall_replicate. done.
Qed.

Lemma root_ents : ents img (dnode sb img 1) = root_list files ++ replicate padding no_entry.
Proof using All.
  unfold ents. rewrite root_file. apply dirents_concat. apply Forall_app. split; [by apply root_list_16|]. by apply Forall_replicate.
Qed.

(** The names that a search of the root directory settles without reading past
    its blocks: all of them, unless the directory ends at a block boundary,
    where mkfs gives it one more block and does not allocate it *)
Definition settled (nm : list Z) : Prop := root_map files !! nm = None -> ((length files + 2) mod 32 <> 0)%nat.

Lemma root_found nm m : root_map files !! nm = Some m -> exists k, find_index (named nm) (ents img (dnode sb img 1)) = Some k /\ (k < 2 + length files)%nat.
Proof using All.
  intros E. rewrite <- root_dir in E. change (map_of (ents img (dnode sb img 1)) !! nm = Some m) in E. rewrite map_of_find in E.
  destruct (find_index (named nm) (ents img (dnode sb img 1))) as [k|] eqn:F; [|done]. exists k. split; [done|].
  apply find_index_Some in F as [(e & He & Hnd) _]. rewrite root_ents in He. destruct (decide (k < 2 + length files)%nat) as [|Hk]; [done|].
  rewrite lookup_app_r in He by (rewrite length_root_list; lia). apply lookup_replicate in He as [-> _]. done.
Qed.

Lemma root_inode : dir_inode sb img (dnode sb img 1).
Proof using All.
  destruct root_node as (a & Hh & ->). destruct root_size_eq as [Es Hs].
  split; cbn [inode_with i_dev i_type i_addrs i_size]; try done; [apply Hh|change (MAXFILE * BSIZE) with 71680; lia|].
  rewrite Es, Z.mul_comm. by apply Z.mod_mul.
Qed.
Lemma root_whole : ((length files + 2) mod 32 <> 0)%nat -> no_holes img (i_addrs (dnode sb img 1)) (i_size (dnode sb img 1)).
Proof using All.
  intros Hr. pose proof length_root_data as Hl. destruct root_node as (a & Hh & ->). cbn [inode_with i_addrs i_size]. intros bn H1 H2.
  apply (hf_holes _ _ _ _ _ _ Hh); [done|]. unfold root_size in H2. rewrite Hl in *. rewrite BSIZE_512 in *.
  enough (Z.of_nat (16 * (2 + length files)) mod 512 <> 0) by (Z.div_mod_to_equations; lia). intros E. apply Hr.
  apply Nat2Z.inj. rewrite Nat2Z.inj_mod. change (Z.of_nat 32) with 32. change (Z.of_nat 0) with 0. Z.div_mod_to_equations. lia.
Qed.
Lemma root_settled nm : settled nm -> no_holes img (i_addrs (dnode sb img 1)) (searched img (dnode sb img 1) nm 0).
Proof using All.
  intros Hs. pose proof (root_found nm) as Hf. unfold settled in Hs. destruct (root_map files !! nm) as [m|]; cycle 1.
  { apply (searched_whole sb); [apply root_inode|by apply root_whole, Hs]. }
  unfold searched. rewrite drop_0. destruct (Hf m eq_refl) as (k & -> & Hk). pose proof length_root_data as Hl.
  destruct root_node as (a & Hh & ->). cbn [inode_with i_addrs]. intros bn H1 H2. apply (hf_holes _ _ _ _ _ _ Hh); lia.
Qed.
Lemma only_dir n : in_tree n -> i_type (dnode sb img n) = T_DIR -> n = 1.
Proof using All.
  intros Hin Ht. destruct (decide (n = 1)) as [|Hne]; [done|]. unfold in_tree in Hin.
  destruct (lookup_lt_is_Some_2 files (Z.to_nat (n - 2)) ltac:(lia)) as [x Hx]. destruct (file_node _ _ Hx) as (a & _ & E).
  replace (2 + Z.of_nat (Z.to_nat (n - 2))) with n in E by lia. rewrite E in Ht. done.
Qed.
Lemma image_tree : tree_for sb in_tree settled img.
Proof using All.
  split.
  - apply Hm.
  - intros n Hin. split; [unfold inum_ok; rewrite sb_eq; cbn [sb_ninodes]; unfold in_tree in Hin; lia|].
    destruct (decide (n = 1)) as [->|Hne]; [destruct root_node as (a & _ & ->); done|]. unfold in_tree in Hin.
    destruct (lookup_lt_is_Some_2 files (Z.to_nat (n - 2)) ltac:(lia)) as [x Hx]. destruct (file_node _ _ Hx) as (a & _ & E).
    replace (2 + Z.of_nat (Z.to_nat (n - 2))) with n in E by lia. by rewrite E.
  - intros n Hin Ht. rewrite (only_dir n Hin Ht). split; [apply root_inode|apply root_settled].
  - intros n nm m Hin Ht E. rewrite (only_dir n Hin Ht), root_dir in E. by apply root_map_range in E.
Qed.

Lemma image_whole : ((length files + 2) mod 32 <> 0)%nat -> tree_ok sb in_tree img.
Proof using All.
  intros Hr. destruct image_tree as [T1 T2 T3 T4]. split; [done|done| |done]. intros n Hin Ht. destruct (T3 n Hin Ht) as [Hd _].
  split; [done|]. rewrite (only_dir n Hin Ht). by apply root_whole.
Qed.

(** What a path "/nm" leads to *)
Lemma walk_root nm : nm <> [] -> ~ (47 ∈ nm) -> nm <> [46] -> nm <> [46; 46] ->
  walk sb img 1 (elems (47 :: nm)) = (fun k => 2 + Z.of_nat k) <$> find_index (is_named nm) files.
Proof using All.
  intros Hne Hs H1 H2. rewrite (elems_one nm Hne Hs).
  cbn [walk]. assert (is_dir sb img 1 = true) as -> by (unfold is_dir; destruct root_node as (a & _ & ->); done).
  by rewrite root_dir, (root_map_named files nm H1 H2); destruct (find_index (is_named nm) files).
Qed.
End made.

Definition inode0 : inode := mkInode 0 0 0 0 0 0 0 0 0 (replicate 13 0).
Definition icache0 : list inode := replicate NINODE inode0.
Lemma icache0_ref p i : icache0 !! p = Some i -> i_ref i = 0.
Proof. intros H. apply lookup_replicate in H as [-> _]. done. Qed.
Lemma icache0_rc n : rc icache0 n = 0.
Proof. apply rc_none; intros q j Hq; rewrite (icache0_ref q j Hq); lia. Qed.
Lemma icache0_ok B : cache_ok sb B ∅ icache0.
Proof.
  split.
  - intros p i H. by rewrite (icache0_ref p i H).
  - intros p i H. rewrite (icache0_ref p i H). lia.
  - intros p q i j H. rewrite (icache0_ref p i H). lia.
  - set_solver.
Qed.

(** What mkfs's files say about "/nm": the first [n] bytes of the file *)
Definition file_bytes (files : list (list Z * list bytes)) (nm : list Z) (n : Z) : option (Z * bytes) :=
  k ← find_index (is_named nm) files;
  x ← files !! k;
  Some (Z.min n (Z.of_nat (length (file_data x))), take (Z.to_nat n) (file_data x)).

Lemma read_image files img A nm n : Forall arg_ok files -> (length files <= 198)%nat -> made img (contents_of files) A ->
  0 <= n -> nm <> [] -> ~ (47 ∈ nm) -> nm <> [46] -> nm <> [46; 46] ->
  path_data sb img (47 :: nm) n = file_bytes files nm n /\
  (forall m, walk sb img 1 (elems (47 :: nm)) = Some m -> readable_node sb img m).
Proof.
  intros Ha Hl Hm Hn H1 H2 H3 H4. unfold path_data, file_bytes. change ROOTINO with 1. rewrite (walk_root files img A Hm Ha Hl nm H1 H2 H3 H4).
  destruct (find_index (is_named nm) files) as [k|] eqn:F; [|split; [reflexivity|by intros m]].
  destruct (lookup_lt_is_Some_2 files k (find_index_lt _ _ _ F)) as [x Hx]. destruct (file_node files img A Hm k x Hx) as (a & Hh & Ed).
  assert (Z.of_nat (length (file_data x)) <= 71680) as Hsz by (apply (ar_size x); by apply (Forall_lookup_1 _ _ _ _ Ha Hx)).
  cbn [fmap option_fmap option_map mbind option_bind]. rewrite Ed, Hx. cbn [inode_with i_size i_addrs]. split.
  - cbn [mbind option_bind]. do 2 f_equal. apply list_eq. intros j. destruct (decide (j < Z.to_nat (Z.min n (Z.of_nat (length (file_data x)))))%nat) as [Hj|Hj].
    + rewrite fbytes_lookup by done. rewrite (hf_bytes _ _ _ _ _ _ Hh) by (change (MAXFILE * BSIZE) with 71680; lia).
      replace (Z.to_nat (0 + Z.of_nat j)) with j by lia. rewrite lookup_take_lt by lia.
      destruct (lookup_lt_is_Some_2 (file_data x) j ltac:(lia)) as [y ->]. done.
    + rewrite !lookup_ge_None_2; [done|rewrite length_take; lia|rewrite length_fbytes; lia].
  - intros m [= <-]. split; rewrite Ed; cbn [inode_with i_type i_addrs i_size]; [done|apply Hh|change (MAXFILE * BSIZE) with 71680; lia|apply Hh].
Qed.

Lemma icache0_room : room (rc icache0) ∅ (length icache0).
Proof.
  split; [intros m; rewrite icache0_rc; lia|rewrite size_empty; unfold icache0; rewrite length_replicate; unfold NINODE; lia|].
  intros m. rewrite icache0_rc. lia.
Qed.
(** The kernel's file system starts on the image that mkfs makes. *)
Lemma image_boots files sb0 : Forall arg_ok files -> (length files <= 198)%nat ->
  nmeta + total (contents_of files) <= FSSIZE -> exists s A s1, mkfs files = Done s tt /\ made (m_img s) (contents_of files) A /\
    fsinit (mkFs (mkLs (Bio.boot (m_img s)) log0) sb0 icache0) = Done s1 tt /\ idle 2 sb s1 (m_img s) icache0.
Proof.
  intros Ha Hl Ht. destruct (image_made files Ha Hl Ht) as (s & A & E & Hm).
  destruct (fsinit_ok 2 (le_n 2) (m_img s) [] sb0 icache0 (md_boot _ _ _ Hm)) as (s1 & E1 & Hi).
  rewrite (recovered_same _ (md_boot _ _ _ Hm) (dk_blocks _ _ (md_disk _ _ _ Hm))) in Hi.
  assert (decode_sb (m_img s !!! 1%nat) = sb) as Esb by exact (dk_super _ _ (md_disk _ _ _ Hm)). rewrite Esb in Hi.
  exists s, A, s1. split; [exact E|]. split; [exact Hm|]. split; [exact E1|exact Hi].
Qed.

(** C2: From mkfs to the kernel: mkfs makes an image of the files it is given, the
    kernel's file system starts on that image, and reading the path "/nm" then
    returns the first bytes of the first file of that name (names are compared
    in their first 14 characters, without the leading underscore of the
    command line), or finds nothing when there is no such file. For a name
    that is not there the root directory must not end at a block boundary, that
    is, the number of its entries, with "." and "..", is not a multiple of 32:
    mkfs then gives the directory one block more than it allocates, see
    [missing_name_leaks]. *)
Theorem mkfs_boots files devsw_read sb0 name0 nm n : Forall arg_ok files -> (length files <= 198)%nat ->
  nmeta + total (contents_of files) <= FSSIZE ->
  (find_index (is_named nm) files = None -> ((length files + 2) mod 32 <> 0)%nat) ->
  Forall char_ok nm -> nm <> [] -> ~ (47 ∈ nm) -> nm <> [46] -> nm <> [46; 46] -> buffer name0 -> 0 <= n < 2 ^ 31 ->
  exists s s1 s2, mkfs files = Done s tt /\
    fsinit (mkFs (mkLs (Bio.boot (m_img s)) log0) sb0 icache0) = Done s1 tt /\
    read_path devsw_read (47 :: nm) name0 n s1 = Done s2 (file_bytes files nm n).
Proof.
  intros Ha Hl Ht Hr Hc H1 H2 H3 H4 Hb Hn. destruct (image_boots files sb0 Ha Hl Ht) as (s & A & s1 & E & Hm & E1 & Hi).
  destruct (read_image files _ A nm n Ha Hl Hm (proj1 Hn) H1 H2 H3 H4) as [<- Hread].
  destruct (read_path_ok 2 (le_n 2) sb (in_tree files) devsw_read (settled files) s1 (m_img s) ∅ icache0 (47 :: nm) name0 n) as (s2 & l' & E2 & _).
  - by apply (image_tree files _ A).
  - exact Hi.
  - apply icache0_ok.
  - apply icache0_room.
  - unfold in_tree, ROOTINO. lia.
  - reflexivity.
  - apply Forall_cons. split; [|done]. unfold char_ok, byte_ok. lia.
  - exact Hb.
  - exact Hn.
  - rewrite (elems_one nm H1 H2). apply Forall_singleton. unfold settled. rewrite (root_map_named files nm H3 H4).
    intros E3. apply Hr. by destruct (find_index (is_named nm) files).
  - exact Hread.
  - exists s, s1, s2. split; [exact E|]. split; [exact E1|exact E2].
Qed.

(** "/a" is the first file of the example: its four bytes *)
Lemma mkfs_boots_witness : exists s s1 s2, mkfs some_files = Done s tt /\
  fsinit (mkFs (mkLs (Bio.boot (m_img s)) log0) (mkSb 0 0 0 0 0 0 0) icache0) = Done s1 tt /\
  read_path (fun _ => None) [47; 97] (replicate 14 0) 10 s1 = Done s2 (Some (4, [1; 2; 3; 4])).
Proof.
  apply (mkfs_boots some_files (fun _ => None) (mkSb 0 0 0 0 0 0 0) (replicate 14 0) [97] 10 some_files_ok).
  - cbn. lia.
  - vm_compute. discriminate.
  - intros _. vm_compute. discriminate.
  - apply Forall_singleton. unfold char_ok, byte_ok. lia.
  - discriminate.
  - intros H. apply list_elem_of_singleton in H. discriminate.
  - discriminate.
  - discriminate.
  - split; [reflexivity|]. apply Forall_replicate. unfold byte_ok. lia.
  - lia.
Defined.

(** Thirty files fill the root directory's block. mkfs makes the directory 1024
    bytes long, with one block. Looking for "/z" reads the second one: bmap
    allocates a block for it, which no inode on the disk refers to, and another
    one at the next attempt. *)
Definition thirty_files : list (list Z * list bytes) := (fun k => ([97; 97 + Z.of_nat k], [])) <$> seq 0 30.
Definition look : kernel (fsys logst) (option (Z * bytes)) := read_path (fun _ => None) [47; 122] (replicate 14 0) 10.
Definition look_twice : kernel (fsys logst) (list (option (Z * bytes))) := r1 ← look; r2 ← look; mret [r1; r2].
Definition root_after (B : list bytes) : (Z * list Z) * list bool :=
  ((i_size (dnode sb B 1), i_addrs (dnode sb B 1)), used sb B <$> [60; 61; 62]).
Definition on_done {S A C} (o : outcome S A) (f : S -> A -> option C) : option C := match o with Done s a => f s a | _ => None end.
Definition look_thirty : option (list (option (Z * bytes)) * list ((Z * list Z) * list bool)) :=
  on_done (mkfs thirty_files) (fun s _ =>
  on_done (fsinit (mkFs (mkLs (Bio.boot (m_img s)) log0) sb icache0)) (fun s1 _ =>
  on_done (look_twice s1) (fun s2 rs => Some (rs, [root_after (m_img s); root_after (bc_disk (ls_bc (f_store s2)))])))).
Example missing_name_leaks : look_thirty = Some ([None; None],
  [((1024, 59 :: replicate 12 0), [false; false; false]); ((1024, 59 :: replicate 12 0), [true; true; false])]).
Proof. vm_compute. reflexivity. Qed.

(** namei of "/a" on that image finds an inode. *)
Lemma namei_walks_witness : exists s s1 s2 s3 ip, mkfs some_files = Done s tt /\
  fsinit (mkFs (mkLs (Bio.boot (m_img s)) log0) (mkSb 0 0 0 0 0 0 0) icache0) = Done s1 tt /\ begin_op s1 = Done s2 tt /\
  namei (fun _ => None) 0 [47; 97] (replicate 14 0) s2 = Done s3 (Some ip).
Proof.
  assert (length some_files <= 198)%nat as Hl by (cbn; lia).
  assert (nmeta + total (contents_of some_files) <= FSSIZE) as Ht by (vm_compute; discriminate).
  assert ((length some_files + 2) mod 32 <> 0)%nat as Hr by (vm_compute; discriminate).
  destruct (image_boots some_files (mkSb 0 0 0 0 0 0 0) some_files_ok Hl Ht) as (s & A & s1 & E & Hm & E1 & Hi).
  destruct (begin_op_ok 2 (le_n 2) sb s1 (m_img s) icache0 Hi) as (s2 & E2 & H2).
  edestruct (@namei_walks logst mk_dims log_store (log_laws 2 (le_n 2) (m_img s) 1 Nat.lt_0_1 (bc_disk (ls_bc (f_store s1))) (bc_writes (ls_bc (f_store s1)))) sb (in_tree some_files) (fun _ => None) s2 (m_img s) ∅ ∅ icache0 0 [47; 97] (replicate 14 0)) as (s3 & r & l' & E3 & _ & W).
  - exact (image_whole some_files (m_img s) A Hm some_files_ok Hl Hr).
  - exact H2.
  - apply Nat.le_0_l.
  - apply icache0_ok.
  - apply icache0_room.
  - unfold in_tree, ROOTINO. lia.
  - discriminate.
  - repeat constructor; unfold char_ok, byte_ok; lia.
  - split; [reflexivity|]. apply Forall_replicate. unfold byte_ok. lia.
  - assert (walk sb (m_img s) 1 (elems [47; 97]) = Some 2) as Ew.
    { rewrite (walk_root some_files (m_img s) A Hm some_files_ok Hl [97]); [reflexivity|discriminate| |discriminate|discriminate].
      intros H. apply list_elem_of_singleton in H. discriminate. }
    change (start_of icache0 0 [47; 97]) with 1 in W. rewrite Ew in W. destruct W as [_ _ W _]. destruct r as [ip|]; [|destruct W].
    exists s, s1, s2, s3, ip. split; [exact E|]. split; [exact E1|]. split; [exact E2|exact E3].
Defined.
