(* ===== verification/Umalloc.v ===== *)
(** * The user-level allocator (umalloc.c)

    Free blocks form a ring sorted by address that starts at [base]; free
    merges a block with its neighbours, malloc takes the first block that is
    large enough, from its end, and asks sbrk for more when there is none.
    The lemmas of this file follow the loops and the merging; UmallocSpec.v has
    the invariant. *)

From S2P Require Import Prelude Params CString.

Definition HEADER : Z := 8.
(** The memory of the process, freep, and the size of the process. *)
Record heap : Type := mkHeap { h_mem : mem; h_freep : Z; h_brk : Z }.
Definition put_heap_mem (m : mem) (h : heap) : heap := mkHeap m (h_freep h) (h_brk h).
Definition put_freep (p : Z) (h : heap) : heap := mkHeap (h_mem h) p (h_brk h).
Definition put_brk (b : Z) (h : heap) : heap := mkHeap (h_mem h) (h_freep h) b.

(** What sbrk does to a process of [brk] bytes: its new size, or failure. *)
Class Sbrk : Type := grow : Z -> Z -> option Z.
Class SbrkLaws `{Sbrk} : Prop :=
  grow_adds brk n b : 0 <= brk < KERNBASE -> 0 < n < 2 ^ 31 -> grow brk n = Some b -> b = brk + n /\ b < KERNBASE.

Section Umalloc.
(** The address of [base], and the turns a loop is given. *)
Context `{Sbrk} (base : Z) (fuel : nat).

Definition hload (a : Z) : kernel heap Z := kgets (fun h => ld32 (h_mem h) a).
Definition hstore (a v : Z) : kernel heap unit := kmodify (fun h => put_heap_mem (st32 (h_mem h) a v) h).
(** p->s.ptr and p->s.size *)
Definition get_ptr (p : Z) : kernel heap Z := hload p.
Definition get_size (p : Z) : kernel heap Z := hload (p + 4).
Definition set_ptr (p v : Z) : kernel heap unit := hstore p v.
Definition set_size (p v : Z) : kernel heap unit := hstore (p + 4) v.
(** p + n, for a pointer to headers *)
Definition unit_add (p n : Z) : Z := u32 (p + HEADER * n).

Definition sbrk (n : Z) : kernel heap Z := fun h =>
  match grow (h_brk h) (s32 n) with
  | Some b => Done (put_brk b h) (h_brk h)
  | None => Done h (u32 (-1))
  end.

(** for(p = freep; !(bp > p && bp < p->s.ptr); p = p->s.ptr) *)
Fixpoint free_loop (n : nat) (bp p : Z) : kernel heap Z :=
  nx ← get_ptr p;
  if (p <? bp) && (bp <? nx) then mret p
  else if (nx <=? p) && ((p <? bp) || (bp <? nx)) then mret p
  else match n with
       | O => kspin
       | S n' => free_loop n' bp nx
       end.
(** The block joins the next one, or points to it. *)
Definition merge_next (bp p : Z) : kernel heap unit :=
  bsize ← get_size bp; nx ← get_ptr p;
  if unit_add bp bsize =? nx then
    nsize ← get_size nx; set_size bp (u32 (bsize + nsize));;
    nx ← get_ptr p; nn ← get_ptr nx; set_ptr bp nn
  else set_ptr bp nx.
(** The previous one joins the block, or points to it. *)
Definition merge_prev (bp p : Z) : kernel heap unit :=
  psize ← get_size p;
  if unit_add p psize =? bp then
    bsize ← get_size bp; set_size p (u32 (psize + bsize));;
    bnx ← get_ptr bp; set_ptr p bnx
  else set_ptr p bp.
Definition free (ap : Z) : kernel heap unit :=
  let bp := u32 (ap - HEADER) in
  fp ← kgets h_freep;
  p ← free_loop fuel bp fp;
  merge_next bp p;;
  merge_prev bp p;;
  kmodify (put_freep p).

Definition morecore (nu : Z) : kernel heap Z :=
  let nu := if nu <? 4096 then 4096 else nu in
  p ← sbrk (u32 (nu * HEADER));
  if p =? u32 (-1) then mret 0
  else set_size p nu;; free (u32 (p + HEADER));; kgets h_freep.

(** The block taken from *p, with prevp before it. *)
Definition take_block (nunits prevp p size : Z) : kernel heap Z :=
  r ← (if size =? nunits then nx ← get_ptr p; set_ptr prevp nx;; mret p
       else set_size p (u32 (size - nunits));;
            let q := unit_add p (u32 (size - nunits)) in
            set_size q nunits;; mret q);
  kmodify (put_freep prevp);; mret (u32 (r + HEADER)).
Fixpoint malloc_loop (n : nat) (nunits prevp p : Z) : kernel heap Z :=
  size ← get_size p;
  if nunits <=? size then take_block nunits prevp p size
  else
    match n with
    | O => kspin
    | S n' =>
        fp ← kgets h_freep;
        if p =? fp then
          q ← morecore nunits;
          if q =? 0 then mret 0 else nx ← get_ptr q; malloc_loop n' nunits q nx
        else nx ← get_ptr p; malloc_loop n' nunits p nx
    end.
Definition units (nbytes : Z) : Z := u32 (u32 (nbytes + HEADER - 1) / HEADER + 1).
Definition malloc (nbytes : Z) : kernel heap Z :=
  let nunits := units nbytes in
  fp ← kgets h_freep;
  (if fp =? 0 then set_ptr base base;; kmodify (put_freep base);; set_size base 0 else mret tt);;
  prevp ← kgets h_freep;
  p ← get_ptr prevp;
  malloc_loop fuel nunits prevp p.
End Umalloc.

(** ** The ring of free blocks *)
Notation blk := (Z * Z)%type (only parsing).
Definition bend (x : blk) : Z := x.1 + 8 * x.2.
(** [base] has size 0 and still occupies its header. *)
Definition hend (x : blk) : Z := x.1 + 8 * Z.max 1 x.2.
Definition head_addr (l : list blk) (nx : Z) : Z := match l with [] => nx | x :: _ => x.1 end.
Fixpoint ring (m : mem) (l : list blk) (nx : Z) : Prop :=
  match l with
  | [] => True
  | x :: l' => ld32 m x.1 = head_addr l' nx /\ ld32 m (x.1 + 4) = x.2 /\ ring m l' nx
  end.
Definition before (x y : blk) : Prop := hend x <= y.1.
Fixpoint sorted (l : list blk) : Prop :=
  match l with [] => True | x :: l' => Forall (before x) l' /\ sorted l' end.
Definition disj (x y : blk) : Prop := bend x <= y.1 \/ bend y <= x.1.

Lemma head_app l1 l2 nx : head_addr (l1 ++ l2) nx = head_addr l1 (head_addr l2 nx).
Proof. by destruct l1. Qed.
Lemma ring_app m l1 l2 nx : ring m (l1 ++ l2) nx <-> ring m l1 (head_addr l2 nx) /\ ring m l2 nx.
Proof.
  induction l1 as [|x l1 IH]; cbn [app ring]; [tauto|]. rewrite IH, head_app. tauto.
Qed.
Lemma free_ring_frame m m' l nx :
  (forall x a, x ∈ l -> x.1 <= a < x.1 + 8 -> ld8 m' a = ld8 m a) -> ring m l nx -> ring m' l nx.
Proof.
  induction l as [|x l IH]; [done|]. intros Hs (H1 & H2 & H3). cbn. split_and!.
  - rewrite <- H1. unfold ld32. rewrite !(Hs x) by (set_solver || lia). done.
  - rewrite <- H2. unfold ld32. rewrite !(Hs x) by (set_solver || lia). done.
  - apply IH; [|done]. intros y a Hy. apply Hs. by right.
Qed.
Lemma sorted_app l1 l2 : sorted (l1 ++ l2) <-> sorted l1 /\ sorted l2 /\ forall x y, x ∈ l1 -> y ∈ l2 -> before x y.
Proof.
  induction l1 as [|x l1 IH]; cbn [app sorted]; [set_solver|]. rewrite IH, Forall_app, (Forall_forall (before x) l2). set_solver.
Qed.
(** In a sorted list with [y] in it, whatever else there is lies beside it. *)
Lemma sorted_at u y v x : sorted (u ++ y :: v) -> x ∈ u ++ v -> (x ∈ u /\ hend x <= y.1) \/ (x ∈ v /\ hend y <= x.1).
Proof.
  rewrite sorted_app. intros (_ & [Hv _] & Huv) [Hx|Hx]%elem_of_app; [left|right]; split; try done.
  - apply Huv; [done|by left].
  - rewrite Forall_forall in Hv. by apply Hv.
Qed.
Lemma sorted_drop u y v : sorted (u ++ y :: v) -> sorted (u ++ v).
Proof. rewrite !sorted_app. intros (H1 & [H2 H3] & H4). split_and!; [done|done|]. intros a b Ha Hb. apply H4; [done|by right]. Qed.
Lemma sorted_put u y w : sorted u -> sorted w -> (forall x, x ∈ u -> hend x <= y.1) -> (forall x, x ∈ w -> hend y <= x.1) ->
  sorted (u ++ y :: w).
Proof.
  intros Hu Hw Huy Hyw. apply sorted_app. cbn [sorted]. rewrite Forall_forall. split_and!; [done|done|done|].
  intros x z Hx [->|Hz]%elem_of_cons; [by apply Huy|]. specialize (Huy x Hx). specialize (Hyw z Hz). unfold before, hend in *. lia.
Qed.
Lemma sorted_length l lo hi : sorted l -> (forall x, x ∈ l -> lo <= x.1 /\ hend x <= hi) -> lo <= hi -> 8 * Z.of_nat (length l) <= hi - lo.
Proof.
  revert lo. induction l as [|x l IH]; intros lo; cbn [sorted length]; [lia|]. intros [Hx Hl] Hr Hle.
  destruct (Hr x) as [H1 H2]; [by left|].
  specialize (IH (hend x) Hl). rewrite Forall_forall in Hx. unfold hend in *.
  assert (8 * Z.of_nat (length l) <= hi - (x.1 + 8 * Z.max 1 x.2)); [|lia].
  apply IH; [|lia]. intros y Hy. split; [by apply Hx|]. apply Hr. by right.
Qed.

(** ** Finding the place of a block *)
Lemma split_sorted b l : sorted l -> (forall x, x ∈ l -> x.1 <> b) ->
  exists u v, l = u ++ v /\ (forall x, x ∈ u -> x.1 < b) /\ (forall x, x ∈ v -> b < x.1).
Proof.
  induction l as [|x l IH]; [exists [], []; set_solver|]. cbn [sorted]. intros [Hx Hl] Hne.
  destruct (Z.lt_ge_cases x.1 b) as [Hlt|Hge].
  - destruct (IH Hl) as (u & v & -> & Hu & Hv); [set_solver|]. exists (x :: u), v. split_and!; [done| |done].
    intros y [->|Hy]%elem_of_cons; auto.
  - exists [], (x :: l). split_and!; [done|set_solver|]. intros y [->|Hy]%elem_of_cons; [specialize (Hne x ltac:(by left)); lia|].
    rewrite Forall_forall in Hx. specialize (Hx y Hy). unfold before, hend in Hx. lia.
Qed.

(** ** The loop of free *)
Section Walk.
Context (base : Z) (h : heap) (b : Z).

Lemma walk_step n p nx : ld32 (h_mem h) p = nx ->
  free_loop (S n) b p h =
    (if (p <? b) && (b <? nx) then mret p
     else if (nx <=? p) && ((p <? b) || (b <? nx)) then mret p else free_loop n b nx) h.
Proof. intros E. cbn [free_loop]. unfold get_ptr, hload. by rewrite (bind_Done _ _ _ h nx) by (unfold kgets; by rewrite E). Qed.

Lemma walk_up p c : forall n x, ring (h_mem h) (x :: c) p.1 -> sorted (x :: c ++ [p]) -> p.1 < b ->
  free_loop (S (length c) + n) b x.1 h = free_loop n b p.1 h.
Proof.
  induction c as [|y c IH]; intros n x (Hn & _ & Hr) [Hx Hs] Hp; cbn [length Nat.add].
  - rewrite (walk_step _ _ _ Hn). cbn [head_addr]. apply Forall_inv in Hx. unfold before, hend in Hx.
    rewrite (proj2 (Z.ltb_ge b p.1)), andb_false_r, (proj2 (Z.leb_gt _ _)) by lia. done.
  - rewrite (walk_step _ _ _ Hn). cbn [head_addr]. pose proof (Forall_inv Hx) as Hxy. unfold before, hend in Hxy.
    pose proof Hs as Hs'. cbn [app sorted] in Hs. destruct Hs as [Hy _]. rewrite Forall_forall in Hy.
    specialize (Hy p ltac:(set_solver)). unfold before, hend in Hy.
    rewrite (proj2 (Z.ltb_ge b y.1)), andb_false_r, (proj2 (Z.leb_gt _ _)) by lia. cbn [andb]. by apply IH.
Qed.

Lemma walk_down c : forall n x, ring (h_mem h) (x :: c) base -> sorted (x :: c) -> base < b -> b < x.1 ->
  free_loop (S (length c) + n) b x.1 h = free_loop n b base h.
Proof.
  induction c as [|y c IH]; intros n x (Hn & _ & Hr) [Hx Hs] Hb Hbx; cbn [length Nat.add]; rewrite (walk_step _ _ _ Hn); cbn [head_addr].
  - rewrite (proj2 (Z.ltb_ge x.1 b)), (proj2 (Z.ltb_ge b base)) by lia. cbn [andb orb]. by rewrite andb_false_r.
  - pose proof (Forall_inv Hx) as Hxy. unfold before, hend in Hxy.
    rewrite (proj2 (Z.ltb_ge x.1 b)), (proj2 (Z.leb_gt y.1 x.1)) by lia. cbn [andb]. apply IH; try done. lia.
Qed.

Lemma walk_end n p v : ld32 (h_mem h) p = head_addr v base -> p < b -> base <= p -> (forall x, x ∈ v -> b < x.1) ->
  free_loop (S n) b p h = Done h p.
Proof.
  intros Hn Hp Hbp Hv. rewrite (walk_step _ _ _ Hn). destruct v as [|y v]; cbn [head_addr].
  - rewrite (proj2 (Z.ltb_ge b base)), andb_false_r, (proj2 (Z.leb_le base p)), (proj2 (Z.ltb_lt p b)) by lia. done.
  - specialize (Hv y ltac:(by left)). rewrite (proj2 (Z.ltb_lt p b)), (proj2 (Z.ltb_lt b y.1)) by lia. done.
Qed.

(** From wherever freep points, the loop stops before the place of [b]. *)
Lemma walk_free u p v f n :
  ring (h_mem h) (u ++ p :: v) base -> sorted (u ++ p :: v) -> head_addr (u ++ p :: v) 0 = base -> base < b ->
  (forall x, x ∈ u ++ [p] -> x.1 < b) -> (forall x, x ∈ v -> b < x.1) -> f ∈ (u ++ p :: v).*1 ->
  (length (u ++ p :: v) < n)%nat -> free_loop n b f h = Done h p.1.
Proof.
  intros Hr Hs Hh Hb Hu Hv Hf Hn.
  pose proof Hr as Hr'. apply ring_app in Hr' as [Hru [Hp _]].
  assert (base <= p.1 < b) as Hpb.
  { split; [|apply Hu; set_solver]. destruct u as [|x u]; cbn in Hh; [lia|]. cbn in Hs. destruct Hs as [Hx _].
    rewrite Forall_forall in Hx. specialize (Hx p ltac:(set_solver)). unfold before, hend in Hx. lia. }
  assert (forall k x u1 c, u = u1 ++ x :: c -> (length u < k)%nat -> free_loop k b x.1 h = Done h p.1) as Hup.
  { intros k x u1 c -> Hk. rewrite length_app in Hk. cbn [length] in Hk.
    replace k with (S (length c) + S (k - S (S (length c))))%nat by lia. rewrite (walk_up p c).
    - eapply walk_end; [exact Hp|lia|lia|done].
    - apply ring_app in Hru as [_ Hru]. done.
    - rewrite <- app_assoc in Hs. apply sorted_app in Hs as (_ & Hs & _).
      change ((x :: c) ++ p :: v) with (x :: c ++ p :: v) in Hs. replace (x :: c ++ p :: v) with ((x :: c ++ [p]) ++ v) in Hs
        by (cbn; by rewrite <- app_assoc). apply sorted_app in Hs as (Hs & _); exact Hs.
    - lia. }
  assert (forall k, (S (length u) < k)%nat -> free_loop k b base h = Done h p.1) as Hfrombase.
  { intros k Hk. destruct u as [|x u]; cbn in Hh.
    - rewrite <- Hh. destruct k; [lia|]. eapply walk_end; [exact Hp|lia|lia|done].
    - rewrite <- Hh. apply (Hup _ x [] u); [done|lia]. }
  rewrite length_app in Hn. cbn [length] in Hn.
  apply list_elem_of_fmap in Hf as (x & -> & Hx). apply elem_of_app in Hx as [Hx|[->|Hx]%elem_of_cons].
  - apply list_elem_of_split in Hx as (u1 & c & ->). apply (Hup _ x u1 c); [done|lia].
  - destruct n; [lia|]. eapply walk_end; [exact Hp|lia|lia|done].
  - apply list_elem_of_split in Hx as (v1 & c & ->). rewrite length_app in Hn. cbn [length] in Hn.
    replace n with (S (length c) + (n - S (length c)))%nat by lia. rewrite walk_down; [apply Hfrombase; lia| | |done|apply Hv; set_solver].
    + apply ring_app in Hr as [_ (_ & _ & Hr)]. by apply ring_app in Hr as [_ Hr].
    + apply sorted_app in Hs as (_ & [_ Hs] & _). by apply sorted_app in Hs as (_ & Hs & _).
Qed.
End Walk.

(** ** Merging *)

Lemma ld32_frame m m' a : (forall x, a <= x < a + 4 -> ld8 m' x = ld8 m x) -> ld32 m' a = ld32 m a.
Proof. intros E. unfold ld32. rewrite !E by lia. done. Qed.
Lemma st32_frame m a v x : ~ a <= x < a + 4 -> ld8 (st32 m a v) x = ld8 m x.
Proof. intros E. rewrite ld8_st32. case_match; [breflect; lia|done]. Qed.
(** Only the header at [a] was written. *)
Definition header_only (a : Z) (m m' : mem) : Prop := forall x, ~ a <= x < a + 8 -> ld8 m' x = ld8 m x.
Definition small (x : Z) : Prop := 0 <= x < 2 ^ 31.

Lemma merge_next_spec h base b s p v :
  let m := h_mem h in
  ld32 m (b + 4) = s -> ld32 m p = head_addr v base -> p + 8 <= b -> ring m v base -> sorted v ->
  (forall x, x ∈ v -> b + 8 * s <= x.1 /\ 1 <= x.2 /\ small (bend x)) -> 1 <= s -> 0 < base < b -> small (b + 8 * s) ->
  exists m1 s1 v1, merge_next b p h = Done (put_heap_mem m1 h) tt /\ ring m1 ((b, s1) :: v1) base /\
    header_only b m m1 /\ ((v1 = v /\ s1 = s) \/ exists x, v = x :: v1 /\ b + 8 * s = x.1 /\ s1 = s + x.2).
Proof.
  intros m Hs Hp Hpb Hr Hso Hv H1 Hb Hsm. unfold merge_next.
  rewrite (bind_Done (get_size b) _ h h s) by (unfold get_size, hload, kgets; by rewrite <- Hs).
  rewrite (bind_Done (get_ptr p) _ h h (head_addr v base)) by (unfold get_ptr, hload, kgets; by rewrite <- Hp).
  unfold unit_add, HEADER, small in *. rewrite u32_small by lia.
  destruct (Z.eqb_spec (b + 8 * s) (head_addr v base)) as [E|E].
  - destruct v as [|x v]; cbn [head_addr] in *; [lia|]. destruct Hr as (Hn & Hxs & Hr). destruct Hso as [Hx Hso].
    destruct (Hv x) as (H2 & H3 & H4); [by left|]. unfold bend in H4.
    set (m1 := st32 (st32 m (b + 4) (s + x.2)) b (head_addr v base)).
    assert (small (head_addr v base)) as Hsn.
    { unfold small. destruct v as [|y v]; cbn [head_addr]; [lia|]. destruct (Hv y) as (? & ? & ?); [set_solver|]. unfold bend in *. lia. }
    unfold small in Hsn.
    exists m1, (s + x.2), v. split_and!.
    + rewrite (bind_Done (get_size x.1) _ h h x.2) by (unfold get_size, hload, kgets; by rewrite <- Hxs).
      rewrite u32_small by lia. unfold set_size, hstore.
      set (h1 := put_heap_mem (st32 m (b + 4) (s + x.2)) h).
      rewrite (bind_Done _ _ h h1 tt) by reflexivity.
      rewrite (bind_Done (get_ptr p) _ h1 h1 x.1) by (unfold get_ptr, hload, kgets; cbn; rewrite ld32_st32_other by lia; by rewrite Hp).
      rewrite (bind_Done (get_ptr x.1) _ h1 h1 (head_addr v base)) by (unfold get_ptr, hload, kgets; cbn; rewrite ld32_st32_other by lia; by rewrite Hn).
      reflexivity.
    + cbn [ring]. unfold m1. cbn [fst snd]. rewrite ld32_st32_same, u32_small by lia. rewrite ld32_st32_other, ld32_st32_same, u32_small by lia.
      split_and!; [done|done|]. eapply free_ring_frame; [|exact Hr]. intros y a Hy Ha. rewrite !st32_frame; [done| |];
        destruct (Hv y) as (? & ? & ?); try set_solver; lia.
    + intros y Hy. unfold m1. rewrite !st32_frame by lia. done.
    + right. by exists x.
  - set (m1 := st32 m b (head_addr v base)). exists m1, s, v.
    assert (small (head_addr v base)) as Hsn.
    { unfold small. destruct v as [|y v]; cbn [head_addr]; [lia|]. destruct (Hv y) as (? & ? & ?); [set_solver|]. unfold bend in *. lia. }
    unfold small in Hsn. split_and!; [reflexivity| | |by left].
    + cbn [ring]. unfold m1. cbn [fst snd]. rewrite ld32_st32_same, u32_small, ld32_st32_other by lia.
      split_and!; [done|done|]. eapply free_ring_frame; [|exact Hr]. intros y a Hy Ha. rewrite !st32_frame; [done|].
      destruct (Hv y) as (? & ? & ?); [done|]. lia.
    + intros y Hy. unfold m1. rewrite !st32_frame by lia. done.
Qed.
Lemma merge_prev_spec h base b s (p : blk) u v :
  let m := h_mem h in
  ld32 m (p.1 + 4) = p.2 -> ring m u p.1 -> ring m ((b, s) :: v) base ->
  (forall x, x ∈ u -> x.1 + 8 <= p.1) -> hend p <= b -> (forall x, x ∈ v -> b + 8 <= x.1) ->
  0 <= p.2 -> 1 <= s -> 0 < base <= p.1 -> small (b + 8 * s) -> small (head_addr v base) ->
  exists m2 w, merge_prev b p.1 h = Done (put_heap_mem m2 h) tt /\ ring m2 (u ++ w) base /\
    header_only p.1 m m2 /\ (w = p :: (b, s) :: v \/ (bend p = b /\ w = (p.1, p.2 + s) :: v)).
Proof.
  intros m Hps Hu (Hbn & Hbs & Hv) Hup Hpb Hbv H0 H1 Hbase Hsm Hsn. unfold merge_prev, small, hend in *. cbn [fst snd] in *.
  rewrite (bind_Done (get_size p.1) _ h h p.2) by (unfold get_size, hload, kgets; by rewrite <- Hps).
  unfold unit_add, HEADER. rewrite u32_small by lia.
  destruct (Z.eqb_spec (p.1 + 8 * p.2) b) as [E|E].
  - set (m2 := st32 (st32 m (p.1 + 4) (p.2 + s)) p.1 (head_addr v base)). exists m2, ((p.1, p.2 + s) :: v).
    assert (forall x, ~ p.1 <= x < p.1 + 8 -> ld8 m2 x = ld8 m x) as Hfr by (intros x Hx; unfold m2; rewrite !st32_frame by lia; done).
    split_and!; [| |exact Hfr|by right].
    + rewrite (bind_Done (get_size b) _ h h s) by (unfold get_size, hload, kgets; by rewrite <- Hbs).
      rewrite u32_small by lia. unfold set_size, hstore. set (h1 := put_heap_mem (st32 m (p.1 + 4) (p.2 + s)) h).
      rewrite (bind_Done _ _ h h1 tt) by reflexivity.
      rewrite (bind_Done (get_ptr b) _ h1 h1 (head_addr v base)) by (unfold get_ptr, hload, kgets; cbn; rewrite ld32_st32_other by lia; by rewrite Hbn).
      reflexivity.
    + apply ring_app. cbn [ring head_addr fst snd]. split_and!.
      * eapply free_ring_frame; [|exact Hu]. intros x a Hx Ha. apply Hfr. specialize (Hup x Hx). lia.
      * unfold m2. rewrite ld32_st32_same, u32_small by lia. done.
      * unfold m2. rewrite ld32_st32_other, ld32_st32_same, u32_small by lia. done.
      * eapply free_ring_frame; [|exact Hv]. intros x a Hx Ha. apply Hfr. specialize (Hbv x Hx). lia.
  - set (m2 := st32 m p.1 b). exists m2, (p :: (b, s) :: v).
    assert (forall x, ~ p.1 <= x < p.1 + 4 -> ld8 m2 x = ld8 m x) as Hfr by (intros x Hx; unfold m2; by rewrite !st32_frame by lia).
    split_and!; [reflexivity| |intros x Hx; apply Hfr; lia|by left].
    apply ring_app. cbn [ring head_addr fst snd]. split_and!.
    + eapply free_ring_frame; [|exact Hu]. intros x a Hx Ha. apply Hfr. specialize (Hup x Hx). lia.
    + unfold m2. rewrite ld32_st32_same, u32_small by lia. done.
    + rewrite <- Hps. apply ld32_frame. intros x Hx. apply Hfr. lia.
    + rewrite <- Hbn. apply ld32_frame. intros x Hx. apply Hfr. lia.
    + rewrite <- Hbs. apply ld32_frame. intros x Hx. apply Hfr. lia.
    + eapply free_ring_frame; [|exact Hv]. intros x a Hx Ha. apply Hfr. specialize (Hbv x Hx). lia.
Qed.

(** ** The search of malloc *)
Definition last_addr (p : Z) (l : list blk) : Z := match last l with Some x => x.1 | None => p end.
Lemma last_addr_snoc p l y : last_addr p (l ++ [y]) = y.1.
Proof. unfold last_addr. by rewrite last_snoc. Qed.
Lemma last_addr_cons (p : blk) a : exists u y, p :: a = u ++ [y] /\ last_addr p.1 a = y.1.
Proof.
  destruct a as [|x a] using rev_ind; [by exists [], p|]. exists (p :: a), x. split; [done|]. apply last_addr_snoc.
Qed.
Lemma first_fit (k : Z) (l : list blk) :
  (forall x, x ∈ l -> x.2 < k) \/ exists a x c, l = a ++ x :: c /\ k <= x.2 /\ forall y, y ∈ a -> y.2 < k.
Proof.
  induction l as [|x l IH]; [left; set_solver|]. destruct (Z.lt_ge_cases x.2 k) as [Hlt|Hge].
  - destruct IH as [IH|(a & y & c & -> & Hy & Ha)]; [left; intros y [->|Hy]%elem_of_cons; auto|right].
    exists (x :: a), y, c. split_and!; [done|done|]. intros z [->|Hz]%elem_of_cons; auto.
  - right. exists [], x, l. split_and!; [done|done|set_solver].
Qed.

Section Search.
Context `{Sbrk} (fuel : nat) (h : heap) (k : Z).
Notation m := (h_mem h).

Lemma found n prev (x : blk) : ld32 m (x.1 + 4) = x.2 -> k <= x.2 ->
  malloc_loop fuel n k prev x.1 h = take_block k prev x.1 x.2 h.
Proof.
  intros Hx Hk. destruct n; cbn [malloc_loop]; rewrite (bind_Done (get_size x.1) _ h h x.2)
    by (unfold get_size, hload, kgets; by rewrite Hx); by rewrite (proj2 (Z.leb_le _ _)).
Qed.

Lemma skip n prev (x : blk) : ld32 m (x.1 + 4) = x.2 -> x.2 < k ->
  malloc_loop fuel (S n) k prev x.1 h =
    (if x.1 =? h_freep h then
       q ← morecore fuel k; if q =? 0 then mret 0 else nx ← get_ptr q; malloc_loop fuel n k q nx
     else malloc_loop fuel n k x.1 (ld32 m x.1)) h.
Proof.
  intros Hx Hk. cbn [malloc_loop]. rewrite (bind_Done (get_size x.1) _ h h x.2)
    by (unfold get_size, hload, kgets; by rewrite Hx). rewrite (proj2 (Z.leb_gt _ _)) by done.
  rewrite (bind_Done (kgets h_freep) _ h h (h_freep h)) by reflexivity. by destruct (_ =? _).
Qed.

Lemma scan w : forall n prev nx, ring m w nx -> (forall x, x ∈ w -> x.2 < k /\ x.1 <> h_freep h) ->
  malloc_loop fuel (length w + n) k prev (head_addr w nx) h = malloc_loop fuel n k (last_addr prev w) nx h.
Proof.
  induction w as [|x w IH]; intros n prev nx Hr Hsm; [done|]. destruct Hr as (Hn & Hs & Hr).
  destruct (Hsm x) as [H1 H2]; [by left|]. cbn [length Nat.add head_addr]. rewrite skip by done.
  rewrite (proj2 (Z.eqb_neq _ _)), Hn by done. rewrite IH; [|done|set_solver].
  f_equal. unfold last_addr. rewrite last_cons. by destruct (last w).
Qed.

Definition extend (n : nat) : kernel heap Z :=
  q ← morecore fuel k; if q =? 0 then mret 0 else nx ← get_ptr q; malloc_loop fuel n k q nx.
End Search.

Lemma sorted_distinct u y v x : sorted (u ++ y :: v) -> x ∈ u ++ v -> x.1 <> y.1.
Proof. intros Hs Hx. destruct (sorted_at u y v x Hs Hx) as [[_ E]|[_ E]]; unfold hend in E; lia. Qed.
