(* ===== verification/UmallocSpec.v ===== *)
(** * Correctness of the user-level allocator (umalloc.c)

    Live blocks are always disjoint, and neither malloc nor free touches the
    contents of a live block. *)

From S2P Require Import Prelude Params CString Umalloc.

Section Spec.
Context (base lo : Z).
Hypothesis Hbase : 0 < base /\ base + 8 <= lo.

Record ring_ok (m : mem) (nodes : list blk) (hi : Z) : Prop := mkRingOk {
  ro_base : head_addr nodes 0 = base;
  ro_ring : ring m nodes base;
  ro_sort : sorted nodes;
  ro_free x : x ∈ nodes -> x = (base, 0) \/ (lo <= x.1 /\ 1 <= x.2 /\ bend x <= hi)
}.

Lemma find_place m nodes hi b s : ring_ok m nodes hi -> lo <= b -> 1 <= s ->
  (forall x, x ∈ nodes -> disj x (b, s)) ->
  exists u p v, nodes = u ++ p :: v /\ (forall x, x ∈ u ++ [p] -> x.1 < b) /\ (forall x, x ∈ v -> b < x.1).
Proof using Hbase.
  intros Hr Hb Hs Hd. destruct (split_sorted b nodes (ro_sort _ _ _ Hr)) as (u & v & E' & Hu & Hv).
  { intros x Hx. destruct (ro_free _ _ _ Hr x Hx) as [->|(? & ? & _)]; [cbn; lia|].
    destruct (Hd x Hx) as [Hd'|Hd']; unfold bend in Hd'; cbn in Hd'; lia. }
  pose proof (ro_base _ _ _ Hr) as E. destruct u as [|x0 u0] eqn:Eu.
  { exfalso. cbn in E'. subst v. destruct nodes as [|x l]; cbn in E; [lia|]. specialize (Hv x ltac:(by left)). lia. }
  destruct (exists_last (l := x0 :: u0)) as (u' & p & Ep); [done|]. rewrite Ep in *.
  exists u', p, v. rewrite E', <- app_assoc. done.
Qed.

(** The list of free blocks with [(b, s)] in its place, merged or not. *)
Inductive inserted (u : list blk) (p : blk) (b s : Z) (v : list blk) : list blk -> Prop :=
| I_plain : inserted u p b s v (u ++ p :: (b, s) :: v)
| I_next x v' : v = x :: v' -> b + 8 * s = x.1 -> inserted u p b s v (u ++ p :: (b, s + x.2) :: v')
| I_prev : bend p = b -> inserted u p b s v (u ++ (p.1, p.2 + s) :: v)
| I_both x v' : v = x :: v' -> b + 8 * s = x.1 -> bend p = b -> inserted u p b s v (u ++ (p.1, p.2 + (s + x.2)) :: v').

Section Insert.
Context (u : list blk) (p : blk) (b s : Z) (v : list blk) (hi : Z) (nodes : list blk).
Hypothesis Hs : sorted (u ++ p :: v).
Hypothesis Hfree : forall x, x ∈ u ++ p :: v -> x = (base, 0) \/ (lo <= x.1 /\ 1 <= x.2 /\ bend x <= hi).
Hypothesis Hpb : hend p <= b.
Hypothesis Hbv : forall x, x ∈ v -> b + 8 * s <= x.1.
Hypothesis Hb : lo <= b /\ 1 <= s /\ b + 8 * s <= hi.
Hypothesis Hins : inserted u p b s v nodes.

Lemma free_size x : x ∈ u ++ p :: v -> 0 <= x.2.
Proof using Hfree. intros Hx. destruct (Hfree x Hx) as [->|(_ & ? & _)]; cbn; lia. Qed.

Lemma inserted_sorted : sorted nodes.
Proof using All.
  pose proof (free_size p ltac:(set_solver)) as Hp0.
  pose proof (fun x Hx => free_size x (proj2 (elem_of_app u (p :: v) x) (or_intror (proj2 (elem_of_cons v x p) (or_intror Hx))))) as Hv0.
  apply sorted_app in Hs as (Hu & [Hpv Hv] & Huv). rewrite Forall_forall in Hpv.
  assert (forall x, x ∈ u -> hend x <= p.1) as Hup by (intros x Hx; apply Huv; set_solver).
  unfold before, hend in *.
  destruct Hins as [|x v' -> Ex|Ep|x v' -> Ex Ep].
  - apply sorted_put; [done|apply (sorted_put [] (b, s) v)|done|]; try done.
    + by intros ? ?%not_elem_of_nil.
    + intros x Hx. specialize (Hbv x Hx). unfold hend. cbn. lia.
    + intros x [->|Hx]%elem_of_cons; [done|]. specialize (Hbv x Hx). unfold hend in *. lia.
  - destruct Hv as [Hxv Hv]. rewrite Forall_forall in Hxv. pose proof (Hv0 x ltac:(by left)) as Hx0. unfold before, hend in Hxv.
    assert (forall z, z ∈ v' -> b + 8 * (s + x.2) <= z.1) as Hz by (intros z Hz; specialize (Hxv z Hz); lia).
    apply sorted_put; [done|apply (sorted_put [] (b, s + x.2) v')|done|]; try done.
    + by intros ? ?%not_elem_of_nil.
    + intros z Hz'. specialize (Hz z Hz'). unfold hend. cbn. lia.
    + intros z [->|Hz']%elem_of_cons; [done|]. specialize (Hz z Hz'). unfold hend in *. lia.
  - apply sorted_put; [done|done|done|]. intros x Hx. specialize (Hbv x Hx). unfold hend, bend in *. cbn. lia.
  - destruct Hv as [Hxv Hv]. rewrite Forall_forall in Hxv. pose proof (Hv0 x ltac:(by left)) as Hx0. unfold before, hend in Hxv.
    apply sorted_put; [done|done|done|]. intros z Hz. specialize (Hxv z Hz). unfold hend, bend in *. cbn. lia.
Qed.

Lemma inserted_free x : x ∈ nodes -> x = (base, 0) \/ (lo <= x.1 /\ 1 <= x.2 /\ bend x <= hi).
Proof using All.
  pose proof (Hfree p ltac:(set_solver)) as Hp. unfold bend, hend in *.
  destruct Hins as [|y v' -> Ey|Ep|y v' -> Ey Ep]; rewrite elem_of_app, ?elem_of_cons;
    (intros [Hx|Hx]; [apply Hfree; set_solver|]).
  - destruct Hx as [->|[->|Hx]]; [done|right; cbn; lia|apply Hfree; set_solver].
  - pose proof (Hfree y ltac:(set_solver)) as Hy. pose proof (Hbv y ltac:(set_solver)).
    destruct Hx as [->|[->|Hx]]; [done| |apply Hfree; set_solver]. right. cbn. destruct Hy as [->|?]; cbn in *; lia.
  - destruct Hx as [->|Hx]; [|apply Hfree; set_solver]. right. unfold bend in Ep. cbn. destruct Hp as [->|?]; cbn in *; lia.
  - pose proof (Hfree y ltac:(set_solver)) as Hy. pose proof (Hbv y ltac:(set_solver)).
    destruct Hx as [->|Hx]; [|apply Hfree; set_solver]. right. unfold bend in Ep. cbn. destruct Hp as [->|?], Hy as [->|?]; cbn in *; lia.
Qed.

(** What is beside the old blocks and the new one is beside the result. *)
Lemma inserted_disj c : 1 <= c.2 -> (forall x, x ∈ u ++ p :: v -> disj x c) -> disj (b, s) c ->
  forall x, x ∈ nodes -> disj x c.
Proof using All.
  intros Hc Hold Hnew x. pose proof (Hold p ltac:(set_solver)) as Hp. unfold disj, bend, hend in *. cbn [fst snd] in *.
  destruct Hins as [|y v' -> Ey|Ep|y v' -> Ey Ep]; rewrite elem_of_app, ?elem_of_cons;
    (intros [Hx|Hx]; [apply Hold; set_solver|]).
  - destruct Hx as [->|[->|Hx]]; [done|done|apply Hold; set_solver].
  - pose proof (Hold y ltac:(set_solver)) as Hy. destruct Hx as [->|[->|Hx]]; [done|cbn; lia|apply Hold; set_solver].
  - destruct Hx as [->|Hx]; [unfold bend in *; cbn; lia|apply Hold; set_solver].
  - pose proof (Hold y ltac:(set_solver)) as Hy. destruct Hx as [->|Hx]; [unfold bend in *; cbn; lia|apply Hold; set_solver].
Qed.

Lemma inserted_room : exists x, x ∈ nodes /\ s <= x.2.
Proof using All.
  pose proof free_size as Hsz. pose proof (Hsz p ltac:(set_solver)) as Hp0.
  destruct Hins as [|y v' -> Ey|Ep|y v' -> Ey Ep].
  - exists (b, s). cbn. split; [set_solver|lia].
  - exists (b, s + y.2). pose proof (Hsz y ltac:(set_solver)). cbn. split; [set_solver|lia].
  - exists (p.1, p.2 + s). cbn. split; [set_solver|lia].
  - exists (p.1, p.2 + (s + y.2)). pose proof (Hsz y ltac:(set_solver)). cbn. split; [set_solver|lia].
Qed.

Lemma inserted_head : head_addr nodes 0 = head_addr (u ++ p :: v) 0.
Proof using All. destruct Hins; by destruct u. Qed.
Lemma inserted_prev : p.1 ∈ nodes.*1.
Proof using All. destruct Hins; rewrite fmap_app; set_solver. Qed.
End Insert.

(** ** free *)
Lemma free_spec h nodes hi b s fuel :
  let m := h_mem h in
  ring_ok m nodes hi -> h_freep h ∈ nodes.*1 -> lo <= b -> 1 <= s -> b + 8 * s <= hi -> small hi ->
  ld32 m (b + 4) = s -> (forall x, x ∈ nodes -> disj x (b, s)) -> (length nodes < fuel)%nat ->
  exists h' nodes', free fuel (b + 8) h = Done h' tt /\ ring_ok (h_mem h') nodes' hi /\
    h_freep h' ∈ nodes'.*1 /\ h_brk h' = h_brk h /\
    (forall a, (forall x, x ∈ nodes -> ~ x.1 <= a < x.1 + 8) -> ~ b <= a < b + 8 -> ld8 (h_mem h') a = ld8 m a) /\
    (forall c, 1 <= c.2 -> (forall x, x ∈ nodes -> disj x c) -> disj (b, s) c -> forall x, x ∈ nodes' -> disj x c) /\
    (exists x, x ∈ nodes' /\ s <= x.2).
Proof using Hbase.
  intros m Hr Hfp Hlo Hs1 Hhi Hsm Hsz Hd Hf. unfold small in Hsm.
  destruct (find_place m nodes hi b s Hr Hlo Hs1 Hd) as (u & p & v & -> & Hlt & Hgt).
  destruct Hr as [Hbs Hring Hso Hfree]. pose proof Hring as Hring'. apply ring_app in Hring' as [Hu (Hpn & Hps & Hv)].
  pose proof Hso as Hso'. apply sorted_app in Hso' as (_ & [_ Hsv] & Hup).
  assert (base <= p.1 /\ 0 <= p.2 /\ hend p <= b) as (Hbp & Hp2 & Hpb).
  { pose proof (Hfree p ltac:(set_solver)) as Hp. pose proof (Hd p ltac:(set_solver)) as Hdp.
    pose proof (Hlt p ltac:(set_solver)). unfold hend, disj, bend in *. cbn [fst snd] in *.
    destruct Hp as [->|?]; cbn in *; lia. }
  assert (forall x, x ∈ v -> b + 8 * s <= x.1 /\ 1 <= x.2 /\ small (bend x)) as Hvx.
  { intros x Hx. pose proof (Hfree x ltac:(set_solver)) as Hx'. pose proof (Hd x ltac:(set_solver)) as Hdx.
    pose proof (Hgt x Hx). unfold disj, bend, small in *. cbn [fst snd] in *. destruct Hx' as [->|?]; cbn in *; lia. }
  assert (u32 (b + 8 - HEADER) = b) as Hbp' by (unfold HEADER; rewrite u32_small; lia).
  assert (forall x, x ∈ u -> x.1 + 8 <= p.1) as Hup'.
  { intros x Hx. specialize (Hup x p Hx ltac:(by left)). unfold before, hend in Hup. lia. }
  destruct (merge_next_spec h base b s p.1 v) as (m1 & s1 & v1 & Hrun1 & Hr1 & Hfr1 & Hc1); try done;
    [unfold hend in Hpb; lia|lia|unfold small; lia|].
  assert (forall x, x ∈ v1 -> b + 8 * s <= x.1 /\ 1 <= x.2 /\ small (bend x)) as Hvx1.
  { intros x Hx. apply Hvx. destruct Hc1 as [[-> _]|(y & -> & _)]; [done|by right]. }
  assert (1 <= s1 /\ small (b + 8 * s1)) as [Hs1' Hsm1].
  { destruct Hc1 as [[_ ->]|(y & -> & Ey & ->)]; [unfold small; lia|]. destruct (Hvx y) as (? & ? & Hy); [by left|].
    unfold bend, small in *. lia. }
  assert (small (head_addr v1 base)) as Hsn.
  { destruct v1 as [|y v1]; cbn [head_addr]; [unfold small; lia|]. destruct (Hvx1 y) as (? & ? & Hy); [by left|].
    unfold bend, small in *. lia. }
  assert (forall x : blk, x.1 + 8 <= b \/ b + 8 <= x.1 -> ld32 m1 x.1 = ld32 m x.1 /\ ld32 m1 (x.1 + 4) = ld32 m (x.1 + 4)) as Hkeep.
  { intros x Hx. split; apply ld32_frame; intros a Ha; apply Hfr1; lia. }
  destruct (merge_prev_spec (put_heap_mem m1 h) base b s1 p u v1) as (m2 & w & Hrun2 & Hr2 & Hfr2 & Hc2); try done.
  { cbn. destruct (Hkeep p) as [_ ->]; [unfold hend in Hpb; lia|done]. }
  { cbn. eapply free_ring_frame; [|exact Hu]. intros x a Hx Ha. apply Hfr1. specialize (Hup' x Hx). unfold hend in Hpb. lia. }
  { intros x Hx. destruct (Hvx1 x Hx) as (? & _). lia. }
  { lia. }
  assert (inserted u p b s v (u ++ w)) as Hins.
  { destruct Hc1 as [[-> ->]|(y & -> & Ey & ->)], Hc2 as [->|[Ep ->]]; by econstructor. }
  exists (put_freep p.1 (put_heap_mem m2 h)), (u ++ w). cbn [h_mem h_freep h_brk put_freep put_heap_mem] in *.
  assert (forall x, x ∈ v -> b + 8 * s <= x.1) as Hbv by (intros x Hx; by apply Hvx).
  pose proof (conj Hlo (conj Hs1 Hhi)) as Hblk. split_and!.
  - unfold free. rewrite Hbp', (bind_Done (kgets h_freep) _ h h (h_freep h)) by reflexivity.
    rewrite (bind_Done (free_loop fuel b (h_freep h)) _ h h p.1).
    + rewrite (bind_Done _ _ _ _ _ Hrun1), (bind_Done _ _ _ _ _ Hrun2). reflexivity.
    + eapply (walk_free base h b u p v); try done. lia.
  - split; [|done| |].
    + by rewrite (inserted_head u p b s v hi (u ++ w) Hso Hfree Hpb Hbv Hblk Hins).
    + exact (inserted_sorted u p b s v hi (u ++ w) Hso Hfree Hpb Hbv Hblk Hins).
    + exact (inserted_free u p b s v hi (u ++ w) Hso Hfree Hpb Hbv Hblk Hins).
  - exact (inserted_prev u p b s v hi (u ++ w) Hso Hfree Hpb Hbv Hblk Hins).
  - done.
  - intros a Ha Hba. rewrite Hfr2, Hfr1; [done|done|]. apply Ha. set_solver.
  - exact (inserted_disj u p b s v hi (u ++ w) Hso Hfree Hpb Hbv Hblk Hins).
  - exact (inserted_room u p b s v hi (u ++ w) Hso Hfree Hpb Hbv Hblk Hins).
Qed.

Lemma search `{Sbrk} fuel h nodes hi k n :
  ring_ok (h_mem h) nodes hi -> h_freep h ∈ nodes.*1 -> 1 <= k ->
  let run := malloc_loop fuel (length nodes + n) k (h_freep h) (ld32 (h_mem h) (h_freep h)) h in
  (exists u y x v, nodes = u ++ y :: x :: v /\ k <= x.2 /\ run = take_block k y.1 x.1 x.2 h) \/
  ((forall x, x ∈ nodes -> x.2 < k) /\ run = extend fuel k n h).
Proof using Hbase.
  intros [Hb Hr Hs Hfree] Hf Hk run. subst run. apply list_elem_of_fmap in Hf as (f & Ef & Hf).
  apply list_elem_of_split in Hf as (l1 & l2 & ->). rewrite Ef.
  pose proof (fun x Hx => sorted_distinct l1 f l2 x Hs Hx) as Hne.
  pose proof Hr as Hr'. apply ring_app in Hr' as [Hr1 (Hfn & Hfs & Hr2)]. rewrite Hfn.
  rewrite length_app. cbn [length].
  destruct (first_fit k l2) as [Hl2|(a & x & c & -> & Hx & Ha)].
  2:{ left. rewrite head_app. cbn [head_addr]. apply ring_app in Hr2 as [Hra (_ & Hxs & _)].
    destruct (last_addr_cons f a) as (u & y & Ey & El). exists (l1 ++ u), y, x, c. split_and!; [|done|].
    - assert (f :: a ++ x :: c = (u ++ [y]) ++ x :: c) as E by (by rewrite <- Ey). rewrite E, <- !app_assoc. done.
    - rewrite length_app. replace (length l1 + S (length a + length (x :: c)) + n)%nat
        with (length a + (length l1 + S (length (x :: c)) + n))%nat by lia.
      rewrite scan; [|done|intros z Hz; split; [by apply Ha|]; rewrite Ef; apply Hne; set_solver].
      rewrite El. by apply found. }
  replace (length l1 + S (length l2) + n)%nat with (length l2 + (length l1 + S n))%nat by lia.
  rewrite scan; [|done|intros z Hz; split; [by apply Hl2|]; rewrite Ef; apply Hne; set_solver].
  set (prev := last_addr f.1 l2). rewrite head_app in Hb. cbn [head_addr] in Hb, Hr1.
  assert (head_addr l1 f.1 = base) as Hb' by (by destruct l1).
  destruct (first_fit k l1) as [Hl1|(a & x & c & -> & Hx & Ha)].
  2:{ left. apply ring_app in Hr1 as [Hra (_ & Hxs & _)]. rewrite head_app in Hb'.
    destruct a as [|z a]; cbn [head_addr] in *.
    { exfalso. destruct (Hfree x) as [->|(? & _)]; [set_solver|cbn in Hx; lia|lia]. }
    destruct (last_addr_cons z a) as (u & y & Ey & El). exists u, y, x, (c ++ f :: l2). split_and!; [|done|].
    - assert ((z :: a) ++ x :: c = (u ++ [y]) ++ x :: c) as E by (by rewrite <- Ey). rewrite E, <- !app_assoc. done.
    - rewrite length_app. replace (length (z :: a) + length (x :: c) + S n)%nat
        with (length (z :: a) + (length (x :: c) + S n))%nat by lia.
      rewrite <- Hb'. change z.1 with (head_addr (z :: a) x.1) at 1.
      rewrite scan; [|done|intros w Hw; split; [by apply Ha|]; rewrite Ef; apply Hne; set_solver].
      assert (last_addr prev (z :: a) = y.1) as ->; [|by apply found].
      rewrite <- El. unfold last_addr. rewrite last_cons. by destruct (last a). }
  rewrite <- Hb'. rewrite scan; [|done|intros w Hw; split; [by apply Hl1|]; rewrite Ef; apply Hne; set_solver].
  destruct (Z.lt_ge_cases f.2 k) as [Hlt|Hge].
  - right. split.
    + intros x [Hx|[->|Hx]%elem_of_cons]%elem_of_app; auto.
    + rewrite skip, Ef, Z.eqb_refl by done. done.
  - left. destruct l1 as [|z l1].
    { exfalso. cbn in Hb'. destruct (Hfree f) as [->|(? & _)]; [set_solver|cbn in Hge; lia|lia]. }
    destruct (last_addr_cons z l1) as (u & y & Ey & El). exists u, y, f, l2. split_and!; [|done|].
    + assert (z :: l1 = u ++ [y]) as E by exact Ey. rewrite E, <- app_assoc. done.
    + transitivity (malloc_loop fuel (S n) k y.1 f.1 h); [|by apply found].
      apply (f_equal (fun q => malloc_loop fuel (S n) k q f.1 h)).
      rewrite <- El. unfold last_addr. rewrite last_cons. by destruct (last l1).
Qed.

(** ** Taking a block

    [r] is the address of the new block of [k] units, cut from free blocks. *)
Record taken (h : heap) (nodes : list blk) (h' : heap) (nodes' : list blk) (hi r k : Z) : Prop := mkTaken {
  tk_ring : ring_ok (h_mem h') nodes' hi;
  tk_freep : h_freep h' ∈ nodes'.*1;
  tk_brk : h_brk h' = h_brk h;
  tk_size : ld32 (h_mem h') (r + 4) = k;
  tk_range : lo <= r /\ r + 8 * k <= hi;
  tk_apart x : x ∈ nodes' -> disj x (r, k);
  tk_other c : 1 <= c.2 -> (forall x, x ∈ nodes -> disj x c) -> disj (r, k) c /\ forall x, x ∈ nodes' -> disj x c;
  tk_frame a : (forall x, x ∈ nodes -> ~ x.1 <= a < hend x) -> ld8 (h_mem h') a = ld8 (h_mem h) a
}.

Section Take.
Context (h : heap) (u : list blk) (y x : blk) (v : list blk) (hi k : Z).
Hypothesis Hr : ring_ok (h_mem h) (u ++ y :: x :: v) hi.
Hypothesis Hk : 1 <= k <= x.2.
Hypothesis Hhi : small hi.

Lemma take_facts : hend y <= x.1 /\ lo <= x.1 /\ bend x <= hi /\ sorted (u ++ y :: v) /\ sorted v /\
  (forall z, z ∈ u -> hend z <= y.1) /\ (forall z, z ∈ v -> bend x <= z.1) /\ small (head_addr v base) /\ 0 < y.1.
Proof using All.
  destruct Hr as [_ Hring Hs Hfree]. pose proof (Hfree x ltac:(set_solver)) as Hx. unfold bend, small in *.
  assert (u ++ y :: x :: v = (u ++ [y]) ++ x :: v) as E by (by rewrite <- app_assoc).
  pose proof Hs as Hs1. rewrite E in Hs1. pose proof (fun z Hz => sorted_at _ _ _ z Hs1 Hz) as Hat.
  pose proof Hs as Hs2. apply sorted_app in Hs2 as (_ & [Hy [Hxv Hsv]] & Hu). rewrite !Forall_forall in *.
  assert (lo <= x.1 /\ 1 <= x.2 /\ x.1 + 8 * x.2 <= hi) as Hx' by (destruct Hx as [->|?]; [cbn in *; lia|done]).
  assert (forall z, z ∈ v -> x.1 + 8 * x.2 <= z.1) as Hv.
  { intros z Hz. specialize (Hxv z Hz). unfold before, hend in Hxv. lia. }
  split_and!; try lia.
  - apply Hy. by left.
  - rewrite E in Hs. apply sorted_drop in Hs. by rewrite <- app_assoc in Hs.
  - done.
  - intros z Hz. apply Hu; [done|by left].
  - done.
  - destruct v as [|z v']; cbn; [lia|]. specialize (Hv z ltac:(by left)). lia.
  - destruct v as [|z v']; cbn; [lia|]. pose proof (Hfree z ltac:(set_solver)) as Hz. unfold bend in Hz.
    destruct Hz as [->|?]; [cbn; lia|lia].
  - pose proof (Hfree y ltac:(set_solver)) as Hy'. destruct Hy' as [->|?]; [cbn; lia|lia].
Qed.

Lemma take_exact : k = x.2 ->
  exists h', take_block k y.1 x.1 x.2 h = Done h' (x.1 + 8) /\ taken h (u ++ y :: x :: v) h' (u ++ y :: v) hi x.1 k.
Proof using All.
  intros Ek. rewrite Ek. destruct take_facts as (Hyx & Hlo & Hxh & Hs & Hsv & Hu & Hv & Hsm & Hy0).
  destruct Hr as [Hb Hring _ Hfree]. apply ring_app in Hring as [Hru (Hyn & Hys & Hxn & Hxs & Hrv)].
  unfold bend, small, hend in *.
  set (m' := st32 (h_mem h) y.1 (head_addr v base)).
  assert (forall a, ~ y.1 <= a < y.1 + 4 -> ld8 m' a = ld8 (h_mem h) a) as Hfr by (intros a Ha; by apply st32_frame).
  exists (put_freep y.1 (put_heap_mem m' h)). split.
  { unfold take_block. rewrite Z.eqb_refl, bind_assoc.
    rewrite (bind_Done (get_ptr x.1) _ h h (head_addr v base)) by (unfold get_ptr, hload, kgets; by rewrite Hxn).
    unfold mbind, kernel_bind, set_ptr, hstore, kmodify, mret, kernel_ret, HEADER. rewrite u32_small by lia. done. }
  split; cbn [h_mem h_freep h_brk put_freep put_heap_mem].
  - split; [by destruct u| |done|intros z Hz; apply Hfree; set_solver]. apply ring_app. cbn [ring head_addr]. split_and!.
    + eapply free_ring_frame; [|exact Hru]. intros z a Hz Ha. apply Hfr. specialize (Hu z Hz). lia.
    + unfold m'. rewrite ld32_st32_same. apply u32_small. lia.
    + rewrite <- Hys. apply ld32_frame. intros a Ha. apply Hfr. lia.
    + eapply free_ring_frame; [|exact Hrv]. intros z a Hz Ha. apply Hfr. specialize (Hv z Hz). lia.
  - rewrite fmap_app. set_solver.
  - done.
  - etrans; [|exact Hxs]. apply ld32_frame. intros a Ha. apply Hfr. lia.
  - lia.
  - intros z Hz. unfold disj, bend. cbn [fst snd]. apply elem_of_app in Hz as [Hz|[->|Hz]%elem_of_cons].
    + specialize (Hu z Hz). lia.
    + lia.
    + specialize (Hv z Hz). lia.
  - intros c Hc Hold. split; [rewrite <- surjective_pairing; apply Hold; set_solver|]. intros z Hz. apply Hold. set_solver.
  - intros a Ha. apply Hfr. specialize (Ha y ltac:(set_solver)). unfold hend in Ha. lia.
Qed.

Lemma take_end : k < x.2 ->
  exists h' r, take_block k y.1 x.1 x.2 h = Done h' (r + 8) /\
    taken h (u ++ y :: x :: v) h' (u ++ y :: (x.1, x.2 - k) :: v) hi r k.
Proof using All.
  intros Hlt. destruct take_facts as (Hyx & Hlo & Hxh & Hs & Hsv & Hu & Hv & Hsm & Hy0).
  destruct Hr as [Hb Hring _ Hfree]. apply ring_app in Hring as [Hru (Hyn & Hys & Hxn & Hxs & Hrv)].
  unfold bend, small, hend in *. set (r := x.1 + 8 * (x.2 - k)).
  set (m' := st32 (st32 (h_mem h) (x.1 + 4) (x.2 - k)) (r + 4) k).
  assert (forall a, ~ x.1 + 4 <= a < x.1 + 8 * x.2 -> ld8 m' a = ld8 (h_mem h) a) as Hfr.
  { intros a Ha. unfold m'. rewrite !st32_frame by lia. done. }
  exists (put_freep y.1 (put_heap_mem m' h)), r. split.
  { unfold take_block. rewrite (proj2 (Z.eqb_neq _ _)), !(u32_small (x.2 - k)) by lia. unfold unit_add, HEADER. fold r.
    rewrite (u32_small r) by lia. rewrite bind_assoc. unfold set_size, hstore.
    rewrite (bind_Done _ _ h (put_heap_mem (st32 (h_mem h) (x.1 + 4) (x.2 - k)) h) tt) by reflexivity.
    rewrite bind_assoc, (bind_Done _ _ _ (put_heap_mem m' h) tt) by reflexivity.
    rewrite (bind_Done (mret r) _ _ (put_heap_mem m' h) r) by reflexivity.
    unfold mbind, kernel_bind, kmodify, mret, kernel_ret. rewrite u32_small by lia. done. }
  split; cbn [h_mem h_freep h_brk put_freep put_heap_mem].
  - split; [by destruct u| | |].
    + apply ring_app. cbn [ring head_addr fst snd]. split_and!.
      * eapply free_ring_frame; [|exact Hru]. intros z a Hz Ha. apply Hfr. specialize (Hu z Hz). lia.
      * etrans; [|exact Hyn]. apply ld32_frame. intros a Ha. apply Hfr. lia.
      * rewrite <- Hys. apply ld32_frame. intros a Ha. apply Hfr. lia.
      * etrans; [|exact Hxn]. apply ld32_frame. intros a Ha. apply Hfr. lia.
      * unfold m'. rewrite ld32_st32_other, ld32_st32_same, u32_small by lia. done.
      * eapply free_ring_frame; [|exact Hrv]. intros z a Hz Ha. apply Hfr. specialize (Hv z Hz). lia.
    + apply sorted_put; [by apply sorted_app in Hs as (? & _)|apply (sorted_put [] (x.1, x.2 - k) v)|done|]; try done.
      * by intros ? ?%not_elem_of_nil.
      * intros z Hz. specialize (Hv z Hz). unfold hend. cbn. lia.
      * intros z [->|Hz]%elem_of_cons; [cbn; unfold hend; lia|]. specialize (Hv z Hz). unfold hend. lia.
    + intros z [Hz|[->|[->|Hz]%elem_of_cons]%elem_of_cons]%elem_of_app; [apply Hfree; set_solver|apply Hfree; set_solver| |apply Hfree; set_solver].
      right. unfold bend. cbn. lia.
  - rewrite fmap_app. set_solver.
  - done.
  - unfold m'. rewrite ld32_st32_same. apply u32_small. lia.
  - lia.
  - intros z Hz. unfold disj, bend. cbn [fst snd]. apply elem_of_app in Hz as [Hz|[->|[->|Hz]%elem_of_cons]%elem_of_cons].
    + specialize (Hu z Hz). lia.
    + lia.
    + cbn. lia.
    + specialize (Hv z Hz). lia.
  - intros c Hc Hold. pose proof (Hold x ltac:(set_solver)) as Hxc. unfold disj, bend in *. cbn [fst snd] in *. split; [lia|].
    intros z [Hz|[->|[->|Hz]%elem_of_cons]%elem_of_cons]%elem_of_app; [apply Hold; set_solver|apply Hold; set_solver|cbn; lia|apply Hold; set_solver].
  - intros a Ha. apply Hfr. specialize (Ha x ltac:(set_solver)). unfold hend in Ha. lia.
Qed.
End Take.
End Spec.
