(* ===== verification/UmallocSafe.v ===== *)
(** * Clients of the user-level allocator (umalloc.c)

    A program calls malloc, frees blocks it has and writes into them.  Its
    blocks are disjoint and inside its memory, and keep what it wrote. *)

From S2P Require Import Prelude Params CString Umalloc UmallocSpec.

Lemma units_eq nbytes : 0 <= nbytes <= 2 ^ 32 - 8 -> units nbytes = (nbytes + 7) / 8 + 1.
Proof.
  intros Hn. unfold units, HEADER. rewrite (u32_small (nbytes + 8 - 1)) by lia.
  replace (nbytes + 8 - 1) with (nbytes + 7) by lia. apply u32_small. Z.div_mod_to_equations. lia.
Qed.
Lemma units_range nbytes : 0 <= nbytes <= 2 ^ 31 - 16 -> 1 <= units nbytes < 2 ^ 28 /\ nbytes <= 8 * (units nbytes - 1).
Proof. intros Hn. rewrite units_eq by lia. Z.div_mod_to_equations. lia. Qed.

Section Safe.
Context (base lo : Z).
(** [base] is a variable of the program, below the heap. *)
Hypothesis Hbase : 0 < base /\ base + 8 <= lo.

Record heap_ok (h : heap) (nodes live : list blk) : Prop := mkHeapOk {
  ho_ring : ring_ok base lo (h_mem h) nodes (h_brk h);
  ho_freep : h_freep h ∈ nodes.*1;
  ho_live x : x ∈ live -> lo <= x.1 /\ 1 <= x.2 /\ bend x <= h_brk h /\ ld32 (h_mem h) (x.1 + 4) = x.2;
  ho_apart x y : x ∈ nodes -> y ∈ live -> disj x y;
  ho_pairs : ForallOrdPairs disj live;
  ho_brk : lo <= h_brk h < KERNBASE
}.

(** The bytes of the blocks. *)
Definition kept (live : list blk) (h h' : heap) : Prop :=
  forall x a, x ∈ live -> x.1 + 4 <= a < bend x -> ld8 (h_mem h') a = ld8 (h_mem h) a.

Lemma ring_length m nodes hi : ring_ok base lo m nodes hi -> lo <= hi < KERNBASE -> 8 * Z.of_nat (length nodes) <= 2 ^ 31.
Proof using Hbase.
  intros [_ _ Hs Hf] Hh. pose proof (sorted_length nodes base hi Hs) as Hl. unfold KERNBASE in *.
  assert (8 * Z.of_nat (length nodes) <= hi - base); [|lia]. apply Hl; [|lia].
  intros x Hx. unfold bend, hend in *. destruct (Hf x Hx) as [->|?]; cbn; lia.
Qed.

(** An address of a live block is in no free block. *)
Lemma live_outside h nodes live x y a : heap_ok h nodes live -> x ∈ live -> y ∈ nodes -> x.1 <= a < bend x -> ~ y.1 <= a < hend y.
Proof using Hbase.
  intros Hh Hx Hy Ha. pose proof (ho_apart _ _ _ Hh y x Hy Hx) as Hd. pose proof (ro_free _ _ _ _ _ (ho_ring _ _ _ Hh) y Hy) as Hf.
  destruct (ho_live _ _ _ Hh x Hx) as (? & ? & _). unfold disj, bend, hend in *. destruct Hf as [->|?]; cbn in *; lia.
Qed.

Lemma ring_ok_mono m nodes hi hi' : hi <= hi' -> ring_ok base lo m nodes hi -> ring_ok base lo m nodes hi'.
Proof. intros Hle [H1 H2 H3 H4]. split; try done. intros x Hx. destruct (H4 x Hx) as [?|?]; [by left|right; lia]. Qed.

(** The live blocks survive what writes only free blocks. *)
Lemma live_keep h nodes live h' nodes' :
  heap_ok h nodes live -> ring_ok base lo (h_mem h') nodes' (h_brk h') -> h_freep h' ∈ nodes'.*1 ->
  h_brk h <= h_brk h' < KERNBASE -> (forall y, y ∈ live -> forall x, x ∈ nodes' -> disj x y) -> kept live h h' ->
  heap_ok h' nodes' live.
Proof using Hbase.
  intros Hh Hr Hf Hb Hd Hk. split; try done.
  - intros x Hx. destruct (ho_live _ _ _ Hh x Hx) as (H1 & H2 & H3 & H4). split_and!; [done|done|lia|].
    rewrite <- H4. apply ld32_frame. intros a Ha. apply (Hk x a Hx). unfold bend. lia.
  - intros x y Hx Hy. by apply Hd.
  - apply Hh.
  - pose proof (ho_brk _ _ _ Hh). lia.
Qed.

(** A block found in the ring. *)
Lemma take_live h nodes live u y x v k : heap_ok h nodes live -> nodes = u ++ y :: x :: v -> 1 <= k <= x.2 ->
  exists h' r nodes', take_block k y.1 x.1 x.2 h = Done h' (r + 8) /\ heap_ok h' nodes' ((r, k) :: live) /\ kept live h h'.
Proof using Hbase.
  intros Hh En Hk. pose proof (ho_ring _ _ _ Hh) as Hr. pose proof (ho_brk _ _ _ Hh) as Hbrk. rewrite En in Hr.
  assert (small (h_brk h)) as Hsm by (unfold small, KERNBASE in *; lia).
  assert (exists h' r nodes', take_block k y.1 x.1 x.2 h = Done h' (r + 8) /\
    taken base lo h nodes h' nodes' (h_brk h) r k) as (h' & r & nodes' & Hrun & Ht).
  { rewrite En. destruct (Z.eq_dec k x.2) as [E|E].
    - destruct (take_exact base lo Hbase h u y x v (h_brk h) k Hr Hk Hsm E) as (h' & Hrun & Ht). by exists h', x.1, (u ++ y :: v).
    - destruct (take_end base lo Hbase h u y x v (h_brk h) k Hr Hk Hsm) as (h' & r & Hrun & Ht); [lia|].
      by exists h', r, (u ++ y :: (x.1, x.2 - k) :: v). }
  destruct Ht as [T1 T2 T3 T4 T5 T6 T7 T8].
  assert (kept live h h') as Hkept.
  { intros z a Hz Ha. apply T8. intros w Hw. eapply live_outside; [done|exact Hz|exact Hw|lia]. }
  exists h', r, nodes'. split_and!; [done| |done].
  assert (forall z, z ∈ live -> disj (r, k) z /\ forall w, w ∈ nodes' -> disj w z) as Hd.
  { intros z Hz. apply T7; [by destruct (ho_live _ _ _ Hh z Hz) as (_ & ? & _)|]. intros w Hw. by apply (ho_apart _ _ _ Hh). }
  assert (heap_ok h' nodes' live) as Hh'.
  { eapply live_keep; [exact Hh|by rewrite T3|done|rewrite T3; lia| |done]. intros z Hz. by apply Hd. }
  split; try apply Hh'.
  - intros z [->|Hz]%elem_of_cons; [|by apply (ho_live _ _ _ Hh')]. unfold bend. cbn. rewrite T3. split_and!; try lia; done.
  - intros w z Hw [->|Hz]%elem_of_cons; [by apply T6|by apply Hd].
  - constructor; [|apply Hh]. apply Forall_forall. intros z Hz. exact (proj1 (Hd z Hz)).
Qed.

Lemma write_live h nodes live b s a v : heap_ok h nodes live -> (b, s) ∈ live -> b + 8 <= a < b + 8 * s ->
  heap_ok (put_heap_mem (st8 (h_mem h) a v) h) nodes live.
Proof using Hbase.
  intros Hh Hin Ha. pose proof (fun y Hy => live_outside h nodes live (b, s) y a Hh Hin Hy) as Hout.
  unfold bend in Hout. cbn in Hout. destruct Hh as [[R1 R2 R3 R4] G2 G3 G4 G5 G6].
  assert (forall x, x <> a -> ld8 (st8 (h_mem h) a v) x = ld8 (h_mem h) x) as Hfr.
  { intros x Hx. rewrite ld8_st8. by rewrite (proj2 (Z.eqb_neq _ _)). }
  split; cbn; try done.
  - split; try done. eapply free_ring_frame; [|exact R2]. intros x c Hx Hc. apply Hfr. intros ->.
    apply (Hout x Hx); [lia|]. unfold hend. lia.
  - intros x Hx. destruct (G3 x Hx) as (H1 & H2 & H3 & H4). split_and!; try done. rewrite <- H4. apply ld32_frame. intros c Hc.
    apply Hfr. intros ->. assert (x = (b, s) \/ disj x (b, s) \/ disj (b, s) x) as [->|Hd].
    { clear - G5 Hx Hin. induction G5 as [|y l Hf _ IH]; [by apply not_elem_of_nil in Hx|].
      rewrite Forall_forall in Hf. apply elem_of_cons in Hx as [->|Hx]; apply elem_of_cons in Hin as [Hin|Hin]; auto.
      - subst y. auto. }
    + cbn in Hc. lia.
    + unfold disj, bend in Hd. cbn in Hd. lia.
Qed.

(** More turns than two rounds of the ring can have. *)
Context (fuel : nat).
Hypothesis Hfuel : 2 ^ 29 + 8 <= Z.of_nat fuel.

(** ** free *)
Lemma free_live h nodes l1 b s l2 : heap_ok h nodes (l1 ++ (b, s) :: l2) ->
  exists h' nodes', free fuel (b + 8) h = Done h' tt /\ heap_ok h' nodes' (l1 ++ l2) /\ kept (l1 ++ l2) h h'.
Proof using Hbase Hfuel.
  intros Hh. destruct (ho_live _ _ _ Hh (b, s)) as (H1 & H2 & H3 & H4); [set_solver|]. cbn [fst snd] in *. unfold bend in H3; cbn in H3.
  assert (forall y, y ∈ l1 ++ l2 -> disj (b, s) y) as Hbd.
  { intros y Hy. pose proof (ho_pairs _ _ _ Hh) as Hp. clear - Hp Hy. induction l1 as [|z l1 IH]; cbn in *.
    - inversion_clear Hp as [|? ? Hf _]. rewrite Forall_forall in Hf. by apply Hf.
    - inversion_clear Hp as [|? ? Hf Hp']. apply elem_of_cons in Hy as [->|Hy]; [|by apply IH].
      rewrite Forall_forall in Hf. specialize (Hf (b, s) ltac:(set_solver)). unfold disj in *. tauto. }
  destruct (free_spec base lo Hbase h nodes (h_brk h) b s fuel) as (h' & nodes' & Hrun & Hr' & Hf' & Hb' & Hfr & Hdj & _); try done.
  { apply Hh. } { apply Hh. }
  { pose proof (ho_brk _ _ _ Hh). unfold small, KERNBASE in *. lia. }
  { intros x Hx. apply (ho_apart _ _ _ Hh); set_solver. }
  { pose proof (ring_length _ _ _ (ho_ring _ _ _ Hh) (ho_brk _ _ _ Hh)). lia. }
  assert (kept (l1 ++ l2) h h') as Hk.
  { intros x a Hx Ha. apply Hfr.
    - intros y Hy Hya. apply (live_outside h nodes (l1 ++ (b, s) :: l2) x y a Hh); [set_solver|done|lia|].
      pose proof (ro_free _ _ _ _ _ (ho_ring _ _ _ Hh) y Hy). unfold hend. lia.
    - specialize (Hbd x Hx). unfold disj, bend in *. cbn in *. lia. }
  exists h', nodes'. split_and!; [done| |done].
  assert (heap_ok h nodes (l1 ++ l2)) as Hh'.
  { destruct Hh as [G1 G2 G3 G4 G5 G6]. split; try done.
    - intros x Hx. apply G3. set_solver.
    - intros x y Hx Hy. apply G4; [done|set_solver].
    - clear - G5. induction l1 as [|z l1 IH]; cbn in *; inversion_clear G5 as [|? ? Hf Hp]; [done|].
      constructor; [|by apply IH]. rewrite !Forall_forall in *. intros y Hy. apply Hf. set_solver. }
  apply (live_keep h nodes (l1 ++ l2) h' nodes'); rewrite ?Hb'; try done.
  - pose proof (ho_brk _ _ _ Hh). lia.
  - intros y Hy x Hx. apply (Hdj y); [|intros z Hz; apply (ho_apart _ _ _ Hh'); done|by apply Hbd|done].
    destruct (ho_live _ _ _ Hh' y Hy) as (_ & ? & _). done.
Qed.

(** ** malloc *)
Context `{SbrkLaws}.

Lemma morecore_live h nodes live k : heap_ok h nodes live -> 1 <= k < 2 ^ 28 ->
  (grow (h_brk h) (8 * Z.max k 4096) = None /\ morecore fuel k h = Done h 0) \/
  (exists h' nodes', morecore fuel k h = Done h' (h_freep h') /\ heap_ok h' nodes' live /\ kept live h h' /\
     h_freep h' <> 0 /\ exists x, x ∈ nodes' /\ k <= x.2).
Proof using Hbase Hfuel H0.
  intros Hh Hk. unfold morecore. set (nu := if k <? 4096 then 4096 else k).
  assert (nu = Z.max k 4096) as Hnu by (unfold nu; destruct (Z.ltb_spec k 4096); lia).
  assert (s32 (u32 (nu * HEADER)) = 8 * nu) as Hn.
  { unfold HEADER. rewrite u32_small by lia. replace (nu * 8) with (8 * nu) by lia. apply s32_small. lia. }
  pose proof (ho_brk _ _ _ Hh) as Hbrk. unfold KERNBASE in Hbrk.
  destruct (grow (h_brk h) (8 * nu)) as [b|] eqn:Eg.
  2:{ left. rewrite <- Hnu. split; [done|]. rewrite (bind_Done (sbrk (u32 (nu * HEADER))) _ h h (u32 (-1))); [done|].
    unfold sbrk. by rewrite Hn, Eg. }
  destruct (grow_adds (h_brk h) (8 * nu) b) as [-> Hb]; [unfold KERNBASE; lia|lia|done|]. right. unfold KERNBASE in Hb.
  set (h1 := put_heap_mem (st32 (h_mem h) (h_brk h + 4) nu) (put_brk (h_brk h + 8 * nu) h)).
  assert (forall a, ~ h_brk h + 4 <= a < h_brk h + 8 -> ld8 (h_mem h1) a = ld8 (h_mem h) a) as Hfr1.
  { intros a Ha. apply st32_frame. lia. }
  assert (ring_ok base lo (h_mem h1) nodes (h_brk h1)) as Hr1.
  { eapply ring_ok_mono; [|destruct (ho_ring _ _ _ Hh) as [R1 R2 R3 R4]; split; [done| |done|exact R4]]; [cbn; lia|].
    eapply free_ring_frame; [|exact R2]. intros x a Hx Ha. apply Hfr1. unfold bend in R4. destruct (R4 x Hx) as [->|?]; cbn in *; lia. }
  destruct (free_spec base lo Hbase h1 nodes (h_brk h1) (h_brk h) nu fuel)
    as (h' & nodes' & Hrun & Hr' & Hf' & Hb' & Hfr & Hdj & (x & Hx & Hxn)); try done.
  { apply Hh. } { lia. } { lia. } { unfold small. cbn. lia. }
  { cbn. rewrite ld32_st32_same, u32_small by lia. done. }
  { intros x Hx. unfold disj, bend. cbn. destruct (ro_free _ _ _ _ _ (ho_ring _ _ _ Hh) x Hx) as [->|(? & ? & E)]; [cbn; lia|].
    unfold bend in E. lia. }
  { pose proof (ring_length _ _ _ (ho_ring _ _ _ Hh) (ho_brk _ _ _ Hh)). lia. }
  assert (kept live h h') as Hk'.
  { intros z a Hz Ha. destruct (ho_live _ _ _ Hh z Hz) as (? & ? & Hzb & _).
    rewrite Hfr, Hfr1; [done|lia| |lia]. intros w Hw Hwa. eapply (live_outside h nodes live z w a); try done; [lia|].
    unfold hend. lia. }
  exists h', nodes'. split_and!.
  - rewrite (bind_Done (sbrk (u32 (nu * HEADER))) _ h (put_brk (h_brk h + 8 * nu) h) (h_brk h))
      by (unfold sbrk; by rewrite Hn, Eg).
    rewrite (proj2 (Z.eqb_neq _ _)) by (change (u32 (-1)) with 4294967295; lia).
    rewrite (bind_Done (set_size (h_brk h) nu) _ _ h1 tt) by reflexivity. unfold HEADER. rewrite (u32_small (h_brk h + 8)) by lia.
    rewrite (bind_Done _ _ _ _ _ Hrun). done.
  - apply (live_keep h nodes live h' nodes'); rewrite ?Hb'; try done; [cbn; unfold KERNBASE; lia|].
    intros y Hy. destruct (ho_live _ _ _ Hh y Hy) as (? & ? & Hyb & _). apply Hdj; [done| |].
    + intros z Hz. by apply (ho_apart _ _ _ Hh).
    + unfold disj, bend in *. cbn. lia.
  - done.
  - apply list_elem_of_fmap in Hf' as (z & -> & Hz). destruct (ro_free _ _ _ _ _ Hr' z Hz) as [->|?]; [cbn; lia|lia].
  - exists x. split; [done|]. lia.
Qed.

Lemma kept_trans live h h1 h2 : kept live h h1 -> kept live h1 h2 -> kept live h h2.
Proof. intros H1 H2 x a Hx Ha. rewrite (H2 x a Hx Ha). exact (H1 x a Hx Ha). Qed.

Lemma search_live h nodes live k n : heap_ok h nodes live -> 1 <= k < 2 ^ 28 -> 2 ^ 29 <= Z.of_nat n ->
  let run := malloc_loop fuel n k (h_freep h) (ld32 (h_mem h) (h_freep h)) h in
  (run = Done h 0 /\ grow (h_brk h) (8 * Z.max k 4096) = None) \/
  exists h' r nodes', run = Done h' (r + 8) /\ heap_ok h' nodes' ((r, k) :: live) /\ kept live h h'.
Proof using Hbase Hfuel H0.
  intros Hh Hk Hn. pose proof (ring_length _ _ _ (ho_ring _ _ _ Hh) (ho_brk _ _ _ Hh)) as Hl.
  replace n with (length nodes + (n - length nodes))%nat by lia.
  destruct (search base lo Hbase fuel h nodes (h_brk h) k (n - length nodes)) as [(u & y & x & v & En & Hx & Hrun)|[Hall Hrun]];
    [apply Hh|apply Hh|lia| |]; rewrite Hrun.
  { right. destruct (take_live h nodes live u y x v k) as (h' & r & nodes' & Hrun' & Hh' & Hk'); [done|done|lia|].
    exists h', r, nodes'. done. }
  unfold extend. destruct (morecore_live h nodes live k Hh Hk) as [[Hg Hrun1]|(h1 & nodes1 & Hrun1 & Hh1 & Hk1 & Hf1 & (x1 & Hx1 & Hkx))].
  { left. rewrite (bind_Done _ _ _ _ _ Hrun1). done. }
  right. rewrite (bind_Done _ _ _ _ _ Hrun1), (proj2 (Z.eqb_neq _ 0)) by done.
  rewrite (bind_Done (get_ptr (h_freep h1)) _ h1 h1 (ld32 (h_mem h1) (h_freep h1))) by reflexivity.
  pose proof (ring_length _ _ _ (ho_ring _ _ _ Hh1) (ho_brk _ _ _ Hh1)) as Hl1.
  replace (n - length nodes)%nat with (length nodes1 + (n - length nodes - length nodes1))%nat by lia.
  destruct (search base lo Hbase fuel h1 nodes1 (h_brk h1) k (n - length nodes - length nodes1))
    as [(u & y & x & v & En & Hx & Hrun2)|[Hall2 _]]; [apply Hh1|apply Hh1|lia| |].
  2:{ specialize (Hall2 x1 Hx1). lia. }
  rewrite Hrun2. destruct (take_live h1 nodes1 live u y x v k) as (h' & r & nodes' & Hrun' & Hh' & Hk'); [done|done|lia|].
  exists h', r, nodes'. split_and!; [done|done|by eapply kept_trans].
Qed.

(** Before the first call nothing is set up and nothing is live. *)
Definition heap_inv (h : heap) (live : list blk) : Prop :=
  (h_freep h = 0 /\ live = [] /\ lo <= h_brk h < KERNBASE) \/ exists nodes, heap_ok h nodes live.

Lemma malloc_live h live nbytes : heap_inv h live -> 0 <= nbytes <= 2 ^ 31 - 16 ->
  exists h' p, malloc base fuel nbytes h = Done h' p /\ kept live h h' /\
    ((p = 0 /\ heap_inv h' live /\ grow (h_brk h) (8 * Z.max (units nbytes) 4096) = None) \/
     (exists r, p = r + 8 /\ lo <= r /\ heap_inv h' ((r, units nbytes) :: live))).
Proof using Hbase Hfuel H0.
  intros Hi Hn. destruct (units_range nbytes Hn) as [Hu _]. set (k := units nbytes) in *.
  assert (exists h1 nodes, heap_ok h1 nodes live /\ kept live h h1 /\ h_brk h1 = h_brk h /\
    malloc base fuel nbytes h = malloc_loop fuel fuel k (h_freep h1) (ld32 (h_mem h1) (h_freep h1)) h1)
    as (h1 & nodes & Hh & Hk1 & Hb1 & Hrun).
  { unfold malloc. fold k. destruct Hi as [(Hf & -> & Hb)|(nodes & Hh)].
    - set (m1 := st32 (st32 (h_mem h) base base) (base + 4) 0). set (h1 := put_heap_mem m1 (put_freep base h)).
      unfold KERNBASE in Hb. exists h1, [(base, 0)]. split_and!; [|by intros x a ?%not_elem_of_nil|done|].
      + split; cbn; try done; try set_solver; [|constructor]. split; cbn; try done; try set_solver. unfold m1.
        rewrite ld32_st32_other, !ld32_st32_same, !u32_small by lia. done.
      + rewrite (bind_Done (kgets h_freep) _ h h 0) by (unfold kgets; by rewrite Hf).
        rewrite Z.eqb_refl. rewrite (bind_Done _ _ h h1 tt) by reflexivity. reflexivity.
    - exists h, nodes. split_and!; [done|done|done|].
      rewrite (bind_Done (kgets h_freep) _ h h (h_freep h)) by reflexivity.
      assert (h_freep h <> 0) as Hnz.
      { pose proof (ho_freep _ _ _ Hh) as Hf. apply list_elem_of_fmap in Hf as (z & -> & Hz).
        destruct (ro_free _ _ _ _ _ (ho_ring _ _ _ Hh) z Hz) as [->|?]; [cbn; lia|lia]. }
      rewrite (proj2 (Z.eqb_neq _ 0)) by done. reflexivity. }
  destruct (search_live h1 nodes live k fuel Hh Hu ltac:(lia)) as [[Hr Hg]|(h' & r & nodes' & Hr & Hh' & Hk')].
  - exists h1, 0. rewrite Hrun, Hr. split_and!; [done|done|]. left. rewrite <- Hb1. split_and!; [done|right; by exists nodes|done].
  - exists h', (r + 8). rewrite Hrun, Hr. split_and!; [done|by eapply kept_trans|]. right. exists r. split_and!; [done| |right; by exists nodes'].
    destruct (ho_live _ _ _ Hh' (r, k)) as (? & _); [by left|done].
Qed.

(** ** Sequences of calls *)
Definition prog_state : Type := heap * list blk.
Inductive client : prog_state -> prog_state -> Prop :=
| U_malloc h live n h' p : 0 <= n <= 2 ^ 31 - 16 -> malloc base fuel n h = Done h' p ->
    client (h, live) (h', if p =? 0 then live else (p - 8, units n) :: live)
| U_free h l1 b s l2 h' : free fuel (b + 8) h = Done h' tt -> client (h, l1 ++ (b, s) :: l2) (h', l1 ++ l2)
| U_write h live b s a v : (b, s) ∈ live -> b + 8 <= a < b + 8 * s ->
    client (h, live) (put_heap_mem (st8 (h_mem h) a v) h, live).

Lemma client_inv x y : client x y -> heap_inv x.1 x.2 -> heap_inv y.1 y.2.
Proof using Hbase Hfuel H0.
  intros Hst Hi. destruct Hst as [h live n h' p Hn Hrun|h l1 b s l2 h' Hrun|h live b s a v Hin Ha]; cbn [fst snd] in *.
  - destruct (malloc_live h live n Hi Hn) as (h2 & p2 & Hrun2 & _ & Hc). rewrite Hrun in Hrun2. injection Hrun2 as -> ->.
    destruct Hc as [(-> & Hi' & _)|(r & -> & Hlo & Hi')]; [done|]. rewrite (proj2 (Z.eqb_neq _ 0)) by lia.
    by replace (r + 8 - 8) with r by lia.
  - destruct Hi as [(_ & E & _)|(nodes & Hh)]; [by destruct l1|].
    destruct (free_live h nodes l1 b s l2 Hh) as (h2 & nodes2 & Hrun2 & Hh2 & _). rewrite Hrun in Hrun2. injection Hrun2 as ->.
    right. by exists nodes2.
  - destruct Hi as [(_ & -> & _)|(nodes & Hh)]; [by apply not_elem_of_nil in Hin|]. right. exists nodes. by eapply write_live.
Qed.

(** C6: In any run of a program that calls malloc, frees blocks it has and writes
    only into them: its blocks are disjoint, between the start of the heap and
    the end of its memory; the next malloc (of up to 2^31 - 16 bytes) returns,
    either 0 because sbrk refused, or a block of at least the size asked for,
    disjoint from all others; freeing any block returns; and neither call
    changes a byte of another block. *)
Theorem malloc_safe h0 h live :
  h_freep h0 = 0 -> lo <= h_brk h0 < KERNBASE -> rtc client (h0, []) (h, live) ->
  ForallOrdPairs disj live /\ (forall x, x ∈ live -> lo <= x.1 /\ bend x <= h_brk h) /\
  (forall n, 0 <= n <= 2 ^ 31 - 16 -> exists h' p, malloc base fuel n h = Done h' p /\ kept live h h' /\
     ((p = 0 /\ grow (h_brk h) (8 * Z.max (units n) 4096) = None) \/
      (n <= 8 * (units n - 1) /\ lo + 8 <= p /\ bend (p - 8, units n) <= h_brk h' /\
       forall x, x ∈ live -> disj (p - 8, units n) x))) /\
  (forall l1 b s l2, live = l1 ++ (b, s) :: l2 ->
     exists h', free fuel (b + 8) h = Done h' tt /\ kept (l1 ++ l2) h h').
Proof using Hbase Hfuel H0.
  intros Hf Hb Hst. assert (heap_inv h live) as Hi.
  { assert (forall x y, rtc client x y -> heap_inv x.1 x.2 -> heap_inv y.1 y.2) as Hall.
    { intros x y Hxy Hx. induction Hxy as [|x y z Hxy _ IH]; [done|]. apply IH. by eapply client_inv. }
    apply (Hall _ _ Hst). by left. }
  split_and!.
  - destruct Hi as [(_ & -> & _)|(nodes & Hh)]; [constructor|apply Hh].
  - intros x Hx. destruct Hi as [(_ & -> & _)|(nodes & Hh)]; [by apply not_elem_of_nil in Hx|].
    by destruct (ho_live _ _ _ Hh x Hx) as (? & _ & ? & _).
  - intros n Hn. destruct (malloc_live h live n Hi Hn) as (h' & p & Hrun & Hk & Hc). exists h', p. split_and!; [done|done|].
    destruct Hc as [(-> & _ & Hg)|(r & -> & Hlo & Hi')]; [by left|right]. replace (r + 8 - 8) with r by lia.
    destruct Hi' as [(_ & ? & _)|(nodes & Hh)]; [done|]. destruct (ho_live _ _ _ Hh (r, units n)) as (_ & _ & Hbr & _); [by left|].
    split_and!; [by apply units_range|lia|done|]. pose proof (ho_pairs _ _ _ Hh) as Hp. inversion_clear Hp as [|? ? Hfa _].
    rewrite Forall_forall in Hfa. done.
  - intros l1 b s l2 ->. destruct Hi as [(_ & E & _)|(nodes & Hh)]; [by destruct l1|].
    destruct (free_live h nodes l1 b s l2 Hh) as (h' & nodes' & Hrun & _ & Hk). by exists h'.
Qed.
End Safe.

(** ** A process whose memory can grow to 1 GB *)
#[local] Instance demo_sbrk : Sbrk := fun brk n =>
  if (0 <=? n) && (brk + n <? 2 ^ 30) then Some (brk + n) else None.
#[local] Instance demo_laws : SbrkLaws.
Proof.
  intros brk n b Hb Hn. unfold grow, demo_sbrk. case_match; [|done]. intros [= <-]. breflect. unfold KERNBASE. lia.
Qed.
Definition demo_heap : heap := mkHeap ∅ 0 12288.
Definition demo_fuel : nat := Z.to_nat (2 ^ 30).

(** One block of 100 bytes is live, and another one is asked for. *)
Lemma malloc_safe_witness : exists h live h' p,
  rtc (client 4096 demo_fuel) (demo_heap, []) (h, live) /\ length live = 1%nat /\
  malloc 4096 demo_fuel 1000 h = Done h' p /\ kept live h h'.
Proof.
  assert (0 < 4096 /\ 4096 + 8 <= 8192) as Hb by (split; [reflexivity|discriminate]).
  assert (2 ^ 29 + 8 <= Z.of_nat demo_fuel) as Hf by (unfold demo_fuel; rewrite Z2Nat.id; discriminate).
  destruct (malloc_live 4096 8192 Hb demo_fuel Hf demo_heap [] 100) as (h & p & Hrun & _ & Hc).
  { left. split; [reflexivity|]. split; [reflexivity|]. split; [discriminate|reflexivity]. }
  { split; discriminate. }
  destruct Hc as [(_ & _ & Hg)|(r & -> & Hlo & _)]; [discriminate Hg|].
  assert ((r + 8 =? 0) = false) as Hnz by (apply Z.eqb_neq; lia).
  assert (rtc (client 4096 demo_fuel) (demo_heap, []) (h, [(r + 8 - 8, units 100)])) as Hst.
  { apply rtc_once. pose proof (U_malloc 4096 demo_fuel demo_heap [] 100 h (r + 8)) as Hs. rewrite Hnz in Hs.
    apply Hs; [split; discriminate|exact Hrun]. }
  destruct (malloc_safe 4096 8192 Hb demo_fuel Hf demo_heap h [(r + 8 - 8, units 100)]) as (_ & _ & Hm & _);
    [reflexivity|split; [discriminate|reflexivity]|exact Hst|].
  destruct (Hm 1000) as (h' & p' & Hrun' & Hk & _); [split; discriminate|].
  exists h, [(r + 8 - 8, units 100)], h', p'. split; [exact Hst|]. split; [reflexivity|]. split; [exact Hrun'|exact Hk].
Defined.

(** The size computation of malloc wraps around: asked for 2^32 - 1 bytes it
    looks for a block of one unit, which holds nothing. *)
Theorem malloc_size_wraps : units (2 ^ 32 - 1) = 1 /\ forall n, 0 <= n <= 2 ^ 32 - 8 -> n <= 8 * (units n - 1).
Proof. split; [reflexivity|]. intros n Hn. rewrite units_eq by done. Z.div_mod_to_equations. lia. Qed.
