(* ===== verification/UmallocSbrk.v ===== *)
(** * sbrk for the user-level allocator (proc.c, vm.c)

    What growproc makes of the size of a process satisfies what malloc expects
    of sbrk: allocuvm returns the new size, below KERNBASE, or fails. *)

From S2P Require Import Prelude Params CString Spinlock Kalloc Vm Umalloc.

Section Growproc.
Context (kernel_end : Z) (me : nat) (pgdir : Z).

Lemma allocuvm_loop_result fuel : forall oldsz newsz a k k' r,
  allocuvm_loop kernel_end me fuel pgdir oldsz newsz a k = Done k' r -> r = 0 \/ r = newsz.
Proof.
  induction fuel as [|fuel IH]; intros oldsz newsz a k k' r; cbn [allocuvm_loop]; destruct (a <? newsz).
  - done.
  - intros [= _ ->]. by right.
  - intros Hrun. apply bind_inv in Hrun as (k1 & m & _ & Hrun). destruct (m =? 0).
    + apply bind_inv in Hrun as (k2 & x & _ & Hrun). injection Hrun as _ ->. by left.
    + apply bind_inv in Hrun as (k2 & x & _ & Hrun). apply bind_inv in Hrun as (k3 & y & _ & Hrun). by apply IH in Hrun.
  - intros [= _ ->]. by right.
Qed.

Lemma allocuvm_result oldsz newsz k k' r : oldsz <= newsz ->
  allocuvm kernel_end me pgdir oldsz newsz k = Done k' r -> r = 0 \/ (r = newsz /\ newsz < KERNBASE).
Proof.
  intros Hle. unfold allocuvm. destruct (Z.leb_spec KERNBASE newsz); [intros [= _ <-]; by left|].
  rewrite (proj2 (Z.ltb_ge _ _)) by lia. intros Hrun. apply allocuvm_loop_result in Hrun as [?|?]; auto.
Qed.

(** The size after growproc on a process of [brk] bytes, in a machine [k]. *)
Definition growproc_size (k : kmem) : Sbrk := fun brk n =>
  let res := if n >? 0 then allocuvm kernel_end me pgdir brk (u32 (brk + n)) k
             else if n <? 0 then deallocuvm kernel_end me pgdir brk (u32 (brk + n)) k
             else Done k brk in
  match res with
  | Done _ r => if (r =? 0) && negb (n =? 0) then None else Some r
  | _ => None
  end.

#[export] Instance growproc_laws k : SbrkLaws (H := growproc_size k).
Proof.
  intros brk n b Hb Hn. unfold grow, growproc_size. rewrite (proj2 (Z.gtb_lt n 0)) by lia.
  rewrite u32_small by (unfold KERNBASE in *; lia).
  destruct (allocuvm kernel_end me pgdir brk (brk + n) k) as [k' r| | |] eqn:E; try done.
  destruct (allocuvm_result brk (brk + n) k k' r ltac:(lia) E) as [->|[-> Hlt]].
  - rewrite Z.eqb_refl, (proj2 (Z.eqb_neq n 0)) by lia. done.
  - rewrite (proj2 (Z.eqb_neq (brk + n) 0)) by lia. intros [= <-]. done.
Qed.

(** sbrk with a negative count that reaches below zero changes nothing and
    reports success: the sum wraps around to a size above the old one, which
    deallocuvm takes for the size already reached. *)
Theorem sbrk_below_zero k brk n : 0 < brk < 2 ^ 31 -> - 2 ^ 31 <= n < - brk ->
  growproc_size k brk n = Some brk.
Proof.
  intros Hb Hn. unfold growproc_size. rewrite (proj2 (Z.ltb_lt n 0)) by lia.
  destruct (Z.gtb_spec n 0); [lia|].
  assert (u32 (brk + n) = brk + n + 2 ^ 32) as ->.
  { unfold u32. replace (brk + n) with (brk + n + 2 ^ 32 + (-1) * 2 ^ 32) at 1 by lia. rewrite Z.mod_add by lia. apply Z.mod_small. lia. }
  unfold deallocuvm. rewrite (proj2 (Z.leb_le _ _)) by lia. unfold mret, kernel_ret. rewrite (proj2 (Z.eqb_neq brk 0)) by lia. done.
Qed.
End Growproc.

Lemma sbrk_below_zero_witness : growproc_size 0 0 0 (mkKmem (mkCpu 0 0 0 0 None 0 0 0) (initlock "kmem") 1 0 ∅) 12288 (-2147483640) = Some 12288.
Proof. apply sbrk_below_zero; split; reflexivity || discriminate. Defined.
