(* ===== verification/Grep.v ===== *)
(** * grep (grep.c)

    The pattern matcher against the language a pattern denotes, and the loop
    that cuts the input into lines. Strings are the bytes before their
    terminating 0. *)

From S2P Require Import Prelude.

Definition chr_star : Z := 42.
Definition chr_dollar : Z := 36.
Definition chr_dot : Z := 46.
Definition chr_caret : Z := 94.
Definition chr_newline : Z := 10.

(** matchstar: [here] is matchhere of the rest of the pattern *)
Fixpoint matchstar (here : list Z -> bool) (c : Z) (text : list Z) : bool :=
  here text ||
  match text with
  | [] => false
  | t :: text' => ((t =? c) || (c =? chr_dot)) && matchstar here c text'
  end.

Fixpoint matchhere (re text : list Z) : bool :=
  match re with
  | [] => true
  | c :: re1 =>
      match re1 with
      | s :: re2 => if s =? chr_star then matchstar (matchhere re2) c text
                    else match text with
                         | [] => false
                         | t :: text' => ((c =? chr_dot) || (c =? t)) && matchhere re1 text'
                         end
      | [] => if c =? chr_dollar then match text with [] => true | _ => false end
              else match text with
                   | [] => false
                   | t :: text' => ((c =? chr_dot) || (c =? t)) && matchhere re1 text'
                   end
      end
  end.

(** The do-while loop of match *)
Fixpoint match_loop (re text : list Z) : bool :=
  matchhere re text || match text with [] => false | _ :: text' => match_loop re text' end.
Definition match_re (re text : list Z) : bool :=
  match re with
  | c :: re' => if c =? chr_caret then matchhere re' text else match_loop re text
  | [] => match_loop re text
  end.

(** ** The loop of grep *)
(** strchr(p, '\n'), which stops at a 0: the line before it and what follows *)
Fixpoint find_newline (l : list Z) : option (list Z * list Z) :=
  match l with
  | [] => None
  | c :: l' =>
      if c =? 0 then None
      else if c =? chr_newline then Some ([], l')
      else match find_newline l' with Some (a, b) => Some (c :: a, b) | None => None end
  end.
(** while((q = strchr(p, '\n')) != 0): what is written, and the bytes at p after it *)
Fixpoint grep_lines (k : nat) (pattern p : list Z) : list Z * list Z :=
  match k with
  | O => ([], p)
  | S k' =>
      match find_newline p with
      | None => ([], p)
      | Some (line, rest) =>
          let '(out, p') := grep_lines k' pattern rest in
          ((if match_re pattern line then line ++ [chr_newline] else []) ++ out, p')
      end
  end.
(** The bytes the successive read calls return, each at most the 1023 - m
    there is room for; [m] is what buf holds. When no newline was found, p is
    still buf. *)
Fixpoint grep (pattern m : list Z) (reads : list (list Z)) : list Z :=
  match reads with
  | [] => []
  | n :: reads' =>
      let buf := m ++ n in
      let '(out, p) := grep_lines (S (length buf)) pattern buf in
      let m' := if decide (length p = length buf) then [] else p in
      out ++ grep pattern m' reads'
  end.

(** ** The language of a pattern *)
Inductive item : Type := One (c : Z) | Star (c : Z).
Fixpoint parse (re : list Z) : list item * bool :=
  match re with
  | [] => ([], false)
  | c :: re1 =>
      match re1 with
      | s :: re2 => if s =? chr_star then let '(l, e) := parse re2 in (Star c :: l, e)
                    else let '(l, e) := parse re1 in (One c :: l, e)
      | [] => if c =? chr_dollar then ([], true) else ([One c], false)
      end
  end.
Definition stands (c x : Z) : Prop := c = chr_dot \/ c = x.
Inductive lang : list item -> list Z -> Prop :=
| LNil : lang [] []
| LOne c x l s : stands c x -> lang l s -> lang (One c :: l) (x :: s)
| LStar0 c l s : lang l s -> lang (Star c :: l) s
| LStar c x l s : stands c x -> lang (Star c :: l) s -> lang (Star c :: l) (x :: s).
(** The pattern matches a prefix of the text, all of it if it ends in $. *)
Definition here (re text : list Z) : Prop :=
  exists s rest, text = s ++ rest /\ lang (parse re).1 s /\ ((parse re).2 = true -> rest = []).
Definition found (re text : list Z) : Prop :=
  match re with
  | c :: re' => if c =? chr_caret then here re' text else exists pre post, text = pre ++ post /\ here re post
  | [] => exists pre post, text = pre ++ post /\ here re post
  end.

(** ** The matcher is right *)
Lemma stands_spec c x : stands c x <-> (x =? c) || (c =? chr_dot) = true.
Proof. unfold stands. rewrite orb_true_iff, !Z.eqb_eq. naive_solver. Qed.
Lemma stands_spec' c x : stands c x <-> (c =? chr_dot) || (c =? x) = true.
Proof. unfold stands. by rewrite orb_true_iff, !Z.eqb_eq. Qed.

Definition here_items (l : list item) (e : bool) (text : list Z) : Prop :=
  exists s rest, text = s ++ rest /\ lang l s /\ (e = true -> rest = []).

Lemma matchstar_spec (m : list Z -> bool) c l e text :
  (forall t, m t = true <-> here_items l e t) ->
  matchstar m c text = true <-> here_items (Star c :: l) e text.
Proof.
  intros Hm. induction text as [|t text IH]; cbn [matchstar]; rewrite orb_true_iff, Hm.
  - split.
    + intros [(s & r & E & Hl & He)|?]; [|done]. exists s, r. split; [done|]. split; [by apply LStar0|done].
    + intros (s & r & E & Hl & He). left. exists s, r. split; [done|]. split; [|done].
      symmetry in E. apply app_eq_nil in E as [-> ->]. inversion Hl; subst; done.
  - rewrite andb_true_iff, IH, <- stands_spec. split.
    + intros [(s & r & E & Hl & He)|[Hst (s & r & -> & Hl & He)]].
      * exists s, r. split; [done|]. split; [by apply LStar0|done].
      * exists (t :: s), r. split; [done|]. split; [by apply LStar|done].
    + intros (s & r & E & Hl & He). inversion Hl as [| |? ? ? Hl'|? x ? s' Hst Hl']; subst.
      * left. by exists s, r.
      * right. injection E as -> ->. split; [done|]. by exists s', r.
Qed.

Lemma one_spec (m : list Z -> bool) c l e text : (forall t, m t = true <-> here_items l e t) ->
  match text with [] => false | t :: text' => ((c =? chr_dot) || (c =? t)) && m text' end = true <-> here_items (One c :: l) e text.
Proof.
  intros Hm. destruct text as [|t text].
  - split; [done|]. intros (s & r & E & Hl & _). symmetry in E. apply app_eq_nil in E as [-> _]. inversion Hl.
  - rewrite andb_true_iff, <- stands_spec', Hm. split.
    + intros [Hst (s & r & -> & Hl & He)]. exists (t :: s), r. split; [done|]. split; [by constructor|done].
    + intros (s & r & E & Hl & He). inversion Hl as [|? x ? s' Hst Hl'| |]; subst. injection E as -> ->.
      split; [done|]. by exists s', r.
Qed.

Lemma matchhere_spec re text : matchhere re text = true <-> here re text.
Proof.
  change (here re text) with (here_items (parse re).1 (parse re).2 text). revert text.
  remember (length re) as n eqn:En. revert re En. induction n as [n IHn] using lt_wf_ind. intros re En text.
  destruct re as [|c re1]; [cbn; split; [|done]|].
  { intros _. exists [], text. split; [done|]. split; [constructor|done]. }
  cbn [matchhere parse]. destruct re1 as [|s re2].
  - destruct (c =? chr_dollar) eqn:Ec.
    + destruct text as [|t text]; split; try done.
      * intros _. exists [], []. split; [done|]. split; [constructor|done].
      * intros (s & r & E & Hl & He). rewrite (He eq_refl) in E. inversion Hl; subst. done.
    + apply (one_spec (matchhere [])). intros t. apply (IHn 0%nat); [subst n; cbn; lia|done].
  - destruct (s =? chr_star) eqn:Es.
    + destruct (parse re2) as [l e] eqn:Ep. cbn [fst snd]. apply matchstar_spec. intros t.
      rewrite (IHn (length re2)); [by rewrite Ep|subst n; cbn; lia|done].
    + destruct (parse (s :: re2)) as [l e] eqn:Ep. cbn [fst snd]. apply (one_spec (matchhere (s :: re2))). intros t.
      rewrite (IHn (length (s :: re2))); [by rewrite Ep|subst n; cbn; lia|done].
Qed.

Lemma match_loop_spec re text : match_loop re text = true <-> exists pre post, text = pre ++ post /\ here re post.
Proof.
  induction text as [|t text IH]; cbn [match_loop]; rewrite orb_true_iff, matchhere_spec.
  - split; [intros [H|?]; [by exists [], []|done]|]. intros (pre & post & E & H). left.
    symmetry in E. apply app_eq_nil in E as [-> ->]. done.
  - rewrite IH. split.
    + intros [H|(pre & post & -> & H)]; [by exists [], (t :: text)|by exists (t :: pre), post].
    + intros ([|x pre] & post & E & H); [left; cbn in E; rewrite E; exact H|]. right. injection E as -> ->. by exists pre, post.
Qed.

(** grep's matcher decides the language of patterns: it accepts a line
    exactly when some segment of it (a prefix after ^, a suffix before $) is in
    the language in which c stands for itself, . for any byte and c* for any
    number of them. *)
Theorem match_re_correct re text : match_re re text = true <-> found re text.
Proof.
  unfold match_re, found. destruct re as [|c re]; [apply match_loop_spec|].
  destruct (c =? chr_caret); [apply matchhere_spec|apply match_loop_spec].
Qed.

(** ** The lines are right *)
(** The complete lines of the input and what follows the last newline *)
Fixpoint split (cur l : list Z) : list (list Z) * list Z :=
  match l with
  | [] => ([], cur)
  | c :: l' => if c =? chr_newline then let '(ls, r) := split [] l' in (cur :: ls, r) else split (cur ++ [c]) l'
  end.
Definition matching (pattern : list Z) (ls : list (list Z)) : list Z :=
  concat (map (fun line => if match_re pattern line then line ++ [chr_newline] else []) ls).

Lemma split_app a b cur : split cur (a ++ b) =
  ((split cur a).1 ++ (split (split cur a).2 b).1, (split (split cur a).2 b).2).
Proof.
  revert cur. induction a as [|c a IH]; intros cur; cbn [app split fst snd]; [by destruct (split cur b)|].
  destruct (c =? chr_newline); [|apply IH]. rewrite IH. by destruct (split [] a).
Qed.
Definition text (l : list Z) : Prop := Forall (fun c => c <> 0) l.
Lemma split_find p cur : text p -> split cur p =
  match find_newline p with
  | Some (line, rest) => ((cur ++ line) :: (split [] rest).1, (split [] rest).2)
  | None => ([], cur ++ p)
  end.
Proof.
  intros Hp. revert cur. induction Hp as [|c p Hc Hp IH]; intros cur; cbn [split find_newline]; [by rewrite app_nil_r|].
  rewrite (proj2 (Z.eqb_neq c 0) Hc). destruct (c =? chr_newline); [rewrite app_nil_r; by destruct (split [] p)|].
  rewrite IH. destruct (find_newline p) as [[line rest]|]; rewrite <- app_assoc; reflexivity.
Qed.
Lemma find_newline_split p line rest : find_newline p = Some (line, rest) -> p = line ++ chr_newline :: rest.
Proof.
  revert line. induction p as [|c p IH]; intros line; cbn; [done|]. destruct (c =? 0); [done|]. case_match eqn:Ec.
  - intros [= <- <-]. apply Z.eqb_eq in Ec. by subst.
  - destruct (find_newline p) as [[a b]|]; [|done]. intros [= <- <-]. cbn. f_equal. by apply IH.
Qed.
Lemma find_newline_in p : text p -> chr_newline ∈ p -> is_Some (find_newline p).
Proof.
  intros Hp. induction Hp as [|c p Hc Hp IH]; [by intros ?%not_elem_of_nil|]. intros [<-|H]%elem_of_cons; cbn; [done|].
  rewrite (proj2 (Z.eqb_neq c 0) Hc). case_match; [done|]. destruct (IH H) as [[a b] ->]. done.
Qed.

Lemma grep_lines_spec pattern k p : text p -> (length p < k)%nat ->
  grep_lines k pattern p = (matching pattern (split [] p).1, (split [] p).2).
Proof.
  revert p. induction k as [|k IH]; intros p Hp Hk; [lia|]. cbn [grep_lines]. rewrite split_find by done.
  destruct (find_newline p) as [[line rest]|] eqn:E; [|done]. apply find_newline_split in E. subst p.
  apply Forall_app in Hp as [_ [_ Hp]%Forall_cons]. rewrite length_app in Hk. cbn in Hk. rewrite IH; [done|done|lia].
Qed.
Lemma split_rest_length cur p : (length (split cur p).2 <= length cur + length p)%nat.
Proof.
  revert cur. induction p as [|c p IH]; intros cur; cbn [split]; [cbn; lia|].
  case_match; [specialize (IH [])|specialize (IH (cur ++ [c])); rewrite length_app in IH];
    cbn in *; [destruct (split [] p); cbn in *|]; lia.
Qed.
Lemma split_rest_shorter p : text p -> chr_newline ∈ p -> (length (split [] p).2 < length p)%nat.
Proof.
  intros Hp Hin. destruct (find_newline_in p Hp Hin) as [[line rest] E]. rewrite split_find, E by done. apply find_newline_split in E. subst p.
  pose proof (split_rest_length [] rest). rewrite length_app. cbn in *. lia.
Qed.

(** A line that the buffer holds so far contains no newline. *)
Definition no_newline (l : list Z) : Prop := chr_newline ∉ l.
Lemma split_no_newline cur l : no_newline l -> split cur l = ([], cur ++ l).
Proof.
  revert cur. induction l as [|c l IH]; intros cur H; cbn [split]; [by rewrite app_nil_r|].
  destruct (Z.eqb_spec c chr_newline) as [->|_]; [exfalso; apply H; left|].
  rewrite IH, <- app_assoc; [done|]. intros Hin. apply H. by right.
Qed.
Lemma split_rest_no_newline cur l : no_newline cur -> no_newline (split cur l).2.
Proof.
  revert cur. induction l as [|c l IH]; intros cur H; cbn [split]; [done|].
  destruct (Z.eqb_spec c chr_newline) as [->|Hc].
  - specialize (IH [] ltac:(apply not_elem_of_nil)). by destruct (split [] l).
  - apply IH. intros [?|?%list_elem_of_singleton]%elem_of_app; [by apply H|by subst].
Qed.

Lemma split_rest_text cur l : text cur -> text l -> text (split cur l).2.
Proof.
  intros Hc Hl. revert cur Hc. induction Hl as [|c l Hc Hl IH]; intros cur Hcur; cbn [split]; [done|].
  case_match; [specialize (IH [] ltac:(by apply Forall_nil)); by destruct (split [] l)|].
  apply IH, Forall_app. split; [done|]. by apply Forall_singleton.
Qed.
Lemma grep_spec pattern m reads : no_newline m -> text m -> Forall (fun n => chr_newline ∈ n /\ text n) reads ->
  grep pattern m reads = matching pattern (split m (concat reads)).1.
Proof.
  intros Hm Ht Hr. revert m Hm Ht. induction Hr as [|n reads [Hn Htn] Hr IH]; intros m Hm Ht; [done|].
  assert (text (m ++ n)) as Hmn by (by apply Forall_app).
  cbn [grep concat]. rewrite grep_lines_spec by (done || lia).
  assert (Es : split [] (m ++ n) = split m n).
  { rewrite split_app, (split_no_newline [] m Hm). cbn. by destruct (split m n). }
  pose proof (split_rest_shorter (m ++ n) Hmn ltac:(apply elem_of_app; by right)) as Hlt.
  rewrite decide_False by lia. rewrite IH by (apply split_rest_no_newline, not_elem_of_nil || (apply split_rest_text; [by apply Forall_nil|done])).
  rewrite Es, split_app. unfold matching. cbn [fst]. by rewrite map_app, concat_app.
Qed.

(** grep writes the lines of its input that match the pattern, in order
    and each once, wherever the boundaries of the reads fall inside the lines,
    provided that each read brings text with the end of some line. *)
Theorem grep_prints_matching pattern reads : Forall (fun n => chr_newline ∈ n /\ text n) reads ->
  grep pattern [] reads = matching pattern (split [] (concat reads)).1.
Proof. intros H. apply grep_spec; [apply not_elem_of_nil|by apply Forall_nil|done]. Qed.

(** "ab NEWLINE a" then "b NEWLINE c NEWLINE": the pattern b$ *)
Lemma grep_prints_matching_witness :
  grep [98; 36] [] [[97; 98; 10; 97]; [98; 10; 99; 10]] = [97; 98; 10; 97; 98; 10].
Proof.
  rewrite (grep_prints_matching [98; 36] [[97; 98; 10; 97]; [98; 10; 99; 10]]); [reflexivity|].
  repeat constructor; try discriminate; apply list_elem_of_In; cbn; tauto.
Defined.

(** Without that, a line is lost: a read that ends before the first newline
    leaves p at buf, and the bytes read are dropped. *)
Lemma grep_loses_split_line :
  grep [97; 98] [] [[97; 98; 10]] = [97; 98; 10] /\ grep [97; 98] [] [[97]; [98; 10]] = [].
Proof. split; reflexivity. Qed.
