(* ===== verification/Sh.v ===== *)
(** * The shell's parser (sh.c)

    A char pointer into the command line is an offset into it; the end pointer
    [es] is the line's length, where the terminating 0 stands. The mutually
    recursive parsers take fuel; a loop's own bound is the number of bytes left,
    since every turn of it consumes one. [nulterminate] then writes a 0 at the
    end of every token, and only from then on are the pointers C strings. *)

From S2P Require Import Prelude Params.

Inductive presult (A : Type) : Type :=
| POk (a : A)
| PPanic (msg : string)
| PFuel.
Arguments POk {A}. Arguments PPanic {A}. Arguments PFuel {A}.
#[export] Instance presult_bind : MBind presult := fun A B k r =>
  match r with POk a => k a | PPanic m => PPanic m | PFuel => PFuel end.

Definition MAXARGS : nat := 10.

(** struct cmd: the pointers argv[i], eargv[i] and file, efile are offsets *)
Inductive cmd : Type :=
| Exec (argv : list (nat * nat))
| Redir (c : cmd) (file efile : nat) (mode fd : Z)
| Pipe (left right : cmd)
| List (left right : cmd)
| Back (c : cmd).

(** " \t\r\n\v" and "<|>&;()" *)
Definition whitespace : list Z := [32; 9; 13; 10; 11].
Definition symbols : list Z := [60; 124; 62; 38; 59; 40; 41].
(** strchr(s, c) != 0 *)
Definition strchr (s : list Z) (c : Z) : bool := existsb (Z.eqb c) s.
Definition is_ws (c : Z) : bool := strchr whitespace c.
Definition is_word (c : Z) : bool := negb (is_ws c) && negb (strchr symbols c).

(** *s, the terminating 0 at [es] included *)
Definition byte (buf : list Z) (s : nat) : Z := default 0 (buf !! s).
(** while(s < es && p of its byte) s++ *)
Fixpoint scan_loop (p : Z -> bool) (buf : list Z) (left s : nat) : nat :=
  match left with
  | O => s
  | S left' => if p (byte buf s) then scan_loop p buf left' (S s) else s
  end.
Definition scan (p : Z -> bool) (buf : list Z) (s : nat) : nat := scan_loop p buf (length buf - s) s.

(** The token's code, q, eq and the pointer after the blanks behind it *)
Definition gettoken (buf : list Z) (s : nat) : Z * nat * nat * nat :=
  let s := scan is_ws buf s in
  let q := s in
  let c := byte buf s in
  let '(ret, s) :=
    if c =? 0 then (c, s)
    else if strchr [124; 40; 41; 59; 38; 60] c then (c, S s)
    else if c =? 62 then
      let s := S s in
      if byte buf s =? 62 then (43, S s) else (c, s)
    else (97, scan is_word buf s) in
  let eq := s in
  let s := scan is_ws buf s in
  (ret, q, eq, s).

Definition peek (buf : list Z) (s : nat) (toks : list Z) : nat * bool :=
  let s := scan is_ws buf s in
  (s, negb (byte buf s =? 0) && strchr toks (byte buf s)).

(** while(peek(ps, es, "<>")) of parseredirs *)
Fixpoint parseredirs_loop (buf : list Z) (left : nat) (c : cmd) (s : nat) : presult (cmd * nat) :=
  match left with
  | O => PFuel
  | S left' =>
      let '(s, b) := peek buf s [60; 62] in
      if b then
        let '(tok, _, _, s) := gettoken buf s in
        let '(t, q, eq, s) := gettoken buf s in
        if negb (t =? 97) then PPanic "missing file for redirection"
        else
          let c := if tok =? 60 then Redir c q eq O_RDONLY 0
                   else if tok =? 62 then Redir c q eq (Z.lor O_WRONLY O_CREATE) 1
                   else if tok =? 43 then Redir c q eq (Z.lor O_WRONLY O_CREATE) 1
                   else c in
          parseredirs_loop buf left' c s
      else POk (c, s)
  end.
Definition parseredirs (buf : list Z) (c : cmd) (s : nat) : presult (cmd * nat) :=
  parseredirs_loop buf (S (length buf - s)) c s.

(** cmd->argv[argc] = q; cmd->eargv[argc] = eq: the struct execcmd that the
    redirections parsed so far wrap *)
Fixpoint add_arg (ret : cmd) (q eq : nat) : cmd :=
  match ret with
  | Exec argv => Exec (argv ++ [(q, eq)])
  | Redir c f ef m fd => Redir (add_arg c q eq) f ef m fd
  | c => c
  end.

(** while(!peek(ps, es, "|)&;")) of parseexec *)
Fixpoint parseexec_loop (buf : list Z) (left : nat) (ret : cmd) (argc : nat) (s : nat) : presult (cmd * nat) :=
  match left with
  | O => PFuel
  | S left' =>
      let '(s, b) := peek buf s [124; 41; 38; 59] in
      if b then POk (ret, s)
      else
        let '(tok, q, eq, s) := gettoken buf s in
        if tok =? 0 then POk (ret, s)
        else if negb (tok =? 97) then PPanic "syntax"
        else
          let ret := add_arg ret q eq in
          let argc := S argc in
          if decide (MAXARGS <= argc)%nat then PPanic "too many args"
          else
            '(ret, s) ← parseredirs buf ret s;
            parseexec_loop buf left' ret argc s
  end.

(** while(peek(ps, es, "&")) of parseline *)
Fixpoint backs_loop (buf : list Z) (left : nat) (c : cmd) (s : nat) : presult (cmd * nat) :=
  match left with
  | O => PFuel
  | S left' =>
      let '(s, b) := peek buf s [38] in
      if b then let '(_, _, _, s) := gettoken buf s in backs_loop buf left' (Back c) s
      else POk (c, s)
  end.

Fixpoint parseline (k : nat) (buf : list Z) (s : nat) : presult (cmd * nat) :=
  match k with
  | O => PFuel
  | S k =>
      '(c, s) ← parsepipe k buf s;
      '(c, s) ← backs_loop buf (S (length buf - s)) c s;
      let '(s, b) := peek buf s [59] in
      if b then
        let '(_, _, _, s) := gettoken buf s in
        '(r, s) ← parseline k buf s;
        POk (List c r, s)
      else POk (c, s)
  end
with parsepipe (k : nat) (buf : list Z) (s : nat) : presult (cmd * nat) :=
  match k with
  | O => PFuel
  | S k =>
      '(c, s) ← parseexec k buf s;
      let '(s, b) := peek buf s [124] in
      if b then
        let '(_, _, _, s) := gettoken buf s in
        '(r, s) ← parsepipe k buf s;
        POk (Pipe c r, s)
      else POk (c, s)
  end
with parseexec (k : nat) (buf : list Z) (s : nat) : presult (cmd * nat) :=
  match k with
  | O => PFuel
  | S k =>
      let '(s, b) := peek buf s [40] in
      if b then parseblock k buf s
      else
        '(ret, s) ← parseredirs buf (Exec []) s;
        parseexec_loop buf (S (length buf - s)) ret 0 s
  end
with parseblock (k : nat) (buf : list Z) (s : nat) : presult (cmd * nat) :=
  match k with
  | O => PFuel
  | S k =>
      let '(s, b) := peek buf s [40] in
      if negb b then PPanic "parseblock"
      else
        let '(_, _, _, s) := gettoken buf s in
        '(c, s) ← parseline k buf s;
        let '(s, b) := peek buf s [41] in
        if negb b then PPanic "syntax - missing )"
        else
          let '(_, _, _, s) := gettoken buf s in
          parseredirs buf c s
  end.

(** The 0 bytes are written into the line, whose own 0 is at offset [es]. *)
Fixpoint nulterminate (c : cmd) (mem : list Z) : list Z :=
  match c with
  | Exec argv => fold_left (fun mem a => <[snd a := 0]> mem) argv mem
  | Redir c _ efile _ _ => <[efile := 0]> (nulterminate c mem)
  | Pipe l r => nulterminate r (nulterminate l mem)
  | List l r => nulterminate r (nulterminate l mem)
  | Back c => nulterminate c mem
  end.

(** [buf] is the line before its 0; the result is the command and the memory
    its pointers point into. *)
Definition parsecmd (k : nat) (buf : list Z) : presult (cmd * list Z) :=
  '(c, s) ← parseline k buf 0;
  let '(s, _) := peek buf s [] in
  if negb (Nat.eqb s (length buf)) then PPanic "syntax"
  else POk (c, nulterminate c (buf ++ [0])).
