(* ===== verification/ShTotal.v ===== *)
(** * The shell's parser ends on every line

    Every parser returns a command and a pointer no earlier than the one it
    was given, or panics, when its fuel is four times the bytes left and a
    constant: on the way round the recursion (line, pipe, exec, block) a byte is
    consumed. *)

From S2P Require Import Prelude Sh.

(** ** Scanning *)
Lemma byte_end (buf : list Z) s : (length buf <= s)%nat -> byte buf s = 0.
Proof. intros H. unfold byte. by rewrite lookup_ge_None_2. Qed.
Lemma byte_before (buf : list Z) s : byte buf s <> 0 -> (s < length buf)%nat.
Proof. intros H. destruct (decide (s < length buf)%nat); [done|]. by rewrite byte_end in H by lia. Qed.

Lemma scan_loop_range p buf left s : (s <= scan_loop p buf left s <= s + left)%nat.
Proof. revert s. induction left as [|left IH]; intros s; cbn; [lia|]. case_match; [specialize (IH (S s))|]; lia. Qed.
Lemma scan_loop_all p buf left s i : (s <= i < scan_loop p buf left s)%nat -> p (byte buf i) = true.
Proof.
  revert s. induction left as [|left IH]; intros s; cbn; [lia|]. case_match; [|lia].
  intros Hi. destruct (decide (i = s)) as [->|]; [done|]. apply (IH (S s)). lia.
Qed.
Lemma scan_loop_stop p buf left s : (scan_loop p buf left s < s + left)%nat -> p (byte buf (scan_loop p buf left s)) = false.
Proof. revert s. induction left as [|left IH]; intros s; cbn; [lia|]. case_match eqn:E; [|done]. intros H. apply IH. lia. Qed.

Lemma scan_range p buf s : (s <= length buf)%nat -> (s <= scan p buf s <= length buf)%nat.
Proof. intros H. pose proof (scan_loop_range p buf (length buf - s) s). unfold scan. lia. Qed.
Lemma scan_all p buf s i : (s <= i < scan p buf s)%nat -> p (byte buf i) = true.
Proof. apply scan_loop_all. Qed.
Lemma scan_stop p buf s : (s <= length buf)%nat -> (scan p buf s < length buf)%nat -> p (byte buf (scan p buf s)) = false.
Proof. intros H H'. apply scan_loop_stop. unfold scan in H'. lia. Qed.
Lemma scan_moves p buf s : (s < length buf)%nat -> p (byte buf s) = true -> (s < scan p buf s)%nat.
Proof.
  intros H Hp. unfold scan. destruct (length buf - s)%nat as [|n] eqn:E; [lia|]. cbn. rewrite Hp.
  pose proof (scan_loop_range p buf n (S s)). lia.
Qed.

(** ** Tokens *)
(** A word token: its bytes are word bytes and the byte behind it is not. *)
Definition token (buf : list Z) (q eq : nat) : Prop :=
  (q < eq <= length buf)%nat /\ (forall i, (q <= i < eq)%nat -> is_word (byte buf i) = true) /\
  ((eq < length buf)%nat -> is_word (byte buf eq) = false).

Lemma gettoken_spec buf s ret q eq s' : (s <= length buf)%nat -> gettoken buf s = (ret, q, eq, s') ->
  (s <= s' <= length buf)%nat /\ (ret <> 0 -> (s < s')%nat) /\ (ret = 97 -> token buf q eq).
Proof.
  intros Hs. unfold gettoken. pose proof (scan_range is_ws buf s Hs) as Hr.
  set (s1 := scan is_ws buf s) in *. cbn zeta.
  destruct (Z.eqb_spec (byte buf s1) 0) as [E0|E0].
  { intros [= <- <- <- <-]. pose proof (scan_range is_ws buf s1 ltac:(lia)). split; [lia|]. by split; intros; [|lia]. }
  pose proof (byte_before buf s1 E0) as Hlt.
  destruct (strchr [124; 40; 41; 59; 38; 60] (byte buf s1)) eqn:Esym.
  { intros [= <- <- <- <-]. pose proof (scan_range is_ws buf (S s1) ltac:(lia)). split; [lia|]. split; [lia|].
    intros E. rewrite E in Esym. done. }
  destruct (Z.eqb_spec (byte buf s1) 62) as [E62|E62].
  { destruct (Z.eqb_spec (byte buf (S s1)) 62) as [E'|E']; intros [= <- <- <- <-].
    - pose proof (byte_before buf (S s1) ltac:(lia)). pose proof (scan_range is_ws buf (S (S s1)) ltac:(lia)).
      split; [lia|]. split; [lia|done].
    - pose proof (scan_range is_ws buf (S s1) ltac:(lia)). split; [lia|]. split; [lia|]. lia. }
  intros [= <- <- <- <-].
  pose proof (scan_range is_word buf s1 ltac:(lia)) as Hw.
  pose proof (scan_range is_ws buf (scan is_word buf s1) ltac:(lia)).
  assert (Hword : is_word (byte buf s1) = true).
  { unfold is_word. pose proof (scan_stop is_ws buf s Hs Hlt) as Hws. fold s1 in Hws. rewrite Hws. cbn in Esym |- *.
    repeat (apply orb_false_iff in Esym as [?%Z.eqb_neq Esym]).
    apply negb_true_iff. repeat (apply orb_false_iff; split); try apply Z.eqb_neq; done. }
  pose proof (scan_moves is_word buf s1 Hlt Hword).
  split; [lia|]. split; [lia|]. intros _. split; [lia|]. split; [intros i; apply scan_all|].
  intros Hl. apply scan_stop; [lia|done].
Qed.

Lemma peek_spec buf s toks s' b : (s <= length buf)%nat -> peek buf s toks = (s', b) ->
  (s <= s' <= length buf)%nat /\ (b = true -> (s' < length buf)%nat /\ strchr toks (byte buf s') = true) /\
  ((s' < length buf)%nat -> is_ws (byte buf s') = false).
Proof.
  intros Hs. unfold peek. intros [= <- <-]. pose proof (scan_range is_ws buf s Hs) as Hr. split; [done|]. split.
  - rewrite andb_true_iff, negb_true_iff, Z.eqb_neq. intros [H ?]. split; [by apply byte_before|done].
  - by apply scan_stop.
Qed.

Lemma strchr_In toks c : strchr toks c = true <-> In c toks.
Proof.
  unfold strchr. rewrite existsb_exists. split; [intros (x & Hx & E); apply Z.eqb_eq in E; by subst|].
  intros H. exists c. by rewrite Z.eqb_refl.
Qed.

(** Where peek has seen a symbol, gettoken moves on. *)
Lemma peek_gettoken buf s toks s1 ret q eq s2 : (s <= length buf)%nat ->
  peek buf s toks = (s1, true) -> gettoken buf s1 = (ret, q, eq, s2) ->
  ~ In 0 toks -> (s1 < s2 <= length buf)%nat.
Proof.
  intros Hs Hp Hg H0. destruct (peek_spec _ _ _ _ _ Hs Hp) as (Hr & Hb & Hw). destruct (Hb eq_refl) as [Hlt Hin].
  apply strchr_In in Hin. assert (Hne : byte buf s1 <> 0) by (intros E; apply H0; by rewrite <- E).
  destruct (gettoken_spec _ _ _ _ _ _ (ltac:(lia) : (s1 <= length buf)%nat) Hg) as (Hr' & Hmove & _).
  split; [|lia]. apply Hmove. intros ->. revert Hg. unfold gettoken.
  replace (scan is_ws buf s1) with s1.
  2:{ pose proof (scan_range is_ws buf s1 ltac:(lia)). destruct (decide (scan is_ws buf s1 = s1)) as [|]; [done|].
      pose proof (scan_all is_ws buf s1 s1 ltac:(lia)). specialize (Hw Hlt). congruence. }
  cbn zeta. destruct (Z.eqb_spec (byte buf s1) 0); [done|].
  destruct (strchr [124; 40; 41; 59; 38; 60] (byte buf s1)); [by intros [= ?]|].
  destruct (Z.eqb_spec (byte buf s1) 62) as [E|]; [|by intros [= ?]].
  destruct (byte buf (S s1) =? 62); by intros [= ?].
Qed.

(** ** The commands *)
(** Every string of a command is a word of the line, and no execcmd has more
    arguments than leave room for the closing null pointer. *)
Fixpoint cmd_ok (buf : list Z) (c : cmd) : Prop :=
  match c with
  | Exec argv => (length argv < MAXARGS)%nat /\ Forall (fun a => token buf a.1 a.2) argv
  | Redir c q eq _ _ => cmd_ok buf c /\ token buf q eq
  | Pipe l r => cmd_ok buf l /\ cmd_ok buf r
  | List l r => cmd_ok buf l /\ cmd_ok buf r
  | Back c => cmd_ok buf c
  end.
(** The execcmd under its redirections has [argc] arguments. *)
Fixpoint args_are (c : cmd) (argc : nat) : Prop :=
  match c with Exec argv => length argv = argc | Redir c _ _ _ _ => args_are c argc | _ => False end.
Definition fine (buf : list Z) (s : nat) (P : cmd -> Prop) (r : presult (cmd * nat)) : Prop :=
  match r with
  | POk (c, s') => (s <= s' <= length buf)%nat /\ cmd_ok buf c /\ P c
  | PPanic _ => True
  | PFuel => False
  end.
Abbreviation any := (fun _ : cmd => True).

Lemma fine_bind buf s P Q r k : fine buf s P r ->
  (forall c s', (s <= s' <= length buf)%nat -> cmd_ok buf c -> P c -> fine buf s' Q (k (c, s'))) ->
  fine buf s Q (r ≫= k).
Proof.
  destruct r as [[c s']| |]; cbn; try done. intros (Hr & Hc & HP) Hk. specialize (Hk c s' Hr Hc HP).
  destruct (k (c, s')) as [[c2 s2]| |]; cbn in *; try done. destruct Hk as ((? & ?) & ? & ?). repeat split; auto; lia.
Qed.
Lemma fine_weaken buf s s' P r : (s <= s')%nat -> fine buf s' P r -> fine buf s P r.
Proof. destruct r as [[c s2]| |]; cbn; try done. intros ? ((? & ?) & ? & ?). repeat split; auto; lia. Qed.

Ltac step_peek s b H :=
  match goal with |- context [peek ?buf ?x ?toks] =>
    let E := fresh "Epk" in destruct (peek buf x toks) as [s b] eqn:E;
    pose proof (peek_spec buf x toks s b ltac:(lia) E) as H
  end.
Ltac step_token tok q e s H :=
  match goal with |- context [gettoken ?buf ?x] =>
    let E := fresh "Egt" in destruct (gettoken buf x) as [[[tok q] e] s] eqn:E;
    pose proof (gettoken_spec buf x tok q e s ltac:(lia) E) as H;
    try (match goal with Epk : peek buf ?y ?toks = (x, true) |- _ =>
           pose proof (peek_gettoken buf y toks x tok q e s ltac:(lia) Epk E ltac:(cbn; lia)) end)
  end.

Lemma parseredirs_fine buf left c s argc : (s <= length buf)%nat -> (length buf - s < left)%nat ->
  cmd_ok buf c -> fine buf s (fun d => args_are c argc -> args_are d argc) (parseredirs_loop buf left c s).
Proof.
  revert c s. induction left as [|left IH]; intros c s Hs Hl Hc; [lia|]. cbn [parseredirs_loop].
  step_peek s1 b Hp. destruct b; [|cbn; split; [lia|auto]].
  step_token tok q0 eq0 s2 Ht. step_token t q e s3 Ht'.
  destruct (Z.eqb_spec t 97) as [->|]; cbn [negb]; [|done]. destruct Ht' as (Hr & Hm & Htok).
  eapply fine_weaken; [|refine (_ : fine buf s3 _ _)]; [lia|].
  assert (Hdone : forall d, cmd_ok buf d -> (args_are c argc -> args_are d argc) ->
    fine buf s3 (fun d => args_are c argc -> args_are d argc) (parseredirs_loop buf left d s3)).
  { intros d Hd Ha. specialize (IH d s3 ltac:(lia) ltac:(lia) Hd).
    destruct (parseredirs_loop buf left d s3) as [[d' s']| |]; cbn in *; try done.
    destruct IH as (? & ? & ?). auto. }
  apply Hdone; repeat case_match; cbn; auto.
Qed.
Lemma add_arg_ok buf c q eq argc : cmd_ok buf c -> args_are c argc -> token buf q eq -> (S argc < MAXARGS)%nat ->
  cmd_ok buf (add_arg c q eq) /\ args_are (add_arg c q eq) (S argc).
Proof.
  intros Hc Ha Ht Hn. induction c as [argv|c IH| | |]; cbn in *; try done.
  - rewrite length_app. cbn. destruct Hc as [_ Hc]. split; [split; [lia|]|lia]. apply Forall_app. split; [done|]. by apply Forall_singleton.
  - destruct Hc as [Hc ?]. destruct (IH Hc Ha). auto.
Qed.
Lemma parseexec_fine buf left ret argc s : (s <= length buf)%nat -> (length buf - s < left)%nat ->
  cmd_ok buf ret -> args_are ret argc -> fine buf s any (parseexec_loop buf left ret argc s).
Proof.
  revert ret argc s. induction left as [|left IH]; intros ret argc s Hs Hl Hc Ha; [lia|]. cbn [parseexec_loop].
  step_peek s1 b Hp. destruct b; [cbn; split; [lia|auto]|].
  step_token tok q e s2 Ht. destruct (Z.eqb_spec tok 0) as [->|]; [cbn; split; [lia|auto]|].
  destruct (Z.eqb_spec tok 97) as [->|]; cbn [negb]; [|done]. case_decide as Hn; [done|].
  destruct Ht as (Hr & Hm & Htok). specialize (Hm ltac:(done)).
  destruct (add_arg_ok buf ret q e argc Hc Ha (Htok eq_refl) ltac:(lia)) as [Hc' Ha'].
  eapply fine_weaken; [|eapply fine_bind; [apply (parseredirs_fine buf _ _ s2 (S argc)); [lia|lia|done]|]]; [lia|].
  cbn beta iota. intros d s3 Hr3 Hd HP. apply IH; [lia|lia|done|auto].
Qed.
Lemma backs_fine buf left c s : (s <= length buf)%nat -> (length buf - s < left)%nat ->
  cmd_ok buf c -> fine buf s any (backs_loop buf left c s).
Proof.
  revert c s. induction left as [|left IH]; intros c s Hs Hl Hc; [lia|]. cbn [backs_loop].
  step_peek s1 b Hp. destruct b; [|cbn; split; [lia|auto]].
  step_token tok q e s2 Ht. eapply fine_weaken; [|apply (IH (Back c) s2)]; [lia|lia|lia|done].
Qed.

Definition all_fine (k : nat) (buf : list Z) : Prop := forall s, (s <= length buf)%nat ->
  ((4 * (length buf - s) + 4 <= k)%nat -> fine buf s any (parseline k buf s)) /\
  ((4 * (length buf - s) + 3 <= k)%nat -> fine buf s any (parsepipe k buf s)) /\
  ((4 * (length buf - s) + 2 <= k)%nat -> fine buf s any (parseexec k buf s)) /\
  ((4 * (length buf - s) + 1 <= k)%nat -> fine buf s any (parseblock k buf s)).

Lemma line_fine k buf s : all_fine k buf -> (s <= length buf)%nat -> (4 * (length buf - s) + 4 <= S k)%nat ->
  fine buf s any (parseline (S k) buf s).
Proof.
  intros IH Hs Hk. cbn [parseline]. eapply fine_bind; [apply (IH s Hs); lia|]. cbn beta iota. intros c s1 H1 Hc _.
  eapply fine_bind; [apply backs_fine; [lia|lia|done]|]. cbn beta iota. intros c2 s2 H2 Hc2 _.
  step_peek s3 b Hp. destruct b; [|cbn; split; [lia|auto]]. step_token tok q e s4 Ht.
  eapply fine_weaken; [|eapply fine_bind; [apply (IH s4); lia|]]; [lia|]. cbn beta iota. intros r s5 H5 Hr _. cbn. split; [lia|auto].
Qed.
Lemma pipe_fine k buf s : all_fine k buf -> (s <= length buf)%nat -> (4 * (length buf - s) + 3 <= S k)%nat ->
  fine buf s any (parsepipe (S k) buf s).
Proof.
  intros IH Hs Hk. cbn [parsepipe]. eapply fine_bind; [apply (IH s Hs); lia|]. cbn beta iota. intros c s1 H1 Hc _.
  step_peek s3 b Hp. destruct b; [|cbn; split; [lia|auto]]. step_token tok q e s4 Ht.
  eapply fine_weaken; [|eapply fine_bind; [apply (IH s4); lia|]]; [lia|]. cbn beta iota. intros r s5 H5 Hr _. cbn. split; [lia|auto].
Qed.
Lemma exec_fine k buf s : all_fine k buf -> (s <= length buf)%nat -> (4 * (length buf - s) + 2 <= S k)%nat ->
  fine buf s any (parseexec (S k) buf s).
Proof.
  intros IH Hs Hk. cbn [parseexec]. step_peek s1 b Hp. destruct b; [eapply fine_weaken; [|apply (IH s1); lia]; lia|].
  eapply fine_weaken; [|eapply fine_bind; [apply (parseredirs_fine buf _ _ s1 0); [lia|lia|]|]]; [lia| |].
  - cbn. unfold MAXARGS. split; [lia|apply Forall_nil; done].
  - cbn beta iota. intros c s2 H2 Hc Ha. apply parseexec_fine; [lia|lia|done|by apply Ha].
Qed.
Lemma block_fine k buf s : all_fine k buf -> (s <= length buf)%nat -> (4 * (length buf - s) + 1 <= S k)%nat ->
  fine buf s any (parseblock (S k) buf s).
Proof.
  intros IH Hs Hk. cbn [parseblock]. step_peek s1 b Hp. destruct b; cbn [negb]; [|done]. step_token tok q e s2 Ht.
  eapply fine_weaken; [|eapply fine_bind; [apply (IH s2); lia|]]; [lia|]. cbn beta iota. intros c s3 H3 Hc _.
  step_peek s4 b Hp'. destruct b; cbn [negb]; [|done]. step_token tok' q' e' s5 Ht'.
  pose proof (parseredirs_fine buf (S (length buf - s5)) c s5 0 ltac:(lia) ltac:(lia) Hc) as Hf.
  eapply fine_weaken; [|unfold parseredirs; destruct (parseredirs_loop _ _ _ _) as [[? ?]| |]; [|done|done]; cbn in Hf |- *; naive_solver]. lia.
Qed.
Lemma parsers_fine k buf : all_fine k buf.
Proof.
  induction k as [|k IH]; intros s Hs; [repeat split; lia|].
  repeat split; intros Hk; [apply line_fine|apply pipe_fine|apply exec_fine|apply block_fine]; done.
Qed.

(** C35: The shell's parser ends on every input line: with fuel four times the
    line's length (and four more) it either yields a command, whose strings are
    all words of the line and whose argument vectors fit their arrays, or
    reports a syntax error. *)
Theorem parsecmd_total buf :
  match parsecmd (4 * length buf + 4) buf with
  | POk (c, _) => cmd_ok buf c
  | PPanic _ => True
  | PFuel => False
  end.
Proof.
  destruct (parsers_fine (4 * length buf + 4)%nat buf 0%nat ltac:(lia)) as [H _]. specialize (H ltac:(lia)).
  unfold parsecmd. destruct (parseline _ _ _) as [[c s]| |]; cbn in *; try done.
  destruct (Nat.eqb _ _); cbn; [|done]. by destruct H as (_ & ? & _).
Qed.
