(* ===== verification/ShPrint.v ===== *)
(** * The shell's parser reads back what is printed

    A command tree with its strings is printed with one blank behind every
    token and parentheses where the grammar needs them; the parser, the
    [nulterminate] pass included, gives the tree back. *)

From S2P Require Import Prelude Params Sh ShTotal.

Inductive scmd : Type :=
| SExec (argv : list (list Z))
| SRedir (c : scmd) (file : list Z) (out : bool)
| SPipe (left right : scmd)
| SList (left right : scmd)
| SBack (c : scmd).

(** A redirection of the input, or of the output *)
Definition redir_mode (out : bool) : Z := if out then Z.lor O_WRONLY O_CREATE else O_RDONLY.
Definition redir_fd (out : bool) : Z := if out then 1 else 0.
Definition redir_sym (out : bool) : Z := if out then 62 else 60.

Definition blank : Z := 32.
Definition wtext (ws : list (list Z)) : list Z := concat (map (fun w => w ++ [blank]) ws).
Definition rtext1 (f : list Z) (out : bool) : list Z := redir_sym out :: blank :: f ++ [blank].
Definition paren (l : list Z) : list Z := 40 :: blank :: l ++ [41; blank].
(** [lvl]: 0 in a pipe's left side, 1 in a pipe, 2 before &, 3 a whole line *)
Fixpoint print (lvl : nat) (c : scmd) : list Z :=
  match c with
  | SExec ws => wtext ws
  | SRedir c f out => print 0 c ++ rtext1 f out
  | SPipe l r =>
      let t := print 0 l ++ 124 :: blank :: print 1 r in
      match lvl with O => paren t | _ => t end
  | SBack c =>
      let t := print 2 c ++ [38; blank] in
      match lvl with O | 1%nat => paren t | _ => t end
  | SList l r =>
      let t := print 2 l ++ 59 :: blank :: print 3 r in
      match lvl with O | 1%nat | 2%nat => paren t | _ => t end
  end.

Definition word_ok (w : list Z) : Prop := w <> [] /\ Forall (fun c => is_word c = true /\ c <> 0) w.
Fixpoint valid (c : scmd) : Prop :=
  match c with
  | SExec ws => (length ws < MAXARGS)%nat /\ Forall word_ok ws
  | SRedir c f _ => valid c /\ word_ok f
  | SPipe l r | SList l r => valid l /\ valid r
  | SBack c => valid c
  end.

(** What a parsed command means: [str] reads the string between two pointers. *)
Section Meaning.
Context (str : nat -> nat -> list Z).
Fixpoint meaning (c : cmd) : option scmd :=
  match c with
  | Exec argv => Some (SExec (map (fun a => str a.1 a.2) argv))
  | Redir c q eq mode fd =>
      c ← meaning c;
      if (mode =? redir_mode false) && (fd =? redir_fd false) then Some (SRedir c (str q eq) false)
      else if (mode =? redir_mode true) && (fd =? redir_fd true) then Some (SRedir c (str q eq) true)
      else None
  | Pipe l r => l ← meaning l; r ← meaning r; Some (SPipe l r)
  | List l r => l ← meaning l; r ← meaning r; Some (SList l r)
  | Back c => c ← meaning c; Some (SBack c)
  end.
End Meaning.
(** Before nulterminate the strings are delimited by both pointers... *)
Definition slice (buf : list Z) (q eq : nat) : list Z := take (eq - q) (drop q buf).
(** ... and after it they are C strings. *)
Fixpoint until0 (l : list Z) : list Z :=
  match l with [] => [] | c :: l' => if c =? 0 then [] else c :: until0 l' end.
Definition cstr (mem : list Z) (q : nat) : list Z := until0 (drop q mem).
Definition command (mem : list Z) (c : cmd) : option scmd := meaning (fun q _ => cstr mem q) c.

(** ** nulterminate ends the strings where the tokens end *)
Fixpoint ends (c : cmd) : list nat :=
  match c with
  | Exec argv => map snd argv
  | Redir c _ eq _ _ => eq :: ends c
  | Pipe l r | List l r => ends l ++ ends r
  | Back c => ends c
  end.
Lemma nul_args argv (mem : list Z) i : Forall (fun a : nat * nat => (a.2 < length mem)%nat) argv ->
  fold_left (fun mem a => <[snd a := 0]> mem) argv mem !! i = (if decide (i ∈ map snd argv) then Some 0 else mem !! i) /\
  length (fold_left (fun mem a => <[snd a := 0]> mem) argv mem) = length mem.
Proof.
  revert mem. induction argv as [|[q e] argv IH]; intros mem Hb; cbn [fold_left map snd].
  { rewrite decide_False by apply not_elem_of_nil. done. }
  apply Forall_cons in Hb as [He Hb]. cbn in He. destruct (IH (<[e := 0]> mem)) as [E L].
  { by rewrite length_insert. }
  rewrite E, L, length_insert. split; [|done].
  destruct (decide (i ∈ map snd argv)) as [H|H].
  - rewrite decide_True; [done|by right].
  - destruct (decide (i = e)) as [->|Hne].
    + rewrite list_lookup_insert_eq, decide_True; [done|left|done].
    + rewrite list_lookup_insert_ne, decide_False; [done| |done]. by intros [?|?]%elem_of_cons.
Qed.

Lemma nulterminate_spec t (mem : list Z) i : Forall (fun e => (e < length mem)%nat) (ends t) ->
  nulterminate t mem !! i = (if decide (i ∈ ends t) then Some 0 else mem !! i) /\ length (nulterminate t mem) = length mem.
Proof.
  revert mem i. induction t as [argv|c IH q e m fd|l IHl r IHr|l IHl r IHr|c IH]; intros mem i Hb; cbn [nulterminate ends] in *.
  - apply nul_args. by rewrite Forall_map in Hb.
  - apply Forall_cons in Hb as [He Hb]. destruct (IH mem i Hb) as [E L]. rewrite length_insert, L. split; [|done].
    destruct (decide (i = e)) as [->|Hne].
    + rewrite list_lookup_insert_eq, decide_True; [done|left|lia].
    + rewrite list_lookup_insert_ne, E by done. repeat case_decide; try done; exfalso.
      * match goal with H : ~ _ |- _ => apply H end. by right.
      * match goal with H : _ ∈ _ :: _ |- _ => apply elem_of_cons in H as [?|?]; done end.
  - apply Forall_app in Hb as [Hl Hr]. destruct (IHl mem i Hl) as [El Ll].
    destruct (IHr (nulterminate l mem) i) as [Er Lr]; [by rewrite Ll|]. rewrite Er, El, Lr, Ll. split; [|done].
    repeat case_decide; try done; rewrite elem_of_app in *; tauto.
  - apply Forall_app in Hb as [Hl Hr]. destruct (IHl mem i Hl) as [El Ll].
    destruct (IHr (nulterminate l mem) i) as [Er Lr]; [by rewrite Ll|]. rewrite Er, El, Lr, Ll. split; [|done].
    repeat case_decide; try done; rewrite elem_of_app in *; tauto.
  - by apply IH.
Qed.

Lemma until0_take l n : (forall i, (i < n)%nat -> exists c, l !! i = Some c /\ c <> 0) -> l !! n = Some 0 -> until0 l = take n l.
Proof.
  revert l. induction n as [|n IH]; intros l Hl Hn; destruct l as [|c l]; try done.
  - injection Hn as ->. done.
  - cbn. destruct (Hl 0%nat ltac:(lia)) as (c' & [= <-] & Hc). destruct (Z.eqb_spec c 0); [done|]. f_equal.
    apply IH; [|done]. intros i Hi. apply (Hl (S i)). lia.
Qed.

(** The ends of tokens are bytes that belong to no word. *)
Definition ends_ok (buf : list Z) (es : list nat) : Prop :=
  Forall (fun e => (e <= length buf)%nat /\ ((e < length buf)%nat -> is_word (byte buf e) = false)) es.
Lemma cmd_ok_ends buf t : cmd_ok buf t -> ends_ok buf (ends t).
Proof.
  unfold ends_ok. induction t as [argv|c IH q e m fd|l IHl r IHr|l IHl r IHr|c IH]; cbn.
  - intros [_ H]. rewrite Forall_map. eapply Forall_impl; [exact H|]. intros [q e] ((? & ?) & ? & ?). by split.
  - intros [H ((? & ?) & ? & ?)]. apply Forall_cons. split; [by split|auto].
  - intros [? ?]. apply Forall_app. auto.
  - intros [? ?]. apply Forall_app. auto.
  - done.
Qed.
Lemma cstr_token buf (mem : list Z) es q e : Forall (fun c => c <> 0) buf -> ends_ok buf es -> token buf q e -> e ∈ es ->
  (forall i, mem !! i = if decide (i ∈ es) then Some 0 else (buf ++ [0]) !! i) -> cstr mem q = slice buf q e.
Proof.
  intros Hz Hes ((Hq & He) & Hw & _) Hin Hm. unfold cstr, slice.
  assert (Hi : forall i, (q <= i < e)%nat -> mem !! i = buf !! i).
  { intros i Hi. rewrite Hm, decide_False, lookup_app_l by (lia || intros Hi'; unfold ends_ok in Hes; rewrite Forall_forall in Hes;
      destruct (Hes i Hi') as [_ Hf]; specialize (Hf ltac:(lia)); rewrite (Hw i Hi) in Hf; done). done. }
  rewrite (until0_take _ (e - q)).
  - apply list_eq. intros i. destruct (decide (i < e - q)%nat).
    + rewrite !lookup_take_lt, !lookup_drop by lia. apply Hi. lia.
    + rewrite !lookup_take_ge by lia. done.
  - intros i Hi'. rewrite lookup_drop, Hi by lia. destruct (buf !! (q + i)%nat) as [c|] eqn:E.
    + exists c. split; [done|]. rewrite Forall_lookup in Hz. by apply (Hz _ _ E).
    + apply lookup_ge_None in E. lia.
  - rewrite lookup_drop. replace (q + (e - q))%nat with e by lia. by rewrite Hm, decide_True.
Qed.
Lemma meaning_sub buf (mem : list Z) es t : Forall (fun c => c <> 0) buf -> ends_ok buf es -> cmd_ok buf t ->
  (forall e, e ∈ ends t -> e ∈ es) -> (forall i, mem !! i = if decide (i ∈ es) then Some 0 else (buf ++ [0]) !! i) ->
  command mem t = meaning (slice buf) t.
Proof.
  intros Hz Hes Hok Hin Hm. unfold command. revert Hok Hin.
  induction t as [argv|c IH q e m fd|l IHl r IHr|l IHl r IHr|c IH]; cbn.
  - intros [_ Hok] Hin. do 2 f_equal. apply map_ext_in. intros [q e] Ha. apply list_elem_of_In in Ha.
    rewrite Forall_forall in Hok. apply (cstr_token buf mem es q e Hz Hes (Hok (q, e) Ha)); [|exact Hm].
    apply Hin, list_elem_of_In, (in_map snd _ (q, e)), list_elem_of_In, Ha.
  - intros [Hok Ht] Hin. rewrite IH; [|done|intros; apply Hin; by right].
    rewrite (cstr_token buf mem es q e) by (auto || (apply Hin; left)). done.
  - intros [Hl Hr] Hin. rewrite IHl, IHr; auto; intros; apply Hin; apply elem_of_app; auto.
  - intros [Hl Hr] Hin. rewrite IHl, IHr; auto; intros; apply Hin; apply elem_of_app; auto.
  - intros Hok Hin. rewrite IH; auto.
Qed.
Lemma nulterminate_meaning buf t : Forall (fun c => c <> 0) buf -> cmd_ok buf t ->
  command (nulterminate t (buf ++ [0])) t = meaning (slice buf) t.
Proof.
  intros Hz Hok. pose proof (cmd_ok_ends buf t Hok) as He. apply (meaning_sub buf _ (ends t)); auto.
  intros i. apply nulterminate_spec. eapply Forall_impl; [exact He|]. intros e [? _]. rewrite length_app. cbn. lia.
Qed.

(** ** The scanner at a printed token *)
Definition solid (l : list Z) : Prop := match l with [] => True | c :: _ => is_ws c = false end.
(** The pointer [s] has the text [l] before it. *)
Definition at_text (buf : list Z) (s : nat) (l : list Z) : Prop := (s <= length buf)%nat /\ drop s buf = l.
Lemma at_byte buf s l : at_text buf s l -> byte buf s = match l with [] => 0 | c :: _ => c end.
Proof.
  intros [Hs <-]. unfold byte. rewrite <- (Nat.add_0_r s) at 1. rewrite <- lookup_drop. by destruct (drop s buf).
Qed.
Lemma at_app buf s a b : at_text buf s (a ++ b) -> at_text buf (s + length a) b.
Proof.
  intros [Hs E]. assert (L : length (drop s buf) = length (a ++ b)) by by rewrite E. rewrite length_drop, length_app in L.
  split; [lia|]. by rewrite <- drop_drop, E, drop_app_length.
Qed.
Lemma at_left buf s l : at_text buf s l -> (length buf - s)%nat = length l.
Proof. intros [_ <-]. by rewrite length_drop. Qed.

Lemma scan_at (p : Z -> bool) buf s w rest : at_text buf s (w ++ rest) -> Forall (fun c => p c = true) w ->
  match rest with [] => True | c :: _ => p c = false end -> scan p buf s = (s + length w)%nat.
Proof.
  intros Ha Hw Hr. unfold scan. rewrite (at_left _ _ _ Ha). revert s Ha. induction Hw as [|c w Hc Hw IH]; intros s Ha.
  - cbn [app length]. rewrite Nat.add_0_r. destruct rest as [|c rest]; [done|]. cbn. rewrite (at_byte _ _ _ Ha). cbn. by rewrite Hr.
  - cbn. rewrite (at_byte _ _ _ Ha). cbn. rewrite Hc, IH; [lia|].
    apply (at_app buf s [c]) in Ha. cbn in Ha. by rewrite Nat.add_1_r in Ha.
Qed.
Lemma scan_solid buf s l : at_text buf s l -> solid l -> scan is_ws buf s = s.
Proof. intros Ha Hs. rewrite (scan_at is_ws buf s [] l); [cbn; lia|done|apply Forall_nil; done|by destruct l]. Qed.
Lemma scan_blank buf s l : at_text buf s (blank :: l) -> solid l -> scan is_ws buf s = S s.
Proof. intros Ha Hs. rewrite (scan_at is_ws buf s [blank] l); [cbn; lia|done|by apply Forall_singleton|by destruct l]. Qed.

Lemma peek_at buf s l toks : at_text buf s l -> solid l ->
  peek buf s toks = (s, match l with [] => false | c :: _ => negb (c =? 0) && strchr toks c end).
Proof. intros Ha Hs. unfold peek. rewrite (scan_solid _ _ _ Ha Hs), (at_byte _ _ _ Ha). by destruct l. Qed.
Lemma gettoken_sym buf s c rest : at_text buf s (c :: blank :: rest) -> solid rest -> strchr symbols c = true ->
  exists q e, gettoken buf s = (c, q, e, S (S s)) /\ at_text buf (S (S s)) rest.
Proof.
  intros Ha Hr Hc. apply strchr_In in Hc.
  assert (Hsol : solid (c :: blank :: rest)) by (cbn in Hc |- *; repeat (destruct Hc as [<-|Hc]; [done|]); done).
  pose proof (at_app buf s [c] _ Ha) as Ha1. cbn in Ha1. rewrite Nat.add_1_r in Ha1.
  pose proof (at_app buf s [c; blank] rest Ha) as Ha2. cbn in Ha2. replace (s + 2)%nat with (S (S s)) in Ha2 by lia.
  exists s, (S s). split; [|done]. unfold gettoken. rewrite (scan_solid _ _ _ Ha Hsol). cbn zeta.
  rewrite (at_byte _ _ _ Ha), (at_byte _ _ _ Ha1). pose proof (scan_blank _ _ _ Ha1 Hr) as Hsc.
  cbn in Hc. repeat (destruct Hc as [<-|Hc]; [cbn; rewrite Hsc; done|]). done.
Qed.
Lemma gettoken_word buf s w rest : at_text buf s (w ++ blank :: rest) -> solid rest -> word_ok w ->
  exists s', gettoken buf s = (97, s, (s + length w)%nat, s') /\ at_text buf s' rest /\ slice buf s (s + length w) = w.
Proof.
  intros Ha Hr [Hne Hw]. pose proof (at_app _ _ _ _ Ha) as Ha1. pose proof (at_app buf _ [blank] rest Ha1) as Ha2.
  exists (S (s + length w)). split; [|split; [cbn in Ha2; by rewrite Nat.add_1_r in Ha2|]].
  - destruct w as [|c w]; [done|]. pose proof Hw as [[Hc Hc0] _]%Forall_cons.
    assert (Hsol : solid ((c :: w) ++ blank :: rest)).
    { cbn. unfold is_word in Hc. apply andb_true_iff in Hc as [Hc _]. by apply negb_true_iff in Hc. }
    unfold gettoken. rewrite (scan_solid _ _ _ Ha Hsol), (at_byte _ _ _ Ha). cbn zeta. cbn [app].
    rewrite (proj2 (Z.eqb_neq c 0) Hc0). unfold is_word in Hc. apply andb_true_iff in Hc as [_ Hc]. apply negb_true_iff in Hc.
    assert (Hn : ~ In c symbols) by (rewrite <- strchr_In, Hc; done). cbn in Hn.
    replace (strchr [124; 40; 41; 59; 38; 60] c) with false.
    2:{ symmetry. apply not_true_iff_false. rewrite strchr_In. cbn. tauto. }
    rewrite (proj2 (Z.eqb_neq c 62)) by (intros ->; tauto).
    rewrite (scan_at is_word _ _ _ _ Ha); [|eapply Forall_impl; [exact Hw|by intros ? []]|done].
    by rewrite (scan_blank _ _ _ Ha1 Hr).
  - unfold slice. destruct Ha as [_ ->]. replace (s + length w - s)%nat with (length w) by lia. by rewrite take_app_length.
Qed.

(** ** The loops *)
Definition rtext (rs : list (list Z * bool)) : list Z := concat (map (fun r => rtext1 r.1 r.2) rs).
Definition wrap (c : scmd) (rs : list (list Z * bool)) : scmd := fold_left (fun c r => SRedir c r.1 r.2) rs c.
(** The text after a part of a command: nothing, or one of these bytes *)
Definition stops (cs l : list Z) : Prop := match l with [] => True | c :: _ => In c cs end.
Definition no_redir (l : list Z) : Prop := solid l /\ match l with [] => True | c :: _ => ~ In c [60; 62] end.
Lemma stops_solid cs l : stops cs l -> (forall c, In c cs -> strchr symbols c = true) -> solid l.
Proof.
  destruct l as [|c l]; [done|]. cbn [stops solid]. intros H Hc. apply Hc, strchr_In in H. cbn in H.
  repeat (destruct H as [<-|H]; [done|]). done.
Qed.
Lemma word_app_solid w l : word_ok w -> no_redir (w ++ l).
Proof.
  intros [Hne Hw]. destruct w as [|c w]; [done|]. apply Forall_cons in Hw as [[Hc _] _]. unfold is_word in Hc.
  apply andb_true_iff in Hc as [H1 H2]. apply negb_true_iff in H1, H2. cbn [app]. split; [done|].
  intros H. apply not_true_iff_false in H2. apply H2, strchr_In. cbn in *. tauto.
Qed.
Lemma sym_solid c l : strchr symbols c = true -> solid (c :: l).
Proof. intros H. eapply (stops_solid [c]); [by left|]. by intros ? [<-|[]]. Qed.
Lemma strchr_no toks c : ~ In c toks -> strchr toks c = false.
Proof. rewrite <- strchr_In. by destruct (strchr toks c). Qed.

Lemma redirs_at buf left c d s rs rest : at_text buf s (rtext rs ++ rest) -> no_redir rest ->
  Forall (fun r : list Z * bool => word_ok r.1) rs -> (length buf - s < left)%nat -> meaning (slice buf) c = Some d ->
  exists t s', parseredirs_loop buf left c s = POk (t, s') /\ at_text buf s' rest /\
    meaning (slice buf) t = Some (wrap d rs) /\ (rs = [] -> t = c).
Proof.
  intros Ha [Hsol Hno] Hrs. revert left c d s Ha. induction Hrs as [|[f out] rs Hf Hrs IH]; intros left c d s Ha Hl Hm.
  - destruct left as [|left]; [lia|]. cbn [parseredirs_loop]. rewrite (peek_at _ _ _ _ Ha Hsol).
    exists c, s. split; [|done]. destruct rest as [|x rest]; [done|]. cbn [app rtext map concat]. by rewrite strchr_no, andb_false_r.
  - assert (Esym : rtext ((f, out) :: rs) ++ rest = redir_sym out :: blank :: f ++ blank :: rtext rs ++ rest).
    { unfold rtext, rtext1. cbn. by rewrite <- !app_assoc. }
    rewrite Esym in Ha. destruct left as [|left]; [lia|]. cbn [parseredirs_loop].
    assert (Hs : strchr symbols (redir_sym out) = true) by by destruct out.
    assert (Hsol' : solid (rtext rs ++ rest)) by (destruct rs as [|[g o] rs]; [done|by destruct o]).
    rewrite (peek_at _ _ _ _ Ha (sym_solid _ _ Hs)).
    replace (negb (redir_sym out =? 0) && strchr [60; 62] (redir_sym out)) with true by by destruct out.
    destruct (gettoken_sym _ _ _ _ Ha (proj1 (word_app_solid _ _ Hf)) Hs) as (q0 & e0 & -> & Ha1).
    destruct (gettoken_word _ _ _ _ Ha1 Hsol' Hf) as (s2 & -> & Ha2 & Esl). cbn [negb].
    revert Esl. generalize (S (S s)) as q1, (S (S s) + length f)%nat as e1. intros q1 e1 Esl.
    assert (Hlen : (length buf - s2 < left)%nat).
    { pose proof (at_left _ _ _ Ha2). apply at_left in Ha. rewrite Ha in Hl. cbn in Hl. rewrite length_app in Hl. cbn in Hl. lia. }
    destruct out; (edestruct IH as (t & s' & Et & Ht & Emt & _); [exact Ha2|exact Hlen| |exists t, s'; split; [exact Et|]; split; [done|]; split; [exact Emt|done]]);
      cbn; rewrite Hm; cbn; by rewrite Esl.
Qed.

Lemma exec_stops buf left ret argc s rest : at_text buf s rest -> stops [124; 41; 38; 59] rest -> (0 < left)%nat ->
  parseexec_loop buf left ret argc s = POk (ret, s).
Proof.
  intros Ha Hst Hl. destruct left as [|left]; [lia|]. cbn [parseexec_loop].
  assert (Hsol : solid rest).
  { eapply stops_solid; [exact Hst|]. cbn. intros c H. repeat (destruct H as [<-|H]; [done|]). done. }
  rewrite (peek_at _ _ _ _ Ha Hsol). destruct rest as [|c rest].
  - unfold gettoken. rewrite (scan_solid _ _ _ Ha Hsol). cbn zeta. rewrite (at_byte _ _ _ Ha). cbn. by rewrite (scan_solid _ _ _ Ha Hsol).
  - pose proof Hst as Hin. apply strchr_In in Hin. cbn [stops] in Hst. rewrite Hin.
    cbn in Hst. repeat (destruct Hst as [<-|Hst]; [done|]). done.
Qed.
(** One argument *)
Lemma exec_turn buf left ret argc s w text : at_text buf s (w ++ blank :: text) -> solid text -> word_ok w -> (S argc < MAXARGS)%nat ->
  exists e s2, parseexec_loop buf (S left) ret argc s =
      ('(ret, s) ← parseredirs buf (add_arg ret s e) s2; parseexec_loop buf left ret (S argc) s) /\
    at_text buf s2 text /\ slice buf s e = w.
Proof.
  intros Ha Hsol Hw Hn. destruct (gettoken_word _ _ _ _ Ha Hsol Hw) as (s2 & Et & Ha2 & Esl).
  exists (s + length w)%nat, s2. split; [|done]. cbn [parseexec_loop].
  rewrite (peek_at _ _ _ _ Ha (proj1 (word_app_solid _ _ Hw))), Et.
  replace (match w ++ blank :: text with [] => false | c :: _ => _ end) with false.
  - cbn [negb Z.eqb Pos.eqb]. by rewrite decide_False by lia.
  - destruct Hw as [Hne Hw]. destruct w as [|c w]; [done|]. cbn [app]. apply Forall_cons in Hw as [[Hc _] _].
    unfold is_word in Hc. apply andb_true_iff in Hc as [_ Hc]. apply negb_true_iff, not_true_iff_false in Hc.
    rewrite strchr_In in Hc. rewrite strchr_no, andb_false_r; [done|]. cbn in *. tauto.
Qed.
Lemma stops_no_redir rest : stops [124; 41; 38; 59] rest -> no_redir rest.
Proof.
  intros Hst. split.
  - eapply stops_solid; [exact Hst|]. cbn. intros c H. repeat (destruct H as [<-|H]; [done|]). done.
  - destruct rest as [|c rest]; [done|]. cbn in *. lia.
Qed.
Lemma rtext_solid rs rest : solid rest -> solid (rtext rs ++ rest).
Proof. by destruct rs as [|[g [|]] rs]. Qed.

Lemma exec_at buf left l ws w s rs rest : at_text buf s (wtext (w :: ws) ++ rtext rs ++ rest) -> stops [124; 41; 38; 59] rest ->
  Forall word_ok (w :: ws) -> Forall (fun r : list Z * bool => word_ok r.1) rs -> (length l + length (w :: ws) < MAXARGS)%nat -> (length buf - s < left)%nat ->
  exists t s', parseexec_loop buf left (Exec l) (length l) s = POk (t, s') /\ at_text buf s' rest /\
    meaning (slice buf) t = Some (wrap (SExec (map (fun a => slice buf a.1 a.2) l ++ w :: ws)) rs).
Proof.
  intros Ha Hst Hws Hrs. pose proof (stops_no_redir _ Hst) as Hno.
  revert left l w s Ha Hws. induction ws as [|v ws IH]; intros left l w s Ha Hws Hn Hl.
  all: apply Forall_cons in Hws as [Hw Hws]; destruct left as [|left]; [lia|].
  all: unfold wtext in Ha; cbn [map concat] in Ha; rewrite <- !app_assoc in Ha; cbn [app length] in Ha, Hn.
  - edestruct (exec_turn buf left (Exec l)) as (e & s2 & -> & Ha2 & Esl); [exact Ha|apply rtext_solid, Hno|done|lia|].
    cbn [add_arg]. edestruct (redirs_at buf (S (length buf - s2)) (Exec (l ++ [(s, e)]))) as (t & s3 & Et & Ht & Em & _);
      [exact Ha2|done|done|lia|reflexivity|].
    unfold parseredirs. rewrite Et. cbn [mbind presult_bind]. exists t, s3. split; [|split; [done|]].
    + eapply exec_stops; [done|done|]. apply at_left in Ha. rewrite Ha, length_app in Hl. cbn in Hl. destruct Hw as [Hne _]. destruct w; [done|cbn in Hl; lia].
    + rewrite Em. rewrite map_app. cbn [map fst snd]. by rewrite Esl.
  - pose proof Hws as [Hv _]%Forall_cons.
    edestruct (exec_turn buf left (Exec l)) as (e & s2 & -> & Ha2 & Esl); [exact Ha|apply word_app_solid, Hv|done|lia|].
    cbn [add_arg]. edestruct (redirs_at buf (S (length buf - s2)) (Exec (l ++ [(s, e)])) (SExec (map (fun a => slice buf a.1 a.2) (l ++ [(s, e)]))) s2 []) as (t & s3 & Et & Ht & _ & Htt);
      [exact Ha2|apply word_app_solid, Hv|by apply Forall_nil|lia|reflexivity|].
    specialize (Htt eq_refl). subst t. unfold parseredirs. rewrite Et. cbn [mbind presult_bind].
    destruct (IH left (l ++ [(s, e)]) v s3) as (t & s4 & Et4 & Ht4 & Em4).
    + unfold wtext. cbn [map concat]. rewrite <- !app_assoc. exact Ht.
    + done.
    + rewrite length_app. cbn. lia.
    + pose proof (at_left _ _ _ Ht) as Hlt. apply at_left in Ha. rewrite Ha, length_app in Hl. rewrite Hlt. cbn [length] in Hl. destruct Hw as [Hne _]. destruct w; [done|cbn [length] in Hl; lia].
    + rewrite length_app in Et4. cbn [length] in Et4. rewrite Nat.add_1_r in Et4. exists t, s4. split; [exact Et4|]. split; [done|].
      rewrite Em4, map_app. cbn [map fst snd]. by rewrite Esl, <- app_assoc.
Qed.

Lemma backs_fuel buf l1 l2 c s : (s <= length buf)%nat -> (length buf - s < l1)%nat -> (length buf - s < l2)%nat ->
  backs_loop buf l1 c s = backs_loop buf l2 c s.
Proof.
  revert l2 c s. induction l1 as [|l1 IH]; intros [|l2] c s Hs H1 H2; try lia. cbn [backs_loop].
  step_peek s1 b Hp. destruct b; [|done]. step_token tok q e s2 Ht. apply IH; lia.
Qed.

(** ** The grammar *)
Section Grammar.
Context (buf : list Z).
(** [parse s] reads [text], up to a [rest] in [cs], as the command [c] *)
Definition reads (parse : nat -> nat -> presult (cmd * nat)) (fuel : nat) (cs : list Z) (text : list Z) (c : scmd) : Prop :=
  forall k s rest, at_text buf s (text ++ rest) -> stops cs rest -> (4 * (length buf - s) + fuel <= k)%nat ->
  exists t s', parse k s = POk (t, s') /\ at_text buf s' rest /\ meaning (slice buf) t = Some c.
Definition P0 (c : scmd) : Prop := reads (fun k => parseexec k buf) 2 [124; 41; 38; 59] (print 0 c) c.
Definition P1 (c : scmd) : Prop := reads (fun k => parsepipe k buf) 3 [41; 38; 59] (print 1 c) c.
(** parsepipe and then the loop on & up to the text behind the command *)
Definition P2 (c : scmd) : Prop := forall k s rest, at_text buf s (print 2 c ++ rest) -> stops [41; 38; 59] rest ->
  (4 * (length buf - s) + 3 <= k)%nat ->
  exists t s', ('(c, s) ← parsepipe k buf s; backs_loop buf (S (length buf - s)) c s) = backs_loop buf (S (length buf - s')) t s' /\
    at_text buf s' rest /\ meaning (slice buf) t = Some c.
Definition P3 (c : scmd) : Prop := reads (fun k => parseline k buf) 4 [41] (print 3 c) c.

Lemma stops_sub cs cs' l : incl cs cs' -> stops cs l -> stops cs' l.
Proof. destruct l as [|c l]; cbn; auto. Qed.
Lemma stops_peek cs toks l s : at_text buf s l -> stops cs l -> (forall c, In c cs -> strchr symbols c = true /\ strchr toks c = false) ->
  peek buf s toks = (s, false).
Proof.
  intros Ha Hs Hc. rewrite (peek_at _ _ _ _ Ha) by (eapply stops_solid; [exact Hs|intros ? ?; by apply Hc]).
  destruct l as [|c l]; [done|]. destruct (Hc c Hs) as [_ ->]. by rewrite andb_false_r.
Qed.
Lemma sym_peek c toks l s : at_text buf s (c :: l) -> strchr symbols c = true -> strchr toks c = true -> peek buf s toks = (s, true).
Proof.
  intros Ha Hc Ht. rewrite (peek_at _ _ _ _ Ha (sym_solid _ _ Hc)), Ht.
  apply strchr_In in Hc. cbn in Hc. repeat (destruct Hc as [<-|Hc]; [done|]). done.
Qed.
Ltac in_syms := let H := fresh in intros ? H; cbn in H; repeat (destruct H as [<-|H]; [reflexivity|]); destruct H.
Ltac in_cases := let H := fresh in intros ? H; cbn in H; repeat (destruct H as [<-|H]; [split; reflexivity|]); destruct H.

Lemma lift01 c : print 1 c = print 0 c -> P0 c -> P1 c.
Proof.
  intros Ep H0 k s rest Ha Hst Hk. destruct k as [|k]; [lia|]. cbn [parsepipe]. rewrite Ep in Ha.
  destruct (H0 k s rest Ha) as (t & s' & -> & Ha' & Em); [eapply stops_sub; [|exact Hst]; intros ?; cbn; tauto|lia|].
  cbn [mbind presult_bind]. rewrite (stops_peek _ [124] _ _ Ha' Hst) by in_cases. by exists t, s'.
Qed.
Lemma lift12 c : print 2 c = print 1 c -> P1 c -> P2 c.
Proof.
  intros Ep H1 k s rest Ha Hst Hk. rewrite Ep in Ha. destruct (H1 k s rest Ha Hst Hk) as (t & s' & -> & Ha' & Em).
  by exists t, s'.
Qed.
Lemma P2_line c k s rest : P2 c -> at_text buf s (print 2 c ++ rest) -> stops [41; 59] rest ->
  (4 * (length buf - s) + 3 <= k)%nat ->
  exists t s', ('(c, s) ← parsepipe k buf s; backs_loop buf (S (length buf - s)) c s) = POk (t, s') /\
    at_text buf s' rest /\ meaning (slice buf) t = Some c.
Proof.
  intros H2 Ha Hst Hk. destruct (H2 k s rest Ha) as (t & s' & -> & Ha' & Em); [eapply stops_sub; [|exact Hst]; intros ?; cbn; tauto|lia|].
  exists t, s'. cbn [backs_loop]. by rewrite (stops_peek _ [38] _ _ Ha' Hst) by in_cases.
Qed.
Lemma parseline_S k s : parseline (S k) buf s =
  ('(c, s) ← ('(c, s) ← parsepipe k buf s; backs_loop buf (S (length buf - s)) c s);
   let '(s, b) := peek buf s [59] in
   if b then let '(_, _, _, s) := gettoken buf s in '(r, s) ← parseline k buf s; POk (List c r, s)
   else POk (c, s)).
Proof. cbn [parseline]. by destruct (parsepipe k buf s) as [[c s1]| |]. Qed.

Lemma lift23 c : print 3 c = print 2 c -> P2 c -> P3 c.
Proof.
  intros Ep H2 k s rest Ha Hst Hk. destruct k as [|k]; [lia|]. rewrite parseline_S, Ep in *.
  destruct (P2_line c k s rest H2 Ha) as (t & s' & -> & Ha' & Em); [eapply stops_sub; [|exact Hst]; intros ?; cbn; tauto|lia|].
  cbn [mbind presult_bind]. rewrite (stops_peek _ [59] _ _ Ha' Hst) by in_cases. by exists t, s'.
Qed.

Lemma print_solid lvl c rest : valid c -> solid rest -> solid (print lvl c ++ rest).
Proof.
  revert lvl rest. induction c as [ws|c IH f out|l IHl r IHr|l IHl r IHr|c IH]; intros lvl rest Hv Hr; cbn in Hv |- *.
  - destruct ws as [|w ws]; [done|]. destruct Hv as [_ [Hw _]%Forall_cons]. unfold wtext. cbn. rewrite <- !app_assoc. apply word_app_solid, Hw.
  - rewrite <- app_assoc. apply IH; [apply Hv|]. by destruct out.
  - destruct lvl; [done|]. rewrite <- app_assoc. apply IHl; [apply Hv|done].
  - destruct lvl as [|[|[|lvl]]]; try done. rewrite <- app_assoc. apply IHl; [apply Hv|done].
  - destruct lvl as [|[|lvl]]; try done. rewrite <- app_assoc. by apply IH.
Qed.

Lemma pipe_case l r : valid r -> P0 l -> P1 r -> P1 (SPipe l r).
Proof.
  intros Hv H0 H1 k s rest Ha Hst Hk. cbn [print] in Ha. rewrite <- app_assoc in Ha. cbn [app] in Ha.
  assert (Hsol : solid (print 1 r ++ rest)) by (apply print_solid; [done|]; eapply stops_solid; [exact Hst|in_syms]).
  destruct k as [|k]; [lia|]. cbn [parsepipe].
  destruct (H0 k s _ Ha) as (t & s1 & -> & Ha1 & Em); [cbn; tauto|lia|]. cbn [mbind presult_bind].
  rewrite (sym_peek 124 [124] _ s1 Ha1) by done.
  destruct (gettoken_sym _ _ _ _ Ha1 Hsol eq_refl) as (q & e & -> & Ha2).
  destruct (H1 k _ rest Ha2 Hst) as (t2 & s3 & -> & Ha3 & Em3).
  { pose proof (at_left _ _ _ Ha2). pose proof (at_left _ _ _ Ha) as Hl. rewrite Hl, length_app in Hk. cbn [length] in Hk. lia. }
  exists (Pipe t t2), s3. split; [done|]. split; [done|]. cbn. by rewrite Em, Em3.
Qed.
Lemma back_case c : P2 c -> P2 (SBack c).
Proof.
  intros H2 k s rest Ha Hst Hk. cbn [print] in Ha. rewrite <- app_assoc in Ha. cbn [app] in Ha.
  destruct (H2 k s _ Ha) as (t & s1 & -> & Ha1 & Em); [cbn; tauto|lia|].
  cbn [backs_loop]. rewrite (sym_peek 38 [38] _ s1 Ha1) by done.
  assert (Hsol : solid rest) by (eapply stops_solid; [exact Hst|in_syms]).
  destruct (gettoken_sym _ _ _ _ Ha1 Hsol eq_refl) as (q & e & -> & Ha2).
  exists (Back t), (S (S s1)). split; [|split; [done|cbn; by rewrite Em]].
  pose proof (at_left _ _ _ Ha1) as Hl1. pose proof (at_left _ _ _ Ha2) as Hl2. cbn in Hl1.
  refine (backs_fuel buf (length buf - s1) (S (length buf - S (S s1))) (Back t) (S (S s1)) _ _ _); [apply Ha2|lia|lia].
Qed.
Lemma list_case l r : valid r -> P2 l -> P3 r -> P3 (SList l r).
Proof.
  intros Hv H2 H3 k s rest Ha Hst Hk. cbn [print] in Ha. rewrite <- app_assoc in Ha. cbn [app] in Ha.
  assert (Hsol : solid (print 3 r ++ rest)) by (apply print_solid; [done|]; eapply stops_solid; [exact Hst|in_syms]).
  destruct k as [|k]; [lia|]. rewrite parseline_S.
  destruct (P2_line l k s _ H2 Ha) as (t & s1 & -> & Ha1 & Em); [cbn; tauto|lia|]. cbn [mbind presult_bind].
  rewrite (sym_peek 59 [59] _ s1 Ha1) by done.
  destruct (gettoken_sym _ _ _ _ Ha1 Hsol eq_refl) as (q & e & -> & Ha2).
  destruct (H3 k _ rest Ha2 Hst) as (t2 & s3 & -> & Ha3 & Em3).
  { pose proof (at_left _ _ _ Ha2). pose proof (at_left _ _ _ Ha) as Hl. rewrite Hl, length_app in Hk. cbn [length] in Hk. lia. }
  exists (List t t2), s3. split; [done|]. split; [done|]. cbn. by rewrite Em, Em3.
Qed.

(** A block, or a command with arguments, under redirections *)
Lemma block_case b rs : valid b -> Forall (fun r : list Z * bool => word_ok r.1) rs -> P3 b ->
  reads (fun k => parseexec k buf) 2 [124; 41; 38; 59] (paren (print 3 b) ++ rtext rs) (wrap b rs).
Proof.
  intros Hv Hrs H3 k s rest Ha Hst Hk. unfold paren in Ha. cbn [app] in Ha. rewrite <- !app_assoc in Ha. cbn [app] in Ha.
  pose proof (stops_no_redir _ Hst) as Hno.
  assert (Hsol : solid (print 3 b ++ 41 :: blank :: rtext rs ++ rest)) by (apply print_solid; done).
  pose proof (at_left _ _ _ Ha) as Hl. cbn [length] in Hl. rewrite length_app in Hl. cbn [length] in Hl.
  destruct k as [|[|k]]; [lia|lia|]. cbn [parseexec]. rewrite (sym_peek 40 [40] _ s Ha) by done.
  cbn [parseblock]. rewrite (sym_peek 40 [40] _ s Ha) by done. cbn [negb].
  destruct (gettoken_sym _ _ _ _ Ha Hsol eq_refl) as (q & e & -> & Ha1). pose proof (at_left _ _ _ Ha1) as Hl1. rewrite length_app in Hl1. cbn [length] in Hl1.
  destruct (H3 k _ _ Ha1) as (t & s2 & -> & Ha2 & Em); [cbn; tauto|lia|]. cbn [mbind presult_bind].
  rewrite (sym_peek 41 [41] _ s2 Ha2) by done. cbn [negb].
  destruct (gettoken_sym _ _ _ _ Ha2 (rtext_solid rs rest (proj1 Hno)) eq_refl) as (q' & e' & -> & Ha3).
  destruct (redirs_at buf (S (length buf - S (S s2))) t b _ rs rest Ha3 Hno Hrs ltac:(lia) Em) as (t' & s' & Et & Ht & Em' & _).
  unfold parseredirs. by exists t', s'.
Qed.
Lemma exec_peek ws rs s rest : at_text buf s (wtext ws ++ rtext rs ++ rest) -> Forall word_ok ws -> solid rest ->
  match rest with [] => True | c :: _ => c <> 40 end -> peek buf s [40] = (s, false).
Proof.
  intros Ha Hws Hsol Hr. destruct ws as [|w ws].
  - cbn [wtext map concat app] in Ha. rewrite (peek_at _ _ _ _ Ha) by by apply rtext_solid.
    destruct rs as [|[g [|]] rs]; [|done..]. destruct rest as [|c rest]; [done|]. cbn [rtext map concat app].
    rewrite strchr_no, andb_false_r; [done|]. cbn. naive_solver.
  - apply Forall_cons in Hws as [Hw _]. unfold wtext in Ha. cbn [map concat] in Ha. rewrite <- !app_assoc in Ha.
    rewrite (peek_at _ _ _ _ Ha (proj1 (word_app_solid _ _ Hw))). destruct Hw as [Hne Hw]. destruct w as [|c w]; [done|].
    apply Forall_cons in Hw as [[Hc _] _]. cbn [app]. rewrite strchr_no, andb_false_r; [done|].
    intros [<-|[]]. done.
Qed.
Lemma exec_case ws rs : (length ws < MAXARGS)%nat -> Forall word_ok ws -> Forall (fun r : list Z * bool => word_ok r.1) rs ->
  reads (fun k => parseexec k buf) 2 [124; 41; 38; 59] (wtext ws ++ rtext rs) (wrap (SExec ws) rs).
Proof.
  intros Hn Hws Hrs k s rest Ha Hst Hk. rewrite <- app_assoc in Ha. destruct k as [|k]; [lia|]. cbn [parseexec].
  pose proof (stops_no_redir _ Hst) as Hno.
  assert (Hpk : peek buf s [40] = (s, false)) by (eapply exec_peek; [exact Ha|done|apply Hno|destruct rest; cbn in *; lia]).
  rewrite Hpk. unfold parseredirs. destruct ws as [|w ws].
  - destruct (redirs_at buf (S (length buf - s)) (Exec []) (SExec []) s rs rest Ha Hno Hrs ltac:(lia) eq_refl) as (t & s' & -> & Ht & Em & _).
    cbn [mbind presult_bind]. exists t, s'. split; [|done]. eapply exec_stops; [done|done|lia].
  - pose proof Hws as [Hw _]%Forall_cons. assert (Hnr : no_redir (wtext (w :: ws) ++ rtext rs ++ rest)).
    { unfold wtext. cbn. rewrite <- !app_assoc. by apply word_app_solid. }
    destruct (redirs_at buf (S (length buf - s)) (Exec []) (SExec []) s [] _ Ha Hnr ltac:(by apply Forall_nil) ltac:(lia) eq_refl) as (t & s' & -> & Ht & _ & Et).
    specialize (Et eq_refl). subst t. cbn [mbind presult_bind].
    apply (exec_at buf (S (length buf - s')) [] ws w s' rs rest Ht Hst Hws Hrs); [cbn in *; lia|lia].
Qed.

(** ** Every command *)
Fixpoint base (c : scmd) : scmd := match c with SRedir c _ _ => base c | _ => c end.
Fixpoint redirs (c : scmd) : list (list Z * bool) := match c with SRedir c f out => redirs c ++ [(f, out)] | _ => [] end.
Lemma wrap_base c : wrap (base c) (redirs c) = c.
Proof. induction c as [|c IH f out| | |]; cbn; try done. unfold wrap in *. by rewrite fold_left_app, IH. Qed.
Lemma print_base c : print 0 c = match base c with SExec ws => wtext ws | b => paren (print 3 b) end ++ rtext (redirs c).
Proof.
  induction c as [ws|c IH f out| | |]; cbn [print base redirs]; try by rewrite app_nil_r.
  rewrite IH, <- app_assoc. f_equal. unfold rtext. rewrite map_app, concat_app. cbn. by rewrite app_nil_r.
Qed.
Lemma valid_base c : valid c -> valid (base c) /\ Forall (fun r : list Z * bool => word_ok r.1) (redirs c).
Proof.
  induction c as [|c IH f out| | |]; cbn [base redirs]; intros H; try (split; [done|by apply Forall_nil]).
  destruct H as [H Hf]. destruct (IH H) as [Hb Hr]. split; [done|]. apply Forall_app. split; [done|]. by apply Forall_singleton.
Qed.
Lemma base_P0 c : valid c -> P3 (base c) \/ (exists ws, base c = SExec ws) -> P0 c.
Proof.
  intros Hv Hb. destruct (valid_base c Hv) as [Hvb Hr]. unfold P0. rewrite <- (wrap_base c) at 2. rewrite print_base.
  destruct (base c) as [ws|d f out|l r|l r|d] eqn:E; [apply exec_case; [apply Hvb..|done]| | | |].
  all: destruct Hb as [Hb|[ws Hb]]; [|done]; by apply block_case.
Qed.

Lemma all_levels c : valid c -> P0 c /\ P1 c /\ P2 c /\ P3 c /\ (P3 (base c) \/ exists ws, base c = SExec ws).
Proof.
  induction c as [ws|c IH f out|l IHl r IHr|l IHl r IHr|c IH]; intros Hv.
  - assert (H0 : P0 (SExec ws)) by (apply base_P0; [done|by right; exists ws]).
    assert (H1 := lift01 (SExec ws) eq_refl H0). assert (H2 := lift12 (SExec ws) eq_refl H1). assert (H3 := lift23 (SExec ws) eq_refl H2).
    repeat split; try done. right. by exists ws.
  - destruct (IH (proj1 Hv)) as (_ & _ & _ & _ & Hb).
    assert (H0 : P0 (SRedir c f out)) by (by apply base_P0).
    assert (H1 := lift01 (SRedir c f out) eq_refl H0). assert (H2 := lift12 (SRedir c f out) eq_refl H1). assert (H3 := lift23 (SRedir c f out) eq_refl H2).
    repeat split; done.
  - destruct (IHl (proj1 Hv)) as (H0 & _). destruct (IHr (proj2 Hv)) as (_ & H1 & _).
    assert (H1' := pipe_case l r (proj2 Hv) H0 H1). assert (H2 := lift12 (SPipe l r) eq_refl H1'). assert (H3 := lift23 (SPipe l r) eq_refl H2).
    repeat split; try done; [apply base_P0; [done|by left]|by left].
  - destruct (IHl (proj1 Hv)) as (_ & _ & H2 & _). destruct (IHr (proj2 Hv)) as (_ & _ & _ & H3 & _).
    assert (H3' := list_case l r (proj2 Hv) H2 H3).
    assert (H0 : P0 (SList l r)) by (apply base_P0; [done|by left]). assert (H1 := lift01 (SList l r) eq_refl H0).
    repeat split; try done; [by apply lift12|by left].
  - destruct (IH Hv) as (_ & _ & H2 & _). assert (H2' := back_case c H2). assert (H3 := lift23 (SBack c) eq_refl H2').
    assert (H0 : P0 (SBack c)) by (apply base_P0; [done|by left]).
    repeat split; try done; [by apply lift01|by left].
Qed.
End Grammar.

Ltac nz := repeat first [apply Forall_nil; exact I | apply Forall_cons; split; [done|] | apply Forall_app; split].
Lemma print_nonzero lvl c : valid c -> Forall (fun b => b <> 0) (print lvl c).
Proof.
  assert (Hword : forall w, word_ok w -> Forall (fun b => b <> 0) w).
  { intros w [_ H]. eapply Forall_impl; [exact H|]. by intros ? []. }
  revert lvl. induction c as [ws|c IH f out|l IHl r IHr|l IHl r IHr|c IH]; intros lvl Hv; cbn [print] in *.
  - destruct Hv as [_ Hws]. unfold wtext. apply Forall_concat. rewrite Forall_map. eapply Forall_impl; [exact Hws|].
    intros w Hw. apply Forall_app. split; [auto|by apply Forall_singleton].
  - destruct Hv as [Hv Hf]. unfold rtext1. destruct out; nz; auto.
  - destruct Hv. destruct lvl; unfold paren; nz; auto.
  - destruct Hv. destruct lvl as [|[|[|]]]; unfold paren; nz; auto.
  - destruct lvl as [|[|]]; unfold paren; nz; auto.
Qed.

Lemma parse_printed c : valid c -> let buf := print 3 c in
  exists t, parsecmd (4 * length buf + 4) buf = POk (t, nulterminate t (buf ++ [0])) /\ cmd_ok buf t /\
    meaning (slice buf) t = Some c.
Proof.
  intros Hv buf. destruct (all_levels buf c Hv) as (_ & _ & _ & H3 & _).
  assert (Ha : at_text buf 0 (print 3 c ++ [])) by (split; [lia|by rewrite app_nil_r]).
  destruct (H3 (4 * length buf + 4)%nat 0%nat [] Ha I ltac:(lia)) as (t & s & E & Ht & Em).
  exists t. unfold parsecmd. rewrite E. cbn [mbind presult_bind].
  rewrite (peek_at _ _ _ _ Ht I). pose proof (at_left _ _ _ Ht) as Hl. destruct Ht as [Hs _]. cbn in Hl.
  rewrite (proj2 (Nat.eqb_eq s (length buf))) by lia. split; [done|]. split; [|done].
  destruct (parsers_fine (4 * length buf + 4)%nat buf 0%nat ltac:(lia)) as [Hf _]. specialize (Hf ltac:(lia)). rewrite E in Hf.
  by destruct Hf as (_ & Hok & _).
Qed.

(** C11: The shell's parser is an inverse of printing: a command of words,
    redirections, pipes, lists and background commands, printed with
    parentheses where they are needed, is parsed without error into the same
    command, whose strings nulterminate has terminated in the line itself. *)
Theorem parse_print c : valid c ->
  exists t mem, parsecmd (4 * length (print 3 c) + 4) (print 3 c) = POk (t, mem) /\ command mem t = Some c.
Proof.
  intros Hv. destruct (parse_printed c Hv) as (t & E & Hok & Em). exists t, (nulterminate t (print 3 c ++ [0])).
  split; [exact E|]. rewrite nulterminate_meaning; [done|by apply print_nonzero|done].
Qed.

(** ( a b | c > d ) > f & ; e *)
Definition sample : scmd :=
  SList (SBack (SRedir (SPipe (SExec [[97]; [98]]) (SRedir (SExec [[99]]) [100] true)) [102] true)) (SExec [[101]]).
Lemma parse_print_witness :
  print 3 sample = [40; 32; 97; 32; 98; 32; 124; 32; 99; 32; 62; 32; 100; 32; 41; 32; 62; 32; 102; 32; 38; 32; 59; 32; 101; 32] /\
  exists t mem, parsecmd (4 * length (print 3 sample) + 4) (print 3 sample) = POk (t, mem) /\ command mem t = Some sample.
Proof.
  split; [reflexivity|]. apply (parse_print sample). cbn. unfold word_ok, MAXARGS.
  repeat first [split | constructor]; first [lia | discriminate | reflexivity].
Defined.
