(* ===== verification/ShLine.v ===== *)
(** * The line as it is typed

    The parser does not see which blank is where, so that a printed command
    whose last blank is the newline that ended the line parses the same. *)

From S2P Require Import Prelude Params Sh ShTotal ShPrint.

Lemma ws_cases c : is_ws c = true -> In c whitespace.
Proof. apply strchr_In. Qed.
Lemma ws_no c toks : is_ws c = true -> incl toks symbols -> strchr toks c = false.
Proof.
  intros Hc%ws_cases Ht. destruct (strchr toks c) eqn:E; [|done]. apply strchr_In, Ht in E. cbn in Hc, E. lia.
Qed.
Lemma ws_plain c : is_ws c = true -> (c =? 0) = false /\ (c =? 62) = false /\ is_word c = false.
Proof. intros Hc. unfold is_word. rewrite Hc. apply ws_cases in Hc. cbn in Hc. split; [|split]; [lia..|done]. Qed.

Section Same.
Context (b b' : list Z).
Hypothesis same_length : length b = length b'.
Hypothesis same : forall i, byte b i = byte b' i \/ (is_ws (byte b i) = true /\ is_ws (byte b' i) = true).

Lemma same_test (p : Z -> bool) i : (forall c c', is_ws c = true -> is_ws c' = true -> p c = p c') -> p (byte b i) = p (byte b' i).
Proof using same. intros Hp. destruct (same i) as [->|[H1 H2]]; [done|by apply Hp]. Qed.

Lemma same_scan_loop p left s : (forall c c', is_ws c = true -> is_ws c' = true -> p c = p c') ->
  scan_loop p b left s = scan_loop p b' left s.
Proof using same.
  intros Hp. revert s. induction left as [|left IH]; intros s; cbn [scan_loop]; [done|]. rewrite (same_test p s Hp), IH. done.
Qed.
Lemma same_ws s : scan is_ws b s = scan is_ws b' s.
Proof using All. unfold scan. rewrite same_length. apply same_scan_loop. by intros ? ? -> ->. Qed.
Lemma same_word s : scan is_word b s = scan is_word b' s.
Proof using All.
  unfold scan. rewrite same_length. apply same_scan_loop. intros c c' H H'.
  destruct (ws_plain c H) as (_ & _ & ->), (ws_plain c' H') as (_ & _ & ->). done.
Qed.
Lemma same_peek s toks : incl toks symbols -> peek b s toks = peek b' s toks.
Proof using All.
  intros Ht. unfold peek. rewrite same_ws. f_equal.
  apply (same_test (fun c => negb (c =? 0) && strchr toks c)). intros c c' H H'. by rewrite !(ws_no _ toks), !andb_false_r.
Qed.
Lemma same_token s : gettoken b s = gettoken b' s.
Proof using All.
  unfold gettoken. rewrite same_ws. set (i := scan is_ws b' s).
  assert (E62 : forall j, (byte b j =? 62) = (byte b' j =? 62)).
  { intros j. apply (same_test (fun c => c =? 62)). intros c c' H H'. destruct (ws_plain c H) as (_ & -> & _), (ws_plain c' H') as (_ & -> & _). done. }
  rewrite same_word. destruct (same i) as [->|[H H']].
  - destruct (byte b' i =? 0); [by rewrite same_ws|]. destruct (strchr _ (byte b' i)); [by rewrite same_ws|].
    destruct (byte b' i =? 62); [|by rewrite same_ws]. rewrite E62. destruct (_ =? 62); by rewrite same_ws.
  - destruct (ws_plain _ H) as (-> & -> & _), (ws_plain _ H') as (-> & -> & _).
    rewrite !(ws_no _ [124; 40; 41; 59; 38; 60]) by (done || (intros ?; cbn; tauto)). by rewrite same_ws.
Qed.

Ltac syms := let x := fresh in intros x; cbn; tauto.
Lemma same_redirs_loop left c s : parseredirs_loop b left c s = parseredirs_loop b' left c s.
Proof using All.
  revert c s. induction left as [|left IH]; intros c s; cbn [parseredirs_loop]; [done|]. rewrite same_peek by syms.
  destruct (peek b' s [60; 62]) as [s1 []]; [|done]. rewrite same_token. destruct (gettoken b' s1) as [[[tok q] e] s2].
  rewrite same_token. destruct (gettoken b' s2) as [[[t q2] e2] s3]. case_match; [done|]. apply IH.
Qed.
Lemma same_redirs c s : parseredirs b c s = parseredirs b' c s.
Proof using All. unfold parseredirs. rewrite same_length. apply same_redirs_loop. Qed.
Lemma same_exec_loop left ret argc s : parseexec_loop b left ret argc s = parseexec_loop b' left ret argc s.
Proof using All.
  revert ret argc s. induction left as [|left IH]; intros ret argc s; cbn [parseexec_loop]; [done|]. rewrite same_peek by syms.
  destruct (peek b' s _) as [s1 []]; [done|]. rewrite same_token. destruct (gettoken b' s1) as [[[tok q] e] s2].
  do 2 (case_match; [done|]). case_decide; [done|]. rewrite same_redirs. destruct (parseredirs b' _ s2) as [[r s3]| |]; [|done|done]. apply IH.
Qed.
Lemma same_backs left c s : backs_loop b left c s = backs_loop b' left c s.
Proof using All.
  revert c s. induction left as [|left IH]; intros c s; cbn [backs_loop]; [done|]. rewrite same_peek by syms.
  destruct (peek b' s _) as [s1 []]; [|done]. rewrite same_token. destruct (gettoken b' s1) as [[[tok q] e] s2]. apply IH.
Qed.
Lemma same_parsers k : forall s, parseline k b s = parseline k b' s /\ parsepipe k b s = parsepipe k b' s /\
  parseexec k b s = parseexec k b' s /\ parseblock k b s = parseblock k b' s.
Proof using All.
  induction k as [|k IH]; intros s; [done|].
  assert (IHl : forall s, parseline k b s = parseline k b' s) by (intros; apply IH).
  assert (IHp : forall s, parsepipe k b s = parsepipe k b' s) by (intros; apply IH).
  assert (IHe : forall s, parseexec k b s = parseexec k b' s) by (intros; apply IH).
  assert (IHb : forall s, parseblock k b s = parseblock k b' s) by (intros; apply IH).
  split; [|split; [|split]]; cbn [parseline parsepipe parseexec parseblock].
  - rewrite IHp. destruct (parsepipe k b' s) as [[c s1]| |]; cbn [mbind presult_bind]; [|done|done]. rewrite same_length, same_backs.
    destruct (backs_loop b' _ c s1) as [[c2 s2]| |]; cbn [mbind presult_bind]; [|done|done]. rewrite same_peek by syms.
    destruct (peek b' s2 _) as [s3 []]; [|done]. rewrite same_token. destruct (gettoken b' s3) as [[[? ?] ?] s4]. by rewrite IHl.
  - rewrite IHe. destruct (parseexec k b' s) as [[c s1]| |]; cbn [mbind presult_bind]; [|done|done]. rewrite same_peek by syms.
    destruct (peek b' s1 _) as [s3 []]; [|done]. rewrite same_token. destruct (gettoken b' s3) as [[[? ?] ?] s4]. by rewrite IHp.
  - rewrite same_peek by syms. destruct (peek b' s _) as [s1 []]; [by rewrite IHb|]. rewrite same_redirs.
    destruct (parseredirs b' _ s1) as [[c s2]| |]; cbn [mbind presult_bind]; [|done|done]. by rewrite same_length, same_exec_loop.
  - rewrite same_peek by syms. destruct (peek b' s _) as [s1 []]; [|done]. cbn [negb]. rewrite same_token.
    destruct (gettoken b' s1) as [[[? ?] ?] s2]. rewrite IHl. destruct (parseline k b' s2) as [[c s3]| |]; cbn [mbind presult_bind]; [|done|done].
    rewrite same_peek by syms. destruct (peek b' s3 _) as [s4 []]; [|done]. cbn [negb]. rewrite same_token.
    destruct (gettoken b' s4) as [[[? ?] ?] s5]. apply same_redirs.
Qed.
Lemma same_parsecmd k t : parsecmd k b = POk (t, nulterminate t (b ++ [0])) -> parsecmd k b' = POk (t, nulterminate t (b' ++ [0])).
Proof using All.
  unfold parsecmd. rewrite (proj1 (same_parsers k 0%nat)). destruct (parseline k b' 0) as [[c s]| |]; cbn [mbind presult_bind]; [|done|done].
  rewrite same_peek by syms. destruct (peek b' s []) as [s1 b1]. rewrite same_length. case_match; [done|]. by intros [= -> _].
Qed.

Lemma same_slice q e : token b q e -> slice b q e = slice b' q e /\ token b' q e.
Proof using All.
  intros ((Hq & He) & Hw & Hend). assert (Hi : forall i, (q <= i < e)%nat -> byte b i = byte b' i).
  { intros i Hi. destruct (same i) as [E|[H _]]; [done|]. apply ws_plain in H as (_ & _ & H). rewrite (Hw i Hi) in H. done. }
  assert (Hl : forall i, (q <= i < e)%nat -> b !! i = b' !! i).
  { intros i Hi'. specialize (Hi i Hi'). unfold byte in Hi. destruct (lookup_lt_is_Some_2 b i ltac:(lia)) as [x Ex], (lookup_lt_is_Some_2 b' i ltac:(lia)) as [y Ey].
    rewrite Ex, Ey in *. cbn in Hi. by subst. }
  split.
  - unfold slice. apply list_eq. intros i. destruct (decide (i < e - q)%nat).
    + rewrite !lookup_take_lt, !lookup_drop by lia. apply Hl. lia.
    + rewrite !lookup_take_ge by lia. done.
  - split; [lia|]. split; [intros i Hi'; rewrite <- Hi by done; by apply Hw|]. intros He'.
    destruct (same e) as [<-|[_ H]]; [apply Hend; lia|]. by apply ws_plain in H as (_ & _ & ->).
Qed.
Lemma same_meaning t : cmd_ok b t -> meaning (slice b) t = meaning (slice b') t /\ cmd_ok b' t.
Proof using All.
  induction t as [argv|c IH q e m fd|l IHl r IHr|l IHl r IHr|c IH]; cbn [cmd_ok meaning].
  - intros [Hlen Hargs]. split.
    + do 2 f_equal. apply map_ext_in. intros [q e] Ha. rewrite Forall_forall in Hargs.
      apply same_slice, (Hargs (q, e)). by apply list_elem_of_In.
    + split; [done|]. eapply Forall_impl; [exact Hargs|]. intros [q e] Ht. by apply same_slice.
  - intros [Hc Ht]. destruct (IH Hc) as [-> ?], (same_slice q e Ht) as [-> ?]. done.
  - intros [Hl Hr]. destruct (IHl Hl) as [-> ?], (IHr Hr) as [-> ?]. done.
  - intros [Hl Hr]. destruct (IHl Hl) as [-> ?], (IHr Hr) as [-> ?]. done.
  - intros Hc. destruct (IH Hc) as [-> ?]. done.
Qed.
End Same.

(** ** The command at the prompt *)
(** A command as it is typed: its last blank is the newline *)
Definition typed_line (c : scmd) : list Z := removelast (print 3 c) ++ [10].
Definition blank_end (l : list Z) : Prop := l = [] \/ exists l', l = l' ++ [blank].
Lemma blank_end_app a l : (l = [] -> blank_end a) -> blank_end l -> blank_end (a ++ l).
Proof.
  intros Ha [->|[l' ->]]; [rewrite app_nil_r; by apply Ha|]. right. exists (a ++ l'). by rewrite app_assoc.
Qed.
Lemma blank_end_snoc l : blank_end (l ++ [blank]).
Proof. right. by exists l. Qed.
Lemma print_ends_blank c : forall lvl, blank_end (print lvl c).
Proof.
  assert (Hp : forall l, blank_end (paren l)).
  { intros l. unfold paren. right. exists (40 :: blank :: l ++ [41]). cbn. by rewrite <- app_assoc. }
  assert (Hs : forall x l, blank_end l -> blank_end (x :: blank :: l)).
  { intros x l Hl. apply (blank_end_app [x; blank]); [|done]. intros _. right. by exists [x]. }
  induction c as [ws|c IH f out|l IHl r IHr|l IHl r IHr|c IH]; intros lvl; cbn [print].
  - unfold wtext. induction ws as [|w ws IH]; [by left|]. cbn [map concat]. apply blank_end_app; [intros _; apply blank_end_snoc|done].
  - apply blank_end_app; [done|]. unfold rtext1. apply Hs. apply blank_end_snoc.
  - destruct lvl; [apply Hp|]; (apply blank_end_app; [done|apply Hs; done]).
  - destruct lvl as [|[|[|]]]; [apply Hp..|]; (apply blank_end_app; [done|apply Hs; done]).
  - destruct lvl as [|[|]]; [apply Hp..|]; (apply blank_end_app; [done|apply Hs; by left]).
Qed.
Lemma byte_last l x i : byte (l ++ [x]) i = if decide (i = length l) then x else byte l i.
Proof.
  unfold byte. case_decide as H; [subst; by rewrite lookup_app_r, Nat.sub_diag by lia|].
  destruct (Nat.lt_ge_cases i (length l)); [by rewrite lookup_app_l by lia|].
  rewrite lookup_app_r, !lookup_ge_None_2; [done|lia|cbn; lia|lia].
Qed.
Lemma parse_typed c : valid c -> print 3 c <> [] ->
  exists t mem, parsecmd (4 * length (typed_line c) + 4) (typed_line c) = POk (t, mem) /\ command mem t = Some c.
Proof.
  intros Hv Hne. destruct (parse_printed c Hv) as (t & E & Hok & Em). pose proof (print_nonzero 3 c Hv) as Hz.
  unfold typed_line. destruct (print_ends_blank c 3) as [?|[l El]]; [done|]. rewrite El in *. rewrite removelast_last.
  assert (Hlen : length (l ++ [blank]) = length (l ++ [10])) by (by rewrite !length_app).
  assert (Hsame : forall i, byte (l ++ [blank]) i = byte (l ++ [10]) i \/ (is_ws (byte (l ++ [blank]) i) = true /\ is_ws (byte (l ++ [10]) i) = true)).
  { intros i. rewrite !byte_last. case_decide; [by right|by left]. }
  exists t, (nulterminate t ((l ++ [10]) ++ [0])). rewrite <- Hlen. split; [by apply (same_parsecmd _ _ Hlen Hsame)|].
  destruct (same_meaning _ _ Hlen Hsame t Hok) as [Em' Hok']. rewrite nulterminate_meaning; [by rewrite <- Em'| |done].
  apply Forall_app in Hz as [Hz _]. apply Forall_app. split; [done|by repeat constructor].
Qed.
