(* ===== verification/ShRun.v ===== *)
(** * Running a command (sh.c: runcmd, fork1, panic)

    A user program is the tree of its system calls: each call names what it
    does next, by the call's result; a fork names what the child and what the
    parent does. [run] gives every call the effect it has on the descriptor
    table of its process, so that the processes of a command, the descriptors
    they have and who waits for whom can be compared with the meaning of the
    command. *)

From S2P Require Import Prelude Sh ShTotal ShPrint.

Inductive prog : Type :=
| Exit
| ExecOrElse (argv : list (list Z)) (failed : prog)
| Close (fd : nat) (k : prog)
| Dup (fd : nat) (k : prog)
| Open (file : list Z) (mode : Z) (k : bool -> prog)
| MakePipe (k : option (nat * nat) -> prog)
| Fork (child parent failed : prog)
| Wait (k : prog)
| Printf (fd : nat) (msg : string) (arg : list Z) (k : prog).

(** panic: printf(2, "%s\n", s); exit() *)
Definition panic (s : string) : prog := Printf 2 s [] Exit.
(** fork1: fork, and panic when it fails *)
Definition fork1 (child parent : prog) : prog := Fork child parent (panic "fork").

(** Every path through runcmd ends in exit. *)
Fixpoint runcmd (c : scmd) : prog :=
  match c with
  | SExec [] => Exit
  | SExec (a :: argv) => ExecOrElse (a :: argv) (Printf 2 "exec %s failed" a Exit)
  | SRedir c file out =>
      Close (Z.to_nat (redir_fd out))
        (Open file (redir_mode out) (fun ok =>
           if ok then runcmd c else Printf 2 "open %s failed" file Exit))
  | SList l r => fork1 (runcmd l) (Wait (runcmd r))
  | SPipe l r =>
      MakePipe (fun p =>
        match p with
        | None => panic "pipe"
        | Some (p0, p1) =>
            fork1 (Close 1 (Dup p1 (Close p0 (Close p1 (runcmd l)))))
              (fork1 (Close 0 (Dup p0 (Close p0 (Close p1 (runcmd r)))))
                 (Close p0 (Close p1 (Wait (Wait Exit)))))
        end)
  | SBack c => fork1 (runcmd c) Exit
  end.

(** ** Descriptor tables *)
(** What a descriptor refers to; a pipe is named by where it was made *)
Inductive desc : Type :=
| Console
| FileFor (file : list Z) (mode : Z)
| PipeRead (id : positive)
| PipeWrite (id : positive).
Definition table : Type := list (option desc).

(** The lowest free descriptor (sysfile.c's fdalloc) *)
Definition lowest (t : table) : option nat := find_index (fun d => match d with None => true | _ => false end) t.
Definition alloc (t : table) (d : desc) : option (nat * table) :=
  match lowest t with Some fd => Some (fd, <[fd := Some d]> t) | None => None end.

(** What the processes of a command do, the descriptors aside: a process starts
    a child and goes on, waits for a child, becomes another program, reports an
    error, or exits; with the table it has there *)
Inductive proc_tree : Type :=
| TExit (t : table)
| TExec (argv : list (list Z)) (t : table)
| TSpawn (child rest : proc_tree)
| TWait (t : table) (rest : proc_tree)
| TSay (fd : nat) (msg : string) (arg : list Z) (rest : proc_tree).

(** The processes of a program of calls. [opens] says which files can be opened;
    forks succeed. [id] is fresh for the process: a child and its parent go on
    with different extensions of it. *)
Section Run.
Context (opens : list Z -> Z -> bool).
Fixpoint run (p : prog) (t : table) (id : positive) : proc_tree :=
  match p with
  | Exit => TExit t
  | ExecOrElse argv _ => TExec argv t
  | Close fd k => run k (<[fd := None]> t) id
  | Dup fd k =>
      match t !! fd with
      | Some (Some d) => run k (match alloc t d with Some (_, t') => t' | None => t end) id
      | _ => run k t id
      end
  | Open file mode k =>
      if opens file mode then
        match alloc t (FileFor file mode) with
        | Some (_, t') => run (k true) t' id
        | None => run (k false) t id
        end
      else run (k false) t id
  | MakePipe k =>
      match alloc t (PipeRead id) with
      | Some (p0, t1) =>
          match alloc t1 (PipeWrite id) with
          | Some (p1, t2) => run (k (Some (p0, p1))) t2 (id~0)%positive
          | None => run (k None) t id
          end
      | None => run (k None) t id
      end
  | Fork child parent _ => TSpawn (run child t (id~1)%positive) (run parent t (id~0)%positive)
  | Wait k => TWait t (run k t id)
  | Printf fd msg arg k => TSay fd msg arg (run k t id)
  end.
End Run.

(** ** What a command means *)
(** The standard descriptors and nothing else *)
Definition std (i o e : desc) : table := Some i :: Some o :: Some e :: replicate 13 None.
(** The processes that a command stands for, by its standard input [i], output
    [o] and error [e].  The two sides of a pipe run beside each other, joined by
    a pipe that no one else has open, and the shell waits for both; the second of
    two commands in a list begins when the first has ended; nobody waits for a
    command in the background. *)
Section Means.
Context (opens : list Z -> Z -> bool) (e : desc).
Fixpoint means (c : scmd) (i o : desc) (id : positive) : proc_tree :=
  match c with
  | SExec [] => TExit (std i o e)
  | SExec argv => TExec argv (std i o e)
  | SRedir c f out =>
      let mode := if out then 0x201 else 0 in
      if opens f mode then
        if out then means c i (FileFor f mode) id else means c (FileFor f mode) o id
      else TSay 2 "open %s failed" f (TExit (if out then Some i :: None :: Some e :: replicate 13 None else None :: Some o :: Some e :: replicate 13 None))
  | SPipe l r =>
      TSpawn (means l i (PipeWrite id) (id~0~1))
        (TSpawn (means r (PipeRead id) o (id~0~0~1)) (TWait (std i o e) (TWait (std i o e) (TExit (std i o e)))))
  | SList l r => TSpawn (means l i o (id~1)) (TWait (std i o e) (means r i o (id~0)))
  | SBack c => TSpawn (means c i o (id~1)) (TExit (std i o e))
  end.
End Means.

(** The shell runs its commands as they are written: the processes that running
    a parsed command makes are those of the command, each program with the
    standard input and output that pipes and redirections give it, the shell's
    standard error, and no other descriptor open, so that no forgotten end keeps
    a pipe from closing. *)
Theorem runcmd_wiring opens c i o e id : run opens (runcmd c) (std i o e) id = means opens e c i o id.
Proof.
  revert i o id. induction c as [[|a argv]|c IH f out|l IHl r IHr|l IHl r IHr|c IH]; intros i o id; try done.
  - cbn. destruct out; unfold redir_mode, redir_fd; cbn; destruct (opens f _); cbn; try done; apply IH.
  - cbn. rewrite <- IHl, <- IHr. done.
  - cbn. by rewrite <- IHl, <- IHr.
  - cbn. by rewrite <- IH.
Qed.
