(* ===== verification/User.v ===== *)
(** * User programs

    A program is an interaction tree over the system calls: it may go on for
    ever, and what it does next depends on what the calls return.  Here are
    the small programs (cat.c, echo.c, kill.c, ln.c, ls.c, mkdir.c, rm.c, wc.c,
    zombie.c, init.c, fun.c, time.c, stressfs.c, forktest.c), the main loops of
    sh.c and grep.c, and what they use of ulib.c and printf.c. *)

From S2P Require Import Prelude Params Bytes CString Console Fs Sh ShTotal ShPrint ShRun Grep.
From ITree Require Import ITree.

(** System calls with what they return to the program; [SysExec] returns only
    when it fails, [Exit] never. *)
Inductive sys : Type -> Type :=
| SysRead (fd n : Z) : sys (Z * list Z)
| SysWrite (fd : Z) (data : list Z) : sys Z
| SysOpen (path : list Z) (mode : Z) : sys Z
| SysClose (fd : Z) : sys Z
| SysDup (fd : Z) : sys Z
| SysFstat (fd : Z) : sys (option stat)
| SysFork : sys Z
| SysWait : sys Z
| SysWaitx : sys (Z * option (Z * Z))
| SysExec (path : list Z) (argv : list (list Z)) : sys Z
| SysKill (pid : Z) : sys Z
| SysLink (old new : list Z) : sys Z
| SysMkdir (path : list Z) : sys Z
| SysUnlink (path : list Z) : sys Z
| SysMknod (path : list Z) (major minor : Z) : sys Z
| SysChdir (path : list Z) : sys Z
| SysPipe : sys (option (Z * Z))
| SysSleep (ticks : Z) : sys Z
| SysExit : sys Empty_set.

#[export] Instance itree_ret : MRet (itree sys) := fun A a => Ret a.
#[export] Instance itree_bind : MBind (itree sys) := fun A B k t => ITree.bind t k.
Definition call {A} (e : sys A) : itree sys A := ITree.trigger e.
Definition exit {A} : itree sys A := v ← call SysExit; match v : Empty_set with end.

(** A string constant *)
Definition str (s : string) : list Z := map (fun a => Z.of_nat (Ascii.nat_of_ascii a)) (String.list_ascii_of_string s).
Definition NL : Z := 10.

(** ** printf.c: one write for each character *)
Fixpoint putcs (fd : Z) (l : list Z) : itree sys unit :=
  match l with
  | [] => mret tt
  | c :: l' => _ ← call (SysWrite fd [c]); putcs fd l'
  end.
Definition uprintf (fd : Z) (fmt : list Z) (ap : list farg) : itree sys unit := putcs fd (default [] (printf fmt ap)).
Definition S_ (s : list Z) : farg := FStr (Some s).

(** ** ulib.c *)
(** gets: the characters stored before the final 0 *)
Definition gets (max : Z) : itree sys (list Z) :=
  ITree.iter (fun buf : list Z =>
    if Z.of_nat (length buf) + 1 <? max then
      r ← call (SysRead 0 1);
      if r.1 <? 1 then mret (inr buf)
      else
        let c := r.2 !!! 0%nat in
        let buf := buf ++ [c] in
        if (c =? 10) || (c =? 13) then mret (inr buf) else mret (inl buf)
    else mret (inr buf)) [].
Definition ustat (n : list Z) : itree sys (option stat) :=
  fd ← call (SysOpen n O_RDONLY);
  if fd <? 0 then mret None
  else r ← call (SysFstat fd); _ ← call (SysClose fd); mret r.

(** ** cat.c *)
Definition cat (fd : Z) : itree sys unit :=
  n ← ITree.iter (fun _ : unit =>
        r ← call (SysRead fd 512);
        if r.1 >? 0 then _ ← call (SysWrite 1 (take (Z.to_nat r.1) r.2)); mret (inl tt) else mret (inr r.1)) tt;
  if n <? 0 then uprintf 1 (str "cat: read error" ++ [NL]) [];; exit else mret tt.
Fixpoint cat_files (files : list (list Z)) : itree sys unit :=
  match files with
  | [] => exit
  | f :: files' =>
      fd ← call (SysOpen f 0);
      if fd <? 0 then uprintf 1 (str "cat: cannot open %s" ++ [NL]) [S_ f];; exit
      else cat fd;; _ ← call (SysClose fd); cat_files files'
  end.
Definition cat_main (argv : list (list Z)) : itree sys unit :=
  match tail argv with [] => cat 0;; exit | files => cat_files files end.

(** ** wc.c *)
Record counts : Type := mkCounts { wc_l : Z; wc_w : Z; wc_c : Z; wc_inword : bool }.
Definition is_space (b : Z) : bool := existsb (Z.eqb b) [32; 13; 9; 10; 11].
Definition wc_char (s : counts) (b : Z) : counts :=
  let c := wc_c s + 1 in
  let l := if b =? 10 then wc_l s + 1 else wc_l s in
  if is_space b then mkCounts l (wc_w s) c false
  else if negb (wc_inword s) then mkCounts l (wc_w s + 1) c true
  else mkCounts l (wc_w s) c true.
Definition wc (fd : Z) (name : list Z) : itree sys unit :=
  r ← ITree.iter (fun s : counts =>
        r ← call (SysRead fd 512);
        if r.1 >? 0 then mret (inl (fold_left wc_char (take (Z.to_nat r.1) r.2) s)) else mret (inr (r.1, s)))
      (mkCounts 0 0 0 false);
  let '(n, s) := r in
  if n <? 0 then uprintf 1 (str "wc: read error" ++ [NL]) [];; exit
  else uprintf 1 (str "%d %d %d %s" ++ [NL]) [FInt (wc_l s); FInt (wc_w s); FInt (wc_c s); S_ name].
Fixpoint wc_files (files : list (list Z)) : itree sys unit :=
  match files with
  | [] => exit
  | f :: files' =>
      fd ← call (SysOpen f 0);
      if fd <? 0 then uprintf 1 (str "wc: cannot open %s" ++ [NL]) [S_ f];; exit
      else wc fd f;; _ ← call (SysClose fd); wc_files files'
  end.
Definition wc_main (argv : list (list Z)) : itree sys unit :=
  match tail argv with [] => wc 0 [];; exit | files => wc_files files end.

(** ** echo.c *)
Fixpoint echo_args (args : list (list Z)) : itree sys unit :=
  match args with
  | [] => exit
  | a :: args' =>
      uprintf 1 (str "%s%s") [S_ a; S_ (match args' with [] => [NL] | _ => [32] end)];; echo_args args'
  end.
Definition echo_main (argv : list (list Z)) : itree sys unit := echo_args (tail argv).

(** ** kill.c, ln.c, mkdir.c, rm.c, zombie.c, fun.c *)
Fixpoint kill_args (args : list (list Z)) : itree sys unit :=
  match args with
  | [] => exit
  | a :: args' => _ ← call (SysKill (default 0 (atoi (a ++ [0])))); kill_args args'
  end.
Definition kill_main (argv : list (list Z)) : itree sys unit :=
  match tail argv with
  | [] => uprintf 2 (str "usage: kill pid..." ++ [NL]) [];; exit
  | args => kill_args args
  end.
Definition ln_main (argv : list (list Z)) : itree sys unit :=
  match argv with
  | [_; old; new] =>
      r ← call (SysLink old new);
      (if r <? 0 then uprintf 2 (str "link %s %s: failed" ++ [NL]) [S_ old; S_ new] else mret tt);; exit
  | _ => uprintf 2 (str "Usage: ln old new" ++ [NL]) [];; exit
  end.
Fixpoint mkdir_args (args : list (list Z)) : itree sys unit :=
  match args with
  | [] => exit
  | a :: args' =>
      r ← call (SysMkdir a);
      if r <? 0 then uprintf 2 (str "mkdir: %s failed to create" ++ [NL]) [S_ a];; exit else mkdir_args args'
  end.
Definition mkdir_main (argv : list (list Z)) : itree sys unit :=
  match tail argv with
  | [] => uprintf 2 (str "Usage: mkdir files..." ++ [NL]) [];; exit
  | args => mkdir_args args
  end.
Fixpoint rm_args (args : list (list Z)) : itree sys unit :=
  match args with
  | [] => exit
  | a :: args' =>
      r ← call (SysUnlink a);
      if r <? 0 then uprintf 2 (str "rm: %s failed to delete" ++ [NL]) [S_ a];; exit else rm_args args'
  end.
Definition rm_main (argv : list (list Z)) : itree sys unit :=
  match tail argv with
  | [] => uprintf 2 (str "Usage: rm files..." ++ [NL]) [];; exit
  | args => rm_args args
  end.
Definition zombie_main : itree sys unit :=
  pid ← call SysFork;
  (if pid >? 0 then _ ← call (SysSleep 5); mret tt else mret tt);; exit.
(** main of fun.c returns: there is no exit() after it. *)
Definition fun_main : itree sys unit := uprintf 2 (str "~~HELLO~~") [].

(** ** time.c: [status0] is what the uninitialised variable holds, [text0] the
    string at address 0, where a null argv[1] points. *)
Definition time_main (status0 : Z) (text0 : list Z) (argv : list (list Z)) : itree sys unit :=
  let path := argv !! 1%nat in
  pid ← call SysFork;
  r ← (if pid =? 0 then
         _ ← call (SysExec (default text0 path) argv);
         uprintf 1 (str "exec %s failed" ++ [NL]) [FStr path];;
         mret (3, 4, status0)
       else
         x ← call SysWaitx;
         let '(status, ab) := x in
         let '(a, b) := default (3, 4) ab in
         mret (a, b, status));
  let '(a, b, status) := r in
  uprintf 1 (str "Wait Time = %d" ++ [NL] ++ str " Run Time = %d with Status %d " ++ [NL]) [FInt a; FInt b; FInt status];;
  exit.

(** ** ls.c *)
(** The characters after the last slash *)
Fixpoint after_slash (path : list Z) : list Z :=
  match path with
  | [] => []
  | c :: path' => if existsb (Z.eqb 47) path' then after_slash path' else if c =? 47 then path' else path
  end.
Definition fmtname (path : list Z) : list Z :=
  let p := after_slash path in
  if (DIRSIZ <=? length p)%nat then p else p ++ replicate (DIRSIZ - length p) 32.
Definition ls_line (name : list Z) (st : stat) : itree sys unit :=
  uprintf 1 (str "%s %d %d %d" ++ [NL]) [S_ name; FInt (st_type st); FInt (st_ino st); FInt (st_size st)].
Definition ls_dir (fd : Z) (path : list Z) : itree sys unit :=
  ITree.iter (fun _ : unit =>
    r ← call (SysRead fd 16);
    if r.1 =? 16 then
      let de := r.2 in
      if get16 de 0 =? 0 then mret (inl tt)
      else
        let buf := path ++ [47] ++ until0 (take DIRSIZ (drop 2 de)) in
        st ← ustat buf;
        match st with
        | None => uprintf 1 (str "ls: cannot stat %s" ++ [NL]) [S_ buf];; mret (inl tt)
        | Some st => ls_line (fmtname buf) st;; mret (inl tt)
        end
    else mret (inr tt)) tt.
Definition ls (path : list Z) : itree sys unit :=
  fd ← call (SysOpen path 0);
  if fd <? 0 then uprintf 2 (str "ls: cannot open %s" ++ [NL]) [S_ path]
  else
    st ← call (SysFstat fd);
    match st with
    | None => uprintf 2 (str "ls: cannot stat %s" ++ [NL]) [S_ path];; _ ← call (SysClose fd); mret tt
    | Some st =>
        (if st_type st =? T_FILE then ls_line (fmtname path) st
         else if st_type st =? T_DIR then
           if 512 <? Z.of_nat (length path) + 1 + Z.of_nat DIRSIZ + 1 then uprintf 1 (str "ls: path too long" ++ [NL]) []
           else ls_dir fd path
         else mret tt);;
        _ ← call (SysClose fd); mret tt
    end.
Fixpoint ls_args (args : list (list Z)) : itree sys unit :=
  match args with
  | [] => exit
  | a :: args' => ls a;; ls_args args'
  end.
Definition ls_main (argv : list (list Z)) : itree sys unit :=
  match tail argv with [] => ls (str ".");; exit | args => ls_args args end.

(** ** init.c *)
Definition init_wait (pid : Z) : itree sys unit :=
  ITree.iter (fun _ : unit =>
    wpid ← call SysWait;
    if (0 <=? wpid) && negb (wpid =? pid) then uprintf 1 (str "zombie!" ++ [NL]) [];; mret (inl tt) else mret (inr tt)) tt.
(** One turn of for(;;) *)
Definition init_turn : itree sys unit :=
  uprintf 1 (str "init: starting sh" ++ [NL]) [];;
  pid ← call SysFork;
  if pid <? 0 then uprintf 1 (str "init: fork failed" ++ [NL]) [];; exit
  else if pid =? 0 then
    _ ← call (SysExec (str "sh") [str "sh"]);
    uprintf 1 (str "init: exec sh failed" ++ [NL]) [];; exit
  else init_wait pid.
Definition init_main : itree sys unit :=
  fd ← call (SysOpen (str "console") O_RDWR);
  (if fd <? 0 then _ ← call (SysMknod (str "console") 1 1); _ ← call (SysOpen (str "console") O_RDWR); mret tt
   else mret tt);;
  _ ← call (SysDup 0); _ ← call (SysDup 0);
  ITree.iter (fun _ : unit => init_turn;; mret (inl tt)) tt.

(** ** stressfs.c *)
(** for(i = 0; i < 4; i++) if(fork() > 0) break; *)
Fixpoint stress_fork (k : nat) (i : Z) : itree sys Z :=
  match k with
  | O => mret i
  | S k' => pid ← call SysFork; if pid >? 0 then mret i else stress_fork k' (i + 1)
  end.
Fixpoint stress_write (k : nat) (fd : Z) (data : list Z) : itree sys unit :=
  match k with
  | O => mret tt
  | S k' => _ ← call (SysWrite fd data); stress_write k' fd data
  end.
Fixpoint stress_read (k : nat) (fd : Z) : itree sys unit :=
  match k with
  | O => mret tt
  | S k' => _ ← call (SysRead fd 512); stress_read k' fd
  end.
Definition stressfs_main : itree sys unit :=
  uprintf 1 (str "stressfs starting" ++ [NL]) [];;
  let data := replicate 512 97 in
  i ← stress_fork 4 0;
  uprintf 1 (str "write %d" ++ [NL]) [FInt i];;
  let path := str "stressfs" ++ [48 + i] in
  fd ← call (SysOpen path (Z.lor O_CREATE O_RDWR));
  stress_write 20 fd data;;
  _ ← call (SysClose fd);
  uprintf 1 (str "read" ++ [NL]) [];;
  fd ← call (SysOpen path O_RDONLY);
  stress_read 20 fd;;
  _ ← call (SysClose fd);
  _ ← call SysWait;
  exit.

(** ** forktest.c: its own printf writes the format as it is *)
Definition ft_printf (fd : Z) (s : list Z) : itree sys unit := _ ← call (SysWrite fd s); mret tt.
Definition FT_N : nat := 1000.
Fixpoint ft_fork (k : nat) (n : Z) : itree sys Z :=
  match k with
  | O => mret n
  | S k' =>
      pid ← call SysFork;
      if pid <? 0 then mret n else if pid =? 0 then exit else ft_fork k' (n + 1)
  end.
Fixpoint ft_wait (n : nat) : itree sys unit :=
  match n with
  | O => mret tt
  | S n' =>
      r ← call SysWait;
      if r <? 0 then ft_printf 1 (str "wait stopped early" ++ [NL]);; exit else ft_wait n'
  end.
Definition forktest : itree sys unit :=
  ft_printf 1 (str "fork test" ++ [NL]);;
  n ← ft_fork FT_N 0;
  if n =? Z.of_nat FT_N then ft_printf 1 (str "fork claimed to work N times!" ++ [NL]);; exit
  else
    ft_wait (Z.to_nat n);;
    r ← call SysWait;
    if negb (r =? -1) then ft_printf 1 (str "wait got too many" ++ [NL]);; exit
    else ft_printf 1 (str "fork test OK" ++ [NL]).
Definition forktest_main : itree sys unit := forktest;; exit.

(** ** grep.c: main and the calls of grep *)
(** The lines of buf that match, each written on its own, and the bytes at p *)
Fixpoint line_writes (k : nat) (pattern p : list Z) : list (list Z) * list Z :=
  match k with
  | O => ([], p)
  | S k' =>
      match find_newline p with
      | None => ([], p)
      | Some (line, rest) =>
          let '(out, p') := line_writes k' pattern rest in
          ((if match_re pattern line then [line ++ [chr_newline]] else []) ++ out, p')
      end
  end.
Fixpoint writes (fd : Z) (l : list (list Z)) : itree sys unit :=
  match l with
  | [] => mret tt
  | d :: l' => _ ← call (SysWrite fd d); writes fd l'
  end.
Definition ugrep (pattern : list Z) (fd : Z) : itree sys unit :=
  ITree.iter (fun m : list Z =>
    r ← call (SysRead fd (1024 - Z.of_nat (length m) - 1));
    if r.1 >? 0 then
      let buf := m ++ take (Z.to_nat r.1) r.2 in
      let '(out, p) := line_writes (S (length buf)) pattern buf in
      writes 1 out;;
      mret (inl (if decide (length p = length buf) then [] else p))
    else mret (inr tt)) [].
Fixpoint grep_files (pattern : list Z) (files : list (list Z)) : itree sys unit :=
  match files with
  | [] => exit
  | f :: files' =>
      fd ← call (SysOpen f 0);
      if fd <? 0 then uprintf 1 (str "grep: cannot open %s" ++ [NL]) [S_ f];; exit
      else ugrep pattern fd;; _ ← call (SysClose fd); grep_files pattern files'
  end.
Definition grep_main (argv : list (list Z)) : itree sys unit :=
  match tail argv with
  | [] => uprintf 2 (str "usage: grep pattern [file ...]" ++ [NL]) [];; exit
  | pattern :: [] => ugrep pattern 0;; exit
  | pattern :: files => grep_files pattern files
  end.

(** ** sh.c: main *)
(** The system calls of a command that runs *)
Fixpoint of_prog (p : prog) : itree sys unit :=
  match p with
  | ShRun.Exit => exit
  | ExecOrElse argv failed => _ ← call (SysExec (hd [] argv) argv); of_prog failed
  | ShRun.Close fd k => _ ← call (SysClose (Z.of_nat fd)); of_prog k
  | ShRun.Dup fd k => _ ← call (SysDup (Z.of_nat fd)); of_prog k
  | ShRun.Open file mode k => fd ← call (SysOpen file mode); of_prog (k (negb (fd <? 0)))
  | MakePipe k =>
      r ← call SysPipe;
      of_prog (k (match r with Some (a, b) => Some (Z.to_nat a, Z.to_nat b) | None => None end))
  | ShRun.Fork child parent failed =>
      pid ← call SysFork;
      if pid =? -1 then of_prog failed else if pid =? 0 then of_prog child else of_prog parent
  | ShRun.Wait k => _ ← call SysWait; of_prog k
  | ShRun.Printf fd msg arg k => uprintf (Z.of_nat fd) (str msg ++ [NL]) [S_ arg];; of_prog k
  end.
(** What parsecmd finds after the command, and reports before it panics *)
Definition leftovers (buf : list Z) : option (list Z) :=
  match parseline (4 * length buf + 4) buf 0 with
  | POk (_, s) => let '(s, _) := peek buf s [] in if Nat.eqb s (length buf) then None else Some (drop s buf)
  | _ => None
  end.
(** runcmd(parsecmd(buf)); a parsed command always has a meaning *)
Definition run_line (buf : list Z) : itree sys unit :=
  match parsecmd (4 * length buf + 4) buf with
  | POk (c, mem) => match command mem c with Some c => of_prog (runcmd c) | None => exit end
  | PPanic s =>
      (if leftovers buf is Some l then uprintf 2 (str "leftovers: %s" ++ [NL]) [S_ l] else mret tt);;
      of_prog (panic s)
  | PFuel => exit
  end.
Definition getcmd : itree sys (option (list Z)) :=
  uprintf 2 (str "$ ") [];;
  buf ← gets 100;
  mret (let s := until0 buf in match s with [] => None | _ => Some s end).
Definition is_cd (buf : list Z) : bool := bool_decide (take 3 buf = [99; 100; 32]).
(** One command line *)
Definition sh_line (buf : list Z) : itree sys unit :=
  if is_cd buf then
    let dir := drop 3 (removelast buf) in
    r ← call (SysChdir dir);
    if r <? 0 then uprintf 2 (str "cannot cd %s" ++ [NL]) [S_ dir] else mret tt
  else
    pid ← call SysFork;
    if pid =? -1 then of_prog (panic "fork")
    else if pid =? 0 then run_line buf
    else _ ← call SysWait; mret tt.
Definition sh_main : itree sys unit :=
  ITree.iter (fun _ : unit =>
    fd ← call (SysOpen (str "console") O_RDWR);
    if 0 <=? fd then if 3 <=? fd then _ ← call (SysClose fd); mret (inr tt) else mret (inl tt)
    else mret (inr tt)) tt;;
  ITree.iter (fun _ : unit =>
    r ← getcmd;
    match r with
    | None => mret (inr tt)
    | Some buf => sh_line buf;; mret (inl tt)
    end) tt;;
  exit.
