(* ===== verification/UserSpec.v ===== *)
(** * User programs run

    A world that answers the system calls of a program, the run of a program
    in it, and the rules by which runs are built.  The world is the parent's
    view of one process: what its reads return, how the input is cut into
    pieces, the files, the children and the process slots that are left. *)

From ITree Require Import ITree.
From S2P Require Import Prelude Params Bytes CString Console Fs Sh ShTotal ShPrint ShRun Grep User.

(** ** The world *)
Inductive act : Type :=
| Wrote (fd : Z) (data : list Z)
| Execed (path : list Z) (argv : list (list Z))
| Chdired (path : list Z)
| Forked (pid : Z)
| Waited (pid : Z).
Record world : Type := mkWorld {
  w_open : gmap Z (list (list Z));       (** descriptors, with what their reads return *)
  w_files : gmap (list Z) (list (list Z)); (** files, with the pieces their reads return *)
  w_progs : list (list Z);               (** names exec finds *)
  w_dirs : list (list Z);                (** names chdir finds *)
  w_kids : list Z;                       (** children not waited for *)
  w_slots : nat;                         (** free process slots *)
  w_pid : Z;                             (** the next pid *)
  w_log : list act }.
Definition set_open (o : gmap Z (list (list Z))) (w : world) : world :=
  mkWorld o (w_files w) (w_progs w) (w_dirs w) (w_kids w) (w_slots w) (w_pid w) (w_log w).
Definition add_log (l : list act) (w : world) : world :=
  mkWorld (w_open w) (w_files w) (w_progs w) (w_dirs w) (w_kids w) (w_slots w) (w_pid w) (w_log w ++ l).
Definition set_kids (k : list Z) (s : nat) (p : Z) (w : world) : world :=
  mkWorld (w_open w) (w_files w) (w_progs w) (w_dirs w) k s p (w_log w).

(** The lowest descriptor that is free *)
Definition low (o : gmap Z (list (list Z))) : option Z :=
  List.find (fun fd => bool_decide (o !! fd = None)) (map Z.of_nat (seq 0 16)).
Definition new_fd (cs : list (list Z)) (w : world) : Z * world :=
  match low (w_open w) with Some fd => (fd, set_open (<[fd := cs]> (w_open w)) w) | None => (-1, w) end.
(** A read of n bytes *)
Definition take_chunk (n : Z) (cs : list (list Z)) : list Z * list (list Z) :=
  match cs with
  | [] => ([], [])
  | c :: cs => (take (Z.to_nat n) c, match drop (Z.to_nat n) c with [] => cs | c' => c' :: cs end)
  end.

Inductive answer (A : Type) : Type :=
| Reply (a : A) (w : world)
| Ends (w : world)
| NoAnswer.
Arguments Reply {A}. Arguments Ends {A}. Arguments NoAnswer {A}.

Definition handle {A} (e : sys A) (w : world) : answer A :=
  match e in sys A return answer A with
  | SysRead fd n =>
      match w_open w !! fd with
      | None => Reply (-1, []) w
      | Some cs => let '(d, cs') := take_chunk n cs in Reply (Z.of_nat (length d), d) (set_open (<[fd := cs']> (w_open w)) w)
      end
  | SysWrite fd data => Reply (Z.of_nat (length data)) (add_log [Wrote fd data] w)
  | SysOpen path mode =>
      match w_files w !! path with
      | None => Reply (-1) w
      | Some cs => let '(fd, w') := new_fd cs w in Reply fd w'
      end
  | SysClose fd =>
      match w_open w !! fd with
      | None => Reply (-1) w
      | Some _ => Reply 0 (set_open (delete fd (w_open w)) w)
      end
  | SysDup fd =>
      match w_open w !! fd with
      | None => Reply (-1) w
      | Some cs => let '(fd', w') := new_fd cs w in Reply fd' w'
      end
  | SysFork =>
      match w_slots w with
      | O => Reply (-1) w
      | S n => Reply (w_pid w) (add_log [Forked (w_pid w)] (set_kids (w_kids w ++ [w_pid w]) n (w_pid w + 1) w))
      end
  | SysWait =>
      match w_kids w with
      | [] => Reply (-1) w
      | pid :: kids => Reply pid (add_log [Waited pid] (set_kids kids (S (w_slots w)) (w_pid w) w))
      end
  | SysExec path argv => if decide (path ∈ w_progs w) then Ends (add_log [Execed path argv] w) else Reply (-1) w
  | SysChdir path => if decide (path ∈ w_dirs w) then Reply 0 (add_log [Chdired path] w) else Reply (-1) w
  | SysExit => Ends w
  | _ => NoAnswer
  end.

(** [None] for the result: the program has left by exit or exec. *)
Fixpoint play {A} (n : nat) (t : itree sys A) (w : world) : option (option A * world) :=
  match n with
  | O => None
  | S n =>
      match observe t with
      | RetF a => Some (Some a, w)
      | TauF t => play n t w
      | VisF e k =>
          match handle e w with
          | Reply x w' => play n (k x) w'
          | Ends w' => Some (None, w')
          | NoAnswer => None
          end
      end
  end.
Definition yields {A} (t : itree sys A) (w : world) (r : option A) (w' : world) : Prop :=
  exists n, play n t w = Some (r, w').

(** ** The rules *)
Lemma play_more {A} n m (t : itree sys A) w r : (n <= m)%nat -> play n t w = Some r -> play m t w = Some r.
Proof.
  revert m t w. induction n as [|n IH]; intros m t w Hm; [done|]. destruct m as [|m]; [lia|]. cbn [play].
  destruct (observe t) as [a|t'|X e k]; [done|by apply IH; lia|]. destruct (handle e w); [apply IH; lia|done|done].
Qed.
Lemma yields_unique {A} (t : itree sys A) w r1 w1 r2 w2 : yields t w r1 w1 -> yields t w r2 w2 -> r1 = r2 /\ w1 = w2.
Proof.
  intros [n Hn] [m Hm]. pose proof (play_more n (Nat.max n m) t w _ ltac:(lia) Hn).
  pose proof (play_more m (Nat.max n m) t w _ ltac:(lia) Hm). naive_solver.
Qed.
Lemma yields_ret {A} (a : A) w : yields (mret a) w (Some a) w.
Proof. by exists 1%nat. Qed.
Lemma observe_bind {A B} (t : itree sys A) (k : A -> itree sys B) :
  observe (ITree.bind t k) =
    match observe t with
    | RetF a => observe (k a)
    | TauF t => TauF (ITree.bind t k)
    | VisF e h => VisF e (fun x => ITree.bind (h x) k)
    end.
Proof. unfold ITree.bind. unfold observe at 1. cbn. by destruct (observe t). Qed.
Lemma observe_iter {A B} (step : A -> itree sys (A + B)) (i : A) :
  observe (ITree.iter step i) =
    observe (ITree.bind (step i) (fun lr => match lr with inl l => Tau (ITree.iter step l) | inr r => Ret r end)).
Proof. reflexivity. Qed.

Lemma play_bind {A B} n m (t : itree sys A) (k : A -> itree sys B) w w' a r : play n t w = Some (Some a, w') ->
  play m (k a) w' = Some r -> play (n + m) (ITree.bind t k) w = Some r.
Proof.
  revert t w. induction n as [|n IH]; intros t w; [done|]. cbn [play Nat.add]. rewrite observe_bind.
  destruct (observe t) as [a'|t'|X e h].
  - intros [= <- <-] Hm. apply (play_more _ (S (n + m))) in Hm; [exact Hm|lia].
  - intros H1 H2. by apply IH.
  - destruct (handle e w); [intros H1 H2; by apply IH|done|done].
Qed.
Lemma play_bind_exit {A B} n (t : itree sys A) (k : A -> itree sys B) w w' : play n t w = Some (None, w') ->
  play n (ITree.bind t k) w = Some (None, w').
Proof.
  revert t w. induction n as [|n IH]; intros t w; [done|]. cbn [play]. rewrite observe_bind.
  destruct (observe t) as [a'|t'|X e h]; [done|apply IH|]. destruct (handle e w); [apply IH|by intros [= ->]|done].
Qed.

Lemma yields_bind {A B} (t : itree sys A) (k : A -> itree sys B) w a w' r w'' :
  yields t w (Some a) w' -> yields (k a) w' r w'' -> yields (x ← t; k x) w r w''.
Proof. intros [n Hn] [m Hm]. exists (n + m)%nat. by eapply play_bind. Qed.
Lemma yields_exit_bind {A B} (t : itree sys A) (k : A -> itree sys B) w w' :
  yields t w None w' -> yields (x ← t; k x) w None w'.
Proof. intros [n Hn]. exists n. by apply play_bind_exit. Qed.
Lemma yields_call {A} (e : sys A) w a w' : handle e w = Reply a w' -> yields (call e) w (Some a) w'.
Proof. intros H. exists 2%nat. cbn. by rewrite H. Qed.
Lemma yields_end {A} (e : sys A) w w' : handle e w = Ends w' -> yields (call e) w None w'.
Proof. intros H. exists 2%nat. cbn. by rewrite H. Qed.
Lemma yields_exit {A} w : yields (exit : itree sys A) w None w.
Proof. by exists 1%nat. Qed.
(** A call and what follows it *)
Lemma yields_seq {A B} (e : sys A) (k : A -> itree sys B) w a w' r w'' :
  handle e w = Reply a w' -> yields (k a) w' r w'' -> yields (x ← call e; k x) w r w''.
Proof. intros H. by apply yields_bind, yields_call. Qed.
Lemma yields_iter_next {A B} (step : A -> itree sys (A + B)) i j w w' r w'' :
  yields (step i) w (Some (inl j)) w' -> yields (ITree.iter step j) w' r w'' -> yields (ITree.iter step i) w r w''.
Proof.
  intros [n Hn] [m Hm]. exists (n + S m)%nat. destruct n as [|n]; [done|]. cbn [Nat.add play]. rewrite observe_iter.
  apply (play_bind (S n) (S m) _ (fun lr => match lr with inl l => Tau (ITree.iter step l) | inr r => Ret r end) _ _ _ _ Hn). exact Hm.
Qed.
Lemma yields_iter_stop {A B} (step : A -> itree sys (A + B)) i b w w' :
  yields (step i) w (Some (inr b)) w' -> yields (ITree.iter step i) w (Some b) w'.
Proof.
  intros [n Hn]. exists (n + 1)%nat. destruct n as [|n]; [done|]. cbn [Nat.add play]. rewrite observe_iter.
  by apply (play_bind (S n) 1 _ (fun lr => match lr with inl l => Tau (ITree.iter step l) | inr r => Ret r end) _ _ _ _ Hn).
Qed.

(** ** Output and input *)
Lemma add_log_app l1 l2 w : add_log l2 (add_log l1 w) = add_log (l1 ++ l2) w.
Proof. unfold add_log. cbn. by rewrite <- app_assoc. Qed.
Lemma add_log_nil w : add_log [] w = w.
Proof. unfold add_log. rewrite app_nil_r. by destruct w. Qed.
Lemma set_open_same w : set_open (w_open w) w = w.
Proof. by destruct w. Qed.
(** [s] written to [fd], in some pieces, and nothing else done *)
Definition says (fd : Z) (s : list Z) (l : list act) : Prop := exists ds, l = map (Wrote fd) ds /\ concat ds = s.
Lemma says_nil fd : says fd [] [].
Proof. by exists []. Qed.
Lemma says_one fd s : says fd s [Wrote fd s].
Proof. exists [s]. cbn. by rewrite app_nil_r. Qed.
Lemma says_app fd s1 s2 l1 l2 : says fd s1 l1 -> says fd s2 l2 -> says fd (s1 ++ s2) (l1 ++ l2).
Proof. intros (d1 & -> & <-) (d2 & -> & <-). exists (d1 ++ d2). by rewrite map_app, concat_app. Qed.

Lemma putcs_says fd s w : exists l, says fd s l /\ yields (putcs fd s) w (Some tt) (add_log l w).
Proof.
  revert w. induction s as [|c s IH]; intros w; cbn [putcs].
  - exists []. split; [apply says_nil|]. rewrite add_log_nil. apply yields_ret.
  - destruct (IH (add_log [Wrote fd [c]] w)) as (l & Hl & Hy). exists ([Wrote fd [c]] ++ l).
    split; [apply (says_app fd [c] s); [apply says_one|done]|]. rewrite <- add_log_app. eapply yields_seq; [reflexivity|exact Hy].
Qed.
Definition shown (fmt : list Z) (ap : list farg) : list Z := default [] (printf fmt ap).
Lemma uprintf_says fd fmt ap w : exists l, says fd (shown fmt ap) l /\ yields (uprintf fd fmt ap) w (Some tt) (add_log l w).
Proof. apply putcs_says. Qed.

(** The pieces of a file are not empty: a read of none of it is its end. *)
Definition pieces (cs : list (list Z)) : Prop := Forall (fun c => c <> []) cs.
Lemma take_chunk_spec n c cs d cs' : 0 < n -> pieces (c :: cs) -> take_chunk n (c :: cs) = (d, cs') ->
  0 < Z.of_nat (length d) <= n /\ concat (c :: cs) = d ++ concat cs' /\ pieces cs' /\
  (length (concat cs') < length (concat (c :: cs)))%nat.
Proof.
  intros Hn [Hc Hcs]%Forall_cons [= <- <-]. rewrite length_take. destruct c as [|b c]; [done|].
  assert (E : concat ((b :: c) :: cs) = take (Z.to_nat n) (b :: c) ++
    concat (match drop (Z.to_nat n) (b :: c) with [] => cs | c' => c' :: cs end)).
  { rewrite <- (take_drop (Z.to_nat n) (b :: c)) at 1. destruct (drop (Z.to_nat n) (b :: c)) as [|x y]; cbn [concat].
    - by rewrite app_nil_r.
    - by rewrite <- app_assoc. }
  split; [cbn [length]; lia|]. split; [exact E|]. split.
  - destruct (drop (Z.to_nat n) (b :: c)) as [|x y] eqn:Ed; [done|]. apply Forall_cons; split; done.
  - rewrite E, length_app, length_take. cbn [length]. lia.
Qed.
Lemma read_some fd n c cs w : 0 < n -> pieces (c :: cs) -> w_open w !! fd = Some (c :: cs) ->
  exists d cs', handle (SysRead fd n) w = Reply (Z.of_nat (length d), d) (set_open (<[fd := cs']> (w_open w)) w) /\
    0 < Z.of_nat (length d) <= n /\ concat (c :: cs) = d ++ concat cs' /\ pieces cs' /\
    (length (concat cs') < length (concat (c :: cs)))%nat.
Proof.
  intros Hn Hp Hw. destruct (take_chunk n (c :: cs)) as [d cs'] eqn:E. exists d, cs'.
  split; [cbn [handle]; rewrite Hw, E; reflexivity|]. by eapply take_chunk_spec.
Qed.
Lemma read_end fd n w : w_open w !! fd = Some [] -> handle (SysRead fd n) w = Reply (0, []) w.
Proof. intros H. cbn [handle]. rewrite H. cbn. rewrite insert_id by done. by rewrite set_open_same. Qed.
Lemma take_all {A} (d : list A) : take (Z.to_nat (Z.of_nat (length d))) d = d.
Proof. rewrite Nat2Z.id. by apply firstn_all. Qed.

Lemma low_free o fd : low o = Some fd -> o !! fd = None /\ 0 <= fd.
Proof.
  intros [H1 H2]%find_some. apply bool_decide_eq_true in H2. split; [done|]. apply in_map_iff in H1 as (i & <- & _). lia.
Qed.
