(* ===== verification/UserProgs.v ===== *)
(** * What cat, wc, echo and grep write

    Whatever the pieces in which the reads return a file. *)

From ITree Require Import ITree.
From S2P Require Import Prelude Params Bytes CString Console Fs Grep User UserSpec.

(** ** Loops that read a file to its end *)
Lemma pieces_ind (P : list (list Z) -> Prop) : P [] ->
  (forall c cs, pieces (c :: cs) -> (forall cs', pieces cs' -> (length (concat cs') < length (concat (c :: cs)))%nat -> P cs') -> P (c :: cs)) ->
  forall cs, pieces cs -> P cs.
Proof.
  intros H0 H1 cs. remember (length (concat cs)) as n eqn:E. revert cs E.
  induction n as [n IH] using lt_wf_ind. intros [|c cs] -> Hp; [done|]. apply H1; [done|]. intros cs' Hp' Hlt. by apply (IH _ Hlt).
Qed.

Section Loop.
Context {S B : Type} (fd n : Z) (body : S -> list Z -> itree sys (S + B)) (fin : S -> Z -> B).
Context (next : S -> list Z -> S) (out : S -> list Z -> list Z).
Definition read_step (s : S) : itree sys (S + B) :=
  r ← call (SysRead fd n);
  if r.1 >? 0 then body s (take (Z.to_nat r.1) r.2) else mret (inr (fin s r.1)).
Definition outs (s : S) (ds : list (list Z)) : list Z :=
  snd (fold_left (fun p d => (next p.1 d, p.2 ++ out p.1 d)) ds (s, [])).
Hypothesis Hn : 0 < n.
Hypothesis Hbody : forall s d w, exists l, says 1 (out s d) l /\ yields (body s d) w (Some (inl (next s d))) (add_log l w).

Lemma outs_cons s d ds : outs s (d :: ds) = out s d ++ outs (next s d) ds.
Proof using Type.
  unfold outs. cbn. generalize (next s d) as s', (out s d) as o. clear s d.
  assert (G : forall ds s o, (fold_left (fun p d => (next p.1 d, p.2 ++ out p.1 d)) ds (s, o)).2 =
    o ++ (fold_left (fun p d => (next p.1 d, p.2 ++ out p.1 d)) ds (s, [])).2).
  { clear ds. induction ds as [|d ds IH]; intros s o; cbn; [by rewrite app_nil_r|].
    rewrite IH, (IH _ (out s d)). by rewrite app_assoc. }
  intros s' o. apply G.
Qed.
Lemma read_loop cs : pieces cs -> forall s w, w_open w !! fd = Some cs ->
  exists ds l, concat ds = concat cs /\ says 1 (outs s ds) l /\
    yields (ITree.iter read_step s) w (Some (fin (fold_left next ds s) 0)) (add_log l (set_open (<[fd := []]> (w_open w)) w)).
Proof using All.
  intros Hp. induction Hp as [|c cs Hp IH] using pieces_ind; intros s w Hw.
  - exists [], []. split; [done|]. split; [apply says_nil|]. rewrite add_log_nil, insert_id, set_open_same by done.
    apply yields_iter_stop. eapply yields_seq; [by apply read_end|]. apply yields_ret.
  - destruct (read_some fd n c cs w Hn Hp Hw) as (d & cs' & E & Hd & Ec & Hp' & Hlt).
    destruct (Hbody s d (set_open (<[fd := cs']> (w_open w)) w)) as (l1 & Hl1 & Hy1).
    destruct (IH cs' Hp' Hlt (next s d) (add_log l1 (set_open (<[fd := cs']> (w_open w)) w))) as (ds & l2 & Eds & Hl2 & Hy2).
    { cbn. apply lookup_insert_eq. }
    exists (d :: ds), (l1 ++ l2). split; [cbn; by rewrite Eds|]. split; [rewrite outs_cons; by apply says_app|].
    eapply yields_iter_next.
    + eapply yields_seq; [exact E|]. cbn [fst snd]. rewrite (proj2 (Z.gtb_lt _ _)) by lia. rewrite take_all. exact Hy1.
    + rewrite <- add_log_app. cbn in Hy2. rewrite insert_insert_eq in Hy2. exact Hy2.
Qed.
End Loop.

(** ** cat *)
Lemma cat_spec fd cs w : pieces cs -> w_open w !! fd = Some cs ->
  exists l, says 1 (concat cs) l /\ yields (cat fd) w (Some tt) (add_log l (set_open (<[fd := []]> (w_open w)) w)).
Proof.
  intros Hp Hw.
  destruct (read_loop fd 512 (fun _ d => _ ← call (SysWrite 1 d); mret (inl tt)) (fun _ n => n) (fun _ _ => tt) (fun _ d => d)
    ltac:(lia) ltac:(intros [] d w'; exists [Wrote 1 d]; split; [apply says_one|eapply yields_seq; [reflexivity|apply yields_ret]])
    cs Hp tt w Hw) as (ds & l & Ec & Hl & Hy).
  exists l. split; [|eapply yields_bind; [exact Hy|]; apply yields_ret].
  assert (E : forall ds, outs (fun _ _ => tt) (fun (_ : unit) d => d) tt ds = concat ds).
  { induction ds0 as [|d ds0 IH]; [done|]. rewrite outs_cons. cbn. by rewrite <- IH. }
  rewrite <- Ec, <- E. exact Hl.
Qed.

(** Opening a file, going through it and closing it leaves the descriptors as they were. *)
Lemma open_file f cs w : w_files w !! f = Some cs -> low (w_open w) <> None ->
  exists fd, 0 <= fd /\ w_open w !! fd = None /\
    forall mode, handle (SysOpen f mode) w = Reply fd (set_open (<[fd := cs]> (w_open w)) w).
Proof.
  intros Hf Hl. destruct (low (w_open w)) as [fd|] eqn:E; [|done]. exists fd. destruct (low_free _ _ E) as [H1 H2].
  split; [done|]. split; [done|]. intros mode. cbn [handle]. rewrite Hf. unfold new_fd. by rewrite E.
Qed.
Lemma close_file fd l w : w_open w !! fd = None -> forall cs,
  handle (SysClose fd) (add_log l (set_open (<[fd := cs]> (w_open w)) w)) = Reply 0 (add_log l w).
Proof.
  intros H cs. cbn [handle add_log set_open w_open]. rewrite lookup_insert_eq.
  unfold set_open, add_log. cbn. rewrite delete_insert_eq, delete_id by done. done.
Qed.

(** ** The loop over the files named on the command line *)
Section Files.
Context (go : list (list Z) -> itree sys unit) (body : Z -> list Z -> itree sys unit) (msg : list Z).
Context (text_of : list Z -> list (list Z) -> list Z).
Hypothesis go_nil : go [] = exit.
Hypothesis go_cons : forall f names, go (f :: names) =
  (fd ← call (SysOpen f 0);
   if fd <? 0 then uprintf 1 msg [S_ f];; exit else body fd f;; _ ← call (SysClose fd); go names).
Context (w : world).
Hypothesis Hlow : low (w_open w) <> None.
Hypothesis body_spec : forall fd f cs l0, w_files w !! f = Some cs -> exists l, says 1 (text_of f cs) l /\
  yields (body fd f) (set_open (<[fd := cs]> (w_open w)) (add_log l0 w)) (Some tt)
    (add_log l (set_open (<[fd := []]> (w_open w)) (add_log l0 w))).
(** What is written for each file, up to one that is missing *)
Fixpoint files_text (names : list (list Z)) : list Z :=
  match names with
  | [] => []
  | f :: names =>
      match w_files w !! f with
      | Some cs => text_of f cs ++ files_text names
      | None => shown msg [S_ f]
      end
  end.
Lemma files_spec names : exists l, says 1 (files_text names) l /\ yields (go names) w None (add_log l w).
Proof using All.
  cut (forall l0, exists l, says 1 (files_text names) l /\ yields (go names) (add_log l0 w) None (add_log l (add_log l0 w))).
  { intros G. destruct (G []) as (l & Hl & Hy). rewrite add_log_nil in Hy. eauto. }
  induction names as [|f names IH]; intros l0; cbn [files_text].
  - exists []. split; [apply says_nil|]. rewrite add_log_nil, go_nil. apply yields_exit.
  - rewrite go_cons. destruct (w_files w !! f) as [cs|] eqn:Ef.
    + destruct (open_file f cs (add_log l0 w) Ef Hlow) as (fd & Hfd & Hfree & Hopen).
      destruct (body_spec fd f cs l0 Ef) as (l1 & Hl1 & Hy1).
      destruct (IH (l0 ++ l1)) as (l2 & Hl2 & Hy2). exists (l1 ++ l2). split; [by apply says_app|].
      eapply yields_seq; [apply Hopen|]. rewrite (proj2 (Z.ltb_ge fd 0)) by done.
      eapply yields_bind; [exact Hy1|].
      eapply yields_seq; [apply (close_file fd l1 (add_log l0 w) Hfree)|]. rewrite <- add_log_app, add_log_app. exact Hy2.
    + destruct (uprintf_says 1 msg [S_ f] (add_log l0 w)) as (l & Hl & Hy).
      exists l. split; [exact Hl|]. eapply yields_seq; [cbn [handle]; cbn [w_files add_log]; rewrite Ef; reflexivity|].
      cbn [Z.ltb Z.compare]. eapply yields_bind; [exact Hy|]. apply yields_exit.
Qed.
End Files.

(** All files come in pieces that are not empty. *)
Definition readable (w : world) : Prop := forall f cs, w_files w !! f = Some cs -> pieces cs.

(** cat f1 f2 ... writes the contents of the files one after the other to
    its standard output and exits, in whatever pieces the reads return them;
    at a file it cannot open it says so and exits.  It leaves nothing open. *)
Theorem cat_copies p names w : names <> [] -> readable w -> low (w_open w) <> None ->
  exists l, says 1 (files_text (str "cat: cannot open %s" ++ [NL]) (fun _ cs => concat cs) w names) l /\
    yields (cat_main (p :: names)) w None (add_log l w).
Proof.
  intros Hne Hr Hlow. destruct names as [|f names]; [done|]. unfold cat_main. cbn [tail].
  apply (files_spec cat_files (fun fd _ => cat fd)); [done|done|exact Hlow|]. intros fd g cs l0 Hg.
  destruct (cat_spec fd cs (set_open (<[fd := cs]> (w_open w)) (add_log l0 w)) (Hr _ _ Hg)) as (l & Hl & Hy).
  { cbn. apply lookup_insert_eq. }
  exists l. split; [exact Hl|]. cbn in Hy. rewrite insert_insert_eq in Hy. exact Hy.
Qed.

(** ** wc *)
(** The words of a text: the longest runs of characters that are not spaces *)
Fixpoint words_of (cur l : list Z) : list (list Z) :=
  match l with
  | [] => match cur with [] => [] | _ => [cur] end
  | b :: l => if is_space b then match cur with [] => [] | _ => [cur] end ++ words_of [] l else words_of (cur ++ [b]) l
  end.
Definition started (cur : list Z) : Z := match cur with [] => 0 | _ => 1 end.
Lemma wc_fold l : forall s cur, wc_inword s = negb (started cur =? 0) ->
  let s' := fold_left wc_char l s in
  wc_l s' = wc_l s + Z.of_nat (length (List.filter (Z.eqb 10) l)) /\
  wc_w s' = wc_w s + Z.of_nat (length (words_of cur l)) - started cur /\
  wc_c s' = wc_c s + Z.of_nat (length l).
Proof.
  induction l as [|b l IH]; intros s cur Hs; cbn [fold_left words_of List.filter length].
  - destruct cur; cbn; lia.
  - destruct (is_space b) eqn:Eb.
    + specialize (IH (wc_char s b) [] ltac:(unfold wc_char; rewrite Eb; done)). cbn in IH. destruct IH as (-> & -> & ->).
      unfold wc_char. rewrite Eb. cbn [wc_l wc_w wc_c]. rewrite Z.eqb_sym, length_app.
      destruct (10 =? b), cur; cbn [length started]; lia.
    + assert (E10 : (10 =? b) = false).
      { unfold is_space in Eb. cbn in Eb. rewrite !orb_false_iff in Eb. rewrite Z.eqb_sym. tauto. }
      assert (Ei : wc_inword (wc_char s b) = true) by (unfold wc_char; rewrite Eb; by destruct (wc_inword s)).
      specialize (IH (wc_char s b) (cur ++ [b]) ltac:(rewrite Ei; by destruct cur)). cbn zeta in IH. destruct IH as (-> & -> & ->).
      unfold wc_char. rewrite Eb, Z.eqb_sym, E10, Hs. destruct cur; cbn; lia.
Qed.
(** The line that wc prints for a text *)
Definition wc_text (name text : list Z) : list Z :=
  shown (str "%d %d %d %s" ++ [NL])
    [FInt (Z.of_nat (length (List.filter (Z.eqb 10) text))); FInt (Z.of_nat (length (words_of [] text)));
     FInt (Z.of_nat (length text)); S_ name].
Lemma fold_left_concat {A B} (f : A -> B -> A) ds s : fold_left (fun s d => fold_left f d s) ds s = fold_left f (concat ds) s.
Proof. revert s. induction ds as [|d ds IH]; intros s; cbn; [done|]. by rewrite fold_left_app. Qed.
Lemma wc_spec fd name cs w : pieces cs -> w_open w !! fd = Some cs ->
  exists l, says 1 (wc_text name (concat cs)) l /\ yields (wc fd name) w (Some tt) (add_log l (set_open (<[fd := []]> (w_open w)) w)).
Proof.
  intros Hp Hw.
  destruct (read_loop fd 512 (fun s d => mret (inl (fold_left wc_char d s))) (fun s n => (n, s)) (fun s d => fold_left wc_char d s) (fun _ _ => [])
    ltac:(lia) ltac:(intros s d w'; exists []; split; [apply says_nil|rewrite add_log_nil; apply yields_ret])
    cs Hp (mkCounts 0 0 0 false) w Hw) as (ds & l & Ec & Hl & Hy).
  assert (E : forall ds s, outs (fun s d => fold_left wc_char d s) (fun _ _ => []) s ds = []).
  { induction ds0 as [|d ds0 IH]; intros s; [done|]. rewrite outs_cons. apply IH. }
  rewrite E in Hl. destruct (uprintf_says 1 (str "%d %d %d %s" ++ [NL])
    (let s := fold_left wc_char (concat cs) (mkCounts 0 0 0 false) in [FInt (wc_l s); FInt (wc_w s); FInt (wc_c s); S_ name])
    (add_log l (set_open (<[fd := []]> (w_open w)) w))) as (l2 & Hl2 & Hy2).
  exists (l ++ l2). split.
  - apply (says_app 1 []); [done|]. destruct (wc_fold (concat cs) (mkCounts 0 0 0 false) [] eq_refl) as (E1 & E2 & E3).
    cbn zeta in Hl2. rewrite E1, E2, E3 in Hl2. cbn [wc_l wc_w wc_c started] in Hl2. rewrite Z.sub_0_r in Hl2. exact Hl2.
  - eapply yields_bind; [exact Hy|]. rewrite fold_left_concat, Ec, <- add_log_app. exact Hy2.
Qed.

(** wc f1 f2 ... prints for each file its name and how many newlines,
    words (runs of characters that are not spaces) and characters it has,
    wherever the reads cut its text; at a file it cannot open it says so and
    exits. *)
Theorem wc_counts p names w : names <> [] -> readable w -> low (w_open w) <> None ->
  exists l, says 1 (files_text (str "wc: cannot open %s" ++ [NL]) (fun f cs => wc_text f (concat cs)) w names) l /\
    yields (wc_main (p :: names)) w None (add_log l w).
Proof.
  intros Hne Hr Hlow. destruct names as [|f names]; [done|]. unfold wc_main. cbn [tail].
  apply (files_spec wc_files wc); [done|done|exact Hlow|]. intros fd g cs l0 Hg.
  destruct (wc_spec fd g cs (set_open (<[fd := cs]> (w_open w)) (add_log l0 w)) (Hr _ _ Hg)) as (l & Hl & Hy).
  { cbn. apply lookup_insert_eq. }
  exists l. split; [exact Hl|]. cbn in Hy. rewrite insert_insert_eq in Hy. exact Hy.
Qed.

(** ** grep *)
Lemma line_writes_spec pattern k p : ((concat (line_writes k pattern p).1, (line_writes k pattern p).2) = grep_lines k pattern p)%core.
Proof.
  revert p. induction k as [|k IH]; intros p; cbn [line_writes grep_lines]; [done|].
  destruct (find_newline p) as [[line rest]|]; [|done]. specialize (IH rest).
  destruct (line_writes k pattern rest) as [o p'], (grep_lines k pattern rest) as [o2 p2]. cbn [fst snd] in *.
  injection IH as <- <-. rewrite concat_app. by destruct (match_re pattern line); cbn; rewrite ?app_nil_r.
Qed.
Lemma writes_says fd ds w : exists l, says fd (concat ds) l /\ yields (writes fd ds) w (Some tt) (add_log l w).
Proof.
  revert w. induction ds as [|d ds IH]; intros w; cbn [writes concat].
  - exists []. split; [apply says_nil|]. rewrite add_log_nil. apply yields_ret.
  - destruct (IH (add_log [Wrote fd d] w)) as (l & Hl & Hy). exists ([Wrote fd d] ++ l).
    split; [apply says_app; [apply says_one|done]|]. rewrite <- add_log_app. eapply yields_seq; [reflexivity|exact Hy].
Qed.

(** A text of complete lines that fit in the buffer with their newlines *)
Definition short_lines (l : list Z) : Prop :=
  text l /\ (split [] l).2 = [] /\ Forall (fun line => (length line < 1023)%nat) (split [] l).1.
Lemma split_part m rest : no_newline m -> split [] (m ++ rest) = split m rest.
Proof. intros Hm. rewrite split_app, (split_no_newline [] m Hm). cbn. by destruct (split m rest). Qed.
Lemma first_newline n l : short_lines l -> l <> [] -> (1023 <= n)%nat -> chr_newline ∈ take n l.
Proof.
  intros (Ht & Hr & Hs) Hne Hn. rewrite split_find in Hr, Hs by done.
  destruct (find_newline l) as [[line rest]|] eqn:E; [|done]. apply find_newline_split in E. subst l.
  cbn [fst] in Hs. apply Forall_cons in Hs as [Hs _]. cbn in Hs.
  apply list_elem_of_In, list_elem_of_In. rewrite take_app_ge by lia. apply elem_of_app. right.
  destruct (n - length line)%nat eqn:En; [lia|]. cbn. left.
Qed.
(** One turn: the lines that are complete are treated, the rest is kept *)
Lemma grep_turn pattern m d rest : no_newline m -> short_lines (m ++ d ++ rest) -> chr_newline ∈ m ++ d ->
  let p := (split [] (m ++ d)).2 in
  grep_lines (S (length (m ++ d))) pattern (m ++ d) = (matching pattern (split [] (m ++ d)).1, p) /\
  length p <> length (m ++ d) /\ no_newline p /\ short_lines (p ++ rest) /\
  matching pattern (split [] (m ++ d ++ rest)).1 = matching pattern (split [] (m ++ d)).1 ++ matching pattern (split [] (p ++ rest)).1.
Proof.
  intros Hm (Ht & Hr & Hs) Hin p. rewrite app_assoc in Ht, Hr, Hs. pose proof Ht as [Htd Htr]%Forall_app.
  assert (Hp : no_newline p) by (apply split_rest_no_newline, not_elem_of_nil).
  rewrite split_app in Hr, Hs. cbn [fst snd] in Hr, Hs. fold p in Hr, Hs. rewrite <- (split_part p rest Hp) in Hr, Hs.
  split; [by apply grep_lines_spec; [|lia]|]. pose proof (split_rest_shorter _ Htd Hin). split; [fold p in H; lia|].
  split; [done|]. apply Forall_app in Hs as [_ Hs]. split.
  - split; [apply Forall_app; split; [apply split_rest_text; [by apply Forall_nil|done]|done]|done].
  - rewrite app_assoc, split_app. cbn [fst]. fold p. rewrite <- (split_part p rest Hp).
    unfold matching. by rewrite map_app, concat_app.
Qed.
(** A regular file: a read returns all it is asked for, up to the end. *)
Definition regular (c : list Z) : list (list Z) := match c with [] => [] | _ => [c] end.
Lemma read_regular fd n c w : w_open w !! fd = Some (regular c) ->
  handle (SysRead fd n) w = Reply (Z.of_nat (length (take (Z.to_nat n) c)), take (Z.to_nat n) c)
    (set_open (<[fd := regular (drop (Z.to_nat n) c)]> (w_open w)) w).
Proof.
  intros Hw. cbn [handle]. rewrite Hw. destruct c as [|b c]; cbn [regular take_chunk].
  - by rewrite take_nil, drop_nil.
  - by destruct (drop (Z.to_nat n) (b :: c)).
Qed.
Lemma buffer_room m rest : no_newline m -> short_lines (m ++ rest) -> rest <> [] ->
  (length m < 1023)%nat /\ chr_newline ∈ m ++ take (1023 - length m) rest.
Proof.
  intros Hm Hs Hne. assert (Hin : chr_newline ∈ take 1023 (m ++ rest)).
  { apply first_newline; [done|by destruct m|lia]. }
  assert (Hlt : (length m < 1023)%nat).
  { destruct (Nat.lt_ge_cases (length m) 1023) as [H|H]; [done|]. rewrite take_app_le in Hin by done.
    exfalso. apply Hm. rewrite <- (take_drop 1023 m). apply elem_of_app. by left. }
  split; [done|]. by rewrite take_app_ge in Hin by lia.
Qed.
Definition grep_step (pattern : list Z) (fd : Z) (m : list Z) : itree sys (list Z + unit) :=
  r ← call (SysRead fd (1024 - Z.of_nat (length m) - 1));
  if r.1 >? 0 then
    let buf := m ++ take (Z.to_nat r.1) r.2 in
    let '(out, p) := line_writes (S (length buf)) pattern buf in
    writes 1 out;;
    mret (inl (if decide (length p = length buf) then [] else p))
  else mret (inr tt).
Lemma grep_step_spec pattern fd w m c : no_newline m -> short_lines (m ++ c) -> c <> [] -> w_open w !! fd = Some (regular c) ->
  let d := take (1023 - length m) c in let p := (split [] (m ++ d)).2 in
  exists l, says 1 (matching pattern (split [] (m ++ d)).1) l /\
    yields (grep_step pattern fd m) w (Some (inl p)) (add_log l (set_open (<[fd := regular (drop (1023 - length m) c)]> (w_open w)) w)).
Proof.
  intros Hm Hs Hne Hw d p. destruct (buffer_room m c Hm Hs Hne) as [Hroom Hin]. fold d in Hin.
  pose proof (read_regular fd (1024 - Z.of_nat (length m) - 1) c w Hw) as Hread.
  replace (Z.to_nat (1024 - Z.of_nat (length m) - 1)) with (1023 - length m)%nat in Hread by lia. fold d in Hread.
  assert (Hs' : short_lines (m ++ d ++ drop (1023 - length m) c)) by (unfold d; by rewrite take_drop).
  destruct (grep_turn pattern m d _ Hm Hs' Hin) as (El & Hlen & _). fold p in El, Hlen.
  pose proof (line_writes_spec pattern (S (length (m ++ d))) (m ++ d)) as Ew. rewrite El in Ew.
  destruct (line_writes (S (length (m ++ d))) pattern (m ++ d)) as [o p'] eqn:Eo. injection Ew as Eo' ->.
  destruct (writes_says 1 o (set_open (<[fd := regular (drop (1023 - length m) c)]> (w_open w)) w)) as (l & Hl & Hy).
  rewrite Eo' in Hl. exists l. split; [exact Hl|]. eapply yields_seq; [exact Hread|]. cbn [fst snd].
  assert (Hd : (0 < length d)%nat) by (unfold d; rewrite length_take; destruct c; [done|cbn; lia]).
  rewrite (proj2 (Z.gtb_lt _ _)) by lia. rewrite take_all, Eo. eapply yields_bind; [exact Hy|].
  rewrite decide_False by done. apply yields_ret.
Qed.
Lemma grep_loop_spec pattern fd n : forall c w m, length c = n -> no_newline m -> short_lines (m ++ c) -> w_open w !! fd = Some (regular c) ->
  exists l, says 1 (matching pattern (split [] (m ++ c)).1) l /\
    yields (ITree.iter (grep_step pattern fd) m) w (Some tt) (add_log l (set_open (<[fd := []]> (w_open w)) w)).
Proof.
  induction n as [n IH] using lt_wf_ind. intros c w m Hn Hm Hs Hw. destruct (decide (c = [])) as [->|Hne].
  - rewrite app_nil_r, split_no_newline by done. exists []. split; [apply says_nil|].
    rewrite add_log_nil, insert_id, set_open_same by done. apply yields_iter_stop. eapply yields_seq; [by apply read_end|]. apply yields_ret.
  - destruct (buffer_room m c Hm Hs Hne) as [Hroom Hin]. destruct (grep_step_spec pattern fd w m c Hm Hs Hne Hw) as (l1 & Hl1 & Hy1).
    set (d := take (1023 - length m) c) in *. set (rest := drop (1023 - length m) c) in *.
    assert (Ec : c = d ++ rest) by (unfold d, rest; by rewrite take_drop). rewrite Ec in Hs |- *.
    destruct (grep_turn pattern m d rest Hm Hs Hin) as (_ & _ & Hp & Hs2 & ->).
    destruct (IH (length rest) ltac:(unfold rest; rewrite length_drop; destruct c; [done|cbn in *; lia]) rest
      (add_log l1 (set_open (<[fd := regular rest]> (w_open w)) w)) _ eq_refl Hp Hs2) as (l2 & Hl2 & Hy2).
    { cbn. apply lookup_insert_eq. }
    exists (l1 ++ l2). split; [by apply says_app|]. eapply yields_iter_next; [exact Hy1|].
    rewrite <- add_log_app. cbn in Hy2. rewrite insert_insert_eq in Hy2. exact Hy2.
Qed.

(** C29: grep pattern f1 f2 ... on regular files of complete lines, each with
    its newline at most 1023 characters, writes exactly the lines that match the
    pattern, in order and each once, then exits; at a file it cannot open it says so and exits. *)
Theorem grep_correct p pattern names w : names <> [] -> low (w_open w) <> None ->
  (forall f cs, w_files w !! f = Some cs -> exists c, cs = regular c /\ short_lines c) ->
  exists l, says 1 (files_text (str "grep: cannot open %s" ++ [NL])
      (fun _ cs => concat (map (fun line => if match_re pattern line then line ++ [NL] else []) (split [] (concat cs)).1)) w names) l /\
    yields (grep_main (p :: pattern :: names)) w None (add_log l w).
Proof.
  intros Hne Hlow Hr. destruct names as [|f names]; [done|]. unfold grep_main. cbn [tail].
  edestruct (files_spec (grep_files pattern) (fun fd _ => ugrep pattern fd) (str "grep: cannot open %s" ++ [NL])
    (fun _ cs => matching pattern (split [] (concat cs)).1)) with (w := w) (names := f :: names) as (l & Hl & Hy); [done|done|exact Hlow| |].
  { intros fd g cs l0 Hg. destruct (Hr _ _ Hg) as (c & -> & Hs).
    destruct (grep_loop_spec pattern fd _ c (set_open (<[fd := regular c]> (w_open w)) (add_log l0 w)) [] eq_refl) as (l & Hl & Hy);
      [apply not_elem_of_nil|done|cbn; apply lookup_insert_eq|].
    exists l. split; [destruct c; cbn; rewrite ?app_nil_r; exact Hl|]. cbn in Hy. rewrite insert_insert_eq in Hy. exact Hy. }
  exists l. split; [exact Hl|exact Hy].
Qed.

(** ** Examples *)
(** f is "hi there NEWLINE" in three pieces, g is "a NEWLINE"; there is no h *)
Definition two_files : world :=
  mkWorld (<[0 := []]> (<[1 := []]> (<[2 := []]> ∅)))
    (<[str "f" := [str "h"; str "i th"; str "ere" ++ [NL]]]> (<[str "g" := [str "a" ++ [NL]]]> ∅)) [] [] [] 5 3 [].
Lemma two_files_readable : readable two_files.
Proof.
  intros f cs. unfold two_files. cbn [w_files]. intros [[<- <-]|[_ [[<- <-]|[_ H]]%lookup_insert_Some]]%lookup_insert_Some.
  - repeat constructor; discriminate.
  - repeat constructor; discriminate.
  - done.
Qed.
Lemma cat_copies_witness : exists l, says 1 (str "hi there" ++ [NL] ++ str "a" ++ [NL] ++ str "cat: cannot open h" ++ [NL]) l /\
  yields (cat_main [str "cat"; str "f"; str "g"; str "h"]) two_files None (add_log l two_files).
Proof. apply (cat_copies (str "cat") [str "f"; str "g"; str "h"] two_files); [discriminate|exact two_files_readable|discriminate]. Defined.
Lemma wc_counts_witness : exists l, says 1 (str "1 2 9 f" ++ [NL] ++ str "1 1 2 g" ++ [NL]) l /\
  yields (wc_main [str "wc"; str "f"; str "g"]) two_files None (add_log l two_files).
Proof. apply (wc_counts (str "wc") [str "f"; str "g"] two_files); [discriminate|exact two_files_readable|discriminate]. Defined.
(** Lines "xyz", "abc", "xaz" and the pattern x.z *)
Definition grep_world : world :=
  mkWorld (<[0 := []]> (<[1 := []]> (<[2 := []]> ∅)))
    (<[str "f" := [str "xyz" ++ [NL] ++ str "abc" ++ [NL] ++ str "xaz" ++ [NL]]]> ∅) [] [] [] 5 3 [].
Lemma grep_correct_witness : exists l, says 1 (str "xyz" ++ [NL] ++ str "xaz" ++ [NL]) l /\
  yields (grep_main [str "grep"; str "x.z"; str "f"]) grep_world None (add_log l grep_world).
Proof.
  apply (grep_correct (str "grep") (str "x.z") [str "f"] grep_world); [discriminate|discriminate|].
  intros f cs. unfold grep_world. cbn [w_files]. intros [[<- <-]|[_ H]]%lookup_insert_Some; [|done].
  exists (str "xyz" ++ [NL] ++ str "abc" ++ [NL] ++ str "xaz" ++ [NL]). split; [reflexivity|].
  split; [repeat constructor; discriminate|]. split; [reflexivity|]. repeat constructor; cbn; lia.
Defined.
