(* ===== verification/UserSh.v ===== *)
(** * The shell's main loop, and forktest

    What sh does with the lines it reads, and that forktest ends well on a
    machine with fewer process slots than it makes forks. *)

From ITree Require Import ITree.
From S2P Require Import Prelude Params Bytes CString Console Fs Sh ShTotal ShPrint ShLine ShRun User UserSpec.

(** [s] written to [fd] a character at a time *)
Definition spoken (fd : Z) (s : list Z) : list act := map (fun c => Wrote fd [c]) s.
Lemma putcs_spoken fd s w : yields (putcs fd s) w (Some tt) (add_log (spoken fd s) w).
Proof.
  revert w. induction s as [|c s IH]; intros w; cbn [putcs].
  - rewrite add_log_nil. apply yields_ret.
  - change (spoken fd (c :: s)) with ([Wrote fd [c]] ++ spoken fd s). rewrite <- add_log_app.
    eapply yields_seq; [reflexivity|apply IH].
Qed.

(** ** gets *)
Definition ends_line (c : Z) : bool := (c =? 10) || (c =? 13).
Definition gets_step (max : Z) (buf : list Z) : itree sys (list Z + list Z) :=
  if Z.of_nat (length buf) + 1 <? max then
    r ← call (SysRead 0 1);
    if r.1 <? 1 then mret (inr buf)
    else
      let c := r.2 !!! 0%nat in
      let buf := buf ++ [c] in
      if (c =? 10) || (c =? 13) then mret (inr buf) else mret (inl buf)
  else mret (inr buf).
(** A read of one character *)
Lemma read_char c rest cs w : pieces cs -> concat cs = c :: rest -> w_open w !! 0 = Some cs ->
  exists cs', pieces cs' /\ concat cs' = rest /\
    handle (SysRead 0 1) w = Reply (1, [c]) (set_open (<[0 := cs']> (w_open w)) w).
Proof.
  intros Hp Ec Hw. destruct cs as [|d cs]; [done|]. destruct (read_some 0 1 d cs w ltac:(lia) Hp Hw) as (e & cs' & E & He & Ec' & Hp' & _).
  rewrite Ec in Ec'. destruct e as [|b [|b' e]]; [cbn in He; lia| |cbn in He; lia]. injection Ec' as -> ->. by exists cs'.
Qed.
(** What one gets of at most [n] characters takes from a text, and what is left *)
Fixpoint first_read (n : nat) (text : list Z) : list Z * list Z :=
  match n, text with
  | S n', c :: text' => if ends_line c then ([c], text') else let '(a, b) := first_read n' text' in (c :: a, b)
  | _, _ => ([], text)
  end.
Lemma first_read_app n text : (first_read n text).1 ++ (first_read n text).2 = text.
Proof.
  revert text. induction n as [|n IH]; intros [|c text]; try done. cbn. destruct (ends_line c); [done|].
  specialize (IH text). destruct (first_read n text). cbn in *. by rewrite IH.
Qed.
Lemma gets_reads max k : forall buf text cs w, Z.of_nat (length buf + k) + 1 = max -> pieces cs -> concat cs = text ->
  w_open w !! 0 = Some cs ->
  exists cs', pieces cs' /\ concat cs' = (first_read k text).2 /\
    yields (ITree.iter (gets_step max) buf) w (Some (buf ++ (first_read k text).1)) (set_open (<[0 := cs']> (w_open w)) w).
Proof.
  induction k as [|k IH]; intros buf text cs w Hmax Hp Ec Hw.
  { exists cs. split; [done|]. split; [by destruct text|]. rewrite insert_id, set_open_same by done. apply yields_iter_stop. unfold gets_step.
    rewrite (proj2 (Z.ltb_ge _ _)) by lia. replace (first_read 0 text).1 with (@nil Z) by (by destruct text). rewrite app_nil_r. apply yields_ret. }
  destruct text as [|c text].
  - assert (cs = []) as -> by (destruct Hp as [|d cs Hd _]; [done|]; by destruct d).
    exists []. split; [done|]. split; [done|]. rewrite insert_id, set_open_same by done. apply yields_iter_stop. unfold gets_step.
    rewrite (proj2 (Z.ltb_lt _ _)) by lia. eapply yields_seq; [by apply read_end|]. cbn. rewrite app_nil_r. apply yields_ret.
  - destruct (read_char _ _ cs w Hp Ec Hw) as (cs1 & Hp1 & Ec1 & E). cbn [first_read]. destruct (ends_line c) eqn:Hc.
    + exists cs1. split; [done|]. split; [done|]. apply yields_iter_stop. unfold gets_step. rewrite (proj2 (Z.ltb_lt _ _)) by lia.
      eapply yields_seq; [exact E|]. cbn. unfold ends_line in Hc. rewrite Hc. apply yields_ret.
    + destruct (IH (buf ++ [c]) text cs1 (set_open (<[0 := cs1]> (w_open w)) w)) as (cs' & Hp' & Ec' & Hy); [|done|done|by cbn; rewrite lookup_insert_eq|].
      { rewrite length_app. cbn. lia. }
      destruct (first_read k text) as [l rest]. exists cs'. split; [done|]. split; [done|]. eapply yields_iter_next.
      * unfold gets_step. rewrite (proj2 (Z.ltb_lt _ _)) by lia. eapply yields_seq; [exact E|].
        cbn. unfold ends_line in Hc. rewrite Hc. apply yields_ret.
      * rewrite <- app_assoc in Hy. cbn in Hy |- *. unfold set_open in Hy. cbn in Hy. rewrite insert_insert_eq in Hy. exact Hy.
Qed.

(** ** sh *)
(** The lines that the shell reads from a text, with their ends: a line of up to
    98 characters and its newline, or 99 characters of a longer one, or what is
    left at the end *)
Fixpoint lines_of (fuel : nat) (text : list Z) : list (list Z) :=
  match fuel, text with
  | S fuel', _ :: _ => let '(a, b) := first_read 99 text in a :: lines_of fuel' b
  | _, _ => []
  end.
(** What it does with one: cd drops the last character, the newline *)
Definition line_acts (dirs : list (list Z)) (pid : Z) (line : list Z) : list act :=
  if is_cd line then
    let dir := drop 3 (removelast line) in
    if decide (dir ∈ dirs) then [Chdired dir] else spoken 2 (shown (str "cannot cd %s" ++ [NL]) [S_ dir])
  else [Forked pid; Waited pid].
Definition prompt : list act := spoken 2 (str "$ ").
Fixpoint session (dirs : list (list Z)) (pid : Z) (lines : list (list Z)) : list act :=
  match lines with
  | [] => prompt
  | line :: lines => prompt ++ line_acts dirs pid line ++ session dirs (if is_cd line then pid else pid + 1) lines
  end.
(** The world of a shell with no children *)
Definition idle_sh (w : world) : Prop := w_kids w = [] /\ (0 < w_slots w)%nat /\ 0 < w_pid w.

Lemma until0_id l : Forall (fun c => c <> 0) l -> until0 l = l.
Proof. induction 1 as [|c l Hc Hl IH]; [done|]. cbn. rewrite (proj2 (Z.eqb_neq c 0) Hc). by rewrite IH. Qed.
Lemma getcmd_reads text cs w : Forall (fun c => c <> 0) text -> pieces cs -> concat cs = text -> w_open w !! 0 = Some cs ->
  exists cs', pieces cs' /\ concat cs' = (first_read 99 text).2 /\
    yields getcmd w (Some (match (first_read 99 text).1 with [] => None | l => Some l end)) (add_log prompt (set_open (<[0 := cs']> (w_open w)) w)).
Proof.
  intros Hl Hp Ec Hw.
  destruct (gets_reads 100 99 [] text cs (add_log prompt w) eq_refl Hp Ec Hw) as (cs' & Hp' & Ec' & Hy).
  exists cs'. split; [done|]. split; [done|]. eapply yields_bind; [apply putcs_spoken|].
  eapply yields_bind; [exact Hy|]. cbn [app]. rewrite <- (first_read_app 99 text) in Hl. apply Forall_app in Hl as [Hl _].
  rewrite until0_id by done. destruct (first_read 99 text).1; apply yields_ret.
Qed.
Lemma sh_line_spec line w : idle_sh w ->
  yields (sh_line line) w (Some tt)
    (add_log (line_acts (w_dirs w) (w_pid w) line) (set_kids [] (w_slots w) (if is_cd line then w_pid w else w_pid w + 1) w)).
Proof.
  intros (Hk & Hs & Hpid). unfold sh_line, line_acts. destruct (is_cd line).
  - assert (E : set_kids [] (w_slots w) (w_pid w) w = w) by (destruct w; cbn in *; by subst). rewrite E.
    destruct (decide (drop 3 (removelast line) ∈ w_dirs w)) as [Hd|Hd].
    + eapply yields_seq; [cbn [handle]; rewrite decide_True by done; reflexivity|]. apply yields_ret.
    + eapply yields_seq; [cbn [handle]; rewrite decide_False by done; reflexivity|]. apply putcs_spoken.
  - destruct (w_slots w) as [|n] eqn:En; [lia|].
    eapply yields_seq; [cbn [handle]; rewrite En; reflexivity|]. rewrite (proj2 (Z.eqb_neq (w_pid w) (-1))), (proj2 (Z.eqb_neq (w_pid w) 0)) by lia.
    eapply yields_seq; [cbn [handle add_log set_kids w_kids]; rewrite Hk; reflexivity|].
    change [Forked (w_pid w); Waited (w_pid w)] with ([Forked (w_pid w)] ++ [Waited (w_pid w)]). rewrite <- add_log_app. apply yields_ret.
Qed.
Lemma first_read_some n c text : exists a l b, first_read (S n) (c :: text) = (a :: l, b) /\ (length b <= length text)%nat.
Proof.
  pose proof (first_read_app (S n) (c :: text)) as H. cbn [first_read] in *. destruct (ends_line c); [by exists c, [], text|].
  destruct (first_read n text) as [l b]. exists c, l, b. split; [done|]. injection H as H. rewrite <- H, length_app. lia.
Qed.
Lemma sh_loop_spec fuel : forall text cs w, (length text <= fuel)%nat -> Forall (fun c => c <> 0) text -> idle_sh w -> pieces cs ->
  concat cs = text -> w_open w !! 0 = Some cs ->
  exists w', yields (ITree.iter (fun _ : unit =>
      r ← getcmd; match r with None => mret (inr tt) | Some buf => sh_line buf;; mret (inl tt) end) tt) w (Some tt) w' /\
    w_log w' = w_log w ++ session (w_dirs w) (w_pid w) (lines_of fuel text) /\ w_kids w' = [] /\ w_slots w' = w_slots w.
Proof.
  induction fuel as [|fuel IH]; intros text cs w Hf Ht Hi Hp Ec Hw; destruct (getcmd_reads text cs w Ht Hp Ec Hw) as (cs1 & Hp1 & Ec1 & Hy1);
    destruct text as [|c text]; cbn [length] in Hf; try lia.
  1, 2: eexists; split; [apply yields_iter_stop; eapply yields_bind; [exact Hy1|apply yields_ret]|]; destruct Hi; done.
  destruct (first_read_some 98 c text) as (a & l & b & Er & Hb). cbn [lines_of]. rewrite Er in *. cbn [fst snd] in *.
  pose proof (first_read_app 99 (c :: text)) as Ea. rewrite Er in Ea. cbn [fst snd] in Ea. rewrite <- Ea in Ht. apply Forall_app in Ht as [_ Ht].
  set (w1 := add_log prompt (set_open (<[0 := cs1]> (w_open w)) w)) in Hy1.
  assert (Hi1 : idle_sh w1) by exact Hi. pose proof (sh_line_spec (a :: l) w1 Hi1) as Hy2.
  set (w2 := add_log _ (set_kids _ _ _ w1)) in Hy2.
  destruct (IH b cs1 w2) as (w' & Hy & Hlog & Hk & Hs); [lia|done| |done|exact Ec1|cbn; apply lookup_insert_eq|].
  { destruct Hi as (Hk & Hs & Hpid). unfold w2. split; [done|]. split; [exact Hs|]. cbn. destruct (is_cd _); lia. }
  exists w'. split; [|split; [|done]].
  - eapply yields_iter_next; [|exact Hy]. eapply yields_bind; [exact Hy1|]. eapply yields_bind; [exact Hy2|]. apply yields_ret.
  - rewrite Hlog. unfold w2, w1. cbn [session add_log set_kids set_open w_log w_dirs w_pid]. by rewrite <- !app_assoc.
Qed.

(** C30: The shell with its three descriptors open reads any input without NUL
    bytes, however it arrives, a line at a time, prompting before each; a line of
    up to 98 characters is read whole, a longer one 99 characters at a time, each
    piece taken for a line.  For a cd the shell changes its own directory (or says
    it cannot), for any other line it forks one child and waits for it; at the end
    of the input it exits, with no child left. *)
Theorem sh_session text cs cons fd w : Forall (fun c => c <> 0) text -> idle_sh w -> pieces cs ->
  concat cs = text -> w_open w !! 0 = Some cs ->
  w_files w !! str "console" = Some cons -> low (w_open w) = Some fd -> 3 <= fd ->
  exists w', yields sh_main w None w' /\
    w_log w' = w_log w ++ session (w_dirs w) (w_pid w) (lines_of (length text) text) /\
    w_kids w' = [] /\ w_slots w' = w_slots w.
Proof.
  intros Hl Hi Hp Ec Hw Hc Hlow Hfd. destruct (sh_loop_spec (length text) text cs w (le_n _) Hl Hi Hp Ec Hw) as (w' & Hy & Hlog & Hk & Hs).
  exists w'. split; [|done]. eapply yields_bind; [|eapply yields_bind; [exact Hy|apply yields_exit]].
  apply yields_iter_stop. eapply yields_seq; [cbn [handle]; rewrite Hc; unfold new_fd; rewrite Hlow; reflexivity|].
  rewrite (proj2 (Z.leb_le 0 fd)), (proj2 (Z.leb_le 3 fd)) by lia.
  eapply yields_seq; [cbn [handle set_open w_open]; rewrite lookup_insert_eq; reflexivity|].
  unfold set_open. cbn. rewrite delete_insert_eq, delete_id by (by apply low_free in Hlow as []).
  destruct w. apply yields_ret.
Qed.
(** Lines that are short enough are read one by one. *)
Lemma lines_of_short lines : Forall (fun l => Forall (fun c => ends_line c = false) l /\ (length l <= 98)%nat) lines ->
  forall fuel, let text := concat (map (fun l => l ++ [NL]) lines) in (length text <= fuel)%nat ->
  lines_of fuel text = map (fun l => l ++ [NL]) lines.
Proof.
  assert (R : forall l n rest, Forall (fun c => ends_line c = false) l -> (length l < n)%nat -> first_read n (l ++ NL :: rest) = (l ++ [NL], rest)).
  { induction l as [|c l IH]; intros [|n] rest Hl Hn; cbn [length] in Hn; try lia; [done|]. apply Forall_cons in Hl as [Hc Hl].
    cbn [app first_read]. rewrite Hc, IH by (done || lia). done. }
  induction 1 as [|l lines [Hl Hn] Hls IH]; intros fuel; cbn [map concat]; intros Hf; [by destruct fuel|].
  rewrite <- app_assoc in *. cbn [app] in *. rewrite length_app in Hf. cbn [length] in Hf. destruct fuel as [|fuel]; [lia|].
  specialize (R l 99%nat (concat (map (fun l => l ++ [NL]) lines)) Hl ltac:(lia)). specialize (IH fuel ltac:(lia)).
  destruct (l ++ NL :: concat (map (fun l => l ++ [NL]) lines)) as [|x t] eqn:E; [by destruct l|]. cbn [lines_of]. rewrite R. by f_equal.
Qed.
(** A line of 120 characters is taken for two commands. *)
Example long_line_splits : map length (lines_of 121 (replicate 120 97 ++ [NL])) = [99; 22]%nat.
Proof. vm_compute. reflexivity. Qed.

(** C17: The child that the shell forks for a line runs the command that was
    typed.  For the text of any command, ended by a newline, the calls it makes
    produce the processes that the command stands for, whichever files can be
    opened, if forks succeed: the programs with the input and output that pipes
    and redirections give them and no other descriptor open, pipes joining
    neighbours, and the waits of lists and pipes and none for the background.  For
    a plain command the child is the exec of the program with its words as
    arguments, and if exec does not find it a message and exit. *)
Theorem sh_child_runs c : valid c -> print 3 c <> [] ->
  (exists p, run_line (typed_line c) = of_prog p /\
     forall opens i o e id, run opens p (std i o e) id = means opens e c i o id) /\
  forall a argv w, c = SExec (a :: argv) ->
    yields (run_line (typed_line c)) w None
      (add_log (if decide (a ∈ w_progs w) then [Execed a (a :: argv)] else spoken 2 (shown (str "exec %s failed" ++ [NL]) [S_ a])) w).
Proof.
  intros Hv Hne. destruct (parse_typed c Hv Hne) as (t & mem & E & Em).
  assert (Er : run_line (typed_line c) = of_prog (runcmd c)) by (unfold run_line; rewrite E, Em; reflexivity).
  split; [exists (runcmd c); split; [exact Er|]; intros; apply runcmd_wiring|]. intros a argv w ->. rewrite Er. cbn [runcmd of_prog hd]. case_decide as Hp.
  - apply yields_exit_bind, yields_end. cbn [handle]. by rewrite decide_True.
  - eapply yields_seq; [cbn [handle]; rewrite decide_False by done; reflexivity|].
    eapply yields_bind; [apply putcs_spoken|apply yields_exit].
Qed.

(** ** forktest *)
(** The pids of the next children *)
Definition births (n : nat) (pid : Z) : list Z := map (fun i => pid + Z.of_nat i) (seq 0 n).
Lemma births_S n pid : births (S n) pid = pid :: births n (pid + 1).
Proof.
  unfold births. cbn [seq map]. rewrite Z.add_0_r. f_equal. rewrite <- seq_shift, map_map. apply map_ext. intros i. lia.
Qed.
Lemma ft_fork_spec k : forall i w, (w_slots w < k)%nat -> 0 < w_pid w ->
  yields (ft_fork k i) w (Some (i + Z.of_nat (w_slots w)))
    (add_log (map Forked (births (w_slots w) (w_pid w)))
      (set_kids (w_kids w ++ births (w_slots w) (w_pid w)) 0 (w_pid w + Z.of_nat (w_slots w)) w)).
Proof.
  induction k as [|k IH]; intros i w Hk Hpid; [lia|]. cbn [ft_fork]. destruct (w_slots w) as [|n] eqn:En.
  - eapply yields_seq; [cbn [handle]; rewrite En; reflexivity|]. cbn. rewrite app_nil_r, add_log_nil, !Z.add_0_r.
    assert (E : set_kids (w_kids w) 0 (w_pid w) w = w) by (destruct w; cbn in *; by subst). rewrite E. apply yields_ret.
  - eapply yields_seq; [cbn [handle]; rewrite En; reflexivity|].
    rewrite (proj2 (Z.ltb_ge (w_pid w) 0)), (proj2 (Z.eqb_neq (w_pid w) 0)) by lia.
    set (w1 := add_log [Forked (w_pid w)] (set_kids (w_kids w ++ [w_pid w]) n (w_pid w + 1) w)).
    specialize (IH (i + 1) w1 ltac:(cbn; lia) ltac:(cbn; lia)). unfold w1 in IH at 2 3 4 5 6 7. cbn [w_slots w_pid w_kids add_log set_kids] in IH.
    rewrite births_S. cbn [map]. replace (i + Z.of_nat (S n)) with (i + 1 + Z.of_nat n) by lia.
    replace (w_pid w + Z.of_nat (S n)) with (w_pid w + 1 + Z.of_nat n) by lia.
    replace (w_kids w ++ w_pid w :: births n (w_pid w + 1)) with ((w_kids w ++ [w_pid w]) ++ births n (w_pid w + 1)) by by rewrite <- app_assoc.
    revert IH. unfold w1, add_log, set_kids. cbn. rewrite <- !app_assoc. exact id.
Qed.
Lemma ft_wait_spec kids : Forall (fun pid => 0 < pid) kids -> forall w, w_kids w = kids ->
  yields (ft_wait (length kids)) w (Some tt) (add_log (map Waited kids) (set_kids [] (w_slots w + length kids) (w_pid w) w)).
Proof.
  induction 1 as [|pid kids Hpid Hk IH]; intros w Hw; cbn [ft_wait length map].
  - rewrite add_log_nil, Nat.add_0_r. assert (E : set_kids [] (w_slots w) (w_pid w) w = w) by (destruct w; cbn in *; by subst).
    rewrite E. apply yields_ret.
  - eapply yields_seq; [cbn [handle]; rewrite Hw; reflexivity|]. rewrite (proj2 (Z.ltb_ge pid 0)) by lia.
    specialize (IH (add_log [Waited pid] (set_kids kids (S (w_slots w)) (w_pid w) w)) eq_refl).
    revert IH. unfold add_log, set_kids. cbn. rewrite <- app_assoc. cbn. rewrite Nat.add_succ_r. exact id.
Qed.

(** On a machine with fewer than 1000 free process slots (param.h has 64),
    forktest fills the table, sees fork fail, waits for every child it made,
    sees wait fail, reports success and exits with all slots free again. *)
Theorem forktest_ok w : w_kids w = [] -> (w_slots w < 1000)%nat -> 0 < w_pid w ->
  exists w', yields forktest_main w None w' /\ w_kids w' = [] /\ w_slots w' = w_slots w /\
    w_log w' = w_log w ++ [Wrote 1 (str "fork test" ++ [NL])] ++ map Forked (births (w_slots w) (w_pid w)) ++
      map Waited (births (w_slots w) (w_pid w)) ++ [Wrote 1 (str "fork test OK" ++ [NL])].
Proof.
  intros Hk Hs Hpid. set (w1 := add_log [Wrote 1 (str "fork test" ++ [NL])] w).
  assert (Hkids : Forall (fun pid => 0 < pid) (births (w_slots w) (w_pid w))).
  { apply Forall_forall. intros x (i & <- & _)%list_elem_of_In%in_map_iff. lia. }
  assert (Hlen : length (births (w_slots w) (w_pid w)) = w_slots w) by (unfold births; by rewrite length_map, length_seq).
  pose proof (ft_fork_spec FT_N 0 w1 Hs Hpid) as Hy1. change (w_slots w1) with (w_slots w) in Hy1. change (w_pid w1) with (w_pid w) in Hy1.
  set (w2 := add_log (map Forked _) _) in Hy1.
  pose proof (ft_wait_spec _ Hkids w2 ltac:(cbn; by rewrite Hk)) as Hy2. rewrite Hlen in Hy2. set (w3 := add_log (map Waited _) _) in Hy2.
  exists (add_log [Wrote 1 (str "fork test OK" ++ [NL])] w3). split.
  - eapply yields_bind; [|apply yields_exit]. eapply yields_bind; [eapply yields_seq; [reflexivity|apply yields_ret]|].
    eapply yields_bind; [exact Hy1|]. rewrite Z.add_0_l. rewrite (proj2 (Z.eqb_neq _ _)) by (unfold FT_N; lia). rewrite Nat2Z.id.
    eapply yields_bind; [exact Hy2|]. eapply yields_seq; [reflexivity|]. cbn [negb Z.eqb Pos.eqb].
    eapply yields_seq; [reflexivity|]. apply yields_ret.
  - unfold w3, w2, w1. cbn [add_log set_kids w_kids w_slots w_log]. split; [done|]. split; [lia|]. by rewrite <- !app_assoc.
Qed.

(** ** Examples *)
(** A shell with cat to run and one directory to go to; the input "cat f", "cd d", "cd e" comes in odd pieces *)
Definition sample_world : world :=
  mkWorld (<[0 := [str "ca"; str "t f" ++ [NL] ++ str "c"; str "d d" ++ [NL] ++ str "cd e" ++ [NL]]]> (<[1 := []]> (<[2 := []]> ∅)))
    (<[str "console" := []]> ∅) [str "cat"] [str "d"] [] 5 3 [].
Lemma sh_session_witness : exists w', yields sh_main sample_world None w' /\
  w_log w' = prompt ++ [Forked 3; Waited 3] ++ prompt ++ [Chdired (str "d")] ++ prompt ++
    spoken 2 (str "cannot cd e" ++ [NL]) ++ prompt /\ w_kids w' = [] /\ w_slots w' = 5%nat.
Proof.
  apply (sh_session (str "cat f" ++ [NL] ++ str "cd d" ++ [NL] ++ str "cd e" ++ [NL])
    [str "ca"; str "t f" ++ [NL] ++ str "c"; str "d d" ++ [NL] ++ str "cd e" ++ [NL]] [] 3 sample_world).
  - repeat constructor; discriminate.
  - repeat split; cbn; lia.
  - repeat constructor; discriminate.
  - reflexivity.
  - reflexivity.
  - reflexivity.
  - reflexivity.
  - lia.
Defined.
Lemma sh_child_runs_witness :
  typed_line (SExec [str "cat"; str "f"]) = str "cat f" ++ [NL] /\
  yields (run_line (str "cat f" ++ [NL])) sample_world None (add_log [Execed (str "cat") [str "cat"; str "f"]] sample_world).
Proof.
  split; [reflexivity|].
  refine (proj2 (sh_child_runs (SExec [str "cat"; str "f"]) _ _) (str "cat") [str "f"] sample_world eq_refl); [|discriminate].
  cbn. unfold MAXARGS. split; [lia|]. repeat constructor; try discriminate; reflexivity.
Defined.
Lemma forktest_ok_witness : exists w', yields forktest_main sample_world None w' /\ w_kids w' = [] /\ w_slots w' = 5%nat /\
  w_log w' = [Wrote 1 (str "fork test" ++ [NL])] ++ map Forked [3; 4; 5; 6; 7] ++ map Waited [3; 4; 5; 6; 7] ++ [Wrote 1 (str "fork test OK" ++ [NL])].
Proof. apply (forktest_ok sample_world); [reflexivity|cbn; lia|cbn; lia]. Defined.
